(* ===== verification/_CoqProject ===== *)
-Q . S2P
Prelude.v
CStd.v
Property.v
Device.v
DeviceTheory.v
DeviceMerge.v
DeviceClaims.v
Locks.v
LockTheory.v
LockClaims.v
DeviceStore.v
StoreTheory.v
StoreClaims.v
FdiRules.v
FdiInterp.v
FdiCache.v
FdiCompile.v
FdiClaims.v
AccessCheck.v
AccessClaims.v
Bus.v
BusClaims.v
Hotplug.v
HotplugClaims.v
Partutil.v
PartutilClaims.v
Util.v
UtilClaims.v
Dbus.v
DbusManager.v
DbusIntrospect.v
DbusDispatch.v
DbusTheory.v
DbusClaims.v
DbusQueueClaims.v
Libhal.v
LibhalCalls.v
LibhalTheory.v
LibhalClaims.v
ChangeSetClaims.v
Power.v
PowerClaims.v
Ids.v
IdsClaims.v
CallerTracker.v
CallerClaims.v
SessionTracker.v
SessionClaims.v
Storage.v
StorageClaims.v
MountClaims.v
DbusSession.v
SystemClaims.v
Runner.v
RunnerLink.v
RunnerClaims.v
LinuxSysfs.v
LinuxBuses.v
LinuxInput.v
LinuxCards.v
LinuxPower.v
LinuxClasses.v
LinuxUsb.v
LinuxSound.v
LinuxDevice.v
Blockdev.v
Acpi.v
ApmPmu.v
LinuxQueue.v
Udev.v
Osspec.v
OsspecTheory.v
UdevMessages.v
UdevClaims.v
LinuxPlace.v
LinuxTheory.v
LinuxClaims.v
StorageTools.v
StorageToolsTheory.v
StorageToolsClaims.v
