(* ===== verification/Prelude.v ===== *)
(** * The HAL daemon: a verification library

    hald keeps a table of devices with typed properties and offers it on
    D-Bus.  This library models the parts of the daemon that carry its logic,
    function by function, and proves what they promise to each other and to
    their clients.  Paths are relative to the repository's root directory.

    ** The parts and how they interact

    - [hald/device.c]: a device is a UDI, two add-on counters and a hash table
      of typed properties.  Every change emits signals.  Named locks are
      properties too; a list of devices with locks is shared by all devices.
    - [hald/device_store.c]: the global and the temporary list of devices.  A
      store forwards the signals of its devices and keeps an index of chosen
      string properties, updated by these signals.
    - [hald/create_cache.c]: compiles device information files (XML) to a
      cache of rules with jumps; [hald/device_info.c] walks the cache for a
      device, matches its properties and merges new ones.
    - [hald/hald.c], [hald/hald_dbus.c]: handlers of the global list turn the
      signals of the store into D-Bus signals; a dispatcher serves the methods
      of the Manager and Device interfaces, forwards calls to add-ons that
      claimed an interface, and runs programs for the methods of a device, one
      at a time per device; [hald/access-check.c] decides who is locked out.
      The filter for messages of the bus also hears of names that change their
      owner and of sessions, and then checks or drops locks.
    - [hald/util.c]: names of devices and interfaces, paths, values from files
      and the callouts run when a device comes or goes.
    - [libhal/libhal.c]: the client library: a call per method, property sets,
      change sets, and the delivery of signals to callbacks;
      [libhal-storage/libhal-storage.c] on top of it: drives and volumes.
    - [hald/linux/hotplug.c]: orders the events of the kernel and hands each
      to the code that adds or removes devices.
    - [hald/linux/device.c]: a table of handlers, one per kind of device; the
      first that accepts an event builds a device from sysfs.  The device waits in
      the temporary list while callouts and a prober run, gets its UDI and its
      properties from the rules, and moves to the global list.
    - [hald/linux/blockdev.c]: the same for disks and volumes; whether volumes
      are mounted, unmounting them when their disk goes, media that come and go,
      and software RAID.  [hald/linux/acpi.c], [hald/linux/apm.c] and
      [hald/linux/pmu.c]: batteries, adapters, buttons, fans, processors and panels
      that the kernel shows under /proc; they refresh each other, and are polled.
    - [hald/linux/osspec.c] reads the messages of udev, and [hald/linux/coldplug.c]
      makes the events of the start from sysfs and the database of udev; both
      enqueue events and start the processing of the queue.  [osspec.c] also fills
      the device of the machine itself, from which the start goes out.
    - [hald/ck-tracker.c], [hald/ci-tracker.c]: the sessions of ConsoleKit and a
      cache of what is known about callers, for the access checks.
    - [hald/device_pm.c], [hald/util_pm.c]: charge, percentage and remaining time
      of batteries; [hald/ids.c]: names for PCI, USB and PNP identifiers.
    - [hald/hald_runner.c] asks [hald-runner/] to run programs: helpers, add-ons
      and methods of devices.  The runner starts them, and tells the daemon how
      they ended.
    - [tools/hal-storage-*.c]: programs that the daemon runs as root for the methods
      Mount, Unmount, Eject and CloseTray, and to clean up mount points.  They are
      clients of the daemon, and keep a list of what they mounted.
    - [partutil/partutil.c]: a library for the probers that reads MS-DOS,
      extended, GPT and Apple partition tables; it uses nothing of the above.

    ** Files

    - [Prelude]: machine integers, strings, tactics and hints.
    - [CStd]: the C library as far as it is used, and the class [Platform] of
      the GLib functions that are parameters, with the laws the code relies on
      ([PlatformLaws]) and an instance for ASCII ([AsciiPlatform]).
    - [Property], [Device]: [HalProperty] and [HalDevice]; an operation is a
      computation of type [dev], which threads the device and the trace of the
      signals it emits.  [DeviceTheory] has programs of operations ([dop],
      [run_dops]), [DeviceMerge] merging and printing into buffers,
      [DeviceClaims] the claims.
    - [Locks]: the lock operations of [device.c], the abstract lock table
      ([acquire_spec], [release_spec]) and the simulation between them;
      [LockTheory] the clean-up of clients over many devices, [LockClaims] the
      claims.
    - [DeviceStore]: the store over a heap of devices, with the ownership of
      the index keys; [StoreTheory] the invariant of the index and the steps
      of a store, [StoreClaims] the claims.
    - [FdiRules]: [handle_match] and [handle_merge]; [FdiInterp] the walk over
      the cache and its correctness for a cache that lays out a tree of rules;
      [FdiCache] the compiler; [FdiCompile] its correctness for every document
      and directory; [FdiClaims] the claims.
    - [AccessCheck], [AccessClaims]: lock methods and access checks.
    - [Bus], [BusClaims]: signals on the bus, atomic updates, announcements.
    - [Hotplug], [HotplugClaims]: the queue of events.
    - [Partutil], [PartutilClaims]: partition tables read from the bytes of a
      disk, and the questions about their entries.
    - [Util], [UtilClaims]: [hald/util.c] and [hald_compute_udi].
    - [Dbus]: messages, replies, the state of the daemon ([hald]) and the monad
      [hm] of a handler, which threads this state, lists the actions it takes
      and may end in a [crash]; property access and searches.  [DbusManager]
      has advisory locks, add-ons and singletons, [NewDevice], [Remove] and
      [CommitToGdl]; [DbusIntrospect] the introspection data; [DbusDispatch]
      the queue of methods and the dispatcher.  [DbusTheory] has their common
      lemmas and an example daemon; [DbusClaims] and [DbusQueueClaims] the
      claims.
    - [Libhal]: arrays with their sizes, property sets, contexts;
      [LibhalCalls] the calls, change sets and [filter_func], where the
      connection may be the dispatcher of [DbusDispatch]; [LibhalTheory] the
      lemmas, [LibhalClaims] and [ChangeSetClaims] the claims, proved with the
      daemon of [DbusDispatch] at the other end.

    - [Storage]: drives and volumes from property sets, their names, icons and
      mount options; [StorageClaims] and [MountClaims] the claims.
    - [SessionTracker], [SessionClaims]: seats and sessions with their reference
      counts; [CallerTracker], [CallerClaims]: the cache of callers.
    - [DbusSession]: the filter for messages of the bus, over a state ([system])
      that joins the daemon, both trackers and the queue of session callouts;
      [SystemClaims] the claims.
    - [Power], [PowerClaims]: batteries; [Ids], [IdsClaims]: identifier tables.
    - [Runner]: the process that runs helpers, over a heap of requests, with the
      monad [rm]; [RunnerLink]: the daemon's side, with environments, pending
      calls and callbacks; [RunnerClaims] the claims on both.
    - [LinuxSysfs]: the files of the kernel (the class [Sysfs]), [sscanf], and the
      monad [am] of a handler that builds a device; [LinuxBuses], [LinuxInput],
      [LinuxCards], [LinuxPower], [LinuxClasses], [LinuxUsb], [LinuxSound]: the
      handlers of [device.c] in the order of the file; [LinuxDevice]: their table
      and the way of an event through it, over a state ([linux]) that joins the
      daemon, the queue of events, and what is waited for; the events that
      reprobing makes.  [Blockdev]: disks and volumes over the same state, with
      the class [BlockFiles] for mounts, device nodes, directories and udev.
      [Acpi], [ApmPmu]: power management objects.  [LinuxQueue] joins the queue of
      [Hotplug] with all these handlers: taking an event out may change the daemon
      and the queue.  [LinuxTheory] counts what is pending for an event;
      [LinuxPlace] and [LinuxClaims] have the claims.
    - [Udev]: messages of udev, its database and the events at the start (the class
      [ColdFiles]); [UdevMessages] and [UdevClaims] the claims.  [Osspec]: the
      device of the machine and the course of the start (the class [OsFiles]), with
      lemmas in [OsspecTheory].
    - [StorageTools]: the mount programs, over the daemon and the files under /media
      ([tm]; the class [ToolWorld] for files and programs); [StorageToolsTheory] the steps
      that only check, and the lines of the list, with what GLib documents of
      [g_strsplit] ([SplitLaws]); [StorageToolsClaims] the claims.

    ** What the theorems show

    - Refinement: the compiled rule cache means what the files say; a device
      implements the abstract lock table; the setters meet one specification.
    - Clients stay in step: whoever follows the signals of a device, in the
      daemon or on the bus, knows its properties; a device is announced once;
      an atomic update is one message per device.
    - Indexes: asking the index equals scanning the store.
    - Locks: an exclusive lock excludes, the methods keep others out, and a
      client that leaves holds nothing.
    - Ordering: dependent hotplug events begin in order, processing the queue
      ends and strands no event.
    - Privileges: the methods that change a device refuse other callers than
      root, the hal user and helpers, except those on string lists.
    - The bus interface: introspection declares the methods that are served
      (and one more); method calls on a device are served in order and
      answered; a singleton add-on hears of each device once.
    - The client library with the daemon: what a client sets it reads back, the
      getters and the property set agree with the device, a change set is one
      atomic update, and signals reach the callbacks with what was sent.  The
      arrays of replies stay in bounds.
    - Names: a computed UDI is unused and well formed.
    - Partition tables: a master boot record round-trips, a chain of extended
      tables gives the logical partitions at their places, the search by
      offset returns the entry that holds it.
    - Sessions and callers: the tracker never reads a freed session, and shows
      what ConsoleKit has; cached callers are those the bus would describe.
      When a session changes, the locks of callers without access are dropped
      and all others stay; a client that leaves is forgotten.
    - Storage: drives and volumes mirror the properties of their devices.
    - Mounting: the mount program runs one mount at most, behind all its checks, and with options
      that are valid for the device; a mount that fails leaves no trace, and
      unmounting restores /media.
    - Helpers: the runner answers each request once and never reads a request
      that it freed, for any order of messages, ends of processes and timers; a
      program is started with what the daemon asked for, and its result comes back
      to the callback.
    - Devices of the kernel: every handler stores the path of a device and its
      parent; an event of any kind, taken from the queue, is in progress exactly as
      long as something is pending for it, and it takes at most three answers until
      it ends.  A message of udev is enqueued as the event that was sent.  At the
      start, every device that was found is announced once, after the devices above
      it, for which its event waits; the machine itself takes at most three answers
      of helpers.
    - Batteries and names: a battery report is consistent and within its bounds,
      the names in pci.ids are found for their identifiers, and the search in
      the table of PNP identifiers equals a scan except for four entries.
    - Types, UTF-8, buffers: properties keep their types, strings are valid,
      no write leaves its buffer.
    - The places where the code does not do what it means to are theorems as
      well: freed index keys, a failed exclusive request, long lock names,
      interleaved atomic updates, unsigned comparisons, endless <spawn>, the
      unused exception for the computer, overlapping hotplug events,
      endless chains of extended partition tables, lost extended partitions,
      string lists without a check of privileges, the queue of a device that
      vanished, UDIs too long to be made unique, a start that no helper brings to
      its end, the search in the table of chassis types.  Some of these are lemmas
      of the claim files, and so are other properties, e.g. that searches return
      the devices they should, that advisory and exclusive locks exclude, that the mount
      options of a policy are those switched on, that an atomic update is one message, and
      that the value of a mount option may hold further options.

    ** Conventions, bounds and fuel

    C integers are [Z] with [u32], [s32], [u64], [s64] at every conversion, on
    an LP64 target.  C strings are strings without zero bytes; a string that
    does not fit its buffer is an error value where it is then read.  Errors
    are values: [option], [outcome] (with the kind of [fault]), [parse],
    [reply].  Objects with identity (devices, events) are numbers in a heap.

    Fuel occurs in fifteen places.  The repair of invalid UTF-8 has the length of
    the string, which is proved to be enough.  The walk over the cache has one
    unit per rule, enough since jumps go forward (proved); the nesting of
    spawned devices has a separate bound, and the claim about <spawn> is that
    no bound is enough for a foreign UDI.  Processing the hotplug queue has
    [(n + 1) * (n + 1)] rounds, proved to be enough when handlers add no
    events.  A chain of extended partition tables has one unit per table,
    proved to be enough for every chain that ends; for a cyclic one no fuel is
    enough, as proved too.  The search for an unused UDI has one unit more than
    there are devices, proved to be enough for UDIs that leave room for a
    number; for longer ones no fuel is.  [HASH_SORT] has the number of elements,
    proved to be enough.  The loops over pci.ids and usb.ids have the length of
    the text, and [bsearch] the length of its table, which halves each time.
    The search for a known parent has the length of the path, which each round
    shortens; the walk over a tree of devices to reprobe has a bound on its depth.
    Links that point to links, and the parents of a disk up to the machine, have
    bounds of their own: a cycle of either has no end in the code, and running out
    is an error value.  The queue with the real handlers has a bound on its rounds:
    when a disk is reprobed while it has a volume of its own with callouts, its
    removal begins again and again in the code, as its event does not wait for
    that of the volume.  The search for a free directory under /media has as many
    rounds as there are directories, which is proved to be enough; links in
    [StorageTools] have a bound as above.

    The functions of libhal are modelled for a caller that passes a DBusError.
    Messages about devices that rules spawn while a device is committed are not
    announced one by one.

    ** Parameters

    GLib's text functions and hash, the contents of uninitialized buffers, the
    answers of PolicyKit and ConsoleKit, whether a helper could be started,
    the events of the XML parser and the entries of directories, the order in
    which a hash table is walked, what the handlers of hotplug events do, the
    contents of files, the answers of the operating system to a rescan, and the
    replies of programs and add-ons, whether a program could be started, when
    and how processes end, what a variable holds that was never written, and the
    sorting function of GLib ([SortLaws] states what is used of it).

    ** Not modelled

    I/O (sysfs, sockets, mmap, processes), property waiting
    ([hal_device_async_wait_property]), logging, the back ends for other
    systems, the start of the helper runner, probers and the other tools, memory that runs out, and the
    changes of partition tables, which libparted makes.

    Of the Linux back end: the creation of sockets and watches ([osspec_init]). *)

From Stdlib Require Import ZArith Lia Ascii.
From stdpp Require Import base list gmap strings option.

#[global] Open Scope Z_scope.
Declare Scope hal_scope.
Delimit Scope hal_scope with hal.
#[global] Open Scope hal_scope.

(** ** Machine integers

    A [w]-bit C integer is a [Z] in the range of its type; every conversion
    the code performs is written with one of these two functions. *)
Definition wrap_u (w : Z) (z : Z) : Z := z mod 2 ^ w.
Definition wrap_s (w : Z) (z : Z) : Z :=
  (z + 2 ^ (w - 1)) mod 2 ^ w - 2 ^ (w - 1).

Definition in_u (w z : Z) : Prop := 0 <= z < 2 ^ w.
Definition in_s (w z : Z) : Prop := - 2 ^ (w - 1) <= z < 2 ^ (w - 1).

Notation "'u32' z" := (wrap_u 32 z) (at level 10, only parsing) : hal_scope.
Notation "'u64' z" := (wrap_u 64 z) (at level 10, only parsing) : hal_scope.
Notation "'s32' z" := (wrap_s 32 z) (at level 10, only parsing) : hal_scope.
Notation "'s64' z" := (wrap_s 64 z) (at level 10, only parsing) : hal_scope.

Lemma wrap_u_range w z : 0 <= w -> in_u w (wrap_u w z).
Proof. intros Hw. unfold in_u, wrap_u. apply Z.mod_pos_bound. lia. Qed.

Lemma wrap_s_range w z : 0 < w -> in_s w (wrap_s w z).
Proof.
  intros Hw. unfold in_s, wrap_s.
  pose proof (Z.mod_pos_bound (z + 2 ^ (w - 1)) (2 ^ w) ltac:(lia)).
  assert (2 ^ w = 2 * 2 ^ (w - 1)) as He.
  { rewrite <- Z.pow_succ_r by lia. f_equal. lia. }
  lia.
Qed.

Lemma wrap_u_id w z : in_u w z -> wrap_u w z = z.
Proof. intros H. apply Z.mod_small, H. Qed.

Lemma wrap_s_id w z : 0 < w -> in_s w z -> wrap_s w z = z.
Proof.
  intros Hw [H1 H2]. unfold wrap_s.
  assert (2 ^ w = 2 * 2 ^ (w - 1)) as He.
  { rewrite <- Z.pow_succ_r by lia. f_equal. lia. }
  rewrite Z.mod_small; lia.
Qed.

(** ** Hint databases and tactics *)
Create HintDb hal.
#[export] Hint Resolve wrap_u_range wrap_s_range : hal.

(** [destr_if] splits the innermost test of
    the goal; [destr_match] splits the discriminee of a [match]. *)
Ltac destr_if :=
  match goal with
  | |- context [if ?b then _ else _] =>
      lazymatch b with context [if _ then _ else _] => fail | _ => destruct b eqn:? end
  end.

Ltac destr_match :=
  match goal with
  | |- context [match ?e with _ => _ end] =>
      lazymatch e with context [match _ with _ => _ end] => fail | _ => destruct e eqn:? end
  end.

Ltac bool_hyps :=
  repeat match goal with
  | H : bool_decide _ = true |- _ => apply bool_decide_eq_true in H
  | H : bool_decide _ = false |- _ => apply bool_decide_eq_false in H
  | H : (_ && _)%bool = true |- _ => apply andb_true_iff in H; destruct H
  | H : (_ || _)%bool = false |- _ => apply orb_false_iff in H; destruct H
  | H : negb _ = true |- _ => apply negb_true_iff in H
  | H : negb _ = false |- _ => apply negb_false_iff in H
  end.

(** ** Strings

    A [char *] is a Rocq [string] (its bytes up to, and without, the
    terminating NUL).  Equality tests are written with [bool_decide]. *)
Notation "a =s? b" := (bool_decide (a = b :> string)) (at level 70) : hal_scope.

#[global] Instance ascii_eq_dec : EqDecision ascii := ascii_dec.

Lemma string_length_app (a b : string) :
  String.length (a +:+ b) = (String.length a + String.length b)%nat.
Proof. induction a as [|c a IH]; simpl; [done | by rewrite IH]. Qed.

Lemma string_app_nil_r (a : string) : a +:+ "" = a.
Proof. induction a as [|c a IH]; [done | exact (f_equal (String c) IH)]. Qed.

Lemma string_app_assoc (a b c : string) : a +:+ (b +:+ c) = (a +:+ b) +:+ c.
Proof. induction a as [|x a IH]; [done | exact (f_equal (String x) IH)]. Qed.

Lemma string_app_inj_l (p a b : string) : p +:+ a = p +:+ b -> a = b.
Proof. induction p as [|c p IH]; simpl; [done | intros [= H]; auto]. Qed.

Lemma string_app_inv (a b c d : string) :
  String.length a = String.length b -> a +:+ c = b +:+ d -> a = b /\ c = d.
Proof.
  revert b. induction a as [|x a IH]; intros [|y b]; simpl; try lia; [done|].
  intros Hl [= -> He]. destruct (IH b) as [-> ->]; [lia | done | done].
Qed.

Lemma string_app_inj_r (a b s : string) : a +:+ s = b +:+ s -> a = b.
Proof.
  intros H. apply (string_app_inv a b s s); [|done].
  apply (f_equal String.length) in H. rewrite !string_length_app in H. lia.
Qed.

(** Two suffixes of the same length that differ make the whole strings differ. *)
Lemma string_suffix_neq (a b s t : string) :
  String.length s = String.length t -> s <> t -> a +:+ s <> b +:+ t.
Proof.
  intros Hl Hn H. apply Hn. apply (string_app_inv a b s t); [|done].
  apply (f_equal String.length) in H. rewrite !string_length_app in H. lia.
Qed.
