(* ===== verification/CStd.v ===== *)
(** * The C library and GLib as the daemon uses them

    Concrete definitions for the parts of ISO C the modelled code calls
    ([strcmp], [strstr], [strncpy], [snprintf], [strtol], conversions between
    the integer types and from [double]), on an LP64 target: [int] has 32
    bits, [long] and [long long] have 64.

    The text functions of GLib, and the two conversions of [double] that
    depend on the process locale, are not code of this repository: they are
    the fields of the class [Platform], and what the code relies on is stated
    as the laws of [PlatformLaws]. *)

From Stdlib Require Import ZArith Lia Ascii SpecFloat.
From stdpp Require Import base list gmap strings option pretty.
From S2P Require Import Prelude.

(** ** Characters *)
Definition char_code (c : ascii) : Z := Z.of_nat (nat_of_ascii c).

Definition isspace (c : ascii) : bool :=
  let z := char_code c in ((9 <=? z) && (z <=? 13)) || (z =? 32).

(** Value of a digit in bases up to 36. *)
Definition digit_val (c : ascii) : option Z :=
  let z := char_code c in
  if (48 <=? z) && (z <=? 57) then Some (z - 48)
  else if (97 <=? z) && (z <=? 122) then Some (z - 87)
  else if (65 <=? z) && (z <=? 90) then Some (z - 55)
  else None.

(** ** Strings *)

(** [strcmp]: the sign of the comparison of the bytes as [unsigned char]. *)
Definition strcmp (a b : string) : Z :=
  match String.compare a b with Eq => 0 | Lt => -1 | Gt => 1 end.

(** [strncmp (s, p, strlen (p)) == 0], which is also [g_str_has_prefix]. *)
Definition has_prefix (s p : string) : bool := String.prefix p s.

Definition str_drop (n : nat) (s : string) : string :=
  String.substring n (String.length s - n) s.
Definition str_take (n : nat) (s : string) : string := String.substring 0 n s.

Definition has_suffix (s x : string) : bool :=
  if decide (String.length x <= String.length s)%nat
  then str_drop (String.length s - String.length x) s =s? x else false.

(** [strstr (hay, needle) != NULL]. *)
Fixpoint strstr (hay needle : string) : bool :=
  String.prefix needle hay ||
  match hay with EmptyString => false | String _ h => strstr h needle end.

(** [strchr (s, c) != NULL] for [c] not NUL. *)
Fixpoint strchr (s : string) (c : ascii) : bool :=
  match s with
  | EmptyString => false
  | String x s' => bool_decide (x = c) || strchr s' c
  end.

(** What [strstr] and [strchr] point at: the text before, and from the
    occurrence on. *)
Fixpoint split_at_first (hay needle : string) : option (string * string) :=
  if has_prefix hay needle then Some (EmptyString, hay)
  else match hay with
       | EmptyString => None
       | String c h => '(a, b) ← split_at_first h needle; Some (String c a, b)
       end.

(** [snprintf] into a buffer of [n > 0] bytes keeps the first [n-1] bytes. *)
Definition snprintf (n : nat) (s : string) : string := str_take (n - 1) s.

(** [strncpy] into a buffer of [n] bytes: [None] when the source does not fit
    with its terminator, which leaves the buffer without one. *)
Definition strncpy (n : nat) (s : string) : option string :=
  if decide (String.length s < n)%nat then Some s else None.

(** ** Numbers in strings *)
Fixpoint skip_space (s : string) : string :=
  match s with
  | String c s' => if isspace c then skip_space s' else s
  | EmptyString => s
  end.

Fixpoint digits (base acc : Z) (s : string) : Z :=
  match s with
  | String c s' =>
      match digit_val c with
      | Some d => if d <? base then digits base (acc * base + d) s' else acc
      | None => acc
      end
  | EmptyString => acc
  end.

Definition is_hex (c : ascii) : bool :=
  match digit_val c with Some d => d <? 16 | None => false end.

(** The magnitude [strtol (s, NULL, 0)] reads after the sign. *)
Definition magnitude (s : string) : Z :=
  match s with
  | String "0" (String x (String h _ as r)) =>
      if (bool_decide (x = "x"%char) || bool_decide (x = "X"%char)) && is_hex h
      then digits 16 0 r else digits 8 0 s
  | String "0" _ => digits 8 0 s
  | _ => digits 10 0 s
  end.

Definition sign_split (s : string) : bool * string :=
  match s with
  | String "-" r => (true, r)
  | String "+" r => (false, r)
  | _ => (false, s)
  end.

(** [strtol] and [strtoll] with base 0: saturation at the 64-bit range. *)
Definition strtoll (s : string) : Z :=
  let '(neg, r) := sign_split (skip_space s) in
  let m := magnitude r in
  Z.max (- 2 ^ 63) (Z.min (2 ^ 63 - 1) (if neg then - m else m)).

(** [strtoull] with base 0: saturation first, then the sign is applied in
    unsigned arithmetic. *)
Definition strtoull (s : string) : Z :=
  let '(neg, r) := sign_split (skip_space s) in
  let m := magnitude r in
  if 2 ^ 64 <=? m then 2 ^ 64 - 1 else wrap_u 64 (if neg then - m else m).

Lemma strtoll_range s : in_s 64 (strtoll s).
Proof. unfold strtoll, in_s. destruct (sign_split _) as [[] r]; lia. Qed.

Lemma strtoull_range s : in_u 64 (strtoull s).
Proof.
  unfold strtoull. destruct (sign_split _) as [neg r].
  destruct (_ <=? _) eqn:E; [unfold in_u; lia | by apply wrap_u_range].
Qed.
#[export] Hint Resolve strtoll_range strtoull_range : hal.

Fixpoint string_map (f : ascii -> ascii) (s : string) : string :=
  match s with EmptyString => "" | String c s' => String (f c) (string_map f s') end.

(** [strcasecmp] in the C locale. *)
Definition tolower (c : ascii) : ascii :=
  let n := N_of_ascii c in if (65 <=? n)%N && (n <=? 90)%N then ascii_of_N (n + 32) else c.
Definition strcasecmp (a b : string) : Z := strcmp (string_map tolower a) (string_map tolower b).

(** ** Doubles: IEEE binary64 *)
Definition double := spec_float.
Definition dbl_eqb (a b : double) : bool := SFeqb a b.
Definition dbl_sub (a b : double) : double := SFsub 53 1024 a b.
Definition dbl_of_int (z : Z) : double := binary_normalize 53 1024 z 0 false.
Definition dbl_div (a b : double) : double := SFdiv 53 1024 a b.
Definition dbl_mul (a b : double) : double := SFmul 53 1024 a b.

#[global] Instance double_eq_dec : EqDecision double.
Proof. intros a b. unfold Decision. repeat decide equality. Defined.

(** [(dbus_int64_t) ceil (x)]; out of range the x86-64 conversion yields the
    smallest integer. *)
Definition ceil_int64 (x : double) : Z :=
  match x with
  | S754_finite sg m e =>
      let z := if sg then - Z.pos m else Z.pos m in
      let c := if 0 <=? e then z * 2 ^ e else - ((- z) / 2 ^ (- e)) in
      if (- 2 ^ 63 <=? c) && (c <? 2 ^ 63) then c else - 2 ^ 63
  | S754_zero _ => 0
  | _ => - 2 ^ 63
  end.

(** ** Code outside the repository *)
Class Platform := {
  (** [None] when valid, otherwise the offset stored through [end] *)
  g_utf8_validate : string -> option nat;
  g_utf8_strdown : string -> string;
  (** string, delimiter, [max_tokens] *)
  g_strsplit : string -> string -> Z -> list string;
  g_ascii_strcaseeq : string -> string -> bool;
  g_path_is_absolute : string -> bool;
  (** locale dependent conversions of [double] *)
  atof : string -> double;
  printf_f : double -> string;
}.

(** What GLib documents of [g_utf8_validate]: the offset points into the
    string, right after its valid prefix; validity is decided from left to
    right; and a string of one ASCII character is valid. *)
Class PlatformLaws (P : Platform) : Prop := {
  utf8_offset s i : g_utf8_validate s = Some i -> (i < String.length s)%nat;
  utf8_valid_prefix s i :
    g_utf8_validate s = Some i -> g_utf8_validate (str_take i s) = None;
  utf8_app p q :
    g_utf8_validate p = None ->
    g_utf8_validate (p +:+ q) =
      (fun j => (String.length p + j)%nat) <$> g_utf8_validate q;
  utf8_ascii c : char_code c < 128 -> g_utf8_validate (String c "") = None;
}.

(** ** Lemmas *)
Lemma str_take_length n s :
  String.length (str_take n s) = Nat.min n (String.length s).
Proof.
  unfold str_take. revert n. induction s as [|c s IH]; intros [|n]; simpl; auto.
Qed.

Lemma str_take_all n s : (String.length s <= n)%nat -> str_take n s = s.
Proof.
  unfold str_take. revert n.
  induction s as [|c s IH]; intros [|n]; simpl; try lia; [done..|].
  intros H. rewrite IH; [done | lia].
Qed.

Lemma str_drop_0 s : str_drop 0 s = s.
Proof. unfold str_drop. rewrite Nat.sub_0_r. by apply str_take_all. Qed.

Lemma str_take_drop n s : str_take n s +:+ str_drop n s = s.
Proof.
  revert n. induction s as [|c s IH]; intros [|n]; try done.
  - apply str_drop_0.
  - exact (f_equal (String c) (IH n)).
Qed.

Lemma str_drop_length n s : String.length (str_drop n s) = (String.length s - n)%nat.
Proof.
  pose proof (f_equal String.length (str_take_drop n s)) as H.
  rewrite string_length_app, str_take_length in H. lia.
Qed.

Lemma str_take_app a b : str_take (String.length a) (a +:+ b) = a.
Proof.
  unfold str_take. induction a as [|c a IH]; [by destruct b|]. simpl. by rewrite IH.
Qed.

Lemma str_drop_app a b : str_drop (String.length a) (a +:+ b) = b.
Proof.
  pose proof (str_take_drop (String.length a) (a +:+ b)) as H. rewrite str_take_app in H.
  by apply string_app_inj_l in H.
Qed.

Lemma has_prefix_spec s p : has_prefix s p = true <-> exists r, s = p +:+ r.
Proof.
  unfold has_prefix. revert s. induction p as [|c p IH]; intros s; simpl.
  - split; [|destruct s; done]. intros _. exists s. done.
  - destruct s as [|x s]; [split; [done | by intros [r ?]]|].
    cbn [String.prefix]. destruct (ascii_dec c x) as [->|Hne].
    + destruct (IH s) as [IH1 IH2]. split.
      * intros H. destruct (IH1 H) as [r ->]. by exists r.
      * intros [r Hr]. apply IH2. exists r. by injection Hr.
    + split; [intros; discriminate|]. intros [r Hr]. injection Hr; congruence.
Qed.

Lemma strcmp_eq a b : strcmp a b = 0 <-> a = b.
Proof.
  split.
  - unfold strcmp. destruct (String.compare a b) eqn:E; try lia.
    intros _. by apply String.compare_eq_iff.
  - intros ->. unfold strcmp. pose proof (String.compare_antisym b b) as H.
    destruct (String.compare b b); [done | discriminate H | discriminate H].
Qed.

Lemma snprintf_fits n s : (String.length s < n)%nat -> snprintf n s = s.
Proof. intros H. apply str_take_all. lia. Qed.

Lemma strstr_spec h n : strstr h n = true <-> exists a b, h = a +:+ n +:+ b.
Proof.
  induction h as [|c h IH]; cbn [strstr].
  - rewrite orb_false_r. change (String.prefix n "") with (has_prefix "" n).
    rewrite has_prefix_spec. split.
    + intros [r Hr]. by exists "", r.
    + intros (a & b & Hab). destruct a; [by exists b | done].
  - rewrite orb_true_iff. change (String.prefix n (String c h)) with (has_prefix (String c h) n).
    rewrite has_prefix_spec, IH. split.
    + intros [[r Hr] | (a & b & ->)]; [by exists "", r | by exists (String c a), b].
    + intros (a & b & Hab). destruct a as [|x a]; simpl in Hab; [left; eauto|].
      injection Hab as -> ->. right. eauto.
Qed.

(** ** An instance

    A platform for a plain ASCII locale, on which the witnesses evaluate the
    definitions. *)
Module AsciiPlatform.

Fixpoint validate (s : string) : option nat :=
  match s with
  | EmptyString => None
  | String c s' => if char_code c <? 128 then S <$> validate s' else Some O
  end.

Definition lower (c : ascii) : ascii :=
  let n := nat_of_ascii c in
  if decide (65 <= n <= 90)%nat then ascii_of_nat (n + 32) else c.

Fixpoint strdown (s : string) : string :=
  match s with EmptyString => "" | String c s' => String (lower c) (strdown s') end.

(** Splitting at a one-character delimiter into at most [fuel] pieces. *)
Fixpoint split (d : ascii) (fuel : nat) (cur s : string) : list string :=
  match s with
  | EmptyString => [cur]
  | String c s' =>
      match fuel with
      | S (S f as g) => if bool_decide (c = d) then cur :: split d g "" s'
                        else split d fuel (cur +:+ String c "") s'
      | _ => split d fuel (cur +:+ String c "") s'
      end
  end.

Definition strsplit (s d : string) (max_tokens : Z) : list string :=
  match s, d with
  | EmptyString, _ => []
  | _, String c _ =>
      split c (if max_tokens <=? 0 then S (String.length s) else Z.to_nat max_tokens) "" s
  | _, EmptyString => [s]
  end.

#[export] Instance platform : Platform := {|
  g_utf8_validate := validate;
  g_utf8_strdown := strdown;
  g_strsplit := strsplit;
  g_ascii_strcaseeq a b := strdown a =s? strdown b;
  g_path_is_absolute s := has_prefix s "/";
  atof s := binary_normalize 53 1024 (strtoll s) 0 false;
  printf_f d := pretty (ceil_int64 d) +:+ ".000000";
|}.

Lemma validate_app p q :
  validate p = None ->
  validate (p +:+ q) = (fun j => (String.length p + j)%nat) <$> validate q.
Proof.
  induction p as [|c p IH]; intros H.
  - change ("" +:+ q) with q. by destruct (validate q).
  - cbn [validate] in H. change (String c p +:+ q) with (String c (p +:+ q)).
    cbn [validate]. destruct (_ <? _); [|done].
    destruct (validate p) eqn:Ep; [done|]. rewrite IH by done. by destruct (validate q).
Qed.

#[export] Instance platform_laws : PlatformLaws platform.
Proof.
  split; simpl.
  - induction s as [|c s IH]; intros i; cbn [validate String.length]; [done|].
    destruct (_ <? _); [|intros [= <-]; lia].
    destruct (validate s) as [j|] eqn:E; [|done]. intros [= <-].
    specialize (IH j eq_refl). lia.
  - unfold str_take. induction s as [|c s IH]; intros i; cbn [validate]; [done|].
    destruct (_ <? _) eqn:E; [|intros [= <-]; done].
    destruct (validate s) as [j|] eqn:Ej; [|done]. intros [= <-].
    cbn [String.substring validate]. rewrite E. by rewrite (IH j eq_refl).
  - apply validate_app.
  - intros c Hc. cbn [validate]. by destruct (Z.ltb_spec (char_code c) 128); [|lia].
Qed.

End AsciiPlatform.
