(* ===== verification/Property.v ===== *)
(** * Property values ([hald/device.c], the [HalProperty] part)

    [HalProperty] is the tagged union of [struct _HalProperty]; the tag is the
    constructor.  A setter or getter applied to a property of another type
    fails its [g_return_if_fail] guard: it changes nothing and returns the
    value the guard names.  [v.str_value] is NULL only between
    [hal_property_new] and the [hal_property_set_string] that every caller
    runs right after it, so the model starts it as the empty string. *)

From Stdlib Require Import ZArith Lia Ascii SpecFloat.
From stdpp Require Import base list gmap strings option pretty.
From S2P Require Import Prelude CStd.

Inductive prop_type :=
  | HAL_PROPERTY_TYPE_INVALID
  | HAL_PROPERTY_TYPE_INT32
  | HAL_PROPERTY_TYPE_UINT64
  | HAL_PROPERTY_TYPE_DOUBLE
  | HAL_PROPERTY_TYPE_BOOLEAN
  | HAL_PROPERTY_TYPE_STRING
  | HAL_PROPERTY_TYPE_STRLIST.

#[global] Instance prop_type_eq_dec : EqDecision prop_type.
Proof. solve_decision. Defined.

Inductive HalProperty :=
  | PString (str_value : string)
  | PInt32 (int_value : Z)
  | PUint64 (uint64_value : Z)
  | PBoolean (bool_value : bool)
  | PDouble (double_value : double)
  | PStrlist (strlist_value : list string).

#[global] Instance HalProperty_eq_dec : EqDecision HalProperty.
Proof. solve_decision. Defined.

Notation "a =t? b" := (bool_decide (a = b :> prop_type)) (at level 70) : hal_scope.

Definition hal_property_get_type (p : HalProperty) : prop_type :=
  match p with
  | PString _ => HAL_PROPERTY_TYPE_STRING
  | PInt32 _ => HAL_PROPERTY_TYPE_INT32
  | PUint64 _ => HAL_PROPERTY_TYPE_UINT64
  | PBoolean _ => HAL_PROPERTY_TYPE_BOOLEAN
  | PDouble _ => HAL_PROPERTY_TYPE_DOUBLE
  | PStrlist _ => HAL_PROPERTY_TYPE_STRLIST
  end.

(** The zeroed property of a type.  No caller passes the invalid type. *)
Definition hal_property_new (t : prop_type) : HalProperty :=
  match t with
  | HAL_PROPERTY_TYPE_STRING | HAL_PROPERTY_TYPE_INVALID => PString ""
  | HAL_PROPERTY_TYPE_INT32 => PInt32 0
  | HAL_PROPERTY_TYPE_UINT64 => PUint64 0
  | HAL_PROPERTY_TYPE_BOOLEAN => PBoolean false
  | HAL_PROPERTY_TYPE_DOUBLE => PDouble (S754_zero false)
  | HAL_PROPERTY_TYPE_STRLIST => PStrlist []
  end.

(** ** Getters *)
Definition hal_property_get_string (p : HalProperty) : option string :=
  match p with PString s => Some s | _ => None end.
Definition hal_property_get_int (p : HalProperty) : Z :=
  match p with PInt32 z => z | _ => -1 end.
(** [-1] is returned as a [dbus_uint64_t]. *)
Definition hal_property_get_uint64 (p : HalProperty) : Z :=
  match p with PUint64 z => z | _ => u64 (-1) end.
Definition hal_property_get_bool (p : HalProperty) : bool :=
  match p with PBoolean b => b | _ => false end.
(** A NULL [GSList] is the empty list. *)
Definition hal_property_get_strlist (p : HalProperty) : list string :=
  match p with PStrlist l => l | _ => [] end.
Definition minus_one : double := S754_finite true 4503599627370496 (-52).
Definition hal_property_get_double (p : HalProperty) : double :=
  match p with PDouble d => d | _ => minus_one end.

(** ** String lists *)
Definition hal_property_strlist_append (p : HalProperty) (v : string) : bool * HalProperty :=
  match p with PStrlist l => (true, PStrlist (l ++ [v])) | _ => (false, p) end.

Definition hal_property_strlist_prepend (p : HalProperty) (v : string) : bool * HalProperty :=
  match p with PStrlist l => (true, PStrlist (v :: l)) | _ => (false, p) end.

Definition hal_property_strlist_remove_elem (p : HalProperty) (index : nat) : bool * HalProperty :=
  match p with
  | PStrlist l =>
      match l !! index with
      | Some _ => (true, PStrlist (delete index l))
      | None => (false, p)
      end
  | _ => (false, p)
  end.

Definition hal_property_strlist_add (p : HalProperty) (v : string) : bool * HalProperty :=
  match p with
  | PStrlist l => if existsb (fun e => e =s? v) l then (false, p)
                  else hal_property_strlist_append p v
  | _ => (false, p)
  end.

(** The loop of [hal_property_strlist_remove]: [i] counts the elements before
    [l]. *)
Fixpoint strlist_index (v : string) (i : nat) (l : list string) : option nat :=
  match l with
  | [] => None
  | e :: l' => if e =s? v then Some i else strlist_index v (S i) l'
  end.

Definition hal_property_strlist_remove (p : HalProperty) (v : string) : bool * HalProperty :=
  match p with
  | PStrlist l =>
      match strlist_index v 0 l with
      | Some i => hal_property_strlist_remove_elem p i
      | None => (false, p)
      end
  | _ => (false, p)
  end.

Section Platform.
Context {P : Platform}.

(** ** Setters *)

(** [*endchar = '?'] *)
Definition put_question_mark (i : nat) (s : string) : string :=
  str_take i s +:+ String "?" (str_drop (S i) s).

(** The [while (!g_utf8_validate (...))] loop; [None] when the fuel is spent. *)
Fixpoint utf8_fix (fuel : nat) (s : string) : option string :=
  match g_utf8_validate s with
  | None => Some s
  | Some i =>
      match fuel with
      | O => None
      | S f => utf8_fix f (put_question_mark i s)
      end
  end.

Definition utf8_sanitize (s : string) : string :=
  default s (utf8_fix (String.length s) s).

Definition hal_property_set_string (p : HalProperty) (value : option string) : HalProperty :=
  match p with
  | PString _ => PString (utf8_sanitize (default "" value))
  | _ => p
  end.
Definition hal_property_set_int (p : HalProperty) (value : Z) : HalProperty :=
  match p with PInt32 _ => PInt32 value | _ => p end.
Definition hal_property_set_uint64 (p : HalProperty) (value : Z) : HalProperty :=
  match p with PUint64 _ => PUint64 value | _ => p end.
Definition hal_property_set_bool (p : HalProperty) (value : bool) : HalProperty :=
  match p with PBoolean _ => PBoolean value | _ => p end.
Definition hal_property_set_double (p : HalProperty) (value : double) : HalProperty :=
  match p with PDouble _ => PDouble value | _ => p end.

(** ** Printing *)

(** The loop over a string list in [hal_property_to_string]: elements
    separated by tabs. *)
Fixpoint join_tabs (l : list string) : string :=
  match l with
  | [] => ""
  | [x] => x
  | x :: l' => x +:+ String "009" (join_tabs l')
  end.

Definition hal_property_to_string (p : HalProperty) : string :=
  match p with
  | PString s => s
  | PInt32 z => pretty z
  | PUint64 z => pretty z
  | PBoolean b => if b then "true" else "false"
  | PDouble d => printf_f d
  | PStrlist l => join_tabs l
  end.

(** *** Printing into a caller's buffer

    The buffer is the list of its [bufsize] bytes. *)
Definition NUL : ascii := "000".
Definition TAB : ascii := "009".

Definition buf_put (i : nat) (bytes buf : list ascii) : list ascii :=
  take i buf ++ bytes ++ drop (i + length bytes) buf.

(** The [n] bytes [strncpy (dst, s, n)] writes. *)
Definition strncpy_bytes (n : nat) (s : string) : list ascii :=
  take n (String.list_ascii_of_string s ++ replicate n NUL).

(** The bytes [snprintf (dst, n, ...)] writes for the text [s]. *)
Definition snprintf_bytes (n : nat) (s : string) : list ascii :=
  match n with O => [] | S m => take m (String.list_ascii_of_string s) ++ [NUL] end.

Fixpoint strlist_into (l : list string) (i : nat) (buf : list ascii) : list ascii :=
  match l with
  | [] => buf
  | str :: l' =>
      if decide (i < length buf)%nat then
        let buf1 := buf_put i (strncpy_bytes (length buf - i) str) buf in
        let i1 := (i + String.length str)%nat in
        if decide (i1 < length buf)%nat
        then strlist_into l' (S i1) (buf_put i1 [TAB] buf1)
        else strlist_into l' i1 buf1
      else buf
  end.

(** The switch of [hal_device_property_get_as_string]. *)
Definition property_as_string (p : HalProperty) (buf : list ascii) : list ascii :=
  let n := length buf in
  match p with
  | PString s => buf_put 0 (strncpy_bytes n s) buf
  | PInt32 z => buf_put 0 (snprintf_bytes n (pretty z)) buf
  | PUint64 z => buf_put 0 (snprintf_bytes n (pretty z)) buf
  | PDouble d => buf_put 0 (snprintf_bytes n (printf_f d)) buf
  | PBoolean b => buf_put 0 (strncpy_bytes n (if b then "true" else "false")) buf
  | PStrlist l =>
      strlist_into l 1 (if decide (0 < n)%nat then buf_put 0 [TAB] buf else buf)
  end.

(** The C string a buffer holds; [None] when it has no terminator. *)
Fixpoint cstr (buf : list ascii) : option string :=
  match buf with
  | [] => None
  | c :: b => if bool_decide (c = NUL) then Some "" else String c <$> cstr b
  end.

End Platform.

(** ** Lemmas *)

Lemma strlist_index_spec v l i :
  match strlist_index v i l with
  | Some j => exists k, j = (i + k)%nat /\ l !! k = Some v /\ v ∉ take k l
  | None => v ∉ l
  end.
Proof.
  revert i. induction l as [|e l IH]; intros i; simpl; [set_solver|].
  case_bool_decide as He.
  - subst. exists O. split; [lia|]. split; [done | set_solver].
  - specialize (IH (S i)). destruct (strlist_index v (S i) l) as [j|].
    + destruct IH as (k & -> & Hk & Hn). exists (S k). split; [lia|].
      split; [done|]. simpl. set_solver.
    + set_solver.
Qed.

(** [hal_property_strlist_remove] deletes the first occurrence. *)
Lemma strlist_remove_absent l v :
  v ∉ l -> hal_property_strlist_remove (PStrlist l) v = (false, PStrlist l).
Proof.
  intros H. simpl. pose proof (strlist_index_spec v l 0) as Hs.
  destruct (strlist_index v 0 l) as [j|]; [|done].
  destruct Hs as (k & _ & Hk & _). apply list_elem_of_lookup_2 in Hk. done.
Qed.

Lemma strlist_remove_first l1 l2 v :
  v ∉ l1 ->
  hal_property_strlist_remove (PStrlist (l1 ++ v :: l2)) v = (true, PStrlist (l1 ++ l2)).
Proof.
  intros H. simpl. pose proof (strlist_index_spec v (l1 ++ v :: l2) 0) as Hs.
  destruct (strlist_index v 0 _) as [j|]; [|set_solver].
  destruct Hs as (k & -> & Hk & Hn). assert (k = length l1) as ->.
  { destruct (lt_eq_lt_dec k (length l1)) as [[Hlt|]|Hgt]; [|done|].
    - rewrite lookup_app_l in Hk by done. apply list_elem_of_lookup_2 in Hk. done.
    - exfalso. apply Hn. rewrite take_app, list_elem_of_In.
      apply in_or_app. right. destruct (k - length l1)%nat eqn:E; [lia|]. by left. }
  simpl. rewrite list_lookup_middle by done. by rewrite delete_middle.
Qed.

Lemma existsb_eqs_spec l v : existsb (fun e => e =s? v) l = true <-> v ∈ l.
Proof.
  rewrite existsb_exists. setoid_rewrite <- list_elem_of_In.
  setoid_rewrite bool_decide_eq_true. naive_solver.
Qed.

Lemma existsb_eqs_false l v : existsb (fun e => e =s? v) l = false <-> v ∉ l.
Proof. rewrite <- existsb_eqs_spec. by destruct (existsb _ _). Qed.

Section Laws.
Context {P : Platform} {L : PlatformLaws P}.

Lemma put_question_mark_length i s :
  (i < String.length s)%nat -> String.length (put_question_mark i s) = String.length s.
Proof.
  intros H. unfold put_question_mark. rewrite string_length_app. cbn [String.length].
  rewrite str_take_length, str_drop_length. lia.
Qed.

(** One round of the loop moves the first invalid byte to the right. *)
Lemma put_question_mark_progress i s :
  g_utf8_validate s = Some i ->
  match g_utf8_validate (put_question_mark i s) with
  | None => True
  | Some j => (i < j)%nat
  end.
Proof.
  intros H. pose proof (utf8_offset s i H) as Hi. unfold put_question_mark.
  rewrite utf8_app by (by apply utf8_valid_prefix).
  change (String "?" (str_drop (S i) s)) with (String "?" "" +:+ str_drop (S i) s).
  rewrite utf8_app by (by apply utf8_ascii).
  destruct (g_utf8_validate (str_drop _ _)); simpl; [|done].
  rewrite str_take_length. lia.
Qed.

Lemma utf8_fix_terminates fuel s :
  match g_utf8_validate s with
  | None => True
  | Some i => (String.length s - i <= fuel)%nat
  end ->
  exists s', utf8_fix fuel s = Some s' /\ g_utf8_validate s' = None /\
             String.length s' = String.length s.
Proof.
  revert s. induction fuel as [|f IH]; intros s H; simpl;
    destruct (g_utf8_validate s) as [i|] eqn:E; try (by exists s);
    pose proof (utf8_offset s i E) as Hi; [lia|].
  pose proof (put_question_mark_progress i s E) as Hp.
  pose proof (put_question_mark_length i s Hi) as Hl.
  destruct (IH (put_question_mark i s)) as (s' & H1 & H2 & H3).
  - destruct (g_utf8_validate (put_question_mark i s)); [lia | done].
  - exists s'. split; [done|]. split; [done|]. lia.
Qed.

Lemma utf8_sanitize_valid s :
  g_utf8_validate (utf8_sanitize s) = None /\
  String.length (utf8_sanitize s) = String.length s.
Proof.
  destruct (utf8_fix_terminates (String.length s) s) as (s' & H1 & H2 & H3).
  - destruct (g_utf8_validate s); [lia | done].
  - unfold utf8_sanitize. by rewrite H1.
Qed.
End Laws.

Lemma utf8_sanitize_id `{Platform} s : g_utf8_validate s = None -> utf8_sanitize s = s.
Proof.
  intros E. unfold utf8_sanitize. destruct (String.length s); simpl; by rewrite E.
Qed.
