(* ===== verification/Device.v ===== *)
(** * Devices ([hald/device.c], [hald/device.h]: [HalDevice])

    A device is its private record: the UDI, the add-on counters and the hash
    table of properties.  The hash table is keyed by interned strings
    (quarks); a key that was never interned is in no table, so the model
    keys it by the strings themselves.

    An operation of the code is a [dev] computation: it takes the device to
    the device it leaves, its result, and the signals it emits, in order.
    Handlers run synchronously, so each signal is recorded with the device as
    the handlers see it. *)

From Stdlib Require Import ZArith Lia Ascii SpecFloat.
From stdpp Require Import base list gmap strings option pretty.
From S2P Require Import Prelude CStd Property.

(** ** State, signals, computations *)
Record HalDevice := mk_device {
  udi : string;
  num_addons : Z;
  num_addons_ready : Z;
  props : gmap string HalProperty;
}.

Inductive signal :=
  | PROPERTY_CHANGED (key : string) (removed added : bool)
  | CAPABILITY_ADDED (capability : string)
  | LOCK_ACQUIRED (lock_name lock_owner : string)
  | LOCK_RELEASED (lock_name lock_owner : string)
  | PRE_PROPERTY_CHANGED (key : string) (removed : bool).

Record emission := Emit { em_signal : signal; em_device : HalDevice }.

Definition dev (A : Type) : Type := HalDevice -> A * HalDevice * list emission.

Definition dret {A} (a : A) : dev A := fun d => (a, d, []).
Definition dbind {A B} (m : dev A) (k : A -> dev B) : dev B := fun d =>
  let '(a, d1, t1) := m d in
  let '(b, d2, t2) := k a d1 in (b, d2, t1 ++ t2).
Definition dget {A} (f : HalDevice -> A) : dev A := fun d => (f d, d, []).
Definition g_signal_emit (s : signal) : dev unit := fun d => (tt, d, [Emit s d]).

Notation "'let*' x := m 'in' k" := (dbind m (fun x => k))
  (at level 10, x name, m at level 100, k at level 200) : hal_scope.
Notation "m ;;; k" := (dbind m (fun _ => k)) (at level 199, right associativity) : hal_scope.

Definition res {A} (r : A * HalDevice * list emission) : A := r.1.1.
Definition dev_of {A} (r : A * HalDevice * list emission) : HalDevice := r.1.2.
Definition trace {A} (r : A * HalDevice * list emission) : list emission := r.2.

Definition set_props (f : gmap string HalProperty -> gmap string HalProperty) (d : HalDevice) :=
  mk_device (udi d) (num_addons d) (num_addons_ready d) (f (props d)).
Definition put_prop (key : string) (p : HalProperty) : dev unit :=
  fun d => (tt, set_props <[key := p]> d, []).
Definition drop_prop (key : string) : dev unit :=
  fun d => (tt, set_props (delete key) d, []).

Definition hal_device_property_find (d : HalDevice) (key : string) : option HalProperty :=
  props d !! key.

(** [hal_device_new]: the counter is the static of [hal_device_init]. *)
Definition hal_device_new (temp_device_counter : Z) : HalDevice * Z :=
  (mk_device ("/org/freedesktop/Hal/devices/temp/" +:+ pretty temp_device_counter) 0 0 ∅,
   temp_device_counter + 1).

(** ** Reading *)
Definition hal_device_num_properties (d : HalDevice) : Z := Z.of_nat (size (props d)).

Definition hal_device_has_property (d : HalDevice) (key : string) : bool :=
  match hal_device_property_find d key with Some _ => true | None => false end.

Definition hal_device_property_get_type (d : HalDevice) (key : string) : prop_type :=
  match hal_device_property_find d key with
  | Some p => hal_property_get_type p
  | None => HAL_PROPERTY_TYPE_INVALID
  end.

Definition hal_device_property_get_string (d : HalDevice) (key : string) : option string :=
  match hal_device_property_find d key with
  | Some p => hal_property_get_string p
  | None => None
  end.

Definition hal_device_property_get_int (d : HalDevice) (key : string) : Z :=
  match hal_device_property_find d key with
  | Some p => hal_property_get_int p
  | None => -1
  end.

Definition hal_device_property_get_uint64 (d : HalDevice) (key : string) : Z :=
  match hal_device_property_find d key with
  | Some p => hal_property_get_uint64 p
  | None => u64 (-1)
  end.

Definition hal_device_property_get_bool (d : HalDevice) (key : string) : bool :=
  match hal_device_property_find d key with
  | Some p => hal_property_get_bool p
  | None => false
  end.

Definition hal_device_property_get_double (d : HalDevice) (key : string) : double :=
  match hal_device_property_find d key with
  | Some p => hal_property_get_double p
  | None => minus_one
  end.

Definition hal_device_property_get_strlist (d : HalDevice) (key : string) : list string :=
  match hal_device_property_find d key with
  | Some p => hal_property_get_strlist p
  | None => []
  end.

Definition hal_device_property_get_strlist_length (d : HalDevice) (key : string) : nat :=
  length (hal_device_property_get_strlist d key).

Definition hal_device_property_get_strlist_elem (d : HalDevice) (key : string) (index : nat)
  : option string := hal_device_property_get_strlist d key !! index.

Definition hal_device_property_strlist_contains (d : HalDevice) (key value : string) : bool :=
  existsb (fun e => e =s? value) (hal_device_property_get_strlist d key).

(** NULL for a missing, empty or non-list property. *)
Definition hal_device_property_dup_strlist_as_strv (d : HalDevice) (key : string)
  : option (list string) :=
  match hal_device_property_get_strlist d key with
  | [] => None
  | l => Some l
  end.

Definition hal_device_property_strlist_is_empty (d : HalDevice) (key : string) : bool :=
  if hal_device_has_property d key
  then bool_decide (length (hal_device_property_get_strlist d key) = O)
  else false.

Definition hal_device_has_capability (d : HalDevice) (capability : string) : bool :=
  existsb (fun e => e =s? capability) (hal_device_property_get_strlist d "info.capabilities").

(** *** The string list iterator: the rest of the list *)
Definition HalDeviceStrListIter := list string.
Definition hal_device_property_strlist_iter_init (d : HalDevice) (key : string)
  : HalDeviceStrListIter := hal_device_property_get_strlist d key.
Definition hal_device_property_strlist_iter_get_value (i : HalDeviceStrListIter) : option string :=
  head i.
Definition hal_device_property_strlist_iter_next (i : HalDeviceStrListIter) : HalDeviceStrListIter :=
  tail i.
Definition hal_device_property_strlist_iter_is_valid (i : HalDeviceStrListIter) : bool :=
  match i with [] => false | _ => true end.

(** ** Add-on counters *)
Definition hal_device_are_all_addons_ready (d : HalDevice) : bool :=
  num_addons_ready d =? num_addons d.

Definition hal_device_inc_num_addons : dev unit := fun d =>
  (tt, mk_device (udi d) (num_addons d + 1) (num_addons_ready d) (props d), []).

Definition hal_device_inc_num_ready_addons : dev bool := fun d =>
  if hal_device_are_all_addons_ready d then (false, d, [])
  else (true, mk_device (udi d) (num_addons d) (num_addons_ready d + 1) (props d), []).

(** ** Writing *)

(** The common body of [hal_device_property_set_string], [_int], [_uint64],
    [_bool], [_double] and [_strlist]: [same] is the test that skips setting
    an equal value, [upd] stores the value into the property, and [fresh] is
    the property inserted for a new key. *)
Definition property_set (ty : prop_type) (same : HalProperty -> bool)
    (upd : HalProperty -> HalProperty) (fresh : HalProperty) (key : string) : dev bool :=
  let* prop := dget (fun d => hal_device_property_find d key) in
  match prop with
  | Some p =>
      if negb (hal_property_get_type p =t? ty) then dret false
      else if same p then dret true
      else
        g_signal_emit (PRE_PROPERTY_CHANGED key false) ;;;
        put_prop key (upd p) ;;;
        g_signal_emit (PROPERTY_CHANGED key false false) ;;;
        dret true
  | None =>
      put_prop key fresh ;;;
      g_signal_emit (PROPERTY_CHANGED key false true) ;;;
      dret true
  end.

Definition hal_device_property_set_int (key : string) (value : Z) : dev bool :=
  property_set HAL_PROPERTY_TYPE_INT32
    (fun p => hal_property_get_int p =? value)
    (fun p => hal_property_set_int p value)
    (hal_property_set_int (hal_property_new HAL_PROPERTY_TYPE_INT32) value) key.

Definition hal_device_property_set_uint64 (key : string) (value : Z) : dev bool :=
  property_set HAL_PROPERTY_TYPE_UINT64
    (fun p => hal_property_get_uint64 p =? value)
    (fun p => hal_property_set_uint64 p value)
    (hal_property_set_uint64 (hal_property_new HAL_PROPERTY_TYPE_UINT64) value) key.

Definition hal_device_property_set_bool (key : string) (value : bool) : dev bool :=
  property_set HAL_PROPERTY_TYPE_BOOLEAN
    (fun p => eqb (hal_property_get_bool p) value)
    (fun p => hal_property_set_bool p value)
    (hal_property_set_bool (hal_property_new HAL_PROPERTY_TYPE_BOOLEAN) value) key.

Definition hal_device_property_set_double (key : string) (value : double) : dev bool :=
  property_set HAL_PROPERTY_TYPE_DOUBLE
    (fun p => dbl_eqb (hal_property_get_double p) value)
    (fun p => hal_property_set_double p value)
    (hal_property_set_double (hal_property_new HAL_PROPERTY_TYPE_DOUBLE) value) key.

(** The list built by appending each element to a new property. *)
Definition strlist_property (value : list string) : HalProperty :=
  foldl (fun p v => (hal_property_strlist_append p v).2)
        (hal_property_new HAL_PROPERTY_TYPE_STRLIST) value.

(** The loop that compares two lists of the same length. *)
Fixpoint strlist_equal (l current : list string) : bool :=
  match l, current with
  | x :: l', y :: c' => if negb (x =s? y) then false else strlist_equal l' c'
  | _, _ => true
  end.

(** The existing property is removed from the table and a new one inserted
    under the same key. *)
Definition hal_device_property_set_strlist (key : string) (value : list string) : dev bool :=
  property_set HAL_PROPERTY_TYPE_STRLIST
    (fun p => let current := hal_property_get_strlist p in
              bool_decide (length value = length current) && strlist_equal value current)
    (fun _ => strlist_property value) (strlist_property value) key.

Definition hal_device_property_remove (key : string) : dev bool :=
  let* prop := dget (fun d => hal_device_property_find d key) in
  match prop with
  | Some _ =>
      g_signal_emit (PRE_PROPERTY_CHANGED key true) ;;;
      drop_prop key ;;;
      g_signal_emit (PROPERTY_CHANGED key true false) ;;;
      dret true
  | None => dret false
  end.

Definition emit_unless (changeset : bool) (s : signal) : dev unit :=
  if negb changeset then g_signal_emit s else dret tt.

Definition hal_device_property_strlist_append (key value : string) (changeset : bool) : dev bool :=
  let* prop := dget (fun d => hal_device_property_find d key) in
  match prop with
  | Some p =>
      if negb (hal_property_get_type p =t? HAL_PROPERTY_TYPE_STRLIST) then dret false
      else
        put_prop key (hal_property_strlist_append p value).2 ;;;
        emit_unless changeset (PROPERTY_CHANGED key false false) ;;;
        dret true
  | None =>
      put_prop key (hal_property_strlist_append
                      (hal_property_new HAL_PROPERTY_TYPE_STRLIST) value).2 ;;;
      emit_unless changeset (PROPERTY_CHANGED key false true) ;;;
      dret true
  end.

Definition hal_device_property_strlist_append_finish_changeset (key : string) (is_added : bool)
  : dev bool :=
  let* prop := dget (fun d => hal_device_property_find d key) in
  match prop with
  | Some p =>
      if negb (hal_property_get_type p =t? HAL_PROPERTY_TYPE_STRLIST) then dret false
      else g_signal_emit (PROPERTY_CHANGED key false is_added) ;;; dret true
  | None => dret false
  end.

Definition hal_device_property_strlist_prepend (key value : string) : dev bool :=
  let* prop := dget (fun d => hal_device_property_find d key) in
  match prop with
  | Some p =>
      if negb (hal_property_get_type p =t? HAL_PROPERTY_TYPE_STRLIST) then dret false
      else
        put_prop key (hal_property_strlist_prepend p value).2 ;;;
        g_signal_emit (PROPERTY_CHANGED key false false) ;;;
        dret true
  | None =>
      put_prop key (hal_property_strlist_prepend
                      (hal_property_new HAL_PROPERTY_TYPE_STRLIST) value).2 ;;;
      g_signal_emit (PROPERTY_CHANGED key false true) ;;;
      dret true
  end.

Definition hal_device_property_strlist_remove_elem (key : string) (index : nat) : dev bool :=
  let* prop := dget (fun d => hal_device_property_find d key) in
  match prop with
  | Some p =>
      if negb (hal_property_get_type p =t? HAL_PROPERTY_TYPE_STRLIST) then dret false
      else match hal_property_strlist_remove_elem p index with
           | (true, p') =>
               put_prop key p' ;;;
               g_signal_emit (PROPERTY_CHANGED key false false) ;;;
               dret true
           | (false, _) => dret false
           end
  | None => dret false
  end.

Definition hal_device_property_strlist_clear (key : string) (changeset : bool) : dev bool :=
  let* prop := dget (fun d => hal_device_property_find d key) in
  match prop with
  | None =>
      put_prop key (hal_property_new HAL_PROPERTY_TYPE_STRLIST) ;;;
      emit_unless changeset (PROPERTY_CHANGED key false true) ;;;
      dret true
  | Some p =>
      if negb (hal_property_get_type p =t? HAL_PROPERTY_TYPE_STRLIST) then dret false
      else
        drop_prop key ;;;
        put_prop key (hal_property_new HAL_PROPERTY_TYPE_STRLIST) ;;;
        emit_unless changeset (PROPERTY_CHANGED key false false) ;;;
        dret true
  end.

Definition hal_device_property_strlist_add (key value : string) : dev bool :=
  let* prop := dget (fun d => hal_device_property_find d key) in
  match prop with
  | Some p =>
      if negb (hal_property_get_type p =t? HAL_PROPERTY_TYPE_STRLIST) then dret false
      else match hal_property_strlist_add p value with
           | (true, p') =>
               put_prop key p' ;;;
               g_signal_emit (PROPERTY_CHANGED key false false) ;;;
               dret true
           | (false, _) => dret false
           end
  | None =>
      put_prop key (hal_property_strlist_prepend
                      (hal_property_new HAL_PROPERTY_TYPE_STRLIST) value).2 ;;;
      g_signal_emit (PROPERTY_CHANGED key false true) ;;;
      dret true
  end.

(** TRUE also when the value was not in the list. *)
Definition hal_device_property_strlist_remove (key value : string) : dev bool :=
  let* prop := dget (fun d => hal_device_property_find d key) in
  match prop with
  | Some p =>
      if negb (hal_property_get_type p =t? HAL_PROPERTY_TYPE_STRLIST) then dret false
      else match hal_property_strlist_remove p value with
           | (true, p') =>
               put_prop key p' ;;;
               g_signal_emit (PROPERTY_CHANGED key false false) ;;;
               dret true
           | (false, _) => dret true
           end
  | None => dret false
  end.

Definition hal_device_add_capability (capability : string) : dev unit :=
  let* added := hal_device_property_strlist_add "info.capabilities" capability in
  if added then g_signal_emit (CAPABILITY_ADDED capability) else dret tt.

Section Platform.
Context {P : Platform}.

Definition hal_device_property_set_string (key : string) (value : option string) : dev bool :=
  property_set HAL_PROPERTY_TYPE_STRING
    (fun p => strcmp (default "" (hal_property_get_string p)) (default "" value) =? 0)
    (fun p => hal_property_set_string p value)
    (hal_property_set_string (hal_property_new HAL_PROPERTY_TYPE_STRING) value) key.

Definition hal_device_set_udi (u : string) : dev unit :=
  (fun d => (tt, mk_device u (num_addons d) (num_addons_ready d) (props d), [])) ;;;
  hal_device_property_set_string "info.udi" (Some u) ;;;
  dret tt.

Definition hal_device_property_to_string (d : HalDevice) (key : string) : option string :=
  hal_property_to_string <$> hal_device_property_find d key.

(** The buffer after the call, and whether the buffer was returned. *)
Definition hal_device_property_get_as_string (d : HalDevice) (key : string) (buf : list ascii)
  : bool * list ascii :=
  match hal_device_property_find d key with
  | Some p => (true, property_as_string p buf)
  | None => (false, <[O := NUL]> buf)
  end.

(** The device receiving the property is the state; [from_device] is read
    before anything is written. *)
Definition hal_device_copy_property (from_device : HalDevice) (from to : string) : dev bool :=
  if hal_device_has_property from_device from then
    match hal_device_property_get_type from_device from with
    | HAL_PROPERTY_TYPE_STRING =>
        hal_device_property_set_string to (hal_device_property_get_string from_device from)
    | HAL_PROPERTY_TYPE_INT32 =>
        hal_device_property_set_int to (hal_device_property_get_int from_device from)
    | HAL_PROPERTY_TYPE_UINT64 =>
        hal_device_property_set_uint64 to (hal_device_property_get_uint64 from_device from)
    | HAL_PROPERTY_TYPE_BOOLEAN =>
        hal_device_property_set_bool to (hal_device_property_get_bool from_device from)
    | HAL_PROPERTY_TYPE_DOUBLE =>
        hal_device_property_set_double to (hal_device_property_get_double from_device from)
    | HAL_PROPERTY_TYPE_STRLIST =>
        hal_device_property_set_strlist to (hal_device_property_get_strlist from_device from)
    | HAL_PROPERTY_TYPE_INVALID => dret false
    end
  else dret false.

(** ** Merging with a rewritten name space

    The target is the state; the source is another device. *)
Fixpoint append_all (key : string) (l : list string) : dev unit :=
  match l with
  | [] => dret tt
  | v :: l' => hal_device_property_strlist_append key v false ;;; append_all key l'
  end.

Definition merge_device_rewrite_cb (source : HalDevice) (source_namespace target_namespace : string)
    (key : string) : dev unit :=
  if negb (has_prefix key source_namespace) then dret tt
  else
    let target_key := target_namespace +:+ str_drop (String.length source_namespace) key in
    let type := hal_device_property_get_type source key in
    match hal_device_property_find source key with
    | None => dret tt
    | Some p =>
        let* target_type := dget (fun d => hal_device_property_get_type d target_key) in
        (if negb (target_type =t? HAL_PROPERTY_TYPE_INVALID) && negb (target_type =t? type)
         then hal_device_property_remove target_key else dret true) ;;;
        match type with
        | HAL_PROPERTY_TYPE_STRING =>
            hal_device_property_set_string target_key (hal_property_get_string p) ;;; dret tt
        | HAL_PROPERTY_TYPE_INT32 =>
            hal_device_property_set_int target_key (hal_property_get_int p) ;;; dret tt
        | HAL_PROPERTY_TYPE_UINT64 =>
            hal_device_property_set_uint64 target_key (hal_property_get_uint64 p) ;;; dret tt
        | HAL_PROPERTY_TYPE_BOOLEAN =>
            hal_device_property_set_bool target_key (hal_property_get_bool p) ;;; dret tt
        | HAL_PROPERTY_TYPE_DOUBLE =>
            hal_device_property_set_double target_key (hal_property_get_double p) ;;; dret tt
        | HAL_PROPERTY_TYPE_STRLIST =>
            hal_device_property_strlist_clear target_key false ;;;
            append_all target_key (hal_property_get_strlist p)
        | HAL_PROPERTY_TYPE_INVALID => dret tt
        end
    end.

(** [hal_device_property_foreach] calls back for every key, in the order the
    hash table enumerates them: [order] is that enumeration. *)
Fixpoint hal_device_property_foreach (order : list string) (callback : string -> dev unit)
  : dev unit :=
  match order with
  | [] => dret tt
  | key :: rest => callback key ;;; hal_device_property_foreach rest callback
  end.

Definition hal_device_merge_with_rewrite (order : list string) (source : HalDevice)
    (target_namespace source_namespace : string) : dev unit :=
  hal_device_property_foreach order
    (merge_device_rewrite_cb source source_namespace target_namespace).

End Platform.
