(* ===== verification/DeviceTheory.v ===== *)
(** * Properties of device operations ([hald/device.c])

    The state-changing operations on properties are collected in [dop]; a
    program over a device is a list of them.  The theorems are about every
    such program: what listeners of the signals can reconstruct, which
    invariants hold, and what single operations compute. *)

From Stdlib Require Import ZArith Lia Ascii SpecFloat.
From stdpp Require Import base list gmap strings option pretty.
From S2P Require Import Prelude CStd Property Device.

(** ** Programs over a device *)
Inductive dop :=
  | OSetString (key : string) (value : option string)
  | OSetInt (key : string) (value : Z)
  | OSetUint64 (key : string) (value : Z)
  | OSetBool (key : string) (value : bool)
  | OSetDouble (key : string) (value : double)
  | OSetStrlist (key : string) (value : list string)
  | ORemove (key : string)
  | OAppend (key value : string)
  | OPrepend (key value : string)
  | ORemoveElem (key : string) (index : nat)
  | OClear (key : string)
  | OAdd (key value : string)
  | OStrlistRemove (key value : string)
  | OAddCapability (capability : string)
  | OCopy (from_device : HalDevice) (from to : string)
  | OSetUdi (u : string)
  | OIncAddons
  | OIncReady
  | OAppendSilently (key value : string)
  | OClearSilently (key : string)
  | OFinish (key : string) (is_added : bool).

(** The key that an operation with [changeset] TRUE edits without a signal. *)
Definition silent (o : dop) : option string :=
  match o with OAppendSilently k _ | OClearSilently k => Some k | _ => None end.
Definition silent_keys (o : dop) : gset string := option_to_set (silent o).

(** Unfold computations on a device. *)
Ltac dev_cbn :=
  cbv beta iota delta [dbind dget dret g_signal_emit put_prop drop_prop emit_unless negb
    dev_of trace res fst snd app] in *.

Section Programs.
Context {P : Platform}.

Definition run_dop (o : dop) : dev unit :=
  match o with
  | OSetString k v => hal_device_property_set_string k v ;;; dret tt
  | OSetInt k v => hal_device_property_set_int k v ;;; dret tt
  | OSetUint64 k v => hal_device_property_set_uint64 k v ;;; dret tt
  | OSetBool k v => hal_device_property_set_bool k v ;;; dret tt
  | OSetDouble k v => hal_device_property_set_double k v ;;; dret tt
  | OSetStrlist k v => hal_device_property_set_strlist k v ;;; dret tt
  | ORemove k => hal_device_property_remove k ;;; dret tt
  | OAppend k v => hal_device_property_strlist_append k v false ;;; dret tt
  | OPrepend k v => hal_device_property_strlist_prepend k v ;;; dret tt
  | ORemoveElem k i => hal_device_property_strlist_remove_elem k i ;;; dret tt
  | OClear k => hal_device_property_strlist_clear k false ;;; dret tt
  | OAdd k v => hal_device_property_strlist_add k v ;;; dret tt
  | OStrlistRemove k v => hal_device_property_strlist_remove k v ;;; dret tt
  | OAddCapability c => hal_device_add_capability c
  | OCopy src from to => hal_device_copy_property src from to ;;; dret tt
  | OSetUdi u => hal_device_set_udi u
  | OIncAddons => hal_device_inc_num_addons
  | OIncReady => hal_device_inc_num_ready_addons ;;; dret tt
  | OAppendSilently k v => hal_device_property_strlist_append k v true ;;; dret tt
  | OClearSilently k => hal_device_property_strlist_clear k true ;;; dret tt
  | OFinish k is_added => hal_device_property_strlist_append_finish_changeset k is_added ;;; dret tt
  end.

Fixpoint run_dops (os : list dop) : dev unit :=
  match os with
  | [] => dret tt
  | o :: os' => run_dop o ;;; run_dops os'
  end.

(** What a listener of "property_changed" keeps: on each signal it reads the
    property from the device again. *)
Definition listen (m : gmap string HalProperty) (e : emission) : gmap string HalProperty :=
  match em_signal e with
  | PROPERTY_CHANGED key _ _ => partial_alter (fun _ => props (em_device e) !! key) key m
  | _ => m
  end.
Definition listen_all (m : gmap string HalProperty) (t : list emission) := foldl listen m t.

(** What a listener keeps that only looks at the [removed] and [added] flags. *)
Definition listen_flags (s : gset string) (e : emission) : gset string :=
  match em_signal e with
  | PROPERTY_CHANGED key removed added =>
      if removed then s ∖ {[key]} else if added then {[key]} ∪ s else s
  | _ => s
  end.

(** ** A specification of single writes

    Every operation is one [write] of a key: no effect, or an insertion or
    deletion that is announced. *)
Inductive write (key : string) (d : HalDevice) : HalDevice -> list emission -> Prop :=
  | write_none : write key d d []
  | write_new p d' :
      props d !! key = None -> d' = set_props <[key := p]> d ->
      write key d d' [Emit (PROPERTY_CHANGED key false true) d']
  | write_over q p d' :
      props d !! key = Some q -> hal_property_get_type q = HAL_PROPERTY_TYPE_STRLIST ->
      hal_property_get_type q = hal_property_get_type p -> d' = set_props <[key := p]> d ->
      write key d d' [Emit (PROPERTY_CHANGED key false false) d']
  | write_over_pre q p d' :
      props d !! key = Some q -> hal_property_get_type q = hal_property_get_type p ->
      d' = set_props <[key := p]> d ->
      write key d d' [Emit (PRE_PROPERTY_CHANGED key false) d;
                      Emit (PROPERTY_CHANGED key false false) d']
  | write_remove q d' :
      props d !! key = Some q -> d' = set_props (delete key) d ->
      write key d d' [Emit (PRE_PROPERTY_CHANGED key true) d;
                      Emit (PROPERTY_CHANGED key true false) d'].

Definition writes {A} (key : string) (m : dev A) : Prop :=
  forall d, write key d (dev_of (m d)) (trace (m d)).

(** As [writes], and never a removal. *)
Definition keeps {A} (key : string) (m : dev A) : Prop :=
  forall d, write key d (dev_of (m d)) (trace (m d)) /\
            (is_Some (props d !! key) -> is_Some (props (dev_of (m d)) !! key)).

Lemma property_set_keeps ty same upd fresh key :
  (forall p, hal_property_get_type p = ty -> hal_property_get_type (upd p) = ty) ->
  keeps key (property_set ty same upd fresh key).
Proof.
  intros Hu d. unfold property_set, hal_device_property_find. dev_cbn.
  destruct (props d !! key) as [p|] eqn:E.
  - case_bool_decide as Ht; dev_cbn; [|split; [apply write_none | rewrite ?E; eauto]].
    destruct (same p); dev_cbn; [split; [apply write_none | rewrite ?E; eauto]|]. split.
    + eapply (write_over_pre _ _ p (upd p)); [done | by rewrite Hu | done].
    + intros _. simpl. rewrite lookup_insert_eq. eauto.
  - split; [by econstructor|]. intros [? ?]; done.
Qed.

Lemma strlist_append_type p v :
  hal_property_get_type (hal_property_strlist_append p v).2 = hal_property_get_type p.
Proof. by destruct p. Qed.

Lemma strlist_property_eq l : strlist_property l = PStrlist l.
Proof.
  unfold strlist_property. simpl.
  assert (forall acc, foldl (fun p v => (hal_property_strlist_append p v).2) (PStrlist acc) l
                      = PStrlist (acc ++ l)) as H.
  { induction l as [|x l IH]; intros acc; simpl; [by rewrite app_nil_r|].
    rewrite IH, <- app_assoc. done. }
  apply H.
Qed.

Lemma set_string_keeps k v : keeps k (hal_device_property_set_string k v).
Proof. apply property_set_keeps. by intros []. Qed.
Lemma set_int_keeps k v : keeps k (hal_device_property_set_int k v).
Proof. apply property_set_keeps. by intros []. Qed.
Lemma set_uint64_keeps k v : keeps k (hal_device_property_set_uint64 k v).
Proof. apply property_set_keeps. by intros []. Qed.
Lemma set_bool_keeps k v : keeps k (hal_device_property_set_bool k v).
Proof. apply property_set_keeps. by intros []. Qed.
Lemma set_double_keeps k v : keeps k (hal_device_property_set_double k v).
Proof. apply property_set_keeps. by intros []. Qed.
Lemma set_strlist_keeps k v : keeps k (hal_device_property_set_strlist k v).
Proof. apply property_set_keeps. intros p _. by rewrite strlist_property_eq. Qed.

(** A tactic for the string list operations, which share one shape. *)
Ltac strlist_op E :=
  intros d; unfold hal_device_property_find; dev_cbn;
  destruct (props d !! _) as [p|] eqn:E;
  [ let Ht := fresh "Ht" in case_bool_decide as Ht; dev_cbn;
    [ destruct p as [| | | | |l]; try discriminate Ht; simpl
    | split; [apply write_none | rewrite ?E; eauto] ]
  | simpl ].
Ltac strlist_done E :=
  first [ split; [apply write_none | rewrite ?E; eauto]
        | split; [eapply write_over; cycle 3; [reflexivity | eassumption | reflexivity..]
                 | intros _; simpl; rewrite lookup_insert_eq; eauto]
        | split; [eapply write_new; eauto | intros [? ?]; done]
        | split; [apply write_none | intros [? ?]; done] ].

Lemma append_keeps k v : keeps k (hal_device_property_strlist_append k v false).
Proof. unfold hal_device_property_strlist_append. strlist_op E; strlist_done E. Qed.
Lemma prepend_keeps k v : keeps k (hal_device_property_strlist_prepend k v).
Proof. unfold hal_device_property_strlist_prepend. strlist_op E; strlist_done E. Qed.
Lemma remove_elem_keeps k i : keeps k (hal_device_property_strlist_remove_elem k i).
Proof.
  unfold hal_device_property_strlist_remove_elem. strlist_op E; [|strlist_done E].
  destruct (l !! i); simpl; strlist_done E.
Qed.
Lemma add_keeps k v : keeps k (hal_device_property_strlist_add k v).
Proof.
  unfold hal_device_property_strlist_add. strlist_op E; [|strlist_done E].
  destruct (existsb _ _); simpl; strlist_done E.
Qed.
Lemma strlist_remove_keeps k v : keeps k (hal_device_property_strlist_remove k v).
Proof.
  unfold hal_device_property_strlist_remove. strlist_op E; [|strlist_done E].
  destruct (strlist_index v 0 l); simpl; [|strlist_done E].
  destruct (l !! n); simpl; strlist_done E.
Qed.
Lemma clear_keeps k : keeps k (hal_device_property_strlist_clear k false).
Proof.
  unfold hal_device_property_strlist_clear. strlist_op E; [|strlist_done E].
  split; [|intros _; simpl; rewrite lookup_insert_eq; eauto].
  eapply (write_over _ _ _ (PStrlist [])); [eassumption | done | done |].
  unfold set_props. simpl. by rewrite insert_delete_eq.
Qed.

(** The operations with [changeset] TRUE edit a list and send nothing, and
    the one that finishes a change set only sends. *)
Inductive silent_write (key : string) (d : HalDevice) : HalDevice -> Prop :=
  | silent_none : silent_write key d d
  | silent_set l :
      (forall q, props d !! key = Some q -> hal_property_get_type q = HAL_PROPERTY_TYPE_STRLIST) ->
      silent_write key d (set_props <[key := PStrlist l]> d).

Lemma append_silently k v d :
  silent_write k d (dev_of (hal_device_property_strlist_append k v true d)) /\
  trace (hal_device_property_strlist_append k v true d) = [].
Proof.
  unfold hal_device_property_strlist_append, hal_device_property_find. dev_cbn. destruct (props d !! k) as [p|] eqn:E.
  - case_bool_decide as Ht; dev_cbn; [|by split; [constructor|]]. destruct p as [| | | | |l]; try discriminate Ht. split; [|done].
    apply silent_set. by intros q [= <-]%(eq_trans (eq_sym E)).
  - split; [|done]. apply silent_set. intros q. by rewrite E.
Qed.
Lemma clear_silently k d :
  silent_write k d (dev_of (hal_device_property_strlist_clear k true d)) /\
  trace (hal_device_property_strlist_clear k true d) = [].
Proof.
  unfold hal_device_property_strlist_clear, hal_device_property_find. dev_cbn. destruct (props d !! k) as [p|] eqn:E.
  - case_bool_decide as Ht; dev_cbn; [|by split; [constructor|]]. split; [|done].
    unfold set_props. cbn [props udi num_addons num_addons_ready]. rewrite insert_delete_eq.
    apply (silent_set k d []). intros q Hq. congruence.
  - split; [|done]. apply silent_set. intros q. by rewrite E.
Qed.
Lemma finish_announces k b d :
  let r := hal_device_property_strlist_append_finish_changeset k b d in
  dev_of r = d /\ (trace r = [] \/ (exists q, props d !! k = Some q /\ hal_property_get_type q = HAL_PROPERTY_TYPE_STRLIST) /\
                                   trace r = [Emit (PROPERTY_CHANGED k false b) d]).
Proof.
  unfold hal_device_property_strlist_append_finish_changeset, hal_device_property_find. dev_cbn.
  destruct (props d !! k) as [p|]; [|by split; [|left]]. case_bool_decide; dev_cbn; [|by split; [|left]]. split; [done|]. right. eauto.
Qed.
Lemma silent_op o k d :
  silent o = Some k -> silent_write k d (dev_of (run_dop o d)) /\ trace (run_dop o d) = [].
Proof.
  destruct o; try discriminate; intros [= ->].
  - pose proof (append_silently k value d). simpl. unfold dbind, dev_of, trace in *.
    by destruct (hal_device_property_strlist_append k value true d) as [[? ?] ?]; simpl in *; destruct H as [? ->].
  - pose proof (clear_silently k d). simpl. unfold dbind, dev_of, trace in *.
    by destruct (hal_device_property_strlist_clear k true d) as [[? ?] ?]; simpl in *; destruct H as [? ->].
Qed.

Lemma remove_writes k : writes k (hal_device_property_remove k).
Proof.
  intros d. unfold hal_device_property_remove, hal_device_property_find. dev_cbn.
  destruct (props d !! k) eqn:E; simpl; [by econstructor | constructor].
Qed.

Lemma copy_keeps src from to : keeps to (hal_device_copy_property src from to).
Proof.
  unfold hal_device_copy_property.
  destruct (hal_device_has_property src from); [|intros d; split; [constructor | done]].
  destruct (hal_device_property_get_type src from).
  - intros d; split; [constructor | done].
  - apply set_int_keeps.
  - apply set_uint64_keeps.
  - apply set_double_keeps.
  - apply set_bool_keeps.
  - apply set_string_keeps.
  - apply set_strlist_keeps.
Qed.

End Programs.

#[export] Hint Resolve set_string_keeps set_int_keeps set_uint64_keeps set_bool_keeps
  set_double_keeps set_strlist_keeps append_keeps prepend_keeps remove_elem_keeps
  add_keeps strlist_remove_keeps clear_keeps copy_keeps remove_writes : hal.

Section Theorems.
Context {P : Platform}.

(** ** Listeners

    A table agrees with a device outside a set of keys, and so does a set of keys. *)
Definition agrees (S : gset string) (m : gmap string HalProperty) (d : HalDevice) : Prop :=
  forall k, k ∉ S -> m !! k = props d !! k.
Definition flags_agree (U : gset string) (F : gset string) (d : HalDevice) : Prop :=
  forall k, k ∉ U -> k ∈ F <-> k ∈ dom (props d).

(** The keys a sequence of signals is about, and those whose signal says that
    the key was removed or added. *)
Definition announced_by (e : emission) : gset string :=
  match em_signal e with PROPERTY_CHANGED key _ _ => {[key]} | _ => ∅ end.
Definition flagged_by (e : emission) : gset string :=
  match em_signal e with PROPERTY_CHANGED key removed added => if removed || added then {[key]} else ∅ | _ => ∅ end.
Definition announced_in (t : list emission) : gset string := ⋃ (announced_by <$> t).
Definition flagged_in (t : list emission) : gset string := ⋃ (flagged_by <$> t).

Lemma dev_of_bind {A B} (m : dev A) (k : A -> dev B) d :
  dev_of (dbind m k d) = dev_of (k (res (m d)) (dev_of (m d))).
Proof. unfold dbind, dev_of, res. destruct (m d) as [[a d1] t1]. simpl. by destruct (k a d1) as [[? ?] ?]. Qed.

Lemma trace_bind {A B} (m : dev A) (k : A -> dev B) d :
  trace (dbind m k d) = trace (m d) ++ trace (k (res (m d)) (dev_of (m d))).
Proof. unfold dbind, dev_of, res, trace. destruct (m d) as [[a d1] t1]. simpl. by destruct (k a d1) as [[? ?] ?]. Qed.

Definition tracked {A} (m : dev A) : Prop := forall d S U M F,
  agrees S M d -> flags_agree U F d ->
  agrees (S ∖ announced_in (trace (m d))) (listen_all M (trace (m d))) (dev_of (m d)) /\
  flags_agree (U ∖ flagged_in (trace (m d))) (foldl listen_flags F (trace (m d))) (dev_of (m d)).

Lemma write_frame key d d' t :
  write key d d' t -> udi d' = udi d /\ num_addons d' = num_addons d /\
    num_addons_ready d' = num_addons_ready d /\
    forall k, k <> key -> props d' !! k = props d !! k.
Proof.
  destruct 1 as [|p d' H -> |q p d' H Hl Ht ->|q p d' H Ht ->|q d' H ->]; simpl; [done|..];
    (repeat split; try done; intros k Hk;
     rewrite ?lookup_insert_ne, ?lookup_delete_ne by done; done).
Qed.

Lemma write_tracked key d d' t S U M F :
  write key d d' t -> agrees S M d -> flags_agree U F d ->
  agrees (S ∖ announced_in t) (listen_all M t) d' /\ flags_agree (U ∖ flagged_in t) (foldl listen_flags F t) d'.
Proof.
  intros W A B. pose proof (write_frame key d d' t W) as (_ & _ & _ & Hf).
  assert (Hm : forall T, T ⊆ {[key]} -> agrees (S ∖ T) (partial_alter (fun _ => props d' !! key) key M) d').
  { intros T HT k Hk. destruct (decide (k = key)) as [->|Hne]; [by rewrite lookup_partial_alter_eq|].
    rewrite lookup_partial_alter_ne, Hf by done. apply A. set_solver. }
  unfold listen_all, announced_in, flagged_in, announced_by, flagged_by, listen, listen_flags in *.
  destruct W as [|p d' H -> |q p d' H Hl Ht ->|q p d' H Ht ->|q d' H ->].
  1: { split; intros k Hk; [apply A | apply B]; set_solver. }
  all: simpl in *; (split; [apply Hm; set_solver|]); intros k Hk; pose proof (B k) as Bk;
    unfold set_props; cbn [props]; rewrite ?dom_insert_L, ?dom_delete_L; try apply elem_of_dom_2 in H;
    clear -H Hk Bk; destruct (decide (k = key)); set_solver.
Qed.

Lemma agrees_mono S S' M d : S ⊆ S' -> agrees S M d -> agrees S' M d.
Proof. intros H A k Hk. apply A. set_solver. Qed.
Lemma flags_agree_mono U U' F d : U ⊆ U' -> flags_agree U F d -> flags_agree U' F d.
Proof. intros H A k Hk. apply A. set_solver. Qed.

Lemma tracked_frame {A} (m : dev A) :
  (forall d, props (dev_of (m d)) = props d /\ announced_in (trace (m d)) = ∅ /\ flagged_in (trace (m d)) = ∅ /\
     forall M F, listen_all M (trace (m d)) = M /\ foldl listen_flags F (trace (m d)) = F) -> tracked m.
Proof.
  intros H d S U M F A1 A2. destruct (H d) as (E & -> & -> & L). destruct (L M F) as [-> ->].
  unfold agrees, flags_agree in *. rewrite E, !difference_empty_L. done.
Qed.
Lemma tracked_ret {A} (a : A) : tracked (dret a).
Proof. by apply tracked_frame. Qed.

Lemma tracked_bind {A B} (m : dev A) (k : A -> dev B) :
  tracked m -> (forall a, tracked (k a)) -> tracked (dbind m k).
Proof.
  intros Hm Hk d S U M F A1 A2. destruct (Hm d S U M F A1 A2) as [B1 B2]. unfold dbind.
  destruct (m d) as [[a d1] t1]. specialize (Hk a d1 _ _ _ _ B1 B2).
  destruct (k a d1) as [[b d2] t2]. unfold dev_of, trace, listen_all, announced_in, flagged_in in *. simpl in *.
  rewrite !foldl_app, !fmap_app, !union_list_app_L, <- !difference_difference_l_L. done.
Qed.

Lemma writes_tracked {A} key (m : dev A) : writes key m -> tracked m.
Proof. intros H d S U M F. by eapply write_tracked. Qed.

Lemma keeps_writes {A} key (m : dev A) : keeps key m -> writes key m.
Proof. intros H d. apply H. Qed.

Lemma keeps_tracked {A} key (m : dev A) : keeps key m -> tracked m.
Proof. intros H. by eapply writes_tracked, keeps_writes. Qed.

Lemma finish_tracked k b : tracked (hal_device_property_strlist_append_finish_changeset k b).
Proof.
  intros d S U M F A1 A2. destruct (finish_announces k b d) as [-> [->|[(q & Hq & _) ->]]].
  - unfold announced_in, flagged_in. simpl. by rewrite !difference_empty_L.
  - unfold agrees, flags_agree, listen_all, announced_in, flagged_in, announced_by, flagged_by in *. simpl.
    apply elem_of_dom_2 in Hq as Hd. split; intros j Hj.
    + unfold listen. simpl. destruct (decide (j = k)) as [->|]; [by rewrite lookup_partial_alter_eq|].
      rewrite lookup_partial_alter_ne by done. apply A1. set_solver.
    + unfold listen_flags. simpl. pose proof (A2 j). destruct (decide (j = k)), b; simpl in *; set_solver.
Qed.

Lemma run_dop_tracked o : silent o = None -> tracked (run_dop o).
Proof.
  destruct o; intros Hs; try discriminate Hs; simpl;
    try (apply tracked_bind; [|intros; apply tracked_ret]);
    try (eapply keeps_tracked; solve [eauto with hal]).
  - eapply writes_tracked. eauto with hal.
  - apply tracked_bind; [eapply keeps_tracked; eauto with hal|]. intros []; [by apply tracked_frame | apply tracked_ret].
  - apply tracked_bind; [by apply tracked_frame|]. intros _.
    apply tracked_bind; [|intros; apply tracked_ret].
    eapply keeps_tracked. eauto with hal.
  - by apply tracked_frame.
  - apply tracked_frame. intros d. unfold hal_device_inc_num_ready_addons.
    by destruct (hal_device_are_all_addons_ready d).
  - apply finish_tracked.
Qed.

(** The keys about which a listener may be out of date: those edited
    silently and not announced since; and, for one that looks only at the
    flags, those created silently and not announced as added or removed since. *)
Fixpoint behind (os : list dop) (d : HalDevice) (S : gset string) : gset string :=
  match os with
  | [] => S
  | o :: os' => let r := run_dop o d in behind os' (dev_of r) ((S ∪ silent_keys o) ∖ announced_in (trace r))
  end.
Fixpoint unannounced (os : list dop) (d : HalDevice) (U : gset string) : gset string :=
  match os with
  | [] => U
  | o :: os' => let r := run_dop o d in
      unannounced os' (dev_of r) ((U ∪ (silent_keys o ∖ dom (props d))) ∖ flagged_in (trace r))
  end.

Lemma run_dop_follows o d S U M F :
  agrees S M d -> flags_agree U F d ->
  let r := run_dop o d in
  agrees ((S ∪ silent_keys o) ∖ announced_in (trace r)) (listen_all M (trace r)) (dev_of r) /\
  flags_agree ((U ∪ (silent_keys o ∖ dom (props d))) ∖ flagged_in (trace r)) (foldl listen_flags F (trace r)) (dev_of r).
Proof.
  intros A1 A2 r. unfold silent_keys. destruct (silent o) as [k|] eqn:Es.
  - destruct (silent_op o k d Es) as [W Ht]. unfold r. rewrite Ht.
    change (announced_in []) with (∅ : gset string). change (flagged_in []) with (∅ : gset string).
    rewrite !difference_empty_L. simpl. destruct W as [|l Hq].
    + split; [eapply agrees_mono; [|exact A1] | eapply flags_agree_mono; [|exact A2]]; set_solver.
    + split; intros j Hj.
      * simpl. rewrite lookup_insert_ne by set_solver. apply A1. set_solver.
      * pose proof (A2 j) as Bj. unfold set_props. cbn [props]. rewrite dom_insert_L. clear -Hj Bj.
        destruct (decide (j = k)) as [->|]; destruct (decide (k ∈ dom (props d))); set_solver.
  - simpl. destruct (run_dop_tracked o Es d S U M F A1 A2) as [B1 B2]. fold r in B1, B2.
    split; [eapply agrees_mono; [|exact B1] | eapply flags_agree_mono; [|exact B2]]; set_solver.
Qed.

Lemma run_dops_follow os d S U M F :
  agrees S M d -> flags_agree U F d ->
  let r := run_dops os d in
  agrees (behind os d S) (listen_all M (trace r)) (dev_of r) /\
  flags_agree (unannounced os d U) (foldl listen_flags F (trace r)) (dev_of r).
Proof.
  revert d S U M F. induction os as [|o os IH]; intros d S U M F A1 A2; simpl; [done|].
  destruct (run_dop_follows o d S U M F A1 A2) as [B1 B2].
  rewrite dev_of_bind, trace_bind. unfold listen_all in *. rewrite !foldl_app. by apply IH.
Qed.

(** Without silent edits nobody is behind. *)
Lemma behind_none os d : Forall (fun o => silent o = None) os -> behind os d ∅ = ∅ /\ unannounced os d ∅ = ∅.
Proof.
  assert (E1 : forall X : gset string, (∅ ∪ ∅) ∖ X = ∅) by set_solver.
  assert (E2 : forall X Y : gset string, (∅ ∪ ∅ ∖ Y) ∖ X = ∅) by set_solver.
  intros H. revert d. induction H as [|o os Ho _ IH]; intros d; simpl; [done|]. unfold silent_keys. rewrite Ho. simpl.
  rewrite E1, E2. apply IH.
Qed.

Lemma run_dops_faithful os d :
  Forall (fun o => silent o = None) os ->
  listen_all (props d) (trace (run_dops os d)) = props (dev_of (run_dops os d)) /\
  foldl listen_flags (dom (props d)) (trace (run_dops os d)) = dom (props (dev_of (run_dops os d))).
Proof.
  intros H. destruct (run_dops_follow os d ∅ ∅ (props d) (dom (props d))) as [A B]; [done | done|].
  destruct (behind_none os d H) as [E1 E2]. rewrite E1 in A. rewrite E2 in B. split.
  - apply map_eq. intros k. by apply A.
  - apply set_eq. intros k. apply B. set_solver.
Qed.

(** ** Types and UTF-8 *)
Definition same_type_after (k : string) (d d' : HalDevice) : Prop :=
  forall p, props d !! k = Some p -> exists p', props d' !! k = Some p' /\
    hal_property_get_type p' = hal_property_get_type p.

Lemma write_keeps_type key k d d' t :
  write key d d' t -> (is_Some (props d !! key) -> is_Some (props d' !! key)) ->
  same_type_after k d d'.
Proof.
  intros H Hs p Hp.
  destruct (decide (k = key)) as [->|Hne];
    [|exists p; split; [|done]; by rewrite (proj2 (proj2 (proj2 (write_frame _ _ _ _ H))))].
  destruct H as [|q d' H -> |q q' d' H Hl Ht ->|q q' d' H Ht ->|q d' H ->]; simpl in *;
    rewrite ?lookup_insert_eq; [eauto|congruence| | |].
  - exists q'. split; [done|congruence].
  - exists q'. split; [done|congruence].
  - rewrite lookup_delete_eq in Hs. destruct (Hs (ex_intro _ _ Hp)); done.
Qed.

Lemma keeps_type {A} key k (m : dev A) d : keeps key m -> same_type_after k d (dev_of (m d)).
Proof. intros H. destruct (H d) as [H1 H2]. by eapply write_keeps_type. Qed.

Lemma res_bind {A B} (m : dev A) (k : A -> dev B) d :
  res (dbind m k d) = res (k (res (m d)) (dev_of (m d))).
Proof. unfold dbind, dev_of, res, trace. destruct (m d) as [[a d1] t1]. simpl. by destruct (k a d1) as [[? ?] ?]. Qed.

Lemma res_get {A} (f : HalDevice -> A) d : res (dget f d) = f d.
Proof. done. Qed.
Lemma dev_of_get {A} (f : HalDevice -> A) d : dev_of (dget f d) = d.
Proof. done. Qed.
Lemma res_ret {A} (a : A) d : res (dret a d) = a.
Proof. done. Qed.
Lemma dev_of_ret {A} (a : A) d : dev_of (dret a d) = d.
Proof. done. Qed.
Lemma dev_of_emit s d : dev_of (g_signal_emit s d) = d.
Proof. done. Qed.

Lemma same_type_refl k d : same_type_after k d d.
Proof. intros p Hp. eauto. Qed.

Lemma same_type_trans k d1 d2 d3 :
  same_type_after k d1 d2 -> same_type_after k d2 d3 -> same_type_after k d1 d3.
Proof.
  intros H1 H2 p Hp. destruct (H1 p Hp) as (p1 & Hp1 & E1).
  destruct (H2 p1 Hp1) as (p2 & Hp2 & E2). exists p2. split; [done | congruence].
Qed.

Lemma silent_same_type key k d d' : silent_write key d d' -> same_type_after k d d'.
Proof.
  destruct 1 as [|l H]; [apply same_type_refl|]. intros p Hp. unfold set_props. cbn [props].
  destruct (decide (k = key)) as [->|]; [rewrite lookup_insert_eq | rewrite lookup_insert_ne by done; eauto].
  exists (PStrlist l). split; [done|]. by rewrite (H p Hp).
Qed.

Lemma run_dop_same_type o k d : o <> ORemove k -> same_type_after k d (dev_of (run_dop o d)).
Proof.
  intros Ho. destruct o; simpl run_dop; rewrite ?dev_of_bind;
    try (unfold dret, dev_of at 1; simpl; eapply keeps_type; solve [eauto with hal]).
  - unfold dret, dev_of at 1. simpl. intros p Hp.
    destruct (write_frame _ _ _ _ (remove_writes key d)) as (_ & _ & _ & Hf).
    exists p. split; [|done]. rewrite Hf; [done | congruence].
  - unfold hal_device_add_capability. rewrite dev_of_bind.
    pose proof (keeps_type _ k _ d (add_keeps "info.capabilities" capability)) as H.
    by destruct (res _).
  - unfold hal_device_set_udi. rewrite !dev_of_bind. unfold dret, dev_of at 1. simpl.
    eapply (same_type_trans _ _ (mk_device u _ _ (props d)));
      [|eapply keeps_type; eauto with hal]. intros p Hp. eauto.
  - intros p Hp. by exists p.
  - unfold hal_device_inc_num_ready_addons, dret, dev_of. simpl.
    destruct (hal_device_are_all_addons_ready d); intros p Hp; by exists p.
  - eapply silent_same_type, (proj1 (append_silently key value d)).
  - eapply silent_same_type, (proj1 (clear_silently key d)).
  - destruct (finish_announces key is_added d) as [E _]. unfold dev_of at 1. simpl. rewrite E. apply same_type_refl.
Qed.

Lemma run_dops_same_type os k d :
  ORemove k ∉ os -> same_type_after k d (dev_of (run_dops os d)).
Proof.
  revert d. induction os as [|o os IH]; intros d Hn; simpl; [apply same_type_refl|].
  rewrite dev_of_bind. apply not_elem_of_cons in Hn as [Hne Hn].
  eapply same_type_trans; [by apply run_dop_same_type, not_eq_sym | by apply IH].
Qed.

(** ** Setting a typed value *)

(** The setter for the type of a value. *)
Definition set_value (key : string) (v : HalProperty) : dev bool :=
  match v with
  | PString s => hal_device_property_set_string key (Some s)
  | PInt32 z => hal_device_property_set_int key z
  | PUint64 z => hal_device_property_set_uint64 key z
  | PBoolean b => hal_device_property_set_bool key b
  | PDouble x => hal_device_property_set_double key x
  | PStrlist l => hal_device_property_set_strlist key l
  end.

(** Whether a stored value counts as the value to be set: C equality, which
    for doubles identifies the two zeros and no NaN. *)
Definition same_value (v stored : HalProperty) : bool :=
  match v, stored with
  | PDouble x, PDouble y => dbl_eqb y x
  | PDouble _, _ => false
  | _, _ => bool_decide (stored = v)
  end.

(** The value as it is stored: strings are made valid UTF-8. *)
Definition stored (v : HalProperty) : HalProperty :=
  match v with PString s => PString (utf8_sanitize s) | _ => v end.

Definition set_value_spec (key : string) (v : HalProperty) (d : HalDevice)
  : bool * HalDevice * list emission :=
  match props d !! key with
  | None =>
      let d' := set_props <[key := stored v]> d in
      (true, d', [Emit (PROPERTY_CHANGED key false true) d'])
  | Some q =>
      if bool_decide (hal_property_get_type q <> hal_property_get_type v) then (false, d, [])
      else if same_value v q then (true, d, [])
      else let d' := set_props <[key := stored v]> d in
           (true, d', [Emit (PRE_PROPERTY_CHANGED key false) d;
                       Emit (PROPERTY_CHANGED key false false) d'])
  end.

Lemma strlist_equal_spec l1 l2 :
  bool_decide (length l1 = length l2) && strlist_equal l1 l2 = bool_decide (l2 = l1).
Proof.
  apply eq_iff_eq_true. rewrite andb_true_iff, !bool_decide_eq_true. split.
  - intros [Hl He]. revert l2 Hl He.
    induction l1 as [|x l1 IH]; intros [|y l2]; simpl; try done. intros [= Hl].
    case_bool_decide; [subst; simpl|done]. intros He. by rewrite (IH l2).
  - intros ->. split; [done|]. induction l1 as [|x l1 IH]; simpl; [done|].
    by rewrite bool_decide_eq_true_2.
Qed.

Lemma same_value_string s s' :
  (strcmp s' s =? 0) = bool_decide (PString s' = PString s).
Proof.
  apply eq_iff_eq_true. rewrite Z.eqb_eq, strcmp_eq, bool_decide_eq_true. naive_solver.
Qed.

Lemma eqb_bool_decide_prop {A} `{EqDecision A} (f : A -> HalProperty) (x y : A) (b : bool) :
  (forall u v, f u = f v -> u = v) -> (b = true <-> x = y) -> b = bool_decide (f x = f y).
Proof.
  intros Hf Hb. apply eq_iff_eq_true. rewrite bool_decide_eq_true, Hb.
  split; [by intros -> | apply Hf].
Qed.

Lemma set_value_correct key v d : set_value key v d = set_value_spec key v d.
Proof.
  unfold set_value_spec.
  destruct v; simpl set_value; unfold hal_device_property_set_string,
    hal_device_property_set_int, hal_device_property_set_uint64, hal_device_property_set_bool,
    hal_device_property_set_double, hal_device_property_set_strlist, property_set,
    hal_device_property_find, dbind, dget, dret, g_signal_emit, put_prop; simpl;
    (destruct (props d !! key) as [q|]; [destruct q; simpl|simpl]);
    rewrite ?strlist_property_eq; try done.
  - rewrite same_value_string. by destruct (bool_decide _).
  - rewrite (eqb_bool_decide_prop PInt32 _ _ _ ltac:(by intros ?? [=]) (Z.eqb_eq _ _)).
    by destruct (bool_decide _).
  - rewrite (eqb_bool_decide_prop PUint64 _ _ _ ltac:(by intros ?? [=]) (Z.eqb_eq _ _)).
    by destruct (bool_decide _).
  - rewrite (eqb_bool_decide_prop PBoolean _ _ _ ltac:(by intros ?? [=]) (eqb_true_iff _ _)).
    by destruct (bool_decide _).
  - by destruct (dbl_eqb _ _).
  - rewrite strlist_equal_spec.
    rewrite (eqb_bool_decide_prop PStrlist _ _ _ ltac:(by intros ?? [=]) (bool_decide_eq_true _)).
    by destruct (bool_decide _).
Qed.

(** ** Valid UTF-8 in every string property *)
Definition prop_utf8 (p : HalProperty) : Prop :=
  match p with PString s => g_utf8_validate s = None | _ => True end.
Definition device_utf8 (d : HalDevice) : Prop := map_Forall (fun _ p => prop_utf8 p) (props d).

Definition keeps_utf8 {A} (m : dev A) : Prop :=
  forall d, device_utf8 d -> device_utf8 (dev_of (m d)).

Lemma keeps_utf8_bind {A B} (m : dev A) (k : A -> dev B) :
  keeps_utf8 m -> (forall a, keeps_utf8 (k a)) -> keeps_utf8 (dbind m k).
Proof. intros Hm Hk d Hd. rewrite dev_of_bind. by apply Hk, Hm. Qed.

Lemma keeps_utf8_ret {A} (a : A) : keeps_utf8 (dret a).
Proof. intros d Hd. exact Hd. Qed.
Lemma keeps_utf8_get {A} (f : HalDevice -> A) : keeps_utf8 (dget f).
Proof. intros d Hd. exact Hd. Qed.
Lemma keeps_utf8_emit s : keeps_utf8 (g_signal_emit s).
Proof. intros d Hd. exact Hd. Qed.
Lemma keeps_utf8_put key p : prop_utf8 p -> keeps_utf8 (put_prop key p).
Proof. intros Hp d Hd. by apply map_Forall_insert_2. Qed.
Lemma keeps_utf8_drop key : keeps_utf8 (drop_prop key).
Proof. intros d Hd. by apply map_Forall_delete. Qed.
Lemma keeps_utf8_emit_unless b s : keeps_utf8 (emit_unless b s).
Proof. destruct b; intros d Hd; exact Hd. Qed.

Create HintDb utf8.
#[local] Hint Resolve keeps_utf8_ret keeps_utf8_get keeps_utf8_emit keeps_utf8_put
  keeps_utf8_drop keeps_utf8_emit_unless : utf8.

Lemma keeps_utf8_property_set ty same upd fresh key :
  (forall p, hal_property_get_type p = ty -> prop_utf8 (upd p)) -> prop_utf8 fresh ->
  keeps_utf8 (property_set ty same upd fresh key).
Proof.
  intros Hu Hf. apply keeps_utf8_bind; [auto with utf8|]. intros [p|].
  - case_bool_decide as Ht; simpl; [|auto with utf8].
    destruct (same p); [auto with utf8|].
    repeat (apply keeps_utf8_bind; intros; auto with utf8).
  - repeat (apply keeps_utf8_bind; intros; auto with utf8).
Qed.

Context {L : PlatformLaws P}.

Lemma set_value_keeps_utf8 key v : keeps_utf8 (set_value key v).
Proof.
  destruct v; apply keeps_utf8_property_set; simpl; try done;
    rewrite ?strlist_property_eq; try done; try apply utf8_sanitize_valid;
    intros [] Ht; try discriminate Ht; simpl; try done; apply utf8_sanitize_valid.
Qed.

Lemma set_string_keeps_utf8 key v : keeps_utf8 (hal_device_property_set_string key v).
Proof.
  destruct v as [s|]; [exact (set_value_keeps_utf8 key (PString s))|].
  exact (set_value_keeps_utf8 key (PString "")).
Qed.

(** The string list operations only store string lists. *)
Ltac utf8_seq :=
  repeat (apply keeps_utf8_bind; [solve [auto with utf8 | by apply keeps_utf8_put]|intros]);
  solve [auto with utf8].
Ltac strlist_utf8 :=
  apply keeps_utf8_bind; [auto with utf8|];
  intros [p|];
  [ let Ht := fresh "Ht" in
    case_bool_decide as Ht; simpl;
    [destruct p as [| | | | |l]; try discriminate Ht; simpl; try utf8_seq
    | auto with utf8]
  | utf8_seq ].

Lemma append_keeps_utf8 k v b : keeps_utf8 (hal_device_property_strlist_append k v b).
Proof. unfold hal_device_property_strlist_append. strlist_utf8. Qed.
Lemma prepend_keeps_utf8 k v : keeps_utf8 (hal_device_property_strlist_prepend k v).
Proof. unfold hal_device_property_strlist_prepend. strlist_utf8. Qed.
Lemma clear_keeps_utf8 k b : keeps_utf8 (hal_device_property_strlist_clear k b).
Proof. unfold hal_device_property_strlist_clear. strlist_utf8. Qed.
Lemma remove_keeps_utf8 k : keeps_utf8 (hal_device_property_remove k).
Proof.
  apply keeps_utf8_bind; [auto with utf8|]. intros [p|]; [|auto with utf8].
  repeat (apply keeps_utf8_bind; intros; auto with utf8).
Qed.

Lemma remove_elem_keeps_utf8 k i : keeps_utf8 (hal_device_property_strlist_remove_elem k i).
Proof.
  unfold hal_device_property_strlist_remove_elem. strlist_utf8.
  destruct (l !! i); utf8_seq.
Qed.
Lemma add_keeps_utf8 k v : keeps_utf8 (hal_device_property_strlist_add k v).
Proof.
  unfold hal_device_property_strlist_add. strlist_utf8. destruct (existsb _ _); utf8_seq.
Qed.
Lemma strlist_remove_keeps_utf8 k v : keeps_utf8 (hal_device_property_strlist_remove k v).
Proof.
  unfold hal_device_property_strlist_remove. strlist_utf8.
  destruct (strlist_index _ _ _); simpl; [|utf8_seq]. destruct (l !! n); utf8_seq.
Qed.

Lemma copy_keeps_utf8 src from to : keeps_utf8 (hal_device_copy_property src from to).
Proof.
  unfold hal_device_copy_property. destruct (hal_device_has_property _ _); [|auto with utf8].
  destruct (hal_device_property_get_type _ _); [auto with utf8| | | | | |].
  - exact (set_value_keeps_utf8 to (PInt32 _)).
  - exact (set_value_keeps_utf8 to (PUint64 _)).
  - exact (set_value_keeps_utf8 to (PDouble _)).
  - exact (set_value_keeps_utf8 to (PBoolean _)).
  - apply set_string_keeps_utf8.
  - exact (set_value_keeps_utf8 to (PStrlist _)).
Qed.

Lemma silent_utf8 key d d' : device_utf8 d -> silent_write key d d' -> device_utf8 d'.
Proof. intros Hd []; [done|]. unfold device_utf8, set_props. cbn [props]. by apply map_Forall_insert_2. Qed.

Lemma run_dop_keeps_utf8 o : keeps_utf8 (run_dop o).
Proof.
  destruct o; simpl;
    try match goal with |- keeps_utf8 (dbind _ _) => apply keeps_utf8_bind; [|auto with utf8] end.
  - apply set_string_keeps_utf8.
  - exact (set_value_keeps_utf8 key (PInt32 value)).
  - exact (set_value_keeps_utf8 key (PUint64 value)).
  - exact (set_value_keeps_utf8 key (PBoolean value)).
  - exact (set_value_keeps_utf8 key (PDouble value)).
  - exact (set_value_keeps_utf8 key (PStrlist value)).
  - apply remove_keeps_utf8.
  - apply append_keeps_utf8.
  - apply prepend_keeps_utf8.
  - apply remove_elem_keeps_utf8.
  - apply clear_keeps_utf8.
  - apply add_keeps_utf8.
  - apply strlist_remove_keeps_utf8.
  - unfold hal_device_add_capability.
    apply keeps_utf8_bind; [apply add_keeps_utf8 | intros []; auto with utf8].
  - apply copy_keeps_utf8.
  - unfold hal_device_set_udi.
    apply keeps_utf8_bind; [intros d Hd; exact Hd|]. intros _.
    apply keeps_utf8_bind; [apply set_string_keeps_utf8 | auto with utf8].
  - intros d Hd. exact Hd.
  - intros d Hd. unfold hal_device_inc_num_ready_addons.
    by destruct (hal_device_are_all_addons_ready d).
  - intros d Hd. eapply silent_utf8; [exact Hd | apply append_silently].
  - intros d Hd. eapply silent_utf8; [exact Hd | apply clear_silently].
  - intros d Hd. by destruct (finish_announces key is_added d) as [-> _].
Qed.

Lemma run_dops_keeps_utf8 os : keeps_utf8 (run_dops os).
Proof.
  induction os as [|o os IH]; simpl; [auto with utf8|].
  apply keeps_utf8_bind; [apply run_dop_keeps_utf8 | done].
Qed.

End Theorems.

(** ** Setting and removing properties *)
Section Values.
Context {P : Platform}.

(** The value [v] can be stored under the key and is then read back. *)
Definition storable (d : HalDevice) (key : string) (v : HalProperty) : Prop :=
  stored v = v /\
  match props d !! key with Some q => hal_property_get_type q = hal_property_get_type v | None => True end /\
  match v with PDouble _ => props d !! key = None | _ => True end.

Lemma set_value_run key v d :
  storable d key v ->
  res (set_value key v d) = true /\ dev_of (set_value key v d) = set_props <[key := v]> d.
Proof.
  intros (Hs & Ht & Hd). rewrite set_value_correct. unfold set_value_spec. rewrite Hs.
  destruct (props d !! key) as [q|] eqn:E; [|done]. rewrite bool_decide_eq_false_2 by auto.
  destruct v; [..|done|]; simpl; (case_bool_decide as Hq; [|done]); subst q; simpl;
    (split; [done|]); unfold set_props, dev_of; simpl; rewrite insert_id by done; by destruct d.
Qed.

Lemma set_value_dev key v d : storable d key v -> dev_of (set_value key v d) = set_props <[key := v]> d.
Proof. apply set_value_run. Qed.

Lemma storable_fresh d key v : props d !! key = None -> stored v = v -> storable d key v.
Proof. intros E Hs. unfold storable. rewrite E. by destruct v. Qed.

Lemma stored_string s : g_utf8_validate s = None -> stored (PString s) = PString s.
Proof. intros H. simpl. by rewrite utf8_sanitize_id. Qed.

Lemma remove_run key p d :
  props d !! key = Some p ->
  dev_of (hal_device_property_remove key d) = set_props (delete key) d.
Proof.
  intros E. unfold hal_device_property_remove, hal_device_property_find. dev_cbn. rewrite E. done.
Qed.
End Values.

Create Rewrite HintDb dev.
#[export] Hint Rewrite @res_bind @dev_of_bind @res_get @dev_of_get @res_ret @dev_of_ret
  dev_of_emit : dev.
