(* ===== verification/DeviceMerge.v ===== *)
(** * Merging devices and printing properties into buffers ([hald/device.c])

    [hal_device_merge_with_rewrite] walks a hash table, so the order of its
    steps is not fixed: the result is given for every order.  The second part
    is about the writes of [hal_device_property_get_as_string] into the
    caller's buffer. *)

From Stdlib Require Import ZArith Lia Ascii SpecFloat.
From stdpp Require Import base list gmap strings option pretty.
From S2P Require Import Prelude CStd Property Device DeviceTheory.

Section Merge.
Context {P : Platform}.

(** ** Merging *)

(** The rest of [s] after the prefix [p]. *)
Definition strip (p s : string) : option string :=
  if has_prefix s p then Some (str_drop (String.length p) s) else None.

Lemma strip_Some p s r : strip p s = Some r <-> s = p +:+ r.
Proof.
  unfold strip. destruct (has_prefix s p) eqn:E.
  - apply has_prefix_spec in E as [r' ->]. rewrite str_drop_app. split.
    + by intros [= ->].
    + intros H. apply string_app_inj_l in H. by subst.
  - split; [done|]. intros ->. exfalso.
    assert (has_prefix (p +:+ r) p = true) by (apply has_prefix_spec; eauto). congruence.
Qed.

Lemma has_prefix_app p r : has_prefix (p +:+ r) p = true.
Proof. apply has_prefix_spec. eauto. Qed.

(** What the target holds after a source property was merged over [old]. *)
Definition merged (p : HalProperty) (old : option HalProperty) : HalProperty :=
  match old with
  | Some q => if bool_decide (hal_property_get_type q = hal_property_get_type p) && same_value p q
              then q else stored p
  | None => stored p
  end.

Definition merge_spec (source target : HalDevice) (tns sns k : string) : option HalProperty :=
  match strip tns k with
  | Some rest =>
      match props source !! (sns +:+ rest) with
      | Some p => Some (merged p (props target !! k))
      | None => props target !! k
      end
  | None => props target !! k
  end.

Lemma append_all_props k l l0 d :
  props d !! k = Some (PStrlist l0) ->
  props (dev_of (append_all k l d)) = <[k := PStrlist (l0 ++ l)]> (props d).
Proof.
  revert l0 d. induction l as [|v l IH]; intros l0 d H; simpl.
  - rewrite app_nil_r. symmetry. by apply insert_id.
  - rewrite dev_of_bind.
    assert (props (dev_of (hal_device_property_strlist_append k v false d))
            = <[k := PStrlist (l0 ++ [v])]> (props d)) as E.
    { unfold hal_device_property_strlist_append, hal_device_property_find, dbind, dget, put_prop,
        emit_unless, g_signal_emit, dret. simpl. by rewrite H. }
    rewrite (IH (l0 ++ [v])) by (rewrite E; apply lookup_insert_eq).
    rewrite E, insert_insert_eq, <- app_assoc. done.
Qed.

Lemma clear_append_props k l d :
  (hal_device_property_get_type d k = HAL_PROPERTY_TYPE_INVALID \/
   hal_device_property_get_type d k = HAL_PROPERTY_TYPE_STRLIST) ->
  props (dev_of ((hal_device_property_strlist_clear k false ;;; append_all k l) d))
  = <[k := PStrlist l]> (props d).
Proof.
  intros H. rewrite dev_of_bind.
  assert (props (dev_of (hal_device_property_strlist_clear k false d))
          = <[k := PStrlist []]> (props d)) as E.
  { unfold hal_device_property_get_type, hal_device_property_find in H.
    unfold hal_device_property_strlist_clear, hal_device_property_find, dbind, dget, put_prop,
      drop_prop, emit_unless, g_signal_emit, dret. simpl.
    destruct (props d !! k) as [q|]; [|done].
    destruct q; simpl in *; try (destruct H; discriminate).
    unfold dev_of. simpl. apply insert_delete_eq. }
  rewrite (append_all_props k l []) by (rewrite E; apply lookup_insert_eq).
  by rewrite E, insert_insert_eq.
Qed.

Lemma set_value_props key v d :
  (props d !! key = None \/
   exists q, props d !! key = Some q /\ hal_property_get_type q = hal_property_get_type v) ->
  props (dev_of (set_value key v d)) = <[key := merged v (props d !! key)]> (props d).
Proof.
  intros H. rewrite set_value_correct. unfold set_value_spec, merged.
  destruct H as [-> | (q & Hq & Ht)]; [done|]. rewrite Hq.
  rewrite bool_decide_eq_false_2 by naive_solver.
  rewrite bool_decide_eq_true_2 by done. simpl.
  destruct (same_value v q); [|done]. simpl. symmetry. by apply insert_id.
Qed.

Lemma remove_props key d :
  props (dev_of (hal_device_property_remove key d)) = delete key (props d).
Proof.
  unfold hal_device_property_remove, hal_device_property_find, dbind, dget, drop_prop,
    g_signal_emit, dret. simpl.
  destruct (props d !! key) eqn:E; [done|]. unfold dev_of. simpl.
  symmetry. by apply delete_id.
Qed.

(** The setter part of the callback, when the types agree. *)
Lemma merge_switch p key d :
  (props d !! key = None \/
   exists q, props d !! key = Some q /\ hal_property_get_type q = hal_property_get_type p) ->
  props (dev_of (match hal_property_get_type p with
    | HAL_PROPERTY_TYPE_STRING =>
        hal_device_property_set_string key (hal_property_get_string p) ;;; dret tt
    | HAL_PROPERTY_TYPE_INT32 =>
        hal_device_property_set_int key (hal_property_get_int p) ;;; dret tt
    | HAL_PROPERTY_TYPE_UINT64 =>
        hal_device_property_set_uint64 key (hal_property_get_uint64 p) ;;; dret tt
    | HAL_PROPERTY_TYPE_BOOLEAN =>
        hal_device_property_set_bool key (hal_property_get_bool p) ;;; dret tt
    | HAL_PROPERTY_TYPE_DOUBLE =>
        hal_device_property_set_double key (hal_property_get_double p) ;;; dret tt
    | HAL_PROPERTY_TYPE_STRLIST =>
        hal_device_property_strlist_clear key false ;;;
        append_all key (hal_property_get_strlist p)
    | HAL_PROPERTY_TYPE_INVALID => dret tt
    end d)) = <[key := merged p (props d !! key)]> (props d).
Proof.
  intros H. pose proof (set_value_props key p d H) as E.
  destruct p as [s|z|z|b|x|l]; simpl; rewrite ?(dev_of_bind _ (fun _ : bool => dret tt));
    try exact E.
  rewrite clear_append_props.
  - f_equal. destruct H as [-> | (q & -> & Ht)]; [done|]. destruct q; try discriminate Ht.
    unfold merged, same_value. simpl. repeat case_bool_decide; by simplify_eq/=.
  - unfold hal_device_property_get_type, hal_device_property_find.
    destruct H as [-> | (q & -> & Ht)]; auto.
Qed.

Lemma merge_cb_props source sns tns rest p d :
  props source !! (sns +:+ rest) = Some p ->
  props (dev_of (merge_device_rewrite_cb source sns tns (sns +:+ rest) d))
  = <[tns +:+ rest := merged p (props d !! (tns +:+ rest))]> (props d).
Proof.
  intros Hp. unfold merge_device_rewrite_cb. rewrite has_prefix_app, str_drop_app. simpl.
  assert (hal_device_property_get_type source (sns +:+ rest) = hal_property_get_type p) as ->.
  { unfold hal_device_property_get_type, hal_device_property_find. by rewrite Hp. }
  unfold hal_device_property_find. rewrite Hp.
  set (tk := tns +:+ rest). rewrite dev_of_bind. unfold dget at 1 2, res, dev_of at 2. simpl.
  rewrite dev_of_bind. unfold hal_device_property_get_type, hal_device_property_find.
  destruct (props d !! tk) as [q|] eqn:Eq.
  - destruct (decide (hal_property_get_type q = hal_property_get_type p)) as [Ht|Ht].
    + rewrite (bool_decide_eq_true_2 (hal_property_get_type q = hal_property_get_type p)) by done.
      rewrite andb_false_r. unfold dret at 2, dev_of at 2. simpl.
      rewrite merge_switch, Eq; [done | eauto].
    + rewrite (bool_decide_eq_false_2 (hal_property_get_type q = hal_property_get_type p)) by done.
      rewrite (bool_decide_eq_false_2 (hal_property_get_type q = HAL_PROPERTY_TYPE_INVALID))
        by (by destruct q).
      simpl. rewrite merge_switch; rewrite remove_props, ?lookup_delete_eq; [|by left].
      rewrite insert_delete_eq. f_equal. unfold merged.
      by rewrite (bool_decide_eq_false_2 (hal_property_get_type q = hal_property_get_type p)).
  - simpl. unfold dret at 2, dev_of at 2. simpl. rewrite merge_switch, Eq; [done | by left].
Qed.

Lemma merge_cb_skip source sns tns key d :
  strip sns key = None -> dev_of (merge_device_rewrite_cb source sns tns key d) = d.
Proof.
  unfold strip, merge_device_rewrite_cb. by destruct (has_prefix key sns).
Qed.

Lemma merge_foreach source sns tns order d k :
  NoDup order -> (forall key, key ∈ order -> is_Some (props source !! key)) ->
  props (dev_of (hal_device_property_foreach order (merge_device_rewrite_cb source sns tns) d)) !! k
  = match strip tns k with
    | Some rest =>
        if decide (sns +:+ rest ∈ order) then
          (fun p => merged p (props d !! k)) <$> props source !! (sns +:+ rest)
        else props d !! k
    | None => props d !! k
    end.
Proof.
  intros Hnd Hin. revert d. induction order as [|h order IH]; intros d; simpl.
  { by destruct (strip tns k). }
  apply NoDup_cons in Hnd as [Hh Hnd]. rewrite dev_of_bind.
  rewrite IH by (done || set_solver). clear IH.
  destruct (strip sns h) as [rh|] eqn:Es.
  - apply strip_Some in Es as ->. destruct (Hin (sns +:+ rh)) as [p Hp]; [set_solver|].
    rewrite (merge_cb_props _ _ _ _ _ _ Hp).
    destruct (strip tns k) as [rk|] eqn:Ek.
    + apply strip_Some in Ek as ->. destruct (decide (rk = rh)) as [->|Hne].
      * rewrite decide_False by done. rewrite decide_True by set_solver.
        by rewrite lookup_insert_eq, Hp.
      * rewrite lookup_insert_ne by (intros H; by apply string_app_inj_l in H).
        assert (sns +:+ rk <> sns +:+ rh) by (intros H; by apply string_app_inj_l in H).
        destruct (decide (sns +:+ rk ∈ order)).
        -- by rewrite decide_True by set_solver.
        -- by rewrite decide_False by set_solver.
    + rewrite lookup_insert_ne; [done|]. intros <-.
      assert (strip tns (tns +:+ rh) = Some rh) by (by apply strip_Some). congruence.
  - rewrite merge_cb_skip by done. destruct (strip tns k) as [rk|]; [|done].
    assert (sns +:+ rk <> h).
    { intros <-. assert (strip sns (sns +:+ rk) = Some rk) by (by apply strip_Some). congruence. }
    destruct (decide (sns +:+ rk ∈ order)).
    + by rewrite decide_True by set_solver.
    + by rewrite decide_False by set_solver.
Qed.

End Merge.

Section Buffers.
Context {P : Platform}.

(** ** Printing into a buffer *)
Abbreviation chars := String.list_ascii_of_string.

Lemma chars_length s : length (chars s) = String.length s.
Proof. induction s as [|c s IH]; simpl; [done | by rewrite IH]. Qed.

Lemma buf_put_length i bytes buf :
  (i + length bytes <= length buf)%nat -> length (buf_put i bytes buf) = length buf.
Proof.
  intros H. unfold buf_put. rewrite !length_app, length_take, length_drop. lia.
Qed.

Lemma strncpy_bytes_length n s : length (strncpy_bytes n s) = n.
Proof. unfold strncpy_bytes. rewrite length_take, length_app, length_replicate. lia. Qed.

Lemma snprintf_bytes_length n s : (length (snprintf_bytes n s) <= n)%nat.
Proof.
  destruct n as [|m]; simpl; [done|]. rewrite length_app, length_take. simpl. lia.
Qed.

Lemma strlist_into_length l i buf : length (strlist_into l i buf) = length buf.
Proof.
  revert i buf. induction l as [|s l IH]; intros i buf; simpl; [done|].
  destruct (decide _) as [Hi|]; [|done].
  assert (length (buf_put i (strncpy_bytes (length buf - i) s) buf) = length buf) as E
    by (apply buf_put_length; rewrite strncpy_bytes_length; lia).
  destruct (decide _) as [Hj|]; rewrite IH; [|done].
  rewrite buf_put_length; [done|]. simpl. rewrite E. lia.
Qed.

Lemma property_as_string_length p buf : length (property_as_string p buf) = length buf.
Proof.
  destruct p; simpl; try (apply buf_put_length; simpl;
    first [rewrite strncpy_bytes_length | pose proof (snprintf_bytes_length (length buf))]; eauto).
  rewrite strlist_into_length. destruct (decide _); [|done].
  apply buf_put_length. simpl. lia.
Qed.

(** The text of a list of strings, each followed by a tab. *)
Definition tabbed (l : list string) : list ascii := flat_map (fun s => chars s ++ [TAB]) l.

Lemma strncpy_bytes_fits n s :
  (String.length s <= n)%nat ->
  strncpy_bytes n s = chars s ++ replicate (n - String.length s) NUL.
Proof.
  intros H. unfold strncpy_bytes. rewrite take_app, chars_length, take_replicate.
  rewrite take_ge by (rewrite chars_length; lia). do 2 f_equal. lia.
Qed.

(** The buffer after one element that fits and its tab. *)
Lemma put_element i s buf :
  (i + String.length s < length buf)%nat ->
  buf_put (i + String.length s) [TAB]
    (buf_put i (strncpy_bytes (length buf - i) s) buf) =
  take i buf ++ chars s ++ [TAB] ++ replicate (length buf - i - String.length s - 1) NUL.
Proof.
  intros H. rewrite strncpy_bytes_fits by lia. unfold buf_put.
  rewrite length_app, length_replicate, chars_length.
  rewrite (drop_ge buf) by lia. rewrite app_nil_r.
  replace (length buf - i - String.length s)%nat
    with (S (length buf - i - String.length s - 1)) by lia.
  set (m := (length buf - i - String.length s - 1)%nat).
  assert (length (take i buf ++ chars s) = i + String.length s)%nat as E
    by (rewrite length_app, length_take, chars_length; lia).
  rewrite !(app_assoc (take i buf)). rewrite take_app_length' by done.
  rewrite drop_app. rewrite (drop_ge (take i buf ++ chars s)) by (rewrite E; simpl; lia).
  rewrite E. replace (i + String.length s + length [TAB] - (i + String.length s))%nat
    with 1%nat by (simpl; lia).
  simpl. by rewrite drop_0, Nat.sub_0_r.
Qed.

Lemma strlist_into_fits l i buf :
  l <> [] -> (i + length (tabbed l) < length buf)%nat ->
  strlist_into l i buf =
  take i buf ++ tabbed l ++ replicate (length buf - i - length (tabbed l)) NUL.
Proof.
  revert i buf. induction l as [|s l IH]; intros i buf Hne Hlen; [done|].
  assert (length (tabbed (s :: l)) = String.length s + 1 + length (tabbed l))%nat as Et.
  { simpl. rewrite !length_app, chars_length. simpl. lia. }
  simpl strlist_into. rewrite decide_True by lia. rewrite decide_True by lia.
  rewrite put_element by lia.
  set (buf' := take i buf ++ _).
  assert (length buf' = length buf) as El.
  { unfold buf'. rewrite !length_app, length_take, length_replicate, chars_length. simpl. lia. }
  assert (take (S (i + String.length s)) buf' = take i buf ++ chars s ++ [TAB]) as Etk.
  { unfold buf'. rewrite !app_assoc. apply take_app_length'.
    rewrite !length_app, length_take, chars_length. simpl. lia. }
  destruct l as [|s' l].
  - simpl. unfold buf'. simpl tabbed. rewrite app_nil_r, <- !app_assoc.
    do 3 f_equal. rewrite !length_app, chars_length. simpl. f_equal. lia.
  - rewrite IH by (done || lia). rewrite Etk, El, Et. simpl. rewrite <- !app_assoc. simpl.
    do 6 f_equal. f_equal. lia.
Qed.

Lemma cstr_app l m : NUL ∉ l -> cstr (l ++ NUL :: m) = Some (String.string_of_list_ascii l).
Proof.
  induction l as [|c l IH]; intros H; simpl; [done|].
  apply not_elem_of_cons in H as [Hc Hl]. rewrite bool_decide_eq_false_2 by done.
  by rewrite IH.
Qed.

Lemma as_string_strlist l buf :
  l <> [] -> NUL ∉ tabbed l -> (1 + length (tabbed l) < length buf)%nat ->
  cstr (property_as_string (PStrlist l) buf) =
  Some (String TAB (String.string_of_list_ascii (tabbed l))).
Proof.
  intros Hne Hnul Hlen. simpl. rewrite decide_True by lia.
  assert (length (buf_put 0 [TAB] buf) = length buf) as E
    by (apply buf_put_length; simpl; lia).
  rewrite strlist_into_fits by (rewrite ?E; done). rewrite E.
  replace (take 1 (buf_put 0 [TAB] buf)) with [TAB] by (by destruct buf).
  replace (length buf - 1 - length (tabbed l))%nat
    with (S (length buf - 2 - length (tabbed l))) by lia.
  simpl replicate. rewrite app_assoc. rewrite cstr_app; [done|].
  apply not_elem_of_cons. split; [done | exact Hnul].
Qed.

End Buffers.
