(* ===== verification/DeviceClaims.v ===== *)
(** * What device objects guarantee ([hald/device.c])

    The statements about programs over a device, its setters, merging,
    printing and the add-on counters, each with an instance that evaluates. *)

From Stdlib Require Import ZArith Lia Ascii SpecFloat.
From stdpp Require Import base list gmap strings option pretty.
From S2P Require Import Prelude CStd Property Device DeviceTheory DeviceMerge.

(** A device for the instances. *)
Definition sample_device : HalDevice :=
  mk_device "/org/freedesktop/Hal/devices/computer" 2 1
    {[ "info.product" := PString "Computer"; "pm.level" := PInt32 7;
       "info.capabilities" := PStrlist ["button"; "input"] ]}.

Section Claims.
Context {P : Platform}.

(** C11 Listeners of the "property_changed" signal follow the device.  One
    reads the changed property again on each signal, the other only looks at the
    removed and added flags.  After any program of property operations, also
    those that edit a list with changeset TRUE (and so without a signal) and the one that finishes a change set, the first
    agrees with the device on every key that was not edited silently since it was last announced,
    and the second on every key that was not created silently and has not been
    announced as added or removed since.  When the program has no silent edit, the first has exactly the
    device's table of properties and the second exactly its set of keys. *)
Theorem listeners_follow_the_device os d :
  let r := run_dops os d in
  let table := listen_all (props d) (trace r) in
  let keys := foldl listen_flags (dom (props d)) (trace r) in
  (forall k, k ∉ behind os d ∅ -> table !! k = props (dev_of r) !! k) /\
  (forall k, k ∉ unannounced os d ∅ -> k ∈ keys <-> k ∈ dom (props (dev_of r))) /\
  (Forall (fun o => silent o = None) os -> table = props (dev_of r) /\ keys = dom (props (dev_of r))).
Proof.
  intros r table keys. destruct (run_dops_follow os d ∅ ∅ (props d) (dom (props d))) as [A B]; [done | done|].
  split; [exact A|]. split; [exact B|]. apply run_dops_faithful.
Qed.

(** C30 A property keeps its type for as long as it is not removed: whatever
    the program writes under the key, setters of another type are refused. *)
Theorem property_type_is_stable os k d p :
  ORemove k ∉ os -> props d !! k = Some p ->
  exists p', props (dev_of (run_dops os d)) !! k = Some p' /\
             hal_property_get_type p' = hal_property_get_type p.
Proof. intros Hn Hp. by apply (run_dops_same_type os k d). Qed.

(** What a client asks for: a value of one of the six types, or the string
    NULL, which stands for the empty one. *)
Definition set_asked (key : string) (v : option HalProperty) : dev bool :=
  match v with Some v => set_value key v | None => hal_device_property_set_string key None end.
Definition asked_for (v : option HalProperty) : HalProperty := default (PString "") v.

(** The getter of the type of [v] finds [v] under the key: a string as it is,
    or with the bytes replaced that are not UTF-8; a double up to C equality,
    or bit for bit (NaN). *)
Definition reads (d : HalDevice) (key : string) (v : HalProperty) : Prop :=
  match v with
  | PString s => exists s', hal_device_property_get_string d key = Some s' /\ (s' = s \/ s' = utf8_sanitize s)
  | PInt32 z => hal_device_property_get_int d key = z
  | PUint64 z => hal_device_property_get_uint64 d key = z
  | PBoolean b => hal_device_property_get_bool d key = b
  | PDouble x => dbl_eqb (hal_device_property_get_double d key) x = true \/ hal_device_property_get_double d key = x
  | PStrlist l => hal_device_property_get_strlist d key = l
  end.

(** NULL is treated like the empty string. *)
Lemma ask_null key d : hal_device_property_set_string key None d = set_value key (PString "") d.
Proof. done. Qed.

Lemma asks key v d : set_asked key v d = set_value_spec key (asked_for v) d.
Proof. destruct v; cbn [set_asked asked_for default]; [|rewrite ask_null]; apply set_value_correct. Qed.

Lemma reads_of d key v q :
  props d !! key = Some q -> hal_property_get_type q = hal_property_get_type v -> same_value v q = true \/ q = stored v ->
  reads d key v.
Proof.
  intros Hq Ht H. unfold reads, hal_device_property_get_string, hal_device_property_get_int, hal_device_property_get_uint64,
    hal_device_property_get_bool, hal_device_property_get_double, hal_device_property_get_strlist, hal_device_property_find.
  rewrite Hq. destruct v, q; try discriminate Ht; cbn in *; destruct H as [H|H]; bool_hyps; simplify_eq/=; eauto.
Qed.


(** Reading back what was set: when the key is free or holds a property of
    the same type, setting succeeds and the property is then exactly the
    value (a string that is valid UTF-8; doubles are compared by C equality
    and are left out), and no other key changes. *)
Lemma get_after_set key v d :
  hal_device_property_get_type d key = HAL_PROPERTY_TYPE_INVALID \/
  hal_device_property_get_type d key = hal_property_get_type v ->
  prop_utf8 v -> hal_property_get_type v <> HAL_PROPERTY_TYPE_DOUBLE ->
  let r := set_value key v d in
  res r = true /\ props (dev_of r) = <[key := v]> (props d).
Proof.
  intros Ht Hu Hd r. unfold r. rewrite set_value_correct. unfold set_value_spec.
  unfold hal_device_property_get_type, hal_device_property_find in Ht.
  assert (stored v = v) as Es by (destruct v; simpl in *; rewrite ?utf8_sanitize_id; done).
  destruct (props d !! key) as [q|] eqn:Eq.
  - assert (hal_property_get_type q = hal_property_get_type v) as Hq
      by (destruct Ht as [Ht|Ht]; [by destruct q | done]).
    rewrite bool_decide_eq_false_2 by naive_solver.
    destruct (same_value v q) eqn:Esame; simpl; [|by rewrite Es].
    split; [done|]. assert (q = v) as ->.
    { destruct v; simpl in Esame; try done; by bool_hyps. }
    symmetry. by apply insert_id.
  - simpl. by rewrite Es.
Qed.

(** [hal_device_merge_with_rewrite] does not depend on the order in which
    the hash table of the source is walked: a key of the target with the
    target name space receives the source property with the source name
    space in front of the same rest (whatever its old type), and every other
    key keeps its property. *)
Lemma merge_with_rewrite_result order source target tns sns k :
  NoDup order -> (forall key, key ∈ order <-> is_Some (props source !! key)) ->
  props (dev_of (hal_device_merge_with_rewrite order source tns sns target)) !! k
  = merge_spec source target tns sns k.
Proof.
  intros Hnd Hord. unfold hal_device_merge_with_rewrite.
  rewrite merge_foreach; [|done|naive_solver]. unfold merge_spec.
  destruct (strip tns k) as [rest|]; [|done].
  destruct (props source !! (sns +:+ rest)) as [p|] eqn:E.
  - rewrite decide_True; [done|]. apply Hord. rewrite E. eauto.
  - rewrite decide_False; [done|]. rewrite Hord, E. by intros [? ?].
Qed.

(** [hal_device_property_get_as_string] never writes outside the buffer it
    is given, whatever the property and the size of the buffer. *)
Lemma as_string_stays_in_the_buffer d key buf :
  hal_device_has_property d key = true ->
  length (hal_device_property_get_as_string d key buf).2 = length buf.
Proof.
  unfold hal_device_has_property, hal_device_property_get_as_string.
  destruct (hal_device_property_find d key); [|done]. intros _. apply property_as_string_length.
Qed.

(** A string list that is not empty and fits is printed as a tab followed
    by its elements, each with a tab behind it, and a terminator. *)
Lemma as_string_of_a_list d key l buf :
  hal_device_property_find d key = Some (PStrlist l) ->
  l <> [] -> NUL ∉ tabbed l -> (1 + length (tabbed l) < length buf)%nat ->
  cstr (hal_device_property_get_as_string d key buf).2 =
  Some (String TAB (String.string_of_list_ascii (tabbed l))).
Proof.
  intros Hf Hne Hnul Hlen. unfold hal_device_property_get_as_string. rewrite Hf.
  by apply as_string_strlist.
Qed.

(** For the empty string list only the first byte is written: the text the
    caller reads continues with whatever the buffer held before. *)
Lemma as_string_of_the_empty_list d key c buf :
  hal_device_property_find d key = Some (PStrlist []) ->
  cstr (hal_device_property_get_as_string d key (c :: buf)).2 = String TAB <$> cstr buf.
Proof. intros Hf. unfold hal_device_property_get_as_string. by rewrite Hf. Qed.

(** [hal_device_property_strlist_add] treats the list as a set: it refuses
    exactly the values that are there (and properties that are no lists),
    keeps a list without duplicates so, and appends without reordering. *)
Lemma strlist_add_is_set_insertion key v d :
  let r := hal_device_property_strlist_add key v d in
  let l := hal_device_property_get_strlist d key in
  hal_device_property_get_type d key = HAL_PROPERTY_TYPE_INVALID \/
  hal_device_property_get_type d key = HAL_PROPERTY_TYPE_STRLIST ->
  res r = negb (hal_device_property_strlist_contains d key v) /\
  hal_device_property_get_strlist (dev_of r) key = (if res r then l ++ [v] else l) /\
  (NoDup l -> NoDup (hal_device_property_get_strlist (dev_of r) key)).
Proof.
  intros r l Ht.
  enough (res r = negb (hal_device_property_strlist_contains d key v) /\
          hal_device_property_get_strlist (dev_of r) key = (if res r then l ++ [v] else l))
    as [E1 E2].
  { split; [done|]. split; [done|]. rewrite E2, E1. intros Hnd.
    unfold hal_device_property_strlist_contains. fold l.
    destruct (existsb _ l) eqn:Ex; simpl; [done|]. apply existsb_eqs_false in Ex.
    apply NoDup_app. split; [done|]. split; [set_solver | apply NoDup_singleton]. }
  unfold r, l, hal_device_property_strlist_contains, hal_device_property_get_strlist,
    hal_device_property_get_type, hal_device_property_strlist_add,
    hal_device_property_find, dbind, dget, put_prop, g_signal_emit, dret in *.
  destruct (props d !! key) as [q|] eqn:E; simpl.
  - destruct q as [| | | | |q]; simpl in *; try (destruct Ht; discriminate).
    destruct (existsb _ _) eqn:Ex; simpl; (split; [done|]);
      [by change (dev_of (false, d, [])) with d; rewrite E | by rewrite lookup_insert_eq].
  - by rewrite lookup_insert_eq.
Qed.

Definition addons_ok (d : HalDevice) : Prop := 0 <= num_addons_ready d <= num_addons d.

Lemma run_dop_addons_ok o d : addons_ok d -> addons_ok (dev_of (run_dop o d)).
Proof.
  intros H. assert (forall A key (m : dev A), writes key m -> addons_ok (dev_of (m d))) as Hw.
  { intros A key m Hm. destruct (write_frame _ _ _ _ (Hm d)) as (_ & E1 & E2 & _).
    unfold addons_ok. by rewrite E1, E2. }
  assert (forall A key (m : dev A), keeps key m -> addons_ok (dev_of (m d))) as Hk
    by (intros; eapply Hw, keeps_writes; eauto).
  destruct o; simpl run_dop; autorewrite with dev; try (eapply Hk; solve [eauto with hal]).
  - eapply Hw. eauto with hal.
  - unfold hal_device_add_capability. autorewrite with dev.
    assert (addons_ok (dev_of (hal_device_property_strlist_add "info.capabilities" capability d)))
      by (eapply Hk; eauto with hal). by destruct (res _).
  - unfold hal_device_set_udi. autorewrite with dev.
    destruct (set_string_keeps "info.udi" (Some u)
      (mk_device u (num_addons d) (num_addons_ready d) (props d))) as [Hs _].
    apply write_frame in Hs as (_ & E1 & E2 & _). unfold addons_ok. simpl in E1, E2.
    change (dev_of ((), mk_device u (num_addons d) (num_addons_ready d) (props d), []))
      with (mk_device u (num_addons d) (num_addons_ready d) (props d)).
    by rewrite E1, E2.
  - unfold addons_ok in *. simpl. lia.
  - unfold hal_device_inc_num_ready_addons, hal_device_are_all_addons_ready.
    destruct (Z.eqb_spec (num_addons_ready d) (num_addons d)); unfold addons_ok, dev_of in *; simpl; lia.
  - destruct (append_silently key value d) as [W _]. by destruct W.
  - destruct (clear_silently key d) as [W _]. by destruct W.
  - by destruct (finish_announces key is_added d) as [-> _].
Qed.

(** Never more add-ons are counted as ready than were started: the counter
    of ready add-ons stops at the number of add-ons, in every program. *)
Lemma ready_addons_are_bounded os d :
  addons_ok d -> addons_ok (dev_of (run_dops os d)).
Proof.
  revert d. induction os as [|o os IH]; intros d H; simpl; [done|].
  rewrite dev_of_bind. by apply IH, run_dop_addons_ok.
Qed.

Context {L : PlatformLaws P}.

(** Every string property a device holds is valid UTF-8, whatever bytes the
    programs pass to the setters (D-Bus accepts nothing else). *)
Lemma string_properties_are_utf8 os d :
  device_utf8 d -> device_utf8 (dev_of (run_dops os d)).
Proof. apply run_dops_keeps_utf8. Qed.

(** The loop of [hal_property_set_string] that overwrites invalid bytes
    ends after at most as many rounds as the string has bytes, with a valid
    string of the same length. *)
Lemma utf8_repair_terminates s :
  exists s', utf8_fix (String.length s) s = Some s' /\
             g_utf8_validate s' = None /\ String.length s' = String.length s.
Proof. apply utf8_fix_terminates. destruct (g_utf8_validate s); [lia | done]. Qed.

End Claims.

(** ** Instances *)
Import AsciiPlatform.

(** A change set for a new list: while it is open both listeners miss the key,
    and its end brings them up to date. *)
Definition open_changeset : list dop := [OClearSilently "info.locks"; OAppendSilently "info.locks" "a"].
Lemma listeners_follow_the_device_witness :
  behind open_changeset sample_device ∅ = {[ "info.locks" ]} /\
  let os := open_changeset ++ [OAppendSilently "info.locks" "b"; OFinish "info.locks" true] in
  let r := run_dops os sample_device in
  listen_all (props sample_device) (trace r) !! "info.locks" = Some (PStrlist ["a"; "b"]) /\
  "info.locks" ∈ foldl listen_flags (dom (props sample_device)) (trace r).
Proof.
  split; [vm_compute; reflexivity|]. intros os r.
  destruct (listeners_follow_the_device os sample_device) as (A & B & _). split.
  - rewrite A; [vm_compute; reflexivity|]. apply (bool_decide_unpack _). vm_compute. exact I.
  - apply B; apply (bool_decide_unpack _); vm_compute; exact I.
Defined.

Definition sample_ops : list dop :=
  [OSetInt "pm.level" 9; OSetString "pm.level" (Some "x"); OAdd "info.capabilities" "laptop_panel";
   OSetString "info.product" (Some (String "200" "abc")); ORemove "info.product"].

Lemma property_type_is_stable_witness :
  exists p', props (dev_of (run_dops sample_ops sample_device)) !! "pm.level" = Some p' /\
             hal_property_get_type p' = HAL_PROPERTY_TYPE_INT32.
Proof.
  apply (property_type_is_stable sample_ops "pm.level" sample_device (PInt32 7)).
  - unfold sample_ops. intros H. repeat (apply elem_of_cons in H as [H|H]; [discriminate H|]).
    by apply not_elem_of_nil in H.
  - vm_compute. reflexivity.
Defined.

Lemma get_after_set_witness :
  res (set_value "pm.level" (PInt32 3) sample_device) = true /\
  props (dev_of (set_value "pm.level" (PInt32 3) sample_device))
  = <["pm.level" := PInt32 3]> (props sample_device).
Proof.
  apply (get_after_set "pm.level" (PInt32 3) sample_device).
  - right. vm_compute. reflexivity.
  - exact I.
  - discriminate.
Defined.

Lemma merge_with_rewrite_result_witness :
  props (dev_of (hal_device_merge_with_rewrite
    ["pm.level"; "info.product"; "info.capabilities"] sample_device "smbios." "info."
    sample_device)) !! "smbios.product" = Some (PString "Computer").
Proof.
  rewrite (merge_with_rewrite_result ["pm.level"; "info.product"; "info.capabilities"]
    sample_device sample_device "smbios." "info." "smbios.product").
  - vm_compute. reflexivity.
  - vm_compute. repeat constructor; set_solver.
  - intros key. rewrite <- elem_of_dom. change (dom (props sample_device))
      with (dom ({[ "info.product" := PString "Computer"; "pm.level" := PInt32 7;
       "info.capabilities" := PStrlist ["button"; "input"] ]} : gmap string HalProperty)).
    set_solver.
Defined.

Definition zero_buffer (n : nat) : list ascii := replicate n NUL.

Lemma as_string_stays_in_the_buffer_witness :
  length (hal_device_property_get_as_string sample_device "info.capabilities" (zero_buffer 5)).2
  = 5%nat.
Proof.
  exact (as_string_stays_in_the_buffer sample_device "info.capabilities" (zero_buffer 5) eq_refl).
Defined.

Lemma as_string_of_a_list_witness :
  cstr (hal_device_property_get_as_string sample_device "info.capabilities" (zero_buffer 32)).2
  = Some (String TAB (String.string_of_list_ascii (tabbed ["button"; "input"]))).
Proof.
  apply (as_string_of_a_list sample_device "info.capabilities" ["button"; "input"]).
  - vm_compute. reflexivity.
  - discriminate.
  - intros H. apply list_elem_of_In in H. vm_compute in H. naive_solver.
  - vm_compute. lia.
Defined.

Lemma as_string_of_the_empty_list_witness :
  cstr (hal_device_property_get_as_string
    (mk_device "" 0 0 {[ "info.addons" := PStrlist [] ]}) "info.addons"
    ["o"; "l"; "d"; NUL]%char).2 = Some (String TAB "ld").
Proof.
  rewrite (as_string_of_the_empty_list
    (mk_device "" 0 0 {[ "info.addons" := PStrlist [] ]}) "info.addons" "o" ["l"; "d"; NUL]%char).
  - vm_compute. reflexivity.
  - vm_compute. reflexivity.
Defined.

Lemma strlist_add_is_set_insertion_witness :
  res (hal_device_property_strlist_add "info.capabilities" "input" sample_device) = false.
Proof.
  destruct (strlist_add_is_set_insertion "info.capabilities" "input" sample_device)
    as [H _]; [right; vm_compute; reflexivity|].
  rewrite H. vm_compute. reflexivity.
Defined.

Lemma ready_addons_are_bounded_witness :
  addons_ok (dev_of (run_dops [OIncReady; OIncReady; OIncReady] sample_device)).
Proof.
  apply (ready_addons_are_bounded [OIncReady; OIncReady; OIncReady] sample_device).
  vm_compute. split; discriminate.
Defined.

Lemma string_properties_are_utf8_witness :
  device_utf8 (dev_of (run_dops sample_ops (mk_device "" 0 0 ∅))).
Proof.
  apply (string_properties_are_utf8 sample_ops (mk_device "" 0 0 ∅)).
  apply map_Forall_empty.
Defined.


Lemma utf8_repair_terminates_witness :
  exists s', utf8_fix 3 (String "a" (String "200" (String "b" ""))) = Some s' /\
             g_utf8_validate s' = None /\ String.length s' = 3%nat.
Proof. exact (utf8_repair_terminates (String "a" (String "200" (String "b" "")))). Defined.
