(* ===== verification/Locks.v ===== *)
(** * Named device locks ([hald/device.c], from [hal_device_acquire_lock] on)

    A lock is three properties of the device, [info.named_locks.<name>.exclusive],
    [.dbus_name] (the holders) and [.locked], and an element of the list
    [info.named_locks].  The names are printed into a buffer of 256 bytes.

    The list of devices that hold locks, [locked_devices], is a static of the
    file; it is part of the world on which [hal_device_client_disconnected]
    works.  Its links are identified by their device, which the list holds at
    most once. *)

From Stdlib Require Import ZArith Lia Ascii SpecFloat.
From stdpp Require Import base list gmap strings option pretty.
From S2P Require Import Prelude CStd Property Device DeviceTheory DeviceMerge.

(** ** The operations on the device *)

(** [g_snprintf (buf, sizeof (buf), "info.named_locks.%s<suffix>", lock_name)] *)
Definition lock_buf (lock_name suffix : string) : string :=
  snprintf 256 ("info.named_locks." +:+ lock_name +:+ suffix).

(** What the operation does to [locked_devices]. *)
Inductive locked_change := LockedKeep | LockedAdd | LockedRemove.

Definition hal_device_acquire_lock (lock_name : string) (exclusive : bool) (sender : string)
  : dev (bool * locked_change) :=
  let buf := lock_buf lock_name ".exclusive" in
  let* held := dget (fun d => hal_device_property_get_bool d buf) in
  if held then dret (false, LockedKeep)
  else
    hal_device_property_set_bool buf exclusive ;;;
    let buf := lock_buf lock_name ".dbus_name" in
    let* has := dget (fun d => hal_device_has_property d buf) in
    if exclusive && has then dret (false, LockedKeep)
    else
      let* mine := dget (fun d => hal_device_property_strlist_contains d buf sender) in
      if mine then dret (false, LockedKeep)
      else
        hal_device_property_strlist_append buf sender false ;;;
        hal_device_property_set_bool (lock_buf lock_name ".locked") true ;;;
        hal_device_property_strlist_add "info.named_locks" lock_name ;;;
        g_signal_emit (LOCK_ACQUIRED lock_name sender) ;;;
        dret (true, LockedAdd).

Definition hal_device_release_lock (lock_name sender : string) : dev (bool * locked_change) :=
  let buf := lock_buf lock_name ".locked" in
  let* is_locked := dget (fun d => hal_device_property_get_bool d buf) in
  if negb is_locked then dret (false, LockedKeep)
  else
    let buf := lock_buf lock_name ".dbus_name" in
    let* mine := dget (fun d => hal_device_property_strlist_contains d buf sender) in
    if negb mine then dret (false, LockedKeep)
    else
      let* len := dget (fun d => hal_device_property_get_strlist_length d buf) in
      let* change :=
        (if bool_decide (len = 1%nat) then
           hal_device_property_remove (lock_buf lock_name ".exclusive") ;;;
           hal_device_property_remove (lock_buf lock_name ".locked") ;;;
           hal_device_property_remove (lock_buf lock_name ".dbus_name") ;;;
           let* n := dget (fun d => hal_device_property_get_strlist_length d "info.named_locks") in
           if bool_decide (n = 1%nat)
           then hal_device_property_remove "info.named_locks" ;;; dret LockedRemove
           else hal_device_property_strlist_remove "info.named_locks" lock_name ;;; dret LockedKeep
         else hal_device_property_strlist_remove buf sender ;;; dret LockedKeep) in
      g_signal_emit (LOCK_RELEASED lock_name sender) ;;;
      dret (true, change).

Definition hal_device_get_lock_holders (d : HalDevice) (lock_name : string) : option (list string) :=
  hal_device_property_dup_strlist_as_strv d (lock_buf lock_name ".dbus_name").

Definition hal_device_get_num_lock_holders (d : HalDevice) (lock_name : string) : Z :=
  match hal_device_get_lock_holders d lock_name with
  | Some holders => Z.of_nat (length holders)
  | None => 0
  end.

Definition hal_device_is_lock_exclusive (d : HalDevice) (lock_name : string) : bool :=
  hal_device_property_get_bool d (lock_buf lock_name ".exclusive").

(** ** The world: devices and the list of locked devices *)
Record lock_world := mk_lock_world {
  lw_devices : gmap nat HalDevice;
  locked_devices : list nat;
}.

Definition add_to_locked_set (id : nat) (l : list nat) : list nat :=
  if decide (id ∈ l) then l else id :: l.

(** [g_slist_remove] removes the first link with the given data. *)
Fixpoint remove_from_locked_set (id : nat) (l : list nat) : list nat :=
  match l with
  | [] => []
  | x :: l' => if decide (x = id) then l' else x :: remove_from_locked_set id l'
  end.

Definition apply_change (id : nat) (c : locked_change) (l : list nat) : list nat :=
  match c with
  | LockedKeep => l
  | LockedAdd => add_to_locked_set id l
  | LockedRemove => remove_from_locked_set id l
  end.

Definition world_lock_op (op : dev (bool * locked_change)) (id : nat) (w : lock_world)
  : bool * lock_world :=
  match lw_devices w !! id with
  | None => (false, w)
  | Some d =>
      let r := op d in
      ((res r).1, mk_lock_world (<[id := dev_of r]> (lw_devices w))
                                (apply_change id (res r).2 (locked_devices w)))
  end.

Definition world_acquire id lock_name exclusive sender :=
  world_lock_op (hal_device_acquire_lock lock_name exclusive sender) id.
Definition world_release id lock_name sender :=
  world_lock_op (hal_device_release_lock lock_name sender) id.

(** The inner loop over the lock names of one device. *)
Fixpoint release_each (id : nat) (locks : list string) (sender : string) (w : lock_world)
  : lock_world :=
  match locks with
  | [] => w
  | lock_name :: rest => release_each id rest sender (world_release id lock_name sender w).2
  end.

(** [UseAfterFree]: the loop reads [i->next] of a link that was freed. *)
Inductive loop_end := Finished (w : lock_world) | UseAfterFree (w : lock_world).

(** The body of the loop for one device. *)
Definition disconnect_device (id : nat) (sender : string) (w : lock_world) : lock_world :=
  match lw_devices w !! id with
  | None => w
  | Some d =>
      match hal_device_property_dup_strlist_as_strv d "info.named_locks" with
      | Some locks => release_each id locks sender w
      | None => w
      end
  end.

(** The loop over [locked_devices]; [links] are the links from the current
    one on.  Only the link of the device at hand can be removed in a round. *)
Fixpoint disconnect_loop (links : list nat) (sender : string) (w : lock_world) : loop_end :=
  match links with
  | [] => Finished w
  | id :: rest =>
      let w' := disconnect_device id sender w in
      if decide (id ∈ locked_devices w') then disconnect_loop rest sender w' else UseAfterFree w'
  end.

Definition hal_device_client_disconnected (sender : string) (w : lock_world) : loop_end :=
  disconnect_loop (locked_devices w) sender w.

(** ** The locks as an abstract table *)

(** A table maps the names of the held locks to the exclusive flag and the
    holders. *)
Abbreviation lock_table := (gmap string (bool * list string)).

Definition acquire_spec (n : string) (exclusive : bool) (sender : string) (t : lock_table)
  : bool * lock_table :=
  match t !! n with
  | None => (true, <[n := (exclusive, [sender])]> t)
  | Some (true, _) => (false, t)
  | Some (false, hs) =>
      if exclusive then (false, <[n := (true, hs)]> t)
      else if decide (sender ∈ hs) then (false, t)
      else (true, <[n := (false, hs ++ [sender])]> t)
  end.

Definition release_spec (n sender : string) (t : lock_table) : bool * lock_table :=
  match t !! n with
  | None => (false, t)
  | Some (e, hs) =>
      if decide (sender ∈ hs) then
        (true, if decide (length hs = 1%nat) then delete n t
               else <[n := (e, filter (fun h => h <> sender) hs)]> t)
      else (false, t)
  end.

(** Names whose three property names fit the buffer. *)
Definition name_ok (n : string) : Prop := (String.length n <= 228)%nat.

Record lock_props (m : gmap string HalProperty) (n : string) (o : option (bool * list string))
  : Prop := {
  lp_exclusive : m !! lock_buf n ".exclusive" = (fun s => PBoolean s.1) <$> o;
  lp_holders : m !! lock_buf n ".dbus_name" = (fun s => PStrlist s.2) <$> o;
  lp_locked : m !! lock_buf n ".locked" = (fun _ => PBoolean true) <$> o;
}.

(** The device represents the table. *)
Record lock_rep (d : HalDevice) (t : lock_table) : Prop := {
  rep_names : forall n, is_Some (t !! n) -> name_ok n;
  rep_holders : forall n e hs, t !! n = Some (e, hs) -> hs <> [] /\ NoDup hs;
  rep_props : forall n, name_ok n -> lock_props (props d) n (t !! n);
  rep_list : match props d !! "info.named_locks" with
             | None => t = ∅
             | Some (PStrlist l) => l <> [] /\ NoDup l /\ forall n, n ∈ l <-> is_Some (t !! n)
             | Some _ => False
             end;
}.

(** ** Property names of locks *)
Lemma lock_buf_fits n s :
  name_ok n -> (String.length s <= 10)%nat -> lock_buf n s = "info.named_locks." +:+ n +:+ s.
Proof.
  intros Hn Hs. apply snprintf_fits. rewrite !string_length_app. unfold name_ok in Hn.
  change (String.length "info.named_locks.") with 17%nat. lia.
Qed.

Lemma locked_suffix a b : a +:+ ".locked" <> b +:+ ".exclusive" /\ a +:+ ".locked" <> b +:+ ".dbus_name".
Proof.
  change ".locked" with (".locke" +:+ "d"). change ".exclusive" with (".exclusiv" +:+ "e").
  change ".dbus_name" with (".dbus_nam" +:+ "e"). rewrite !string_app_assoc.
  split; by apply string_suffix_neq.
Qed.

Inductive lock_suffix : string -> Prop :=
  | suffix_exclusive : lock_suffix ".exclusive"
  | suffix_holders : lock_suffix ".dbus_name"
  | suffix_locked : lock_suffix ".locked".
#[local] Hint Constructors lock_suffix : hal.

Lemma lock_suffix_length s : lock_suffix s -> (String.length s <= 10)%nat.
Proof. destruct 1; simpl; lia. Qed.

Lemma lock_buf_inj n1 n2 s1 s2 :
  name_ok n1 -> name_ok n2 -> lock_suffix s1 -> lock_suffix s2 ->
  lock_buf n1 s1 = lock_buf n2 s2 -> n1 = n2 /\ s1 = s2.
Proof.
  intros H1 H2 S1 S2. rewrite !lock_buf_fits by auto using lock_suffix_length.
  intros E. apply string_app_inj_l in E.
  destruct S1, S2; try (apply string_app_inj_r in E; by subst);
    exfalso; revert E; try (by apply string_suffix_neq);
    try apply locked_suffix; intros E; symmetry in E; revert E; apply locked_suffix.
Qed.

Lemma lock_buf_not_list n s : name_ok n -> lock_suffix s -> lock_buf n s <> "info.named_locks".
Proof.
  intros H S E. rewrite lock_buf_fits in E by auto using lock_suffix_length.
  apply (f_equal String.length) in E. rewrite !string_length_app in E.
  change (String.length "info.named_locks.") with 17%nat in E.
  change (String.length "info.named_locks") with 16%nat in E. lia.
Qed.

(** ** Effects of the primitives on the property table *)
Lemma set_bool_props key v d :
  (props d !! key = None \/ exists b, props d !! key = Some (PBoolean b)) ->
  props (dev_of (hal_device_property_set_bool key v d)) = <[key := PBoolean v]> (props d).
Proof.
  intros H. pose (P := AsciiPlatform.platform).
  change (hal_device_property_set_bool key v d) with (set_value key (PBoolean v) d).
  rewrite set_value_props.
  - f_equal. unfold merged. destruct H as [-> | [b ->]]; [done|]. simpl.
    by case_bool_decide; simplify_eq.
  - destruct H as [-> | [b ->]]; eauto.
Qed.

Lemma append_props key v b d l :
  props d !! key = (PStrlist <$> l) ->
  props (dev_of (hal_device_property_strlist_append key v b d))
  = <[key := PStrlist (default [] l ++ [v])]> (props d).
Proof.
  intros H. unfold hal_device_property_strlist_append, hal_device_property_find, dbind, dget,
    put_prop, emit_unless, g_signal_emit, dret. simpl. rewrite H. by destruct l, b.
Qed.

Lemma add_props key v d l :
  props d !! key = (PStrlist <$> l) -> v ∉ default [] l ->
  props (dev_of (hal_device_property_strlist_add key v d))
  = <[key := PStrlist (default [] l ++ [v])]> (props d).
Proof.
  intros H Hv. unfold hal_device_property_strlist_add, hal_device_property_find, dbind, dget,
    put_prop, emit_unless, g_signal_emit, dret. simpl. rewrite H.
  destruct l as [l|]; simpl; [|done].
  by rewrite (proj2 (existsb_eqs_false l v)).
Qed.

Lemma add_props_present key v d l :
  props d !! key = Some (PStrlist l) -> v ∈ l ->
  dev_of (hal_device_property_strlist_add key v d) = d.
Proof.
  intros H Hv. unfold hal_device_property_strlist_add, hal_device_property_find, dbind, dget,
    put_prop, emit_unless, g_signal_emit, dret. simpl. rewrite H. simpl.
  by rewrite (proj2 (existsb_eqs_spec l v)).
Qed.

(** Removing from a list without duplicates. *)
Lemma filter_first (l1 l2 : list string) v :
  NoDup (l1 ++ v :: l2) -> filter (fun x => x <> v) (l1 ++ v :: l2) = l1 ++ l2.
Proof.
  assert (forall l : list string, v ∉ l -> filter (fun x => x <> v) l = l) as Hn.
  { induction l as [|x l IH]; intros H; [done|].
    rewrite filter_cons_True by set_solver. rewrite IH; set_solver. }
  intros H. apply NoDup_app in H as (_ & Hd & H). apply NoDup_cons in H as [Hv _].
  rewrite filter_app, filter_cons_False by naive_solver. rewrite !Hn; [done | done |].
  intros Hv'. apply (Hd v); set_solver.
Qed.

Lemma strlist_remove_props key v d l :
  props d !! key = Some (PStrlist l) -> NoDup l -> v ∈ l ->
  props (dev_of (hal_device_property_strlist_remove key v d))
  = <[key := PStrlist (filter (fun x => x <> v) l)]> (props d).
Proof.
  intros H Hnd Hv. apply list_elem_of_split in Hv as (l1 & l2 & ->).
  unfold hal_device_property_strlist_remove, hal_device_property_find, dbind, dget,
    put_prop, emit_unless, g_signal_emit, dret. rewrite H. cbn [negb].
  rewrite bool_decide_eq_true_2 by done. cbn [negb].
  rewrite strlist_remove_first, filter_first; [done | done |].
  intros Hv. apply NoDup_app in Hnd as (_ & Hd & _). apply (Hd v); set_solver.
Qed.

(** ** The operations in closed form *)
Section Closed.
Variables (n sender : string) (d : HalDevice).
Hypothesis Hn : name_ok n.
Let ke := lock_buf n ".exclusive".
Let kh := lock_buf n ".dbus_name".
Let kl := lock_buf n ".locked".
Let km := "info.named_locks".

Lemma keys_distinct : ke <> kh /\ ke <> kl /\ kh <> kl /\ ke <> km /\ kh <> km /\ kl <> km.
Proof.
  unfold ke, kh, kl, km. repeat split;
    try (apply lock_buf_not_list; auto with hal);
    intros E; apply lock_buf_inj in E as [_ E]; auto with hal; discriminate E.
Qed.

(** Running a bind whose first part only reads. *)
Lemma bind_get {A B} (f : HalDevice -> A) (k : A -> dev B) x :
  dbind (dget f) k x = k (f x) x.
Proof. unfold dbind, dget. by destruct (k (f x) x) as [[? ?] ?]. Qed.

Lemma acquire_exclusive_held ex :
  props d !! ke = Some (PBoolean true) ->
  hal_device_acquire_lock n ex sender d = ((false, LockedKeep), d, []).
Proof.
  intros H. unfold hal_device_acquire_lock. rewrite bind_get.
  unfold hal_device_property_get_bool, hal_device_property_find. fold ke. by rewrite H.
Qed.

(** The first write, when the lock is not exclusively held. *)
Let d1 ex := dev_of (hal_device_property_set_bool ke ex d).

Lemma acquire_after_flag ex (Hf : props d !! ke = None \/ props d !! ke = Some (PBoolean false)) :
  let r := hal_device_acquire_lock n ex sender d in
  let has := hal_device_has_property (d1 ex) kh in
  let mine := hal_device_property_strlist_contains (d1 ex) kh sender in
  if (ex && has) || mine then res r = (false, LockedKeep) /\ dev_of r = d1 ex
  else res r = (true, LockedAdd) /\
       dev_of r = dev_of (hal_device_property_strlist_add km n
                    (dev_of (hal_device_property_set_bool kl true
                      (dev_of (hal_device_property_strlist_append kh sender false (d1 ex)))))).
Proof.
  intros r has mine. unfold r, hal_device_acquire_lock. rewrite bind_get.
  unfold hal_device_property_get_bool, hal_device_property_find. fold ke kh kl.
  assert ((match props d !! ke with Some p => hal_property_get_bool p | None => false end) = false)
    as -> by (destruct Hf as [-> | ->]; done).
  rewrite res_bind, dev_of_bind. fold (d1 ex).
  rewrite !bind_get. fold has. destruct (ex && has); [done|].
  rewrite !bind_get. fold mine. destruct mine; [done|].
  by rewrite !res_bind, !dev_of_bind.
Qed.

Lemma d1_props ex (Hf : props d !! ke = None \/ props d !! ke = Some (PBoolean false)) :
  props (d1 ex) = <[ke := PBoolean ex]> (props d).
Proof. apply set_bool_props. destruct Hf; eauto. Qed.

Lemma acquire_free ex ml :
  lock_props (props d) n None -> props d !! km = PStrlist <$> ml -> n ∉ default [] ml ->
  let r := hal_device_acquire_lock n ex sender d in
  res r = (true, LockedAdd) /\
  props (dev_of r) = <[km := PStrlist (default [] ml ++ [n])]> (<[kl := PBoolean true]>
                       (<[kh := PStrlist [sender]]> (<[ke := PBoolean ex]> (props d)))).
Proof.
  intros [He Hh Hl] Hm Hnm r. destruct keys_distinct as (D1 & D2 & D3 & D4 & D5 & D6).
  fold ke kh kl in He, Hh, Hl. simpl in He, Hh, Hl.
  pose proof (acquire_after_flag ex (or_introl He)) as H. fold r in H.
  pose proof (d1_props ex (or_introl He)) as E1.
  assert (props (d1 ex) !! kh = None) as Eh by (rewrite E1; by simplify_map_eq).
  unfold hal_device_has_property, hal_device_property_strlist_contains,
    hal_device_property_get_strlist, hal_device_property_find in H.
  rewrite Eh, andb_false_r in H. simpl in H. destruct H as [H1 H2]. split; [done|].
  rewrite H2. erewrite add_props; [|rewrite set_bool_props|done].
  - rewrite set_bool_props; erewrite (append_props _ _ _ _ None); try done;
      rewrite E1; [done|]. left. by simplify_map_eq.
  - erewrite (append_props _ _ _ _ None) by done. rewrite E1. by simplify_map_eq.
  - left. erewrite (append_props _ _ _ _ None) by done. rewrite E1. by simplify_map_eq.
Qed.

Lemma acquire_shared_by_exclusive hs :
  lock_props (props d) n (Some (false, hs)) ->
  let r := hal_device_acquire_lock n true sender d in
  res r = (false, LockedKeep) /\ props (dev_of r) = <[ke := PBoolean true]> (props d).
Proof.
  intros [He Hh Hl] r. destruct keys_distinct as (D1 & _).
  fold ke kh kl in He, Hh, Hl. simpl in He, Hh, Hl.
  pose proof (acquire_after_flag true (or_intror He)) as H. fold r in H.
  pose proof (d1_props true (or_intror He)) as E1.
  unfold hal_device_has_property at 1, hal_device_property_find in H.
  rewrite E1, lookup_insert_ne, Hh in H by done. simpl in H. destruct H as [H1 ->].
  by split.
Qed.

Lemma acquire_shared_again hs :
  lock_props (props d) n (Some (false, hs)) -> sender ∈ hs ->
  let r := hal_device_acquire_lock n false sender d in
  res r = (false, LockedKeep) /\ props (dev_of r) = props d.
Proof.
  intros [He Hh Hl] Hs r. destruct keys_distinct as (D1 & _).
  fold ke kh kl in He, Hh, Hl. simpl in He, Hh, Hl.
  pose proof (acquire_after_flag false (or_intror He)) as H. fold r in H.
  pose proof (d1_props false (or_intror He)) as E1.
  unfold hal_device_property_strlist_contains, hal_device_property_get_strlist,
    hal_device_property_find in H.
  rewrite E1, lookup_insert_ne, Hh in H by done. simpl in H.
  rewrite (proj2 (existsb_eqs_spec hs sender) Hs) in H. destruct H as [H1 ->].
  split; [done|]. rewrite E1. by apply insert_id.
Qed.

Lemma acquire_shared_join hs ml :
  lock_props (props d) n (Some (false, hs)) -> sender ∉ hs ->
  props d !! km = Some (PStrlist ml) -> n ∈ ml ->
  let r := hal_device_acquire_lock n false sender d in
  res r = (true, LockedAdd) /\ props (dev_of r) = <[kh := PStrlist (hs ++ [sender])]> (props d).
Proof.
  intros [He Hh Hl] Hs Hm Hnm r. destruct keys_distinct as (D1 & D2 & D3 & D4 & D5 & D6).
  fold ke kh kl in He, Hh, Hl. simpl in He, Hh, Hl.
  pose proof (acquire_after_flag false (or_intror He)) as H. fold r in H.
  pose proof (d1_props false (or_intror He)) as E1.
  rewrite (insert_id _ _ _ He) in E1.
  unfold hal_device_property_strlist_contains, hal_device_property_get_strlist,
    hal_device_property_find in H.
  rewrite E1, Hh in H. simpl in H. rewrite (proj2 (existsb_eqs_false hs sender) Hs) in H.
  destruct H as [H1 H2]. split; [done|]. rewrite H2.
  assert (props (dev_of (hal_device_property_strlist_append kh sender false (d1 false)))
          = <[kh := PStrlist (hs ++ [sender])]> (props d)) as E2.
  { rewrite (append_props _ _ _ _ (Some hs)); by rewrite E1. }
  assert (props (dev_of (hal_device_property_set_bool kl true
           (dev_of (hal_device_property_strlist_append kh sender false (d1 false)))))
          = <[kh := PStrlist (hs ++ [sender])]> (props d)) as E3.
  { rewrite set_bool_props; rewrite E2; [apply insert_id|right]; simplify_map_eq; eauto. }
  rewrite (add_props_present _ _ _ ml); [done | rewrite E3; by simplify_map_eq | done].
Qed.

(** *** Release *)
Lemma release_not_held :
  lock_props (props d) n None \/
  (exists e hs, lock_props (props d) n (Some (e, hs)) /\ sender ∉ hs) ->
  hal_device_release_lock n sender d = ((false, LockedKeep), d, []).
Proof.
  intros H. unfold hal_device_release_lock. rewrite bind_get. fold kl kh.
  unfold hal_device_property_get_bool, hal_device_property_find.
  destruct H as [[He Hh Hl] | (e & hs & [He Hh Hl] & Hs)]; fold kl in Hl; rewrite Hl; simpl; [done|].
  rewrite bind_get. unfold hal_device_property_strlist_contains, hal_device_property_get_strlist,
    hal_device_property_find. fold kh in Hh. rewrite Hh. simpl.
  by rewrite (proj2 (existsb_eqs_false hs sender) Hs).
Qed.

Lemma release_held e hs (HP : lock_props (props d) n (Some (e, hs))) (Hs : sender ∈ hs) :
  hal_device_release_lock n sender d =
  (let* change :=
    (if bool_decide (length hs = 1%nat) then
       hal_device_property_remove ke ;;; hal_device_property_remove kl ;;;
       hal_device_property_remove kh ;;;
       let* m := dget (fun d => hal_device_property_get_strlist_length d km) in
       if bool_decide (m = 1%nat)
       then hal_device_property_remove km ;;; dret LockedRemove
       else hal_device_property_strlist_remove km n ;;; dret LockedKeep
     else hal_device_property_strlist_remove kh sender ;;; dret LockedKeep) in
   g_signal_emit (LOCK_RELEASED n sender) ;;; dret (true, change)) d.
Proof.
  destruct HP as [He Hh Hl]. unfold hal_device_release_lock. rewrite bind_get. fold ke kl kh km.
  unfold hal_device_property_get_bool, hal_device_property_find. fold kl in Hl. rewrite Hl. simpl.
  rewrite bind_get. unfold hal_device_property_strlist_contains,
    hal_device_property_get_strlist, hal_device_property_find. fold kh in Hh. rewrite Hh. simpl.
  rewrite (proj2 (existsb_eqs_spec hs sender) Hs). simpl. rewrite bind_get.
  assert (hal_device_property_get_strlist_length d kh = length hs) as ->; [|done].
  unfold hal_device_property_get_strlist_length, hal_device_property_get_strlist,
    hal_device_property_find. by rewrite Hh.
Qed.

Lemma release_shared e hs :
  lock_props (props d) n (Some (e, hs)) -> sender ∈ hs -> NoDup hs -> length hs <> 1%nat ->
  let r := hal_device_release_lock n sender d in
  res r = (true, LockedKeep) /\
  props (dev_of r) = <[kh := PStrlist (filter (fun x => x <> sender) hs)]> (props d).
Proof.
  intros HP Hs Hnd Hlen r. unfold r. rewrite (release_held e hs HP Hs).
  rewrite bool_decide_eq_false_2 by done. rewrite !res_bind, !dev_of_bind.
  split; [done|]. apply strlist_remove_props; [apply HP | done | done].
Qed.

Lemma release_last e hs ml :
  lock_props (props d) n (Some (e, hs)) -> sender ∈ hs -> length hs = 1%nat ->
  props d !! km = Some (PStrlist ml) -> NoDup ml -> n ∈ ml ->
  let r := hal_device_release_lock n sender d in
  let m := delete kh (delete kl (delete ke (props d))) in
  if decide (length ml = 1%nat)
  then res r = (true, LockedRemove) /\ props (dev_of r) = delete km m
  else res r = (true, LockedKeep) /\
       props (dev_of r) = <[km := PStrlist (filter (fun x => x <> n) ml)]> m.
Proof.
  intros HP Hs Hlen Hm Hnd Hin r m. destruct keys_distinct as (D1 & D2 & D3 & D4 & D5 & D6).
  unfold r. rewrite (release_held e hs HP Hs). rewrite bool_decide_eq_true_2 by done.
  autorewrite with dev.
  set (d3 := dev_of (hal_device_property_remove kh _)).
  assert (props d3 = m) as E3 by (unfold d3; rewrite !remove_props; reflexivity).
  assert (props d3 !! km = Some (PStrlist ml)) as Em.
  { rewrite E3. unfold m. by rewrite !lookup_delete_ne by done. }
  assert (hal_device_property_get_strlist_length d3 km = length ml) as ->.
  { unfold hal_device_property_get_strlist_length, hal_device_property_get_strlist,
      hal_device_property_find. by rewrite Em. }
  destruct (decide (length ml = 1%nat)) as [Hl|Hl].
  - rewrite bool_decide_eq_true_2 by done. autorewrite with dev.
    split; [done|]. by rewrite remove_props, E3.
  - rewrite bool_decide_eq_false_2 by done. autorewrite with dev.
    split; [done|]. rewrite <- E3. by apply strlist_remove_props.
Qed.

End Closed.

(** ** Representation *)
Definition put_lock (n : string) (v : option (bool * list string)) (t : lock_table) : lock_table :=
  partial_alter (fun _ => v) n t.

Lemma lookup_put_lock n v t : put_lock n v t !! n = v.
Proof. apply lookup_partial_alter_eq. Qed.
Lemma lookup_put_lock_ne n n' v t : n' <> n -> put_lock n v t !! n' = t !! n'.
Proof. intros. by apply lookup_partial_alter_ne. Qed.

Lemma rep_update d d' t n v :
  lock_rep d t -> name_ok n ->
  (forall n' s, name_ok n' -> n' <> n -> lock_suffix s ->
     props d' !! lock_buf n' s = props d !! lock_buf n' s) ->
  lock_props (props d') n v ->
  (forall e hs, v = Some (e, hs) -> hs <> [] /\ NoDup hs) ->
  match props d' !! "info.named_locks" with
  | None => put_lock n v t = ∅
  | Some (PStrlist l) =>
      l <> [] /\ NoDup l /\ forall n', n' ∈ l <-> is_Some (put_lock n v t !! n')
  | Some _ => False
  end ->
  lock_rep d' (put_lock n v t).
Proof.
  intros [R1 R2 R3 R4] Hn Hframe HP Hv Hl. split; [| | |done].
  - intros n'. destruct (decide (n' = n)) as [->|Hne]; [done|].
    rewrite lookup_put_lock_ne by done. apply R1.
  - intros n' e hs. destruct (decide (n' = n)) as [->|Hne].
    + rewrite lookup_put_lock. intros ->. by apply (Hv e hs).
    + rewrite lookup_put_lock_ne by done. apply R2.
  - intros n' Hn'. destruct (decide (n' = n)) as [->|Hne]; [by rewrite lookup_put_lock|].
    rewrite lookup_put_lock_ne by done. destruct (R3 n' Hn') as [E1 E2 E3].
    split; rewrite Hframe; auto with hal.
Qed.

Lemma rep_list_cases d t :
  lock_rep d t ->
  (props d !! "info.named_locks" = None /\ t = ∅) \/
  (exists l, props d !! "info.named_locks" = Some (PStrlist l) /\ l <> [] /\ NoDup l /\
             forall n, n ∈ l <-> is_Some (t !! n)).
Proof.
  intros [_ _ _ R4]. destruct (props d !! "info.named_locks") as [[]|]; try done; eauto.
Qed.

(** The list after a name that is in it already. *)
Lemma rep_list_same d d' t n v :
  lock_rep d t -> is_Some (t !! n) -> is_Some v ->
  props d' !! "info.named_locks" = props d !! "info.named_locks" ->
  match props d' !! "info.named_locks" with
  | None => put_lock n v t = ∅
  | Some (PStrlist l) =>
      l <> [] /\ NoDup l /\ forall n', n' ∈ l <-> is_Some (put_lock n v t !! n')
  | Some _ => False
  end.
Proof.
  intros R [x Hx] [y ->] ->. destruct (rep_list_cases d t R) as [[-> ->] | (l & -> & H1 & H2 & H3)].
  - by rewrite lookup_empty in Hx.
  - split; [done|]. split; [done|]. intros n'. rewrite H3.
    destruct (decide (n' = n)) as [->|Hne].
    + rewrite lookup_put_lock, Hx. by split; eauto.
    + by rewrite lookup_put_lock_ne.
Qed.

(** A write to the keys of one lock leaves those of the others alone. *)
Lemma other_lock_key n n' s s' :
  name_ok n -> name_ok n' -> n' <> n -> lock_suffix s -> lock_suffix s' ->
  lock_buf n s <> lock_buf n' s'.
Proof. intros ????? E. by apply lock_buf_inj in E as [? _]. Qed.

Lemma named_locks_key n s : name_ok n -> lock_suffix s -> "info.named_locks" <> lock_buf n s.
Proof. intros H S E. by apply (lock_buf_not_list n s). Qed.

#[local] Hint Resolve other_lock_key named_locks_key lock_buf_not_list : hal.
Ltac lock_keys :=
  repeat first [ rewrite lookup_insert_eq
               | rewrite lookup_delete_eq
               | rewrite lookup_insert_ne by auto with hal
               | rewrite lookup_delete_ne by auto with hal ].

Lemma own_keys n : name_ok n ->
  lock_buf n ".exclusive" <> lock_buf n ".dbus_name" /\
  lock_buf n ".exclusive" <> lock_buf n ".locked" /\
  lock_buf n ".dbus_name" <> lock_buf n ".locked".
Proof. intros H. destruct (keys_distinct n H) as (? & ? & ? & _). auto. Qed.

(** The list of locks when the lock is free. *)
Lemma rep_list_of_free d t n :
  lock_rep d t -> t !! n = None ->
  exists ml, props d !! "info.named_locks" = (PStrlist <$> ml) /\ (n ∉ default [] ml) /\
    NoDup (default [] ml) /\ (forall n', n' ∈ default [] ml <-> is_Some (t !! n')).
Proof.
  intros R Et. destruct (rep_list_cases d t R) as [[Hl ->] | (l & Hl & _ & Hnd & H3)].
  - exists None. repeat split; try done; simpl; try set_solver.
    + constructor.
    + rewrite lookup_empty. by intros [? ?].
  - exists (Some l). repeat split; try done; simpl; try apply H3.
    rewrite H3, Et. by intros [? ?].
Qed.

Lemma acquire_simulates d t n ex sender :
  lock_rep d t -> name_ok n ->
  let r := hal_device_acquire_lock n ex sender d in
  let s := acquire_spec n ex sender t in
  res r = (s.1, if s.1 then LockedAdd else LockedKeep) /\ lock_rep (dev_of r) s.2.
Proof.
  intros R Hn r s. destruct (own_keys n Hn) as (D1 & D2 & D3).
  pose proof (rep_props d t R n Hn) as HP. unfold s, acquire_spec.
  destruct (t !! n) as [[[] hs]|] eqn:Et.
  - unfold r. rewrite (acquire_exclusive_held n sender d ex) by apply HP. done.
  - destruct (rep_holders d t R n false hs Et) as [Hne Hnd]. destruct ex.
    + destruct (acquire_shared_by_exclusive n sender d Hn hs HP) as [E1 E2]. fold r in E1, E2.
      split; [done|]. apply (rep_update d _ t n (Some (true, hs))); try done.
      * intros. rewrite E2. by lock_keys.
      * destruct HP as [P1 P2 P3]. split; rewrite E2; lock_keys; done.
      * naive_solver.
      * apply (rep_list_same d); [done | rewrite Et; eauto | eauto | rewrite E2; by lock_keys].
    + destruct (decide (sender ∈ hs)) as [Hin|Hin].
      * destruct (acquire_shared_again n sender d Hn hs HP Hin) as [E1 E2]. fold r in E1, E2.
        split; [done|]. destruct R as [R1 R2 R3 R4]. split; try done; by rewrite E2.
      * destruct (rep_list_cases d t R) as [[_ ->] | (l & Hl & _ & _ & H3)]; [done|].
        destruct (acquire_shared_join n sender d Hn hs l HP Hin Hl) as [E1 E2];
          [apply H3; rewrite Et; eauto|]. fold r in E1, E2. split; [done|].
        apply (rep_update d _ t n (Some (false, hs ++ [sender]))); try done.
        -- intros. rewrite E2. by lock_keys.
        -- destruct HP as [P1 P2 P3]. split; rewrite E2; lock_keys; done.
        -- intros e hs' [= <- <-]. split; [by destruct hs|].
           apply NoDup_app. split; [done|]. split; [set_solver | apply NoDup_singleton].
        -- apply (rep_list_same d); [done | rewrite Et; eauto | eauto | rewrite E2; by lock_keys].
  - destruct (rep_list_of_free d t n R Et) as (ml & Hm & Hnm & Hnd & Hml).
    destruct (acquire_free n sender d Hn ex ml HP Hm Hnm) as [E1 E2]. fold r in E1, E2.
    split; [done|]. apply (rep_update d _ t n (Some (ex, [sender]))); try done.
    + intros. rewrite E2. by lock_keys.
    + destruct HP as [P1 P2 P3]. split; rewrite E2; lock_keys; done.
    + intros e hs [= <- <-]. split; [done | apply NoDup_singleton].
    + rewrite E2, lookup_insert_eq. split; [by destruct ml as [[]|]|]. split.
      * apply NoDup_app. split; [done|]. split; [set_solver | apply NoDup_singleton].
      * intros n'. rewrite elem_of_app, Hml, list_elem_of_singleton.
        destruct (decide (n' = n)) as [->|Hne].
        -- rewrite lookup_put_lock. split; eauto.
        -- rewrite lookup_put_lock_ne by done. naive_solver.
Qed.

(** Deleting the only key of a table leaves it empty. *)
Lemma put_lock_None_empty n t (l : list string) :
  length l = 1%nat -> NoDup l -> n ∈ l -> (forall n', n' ∈ l <-> is_Some (t !! n')) ->
  put_lock n None t = ∅.
Proof.
  intros Hlen Hnd Hin H. destruct l as [|x [|]]; try discriminate Hlen.
  apply list_elem_of_singleton in Hin as <-. apply map_eq. intros n'. rewrite lookup_empty.
  destruct (decide (n' = n)) as [->|Hne]; [apply lookup_put_lock|].
  rewrite lookup_put_lock_ne by done. destruct (t !! n') eqn:E; [|done].
  assert (n' ∈ [n]) by (apply H; rewrite E; eauto). set_solver.
Qed.

Lemma filter_ne_nonempty (l : list string) x :
  NoDup l -> length l <> 1%nat -> x ∈ l -> filter (fun y => y <> x) l <> [].
Proof.
  intros Hnd Hlen Hin E. apply list_elem_of_split in Hin as (l1 & l2 & ->).
  rewrite filter_first in E by done. apply app_nil in E as [-> ->]. done.
Qed.

Lemma put_lock_None_nonempty n t l :
  length l <> 1%nat -> n ∈ l -> NoDup l -> (forall n', n' ∈ l <-> is_Some (t !! n')) ->
  put_lock n None t <> ∅.
Proof.
  intros Hll Hnl Hnd H3 Ee. apply Hll. destruct l as [|x [|y l]]; [by apply not_elem_of_nil in Hnl | done |].
  apply NoDup_cons in Hnd as [Hx _].
  assert (exists z, z ∈ x :: y :: l /\ z <> n) as (z & Hz & Hzn).
  { destruct (decide (x = n)) as [->|]; [exists y | exists x]; set_solver. }
  apply H3 in Hz. rewrite <- (lookup_put_lock_ne n z None t) in Hz by done.
  rewrite Ee, lookup_empty in Hz. by destruct Hz.
Qed.

Lemma release_simulates d t n sender :
  lock_rep d t -> name_ok n ->
  let r := hal_device_release_lock n sender d in
  let s := release_spec n sender t in
  res r = (s.1, if s.1 && bool_decide (s.2 = ∅) then LockedRemove else LockedKeep) /\
  lock_rep (dev_of r) s.2.
Proof.
  intros R Hn r s. destruct (own_keys n Hn) as (D1 & D2 & D3).
  pose proof (rep_props d t R n Hn) as HP. unfold s, release_spec.
  destruct (t !! n) as [[e hs]|] eqn:Et; simpl.
  2: { unfold r. by rewrite (release_not_held n sender d (or_introl HP)). }
  destruct (decide (sender ∈ hs)) as [Hin|Hin]; simpl.
  2: { unfold r. rewrite (release_not_held n sender d); [done|]. right. eauto. }
  destruct (rep_holders d t R n e hs Et) as [Hne Hnd].
  destruct (rep_list_cases d t R) as [[_ ->] | (l & Hl & Hlne & Hlnd & H3)]; [done|].
  assert (n ∈ l) as Hnl by (apply H3; rewrite Et; eauto).
  destruct (decide (length hs = 1%nat)) as [Hlen|Hlen].
  - change (delete n t) with (put_lock n None t).
    pose proof (release_last n sender d Hn e hs l HP Hin Hlen Hl Hlnd Hnl) as H. fold r in H.
    destruct (decide (length l = 1%nat)) as [Hll|Hll]; destruct H as [E1 E2].
    + pose proof (put_lock_None_empty n t l Hll Hlnd Hnl H3) as Ee.
      rewrite bool_decide_eq_true_2 by done. split; [done|].
      apply (rep_update d); try done.
      * intros. rewrite E2. by lock_keys.
      * split; rewrite E2; by lock_keys.
      * rewrite E2. by rewrite lookup_delete_eq.
    + rewrite bool_decide_eq_false_2 by (by eapply put_lock_None_nonempty).
      split; [done|]. apply (rep_update d); try done.
      * intros. rewrite E2. by lock_keys.
      * split; rewrite E2; by lock_keys.
      * rewrite E2, lookup_insert_eq. split; [by apply filter_ne_nonempty|].
        split; [by apply NoDup_filter|]. intros n'. rewrite list_elem_of_filter, H3.
        destruct (decide (n' = n)) as [->|Hnn].
        -- rewrite lookup_put_lock. split; [naive_solver | by intros [? ?]].
        -- rewrite lookup_put_lock_ne by done. naive_solver.
  - destruct (release_shared n sender d e hs HP Hin Hnd Hlen) as [E1 E2]. fold r in E1, E2.
    change (<[n := ?v]> t) with (put_lock n (Some v) t).
    rewrite bool_decide_eq_false_2.
    2: { intros Ee. apply (f_equal (fun m => m !! n)) in Ee.
         rewrite lookup_put_lock, lookup_empty in Ee. done. }
    split; [done|]. apply (rep_update d); try done.
    + intros. rewrite E2. by lock_keys.
    + destruct HP as [P1 P2 P3]. split; rewrite E2; lock_keys; done.
    + intros e' hs' [= <- <-]. split; [by apply filter_ne_nonempty | by apply NoDup_filter].
    + apply (rep_list_same d); [done | rewrite Et; eauto | eauto | rewrite E2; by lock_keys].
Qed.

(** ** Sequences of requests *)
Inductive lock_op :=
  | Acquire (n : string) (exclusive : bool) (sender : string)
  | Release (n sender : string).

Definition op_name (o : lock_op) : string :=
  match o with Acquire n _ _ => n | Release n _ => n end.

Definition run_lock_op (o : lock_op) (d : HalDevice) : bool * HalDevice :=
  match o with
  | Acquire n ex s => let r := hal_device_acquire_lock n ex s d in ((res r).1, dev_of r)
  | Release n s => let r := hal_device_release_lock n s d in ((res r).1, dev_of r)
  end.

Definition spec_lock_op (o : lock_op) (t : lock_table) : bool * lock_table :=
  match o with
  | Acquire n ex s => acquire_spec n ex s t
  | Release n s => release_spec n s t
  end.

Fixpoint run_lock_ops (os : list lock_op) (d : HalDevice) : list bool * HalDevice :=
  match os with
  | [] => ([], d)
  | o :: os' => let '(b, d1) := run_lock_op o d in
                let '(bs, d2) := run_lock_ops os' d1 in (b :: bs, d2)
  end.

Fixpoint spec_lock_ops (os : list lock_op) (t : lock_table) : list bool * lock_table :=
  match os with
  | [] => ([], t)
  | o :: os' => let '(b, t1) := spec_lock_op o t in
                let '(bs, t2) := spec_lock_ops os' t1 in (b :: bs, t2)
  end.

Lemma lock_op_simulates o d t :
  lock_rep d t -> name_ok (op_name o) ->
  (run_lock_op o d).1 = (spec_lock_op o t).1 /\ lock_rep (run_lock_op o d).2 (spec_lock_op o t).2.
Proof.
  intros R Hn. destruct o as [n ex s | n s]; simpl in *.
  - destruct (acquire_simulates d t n ex s R Hn) as [-> ?]. done.
  - destruct (release_simulates d t n s R Hn) as [-> ?]. done.
Qed.

Lemma lock_ops_simulate os d t :
  lock_rep d t -> Forall (fun o => name_ok (op_name o)) os ->
  (run_lock_ops os d).1 = (spec_lock_ops os t).1 /\
  lock_rep (run_lock_ops os d).2 (spec_lock_ops os t).2.
Proof.
  intros R H. revert d t R. induction H as [|o os Ho Hos IH]; intros d t R; simpl; [done|].
  destruct (lock_op_simulates o d t R Ho) as [E1 R1].
  destruct (run_lock_op o d) as [b d1], (spec_lock_op o t) as [b' t1]. simpl in *. subst.
  destruct (IH d1 t1 R1) as [E2 R2].
  destruct (run_lock_ops os d1), (spec_lock_ops os t1). simpl in *. by subst.
Qed.

(** A device none of whose properties belongs to a lock. *)
Lemma lock_rep_empty d :
  (forall k, has_prefix k "info.named_locks" = true -> props d !! k = None) -> lock_rep d ∅.
Proof.
  intros H. split.
  - intros n. rewrite lookup_empty. by intros [? ?].
  - intros n e hs. by rewrite lookup_empty.
  - intros n Hn. rewrite lookup_empty.
    assert (forall s, lock_suffix s -> props d !! lock_buf n s = None) as Hk.
    { intros s Hs. apply H. rewrite lock_buf_fits by auto using lock_suffix_length.
      apply has_prefix_spec. by exists ("." +:+ n +:+ s). }
    split; apply Hk; auto with hal.
  - by rewrite H.
Qed.

(** The holders that [hal_device_get_lock_holders] reports. *)
Lemma holders_of_rep d t n :
  lock_rep d t -> name_ok n -> hal_device_get_lock_holders d n = snd <$> t !! n.
Proof.
  intros R Hn. pose proof (rep_props d t R n Hn) as [_ Hh _].
  unfold hal_device_get_lock_holders, hal_device_property_dup_strlist_as_strv,
    hal_device_property_get_strlist, hal_device_property_find. rewrite Hh.
  destruct (t !! n) as [[e hs]|] eqn:E; simpl; [|done].
  destruct (rep_holders d t R n e hs E) as [Hne _]. by destruct hs.
Qed.

(** While a lock is held exclusively, only its holder's release changes it. *)
Lemma spec_exclusive_stays os t n s :
  t !! n = Some (true, [s]) -> Release n s ∉ os ->
  (spec_lock_ops os t).2 !! n = Some (true, [s]) /\
  forall i ex s', os !! i = Some (Acquire n ex s') -> (spec_lock_ops os t).1 !! i = Some false.
Proof.
  revert t. induction os as [|o os IH]; intros t Ht Hn; simpl; [done|].
  apply not_elem_of_cons in Hn as [Ho Hn].
  assert ((spec_lock_op o t).2 !! n = Some (true, [s]) /\
          forall ex s', o = Acquire n ex s' -> (spec_lock_op o t).1 = false) as [H1 H2].
  { destruct o as [n' ex' s' | n' s']; simpl.
    - unfold acquire_spec. destruct (decide (n' = n)) as [->|Hne]; [by rewrite Ht|].
      split; [|naive_solver].
      repeat (case_match || case_decide); simpl; by rewrite ?lookup_insert_ne.
    - split; [|done]. unfold release_spec. destruct (decide (n' = n)) as [->|Hne].
      + rewrite Ht. rewrite decide_False; [done|]. intros ->%list_elem_of_singleton. done.
      + repeat (case_match || case_decide); simpl;
          by rewrite ?lookup_insert_ne, ?lookup_delete_ne. }
  destruct (spec_lock_op o t) as [b t1]. simpl in *.
  destruct (IH t1 H1 Hn) as [H3 H4]. destruct (spec_lock_ops os t1) as [bs t2]. simpl in *.
  split; [done|]. intros [|i] ex s' Hi; simpl in *; [|by eapply H4].
  simplify_eq. by rewrite (H2 ex s').
Qed.
