(* ===== verification/LockTheory.v ===== *)
(** * Guarantees of the named locks ([hald/device.c])

    What a client can rely on when it holds a lock, and what happens to the
    locks of a client that leaves the bus ([hal_device_client_disconnected]). *)

From Stdlib Require Import ZArith Lia Ascii SpecFloat.
From stdpp Require Import base list gmap strings option pretty.
From S2P Require Import Prelude CStd Property Device DeviceTheory DeviceMerge Locks.

(** ** Releasing everything a client holds *)

(** A lock after one holder left. *)
Definition drop_holder (sender : string) (o : option (bool * list string))
  : option (bool * list string) :=
  match o with
  | Some (e, hs) =>
      let hs' := filter (fun h => h <> sender) hs in
      if decide (hs' = []) then None else Some (e, hs')
  | None => None
  end.

Definition drop_sender (sender : string) (t : lock_table) : lock_table :=
  omap (fun x => drop_holder sender (Some x)) t.

(** Tables whose holder lists are not empty and without duplicates. *)
Definition table_ok (t : lock_table) : Prop :=
  forall n e hs, t !! n = Some (e, hs) -> hs <> [] /\ NoDup hs.

Lemma filter_absent (l : list string) x : x ∉ l -> filter (fun y => y <> x) l = l.
Proof.
  induction l as [|y l IH]; intros H; [done|].
  rewrite filter_cons_True by set_solver. rewrite IH; set_solver.
Qed.

Lemma release_spec_drop n sender t :
  table_ok t -> (release_spec n sender t).2 = put_lock n (drop_holder sender (t !! n)) t.
Proof.
  intros Hok. unfold release_spec. destruct (t !! n) as [[e hs]|] eqn:E; simpl.
  - destruct (Hok n e hs E) as [Hne Hnd]. case_decide as Hin; simpl.
    + case_decide as Hlen.
      * destruct hs as [|x [|]]; try discriminate Hlen.
        apply list_elem_of_singleton in Hin as ->.
        rewrite filter_cons_False by naive_solver. by rewrite decide_True.
      * rewrite decide_False; [done|]. by apply filter_ne_nonempty.
    + rewrite filter_absent by done. rewrite decide_False by done.
      apply map_eq. intros n'. destruct (decide (n' = n)) as [->|Hnn].
      * by rewrite lookup_put_lock, E.
      * by rewrite lookup_put_lock_ne.
  - apply map_eq. intros n'. destruct (decide (n' = n)) as [->|Hnn].
    + by rewrite lookup_put_lock, E.
    + by rewrite lookup_put_lock_ne.
Qed.

Definition release_names (names : list string) (sender : string) (t : lock_table) : lock_table :=
  foldl (fun t n => (release_spec n sender t).2) t names.

Lemma table_ok_release n sender t : table_ok t -> table_ok (release_spec n sender t).2.
Proof.
  intros Hok n' e hs. rewrite release_spec_drop by done.
  destruct (decide (n' = n)) as [->|Hne].
  - rewrite lookup_put_lock. unfold drop_holder. destruct (t !! n) as [[e0 hs0]|] eqn:E; [|done].
    case_decide; [done|]. intros [= <- <-]. split; [done|].
    apply NoDup_filter. by apply (Hok n e0 hs0).
  - rewrite lookup_put_lock_ne by done. apply Hok.
Qed.

Lemma drop_holder_idem sender o : drop_holder sender (drop_holder sender o) = drop_holder sender o.
Proof.
  destruct o as [[e hs]|]; [|done]. simpl. case_decide as Hd; [done|]. simpl.
  assert (sender ∉ filter (fun h => h <> sender) hs) as Hn
    by (rewrite list_elem_of_filter; naive_solver).
  rewrite (filter_absent (filter _ _)) by done. by rewrite decide_False.
Qed.

Lemma release_names_lookup names sender t n :
  table_ok t ->
  release_names names sender t !! n =
  if decide (n ∈ names) then drop_holder sender (t !! n) else t !! n.
Proof.
  revert t. induction names as [|x names IH]; intros t Hok; [done|].
  change (release_names (x :: names) sender t)
    with (release_names names sender (release_spec x sender t).2).
  rewrite IH by (by apply table_ok_release). rewrite release_spec_drop by done.
  destruct (decide (n = x)) as [->|Hne].
  - rewrite lookup_put_lock. rewrite (decide_True (P := x ∈ x :: names)) by set_solver.
    case_decide; [apply drop_holder_idem | done].
  - rewrite lookup_put_lock_ne by done. destruct (decide (n ∈ names)).
    + by rewrite decide_True by set_solver.
    + by rewrite decide_False by set_solver.
Qed.

Lemma release_names_all names sender t :
  table_ok t -> (forall n, is_Some (t !! n) -> n ∈ names) ->
  release_names names sender t = drop_sender sender t.
Proof.
  intros Hok Hall. apply map_eq. intros n. rewrite release_names_lookup by done.
  unfold drop_sender. rewrite lookup_omap.
  destruct (t !! n) as [x|] eqn:E; simpl.
  - rewrite decide_True; [done|]. apply Hall. rewrite E. eauto.
  - by case_decide.
Qed.

(** ** The world and the tables of its devices *)
Record world_rep (w : lock_world) (T : gmap nat lock_table) : Prop := {
  wr_devices : forall id t, T !! id = Some t ->
    exists d, lw_devices w !! id = Some d /\ lock_rep d t;
  wr_others : forall id, T !! id = None -> lw_devices w !! id = None;
  wr_nodup : NoDup (locked_devices w);
  wr_locked : forall id, id ∈ locked_devices w <-> exists t, T !! id = Some t /\ t <> ∅;
}.

Lemma rep_table_ok d t : lock_rep d t -> table_ok t.
Proof. intros R n e hs. apply (rep_holders d t R). Qed.

Lemma elem_of_remove_locked id id' l :
  NoDup l -> id' ∈ remove_from_locked_set id l <-> id' ∈ l /\ id' <> id.
Proof.
  induction l as [|x l IH]; intros Hnd; simpl; [set_solver|].
  apply NoDup_cons in Hnd as [Hx Hnd]. case_decide as Hd.
  - subst. set_solver.
  - rewrite elem_of_cons, IH by done. set_solver.
Qed.

Lemma remove_locked_nodup id l : NoDup l -> NoDup (remove_from_locked_set id l).
Proof.
  induction l as [|x l IH]; intros Hnd; simpl; [done|].
  apply NoDup_cons in Hnd as [Hx Hnd]. case_decide as Hd; [done|].
  apply NoDup_cons. split; [|by apply IH]. by rewrite elem_of_remove_locked by done; tauto.
Qed.

(** The three records of a world after an operation on one device. *)
Lemma world_rep_insert w T id d' t t' change :
  world_rep w T -> T !! id = Some t -> lock_rep d' t' ->
  match change with
  | LockedAdd => t' <> ∅
  | LockedRemove => t' = ∅
  | LockedKeep => t' = ∅ <-> t = ∅
  end ->
  world_rep (mk_lock_world (<[id := d']> (lw_devices w))
                           (apply_change id change (locked_devices w))) (<[id := t']> T).
Proof.
  intros [W1 W0 W2 W3] HT R Hc. split; simpl.
  - intros id' t0. destruct (decide (id' = id)) as [->|Hne].
    + rewrite !lookup_insert_eq. intros [= <-]. eauto.
    + rewrite !lookup_insert_ne by done. apply W1.
  - intros id'. rewrite !lookup_insert. case_decide; [done | apply W0].
  - destruct change; simpl; [done| |by apply remove_locked_nodup].
    unfold add_to_locked_set. case_decide; [done|]. by apply NoDup_cons.
  - intros id'. assert (id' ∈ apply_change id change (locked_devices w) <->
      (if decide (id' = id) then t' <> ∅ else id' ∈ locked_devices w)) as ->.
    { destruct change; simpl.
      - case_decide as Hd; [subst|done]. rewrite W3, HT. naive_solver.
      - unfold add_to_locked_set. case_decide; case_decide; set_solver.
      - rewrite elem_of_remove_locked by done. case_decide; naive_solver. }
    case_decide as Hd.
    + subst. rewrite lookup_insert_eq. naive_solver.
    + rewrite lookup_insert_ne by done. apply W3.
Qed.

Lemma table_nonempty (t : lock_table) n x : t !! n = Some x -> t <> ∅.
Proof. intros H ->. by rewrite lookup_empty in H. Qed.

Lemma world_release_rep w T id t n sender :
  world_rep w T -> T !! id = Some t -> name_ok n ->
  world_rep (world_release id n sender w).2 (<[id := (release_spec n sender t).2]> T).
Proof.
  intros W HT Hn. destruct (wr_devices w T W id t HT) as (d & Hd & R).
  unfold world_release, world_lock_op. rewrite Hd. simpl.
  destruct (release_simulates d t n sender R Hn) as [E R'].
  apply (world_rep_insert w T id _ t); [done..|]. rewrite E. simpl.
  destruct (release_spec n sender t) as [b t'] eqn:Es. simpl.
  unfold release_spec in Es. destruct (t !! n) as [[e hs]|] eqn:Et; [|simplify_eq/=; tauto].
  case_decide; simplify_eq/=; [|tauto]. case_bool_decide as He; [done|].
  apply table_nonempty in Et. naive_solver.
Qed.

Lemma release_each_rep w T id t names sender :
  world_rep w T -> T !! id = Some t -> Forall name_ok names ->
  world_rep (release_each id names sender w) (<[id := release_names names sender t]> T).
Proof.
  intros W HT Hn. revert w T t W HT. induction Hn as [|n names Hn Hns IH]; intros w T t W HT.
  - simpl. by rewrite insert_id.
  - simpl. pose proof (world_release_rep w T id t n sender W HT Hn) as W1.
    specialize (IH _ _ _ W1 (lookup_insert_eq _ _ _)). by rewrite insert_insert_eq in IH.
Qed.

Definition drop_on (sender : string) (links : list nat) (T : gmap nat lock_table) :=
  foldl (fun T id => alter (drop_sender sender) id T) T links.

(** One round of the loop releases everything the client holds on the device. *)
Lemma round_rep w T id t sender :
  world_rep w T -> T !! id = Some t -> t <> ∅ ->
  world_rep (disconnect_device id sender w) (<[id := drop_sender sender t]> T).
Proof.
  intros W HT Hne. destruct (wr_devices w T W id t HT) as (d & Hd & R).
  unfold disconnect_device, hal_device_property_dup_strlist_as_strv,
    hal_device_property_get_strlist, hal_device_property_find. rewrite Hd.
  destruct (rep_list_cases d t R) as [[_ ->] | (l & Hl & Hlne & _ & H3)]; [done|]. rewrite Hl.
  simpl. destruct l as [|x l]; [done|].
  rewrite <- (release_names_all (x :: l)); [|by eapply rep_table_ok|naive_solver].
  apply release_each_rep; [done | done |]. apply Forall_forall. intros n Hn.
  apply (rep_names d t R). by apply H3.
Qed.

Lemma disconnect_loop_rep links w T sender :
  world_rep w T -> NoDup links -> (forall id, id ∈ links -> id ∈ locked_devices w) ->
  match disconnect_loop links sender w with
  | Finished w' => world_rep w' (drop_on sender links T) /\
      forall id t, id ∈ links -> T !! id = Some t -> drop_sender sender t <> ∅
  | UseAfterFree _ =>
      exists id t, id ∈ links /\ T !! id = Some t /\ drop_sender sender t = ∅
  end.
Proof.
  revert w T. induction links as [|id links IH]; intros w T W Hnd Hin; simpl.
  { split; [done|]. intros id t H. by apply not_elem_of_nil in H. }
  apply NoDup_cons in Hnd as [Hid Hnd].
  destruct (proj1 (wr_locked w T W id) (Hin id ltac:(set_solver))) as (t & Ht & Hne).
  set (w' := disconnect_device id sender w).
  assert (world_rep w' (<[id := drop_sender sender t]> T)) as W' by (by apply round_rep).
  assert (alter (drop_sender sender) id T = <[id := drop_sender sender t]> T) as Ea.
  { apply map_eq. intros id'. rewrite lookup_alter, lookup_insert.
    case_decide; [|done]. subst. by rewrite Ht. }
  case_decide as Hl.
  - specialize (IH w' _ W' Hnd). destruct (disconnect_loop links sender w') as [w2|w2].
    + destruct IH as [IH1 IH2].
      { intros id' Hid'. apply (wr_locked w' _ W').
        destruct (proj1 (wr_locked w T W id') (Hin id' ltac:(set_solver))) as (t' & Ht' & ?).
        exists t'. rewrite lookup_insert_ne by set_solver. done. }
      split; [by rewrite Ea|]. intros id' t' [->|Hid']%elem_of_cons Ht'.
      * apply (wr_locked w' _ W') in Hl as (t0 & Ht0 & Hn0).
        rewrite lookup_insert_eq in Ht0. by simplify_eq.
      * apply (IH2 id'); [done|]. rewrite lookup_insert_ne by set_solver. done.
    + destruct IH as (id' & t' & H1 & H2 & H3).
      { intros id' Hid'. apply (wr_locked w' _ W').
        destruct (proj1 (wr_locked w T W id') (Hin id' ltac:(set_solver))) as (t' & Ht' & ?).
        exists t'. rewrite lookup_insert_ne by set_solver. done. }
      exists id', t'. rewrite lookup_insert_ne in H2 by set_solver. set_solver.
  - exists id, t. split; [set_solver|]. split; [done|].
    destruct (decide (drop_sender sender t = ∅)) as [|Hn]; [done|]. exfalso. apply Hl.
    apply (wr_locked w' _ W'). eexists. by rewrite lookup_insert_eq.
Qed.

Lemma drop_on_lookup sender links T id :
  NoDup links -> drop_on sender links T !! id =
  if decide (id ∈ links) then drop_sender sender <$> T !! id else T !! id.
Proof.
  revert T. induction links as [|x links IH]; intros T Hnd; [done|].
  apply NoDup_cons in Hnd as [Hx Hnd].
  change (drop_on sender (x :: links) T) with (drop_on sender links (alter (drop_sender sender) x T)).
  rewrite IH by done. destruct (decide (id = x)) as [->|Hne].
  - rewrite decide_False by done. rewrite decide_True by set_solver. apply lookup_alter_eq.
  - rewrite lookup_alter_ne by done. destruct (decide (id ∈ links)).
    + by rewrite decide_True by set_solver.
    + by rewrite decide_False by set_solver.
Qed.

Lemma drop_on_all sender w T :
  world_rep w T -> drop_on sender (locked_devices w) T = drop_sender sender <$> T.
Proof.
  intros W. apply map_eq. intros id. rewrite drop_on_lookup by apply W. rewrite lookup_fmap.
  case_decide as Hd; [done|]. destruct (T !! id) as [t|] eqn:E; [|done]. simpl.
  destruct (decide (t = ∅)) as [->|Hn]; [done|]. exfalso. apply Hd.
  apply (wr_locked w T W). eauto.
Qed.
