(* ===== verification/LockClaims.v ===== *)
(** * What the named locks guarantee ([hald/device.c])

    The statements about sequences of lock operations on a device, and about
    the clean-up of a client that leaves the bus. *)

From Stdlib Require Import ZArith Lia Ascii SpecFloat.
From stdpp Require Import base list gmap strings option pretty.
From S2P Require Import Prelude CStd Property Device DeviceTheory DeviceMerge Locks LockTheory.

(** A device on which no lock was ever taken. *)
Definition no_locks (d : HalDevice) : Prop :=
  map_Forall (fun k _ => has_prefix k "info.named_locks" = false) (props d).

#[global] Instance no_locks_dec d : Decision (no_locks d).
Proof. unfold no_locks. apply _. Defined.

Lemma no_locks_rep d : no_locks d -> lock_rep d ∅.
Proof.
  intros H. apply lock_rep_empty. intros k Hk. destruct (props d !! k) as [p|] eqn:E; [|done].
  apply H in E. by rewrite Hk in E.
Qed.

(** ** Worlds that lock operations reach *)
Definition run_world_op (io : nat * lock_op) (w : lock_world) : lock_world :=
  match io with
  | (id, Acquire n ex s) => (world_acquire id n ex s w).2
  | (id, Release n s) => (world_release id n s w).2
  end.

Definition run_world_ops (ios : list (nat * lock_op)) (w : lock_world) : lock_world :=
  foldl (fun w io => run_world_op io w) w ios.

Lemma acquire_spec_nonempty n ex s t :
  if (acquire_spec n ex s t).1 then (acquire_spec n ex s t).2 <> ∅
  else (acquire_spec n ex s t).2 = ∅ <-> t = ∅.
Proof.
  unfold acquire_spec. destruct (t !! n) as [[[|] hs]|] eqn:E; simpl.
  - tauto.
  - assert (t <> ∅) by (by eapply table_nonempty).
    destruct ex; [|case_decide]; simpl; try tauto; [split; intros H'; [|done]|];
      by apply insert_non_empty in H' || apply insert_non_empty.
  - apply insert_non_empty.
Qed.

Lemma run_world_op_rep io w T :
  world_rep w T -> name_ok (op_name io.2) -> world_rep (run_world_op io w)
    (alter (fun t => (spec_lock_op io.2 t).2) io.1 T).
Proof.
  intros W Hn. destruct io as [id o]. simpl.
  assert (forall t t', T !! id = Some t -> (spec_lock_op o t).2 = t' ->
    alter (fun t => (spec_lock_op o t).2) id T = <[id := t']> T) as Ea.
  { intros t t' Ht <-. apply map_eq. intros id'. rewrite lookup_alter, lookup_insert.
    case_decide; [|done]. subst. by rewrite Ht. }
  destruct (T !! id) as [t|] eqn:Ht.
  - rewrite (Ea t _ eq_refl eq_refl). destruct o as [n ex s | n s]; simpl in *.
    + destruct (wr_devices w T W id t Ht) as (d & Hd & R).
      destruct (acquire_simulates d t n ex s R Hn) as [E R'].
      unfold world_acquire, world_lock_op. rewrite Hd. simpl.
      apply (world_rep_insert w T id _ t); [done..|]. rewrite E. simpl.
      pose proof (acquire_spec_nonempty n ex s t) as Hs. by destruct (acquire_spec n ex s t) as [[|] t'].
    + by apply world_release_rep.
  - assert (alter (fun t => (spec_lock_op o t).2) id T = T) as ->.
    { apply map_eq. intros id'. rewrite lookup_alter. case_decide; [|done]. subst. by rewrite Ht. }
    apply (wr_others w T W) in Ht. destruct o; simpl;
      unfold world_acquire, world_release, world_lock_op; by rewrite Ht.
Qed.

Definition spec_world_ops (ios : list (nat * lock_op)) (T : gmap nat lock_table) :=
  foldl (fun T io => alter (fun t => (spec_lock_op io.2 t).2) io.1 T) T ios.

Definition fresh_world (w : lock_world) : Prop :=
  map_Forall (fun _ d => no_locks d) (lw_devices w) /\ locked_devices w = [].

Lemma fresh_world_rep w : fresh_world w -> world_rep w ((fun _ => ∅) <$> lw_devices w).
Proof.
  intros [H1 H2]. split.
  - intros id t. rewrite lookup_fmap. destruct (lw_devices w !! id) as [d|] eqn:E; simpl; [|done].
    intros [= <-]. exists d. split; [done|]. apply no_locks_rep. by apply (H1 id).
  - intros id. rewrite lookup_fmap. by destruct (lw_devices w !! id).
  - rewrite H2. constructor.
  - intros id. rewrite H2. split; [by intros ?%not_elem_of_nil|].
    intros (t & Ht & Hne). rewrite lookup_fmap in Ht.
    destruct (lw_devices w !! id); simpl in Ht; by simplify_eq.
Qed.

Lemma run_world_ops_rep ios w T :
  world_rep w T -> Forall (fun io => name_ok (op_name io.2)) ios ->
  world_rep (run_world_ops ios w) (spec_world_ops ios T).
Proof.
  intros W H. revert w T W. induction H as [|io ios Hio _ IH]; intros w T W; [done|].
  apply IH. by apply run_world_op_rep.
Qed.

Lemma spec_lock_ops_app os1 os2 t :
  spec_lock_ops (os1 ++ os2) t =
  ((spec_lock_ops os1 t).1 ++ (spec_lock_ops os2 (spec_lock_ops os1 t).2).1,
   (spec_lock_ops os2 (spec_lock_ops os1 t).2).2).
Proof.
  revert t. induction os1 as [|o os1 IH]; intros t; simpl; [by destruct (spec_lock_ops os2 t)|].
  destruct (spec_lock_op o t) as [b t1]. rewrite IH. by destruct (spec_lock_ops os1 t1).
Qed.

Lemma spec_lock_ops_length os t : length (spec_lock_ops os t).1 = length os.
Proof.
  revert t. induction os as [|o os IH]; intros t; simpl; [done|].
  destruct (spec_lock_op o t) as [b t1]. specialize (IH t1).
  destruct (spec_lock_ops os t1). simpl in *. by rewrite IH.
Qed.

Lemma exclusive_of_rep d t n :
  lock_rep d t -> name_ok n -> hal_device_is_lock_exclusive d n = default false (fst <$> t !! n).
Proof.
  intros R Hn. pose proof (rep_props d t R n Hn) as [He _ _].
  unfold hal_device_is_lock_exclusive, hal_device_property_get_bool, hal_device_property_find.
  rewrite He. by destruct (t !! n) as [[]|].
Qed.

(** C2 A device implements the abstract lock table: on a device without
    locks, any sequence of acquire and release requests (of names that fit
    the buffer) returns what the table says, and afterwards the holders and
    the exclusive flag read from the properties are those of the table. *)
Theorem locks_refine_the_table os d :
  no_locks d -> Forall (fun o => name_ok (op_name o)) os ->
  let r := run_lock_ops os d in
  let s := spec_lock_ops os ∅ in
  r.1 = s.1 /\
  forall n, name_ok n ->
    hal_device_get_lock_holders r.2 n = snd <$> s.2 !! n /\
    hal_device_is_lock_exclusive r.2 n = default false (fst <$> s.2 !! n).
Proof.
  intros H0 Hn r s. destruct (lock_ops_simulate os d ∅ (no_locks_rep d H0) Hn) as [E R].
  split; [done|]. intros n Hok. split; [by apply holders_of_rep | by apply exclusive_of_rep].
Qed.

(** An exclusive lock excludes: once a client obtained it, every request
    for the lock by anybody fails and the client stays the only holder, until
    the client itself releases it. *)
Lemma exclusive_lock_excludes os1 os2 n s d :
  no_locks d -> Forall (fun o => name_ok (op_name o)) (os1 ++ Acquire n true s :: os2) ->
  let r := run_lock_ops (os1 ++ Acquire n true s :: os2) d in
  r.1 !! length os1 = Some true -> Release n s ∉ os2 ->
  hal_device_get_lock_holders r.2 n = Some [s] /\
  forall i ex s', os2 !! i = Some (Acquire n ex s') -> r.1 !! (length os1 + S i)%nat = Some false.
Proof.
  intros H0 Hn r Hr Hrel. destruct (lock_ops_simulate _ d ∅ (no_locks_rep d H0) Hn) as [E R].
  fold r in E, R. rewrite spec_lock_ops_app in E, R. simpl in E, R.
  set (t1 := (spec_lock_ops os1 ∅).2) in *.
  destruct (acquire_spec n true s t1) as [b t2] eqn:Ea.
  pose proof (spec_exclusive_stays os2 t2 n s) as Hs.
  destruct (spec_lock_ops os2 t2) as [bs t3]. simpl in *.
  rewrite E in Hr. rewrite lookup_app_r in Hr by (by rewrite spec_lock_ops_length).
  rewrite spec_lock_ops_length, Nat.sub_diag in Hr. simpl in Hr. injection Hr as ->.
  assert (t2 !! n = Some (true, [s])) as Ht2.
  { unfold acquire_spec in Ea. destruct (t1 !! n) as [[[|] hs]|]; simplify_eq.
    apply lookup_insert_eq. }
  destruct (Hs Ht2 Hrel) as [Hs1 Hs2]. split.
  - rewrite (holders_of_rep _ _ n R), Hs1; [done|].
    rewrite Forall_app, Forall_cons in Hn. tauto.
  - intros i ex s' Hi. rewrite E, lookup_app_r by (rewrite spec_lock_ops_length; lia).
    rewrite spec_lock_ops_length. replace (length os1 + S i - length os1)%nat with (S i) by lia.
    simpl. by apply (Hs2 i ex s').
Qed.

(** The properties after a round trip of the list [info.named_locks]. *)
Lemma filter_last (l : list string) n : n ∉ l -> filter (fun x => x <> n) (l ++ [n]) = l.
Proof.
  intros H. rewrite filter_app, filter_absent, filter_cons_False by naive_solver.
  apply app_nil_r.
Qed.

Lemma restore_table (m : gmap string HalProperty) a b c k va vb vc vk :
  m !! a = None -> m !! b = None -> m !! c = None -> a <> k -> b <> k -> c <> k ->
  delete b (delete c (delete a (<[k := vk]> (<[c := vc]> (<[b := vb]> (<[a := va]> m))))))
  = <[k := vk]> m.
Proof.
  intros Ha Hb Hc Hak Hbk Hck. apply map_eq. intros i.
  rewrite !lookup_delete, !lookup_insert. repeat case_decide; congruence.
Qed.

Lemma acquire_release_props d t n ex s :
  lock_rep d t -> name_ok n -> t !! n = None ->
  let d1 := dev_of (hal_device_acquire_lock n ex s d) in
  res (hal_device_acquire_lock n ex s d) = (true, LockedAdd) /\
  (res (hal_device_release_lock n s d1)).1 = true /\
  props (dev_of (hal_device_release_lock n s d1)) = props d.
Proof.
  intros R Hn Ht d1. pose proof (rep_props d t R n Hn) as HP. rewrite Ht in HP.
  destruct (keys_distinct n Hn) as (D1 & D2 & D3 & D4 & D5 & D6).
  assert (exists ml, props d !! "info.named_locks" = (PStrlist <$> ml) /\ (n ∉ default [] ml) /\
            NoDup (default [] ml) /\ ml <> Some []) as (ml & Hml & Hnm & Hnd & Hne).
  { destruct (rep_list_cases d t R) as [[-> ->] | (l & -> & ? & ? & Hl)].
    - exists None. simpl. split_and!; [done | set_solver | constructor | done].
    - exists (Some l). simpl. split_and!; [done | | done | congruence].
      rewrite Hl, Ht. by intros [? ?]. }
  destruct (acquire_free n s d Hn ex ml HP Hml Hnm) as [E1 E2]. fold d1 in E2.
  pose proof (release_last n s d1 Hn ex [s] (default [] ml ++ [n])) as Hr.
  rewrite E2 in Hr. split; [done|].
  destruct HP as [He Hh Hl]. simpl in He, Hh, Hl. simpl in Hr.
  assert (lock_props (props d1) n (Some (ex, [s]))) as HP1.
  { rewrite E2. split; simpl; repeat (rewrite lookup_insert_ne by congruence); by rewrite lookup_insert_eq. }
  rewrite <- E2 in Hr.
  specialize (Hr HP1 ltac:(set_solver) eq_refl).
  rewrite E2 in Hr. rewrite lookup_insert_eq in Hr. specialize (Hr eq_refl).
  specialize (Hr ltac:(apply NoDup_app; split_and!; [done | set_solver | apply NoDup_singleton])
                 ltac:(set_solver)). simpl in Hr.
  rewrite restore_table, length_app, filter_last in Hr by done. simpl in Hr.
  destruct ml as [[|x l]|]; [done| |]; simpl in Hr.
  - rewrite decide_False in Hr by lia. destruct Hr as [-> ->]. split; [done|].
    rewrite insert_insert_eq. by apply insert_id.
  - destruct Hr as [-> ->]. split; [done|]. by apply delete_insert_id.
Qed.

(** Acquiring a free lock and releasing it again restores every property
    of the device, after any history of lock operations. *)
Lemma acquire_then_release_restores os n ex s d :
  no_locks d -> name_ok n -> Forall (fun o => name_ok (op_name o)) os ->
  let d0 := (run_lock_ops os d).2 in
  hal_device_get_lock_holders d0 n = None ->
  (run_lock_ops [Acquire n ex s; Release n s] d0).1 = [true; true] /\
  props (run_lock_ops [Acquire n ex s; Release n s] d0).2 = props d0.
Proof.
  intros H0 Hn Hos d0 Hfree. destruct (lock_ops_simulate os d ∅ (no_locks_rep d H0) Hos) as [_ R].
  fold d0 in R. rewrite (holders_of_rep d0 _ n R Hn) in Hfree. apply fmap_None in Hfree.
  destruct (acquire_release_props d0 _ n ex s R Hn Hfree) as (E1 & E2 & E3).
  simpl. by rewrite E1, E2, E3.
Qed.

Ltac names_fit := repeat (apply Forall_cons_2; [done|]); apply Forall_nil_2.

(** A request for exclusive access that fails because others share the
    lock still sets the exclusive flag: from then on nobody can join the
    shared lock, although the failed request holds nothing. *)
Lemma failed_exclusive_request_blocks_sharing n s1 s2 s3 d :
  no_locks d -> name_ok n -> s3 <> s1 ->
  (run_lock_ops [Acquire n false s1; Acquire n false s3] d).1 = [true; true] /\
  (run_lock_ops [Acquire n false s1; Acquire n true s2; Acquire n false s3] d).1
  = [true; false; false].
Proof.
  intros H0 Hn Hs. split.
  - destruct (lock_ops_simulate [Acquire n false s1; Acquire n false s3] d ∅ (no_locks_rep d H0))
      as [-> _]; [names_fit|].
    simpl. unfold acquire_spec. rewrite lookup_empty, lookup_insert_eq.
    by rewrite decide_False by set_solver.
  - destruct (lock_ops_simulate [Acquire n false s1; Acquire n true s2; Acquire n false s3] d ∅
      (no_locks_rep d H0)) as [-> _]; [names_fit|].
    simpl. unfold acquire_spec. by rewrite lookup_empty, lookup_insert_eq, lookup_insert_eq.
Qed.

Lemma str_take_long n a b : (n <= String.length a)%nat -> str_take n (a +:+ b) = str_take n a.
Proof.
  revert a. induction n as [|n IH]; intros [|c a] H; simpl in H; [by destruct b | done | lia |].
  change (String c a +:+ b) with (String c (a +:+ b)).
  unfold str_take in *. cbn [String.substring]. f_equal. apply IH. lia.
Qed.

Lemma lock_buf_long n suffix :
  (238 <= String.length n)%nat -> lock_buf n suffix = str_take 255 ("info.named_locks." +:+ n).
Proof.
  intros H. unfold lock_buf, snprintf. rewrite string_app_assoc. apply str_take_long.
  rewrite string_length_app. change (String.length "info.named_locks.") with 17%nat. lia.
Qed.

(** Lock names of 238 bytes and more share one property for all three
    parts of the lock: a shared lock is granted, and then nobody, its holder
    included, can release it. *)
Lemma long_named_lock_is_never_released n s d :
  no_locks d -> (238 <= String.length n)%nat ->
  let r := hal_device_acquire_lock n false s d in
  res r = (true, LockedAdd) /\
  forall s', hal_device_release_lock n s' (dev_of r) = ((false, LockedKeep), dev_of r, []).
Proof.
  intros H0 Hn r. set (k := str_take 255 ("info.named_locks." +:+ n)).
  assert (props d !! k = None) as Hk.
  { destruct (props d !! k) eqn:E; [|done]. apply H0 in E. revert E. unfold k. done. }
  assert (k <> "info.named_locks") as Hkl.
  { unfold k. by destruct n as [|c n]. }
  assert (props d !! "info.named_locks" = None) as Hl.
  { destruct (props d !! "info.named_locks") eqn:E; [|done]. by apply H0 in E. }
  assert (forall suffix, lock_buf n suffix = k) as Hb by (intros; by apply lock_buf_long).
  assert (res r = (true, LockedAdd) /\ props (dev_of r) =
    <["info.named_locks" := PStrlist [n]]> (<[k := PBoolean true]> (<[k := PBoolean false]> (props d))))
    as [Er Ep].
  { pose proof (acquire_after_flag n s d false) as Ha. cbv zeta in Ha. fold r in Ha.
    rewrite !Hb in Ha. specialize (Ha (or_introl Hk)).
    pose proof (set_bool_props k false d (or_introl Hk)) as E1.
    set (d1 := dev_of (hal_device_property_set_bool k false d)) in *.
    assert (props d1 !! k = Some (PBoolean false)) as E2 by (by rewrite E1, lookup_insert_eq).
    assert (dev_of (hal_device_property_strlist_append k s false d1) = d1) as E3.
    { unfold hal_device_property_strlist_append, hal_device_property_find. by rewrite bind_get, E2. }
    unfold hal_device_property_strlist_contains, hal_device_property_get_strlist,
      hal_device_property_find in Ha. rewrite E2 in Ha. simpl in Ha.
    destruct Ha as [Ha1 Ha2]. split; [done|]. rewrite Ha2, E3.
    pose proof (set_bool_props k true d1 (or_intror (ex_intro _ false E2))) as E4.
    rewrite (add_props _ n _ None), E4, E1; [done | | set_solver].
    by rewrite E4, E1, !lookup_insert_ne. }
  split; [done|]. intros s'. unfold hal_device_release_lock. rewrite !Hb, bind_get.
  unfold hal_device_property_get_bool, hal_device_property_find. rewrite Ep.
  rewrite lookup_insert_ne, lookup_insert_eq by done. simpl. rewrite bind_get.
  unfold hal_device_property_strlist_contains, hal_device_property_get_strlist,
    hal_device_property_find. rewrite Ep, lookup_insert_ne, lookup_insert_eq by done. done.
Qed.

(** What a device says about the holders of a lock after one client left. *)
Definition without (s : string) (o : option (list string)) : option (list string) :=
  match filter (fun h => h <> s) (default [] o) with
  | [] => None
  | hs => Some hs
  end.

Lemma holders_dropped s t n :
  snd <$> drop_sender s t !! n = without s (snd <$> t !! n).
Proof.
  unfold drop_sender, without. rewrite lookup_omap.
  destruct (t !! n) as [[e hs]|]; simpl; [|done].
  case_decide as Hd; [by rewrite Hd|]. simpl. by destruct (filter _ hs).
Qed.

(** All locks of the device, of which there are some, are held by one client
    alone. *)
Definition only_holder (s : string) (d : HalDevice) : Prop :=
  (exists n, name_ok n /\ hal_device_get_lock_holders d n = Some [s]) /\
  forall n hs, name_ok n -> hal_device_get_lock_holders d n = Some hs -> hs = [s].

Lemma all_one (s : string) hs :
  NoDup hs -> hs <> [] -> filter (fun h => h <> s) hs = [] -> hs = [s].
Proof.
  intros Hnd Hne Hf. destruct hs as [|x hs]; [done|].
  destruct (decide (x = s)) as [->|Hx]; [|by rewrite filter_cons_True in Hf].
  rewrite filter_cons_False in Hf by naive_solver. apply NoDup_cons in Hnd as [Hs _].
  rewrite filter_absent in Hf by done. by subst.
Qed.

Lemma dropped_empty s d t :
  lock_rep d t -> t <> ∅ -> drop_sender s t = ∅ -> only_holder s d.
Proof.
  intros R Hne Hd.
  assert (forall n e hs, t !! n = Some (e, hs) -> hs = [s]) as Hall.
  { intros n e hs Ht. destruct (rep_holders d t R n e hs Ht).
    apply (f_equal (.!! n)) in Hd. unfold drop_sender in Hd.
    rewrite lookup_omap, lookup_empty, Ht in Hd. simpl in Hd.
    case_decide as Hf; [|done]. by apply all_one. }
  split.
  - apply map_choose in Hne as (n & [e hs] & Ht). exists n.
    assert (name_ok n) as Hn by (apply (rep_names d t R); rewrite Ht; eauto).
    split; [done|]. rewrite (holders_of_rep d t n R Hn), Ht. simpl. by rewrite (Hall n e hs Ht).
  - intros n hs Hn. rewrite (holders_of_rep d t n R Hn).
    destruct (t !! n) as [[e hs']|] eqn:Ht; simpl; [|done]. intros [= <-]. by apply (Hall n e).
Qed.

(** When a client leaves the bus, [hal_device_client_disconnected] takes it
    off every lock of every device (a lock without holders is gone), and no
    other holder loses anything; except that the loop reads a list link it has
    just freed when some device had all its locks held by this client alone. *)
Lemma disconnected_client_holds_nothing ios s w :
  fresh_world w -> Forall (fun io => name_ok (op_name io.2)) ios ->
  let w1 := run_world_ops ios w in
  match hal_device_client_disconnected s w1 with
  | Finished w2 =>
      forall id d1, lw_devices w1 !! id = Some d1 ->
        exists d2, lw_devices w2 !! id = Some d2 /\
          forall n, name_ok n ->
            hal_device_get_lock_holders d2 n = without s (hal_device_get_lock_holders d1 n)
  | UseAfterFree _ =>
      exists id d, lw_devices w1 !! id = Some d /\ id ∈ locked_devices w1 /\ only_holder s d
  end.
Proof.
  intros Hw Hn w1. pose proof (run_world_ops_rep ios w _ (fresh_world_rep w Hw) Hn) as W.
  set (T := spec_world_ops ios _) in W. fold w1 in W.
  pose proof (disconnect_loop_rep (locked_devices w1) w1 T s W (wr_nodup _ _ W)) as H.
  unfold hal_device_client_disconnected.
  destruct (disconnect_loop (locked_devices w1) s w1) as [w2|w2].
  - destruct H as [W2 _]; [done|]. rewrite (drop_on_all s w1 T W) in W2. intros id d1 Hd1.
    destruct (T !! id) as [t|] eqn:Ht; [|by rewrite (wr_others _ _ W id Ht) in Hd1].
    destruct (wr_devices _ _ W id t Ht) as (d1' & Hd1' & R1). simplify_eq.
    destruct (wr_devices _ _ W2 id (drop_sender s t)) as (d2 & Hd2 & R2);
      [by rewrite lookup_fmap, Ht|].
    exists d2. split; [done|]. intros n Hok.
    rewrite (holders_of_rep d2 _ n R2 Hok), (holders_of_rep d1 _ n R1 Hok). apply holders_dropped.
  - destruct H as (id & t & Hid & Ht & Hd); [done|].
    destruct (wr_devices _ _ W id t Ht) as (d & Hd1 & R). exists id, d.
    split; [done|]. split; [done|]. apply (dropped_empty s d t); [done| |done].
    apply (wr_locked _ _ W) in Hid as (t' & Ht' & ?). congruence.
Qed.

(** ** Instances *)
Definition disk : HalDevice := mk_device "/org/freedesktop/Hal/devices/volume_1" 0 0
  {[ "info.product" := PString "disk"; "volume.size" := PUint64 512 ]}.

Definition iface : string := "org.freedesktop.Hal.Device.Storage".

Lemma locks_refine_the_table_witness :
  (run_lock_ops [Acquire iface false ":1.1"; Acquire iface false ":1.2"; Release iface ":1.1"] disk).1
    = [true; true; true] /\
  hal_device_get_lock_holders (run_lock_ops [Acquire iface false ":1.1"; Acquire iface false ":1.2";
    Release iface ":1.1"] disk).2 iface = Some [":1.2"].
Proof.
  destruct (locks_refine_the_table
    [Acquire iface false ":1.1"; Acquire iface false ":1.2"; Release iface ":1.1"] disk)
    as [E1 E2].
  - apply (bool_decide_unpack _). vm_compute. exact I.
  - repeat (apply Forall_cons_2; [unfold name_ok; simpl; lia|]). apply Forall_nil_2.
  - split; [exact E1|]. destruct (E2 iface) as [-> _]; [unfold name_ok; simpl; lia|].
    vm_compute. reflexivity.
Defined.

Definition contested : list lock_op := [Acquire iface false ":1.2"; Acquire iface true ":1.3"; Release iface ":1.2"].

Lemma exclusive_lock_excludes_witness :
  hal_device_get_lock_holders (run_lock_ops ([] ++ Acquire iface true ":1.1" :: contested) disk).2
    iface = Some [":1.1"].
Proof.
  apply (exclusive_lock_excludes [] contested iface ":1.1" disk).
  - apply (bool_decide_unpack _). vm_compute. exact I.
  - repeat (apply Forall_cons_2; [unfold name_ok; simpl; lia|]). apply Forall_nil_2.
  - vm_compute. reflexivity.
  - unfold contested. intros H. repeat (apply elem_of_cons in H as [H|H]; [discriminate H|]).
    by apply not_elem_of_nil in H.
Defined.

Lemma acquire_then_release_restores_witness :
  props (run_lock_ops [Acquire iface true ":1.1"; Release iface ":1.1"]
    (run_lock_ops [Acquire "other" false ":1.7"] disk).2).2
  = props (run_lock_ops [Acquire "other" false ":1.7"] disk).2.
Proof.
  apply (acquire_then_release_restores [Acquire "other" false ":1.7"] iface true ":1.1" disk).
  - apply (bool_decide_unpack _). vm_compute. exact I.
  - unfold name_ok. simpl. lia.
  - apply Forall_cons_2; [unfold name_ok; simpl; lia | apply Forall_nil_2].
  - vm_compute. reflexivity.
Defined.

Lemma failed_exclusive_request_blocks_sharing_witness :
  (run_lock_ops [Acquire iface false ":1.1"; Acquire iface true ":1.2"; Acquire iface false ":1.3"]
    disk).1 = [true; false; false].
Proof.
  apply (failed_exclusive_request_blocks_sharing iface ":1.1" ":1.2" ":1.3" disk).
  - apply (bool_decide_unpack _). vm_compute. exact I.
  - unfold name_ok. simpl. lia.
  - discriminate.
Defined.

Fixpoint repeat_char (n : nat) (c : ascii) : string :=
  match n with O => "" | S n' => String c (repeat_char n' c) end.

Lemma long_named_lock_is_never_released_witness :
  res (hal_device_acquire_lock (repeat_char 240 "a") false ":1.1" disk) = (true, LockedAdd).
Proof.
  apply (long_named_lock_is_never_released (repeat_char 240 "a") ":1.1" disk).
  - apply (bool_decide_unpack _). vm_compute. exact I.
  - vm_compute. lia.
Defined.

Definition two_disks : lock_world := mk_lock_world {[ 1%nat := disk; 2%nat := disk ]} [].

Definition two_holders : lock_world :=
  run_world_ops [(1%nat, Acquire iface false ":1.1"); (1%nat, Acquire iface false ":1.2")] two_disks.

Definition finished (r : loop_end) : bool := match r with Finished _ => true | UseAfterFree _ => false end.

Lemma disconnected_client_holds_nothing_witness :
  exists w2 d2, hal_device_client_disconnected ":1.1" two_holders = Finished w2 /\
    lw_devices w2 !! 1%nat = Some d2 /\ hal_device_get_lock_holders d2 iface = Some [":1.2"].
Proof.
  assert (fresh_world two_disks) as H1.
  { split; [|reflexivity]. apply (bool_decide_unpack _). vm_compute. exact I. }
  pose proof (disconnected_client_holds_nothing
    [(1%nat, Acquire iface false ":1.1"); (1%nat, Acquire iface false ":1.2")] ":1.1" two_disks H1
    ltac:(repeat (apply Forall_cons_2; [unfold name_ok; simpl; lia|]); apply Forall_nil_2)) as H.
  cbv zeta in H. fold two_holders in H.
  assert (finished (hal_device_client_disconnected ":1.1" two_holders) = true) as Hf
    by (vm_compute; reflexivity).
  assert (forall d, lw_devices two_holders !! 1%nat = Some d ->
    hal_device_get_lock_holders d iface = Some [":1.1"; ":1.2"]) as Hh.
  { intros d Hd. enough ((fun d => hal_device_get_lock_holders d iface) <$> lw_devices two_holders !! 1%nat
      = Some (Some [":1.1"; ":1.2"])) as E by (rewrite Hd in E; by injection E).
    vm_compute. reflexivity. }
  assert (is_Some (lw_devices two_holders !! 1%nat)) as [d1 Hd1]
    by (apply (bool_decide_unpack _); vm_compute; exact I).
  destruct (hal_device_client_disconnected ":1.1" two_holders) as [w2|w2]; [|discriminate Hf].
  destruct (H 1%nat d1 Hd1) as (d2 & Hd2 & Hn). exists w2, d2. split; [reflexivity|]. split; [exact Hd2|].
  rewrite Hn by (unfold name_ok; simpl; lia). rewrite (Hh d1 Hd1). vm_compute. reflexivity.
Defined.
