(* ===== verification/DeviceStore.v ===== *)
(** * Device stores ([hald/device_store.c], and the handlers of [hald/hald.c])

    A store is a list of devices, the signal handlers it connected to them,
    and an index of chosen string properties.  An index is a hash table whose
    keys are the very strings the devices hold: they are not copied.  An entry
    therefore remembers the device whose string is its key, and whether that
    string is still allocated.  A lookup compares its argument with every key
    of equal hash that it meets; it is [None] when one of these was freed.

    Devices are identified by numbers (their addresses).  Signals of devices
    run their handlers at once, so the handlers see the device as it is at
    the emission ([em_device]).  All strings a device frees are announced by
    "pre_property_changed": [hal_property_set_string] and
    [hal_device_property_remove] free the old string after it. *)

From Stdlib Require Import ZArith Lia Ascii SpecFloat.
From stdpp Require Import base list gmap strings option pretty.
From S2P Require Import Prelude CStd Property Device DeviceTheory.

(** ** State *)
Record index_entry := mk_entry {
  ie_value : string;
  ie_owner : nat;       (** the device whose property string is the key *)
  ie_live : bool;       (** the string is still allocated *)
  ie_devs : list nat;
}.

Record HalDeviceStore := mk_store {
  devices : list nat;
  handlers : list nat;  (** one element per call of [g_signal_connect] *)
  property_index : gmap string (list index_entry);
}.

Inductive store_signal :=
  | STORE_CHANGED (id : nat) (is_added : bool)
  | DEVICE_PROPERTY_CHANGED (id : nat) (key : string) (added removed : bool)
  | DEVICE_CAPABILITY_ADDED (id : nat) (capability : string)
  | DEVICE_LOCK_ACQUIRED (id : nat) (lock_name lock_owner : string)
  | DEVICE_LOCK_RELEASED (id : nat) (lock_name lock_owner : string).

Definition hal_device_store_new : HalDeviceStore := mk_store [] [] ∅.

Record world := mk_world { heap : gmap nat HalDevice; the_store : HalDeviceStore }.

Definition set_index (key : string) (idx : list index_entry) (st : HalDeviceStore) : HalDeviceStore :=
  mk_store (devices st) (handlers st) (<[key := idx]> (property_index st)).

Definition is_string (d : HalDevice) (key : string) : bool :=
  hal_device_property_get_type d key =t? HAL_PROPERTY_TYPE_STRING.

Section Store.
(** GLib's [g_str_hash]. *)
Context (g_str_hash : string -> Z).

(** ** The index *)
Definition dangling (v : string) (e : index_entry) : bool :=
  negb (ie_live e) && (g_str_hash (ie_value e) =? g_str_hash v).

Definition entry_of (v : string) (idx : list index_entry) : option index_entry :=
  snd <$> list_find (fun e => ie_value e = v) idx.

(** [g_hash_table_lookup (index, value)] *)
Definition index_lookup (idx : list index_entry) (v : string) : option (list nat) :=
  if existsb (dangling v) idx then None else Some (default [] (ie_devs <$> entry_of v idx)).

(** [g_hash_table_insert (index, value, devices)]: an entry that is there
    keeps its key. *)
Definition index_insert (v : string) (owner : nat) (devs : list nat) (idx : list index_entry)
  : list index_entry :=
  match entry_of v idx with
  | Some _ => map (fun e => if decide (ie_value e = v)
                            then mk_entry v (ie_owner e) (ie_live e) devs else e) idx
  | None => mk_entry v owner true devs :: idx
  end.

Definition property_index_modify_string (id : nat) (d : HalDevice) (key : string) (added : bool)
    (st : HalDeviceStore) : option HalDeviceStore :=
  match hal_device_property_get_string d key, property_index st !! key with
  | Some value, Some idx =>
      match index_lookup idx value with
      | Some devs =>
          let devs' := if added then id :: devs else filter (fun i => i <> id) devs in
          Some (set_index key (index_insert value id devs' idx) st)
      | None => None
      end
  | _, _ => Some st
  end.

Definition hal_device_store_index_property (key : string) (st : HalDeviceStore) : HalDeviceStore :=
  match property_index st !! key with
  | Some _ => st
  | None => set_index key [] st
  end.

Definition check_one (id : nat) (d : HalDevice) (added : bool) (key : string)
    (st : option HalDeviceStore) : option HalDeviceStore :=
  match st with
  | Some st => if is_string d key then property_index_modify_string id d key added st else Some st
  | None => None
  end.

Definition property_index_check_all (id : nat) (d : HalDevice) (added : bool) (st : HalDeviceStore)
  : option HalDeviceStore :=
  foldr (check_one id d added) (Some st) (elements (dom (property_index st))).

(** ** Signals of the devices *)
Definition device_pre_property_changed (id : nat) (d : HalDevice) (key : string)
    (st : HalDeviceStore) : option (HalDeviceStore * list store_signal) :=
  st' ← (if is_string d key then property_index_modify_string id d key false st else Some st);
  Some (st', []).

(** The parameters have the names of the source, which are swapped with
    respect to the signal. *)
Definition emit_device_property_changed (id : nat) (d : HalDevice) (key : string)
    (added removed : bool) (st : HalDeviceStore) : option (HalDeviceStore * list store_signal) :=
  st' ← (if is_string d key then property_index_modify_string id d key true st else Some st);
  Some (st', [DEVICE_PROPERTY_CHANGED id key added removed]).

Definition emit_device_capability_added (id : nat) (capability : string) (st : HalDeviceStore)
  : option (HalDeviceStore * list store_signal) :=
  Some (st, [DEVICE_CAPABILITY_ADDED id capability]).

Definition emit_device_lock_acquired (id : nat) (lock_name lock_owner : string)
    (st : HalDeviceStore) : option (HalDeviceStore * list store_signal) :=
  Some (st, [DEVICE_LOCK_ACQUIRED id lock_name lock_owner]).

Definition emit_device_lock_released (id : nat) (lock_name lock_owner : string)
    (st : HalDeviceStore) : option (HalDeviceStore * list store_signal) :=
  Some (st, [DEVICE_LOCK_RELEASED id lock_name lock_owner]).

(** One handler of one emission. *)
Definition handle (id : nat) (e : emission) (st : HalDeviceStore)
  : option (HalDeviceStore * list store_signal) :=
  match em_signal e with
  | PRE_PROPERTY_CHANGED key _ => device_pre_property_changed id (em_device e) key st
  | PROPERTY_CHANGED key a b => emit_device_property_changed id (em_device e) key a b st
  | CAPABILITY_ADDED c => emit_device_capability_added id c st
  | LOCK_ACQUIRED n o => emit_device_lock_acquired id n o st
  | LOCK_RELEASED n o => emit_device_lock_released id n o st
  end.

(** All connected handlers of one emission. *)
Fixpoint handle_all (connected : list nat) (id : nat) (e : emission) (st : HalDeviceStore)
  : option (HalDeviceStore * list store_signal) :=
  match connected with
  | [] => Some (st, [])
  | i :: rest =>
      if decide (i = id) then
        '(st1, t1) ← handle id e st;
        '(st2, t2) ← handle_all rest id e st1;
        Some (st2, t1 ++ t2)
      else handle_all rest id e st
  end.

(** The strings freed after an emission. *)
Definition forget_where (dead : index_entry -> bool) (idx : list index_entry) : list index_entry :=
  map (fun e => if dead e then mk_entry (ie_value e) (ie_owner e) false (ie_devs e) else e) idx.

Definition freed_after (id : nat) (e : emission) (st : HalDeviceStore) : HalDeviceStore :=
  match em_signal e with
  | PRE_PROPERTY_CHANGED key _ =>
      mk_store (devices st) (handlers st)
        (alter (forget_where (fun e => bool_decide (ie_owner e = id))) key (property_index st))
  | _ => st
  end.

Fixpoint run_trace (id : nat) (t : list emission) (st : HalDeviceStore)
  : option (HalDeviceStore * list store_signal) :=
  match t with
  | [] => Some (st, [])
  | e :: t' =>
      '(st1, s1) ← handle_all (handlers st) id e st;
      '(st2, s2) ← run_trace id t' (freed_after id e st1);
      Some (st2, s1 ++ s2)
  end.

(** An operation on a device of the heap. *)
Definition device_op {A} (id : nat) (m : dev A) (w : world) : option (world * list store_signal) :=
  match heap w !! id with
  | Some d =>
      let r := m d in
      '(st, s) ← run_trace id (trace r) (the_store w);
      Some (mk_world (<[id := dev_of r]> (heap w)) st, s)
  | None => Some (w, [])
  end.

(** ** Adding and removing devices *)
Definition UDI_PREFIX : string := "/org/freedesktop/Hal/devices/".

Definition hal_device_store_add (id : nat) (w : world) : option (world * list store_signal) :=
  match heap w !! id with
  | Some d =>
      if negb (has_prefix (udi d) UDI_PREFIX) then Some (w, [])
      else
        let st := the_store w in
        let st1 := mk_store (id :: devices st) (handlers st ++ [id]) (property_index st) in
        st2 ← property_index_check_all id d true st1;
        Some (mk_world (heap w) st2, [STORE_CHANGED id true])
  | None => Some (w, [])
  end.

(** [g_slist_remove] *)
Fixpoint slist_remove (id : nat) (l : list nat) : list nat :=
  match l with
  | [] => []
  | x :: l' => if decide (x = id) then l' else x :: slist_remove id l'
  end.

Definition hal_device_store_remove (id : nat) (w : world)
  : option (bool * world * list store_signal) :=
  let st := the_store w in
  match heap w !! id with
  | Some d =>
      if negb (bool_decide (id ∈ devices st)) then Some (false, w, [])
      else
        let st1 := mk_store (slist_remove id (devices st))
                            (filter (fun i => i <> id) (handlers st)) (property_index st) in
        st2 ← property_index_check_all id d false st1;
        Some (true, mk_world (heap w) st2, [STORE_CHANGED id false])
  | None => Some (false, w, [])
  end.

(** [hal_device_finalize]: the last reference is gone and every string of the
    device is freed. *)
Definition hal_device_finalize (id : nat) (w : world) : world :=
  mk_world (delete id (heap w))
    (mk_store (devices (the_store w)) (handlers (the_store w))
       (forget_where (fun e => bool_decide (ie_owner e = id)) <$> property_index (the_store w))).

(** ** Queries *)
Fixpoint find_device (p : HalDevice -> bool) (h : gmap nat HalDevice) (l : list nat) : option nat :=
  match l with
  | [] => None
  | id :: l' => match h !! id with
                | Some d => if p d then Some id else find_device p h l'
                | None => find_device p h l'
                end
  end.

Definition hal_device_store_find (w : world) (u : string) : option nat :=
  find_device (fun d => udi d =s? u) (heap w) (devices (the_store w)).

Definition has_string (key value : string) (d : HalDevice) : bool :=
  if negb (hal_device_has_property d key) then false
  else if negb (is_string d key) then false
  else match hal_device_property_get_string d key with
       | Some s => s =s? value
       | None => false
       end.

Definition has_int (key : string) (value : Z) (d : HalDevice) : bool :=
  if negb (hal_device_has_property d key) then false
  else if negb (hal_device_property_get_type d key =t? HAL_PROPERTY_TYPE_INT32) then false
  else hal_device_property_get_int d key =? value.

(** The outer option is [None] when the index reads freed memory. *)
Definition hal_device_store_match_key_value_string (w : world) (key value : string)
  : option (option nat) :=
  match property_index (the_store w) !! key with
  | Some idx => head <$> index_lookup idx value
  | None => Some (find_device (has_string key value) (heap w) (devices (the_store w)))
  end.

Definition hal_device_store_match_key_value_int (w : world) (key : string) (value : Z) : option nat :=
  find_device (has_int key value) (heap w) (devices (the_store w)).

Fixpoint collect (p : HalDevice -> bool) (h : gmap nat HalDevice) (l : list nat) (matches : list nat)
  : list nat :=
  match l with
  | [] => matches
  | id :: l' => collect p h l' (match h !! id with
                                | Some d => if p d then id :: matches else matches
                                | None => matches
                                end)
  end.

Definition hal_device_store_match_multiple_key_value_string (w : world) (key value : string)
  : option (list nat) :=
  match property_index (the_store w) !! key with
  | Some idx => index_lookup idx value
  | None => Some (collect (has_string key value) (heap w) (devices (the_store w)) [])
  end.

(** The callback returns FALSE to stop. *)
Fixpoint store_foreach {S} (callback : nat -> S -> bool * S) (l : list nat) (s : S) : S :=
  match l with
  | [] => s
  | id :: l' => let '(cont, s') := callback id s in
                if cont then store_foreach callback l' s' else s'
  end.
Definition hal_device_store_foreach {S} (w : world) (callback : nat -> S -> bool * S) (s : S) : S :=
  store_foreach callback (devices (the_store w)) s.

End Store.
