(* ===== verification/StoreTheory.v ===== *)
(** * The index of a device store agrees with its devices

    The world of [hald/device_store.c] as a state machine, and the invariant
    that an index, as long as it reads no freed key, lists for each value
    exactly the devices of the store that have it. *)

From Stdlib Require Import ZArith Lia Ascii SpecFloat.
From stdpp Require Import base list gmap strings option pretty relations.
From S2P Require Import Prelude CStd Property Device DeviceTheory Locks DeviceStore.

(** ** Disciplined changes of a device

    Sequences of announced writes, of other signals, and of changes that do
    not touch the properties. *)
Definition other_signal (s : signal) : bool :=
  match s with
  | PROPERTY_CHANGED _ _ _ | PRE_PROPERTY_CHANGED _ _ => false
  | _ => true
  end.

Inductive writes_to : HalDevice -> HalDevice -> list emission -> Prop :=
  | wt_refl d : writes_to d d []
  | wt_write key d d1 d2 t1 t2 :
      write key d d1 t1 -> writes_to d1 d2 t2 -> writes_to d d2 (t1 ++ t2)
  | wt_signal s d d2 t2 :
      other_signal s = true -> writes_to d d2 t2 -> writes_to d d2 (Emit s d :: t2)
  | wt_frame d d1 d2 t2 :
      props d1 = props d -> writes_to d1 d2 t2 -> writes_to d d2 t2
  | wt_silent key d d1 d2 t2 :
      silent_write key d d1 -> writes_to d1 d2 t2 -> writes_to d d2 t2
  | wt_announced key b q d d2 t2 :
      props d !! key = Some q -> hal_property_get_type q = HAL_PROPERTY_TYPE_STRLIST ->
      writes_to d d2 t2 -> writes_to d d2 (Emit (PROPERTY_CHANGED key false b) d :: t2).

Lemma writes_to_trans d d1 d2 t1 t2 :
  writes_to d d1 t1 -> writes_to d1 d2 t2 -> writes_to d d2 (t1 ++ t2).
Proof.
  induction 1 as [|key d d1 d3 t t' Hw _ IH|s d d3 t' Hs _ IH|d d1 d3 t' Hp _ IH|key d d1 d3 t' Hw _ IH|key b q d d3 t' Hq Ht _ IH];
    intros H2; simpl.
  - done.
  - rewrite <- app_assoc. eapply wt_write; eauto.
  - apply wt_signal; auto.
  - eapply wt_frame; eauto.
  - eapply wt_silent; eauto.
  - eapply wt_announced; eauto.
Qed.

Definition disciplined {A} (m : dev A) : Prop := forall d, writes_to d (dev_of (m d)) (trace (m d)).

Lemma disciplined_write {A} key (m : dev A) : writes key m -> disciplined m.
Proof.
  intros H d. rewrite <- (app_nil_r (trace (m d))). eapply wt_write; [apply H | apply wt_refl].
Qed.
Lemma disciplined_keeps {A} key (m : dev A) : keeps key m -> disciplined m.
Proof. intros H. by eapply disciplined_write, keeps_writes. Qed.
Lemma disciplined_ret {A} (a : A) : disciplined (dret a).
Proof. intros d. apply wt_refl. Qed.
Lemma disciplined_get {A} (f : HalDevice -> A) : disciplined (dget f).
Proof. intros d. apply wt_refl. Qed.
Lemma disciplined_emit s : other_signal s = true -> disciplined (g_signal_emit s).
Proof. intros H d. apply wt_signal; [done | apply wt_refl]. Qed.
Lemma disciplined_bind {A B} (m : dev A) (k : A -> dev B) :
  disciplined m -> (forall a, disciplined (k a)) -> disciplined (dbind m k).
Proof.
  intros Hm Hk d. rewrite dev_of_bind, trace_bind. eapply writes_to_trans; [apply Hm | apply Hk].
Qed.
#[export] Hint Resolve disciplined_ret disciplined_get disciplined_emit disciplined_bind : hal.

Section Disciplined.
Context {P : Platform}.

Lemma run_dop_disciplined o : disciplined (run_dop o).
Proof.
  destruct o; simpl;
    try (apply disciplined_bind; [|intros; apply disciplined_ret]);
    try (eapply disciplined_keeps; solve [eauto with hal]).
  - eapply disciplined_write. eauto with hal.
  - apply disciplined_bind; [eapply disciplined_keeps; eauto with hal|].
    intros []; [by apply disciplined_emit | apply disciplined_ret].
  - apply disciplined_bind.
    + intros d. eapply wt_frame; [|apply wt_refl]. done.
    + intros _. apply disciplined_bind; [|intros; apply disciplined_ret].
      eapply disciplined_keeps. eauto with hal.
  - intros d. eapply wt_frame; [|apply wt_refl]. done.
  - intros d. unfold hal_device_inc_num_ready_addons.
    destruct (hal_device_are_all_addons_ready d); (eapply wt_frame; [|apply wt_refl]; done).
  - intros d. destruct (append_silently key value d) as [W ->]. eapply wt_silent; [exact W | apply wt_refl].
  - intros d. destruct (clear_silently key d) as [W ->]. eapply wt_silent; [exact W | apply wt_refl].
  - intros d. destruct (finish_announces key is_added d) as [-> [->|[(q & Hq & Ht) ->]]]; [apply wt_refl|].
    eapply wt_announced; [exact Hq | exact Ht | apply wt_refl].
Qed.

Lemma run_dops_disciplined os : disciplined (run_dops os).
Proof.
  induction os as [|o os IH]; simpl; [apply disciplined_ret|].
  apply disciplined_bind; [apply run_dop_disciplined | done].
Qed.
End Disciplined.

Ltac disciplined_tac :=
  repeat match goal with
  | |- disciplined (dbind _ _) => apply disciplined_bind; [|intros]
  | |- disciplined (if ?b then _ else _) => destruct b
  | |- disciplined (dret _) => apply disciplined_ret
  | |- disciplined (dget _) => apply disciplined_get
  | |- disciplined (g_signal_emit _) => by apply disciplined_emit
  | |- disciplined _ =>
      first [ eapply disciplined_keeps; solve [eauto with hal]
            | eapply disciplined_write; solve [eauto with hal] ]
  end.

Lemma acquire_disciplined n ex s : disciplined (hal_device_acquire_lock n ex s).
Proof. pose (P := AsciiPlatform.platform). unfold hal_device_acquire_lock. disciplined_tac. Qed.

Lemma release_disciplined n s : disciplined (hal_device_release_lock n s).
Proof. pose (P := AsciiPlatform.platform). unfold hal_device_release_lock. disciplined_tac. Qed.

(** ** One index *)
Definition devs_of (idx : list index_entry) (v : string) : list nat :=
  default [] (ie_devs <$> entry_of v idx).

Record index_ok (idx : list index_entry) (has : nat -> string -> Prop) : Prop := {
  io_values : NoDup (ie_value <$> idx);
  io_nodup : forall v, NoDup (devs_of idx v);
  io_devs : forall v id, id ∈ devs_of idx v <-> has id v;
}.

Lemma entry_of_cons v e idx :
  entry_of v (e :: idx) = if decide (ie_value e = v) then Some e else entry_of v idx.
Proof.
  unfold entry_of. simpl. case_decide; [done|].
  by destruct (list_find _ idx) as [[]|].
Qed.

Lemma entry_of_None v idx : entry_of v idx = None <-> v ∉ ie_value <$> idx.
Proof.
  induction idx as [|e idx IH]; [set_solver|]. rewrite entry_of_cons. csimpl.
  case_decide; set_solver.
Qed.

Lemma map_entry_of (f : index_entry -> index_entry) v idx :
  (forall e, ie_value (f e) = ie_value e) -> entry_of v (map f idx) = f <$> entry_of v idx.
Proof.
  intros Hf. induction idx as [|e idx IH]; [done|]. cbn [map]. rewrite !entry_of_cons, Hf, IH.
  by case_decide.
Qed.

Lemma devs_of_insert v o devs idx v' :
  devs_of (index_insert v o devs idx) v' = if decide (v' = v) then devs else devs_of idx v'.
Proof.
  unfold index_insert, devs_of. destruct (entry_of v idx) as [e|] eqn:E.
  - rewrite map_entry_of by (intros e'; by case_decide).
    destruct (decide (v' = v)) as [->|Hne].
    + rewrite E. simpl. rewrite decide_True; [done|].
      revert E. clear. induction idx as [|e0 idx IH]; [done|]. rewrite entry_of_cons.
      case_decide; [by intros [= ->]|done].
    + destruct (entry_of v' idx) as [e'|] eqn:E'; [|done]. simpl. rewrite decide_False; [done|].
      revert E'. clear -Hne. induction idx as [|e0 idx IH]; [done|]. rewrite entry_of_cons.
      case_decide; [intros [= ->]; congruence|done].
  - rewrite entry_of_cons. simpl. repeat case_decide; (done || congruence).
Qed.

Lemma values_map (f : index_entry -> index_entry) idx :
  (forall e, ie_value (f e) = ie_value e) -> ie_value <$> map f idx = ie_value <$> idx.
Proof. intros Hf. induction idx as [|e idx IH]; [done|]. csimpl. by rewrite Hf, IH. Qed.

Lemma values_insert v o devs idx :
  NoDup (ie_value <$> idx) -> NoDup (ie_value <$> index_insert v o devs idx).
Proof.
  intros H. unfold index_insert. destruct (entry_of v idx) as [e|] eqn:E.
  - rewrite values_map; [done|]. intros e'. by case_decide.
  - csimpl. apply NoDup_cons. split; [by apply entry_of_None | done].
Qed.

Lemma forget_ok dead idx has : index_ok idx has -> index_ok (forget_where dead idx) has.
Proof.
  intros [H1 H2 H3].
  assert (forall v, devs_of (forget_where dead idx) v = devs_of idx v) as Hd.
  { intros v. unfold devs_of, forget_where. rewrite map_entry_of by (intros e; by destruct (dead e)).
    destruct (entry_of v idx) as [e|]; [|done]. simpl. by destruct (dead e). }
  split.
  - unfold forget_where. rewrite values_map; [done|]. intros e. by destruct (dead e).
  - intros v. by rewrite Hd.
  - intros v id. rewrite Hd. apply H3.
Qed.

Lemma index_ok_iff idx has has' :
  (forall id v, has id v <-> has' id v) -> index_ok idx has -> index_ok idx has'.
Proof. intros H [H1 H2 H3]. split; [done..|]. intros v id. by rewrite <- H. Qed.

(** ** All indexes of a store *)
Definition index_rep (st : HalDeviceStore) (has : string -> nat -> string -> Prop) : Prop :=
  forall key idx, property_index st !! key = Some idx -> index_ok idx (has key).

Definition same_lists (st st' : HalDeviceStore) : Prop :=
  devices st' = devices st /\ handlers st' = handlers st /\
  dom (property_index st') = dom (property_index st).

Section Index.
Context (g_str_hash : string -> Z).

Abbreviation modify_string := (property_index_modify_string g_str_hash).

Lemma modify_lists id d key added st st' :
  modify_string id d key added st = Some st' -> same_lists st st'.
Proof.
  unfold property_index_modify_string. intros H.
  destruct (hal_device_property_get_string d key) as [v|]; [|by simplify_eq].
  destruct (property_index st !! key) as [idx|] eqn:E; [|by simplify_eq].
  destruct (index_lookup _ idx v); simplify_eq/=. split; [done|]. split; [done|]. simpl.
  apply elem_of_dom_2 in E. rewrite dom_insert_L. set_solver.
Qed.

(** The effect of one update on what the indexes say. *)
Lemma modify_rep id d key v added st st' has :
  modify_string id d key added st = Some st' -> index_rep st has ->
  hal_device_property_get_string d key = Some v -> (added = true -> ~ has key id v) ->
  index_rep st' (fun k i x => if decide (k = key /\ i = id /\ x = v) then added = true
                              else has k i x).
Proof.
  intros H R Hv Ha k idx' Hk. unfold property_index_modify_string in H. rewrite Hv in H.
  destruct (property_index st !! key) as [idx|] eqn:E.
  - unfold index_lookup in H. destruct (existsb _ idx); [done|]. injection H as <-.
    simpl in Hk. rewrite lookup_insert in Hk. case_decide as Hkk.
    + subst k. injection Hk as <-. destruct (R key idx E) as [H1 H2 H3].
      fold (devs_of idx v). split.
      * by apply values_insert.
      * intros v'. rewrite devs_of_insert. case_decide as Hvv; [|apply H2]. subst.
        destruct added; [|apply NoDup_filter, H2].
        apply NoDup_cons. split; [|apply H2]. rewrite H3. by apply Ha.
      * intros v' i. rewrite devs_of_insert. destruct (decide (v' = v)) as [->|Hvv].
        -- destruct added.
           ++ rewrite elem_of_cons, H3. case_decide; naive_solver.
           ++ rewrite list_elem_of_filter, H3. case_decide; naive_solver.
        -- rewrite H3, decide_False; naive_solver.
    + eapply index_ok_iff; [|by apply (R k idx')]. intros i x. rewrite decide_False; naive_solver.
  - injection H as <-. assert (k <> key) by congruence.
    eapply index_ok_iff; [|by apply (R k idx')]. intros i x. rewrite decide_False; naive_solver.
Qed.

Lemma index_rep_iff st has has' :
  (forall k, k ∈ dom (property_index st) -> forall i v, has k i v <-> has' k i v) ->
  index_rep st has -> index_rep st has'.
Proof.
  intros H R k idx Hk. eapply index_ok_iff; [|by apply (R k)]. apply H. by eapply elem_of_dom_2.
Qed.

(** ** Handlers *)
Lemma handle_all_absent l id e st : id ∉ l -> handle_all g_str_hash l id e st = Some (st, []).
Proof.
  induction l as [|i l IH]; intros H; [done|]. apply not_elem_of_cons in H as [H1 H2]. simpl.
  rewrite decide_False by done. by apply IH.
Qed.

Lemma handle_all_once l id e st :
  NoDup l -> id ∈ l -> handle_all g_str_hash l id e st = handle g_str_hash id e st.
Proof.
  induction l as [|i l IH]; intros Hnd Hin; [by apply not_elem_of_nil in Hin|].
  apply NoDup_cons in Hnd as [Hi Hnd]. simpl. case_decide as Hd.
  - subst. destruct (handle _ id e st) as [[st1 t1]|]; [|done]. simpl.
    rewrite handle_all_absent by done. simpl. by rewrite app_nil_r.
  - apply IH; [done|]. by apply elem_of_cons in Hin as [->|].
Qed.

Lemma handle_lists id e st st' s :
  handle g_str_hash id e st = Some (st', s) -> same_lists st st'.
Proof.
  unfold handle, device_pre_property_changed, emit_device_property_changed,
    emit_device_capability_added, emit_device_lock_acquired, emit_device_lock_released.
  destruct (em_signal e) as [k a b| | | |k a]; intros H; simplify_eq/=; try done;
    destruct (is_string (em_device e) k);
    try (destruct (property_index_modify_string _ _ _ _ _ _) eqn:E; simplify_eq/=;
         by eapply modify_lists); by simplify_eq/=.
Qed.

(** Strings of a device. *)
Definition string_at (o : option HalDevice) (key v : string) : Prop :=
  exists d, o = Some d /\ hal_device_property_get_string d key = Some v.

Lemma is_string_get d key :
  is_string d key = match hal_device_property_get_string d key with Some _ => true | None => false end.
Proof.
  unfold is_string, hal_device_property_get_type, hal_device_property_get_string.
  by destruct (hal_device_property_find d key) as [[]|].
Qed.

(** What the indexes should say when device [id] is [d] and the others are
    given by [rest]. *)
Definition has_with (rest : string -> nat -> string -> Prop) (id : nat) (d : HalDevice)
    (k : string) (i : nat) (v : string) : Prop :=
  if decide (i = id) then hal_device_property_get_string d k = Some v else rest k i v.

Lemma get_string_ne d d' key k :
  (forall k, k <> key -> props d' !! k = props d !! k) -> k <> key ->
  hal_device_property_get_string d' k = hal_device_property_get_string d k.
Proof.
  intros H Hk. unfold hal_device_property_get_string, hal_device_property_find. by rewrite H.
Qed.

(** A device that is connected: the two handlers. *)
Lemma pre_rep rest id d key r st st' s :
  handle g_str_hash id (Emit (PRE_PROPERTY_CHANGED key r) d) st = Some (st', s) ->
  index_rep st (has_with rest id d) ->
  index_rep st' (fun k i v => ~ (k = key /\ i = id) /\ has_with rest id d k i v).
Proof.
  unfold handle, device_pre_property_changed. simpl. rewrite is_string_get. intros H R.
  destruct (hal_device_property_get_string d key) as [v|] eqn:Ev.
  - destruct (property_index_modify_string _ id d key false st) eqn:E; simplify_eq/=.
    eapply index_rep_iff; [|by eapply modify_rep]. intros k _ i x. unfold has_with.
    repeat case_decide; naive_solver.
  - simplify_eq/=. eapply index_rep_iff; [|done]. intros k _ i x. unfold has_with.
    case_decide; naive_solver.
Qed.

Lemma changed_rep rest id d key a b st st' s :
  handle g_str_hash id (Emit (PROPERTY_CHANGED key a b) d) st = Some (st', s) ->
  index_rep st (fun k i v => ~ (k = key /\ i = id) /\ has_with rest id d k i v) ->
  index_rep st' (has_with rest id d).
Proof.
  unfold handle, emit_device_property_changed. simpl. rewrite is_string_get. intros H R.
  destruct (hal_device_property_get_string d key) as [v|] eqn:Ev.
  - destruct (property_index_modify_string _ id d key true st) eqn:E; simplify_eq/=.
    eapply index_rep_iff; [|eapply modify_rep; [done|done|done|naive_solver]].
    intros k _ i x. unfold has_with. repeat case_decide; naive_solver.
  - simplify_eq/=. eapply index_rep_iff; [|done]. intros k _ i x. unfold has_with.
    case_decide; naive_solver.
Qed.

Lemma freed_rep id e st has : index_rep st has -> index_rep (freed_after id e st) has.
Proof.
  intros R. unfold freed_after. destruct (em_signal e) as [| | | |key r]; try done.
  intros k idx. simpl. rewrite lookup_alter. case_decide as Hd; [|apply R]. subst.
  destruct (property_index st !! k) as [idx0|] eqn:E; simpl; [|done]. intros [= <-].
  by apply forget_ok, R.
Qed.

Lemma freed_lists id e st : same_lists st (freed_after id e st).
Proof.
  unfold freed_after. destruct (em_signal e) as [| | | |key r]; try done.
  split; [done|]. split; [done|]. simpl. apply dom_alter_L.
Qed.

Lemma same_lists_trans st1 st2 st3 :
  same_lists st1 st2 -> same_lists st2 st3 -> same_lists st1 st3.
Proof. unfold same_lists. intros (?&?&?) (?&?&?). repeat split; congruence. Qed.

Lemma run_trace_app id t1 t2 st :
  run_trace g_str_hash id (t1 ++ t2) st =
  ('(st1, s1) ← run_trace g_str_hash id t1 st;
   '(st2, s2) ← run_trace g_str_hash id t2 st1; Some (st2, s1 ++ s2)).
Proof.
  revert st. induction t1 as [|e t1 IH]; intros st; simpl.
  - by destruct (run_trace _ id t2 st) as [[]|].
  - destruct (handle_all _ _ id e st) as [[st1 s1]|]; [|done]. simpl. rewrite IH.
    destruct (run_trace _ id t1 _) as [[st2 s2]|]; [|done]. simpl.
    destruct (run_trace _ id t2 st2) as [[st3 s3]|]; [|done]. simpl. by rewrite app_assoc.
Qed.

Lemma run_trace_absent id t st st' s has :
  id ∉ handlers st -> run_trace g_str_hash id t st = Some (st', s) -> index_rep st has ->
  index_rep st' has /\ same_lists st st'.
Proof.
  revert st s. induction t as [|e t IH]; intros st s Hid H R; simpl in H; [by simplify_eq|].
  rewrite handle_all_absent in H by done. simpl in H.
  destruct (run_trace _ id t _) as [[st2 s2]|] eqn:E; simplify_eq/=.
  pose proof (freed_lists id e st) as Hl. destruct Hl as (H1 & H2 & H3).
  destruct (IH _ _ ltac:(by rewrite H2) E (freed_rep id e st has R)) as [R2 L2].
  split; [done|]. by eapply same_lists_trans.
Qed.

(** One emission with its handler. *)
Lemma run_trace_cons id e t st st' s :
  NoDup (handlers st) -> id ∈ handlers st ->
  run_trace g_str_hash id (e :: t) st = Some (st', s) ->
  exists st1 s1 s2, handle g_str_hash id e st = Some (st1, s1) /\
    run_trace g_str_hash id t (freed_after id e st1) = Some (st', s2) /\
    same_lists st (freed_after id e st1).
Proof.
  intros Hnd Hid H. simpl in H. rewrite handle_all_once in H by done.
  destruct (handle _ id e st) as [[st1 s1]|] eqn:E; [|done]. simpl in H.
  destruct (run_trace _ id t _) as [[st2 s2]|] eqn:E2; simplify_eq/=.
  exists st1, s1, s2. split; [done|]. split; [done|].
  eapply same_lists_trans; [by eapply handle_lists | apply freed_lists].
Qed.

Lemma has_with_frame rest id d d' key :
  (forall k, k <> key -> props d' !! k = props d !! k) ->
  forall k i v, ~ (k = key /\ i = id) -> has_with rest id d' k i v <-> has_with rest id d k i v.
Proof.
  intros H k i v Hn. unfold has_with. case_decide; [|done].
  rewrite (get_string_ne d d' key k); naive_solver.
Qed.

Lemma has_with_other rest id d key :
  hal_device_property_get_string d key = None ->
  forall k i v, (~ (k = key /\ i = id) /\ has_with rest id d k i v) <-> has_with rest id d k i v.
Proof. intros H k i v. unfold has_with. case_decide; naive_solver. Qed.

Lemma get_string_of d key p :
  props d !! key = p ->
  hal_device_property_get_string d key = (q ← p; hal_property_get_string q).
Proof.
  intros <-. unfold hal_device_property_get_string, hal_device_property_find.
  by destruct (props d !! key).
Qed.

Lemma not_string p : hal_property_get_type p <> HAL_PROPERTY_TYPE_STRING -> hal_property_get_string p = None.
Proof. by destruct p. Qed.

(** The change handler on its own, when the key had no string before. *)
Lemma changed_only rest id d d' key a b st st' s :
  (forall k, k <> key -> props d' !! k = props d !! k) ->
  hal_device_property_get_string d key = None ->
  handle g_str_hash id (Emit (PROPERTY_CHANGED key a b) d') st = Some (st', s) ->
  index_rep st (has_with rest id d) -> index_rep st' (has_with rest id d').
Proof.
  intros Hf Hn H R. eapply changed_rep; [done|]. eapply index_rep_iff; [|apply R].
  intros k _ i v. rewrite <- (has_with_other rest id d key Hn k i v).
  pose proof (has_with_frame rest id d d' key Hf k i v). tauto.
Qed.

Lemma write_rep rest id key d d' t st st' s :
  write key d d' t -> NoDup (handlers st) -> id ∈ handlers st ->
  run_trace g_str_hash id t st = Some (st', s) ->
  index_rep st (has_with rest id d) ->
  index_rep st' (has_with rest id d') /\ same_lists st st'.
Proof.
  intros W Hnd Hid H R. pose proof (write_frame key d d' t W) as (_ & _ & _ & Hf).
  assert (forall a b, hal_device_property_get_string d key = None ->
    run_trace g_str_hash id [Emit (PROPERTY_CHANGED key a b) d'] st = Some (st', s) ->
    index_rep st' (has_with rest id d') /\ same_lists st st') as Hone.
  { intros a b Hn Ht. apply run_trace_cons in Ht as (st1 & s1 & s2 & H1 & H2 & L); [|done..].
    simpl in H2. simplify_eq. split; [|done]. by eapply changed_only. }
  assert (forall r a b, run_trace g_str_hash id [Emit (PRE_PROPERTY_CHANGED key r) d;
      Emit (PROPERTY_CHANGED key a b) d'] st = Some (st', s) ->
    index_rep st' (has_with rest id d') /\ same_lists st st') as Htwo.
  { intros r a b Ht. apply run_trace_cons in Ht as (st1 & s1 & s2 & H1 & H2 & L1); [|done..].
    apply run_trace_cons in H2 as (st2 & s3 & s4 & H3 & H4 & L2);
      [| by rewrite (proj1 (proj2 L1)) ..].
    simpl in H4. simplify_eq. split; [|by eapply same_lists_trans].
    eapply changed_rep; [done|].
    apply pre_rep with (rest := rest) in H1; [|done].
    eapply index_rep_iff; [|by apply freed_rep]. intros k _ i v.
    pose proof (has_with_frame rest id d d' key Hf k i v). tauto. }
  destruct W as [|p d' H0 -> |q p d' H0 Hl Ht ->|q p d' H0 Ht ->|q d' H0 ->].
  - simpl in H. by simplify_eq.
  - eapply Hone; [|done]. by rewrite (get_string_of _ _ _ H0).
  - eapply Hone; [|done]. rewrite (get_string_of _ _ _ H0). simpl. apply not_string. by rewrite Hl.
  - by eapply Htwo.
  - by eapply Htwo.
Qed.

(** A silent edit of a list changes no string. *)
Lemma silent_string key d d' : silent_write key d d' ->
  forall k, hal_device_property_get_string d' k = hal_device_property_get_string d k.
Proof.
  intros [|l H] k; [done|]. unfold hal_device_property_get_string, hal_device_property_find, set_props. cbn [props].
  destruct (decide (k = key)) as [->|]; [|by rewrite lookup_insert_ne]. rewrite lookup_insert_eq.
  destruct (props d !! key) as [q|] eqn:E; [|done]. symmetry. apply not_string. by rewrite (H q eq_refl).
Qed.

Lemma writes_to_rep rest id d d' t st st' s :
  writes_to d d' t -> NoDup (handlers st) -> id ∈ handlers st ->
  run_trace g_str_hash id t st = Some (st', s) ->
  index_rep st (has_with rest id d) ->
  index_rep st' (has_with rest id d') /\ same_lists st st'.
Proof.
  intros W. revert st s.
  induction W as [d|key d d1 d2 t1 t2 Hw _ IH|sg d d2 t2 Hs _ IH|d d1 d2 t2 Hp _ IH|key d d1 d2 t2 Hw _ IH|key b q d d2 t2 Hq Ht _ IH];
    intros st s Hnd Hid H R.
  - simpl in H. by simplify_eq.
  - rewrite run_trace_app in H.
    destruct (run_trace _ id t1 st) as [[st1 s1]|] eqn:E1; [|done]. simpl in H.
    destruct (run_trace _ id t2 st1) as [[st2 s2]|] eqn:E2; simplify_eq/=.
    destruct (write_rep rest id key d d1 t1 st st1 s1) as [R1 L1]; [done..|].
    destruct (IH st1 s2) as [R2 L2]; [by rewrite (proj1 (proj2 L1))..|done|done|].
    split; [done|]. by eapply same_lists_trans.
  - apply run_trace_cons in H as (st1 & s1 & s2 & H1 & H2 & L); [|done..].
    destruct (IH _ _ ltac:(by rewrite (proj1 (proj2 L))) ltac:(by rewrite (proj1 (proj2 L))) H2)
      as [R2 L2]; [|split; [done | by eapply same_lists_trans]].
    apply freed_rep. destruct sg; try discriminate Hs; by injection H1 as <- _.
  - apply (IH st s); [done..|]. eapply index_rep_iff; [|apply R]. intros k _ i v.
    unfold has_with, hal_device_property_get_string, hal_device_property_find. by rewrite Hp.
  - apply (IH st s); [done..|]. eapply index_rep_iff; [|apply R]. intros k _ i v. unfold has_with. case_decide; [|done].
    by rewrite (silent_string key d d1 Hw k).
  - apply run_trace_cons in H as (st1 & s1 & s2 & H1 & H2 & L); [|done..].
    destruct (IH _ _ ltac:(by rewrite (proj1 (proj2 L))) ltac:(by rewrite (proj1 (proj2 L))) H2)
      as [R2 L2]; [|split; [done | by eapply same_lists_trans]].
    apply freed_rep. eapply (changed_only rest id d d key); [done | |exact H1 | exact R].
    rewrite (get_string_of _ _ _ Hq). simpl. apply not_string. by rewrite Ht.
Qed.

(** ** The world as a state machine *)
Definition has_in (w : world) (k : string) (i : nat) (v : string) : Prop :=
  i ∈ devices (the_store w) /\ string_at (heap w !! i) k v.

Record store_inv (w : world) : Prop := {
  si_devices : NoDup (devices (the_store w));
  si_handlers : handlers (the_store w) ≡ₚ devices (the_store w);
  si_heap : forall id, id ∈ devices (the_store w) -> is_Some (heap w !! id);
  si_index : index_rep (the_store w) (has_in w);
}.

(** A step is the creation of a device, a disciplined change of one, adding,
    removing and finalizing one, or the creation of an index. *)
Inductive step (w : world) : world -> Prop :=
  | step_new id d :
      heap w !! id = None -> step w (mk_world (<[id := d]> (heap w)) (the_store w))
  | step_op id d d' t st s :
      heap w !! id = Some d -> writes_to d d' t ->
      run_trace g_str_hash id t (the_store w) = Some (st, s) ->
      step w (mk_world (<[id := d']> (heap w)) st)
  | step_add id w' s :
      id ∉ devices (the_store w) -> hal_device_store_add g_str_hash id w = Some (w', s) -> step w w'
  | step_remove id b w' s :
      hal_device_store_remove g_str_hash id w = Some (b, w', s) -> step w w'
  | step_finalize id :
      id ∉ devices (the_store w) -> step w (hal_device_finalize id w)
  | step_index key :
      devices (the_store w) = [] ->
      step w (mk_world (heap w) (hal_device_store_index_property key (the_store w))).

Lemma device_op_step {A} id (m : dev A) w w' s :
  disciplined m -> is_Some (heap w !! id) -> device_op g_str_hash id m w = Some (w', s) -> step w w'.
Proof.
  intros Hm [d Hd] H. unfold device_op in H. rewrite Hd in H.
  destruct (run_trace _ id _ _) as [[st s']|] eqn:E; simplify_eq/=.
  eapply step_op; [done | apply (Hm d) | done].
Qed.

Lemma step_op_inv w id d d' t st s :
  heap w !! id = Some d -> writes_to d d' t ->
  run_trace g_str_hash id t (the_store w) = Some (st, s) ->
  store_inv w -> store_inv (mk_world (<[id := d']> (heap w)) st).
Proof.
  intros Hd W H [I1 I2 I3 I4].
  assert (NoDup (handlers (the_store w))) as Hnd by (by rewrite I2).
  assert (index_rep st (has_in (mk_world (<[id := d']> (heap w)) st)) /\ same_lists (the_store w) st)
    as [R L].
  { destruct (decide (id ∈ devices (the_store w))) as [Hid|Hid].
    - destruct (writes_to_rep (has_in w) id d d' t (the_store w) st s) as [R L]; [done|done| |done| |].
      + by rewrite I2.
      + eapply index_rep_iff; [|apply I4]. intros k _ i v. unfold has_with, has_in, string_at.
        case_decide; [subst; rewrite Hd|]; naive_solver.
      + split; [|done]. eapply index_rep_iff; [|apply R]. intros k _ i v.
        unfold has_with, has_in, string_at. simpl. rewrite (proj1 L), lookup_insert.
        case_decide; case_decide; naive_solver.
    - destruct (run_trace_absent id t (the_store w) st s (has_in w)) as [R L]; [|done|done|].
      + by rewrite I2.
      + split; [|done]. eapply index_rep_iff; [|apply R]. intros k _ i v.
        unfold has_in, string_at. simpl. rewrite (proj1 L), lookup_insert.
        case_decide; naive_solver. }
  destruct L as (L1 & L2 & L3). split; simpl; rewrite ?L1, ?L2; try done.
  intros i Hi. rewrite lookup_insert. case_decide; [eauto|]. by apply I3.
Qed.

(** Entering a device into all indexes, or taking it out of them. *)
Lemma check_keys_rep id d added ks st st' has :
  NoDup ks -> foldr (check_one g_str_hash id d added) (Some st) ks = Some st' ->
  index_rep st has ->
  (forall k v, has k id v -> added = false /\ hal_device_property_get_string d k = Some v) ->
  same_lists st st' /\
  index_rep st' (fun k i v => if decide (k ∈ ks /\ i = id)
    then added = true /\ hal_device_property_get_string d k = Some v else has k i v).
Proof.
  intros Hnd H R Hh. revert st' H. induction Hnd as [|key ks Hk _ IH]; intros st' H; simpl in H.
  - simplify_eq. split; [done|]. eapply index_rep_iff; [|apply R]. intros k _ i v.
    rewrite decide_False; [done|]. set_solver.
  - destruct (foldr _ _ ks) as [st1|] eqn:E; [|done]. simpl in H.
    destruct (IH st1 eq_refl) as [L1 R1]. rewrite is_string_get in H.
    destruct (hal_device_property_get_string d key) as [v|] eqn:Ev.
    + split; [eapply same_lists_trans; [done | by eapply modify_lists]|].
      eapply index_rep_iff; [|eapply modify_rep; [done | apply R1 | done |]].
      * intros k _ i x. simpl. destruct (decide (k = key /\ i = id /\ x = v)) as [(-> & -> & ->)|Hn].
        -- rewrite decide_True by set_solver. rewrite Ev. naive_solver.
        -- destruct (decide (k = key /\ i = id)) as [[-> ->]|Hki].
           ++ rewrite decide_False by naive_solver. rewrite decide_True by set_solver.
              split; [|naive_solver]. intros Hx. destruct (Hh key x Hx). naive_solver.
           ++ destruct (decide (k ∈ ks /\ i = id)) as [Hi|Hi].
              ** by rewrite decide_True by set_solver.
              ** by rewrite decide_False by set_solver.
      * intros ->. rewrite decide_False by set_solver. intros Hx. by destruct (Hh key v Hx).
    + simplify_eq. split; [done|]. eapply index_rep_iff; [|apply R1]. intros k _ i x. simpl.
      destruct (decide (k = key /\ i = id)) as [[-> ->]|Hki].
      * rewrite decide_False by naive_solver. rewrite decide_True by set_solver. rewrite Ev.
        split; [|naive_solver]. intros Hx. destruct (Hh key x Hx). congruence.
      * destruct (decide (k ∈ ks /\ i = id)) as [Hi|Hi].
        -- by rewrite decide_True by set_solver.
        -- by rewrite decide_False by set_solver.
Qed.

Lemma check_all_rep id d added st st' has :
  property_index_check_all g_str_hash id d added st = Some st' -> index_rep st has ->
  (forall k v, has k id v -> added = false /\ hal_device_property_get_string d k = Some v) ->
  same_lists st st' /\
  index_rep st' (fun k i v => if decide (i = id)
    then added = true /\ hal_device_property_get_string d k = Some v else has k i v).
Proof.
  intros H R Hh. destruct (check_keys_rep id d added _ st st' has (NoDup_elements _) H R Hh)
    as [L R']. split; [done|]. eapply index_rep_iff; [|apply R']. intros k Hk i v. simpl.
  rewrite (proj2 (proj2 L)) in Hk. repeat case_decide; set_solver.
Qed.

Lemma step_add_inv w id w' s :
  id ∉ devices (the_store w) -> hal_device_store_add g_str_hash id w = Some (w', s) ->
  store_inv w -> store_inv w'.
Proof.
  intros Hid H I. pose proof I as [I1 I2 I3 I4]. unfold hal_device_store_add in H.
  destruct (heap w !! id) as [d|] eqn:Hd; [|by simplify_eq].
  destruct (negb _); [by simplify_eq|].
  destruct (property_index_check_all _ id d true _) as [st2|] eqn:E; simplify_eq/=.
  apply check_all_rep with (has := has_in w) in E as [(L1 & L2 & _) R]; [|done|].
  - split; simpl; rewrite ?L1, ?L2; simpl.
    + by apply NoDup_cons.
    + rewrite I2. by rewrite Permutation_app_comm.
    + intros i [->|Hi]%elem_of_cons; [by rewrite Hd | by apply I3].
    + eapply index_rep_iff; [|apply R]. intros k _ i v. unfold has_in, string_at. simpl.
      rewrite L1. case_decide; set_solver.
  - intros k v [Hin _]. done.
Qed.

Lemma slist_remove_elem id i l : NoDup l -> i ∈ slist_remove id l <-> i ∈ l /\ i <> id.
Proof.
  induction 1 as [|x l Hx _ IH]; simpl; [set_solver|]. case_decide; subst; set_solver.
Qed.

Lemma slist_remove_nodup id l : NoDup l -> NoDup (slist_remove id l).
Proof.
  induction 1 as [|x l Hx Hnd IH]; simpl; [constructor|]. case_decide; [done|].
  apply NoDup_cons. split; [|done]. rewrite slist_remove_elem by done. tauto.
Qed.

Lemma step_remove_inv w id b w' s :
  hal_device_store_remove g_str_hash id w = Some (b, w', s) -> store_inv w -> store_inv w'.
Proof.
  intros H I. pose proof I as [I1 I2 I3 I4]. unfold hal_device_store_remove in H.
  destruct (heap w !! id) as [d|] eqn:Hd; [|by simplify_eq].
  case_bool_decide as Hid; simpl in H; [|by simplify_eq].
  destruct (property_index_check_all _ id d false _) as [st2|] eqn:E; simplify_eq/=.
  apply check_all_rep with (has := has_in w) in E as [(L1 & L2 & _) R]; [|done|].
  - split; simpl; rewrite ?L1, ?L2; simpl.
    + by apply slist_remove_nodup.
    + apply NoDup_Permutation; [apply NoDup_filter; by rewrite I2 | by apply slist_remove_nodup |].
      intros i. rewrite list_elem_of_filter, slist_remove_elem by done. rewrite I2. tauto.
    + intros i. rewrite slist_remove_elem by done. intros [Hi _]. by apply I3.
    + eapply index_rep_iff; [|apply R]. intros k _ i v. unfold has_in, string_at. simpl.
      rewrite L1. simpl. rewrite slist_remove_elem by done. case_decide; naive_solver.
  - intros k v (_ & d' & Hd' & Hv). simplify_eq. done.
Qed.

Lemma step_inv w w' : step w w' -> store_inv w -> store_inv w'.
Proof.
  destruct 1 as [id d Hn|id d d' t st s Hd W H|id w' s Hid H|id b w' s H|id Hid|key Hk]; intros I.
  - destruct I as [I1 I2 I3 I4]. split; simpl; try done.
    + intros i Hi. rewrite lookup_insert. case_decide; [eauto | by apply I3].
    + eapply index_rep_iff; [|apply I4]. intros k _ i v. unfold has_in, string_at. simpl.
      rewrite lookup_insert. case_decide; [|done]. subst. split; [|intros (Hi & _)].
      * intros (_ & d' & ? & _). congruence.
      * apply I3 in Hi as [? ?]. congruence.
  - by eapply step_op_inv.
  - by eapply step_add_inv.
  - by eapply step_remove_inv.
  - destruct I as [I1 I2 I3 I4]. split; simpl; try done.
    + intros i Hi. rewrite lookup_delete_ne by congruence. by apply I3.
    + intros k idx Hk. simpl in Hk. rewrite lookup_fmap in Hk.
      destruct (property_index (the_store w) !! k) as [idx0|] eqn:E; simplify_eq/=.
      apply forget_ok. eapply index_ok_iff; [|by apply I4]. intros i v.
      unfold has_in, string_at. simpl. rewrite lookup_delete. case_decide; [|done].
      subst. naive_solver.
  - destruct I as [I1 I2 I3 I4].
    assert (devices (hal_device_store_index_property key (the_store w)) = devices (the_store w) /\
            handlers (hal_device_store_index_property key (the_store w)) = handlers (the_store w))
      as [E1 E2]. { unfold hal_device_store_index_property. by case_match. }
    split; simpl; rewrite ?E1, ?E2; try done.
    intros k idx Hi. unfold has_in. simpl. rewrite E1.
    unfold hal_device_store_index_property in Hi. destruct (property_index (the_store w) !! key) eqn:E.
    + by apply (I4 k).
    + simpl in Hi. rewrite lookup_insert in Hi. case_decide; [|by apply (I4 k)]. simplify_eq.
      split; [constructor | intros v; constructor |]. intros v i. rewrite Hk.
      split; [by intros ?%not_elem_of_nil | by intros [?%not_elem_of_nil _]].
Qed.

Definition empty_world : world := mk_world ∅ hal_device_store_new.

Lemma empty_world_inv : store_inv empty_world.
Proof.
  split; simpl; [constructor | done | by intros ? ?%not_elem_of_nil |].
  intros k idx. simpl. by rewrite lookup_empty.
Qed.

Lemma steps_inv w w' : rtc step w w' -> store_inv w -> store_inv w'.
Proof. induction 1; eauto using step_inv. Qed.

Lemma reachable_inv w : rtc step empty_world w -> store_inv w.
Proof. intros H. eapply steps_inv; [done | apply empty_world_inv]. Qed.
End Index.
