(* ===== verification/StoreClaims.v ===== *)
(** * What device stores guarantee ([hald/device_store.c]) *)

From Stdlib Require Import ZArith Lia Ascii SpecFloat.
From stdpp Require Import base list gmap strings option pretty relations.
From S2P Require Import Prelude CStd Property Device DeviceTheory Locks DeviceStore StoreTheory.

(** ** Scans of the device list *)
Lemma has_string_spec key v d :
  has_string key v d = true <-> hal_device_property_get_string d key = Some v.
Proof.
  unfold has_string, hal_device_has_property. rewrite is_string_get.
  unfold hal_device_property_get_string.
  destruct (hal_device_property_find d key) as [[]|]; simpl; try naive_solver.
  rewrite bool_decide_eq_true. naive_solver.
Qed.

Lemma collect_acc p h l m : collect p h l m = collect p h l [] ++ m.
Proof.
  revert m. induction l as [|id l IH]; intros m; [done|]. simpl.
  destruct (h !! id) as [d|]; [destruct (p d)|]; [|done..].
  rewrite (IH (id :: m)), (IH [id]), <- app_assoc. done.
Qed.

Lemma collect_spec p h l id :
  id ∈ collect p h l [] <-> id ∈ l /\ exists d, h !! id = Some d /\ p d = true.
Proof.
  induction l as [|i l IH]; simpl; [set_solver|]. rewrite collect_acc, elem_of_app, IH, elem_of_cons.
  assert (id ∈ match h !! i with Some d => if p d then [i] else [] | None => [] end <->
          id = i /\ exists d, h !! i = Some d /\ p d = true) as ->.
  { destruct (h !! i) as [d|]; [destruct (p d) eqn:Ep|];
      rewrite ?list_elem_of_singleton, ?elem_of_nil.
    - split; [eauto | by intros [? _]].
    - split; [done|]. intros (_ & d0 & [= <-] & ?). congruence.
    - split; [done|]. by intros (_ & ? & ? & _). }
  naive_solver.
Qed.

Lemma collect_nodup p h l : NoDup l -> NoDup (collect p h l []).
Proof.
  induction 1 as [|i l Hi _ IH]; simpl; [constructor|]. rewrite collect_acc.
  apply NoDup_app. split; [done|]. split.
  - intros x Hx. apply collect_spec in Hx as [Hx _]. destruct (h !! i) as [d|]; [destruct (p d)|]; set_solver.
  - destruct (h !! i) as [d|]; [destruct (p d)|]; auto using NoDup_nil_2, NoDup_singleton.
Qed.

Section Claims.
Context (g_str_hash : string -> Z).
Abbreviation reachable := (rtc (step g_str_hash) empty_world).

(** C3 Asking an index gives the same devices as scanning the store and
    comparing each device's property, in every world the store reaches
    through adding, removing, changing and destroying devices (as long as the
    index reads no freed key). *)
Theorem index_agrees_with_the_scan w key value l :
  reachable w -> key ∈ dom (property_index (the_store w)) ->
  hal_device_store_match_multiple_key_value_string g_str_hash w key value = Some l ->
  l ≡ₚ collect (has_string key value) (heap w) (devices (the_store w)) [] /\
  hal_device_store_match_key_value_string g_str_hash w key value = Some (head l).
Proof.
  intros [I1 I2 I3 I4]%reachable_inv [idx Hk]%elem_of_dom H.
  unfold hal_device_store_match_multiple_key_value_string, hal_device_store_match_key_value_string in *.
  rewrite Hk in H |- *. rewrite H. split; [|done]. destruct (I4 key idx Hk) as [H1 H2 H3].
  unfold index_lookup in H. destruct (existsb _ idx); [done|]. injection H as <-.
  fold (devs_of idx value). apply NoDup_Permutation; [apply H2 | by apply collect_nodup |].
  intros id. rewrite H3, collect_spec. unfold has_in, string_at. setoid_rewrite has_string_spec.
  done.
Qed.

Lemma find_device_app p h l1 l2 :
  find_device p h (l1 ++ l2) = match find_device p h l1 with
                               | Some id => Some id
                               | None => find_device p h l2
                               end.
Proof.
  induction l1 as [|i l1 IH]; [done|]. simpl. rewrite IH.
  destruct (h !! i) as [d|]; [destruct (p d)|]; done.
Qed.

Lemma slist_remove_head id l : slist_remove id (id :: l) = l.
Proof. simpl. by rewrite decide_True. Qed.

Lemma check_all_lists id d added st st' :
  property_index_check_all g_str_hash id d added st = Some st' -> same_lists st st'.
Proof.
  unfold property_index_check_all. revert st'.
  induction (elements (dom (property_index st))) as [|k ks IH]; intros st' E; simpl in E;
    [by simplify_eq|].
  destruct (foldr _ _ ks) as [st1|]; [|done]. simpl in E. specialize (IH st1 eq_refl).
  destruct (is_string d k); [|by simplify_eq].
  eapply same_lists_trans; [done | by eapply modify_lists].
Qed.

(** A device is entered under its UDI: a UDI outside
    "/org/freedesktop/Hal/devices/" is refused and nothing happens; otherwise
    the device is found under its UDI (in front of any older one), every
    other UDI finds what it found before, and "store_changed" is emitted. *)
Lemma add_enters_under_the_udi id d w w' s :
  heap w !! id = Some d -> hal_device_store_add g_str_hash id w = Some (w', s) ->
  if has_prefix (udi d) UDI_PREFIX
  then hal_device_store_find w' (udi d) = Some id /\
       (forall u, u <> udi d -> hal_device_store_find w' u = hal_device_store_find w u) /\
       s = [STORE_CHANGED id true]
  else w' = w /\ s = [].
Proof.
  intros Hd H. unfold hal_device_store_add in H. rewrite Hd in H.
  destruct (has_prefix (udi d) UDI_PREFIX); simpl in H; [|by simplify_eq].
  destruct (property_index_check_all _ id d true _) as [st2|] eqn:E; simplify_eq/=.
  assert (devices st2 = id :: devices (the_store w)) as Edev.
  { by rewrite (proj1 (check_all_lists _ _ _ _ _ E)). }
  unfold hal_device_store_find. simpl. rewrite Edev. simpl. rewrite Hd. split; [|split; [|done]].
  - by rewrite bool_decide_eq_true_2.
  - intros u Hu. by rewrite bool_decide_eq_false_2.
Qed.

(** ** Freed keys *)
Definition all_live (st : HalDeviceStore) : Prop :=
  map_Forall (fun _ idx => Forall (fun e => ie_live e = true) idx) (property_index st).

Lemma lookup_live idx v :
  Forall (fun e => ie_live e = true) idx -> index_lookup g_str_hash idx v = Some (devs_of idx v).
Proof.
  intros H. unfold index_lookup.
  assert (existsb (dangling g_str_hash v) idx = false) as ->; [|done].
  induction H as [|e idx He _ IH]; [done|]. simpl. rewrite IH. unfold dangling. by rewrite He.
Qed.

Lemma insert_live v o devs idx :
  Forall (fun e => ie_live e = true) idx ->
  Forall (fun e => ie_live e = true) (index_insert v o devs idx).
Proof.
  intros H. unfold index_insert. destruct (entry_of v idx); [|by constructor].
  apply Forall_map. eapply Forall_impl; [done|]. intros e He. by case_decide.
Qed.

Lemma modify_live id d key added st :
  all_live st -> exists st', property_index_modify_string g_str_hash id d key added st = Some st' /\
                             all_live st'.
Proof.
  intros H. unfold property_index_modify_string.
  destruct (hal_device_property_get_string d key) as [v|]; [|eauto].
  destruct (property_index st !! key) as [idx|] eqn:E; [|eauto].
  pose proof (H key idx E) as Hl. simpl in Hl. rewrite lookup_live by done. eexists. split; [done|].
  apply map_Forall_insert_2; [by apply insert_live | done].
Qed.

Lemma check_all_live id d added st :
  all_live st -> exists st', property_index_check_all g_str_hash id d added st = Some st' /\
                             all_live st'.
Proof.
  intros H. unfold property_index_check_all.
  induction (elements (dom (property_index st))) as [|k ks (st1 & E & H1)]; simpl; [eauto|].
  rewrite E. simpl. destruct (is_string d k); [by apply modify_live | eauto].
Qed.

(** The index is sound as long as no indexed string was freed: in such a
    store adding and removing devices and asking any index never reads a
    freed key, and adding and removing free nothing. *)
Lemma index_is_safe_until_a_string_is_freed w id key value :
  all_live (the_store w) ->
  (exists w1 s, hal_device_store_add g_str_hash id w = Some (w1, s) /\ all_live (the_store w1)) /\
  (exists b w2 s, hal_device_store_remove g_str_hash id w = Some (b, w2, s) /\ all_live (the_store w2)) /\
  is_Some (hal_device_store_match_key_value_string g_str_hash w key value).
Proof.
  intros H. split; [|split].
  - unfold hal_device_store_add. destruct (heap w !! id) as [d|]; [|eauto].
    destruct (negb _); [eauto|].
    destruct (check_all_live id d true (mk_store (id :: devices (the_store w))
      (handlers (the_store w) ++ [id]) (property_index (the_store w)))) as (st' & E & H'); [done|].
    rewrite E. simpl. eauto.
  - unfold hal_device_store_remove. destruct (heap w !! id) as [d|]; [|eauto 6].
    destruct (negb _); [eauto 6|].
    destruct (check_all_live id d false (mk_store (slist_remove id (devices (the_store w)))
      (filter (fun i => i <> id) (handlers (the_store w))) (property_index (the_store w))))
      as (st' & E & H'); [done|]. rewrite E. simpl. eauto 6.
  - unfold hal_device_store_match_key_value_string.
    destruct (property_index (the_store w) !! key) as [idx|] eqn:E; [|eauto].
    rewrite lookup_live; [simpl; eauto|]. by apply (H key).
Qed.

Lemma check_all_single id d added key ds hs idx v :
  hal_device_property_get_string d key = Some v ->
  property_index_check_all g_str_hash id d added (mk_store ds hs {[key := idx]})
  = property_index_modify_string g_str_hash id d key added (mk_store ds hs {[key := idx]}).
Proof.
  intros Hv. unfold property_index_check_all. simpl. rewrite dom_singleton_L, elements_singleton.
  simpl. by rewrite is_string_get, Hv.
Qed.

Lemma modify_single id d added key ds hs idx v devs :
  hal_device_property_get_string d key = Some v -> index_lookup g_str_hash idx v = Some devs ->
  property_index_modify_string g_str_hash id d key added (mk_store ds hs {[key := idx]})
  = Some (mk_store ds hs {[key := index_insert v id
      (if added then id :: devs else filter (fun i => i <> id) devs) idx]}).
Proof.
  intros Hv Hl. unfold property_index_modify_string. simpl. rewrite Hv, lookup_singleton_eq, Hl.
  unfold set_index. simpl. by rewrite insert_singleton_eq.
Qed.

(** Unplugging a device and plugging it in again reads freed memory: the
    key of the index entry is the string of the device that was destroyed, and
    entering a device with an equal value compares with it. *)
Lemma replugged_device_reads_a_freed_key d key v :
  has_prefix (udi d) UDI_PREFIX = true -> hal_device_property_get_string d key = Some v ->
  let w0 := mk_world {[1%nat := d]} (hal_device_store_index_property key hal_device_store_new) in
  exists w1 s1 w2 s2,
    hal_device_store_add g_str_hash 1 w0 = Some (w1, s1) /\
    hal_device_store_remove g_str_hash 1 w1 = Some (true, w2, s2) /\
    let w3 := hal_device_finalize 1 w2 in
    hal_device_store_add g_str_hash 2 (mk_world (<[2%nat := d]> (heap w3)) (the_store w3)) = None.
Proof.
  intros Hu Hv w0. unfold hal_device_store_add at 1. unfold w0 at 1. simpl.
  rewrite lookup_singleton_eq, Hu. simpl.
  unfold hal_device_store_index_property. simpl. rewrite lookup_empty. unfold set_index. simpl.
  rewrite insert_empty.
  erewrite check_all_single, modify_single by done. simpl.
  do 4 eexists. split; [done|]. unfold hal_device_store_remove. simpl. rewrite lookup_singleton_eq.
  erewrite check_all_single by done.
  erewrite modify_single; [|done|]; [simpl; split; [done|]|].
  - unfold hal_device_store_add, hal_device_finalize. simpl.
    rewrite lookup_insert_eq, Hu. simpl. rewrite map_fmap_singleton.
    erewrite check_all_single by done. unfold property_index_modify_string. simpl.
    rewrite Hv, lookup_singleton_eq. unfold index_lookup, index_insert. simpl.
    rewrite !entry_of_cons. simpl. rewrite !decide_True by done. simpl.
    unfold dangling. simpl. by rewrite Z.eqb_refl.
  - unfold index_lookup, index_insert. simpl. unfold dangling. simpl. done.
Qed.
End Claims.

(** ** Instances *)
Definition usb_stick : HalDevice := mk_device "/org/freedesktop/Hal/devices/usb_device_1" 0 0
  {[ "linux.sysfs_path" := PString "/sys/devices/usb1/1-1"; "usb.speed" := PInt32 480 ]}.
Definition length_hash (s : string) : Z := Z.of_nat (String.length s).
Definition stick_world : world :=
  mk_world {[1%nat := usb_stick]}
    (mk_store [1%nat] [1%nat] {["linux.sysfs_path" := [mk_entry "/sys/devices/usb1/1-1" 1 true [1%nat]]]}).

Lemma index_agrees_with_the_scan_witness :
  [1%nat] ≡ₚ collect (has_string "linux.sysfs_path" "/sys/devices/usb1/1-1") (heap stick_world)
    (devices (the_store stick_world)) [].
Proof.
  apply (index_agrees_with_the_scan length_hash stick_world "linux.sysfs_path" "/sys/devices/usb1/1-1").
  - eapply rtc_l; [apply (step_index _ _ "linux.sysfs_path"); reflexivity|].
    eapply rtc_l; [apply (step_new _ _ 1%nat usb_stick); reflexivity|].
    eapply rtc_l; [eapply (step_add _ _ 1%nat); [set_solver | vm_compute; reflexivity]|].
    apply rtc_refl.
  - apply elem_of_dom. eexists. reflexivity.
  - vm_compute. reflexivity.
Defined.

Lemma add_enters_under_the_udi_witness :
  exists w' s, hal_device_store_add length_hash 2
      (mk_world (<[2%nat := usb_stick]> (heap stick_world)) (the_store stick_world)) = Some (w', s) /\
    hal_device_store_find w' (udi usb_stick) = Some 2%nat.
Proof.
  destruct (hal_device_store_add length_hash 2 (mk_world (<[2%nat := usb_stick]> (heap stick_world))
    (the_store stick_world))) as [[w' s]|] eqn:E; [|vm_compute in E; discriminate E].
  exists w', s. split; [reflexivity|].
  apply (add_enters_under_the_udi length_hash 2 usb_stick
    (mk_world (<[2%nat := usb_stick]> (heap stick_world)) (the_store stick_world)) w' s);
    [reflexivity | exact E].
Defined.

Lemma index_is_safe_until_a_string_is_freed_witness :
  is_Some (hal_device_store_match_key_value_string length_hash stick_world "linux.sysfs_path" "/sys").
Proof.
  apply (index_is_safe_until_a_string_is_freed length_hash stick_world 1 "linux.sysfs_path" "/sys").
  apply map_Forall_singleton. repeat constructor.
Defined.

Lemma replugged_device_reads_a_freed_key_witness :
  exists w1 s1, hal_device_store_add length_hash 1 (mk_world {[1%nat := usb_stick]}
    (hal_device_store_index_property "linux.sysfs_path" hal_device_store_new)) = Some (w1, s1).
Proof.
  destruct (replugged_device_reads_a_freed_key length_hash usb_stick "linux.sysfs_path"
    "/sys/devices/usb1/1-1") as (w1 & s1 & _ & _ & H & _); [reflexivity | reflexivity |].
  exists w1, s1. exact H.
Defined.
