(* ===== verification/FdiRules.v ===== *)
(** * Device information rules ([hald/rule.h], [hald/device_info.c])

    One rule of a device information file, applied to a device: resolving the
    key path, matching, merging.  The devices are those of the global and the
    temporary device list ([gdl], [tdl]); a device is named by a number.

    Results are options: [None] stands for reading or writing outside a
    buffer, which happens with strings of [HAL_PATH_MAX] bytes and more.  The
    stack buffers of [handle_merge] are not initialized; their contents are
    the parameter [stack].  The buffer that holds a key resolved from a path
    with a colon has left its scope when [handle_merge] reads the key; the
    model reads what was stored there. *)

From Stdlib Require Import ZArith Lia Ascii SpecFloat.
From stdpp Require Import base list gmap strings option pretty fin_maps.
From S2P Require Import Prelude CStd Property Device DeviceStore.

(** ** Rules *)
Inductive rule_type := RULE_UNKNOWN | RULE_MATCH | RULE_MERGE | RULE_APPEND | RULE_PREPEND
  | RULE_REMOVE | RULE_CLEAR | RULE_SPAWN | RULE_EOF | RULE_ADDSET.

Inductive merge_type := MERGE_UNKNOWN | MERGE_STRING | MERGE_BOOLEAN | MERGE_INT32 | MERGE_UINT64
  | MERGE_DOUBLE | MERGE_COPY_PROPERTY | MERGE_STRLIST | MERGE_REMOVE.

Inductive match_type := MATCH_UNKNOWN | MATCH_STRING | MATCH_INT | MATCH_UINT64 | MATCH_BOOL
  | MATCH_EXISTS | MATCH_EMPTY | MATCH_ISASCII | MATCH_IS_ABS_PATH | MATCH_CONTAINS
  | MATCH_CONTAINS_NCASE | MATCH_PREFIX | MATCH_PREFIX_NCASE | MATCH_SUFFIX | MATCH_SUFFIX_NCASE
  | MATCH_COMPARE_LT | MATCH_COMPARE_LE | MATCH_COMPARE_GT | MATCH_COMPARE_GE
  | MATCH_SIBLING_CONTAINS | MATCH_COMPARE_NE | MATCH_CONTAINS_NOT | MATCH_DOUBLE
  | MATCH_CONTAINS_OUTOF | MATCH_INT_OUTOF | MATCH_PREFIX_OUTOF | MATCH_STRING_OUTOF.

#[global] Instance rule_type_eq_dec : EqDecision rule_type.
Proof. solve_decision. Defined.
#[global] Instance merge_type_eq_dec : EqDecision merge_type.
Proof. solve_decision. Defined.
#[global] Instance match_type_eq_dec : EqDecision match_type.
Proof. solve_decision. Defined.

(** [value] is the string at [value_offset]. *)
Record rule := mk_rule {
  rule_size : Z;
  jump_position : Z;
  rtype : rule_type;
  type_match : match_type;
  type_merge : merge_type;
  value : string;
  key : string;
}.

(** ** The environment *)
Record env := mk_env {
  e_heap : gmap nat HalDevice;
  gdl : list nat;
  tdl : list nat;
  callouts : list nat;          (** devices whose add callouts are running *)
  temp_device_counter : Z;
  e_log : list (nat * emission);
}.

(** A lookup in the global list, then in the temporary one. *)
Definition env_find (e : env) (u : string) : option nat :=
  match find_device (fun d => udi d =s? u) (e_heap e) (gdl e) with
  | Some id => Some id
  | None => find_device (fun d => udi d =s? u) (e_heap e) (tdl e)
  end.

(** A computation on one device. *)
Definition on_device {A} (id : nat) (m : dev A) (e : env) : option (A * env) :=
  d ← e_heap e !! id;
  let r := m d in
  Some (res r, mk_env (<[id := dev_of r]> (e_heap e)) (gdl e) (tdl e) (callouts e)
                      (temp_device_counter e) (e_log e ++ ((fun x => (id, x)) <$> trace r))).

Definition HAL_PATH_MAX : nat := 512.

(** ** How processing rules ends *)
Inductive fault :=
  | BufferOverrun   (** a string without terminator, or a write behind a buffer *)
  | RuleIsNull      (** [DIE (("Rule is NULL on jump"))] *)
  | NoRuleThere     (** the bytes at the position are not a rule *)
  | OutOfFuel.

Definition outcome (A : Type) : Type := (fault + A)%type.

Definition obind {A B} (m : outcome A) (k : A -> outcome B) : outcome B :=
  match m with inl f => inl f | inr a => k a end.
Notation "'let!' x := m 'in' k" := (obind m (fun x => k))
  (at level 10, x name, m at level 100, k at level 200) : hal_scope.

Definition defined {A} (o : option A) : outcome A :=
  match o with Some a => inr a | None => inl BufferOverrun end.

Section Rules.
Context {P : Platform} (stack : list ascii).

(** ** Key paths *)
Inductive resolved := Unresolved | Resolved (u prop : string).

Fixpoint resolve_tokens (e : env) (udi_result : string) (tokens : list string) : option resolved :=
  match tokens with
  | [] => Some Unresolved
  | curtoken :: rest =>
      match env_find e udi_result ≫= (fun id => e_heap e !! id) with
      | None => Some Unresolved
      | Some d =>
          match rest with
          | [] => prop ← strncpy HAL_PATH_MAX curtoken; Some (Resolved udi_result prop)
          | _ =>
              match curtoken with
              | String "@" udiprop =>
                  match hal_device_property_get_string d udiprop with
                  | None => Some Unresolved
                  | Some newudi => u ← strncpy HAL_PATH_MAX newudi; resolve_tokens e u rest
                  end
              | _ => u ← strncpy HAL_PATH_MAX curtoken; resolve_tokens e u rest
              end
          end
      end
  end.

Definition resolve_udiprop_path_old (e : env) (path source_udi : string) : option resolved :=
  let tokens := g_strsplit path ":" 64 in
  match tokens with
  | [] | [_] => u ← strncpy HAL_PATH_MAX source_udi; p ← strncpy HAL_PATH_MAX path; Some (Resolved u p)
  | _ => u ← strncpy HAL_PATH_MAX source_udi; resolve_tokens e u tokens
  end.

Definition resolve_udiprop_path (e : env) (path source_udi : string) : option resolved :=
  if negb (strchr path ":") then Some (Resolved source_udi path)
  else resolve_udiprop_path_old e path source_udi.

(** The device a resolved path names: the device at hand when the UDI is its
    own. *)
Definition resolved_device (e : env) (id : nat) (u : string) : option nat :=
  match e_heap e !! id with
  | Some d => if udi d =s? u then Some id else env_find e u
  | None => None
  end.

(** ** Matching *)
Definition match_compare_property (d : HalDevice) (key right_side : string) : option Z :=
  if negb (hal_device_has_property d key) then None
  else match hal_device_property_get_type d key with
       | HAL_PROPERTY_TYPE_STRING =>
           Some (match hal_device_property_get_string d key with
                 | Some s => strcmp s right_side
                 | None => 0
                 end)
       | HAL_PROPERTY_TYPE_INT32 =>
           Some (s64 (hal_device_property_get_int d key - strtoll right_side))
       | HAL_PROPERTY_TYPE_UINT64 =>
           Some (s64 (s64 (hal_device_property_get_uint64 d key) - strtoll right_side))
       | HAL_PROPERTY_TYPE_DOUBLE =>
           Some (ceil_int64 (dbl_sub (hal_device_property_get_double d key) (atof right_side)))
       | _ => None
       end.

Definition is_type (d : HalDevice) (prop : string) (t : prop_type) : bool :=
  hal_device_property_get_type d prop =t? t.

(** A test of a string property; FALSE for a property of another type. *)
Definition on_string (d : HalDevice) (prop : string) (f : string -> bool) : bool :=
  if is_type d prop HAL_PROPERTY_TYPE_STRING then
    match hal_device_property_get_string d prop with Some s => f s | None => false end
  else false.

Fixpoint is_ascii (s : string) : bool :=
  match s with
  | EmptyString => true
  | String c s' => (char_code c <=? 127) && is_ascii s'
  end.

(** [is_x == should_be_x] of the tests with a boolean value. *)
Definition as_wanted (is_so : bool) (value : string) : bool :=
  if value =s? "false" then negb is_so else is_so.

Definition contains (d : HalDevice) (prop value : string) : option bool :=
  if hal_device_has_property d prop then
    if is_type d prop HAL_PROPERTY_TYPE_STRING
    then Some (on_string d prop (fun s => strstr s value))
    else if is_type d prop HAL_PROPERTY_TYPE_STRLIST
    then Some (existsb (fun s => s =s? value) (hal_device_property_get_strlist d prop))
    else None
  else Some false.

Definition outof_test (t : match_type) (haystack v : string) : bool :=
  match t with
  | MATCH_CONTAINS_OUTOF => strstr haystack v
  | MATCH_PREFIX_OUTOF => has_prefix haystack v
  | MATCH_STRING_OUTOF => haystack =s? v
  | _ => false
  end.

Definition sibling_matches (sib : HalDevice) (prop value : string) : bool :=
  if is_type sib prop HAL_PROPERTY_TYPE_STRING
  then on_string sib prop (fun s => strstr s value)
  else if is_type sib prop HAL_PROPERTY_TYPE_STRLIST
  then existsb (fun s => s =s? value) (hal_device_property_get_strlist sib prop)
  else false.

Definition sibling_contains (e : env) (id : nat) (d : HalDevice) (prop value : string) : bool :=
  match hal_device_property_get_string d "info.parent" with
  | None => false
  | Some parent =>
      existsb (fun i => negb (bool_decide (i = id)) &&
                        match e_heap e !! i with
                        | Some sib => sibling_matches sib prop value
                        | None => false
                        end)
        (collect (has_string "info.parent" parent) (e_heap e) (gdl e) [])
  end.

Definition compare_test (t : match_type) (r : Z) : bool :=
  match t with
  | MATCH_COMPARE_LT => r <? 0
  | MATCH_COMPARE_LE => r <=? 0
  | MATCH_COMPARE_GT => 0 <? r
  | MATCH_COMPARE_GE => 0 <=? r
  | MATCH_COMPARE_NE => negb (r =? 0)
  | _ => false
  end.

(** The switch of [handle_match], on the device the path names. *)
Definition match_device (e : env) (id : nat) (d : HalDevice) (t : match_type)
    (prop value : string) : bool :=
  match t with
  | MATCH_STRING => on_string d prop (fun s => s =s? value)
  | MATCH_INT =>
      is_type d prop HAL_PROPERTY_TYPE_INT32 &&
      (hal_device_property_get_int d prop =? s32 (strtoll value))
  | MATCH_UINT64 =>
      is_type d prop HAL_PROPERTY_TYPE_UINT64 &&
      (hal_device_property_get_uint64 d prop =? u64 (strtoll value))
  | MATCH_BOOL =>
      if value =s? "false" then
        is_type d prop HAL_PROPERTY_TYPE_BOOLEAN && negb (hal_device_property_get_bool d prop)
      else if value =s? "true" then
        is_type d prop HAL_PROPERTY_TYPE_BOOLEAN && hal_device_property_get_bool d prop
      else false
  | MATCH_DOUBLE =>
      is_type d prop HAL_PROPERTY_TYPE_DOUBLE &&
      dbl_eqb (hal_device_property_get_double d prop) (atof value)
  | MATCH_EXISTS => as_wanted (hal_device_has_property d prop) value
  | MATCH_EMPTY => on_string d prop (fun s => as_wanted (s =s? "") value)
  | MATCH_ISASCII => on_string d prop (fun s => as_wanted (is_ascii s) value)
  | MATCH_IS_ABS_PATH => on_string d prop (fun s => as_wanted (g_path_is_absolute s) value)
  | MATCH_CONTAINS => default false (contains d prop value)
  | MATCH_CONTAINS_NOT => default false (negb <$> contains d prop value)
  | MATCH_CONTAINS_OUTOF | MATCH_PREFIX_OUTOF | MATCH_STRING_OUTOF =>
      on_string d prop (fun s => existsb (outof_test t s) (g_strsplit value ";" 0))
  | MATCH_INT_OUTOF =>
      is_type d prop HAL_PROPERTY_TYPE_INT32 &&
      existsb (fun v => hal_device_property_get_int d prop =? strtoll v) (g_strsplit value ";" 0)
  | MATCH_SIBLING_CONTAINS => sibling_contains e id d prop value
  | MATCH_CONTAINS_NCASE =>
      if is_type d prop HAL_PROPERTY_TYPE_STRING
      then on_string d prop (fun s => strstr (g_utf8_strdown s) (g_utf8_strdown value))
      else if is_type d prop HAL_PROPERTY_TYPE_STRLIST
      then existsb (fun s => g_ascii_strcaseeq s value) (hal_device_property_get_strlist d prop)
      else false
  | MATCH_PREFIX => on_string d prop (fun s => has_prefix s value)
  | MATCH_PREFIX_NCASE => on_string d prop (fun s => has_prefix (g_utf8_strdown s) (g_utf8_strdown value))
  | MATCH_SUFFIX => on_string d prop (fun s => has_suffix s value)
  | MATCH_SUFFIX_NCASE => on_string d prop (fun s => has_suffix (g_utf8_strdown s) (g_utf8_strdown value))
  | MATCH_COMPARE_LT | MATCH_COMPARE_LE | MATCH_COMPARE_GT | MATCH_COMPARE_GE | MATCH_COMPARE_NE =>
      match match_compare_property d prop value with
      | Some r => compare_test t r
      | None => false
      end
  | MATCH_UNKNOWN => false
  end.

Definition handle_match (e : env) (r : rule) (id : nat) : option bool :=
  d ← e_heap e !! id;
  path ← resolve_udiprop_path e (key r) (udi d);
  match path with
  | Unresolved => Some false
  | Resolved u prop =>
      match resolved_device e id u with
      | None => Some false
      | Some id' =>
          d' ← e_heap e !! id';
          Some (match_device e id' d' (type_match r) prop (value r))
      end
  end.

(** ** Merging *)

(** The target of a merge: [Some None] when the path does not resolve. *)
Definition merge_target (e : env) (r : rule) (id : nat) : option (option (nat * string)) :=
  d ← e_heap e !! id;
  if bool_decide (rtype r = RULE_MERGE) || bool_decide (rtype r = RULE_APPEND) ||
     bool_decide (rtype r = RULE_PREPEND) || bool_decide (rtype r = RULE_ADDSET) then
    path ← resolve_udiprop_path e (key r) (udi d);
    match path with
    | Unresolved => Some None
    | Resolved u prop => Some ((fun id' => (id', prop)) <$> resolved_device e id u)
    end
  else Some (Some (id, key r)).

(** The source of [MERGE_COPY_PROPERTY]: the path in the value, relative to
    the target device. *)
Definition copy_source (e : env) (v : string) (d : HalDevice) : option (option (HalDevice * string)) :=
  path ← resolve_udiprop_path e v (udi d);
  match path with
  | Unresolved => Some None
  | Resolved u prop =>
      Some (id' ← env_find e u; (fun from => (from, prop)) <$> e_heap e !! id')
  end.

Definition merge_value (e : env) (r : rule) (id : nat) (k : string) : option env :=
  d ← e_heap e !! id;
  let v := value r in
  let run {A} (m : dev A) := snd <$> on_device id m e in
  match type_merge r with
  | MERGE_STRING => run (hal_device_property_set_string k (Some v))
  | MERGE_STRLIST =>
      if is_type d k HAL_PROPERTY_TYPE_STRLIST || is_type d k HAL_PROPERTY_TYPE_INVALID
      then run (hal_device_property_remove k ;;; hal_device_property_strlist_append k v false)
      else Some e
  | MERGE_INT32 => run (hal_device_property_set_int k (s32 (strtoll v)))
  | MERGE_UINT64 => run (hal_device_property_set_uint64 k (strtoull v))
  | MERGE_BOOLEAN => run (hal_device_property_set_bool k (v =s? "true"))
  | MERGE_DOUBLE => run (hal_device_property_set_double k (atof v))
  | MERGE_COPY_PROPERTY =>
      src ← copy_source e v d;
      match src with
      | Some (from, prop) => run (hal_device_copy_property from prop k)
      | None => Some e
      end
  | _ => Some e
  end.

(** The text that is appended or prepended: [buf] of the source. *)
Definition text_to_add (e : env) (r : rule) (d : HalDevice) : option string :=
  match type_merge r with
  | MERGE_STRING => strncpy HAL_PATH_MAX (value r)
  | MERGE_COPY_PROPERTY =>
      src ← copy_source e (value r) d;
      match src with
      | Some (from, prop) => cstr (hal_device_property_get_as_string from prop stack).2
      | None => cstr stack
      end
  | _ => cstr stack
  end.

(** [strncpy (buf2, a, sizeof (buf2)); strncat (buf2, b, sizeof (buf2) - strlen (buf2))]:
    the terminator of [strncat] is one more byte. *)
Definition concat_buf (a b : string) : option string :=
  a' ← strncpy HAL_PATH_MAX a;
  let b' := str_take (HAL_PATH_MAX - String.length a') b in
  if decide (String.length a' + String.length b' < HAL_PATH_MAX)%nat then Some (a' +:+ b') else None.

Definition merge_append (e : env) (r : rule) (id : nat) (k : string) : option (bool * env) :=
  d ← e_heap e !! id;
  if negb (is_type d k HAL_PROPERTY_TYPE_STRING) && negb (is_type d k HAL_PROPERTY_TYPE_STRLIST)
     && negb (is_type d k HAL_PROPERTY_TYPE_INVALID)
  then Some (false, e)
  else if bool_decide (type_merge r = MERGE_STRLIST) then
    (fun x => (true, snd x)) <$>
      (if bool_decide (rtype r = RULE_APPEND)
       then on_device id (hal_device_property_strlist_append k (value r) false) e
       else on_device id (hal_device_property_strlist_prepend k (value r)) e)
  else
    buf ← text_to_add e r d;
    buf2 ← match hal_device_property_get_string d k with
           | Some existing =>
               if bool_decide (rtype r = RULE_APPEND) then concat_buf existing buf
               else concat_buf buf existing
           | None => strncpy HAL_PATH_MAX buf
           end;
    (fun x => (true, snd x)) <$> on_device id (hal_device_property_set_string k (Some buf2)) e.

Definition merge_addset (e : env) (r : rule) (id : nat) (k : string) : option (bool * env) :=
  d ← e_heap e !! id;
  if negb (is_type d k HAL_PROPERTY_TYPE_STRLIST) && negb (is_type d k HAL_PROPERTY_TYPE_INVALID)
  then Some (false, e)
  else if negb (hal_device_has_property d k) ||
          negb (hal_device_property_strlist_contains d k (value r))
  then (fun x => (true, snd x)) <$> on_device id (hal_device_property_strlist_append k (value r) false) e
  else Some (true, e).

Definition merge_remove (e : env) (r : rule) (id : nat) (k : string) : option env :=
  if bool_decide (type_merge r = MERGE_STRLIST)
  then snd <$> on_device id (hal_device_property_strlist_remove k (value r)) e
  else if value r =s? "" then snd <$> on_device id (hal_device_property_remove k) e
  else Some e.

(** ** Spawning *)
Definition fresh_id (e : env) : nat := fresh (dom (e_heap e)).

Definition add_to_tdl (id : nat) (e : env) : env :=
  match e_heap e !! id with
  | Some d => if has_prefix (udi d) UDI_PREFIX
              then mk_env (e_heap e) (gdl e) (id :: tdl e) (callouts e) (temp_device_counter e) (e_log e)
              else e
  | None => e
  end.

Definition move_to_gdl (id : nat) (e : env) : env :=
  let tdl' := slist_remove id (tdl e) in
  match e_heap e !! id with
  | Some d => if has_prefix (udi d) UDI_PREFIX
              then mk_env (e_heap e) (id :: gdl e) tdl' (callouts e) (temp_device_counter e) (e_log e)
              else mk_env (e_heap e) (gdl e) tdl' (callouts e) (temp_device_counter e) (e_log e)
  | None => e
  end.

(** [spawned_device_callouts_add_done], the end of the add callouts. *)
Definition spawned_device_callouts_add_done (id : nat) (e : env) : env :=
  move_to_gdl id (mk_env (e_heap e) (gdl e) (tdl e) (filter (fun i => i <> id) (callouts e))
                         (temp_device_counter e) (e_log e)).

Definition hal_util_callout_device_add (id : nat) (e : env) : env :=
  match e_heap e !! id with
  | Some d =>
      match hal_device_property_dup_strlist_as_strv d "info.callouts.add" with
      | None => spawned_device_callouts_add_done id e
      | Some _ => mk_env (e_heap e) (gdl e) (tdl e) (id :: callouts e) (temp_device_counter e) (e_log e)
      end
  | None => e
  end.

(** The new device before its rules are applied. *)
Definition spawn_device (k : string) (parent : HalDevice) (e : env) : option (nat * env) :=
  let id := fresh_id e in
  let '(d, c) := hal_device_new (temp_device_counter e) in
  let e1 := mk_env (<[id := d]> (e_heap e)) (gdl e) (tdl e) (callouts e) c (e_log e) in
  '(_, e2) ← on_device id (hal_device_property_set_string "info.subsystem" (Some "unknown") ;;;
                           hal_device_property_set_string "info.parent" (Some (udi parent)) ;;;
                           hal_device_set_udi k) e1;
  Some (id, add_to_tdl id e2).

(** [handle_merge]; [search_and_merge] stands for the two recursive calls of
    [di_search_and_merge] on a spawned device. *)
Definition handle_merge (search_and_merge : nat -> env -> outcome env) (r : rule) (id : nat) (e : env)
  : outcome (bool * env) :=
  let! target := defined (merge_target e r id) in
  match target with
  | None => inr (false, e)
  | Some (id', k) =>
      match rtype r with
      | RULE_MERGE => defined ((fun e' => (true, e')) <$> merge_value e r id' k)
      | RULE_APPEND | RULE_PREPEND => defined (merge_append e r id' k)
      | RULE_ADDSET => defined (merge_addset e r id' k)
      | RULE_REMOVE => defined ((fun e' => (true, e')) <$> merge_remove e r id' k)
      | RULE_SPAWN =>
          match env_find e k with
          | Some _ => inr (true, e)
          | None =>
              let! spawned := defined (d ← e_heap e !! id; spawn_device k d e) in
              let! e2 := search_and_merge spawned.1 spawned.2 in
              inr (true, hal_util_callout_device_add spawned.1 e2)
          end
      | _ => inr (false, e)
      end
  end.

End Rules.
