(* ===== verification/FdiInterp.v ===== *)
(** * Running the rule cache ([hald/device_info.c])

    The cache is a header and rules at byte offsets, in three sections.  The
    interpreter of the source follows [rule_size] and [jump_position]; the
    theorem of this file is that on a cache that lays out a tree of rules it
    computes what the tree means: the children of a match are processed if and
    only if the match holds, everything in order.

    Fuel: one unit per rule that is executed; the number of rules of the cache
    is enough, since jumps go forward.  The recursion of <spawn> has a fuel of
    its own (the nesting of spawned devices). *)

From Stdlib Require Import ZArith Lia Ascii SpecFloat.
From stdpp Require Import base list gmap strings option pretty fin_maps.
From S2P Require Import Prelude CStd Property Device DeviceStore FdiRules.

Record cache_header := mk_header {
  fdi_rules_preprobe : Z;
  fdi_rules_information : Z;
  fdi_rules_policy : Z;
  all_rules_size : Z;
}.

Record cache := mk_cache { header : cache_header; rules : gmap Z rule }.

Inductive DeviceInfoType :=
  DEVICE_INFO_TYPE_PREPROBE | DEVICE_INFO_TYPE_INFORMATION | DEVICE_INFO_TYPE_POLICY.

Section Interp.
Context {P : Platform} (stack : list ascii) (c : cache).

Definition in_bounds (offset next : Z) : bool :=
  let h := header c in
  ((fdi_rules_preprobe h <=? offset) && (next <? fdi_rules_information h)) ||
  ((fdi_rules_information h <=? offset) && (next <? fdi_rules_policy h)) ||
  ((fdi_rules_policy h <=? offset) && (next <? all_rules_size h)).

Definition di_next (offset : Z) (r : rule) : option Z :=
  let next := offset + rule_size r in
  if in_bounds offset next then Some next else None.

Definition di_jump (offset : Z) (r : rule) : option Z :=
  let next := jump_position r in
  if next =? 0 then None else if in_bounds offset next then Some next else None.

Section Loop.
(** What happens to a spawned device. *)
Context (search_spawned : nat -> env -> outcome env).

Fixpoint rules_match_and_merge_device (fuel : nat) (pos : Z) (id : nat) (e : env) : outcome env :=
  match fuel with
  | O => inl OutOfFuel
  | S f =>
      match rules c !! pos with
      | None => inl NoRuleThere
      | Some r =>
          let goto (next : option Z) (e : env) :=
            match next with
            | Some p => rules_match_and_merge_device f p id e
            | None => inr e
            end in
          match rtype r with
          | RULE_MATCH =>
              let! holds := defined (handle_match e r id) in
              if holds then goto (di_next pos r) e
              else match di_jump pos r with
                   | None => inl RuleIsNull
                   | Some p => rules_match_and_merge_device f p id e
                   end
          | RULE_APPEND | RULE_PREPEND | RULE_ADDSET | RULE_REMOVE | RULE_CLEAR | RULE_SPAWN
          | RULE_MERGE =>
              let! x := handle_merge stack search_spawned r id e in
              goto (di_next pos r) x.2
          | RULE_EOF => goto (di_next pos r) e
          | RULE_UNKNOWN =>
              match di_jump pos r with
              | None => inr e
              | Some p =>
                  match rules c !! p with
                  | None => inl NoRuleThere
                  | Some r' => goto (di_next p r') e
                  end
              end
          end
      end
  end.
End Loop.

Definition section_start (t : DeviceInfoType) : Z :=
  match t with
  | DEVICE_INFO_TYPE_PREPROBE => fdi_rules_preprobe (header c)
  | DEVICE_INFO_TYPE_INFORMATION => fdi_rules_information (header c)
  | DEVICE_INFO_TYPE_POLICY => fdi_rules_policy (header c)
  end.

Definition section_end (t : DeviceInfoType) : Z :=
  match t with
  | DEVICE_INFO_TYPE_PREPROBE => fdi_rules_information (header c)
  | DEVICE_INFO_TYPE_INFORMATION => fdi_rules_policy (header c)
  | DEVICE_INFO_TYPE_POLICY => all_rules_size (header c)
  end.

(** [depth] bounds the nesting of spawned devices. *)
Fixpoint di_search_and_merge (depth : nat) (id : nat) (t : DeviceInfoType) (e : env) : outcome env :=
  let search_spawned (new : nat) (e : env) : outcome env :=
    match depth with
    | O => inl OutOfFuel
    | S depth' =>
        let! e1 := di_search_and_merge depth' new DEVICE_INFO_TYPE_INFORMATION e in
        di_search_and_merge depth' new DEVICE_INFO_TYPE_POLICY e1
    end in
  if section_start t <? section_end t
  then rules_match_and_merge_device search_spawned (size (rules c)) (section_start t) id e
  else inr e.

(** ** The meaning of nested rules *)
Inductive node :=
  | Leaf (r : rule)
  | Match (r : rule) (children : list node).

Section Tree.
Context (search_spawned : nat -> env -> outcome env).

Fixpoint run_node (n : node) (id : nat) (e : env) : outcome env :=
  match n with
  | Leaf r =>
      match rtype r with
      | RULE_EOF => inr e
      | _ => let! x := handle_merge stack search_spawned r id e in inr x.2
      end
  | Match r children =>
      let! holds := defined (handle_match e r id) in
      if holds
      then (fix run_nodes (ns : list node) (e : env) : outcome env :=
              match ns with
              | [] => inr e
              | n :: ns' => let! e' := run_node n id e in run_nodes ns' e'
              end) children e
      else inr e
  end.

Fixpoint run_nodes (ns : list node) (id : nat) (e : env) : outcome env :=
  match ns with
  | [] => inr e
  | n :: ns' => let! e' := run_node n id e in run_nodes ns' id e'
  end.

Lemma run_match r children id e :
  run_node (Match r children) id e =
  let! holds := defined (handle_match e r id) in
  if holds then run_nodes children id e else inr e.
Proof.
  simpl. destruct (defined (handle_match e r id)) as [f|[]]; simpl; [done| |done].
  revert e. induction children as [|n ns IH]; intros e; [done|].
  simpl. destruct (run_node n id e); simpl; [done|]. apply IH.
Qed.
End Tree.

(** ** Layout of trees in the cache *)
Definition leaf_rule (r : rule) : Prop := rtype r <> RULE_MATCH /\ rtype r <> RULE_UNKNOWN.

Inductive code_at : Z -> list node -> Z -> Prop :=
  | code_nil pos : code_at pos [] pos
  | code_leaf pos r ns pos' :
      rules c !! pos = Some r -> leaf_rule r -> 0 < rule_size r ->
      code_at (pos + rule_size r) ns pos' -> code_at pos (Leaf r :: ns) pos'
  | code_match pos r children ns pos1 pos' :
      rules c !! pos = Some r -> rtype r = RULE_MATCH -> 0 < rule_size r ->
      code_at (pos + rule_size r) children pos1 -> jump_position r = pos1 ->
      code_at pos1 ns pos' -> code_at pos (Match r children :: ns) pos'.

Fixpoint node_size (n : node) : nat :=
  match n with
  | Leaf _ => 1
  | Match _ children => S (foldr (fun m s => node_size m + s)%nat O children)
  end.
Definition nodes_size (ns : list node) : nat := foldr (fun m s => node_size m + s)%nat O ns.

Lemma nodes_size_leaf r ns : nodes_size (Leaf r :: ns) = S (nodes_size ns).
Proof. done. Qed.
Lemma nodes_size_match r ch ns :
  nodes_size (Match r ch :: ns) = S (nodes_size ch + nodes_size ns).
Proof. done. Qed.

Lemma code_at_le pos ns pos' : code_at pos ns pos' -> pos <= pos'.
Proof. induction 1; lia. Qed.

Lemma code_at_app pos ns1 pos1 ns2 pos2 :
  code_at pos ns1 pos1 -> code_at pos1 ns2 pos2 -> code_at pos (ns1 ++ ns2) pos2.
Proof. induction 1; intros Htail; simpl; eauto using code_at. Qed.

(** Every node has a position of its own. *)
Lemma code_at_positions pos ns pos' :
  code_at pos ns pos' -> exists ps, length ps = nodes_size ns /\ NoDup ps /\
    forall p, p ∈ ps -> pos <= p < pos' /\ is_Some (rules c !! p).
Proof.
  induction 1 as [pos|pos r ns pos' Hr _ Hs Hc (ps & L & N & I)
    |pos r ch ns pos1 pos' Hr _ Hs Hc (ps & L & N & I) _ Hc' (ps' & L' & N' & I')].
  - exists []. split; [done|]. split; [constructor|]. by intros p ?%not_elem_of_nil.
  - pose proof (code_at_le _ _ _ Hc). exists (pos :: ps). split; [simpl; lia|]. split.
    + apply NoDup_cons. split; [|done]. intros Hp. apply I in Hp. lia.
    + intros p [->|Hp]%elem_of_cons; [split; [lia | eauto]|]. apply I in Hp as [? ?]. split; [lia|done].
  - pose proof (code_at_le _ _ _ Hc). pose proof (code_at_le _ _ _ Hc').
    exists (pos :: ps ++ ps'). split; [|split].
    + simpl. rewrite length_app, L, L'. unfold nodes_size. lia.
    + apply NoDup_cons. split.
      * intros [Hp|Hp]%elem_of_app; [apply I in Hp | apply I' in Hp]; lia.
      * apply NoDup_app. split; [done|]. split; [|done]. intros p Hp Hp'.
        apply I in Hp. apply I' in Hp'. lia.
    + intros p [->|[Hp|Hp]%elem_of_app]%elem_of_cons; [split; [lia | eauto]| |].
      * apply I in Hp as [? ?]. split; [lia|done].
      * apply I' in Hp as [? ?]. split; [lia|done].
Qed.

Lemma nodes_size_bound pos ns pos' : code_at pos ns pos' -> (nodes_size ns <= size (rules c))%nat.
Proof.
  intros (ps & <- & N & I)%code_at_positions.
  rewrite <- (size_dom (D := gset Z)), <- (size_list_to_set (C := gset Z) ps N).
  apply subseteq_size. intros p Hp. apply elem_of_list_to_set in Hp. apply elem_of_dom. by apply I.
Qed.

Definition wf_header (h : cache_header) : Prop :=
  0 < fdi_rules_preprobe h <= fdi_rules_information h /\
  fdi_rules_information h <= fdi_rules_policy h.

Section Correct.
Context (search_spawned : nat -> env -> outcome env) (id : nat) (t : DeviceInfoType).
Hypothesis Hh : wf_header (header c).

Abbreviation loop fuel pos e := (rules_match_and_merge_device search_spawned fuel pos id e).

Lemma in_bounds_section offset next :
  section_start t <= offset < section_end t -> offset < next ->
  in_bounds offset next = (next <? section_end t).
Proof.
  unfold in_bounds, section_start, section_end, wf_header in *. intros H1 H2.
  destruct t; repeat match goal with |- context [?a <=? ?b] => destruct (Z.leb_spec a b) end;
    simpl; repeat match goal with |- context [?a <? ?b] => destruct (Z.ltb_spec a b) end;
    simpl; try done; lia.
Qed.

Lemma di_next_section pos r :
  section_start t <= pos < section_end t -> 0 < rule_size r ->
  di_next pos r = if pos + rule_size r <? section_end t then Some (pos + rule_size r) else None.
Proof. intros H1 H2. unfold di_next. rewrite in_bounds_section by lia. done. Qed.

Lemma section_positive : 0 < section_start t.
Proof. unfold section_start, wf_header in *. destruct t; lia. Qed.

Lemma di_jump_section pos r :
  section_start t <= pos < section_end t -> pos < jump_position r ->
  di_jump pos r = if jump_position r <? section_end t then Some (jump_position r) else None.
Proof.
  intros H1 H2. pose proof section_positive. unfold di_jump.
  destruct (Z.eqb_spec (jump_position r) 0); [lia|]. by rewrite in_bounds_section by lia.
Qed.

(** A leaf in front of the end of its section. *)
Lemma loop_leaf pos r fuel e :
  rules c !! pos = Some r -> leaf_rule r -> 0 < rule_size r -> section_start t <= pos < section_end t ->
  loop (S fuel) pos e =
  let! e' := run_node search_spawned (Leaf r) id e in
  if pos + rule_size r <? section_end t then loop fuel (pos + rule_size r) e' else inr e'.
Proof.
  intros Hr [H1 H2] Hs Hp. simpl. rewrite Hr, di_next_section by done.
  destruct (rtype r); try done; simpl;
    try (destruct (handle_merge _ _ _ _ _) as [|x]; [done|]; simpl);
    by destruct (_ <? _).
Qed.

Ltac sizes := rewrite ?nodes_size_leaf, ?nodes_size_match in *; lia.

(** Forward simulation of a list of nodes that something follows. *)
Lemma loop_nodes ns pos pos' :
  code_at pos ns pos' -> section_start t <= pos -> pos' < section_end t -> forall e,
  match run_nodes search_spawned ns id e with
  | inl f => forall fuel, (nodes_size ns <= fuel)%nat -> loop fuel pos e = inl f
  | inr e' => forall m r, (forall fuel, (m <= fuel)%nat -> loop fuel pos' e' = r) ->
                forall fuel, (nodes_size ns + m <= fuel)%nat -> loop fuel pos e = r
  end.
Proof.
  induction 1 as [pos|pos r ns pos' Hr Hl Hs Hc IH
    |pos r ch ns pos1 pos' Hr Hm Hs Hc IH Hj Hc' IH']; intros H1 H2 e.
  - simpl. intros m r H fuel Hf. apply H. lia.
  - pose proof (code_at_le _ _ _ Hc) as Hle. specialize (IH ltac:(lia) H2).
    assert (forall fuel, loop (S fuel) pos e =
      let! e' := run_node search_spawned (Leaf r) id e in loop fuel (pos + rule_size r) e') as Hstep.
    { intros fuel. rewrite (loop_leaf pos r) by (done || lia).
      destruct (run_node _ (Leaf r) id e); [done|]. simpl.
      by destruct (Z.ltb_spec (pos + rule_size r) (section_end t)); [|lia]. }
    change (run_nodes search_spawned (Leaf r :: ns) id e) with
      (let! e' := run_node search_spawned (Leaf r) id e in run_nodes search_spawned ns id e').
    destruct (run_node _ (Leaf r) id e) as [f|e']; cbn [obind] in *.
    + intros [|fuel] Hf; [sizes|]. by rewrite Hstep.
    + specialize (IH e'). destruct (run_nodes _ ns id e').
      * intros [|fuel] Hf; [sizes|]. rewrite Hstep. apply IH. sizes.
      * intros m r' H [|fuel] Hf; [sizes|]. rewrite Hstep. apply (IH m r' H).
        sizes.
  - pose proof (code_at_le _ _ _ Hc) as Hle. pose proof (code_at_le _ _ _ Hc') as Hle'.
    specialize (IH ltac:(lia) ltac:(lia)). specialize (IH' ltac:(lia) H2).
    assert (forall fuel, loop (S fuel) pos e =
      let! holds := defined (handle_match e r id) in
      if holds then loop fuel (pos + rule_size r) e else loop fuel pos1 e) as Hstep.
    { intros fuel. simpl. rewrite Hr, Hm, di_next_section, di_jump_section by lia. rewrite Hj.
      destruct (defined _) as [|[]]; [done| |]; simpl.
      - by destruct (Z.ltb_spec (pos + rule_size r) (section_end t)); [|lia].
      - by destruct (Z.ltb_spec pos1 (section_end t)); [|lia]. }
    change (run_nodes search_spawned (Match r ch :: ns) id e) with
      (let! e' := run_node search_spawned (Match r ch) id e in run_nodes search_spawned ns id e').
    rewrite run_match. destruct (defined _) as [f|[]]; cbn [obind] in *.
    + intros [|fuel] Hf; [sizes|]. by rewrite Hstep.
    + specialize (IH e). destruct (run_nodes _ ch id e) as [f|e']; cbn [obind].
      * intros [|fuel] Hf; [sizes|]. rewrite Hstep. apply IH. sizes.
      * specialize (IH' e'). destruct (run_nodes _ ns id e').
        -- intros [|fuel] Hf; [sizes|]. rewrite Hstep.
           apply (IH (nodes_size ns)); [by apply IH' | sizes].
        -- intros m r' H [|fuel] Hf; [sizes|]. rewrite Hstep.
           apply (IH (nodes_size ns + m)%nat); [by apply IH' | sizes].
    + specialize (IH' e). destruct (run_nodes _ ns id e).
      * intros [|fuel] Hf; [sizes|]. rewrite Hstep. apply IH'. sizes.
      * intros m r' H [|fuel] Hf; [sizes|]. rewrite Hstep.
        apply (IH' m r' H). sizes.
Qed.

(** A section that ends with the dummy rule of its last file; the section may
    end before the last rule is rounded up. *)
Lemma loop_section ns r pos fuel e :
  code_at (section_start t) ns pos -> rules c !! pos = Some r -> rtype r = RULE_EOF ->
  0 < rule_size r -> pos < section_end t <= pos + rule_size r ->
  (nodes_size ns < fuel)%nat ->
  loop fuel (section_start t) e = run_nodes search_spawned (ns ++ [Leaf r]) id e.
Proof.
  intros Hc Hr He Hs Hp Hf. pose proof (code_at_le _ _ _ Hc) as Hle.
  assert (forall fuel e', (1 <= fuel)%nat -> loop fuel pos e' = inr e') as Hlast.
  { intros [|fuel'] e' H'; [lia|]. rewrite (loop_leaf pos r); [|done| |done|lia].
    - simpl. rewrite He. simpl.
      by destruct (Z.ltb_spec (pos + rule_size r) (section_end t)); [lia|].
    - split; by rewrite He. }
  pose proof (loop_nodes ns _ pos Hc ltac:(lia) ltac:(lia) e) as H.
  assert (run_nodes search_spawned (ns ++ [Leaf r]) id e = run_nodes search_spawned ns id e) as ->.
  { clear -He. revert e. induction ns as [|n ns IH]; intros e; simpl.
    - by rewrite He.
    - destruct (run_node _ n id e); simpl; [done | apply IH]. }
  destruct (run_nodes _ ns id e) as [f|e'].
  - apply H. lia.
  - apply (H 1%nat); [intros; by apply Hlast | lia].
Qed.
End Correct.

(** ** Searching and merging *)
Definition laid_out (t : DeviceInfoType) (ns : list node) : Prop :=
  (section_end t <= section_start t /\ ns = []) \/
  (exists ns' r pos, ns = ns' ++ [Leaf r] /\ rtype r = RULE_EOF /\ 0 < rule_size r /\
     code_at (section_start t) ns' pos /\ rules c !! pos = Some r /\
     pos < section_end t <= pos + rule_size r).

(** What the rules of all sections mean. *)
Fixpoint tree_search (trees : DeviceInfoType -> list node) (depth : nat) (id : nat)
    (t : DeviceInfoType) (e : env) : outcome env :=
  run_nodes (fun new e =>
    match depth with
    | O => inl OutOfFuel
    | S depth' =>
        let! e1 := tree_search trees depth' new DEVICE_INFO_TYPE_INFORMATION e in
        tree_search trees depth' new DEVICE_INFO_TYPE_POLICY e1
    end) (trees t) id e.

Lemma handle_merge_ext s1 s2 r id e :
  (forall new e, s1 new e = s2 new e) -> handle_merge stack s1 r id e = handle_merge stack s2 r id e.
Proof.
  intros H. unfold handle_merge. destruct (defined (merge_target e r id)) as [|[[id' k]|]]; try done.
  simpl. destruct (rtype r); try done. destruct (env_find e k); [done|].
  destruct (defined _) as [|[]]; [done|]. simpl. by rewrite H.
Qed.

Lemma run_node_ext s1 s2 : (forall new e, s1 new e = s2 new e) ->
  forall n id e, run_node s1 n id e = run_node s2 n id e.
Proof.
  intros H. fix IH 1. intros [r|r ch] id e.
  - simpl. rewrite (handle_merge_ext s1 s2 r id e H). done.
  - rewrite !run_match. destruct (defined _) as [|[]]; simpl; try done.
    revert e. induction ch as [|n ch IHch]; intros e; simpl; [done|]. rewrite IH.
    destruct (run_node s2 n id e); simpl; [done | apply IHch].
Qed.

Lemma run_nodes_ext s1 s2 ns id e : (forall new e, s1 new e = s2 new e) ->
  run_nodes s1 ns id e = run_nodes s2 ns id e.
Proof.
  intros H. revert e. induction ns as [|n ns IH]; intros e; simpl; [done|].
  rewrite (run_node_ext s1 s2 H). destruct (run_node s2 n id e); simpl; [done | apply IH].
Qed.

Lemma section_runs_the_tree s ns id t e :
  wf_header (header c) -> laid_out t ns ->
  (if section_start t <? section_end t
   then rules_match_and_merge_device s (size (rules c)) (section_start t) id e else inr e)
  = run_nodes s ns id e.
Proof.
  intros Hh [[E ->]|(ns' & r & pos & -> & He & Hs & Hc & Hr & Hp)].
  - by destruct (Z.ltb_spec (section_start t) (section_end t)); [lia|].
  - pose proof (code_at_le _ _ _ Hc).
    destruct (Z.ltb_spec (section_start t) (section_end t)); [|lia].
    apply (loop_section _ _ _ Hh _ _ pos); [done..|].
    assert (code_at (section_start t) (ns' ++ [Leaf r]) (pos + rule_size r)) as Hall.
    { eapply code_at_app; [done|]. constructor; [done | split; by rewrite He | done | constructor]. }
    apply nodes_size_bound in Hall. unfold nodes_size in *. rewrite foldr_app in Hall. simpl in Hall.
    assert (forall k, foldr (fun m s => node_size m + s) k ns' = foldr (fun m s => node_size m + s) O ns' + k)%nat as E.
    { clear. intros k. induction ns'; simpl; lia. }
    rewrite E in Hall. lia.
Qed.

Lemma search_runs_the_tree trees depth id t e :
  wf_header (header c) -> (forall t, laid_out t (trees t)) ->
  di_search_and_merge depth id t e = tree_search trees depth id t e.
Proof.
  intros Hh Hl. revert id t e. induction depth as [|depth IH]; intros id t e; simpl.
  - by apply section_runs_the_tree.
  - rewrite (section_runs_the_tree _ (trees t)) by done. apply run_nodes_ext.
    intros new e'. rewrite IH. destruct (tree_search _ depth new _ e'); simpl; auto.
Qed.

(** ** The faults that remain *)
Definition harmless (f : fault) : Prop := f = BufferOverrun \/ f = OutOfFuel.

Lemma handle_merge_faults s r id e f :
  (forall new e f, s new e = inl f -> harmless f) -> handle_merge stack s r id e = inl f -> harmless f.
Proof.
  intros Hs. assert (forall A (o : option A) f, defined o = inl f -> harmless f) as Hd.
  { intros A [a|] f' H; simplify_eq/=. by left. }
  unfold handle_merge. destruct (defined (merge_target e r id)) as [f'|[[id' k]|]] eqn:E; simpl;
    [intros; simplify_eq; by eapply Hd| |done].
  destruct (rtype r); try done; try (apply Hd).
  destruct (env_find e k); [done|].
  match goal with |- context [defined ?o] => destruct (defined o) as [f'|x] eqn:E' end; simpl;
    [intros; simplify_eq; by eapply Hd|].
  destruct (s x.1 x.2) eqn:Es; simpl; intros; simplify_eq. by eapply Hs.
Qed.

Lemma run_node_faults s : (forall new e f, s new e = inl f -> harmless f) ->
  forall n id e f, run_node s n id e = inl f -> harmless f.
Proof.
  intros Hs. fix IH 1. intros [r|r ch] id e f.
  - simpl. destruct (rtype r); try done;
      (destruct (handle_merge _ s r id e) eqn:E; simpl; intros; simplify_eq;
       by eapply handle_merge_faults).
  - rewrite run_match. destruct (handle_match e r id) as [[]|]; simpl; try done;
      [|intros; simplify_eq; by left].
    revert e. induction ch as [|n ch IHch]; intros e; simpl; [done|].
    destruct (run_node s n id e) eqn:E; simpl; [intros; simplify_eq; by eapply IH | apply IHch].
Qed.

Lemma run_nodes_faults s ns id e f : (forall new e f, s new e = inl f -> harmless f) ->
  run_nodes s ns id e = inl f -> harmless f.
Proof.
  intros Hs. revert e. induction ns as [|n ns IH]; intros e; simpl; [done|].
  destruct (run_node s n id e) eqn:E; simpl;
    [intros; simplify_eq; by eapply run_node_faults | apply IH].
Qed.

Lemma tree_search_faults trees depth id t e f :
  tree_search trees depth id t e = inl f -> harmless f.
Proof.
  revert id t e f. induction depth as [|depth IH]; intros id t e f; simpl; apply run_nodes_faults.
  - intros new e' f' H. simplify_eq. by right.
  - intros new e' f'. destruct (tree_search trees depth new _ e') eqn:E; simpl.
    + intros; simplify_eq. by eapply IH.
    + apply IH.
Qed.
End Interp.
