(* ===== verification/FdiCache.v ===== *)
(** * The compiler of device information files ([hald/create_cache.c])

    The handlers of the XML parser write rules into the cache file.  The model
    keeps the file as the rules that were stored, by offset, and the end of
    the file; keys and values are written behind the place of their rule
    before the rule itself, so the end of the file runs ahead of the rules.
    The layout is that of a 64-bit target: [sizeof (struct rule)] is 48, its
    alignment 8, [sizeof (struct cache_header)] is 20.

    Expat is not code of the repository: the events of a file are the input.
    A handler continues, stops the parser (the file is skipped), or ends the
    program ([DIE]).  Expat may still deliver the end of an empty-element tag
    after [XML_StopParser] in its start; these late events are not modelled.
    Neither are failing writes, and the text is taken in pieces without a
    leading zero byte. *)

From Stdlib Require Import ZArith Lia Ascii SpecFloat.
From stdpp Require Import base list gmap strings option pretty fin_maps.
From S2P Require Import Prelude CStd Property Device FdiRules FdiInterp.

(** ** Names of rules and types *)
Definition get_rule_type (str : string) : rule_type :=
  if str =s? "match" then RULE_MATCH
  else if str =s? "merge" then RULE_MERGE
  else if str =s? "append" then RULE_APPEND
  else if str =s? "prepend" then RULE_PREPEND
  else if str =s? "addset" then RULE_ADDSET
  else if str =s? "remove" then RULE_REMOVE
  else if str =s? "clear" then RULE_CLEAR
  else if str =s? "spawn" then RULE_SPAWN
  else RULE_UNKNOWN.

Definition get_match_type (str : string) : match_type :=
  if str =s? "string" then MATCH_STRING
  else if str =s? "int" then MATCH_INT
  else if str =s? "uint64" then MATCH_UINT64
  else if str =s? "bool" then MATCH_BOOL
  else if str =s? "exists" then MATCH_EXISTS
  else if str =s? "empty" then MATCH_EMPTY
  else if str =s? "is_ascii" then MATCH_ISASCII
  else if str =s? "is_absolute_path" then MATCH_IS_ABS_PATH
  else if str =s? "sibling_contains" then MATCH_SIBLING_CONTAINS
  else if str =s? "contains" then MATCH_CONTAINS
  else if str =s? "contains_ncase" then MATCH_CONTAINS_NCASE
  else if str =s? "prefix" then MATCH_PREFIX
  else if str =s? "prefix_ncase" then MATCH_PREFIX_NCASE
  else if str =s? "suffix" then MATCH_SUFFIX
  else if str =s? "suffix_ncase" then MATCH_SUFFIX_NCASE
  else if str =s? "compare_lt" then MATCH_COMPARE_LT
  else if str =s? "compare_le" then MATCH_COMPARE_LE
  else if str =s? "compare_gt" then MATCH_COMPARE_GT
  else if str =s? "compare_ge" then MATCH_COMPARE_GE
  else if str =s? "compare_ne" then MATCH_COMPARE_NE
  else if str =s? "contains_not" then MATCH_CONTAINS_NOT
  else if str =s? "contains_outof" then MATCH_CONTAINS_OUTOF
  else if str =s? "int_outof" then MATCH_INT_OUTOF
  else if str =s? "prefix_outof" then MATCH_PREFIX_OUTOF
  else if str =s? "string_outof" then MATCH_STRING_OUTOF
  else MATCH_UNKNOWN.

Definition get_merge_type (str : string) : merge_type :=
  if str =s? "string" then MERGE_STRING
  else if str =s? "bool" then MERGE_BOOLEAN
  else if str =s? "int" then MERGE_INT32
  else if str =s? "uint64" then MERGE_UINT64
  else if str =s? "double" then MERGE_DOUBLE
  else if str =s? "strlist" then MERGE_STRLIST
  else if str =s? "copy_property" then MERGE_COPY_PROPERTY
  else if str =s? "remove" then MERGE_REMOVE
  else MERGE_UNKNOWN.

(** ** The context *)
Definition ROUND (len align : Z) : Z := Z.land (len + align - 1) (- align).
Definition ROUND32 (len : Z) : Z := ROUND len 4.
Definition sizeof_rule : Z := 48.
Definition sizeof_cache_header : Z := 20.
Definition RULES_ROUND (off : Z) : Z := ROUND off 8.
Definition HAL_MAX_INDENT_DEPTH : nat := 64.

(** [match_at_depth] is the used part of the array, innermost first. *)
Record fdi_context := mk_ctx {
  match_at_depth : list Z;
  crule : rule;
  position : Z;
  file_rules : gmap Z rule;
  file_end : Z;
}.

Inductive parse (A : Type) := Continue (a : A) | Stopped | Died.
Arguments Continue {A}. Arguments Stopped {A}. Arguments Died {A}.
Definition pbind {A B} (m : parse A) (k : A -> parse B) : parse B :=
  match m with Continue a => k a | Stopped => Stopped | Died => Died end.
Notation "'let?' x := m 'in' k" := (pbind m (fun x => k))
  (at level 10, x name, m at level 100, k at level 200) : hal_scope.

Definition set_crule (f : rule -> rule) (ctx : fdi_context) : fdi_context :=
  mk_ctx (match_at_depth ctx) (f (crule ctx)) (position ctx) (file_rules ctx) (file_end ctx).

(** The length fields count the terminator. *)
Definition len_field (s : string) : Z :=
  if s =s? "" then 0 else Z.of_nat (String.length s) + 1.
Definition key_len (r : rule) : Z := len_field (key r).
Definition value_len (r : rule) : Z := len_field (value r).

(** The end of the file after a write and its padding. *)
Definition pad32_write (offset len : Z) (ctx : fdi_context) : fdi_context :=
  let e := offset + len in
  let m := Z.land e 3 in
  mk_ctx (match_at_depth ctx) (crule ctx) (position ctx) (file_rules ctx)
         (Z.max (file_end ctx) (if m =? 0 then e else e + (4 - m))).

Definition init_rule_struct : rule := mk_rule sizeof_rule 0 RULE_UNKNOWN MATCH_UNKNOWN MERGE_UNKNOWN "" "".

Definition store_key (k : string) (ctx : fdi_context) : parse fdi_context :=
  if bool_decide (rtype (crule ctx) = RULE_UNKNOWN) then Died
  else if k =s? "" then Died
  else
    let r := crule ctx in
    let ctx := set_crule (fun r => mk_rule (rule_size r) (jump_position r) (rtype r) (type_match r)
                                           (type_merge r) (value r) k) ctx in
    Continue (pad32_write (position ctx + sizeof_rule) (key_len (crule ctx)) ctx).

Definition store_value (v : string) (ctx : fdi_context) : parse fdi_context :=
  let r := crule ctx in
  if bool_decide (rtype r = RULE_UNKNOWN) then Died
  else if key_len r <? 2 then Died
  else if v =s? "" then Continue ctx
  else
    let base := position ctx + sizeof_rule + ROUND32 (key_len r) in
    let offset := if value_len r =? 0 then base else base + value_len r - 1 in
    let len := Z.of_nat (String.length v) in
    let ctx := set_crule (fun r => mk_rule (rule_size r) (jump_position r) (rtype r) (type_match r)
                                           (type_merge r) (value r +:+ v) (key r)) ctx in
    Continue (pad32_write (offset + len) 1 (pad32_write offset len ctx)).

Definition with_layout (size jump : Z) (r : rule) : rule :=
  mk_rule size jump (rtype r) (type_match r) (type_merge r) (value r) (key r).

Definition store_rule (ctx : fdi_context) : parse fdi_context :=
  let r := crule ctx in
  if bool_decide (rtype r = RULE_UNKNOWN) then Died
  else
    let size := RULES_ROUND (sizeof_rule + ROUND32 (key_len r) + ROUND32 (value_len r)) in
    let ctx := pad32_write (position ctx) sizeof_rule ctx in
    Continue (mk_ctx (match_at_depth ctx) init_rule_struct (position ctx)
      (<[position ctx := with_layout size (jump_position r) r]> (file_rules ctx)) (file_end ctx)).

Definition remember_jump_position (ctx : fdi_context) : parse fdi_context :=
  if decide (HAL_MAX_INDENT_DEPTH <= length (match_at_depth ctx))%nat then Died
  else Continue (mk_ctx (position ctx :: match_at_depth ctx) (crule ctx) (position ctx)
                        (file_rules ctx) (file_end ctx)).

Definition set_jump_position (ctx : fdi_context) : parse fdi_context :=
  match match_at_depth ctx with
  | [] => Died
  | p :: rest =>
      let offset32 := u32 (RULES_ROUND (file_end ctx)) in
      Continue (mk_ctx rest (crule ctx) (position ctx)
        (alter (fun r => with_layout (rule_size r) offset32 r) p (file_rules ctx)) (file_end ctx))
  end.

(** ** The handlers *)

(** One attribute. *)
Definition start_attribute (name val : string) (ctx : fdi_context) : parse fdi_context :=
  let r := crule ctx in
  if name =s? "key" then
    if 0 <? key_len r then Stopped else store_key val ctx
  else match rtype r with
       | RULE_SPAWN =>
           if name =s? "udi" then if 0 <? key_len r then Stopped else store_key val ctx
           else Continue ctx
       | RULE_MATCH =>
           if key_len r =? 0 then Stopped
           else
             let ctx := set_crule (fun r => mk_rule (rule_size r) (jump_position r) (rtype r)
                          (get_match_type name) (type_merge r) (value r) (key r)) ctx in
             if bool_decide (type_match (crule ctx) = MATCH_UNKNOWN) then Stopped
             else store_value val ctx
       | _ =>
           if negb (name =s? "type") then Continue ctx
           else
             let ctx := set_crule (fun r => mk_rule (rule_size r) (jump_position r) (rtype r)
                          (type_match r) (get_merge_type val) (value r) (key r)) ctx in
             if bool_decide (type_merge (crule ctx) = MERGE_UNKNOWN) then Stopped
             else Continue ctx
       end.

Fixpoint start_attributes (attr : list (string * string)) (ctx : fdi_context) : parse fdi_context :=
  match attr with
  | [] => Continue ctx
  | (name, val) :: attr' =>
      let? ctx := start_attribute name val ctx in start_attributes attr' ctx
  end.

Definition start (el : string) (attr : list (string * string)) (ctx : fdi_context)
  : parse fdi_context :=
  let? ctx := (if bool_decide (rtype (crule ctx) = RULE_UNKNOWN) then Continue ctx
               else store_rule ctx) in
  let r := mk_rule sizeof_rule 0 (get_rule_type el) MATCH_UNKNOWN MERGE_UNKNOWN "" "" in
  let ctx := mk_ctx (match_at_depth ctx) r (RULES_ROUND (file_end ctx)) (file_rules ctx)
                    (file_end ctx) in
  if bool_decide (get_rule_type el = RULE_UNKNOWN) then Continue ctx
  else
    let? ctx := start_attributes attr ctx in
    if key_len (crule ctx) =? 0 then Stopped
    else if bool_decide (rtype (crule ctx) = RULE_MATCH) then remember_jump_position ctx
    else Continue ctx.

Definition takes_text (t : rule_type) : bool :=
  match t with
  | RULE_MERGE | RULE_PREPEND | RULE_ADDSET | RULE_APPEND | RULE_REMOVE | RULE_SPAWN => true
  | _ => false
  end.

Definition cdata (s : string) (ctx : fdi_context) : parse fdi_context :=
  if takes_text (rtype (crule ctx)) then store_value s ctx else Continue ctx.

Definition end_ (el : string) (ctx : fdi_context) : parse fdi_context :=
  match get_rule_type el with
  | RULE_UNKNOWN => Continue ctx
  | RULE_MATCH =>
      let? ctx := (if bool_decide (rtype (crule ctx) = RULE_MATCH) then store_rule ctx
                   else Continue ctx) in
      set_jump_position ctx
  | t => if bool_decide (rtype (crule ctx) = t) then store_rule ctx else Stopped
  end.

(** ** Files and sections *)
Inductive event := Start (el : string) (attr : list (string * string)) | Cdata (s : string) | End (el : string).

Definition handle_event (ev : event) (ctx : fdi_context) : parse fdi_context :=
  match ev with
  | Start el attr => start el attr ctx
  | Cdata s => cdata s ctx
  | End el => end_ el ctx
  end.

Fixpoint handle_events (evs : list event) (ctx : fdi_context) : parse fdi_context :=
  match evs with
  | [] => Continue ctx
  | ev :: evs' => let? ctx := handle_event ev ctx in handle_events evs' ctx
  end.

(** The cache file: its rules and its end. *)
Record cache_file := mk_file { cf_rules : gmap Z rule; cf_end : Z }.

(** [None] for the events: the XML is not well formed.  [compile_fdi_file] is
    the function up to its last statement, the file at its end. *)
Definition compile_fdi_file (filename : string) (xml_events : option (list event)) (f : cache_file)
  : parse cache_file :=
  match xml_events with
  | None => Stopped
  | Some evs =>
      let ctx := mk_ctx [] init_rule_struct 0 (cf_rules f) (cf_end f) in
      let? ctx := handle_events evs ctx in
      let r := mk_rule sizeof_rule 0 RULE_EOF MATCH_UNKNOWN MERGE_UNKNOWN "" "" in
      let ctx := mk_ctx (match_at_depth ctx) r (RULES_ROUND (file_end ctx)) (file_rules ctx)
                        (file_end ctx) in
      let? ctx := store_key filename ctx in
      let? ctx := store_value "" ctx in
      let? ctx := store_rule ctx in
      Continue (mk_file (file_rules ctx) (file_end ctx))
  end.

(** The result is the end of the file as an [int]; the caller takes a negative
    one for an error. *)
Definition rules_add_fdi_file (filename : string) (xml_events : option (list event)) (f : cache_file)
  : parse cache_file :=
  let? f' := compile_fdi_file filename xml_events f in
  if s32 (cf_end f') <? 0 then Stopped else Continue f'.

(** What [scandir] and [g_file_test] say about a directory: its entries in the
    order of [alphasort] (the code sorts downwards and walks from the end), and
    [None] for a directory that cannot be scanned. *)
Inductive dirent :=
  | RegularFile (name : string) (xml_events : option (list event))
  | Subdirectory (name : string) (entries : option (list dirent))
  | OtherEntry (name : string).

Definition is_fdi (filename : string) : bool :=
  (5 <=? String.length filename)%nat && has_suffix filename ".fdi".
Definition path_in (dir filename : string) : string := dir +:+ "/" +:+ filename.

(** One entry: the file after it and the number of skipped files.  A file that
    does not parse is cut off again and counted; [Stopped] is the result -1. *)
Fixpoint search_entry (dir : string) (e : dirent) (f : cache_file) : parse (cache_file * Z) :=
  match e with
  | RegularFile filename evs =>
      if is_fdi filename then
        match rules_add_fdi_file (path_in dir filename) evs f with
        | Continue f' => Continue (f', 0)
        | Stopped => Continue (f, 1)
        | Died => Died
        end
      else Continue (f, 0)
  | Subdirectory filename entries =>
      if has_prefix filename "." then Continue (f, 0)
      else match entries with
           | None => Stopped
           | Some es =>
               (fix loop (es : list dirent) (f : cache_file) (skipped : Z) :=
                  match es with
                  | [] => Continue (f, skipped)
                  | e :: es' => let? x := search_entry (path_in dir filename) e f in
                                loop es' x.1 (skipped + x.2)
                  end) es f 0
           end
  | OtherEntry _ => Continue (f, 0)
  end.

Fixpoint search_entries (dir : string) (es : list dirent) (f : cache_file) (skipped : Z)
  : parse (cache_file * Z) :=
  match es with
  | [] => Continue (f, skipped)
  | e :: es' => let? x := search_entry dir e f in search_entries dir es' x.1 (skipped + x.2)
  end.

Definition rules_search_and_add_fdi_files (dir : string) (entries : option (list dirent))
    (f : cache_file) : parse (cache_file * Z) :=
  match entries with
  | None => Stopped
  | Some es => search_entries dir es f 0
  end.

(** The directories of one section: the one named in the environment, or the
    two of the installation. *)
Definition directories : Type := list (string * option (list dirent)).

Fixpoint search_directories (dirs : directories) (f : cache_file) (skipped : Z)
  : parse (cache_file * Z) :=
  match dirs with
  | [] => Continue (f, skipped)
  | (dir, es) :: rest =>
      let? x := rules_search_and_add_fdi_files dir es f in
      search_directories rest x.1 (skipped + x.2)
  end.

(** The whole file: the starts of the sections, the file, and the number of
    skipped files. *)
Record built := mk_built {
  b_preprobe : Z; b_information : Z; b_policy : Z; b_file : cache_file; b_skipped : Z;
}.

Definition build_cache (dirs : DeviceInfoType -> directories) : parse built :=
  let f0 := mk_file ∅ sizeof_cache_header in
  let pre := RULES_ROUND (cf_end f0) in
  let? x1 := search_directories (dirs DEVICE_INFO_TYPE_PREPROBE) f0 0 in
  let info := RULES_ROUND (cf_end x1.1) in
  let? x2 := search_directories (dirs DEVICE_INFO_TYPE_INFORMATION) x1.1 x1.2 in
  let pol := RULES_ROUND (cf_end x2.1) in
  let? x3 := search_directories (dirs DEVICE_INFO_TYPE_POLICY) x2.1 x2.2 in
  Continue (mk_built pre info pol x3.1 x3.2).

(** The header has 32-bit fields. *)
Definition cache_of (b : built) : cache :=
  mk_cache (mk_header (u32 (b_preprobe b)) (u32 (b_information b)) (u32 (b_policy b))
                      (u32 (cf_end (b_file b)))) (cf_rules (b_file b)).

Definition di_rules_init (dirs : DeviceInfoType -> directories)
  : parse (cache * Z) :=
  let? b := build_cache dirs in Continue (cache_of b, b_skipped b).
