(* ===== verification/FdiCompile.v ===== *)
(** * Correctness of the compiled rules ([hald/create_cache.c])

    A file of device information is a tree of elements.  Its meaning is the
    nested list of its rules; the compiler lays exactly this list out in the
    cache, so that the interpreter of [hald/device_info.c] processes what the
    file says. *)

From Stdlib Require Import ZArith Lia Ascii SpecFloat.
From stdpp Require Import base list gmap strings option pretty fin_maps.
From S2P Require Import Prelude CStd Property Device FdiRules FdiInterp FdiCache.

(** ** Rounding *)
Lemma land_neg_pow2 x n : 0 <= n -> Z.land x (- 2 ^ n) = 2 ^ n * (x / 2 ^ n).
Proof.
  intros Hn. rewrite Z.mul_comm, <- Z.shiftl_mul_pow2, <- Z.shiftr_div_pow2 by done.
  apply Z.bits_inj'. intros i Hi. rewrite Z.land_spec, Z.shiftl_spec by done.
  assert (- 2 ^ n = Z.lnot (Z.ones n)) as ->. { unfold Z.lnot. rewrite Z.ones_equiv. lia. }
  rewrite Z.lnot_spec by done. destruct (Z.ltb_spec i n).
  - rewrite Z.ones_spec_low, (Z.testbit_neg_r _ (i - n)) by lia. by rewrite andb_false_r.
  - rewrite Z.ones_spec_high, Z.shiftr_spec by lia. rewrite andb_true_r. f_equal. lia.
Qed.

Lemma ROUND32_spec x : ROUND32 x = 4 * ((x + 3) / 4).
Proof. unfold ROUND32, ROUND. replace (x + 4 - 1) with (x + 3) by lia. apply (land_neg_pow2 _ 2). lia. Qed.
Lemma RULES_ROUND_spec x : RULES_ROUND x = 8 * ((x + 7) / 8).
Proof. unfold RULES_ROUND, ROUND. replace (x + 8 - 1) with (x + 7) by lia. apply (land_neg_pow2 _ 3). lia. Qed.

Ltac rounds :=
  rewrite ?ROUND32_spec, ?RULES_ROUND_spec in *; unfold sizeof_rule in *;
  Z.to_euclidean_division_equations; lia.

Definition end_of (offset len : Z) : Z := ROUND32 (offset + len).

Lemma pad32_write_end offset len ctx :
  file_end (pad32_write offset len ctx) = Z.max (file_end ctx) (ROUND32 (offset + len)).
Proof.
  unfold pad32_write. simpl. f_equal.
  assert (Z.land (offset + len) 3 = (offset + len) mod 4) as ->.
  { change 3 with (Z.ones 2). by rewrite Z.land_ones. }
  rewrite ROUND32_spec. destruct (Z.eqb_spec ((offset + len) mod 4) 0);
    Z.to_euclidean_division_equations; lia.
Qed.

(** The end of the key and value of a rule at an offset. *)
Definition data_end (p : Z) (r : rule) : Z :=
  p + sizeof_rule + ROUND32 (key_len r) + ROUND32 (value_len r).

Definition size_of (r : rule) : Z :=
  RULES_ROUND (sizeof_rule + ROUND32 (key_len r) + ROUND32 (value_len r)).

Lemma len_field_pos s : 0 <= len_field s.
Proof. unfold len_field. case_bool_decide; lia. Qed.

Lemma len_field_key s : s <> "" -> 2 <= len_field s.
Proof.
  intros H. unfold len_field. rewrite bool_decide_eq_false_2 by done.
  destruct s; [done|]. simpl. lia.
Qed.

Lemma len_field_app s v :
  v <> "" -> len_field (s +:+ v) = (if len_field s =? 0 then 1 else len_field s) + Z.of_nat (String.length v).
Proof.
  intros Hv. unfold len_field. destruct s as [|ch s]; simpl.
  - change ("" +:+ v) with v. rewrite bool_decide_eq_false_2 by done. lia.
  - change (String ch s +:+ v) with (String ch (s +:+ v)).
    rewrite ?bool_decide_eq_false_2 by done. simpl. rewrite string_length_app.
    destruct (Z.eqb_spec (Z.pos (Pos.of_succ_nat (String.length s)) + 1) 0); lia.
Qed.

(** ** Contexts with a rule under construction *)
Record building (ctx : fdi_context) : Prop := {
  b_type : rtype (crule ctx) <> RULE_UNKNOWN;
  b_position : position ctx = RULES_ROUND (position ctx);
  b_data : if key (crule ctx) =s? "" then value (crule ctx) = "" /\ file_end ctx <= position ctx
           else file_end ctx = data_end (position ctx) (crule ctx);
}.

(** What the steps of one rule leave alone. *)
Definition same_frame (ctx ctx' : fdi_context) : Prop :=
  match_at_depth ctx' = match_at_depth ctx /\ position ctx' = position ctx /\
  file_rules ctx' = file_rules ctx /\ rtype (crule ctx') = rtype (crule ctx) /\
  jump_position (crule ctx') = jump_position (crule ctx) /\
  rule_size (crule ctx') = rule_size (crule ctx).

Lemma same_frame_trans c1 c2 c3 : same_frame c1 c2 -> same_frame c2 c3 -> same_frame c1 c3.
Proof. unfold same_frame. intros (?&?&?&?&?&?) (?&?&?&?&?&?). repeat split; congruence. Qed.

Lemma store_key_ok k ctx ctx' :
  building ctx -> key (crule ctx) = "" -> store_key k ctx = Continue ctx' ->
  building ctx' /\ same_frame ctx ctx' /\ key (crule ctx') = k /\ value (crule ctx') = "" /\ k <> "" /\
  type_match (crule ctx') = type_match (crule ctx) /\ type_merge (crule ctx') = type_merge (crule ctx).
Proof.
  intros [B1 B2 B3] Hk H. unfold store_key in H. rewrite bool_decide_eq_false_2 in H by done.
  case_bool_decide as Hne; [done|]. injection H as <-.
  rewrite Hk in B3. simpl in B3. destruct B3 as [B3 B4].
  split; [|by repeat split]. split; [done|done|]. rewrite pad32_write_end. simpl.
  rewrite bool_decide_eq_false_2 by done. unfold data_end, key_len, value_len. simpl.
  rewrite B3. change (len_field "") with 0. pose proof (len_field_key k Hne). rounds.
Qed.

Lemma store_value_ok v ctx ctx' :
  building ctx -> store_value v ctx = Continue ctx' ->
  building ctx' /\ same_frame ctx ctx' /\ key (crule ctx') = key (crule ctx) /\
  value (crule ctx') = value (crule ctx) +:+ v /\
  type_match (crule ctx') = type_match (crule ctx) /\ type_merge (crule ctx') = type_merge (crule ctx).
Proof.
  intros B H. pose proof B as [B1 B2 B3]. unfold store_value in H.
  rewrite bool_decide_eq_false_2 in H by done.
  destruct (Z.ltb_spec (key_len (crule ctx)) 2) as [|Hkl]; [done|].
  assert (key (crule ctx) <> "") as Hk.
  { intros E. unfold key_len in Hkl. rewrite E in Hkl. unfold len_field in Hkl. simpl in Hkl. lia. }
  rewrite bool_decide_eq_false_2 in B3 by done.
  case_bool_decide as Hv.
  - injection H as <-. subst v. split; [done|]. split; [done|]. split; [done|].
    split; [|done]. induction (value (crule ctx)) as [|ch s IH]; [done|].
    change (String ch s +:+ "") with (String ch (s +:+ "")). by rewrite <- IH.
  - injection H as <-. split; [|by repeat split]. split; [done|done|].
    rewrite !pad32_write_end. simpl. rewrite bool_decide_eq_false_2 by done.
    rewrite B3. unfold data_end, key_len, value_len. simpl. rewrite len_field_app by done.
    pose proof (len_field_pos (key (crule ctx))). pose proof (len_field_pos (value (crule ctx))).
    assert (0 < Z.of_nat (String.length v)) by (destruct v; simpl; [done | lia]).
    destruct (Z.eqb_spec (len_field (value (crule ctx))) 0) as [E|E]; [rewrite E|]; rounds.
Qed.

Lemma start_attribute_ok name val ctx ctx' :
  building ctx -> start_attribute name val ctx = Continue ctx' ->
  building ctx' /\ same_frame ctx ctx'.
Proof.
  intros B H.
  assert (forall ctx1, building ctx1 -> (0 <? key_len (crule ctx1)) = false ->
    store_key val ctx1 = Continue ctx' -> building ctx' /\ same_frame ctx1 ctx') as Hkey.
  { intros ctx1 B1 Hk H1. apply store_key_ok in H1 as (? & ? & _); [done | done |].
    unfold key_len, len_field in Hk. case_bool_decide; [done|].
    apply Z.ltb_ge in Hk. lia. }
  unfold start_attribute in H. case_bool_decide; [destruct (0 <? _) eqn:E; [done|]; by apply Hkey|].
  assert (forall f, (forall r, rtype (f r) = rtype r /\ jump_position (f r) = jump_position r /\
     rule_size (f r) = rule_size r /\ key (f r) = key r /\ value (f r) = value r) ->
     building (set_crule f ctx) /\ same_frame ctx (set_crule f ctx)) as Hset.
  { intros f Hf. destruct (Hf (crule ctx)) as (E1 & E2 & E5 & E3 & E4). destruct B as [B1 B2 B3].
    split; [|by repeat split]. split; simpl; [congruence | done |].
    unfold data_end, key_len, value_len in *. by rewrite E3, E4. }
  destruct (rtype (crule ctx)) eqn:Er;
    try (destruct (negb _); [injection H as <-; by split|];
         case_bool_decide; [done|]; injection H as <-; by apply Hset);
    try (case_bool_decide; [destruct (0 <? _) eqn:E; [done|]; by apply Hkey | injection H as <-; by split]).
  destruct (key_len (crule ctx) =? 0); [done|]. case_bool_decide; [done|].
  match type of H with store_value _ (set_crule ?f _) = _ => destruct (Hset f) as [B' S'] end; [done|].
  apply store_value_ok in H as (? & ? & _); [|done]. split; [done|]. by eapply same_frame_trans.
Qed.

Lemma start_attributes_ok attr ctx ctx' :
  building ctx -> start_attributes attr ctx = Continue ctx' -> building ctx' /\ same_frame ctx ctx'.
Proof.
  revert ctx. induction attr as [|[name val] attr IH]; intros ctx B H; simpl in H.
  - injection H as <-. by split.
  - destruct (start_attribute name val ctx) as [ctx1| |] eqn:E; try done. simpl in H.
    destruct (start_attribute_ok name val ctx ctx1 B E) as [B1 S1].
    destruct (IH ctx1 B1 H) as [B2 S2]. split; [done|]. by eapply same_frame_trans.
Qed.

(** ** Control flow does not depend on the file *)
Definition sim_by (R : list Z -> list Z -> Prop) (c1 c2 : fdi_context) : Prop :=
  R (match_at_depth c1) (match_at_depth c2) /\ crule c1 = crule c2.

Definition parse_sim {A B} (R : A -> B -> Prop) (p1 : parse A) (p2 : parse B) : Prop :=
  match p1, p2 with
  | Continue a, Continue b => R a b
  | Stopped, Stopped | Died, Died => True
  | _, _ => False
  end.

Lemma pbind_sim {A B A' B'} (R : A -> B -> Prop) (Q : A' -> B' -> Prop) m1 m2 k1 k2 :
  parse_sim R m1 m2 -> (forall a b, R a b -> parse_sim Q (k1 a) (k2 b)) ->
  parse_sim Q (pbind m1 k1) (pbind m2 k2).
Proof. destruct m1, m2; simpl; try done. auto. Qed.

Section Similar.
Context (R : list Z -> list Z -> Prop).
#[local] Abbreviation ctx_sim := (sim_by R).

Lemma store_key_sim k c1 c2 : ctx_sim c1 c2 -> parse_sim ctx_sim (store_key k c1) (store_key k c2).
Proof.
  intros [H1 H2]. unfold store_key. rewrite H2. do 2 (case_bool_decide; [done|]).
  split; [done|]. simpl. by rewrite H2.
Qed.
Lemma store_value_sim v c1 c2 : ctx_sim c1 c2 -> parse_sim ctx_sim (store_value v c1) (store_value v c2).
Proof.
  intros [H1 H2]. unfold store_value. rewrite H2. case_bool_decide; [done|].
  destruct (_ <? 2); [done|]. case_bool_decide; [by split|]. split; [done|]. simpl. by rewrite H2.
Qed.
Lemma store_rule_sim c1 c2 : ctx_sim c1 c2 -> parse_sim ctx_sim (store_rule c1) (store_rule c2).
Proof. intros [H1 H2]. unfold store_rule. rewrite H2. case_bool_decide; [done|]. by split. Qed.

Lemma set_crule_sim f c1 c2 : ctx_sim c1 c2 -> ctx_sim (set_crule f c1) (set_crule f c2).
Proof. intros [H1 H2]. split; [done|]. simpl. by rewrite H2. Qed.

Lemma start_attribute_sim name val c1 c2 :
  ctx_sim c1 c2 -> parse_sim ctx_sim (start_attribute name val c1) (start_attribute name val c2).
Proof.
  intros H. pose proof H as [H1 H2]. unfold start_attribute. rewrite H2.
  case_bool_decide; [destruct (0 <? _); [done | by apply store_key_sim]|].
  destruct (rtype (crule c2));
    try (destruct (negb _); [done|]; simpl; case_bool_decide; [done | by apply set_crule_sim]);
    try (case_bool_decide; [destruct (0 <? _); [done | by apply store_key_sim] | done]).
  destruct (_ =? 0); [done|]. simpl. case_bool_decide; [done|]. by apply store_value_sim, set_crule_sim.
Qed.

Lemma start_attributes_sim attr c1 c2 :
  ctx_sim c1 c2 -> parse_sim ctx_sim (start_attributes attr c1) (start_attributes attr c2).
Proof.
  revert c1 c2. induction attr as [|[name val] attr IH]; intros c1 c2 H; simpl; [done|].
  eapply pbind_sim; [by apply start_attribute_sim | by auto].
Qed.

End Similar.

Abbreviation ctx_sim := (sim_by (fun l1 l2 => length l1 = length l2)).

Lemma handle_event_sim ev c1 c2 :
  ctx_sim c1 c2 -> parse_sim ctx_sim (handle_event ev c1) (handle_event ev c2).
Proof.
  intros H. pose proof H as [H1 H2]. destruct ev as [el attr|s|el]; simpl.
  - unfold start. rewrite H2.
    eapply (pbind_sim ctx_sim); [case_bool_decide; [done | by apply store_rule_sim]|].
    intros a b [Ha Hb]. case_bool_decide; [by split|].
    eapply (pbind_sim ctx_sim); [apply start_attributes_sim; by split|]. intros a' b' H'.
    pose proof H' as [Ha' Hb']. simpl in Ha'. rewrite Hb'. destruct (_ =? 0); [done|]. case_bool_decide; [|done].
    unfold remember_jump_position. rewrite Ha'. case_decide; [done|].
    split; [|done]. simpl in *. by rewrite Ha'.
  - unfold cdata. rewrite H2. destruct (takes_text _); [by apply store_value_sim | done].
  - unfold end_. rewrite H2. destruct (get_rule_type el); try done;
      try (case_bool_decide; [by apply store_rule_sim | done]).
    eapply (pbind_sim ctx_sim); [case_bool_decide; [by apply store_rule_sim | done]|].
    intros a b [Ha Hb]. unfold set_jump_position.
    destruct (match_at_depth a), (match_at_depth b); try done. split; [|done]. simpl in *. lia.
Qed.

Lemma handle_events_sim evs c1 c2 :
  ctx_sim c1 c2 -> parse_sim ctx_sim (handle_events evs c1) (handle_events evs c2).
Proof.
  revert c1 c2. induction evs as [|ev evs IH]; intros c1 c2 H; simpl; [done|].
  eapply (pbind_sim ctx_sim); [by apply handle_event_sim | by auto].
Qed.

(** ** Documents and their meaning *)
Inductive xml := Element (el : string) (attr : list (string * string)) (children : list xml) | Text (s : string).

Fixpoint events_of (x : xml) : list event :=
  match x with
  | Text s => [Cdata s]
  | Element el attr children => Start el attr :: flat_map events_of children ++ [End el]
  end.

(** The rule the attributes of an element describe. *)
Definition element_rule (el : string) (attr : list (string * string)) : option rule :=
  match start_attributes attr
    (mk_ctx [] (mk_rule sizeof_rule 0 (get_rule_type el) MATCH_UNKNOWN MERGE_UNKNOWN "" "") 0 ∅ 0) with
  | Continue ctx => Some (crule ctx)
  | _ => None
  end.

Definition add_text (t : string) (r : rule) : rule :=
  mk_rule (rule_size r) (jump_position r) (rtype r) (type_match r) (type_merge r) (value r +:+ t) (key r).

Fixpoint text_of (children : list xml) : string :=
  match children with
  | [] => ""
  | Text s :: rest => s +:+ text_of rest
  | Element _ _ _ :: rest => text_of rest
  end.

(** Elements that are no rules only group; a match contains the rules of its
    children; the text of any other rule is its value. *)
Fixpoint doc_nodes (x : xml) : list node :=
  match x with
  | Text _ => []
  | Element el attr children =>
      match get_rule_type el with
      | RULE_UNKNOWN => flat_map doc_nodes children
      | RULE_MATCH =>
          match element_rule el attr with
          | Some r => [Match r (flat_map doc_nodes children)]
          | None => []
          end
      | t =>
          match element_rule el attr with
          | Some r => [Leaf (add_text (if takes_text t then text_of children else "") r)]
          | None => []
          end
      end
  end.

(** Rules without the fields of the layout. *)
Definition erase (r : rule) : rule := with_layout sizeof_rule 0 r.
Fixpoint erase_node (n : node) : node :=
  match n with
  | Leaf r => Leaf (erase r)
  | Match r children => Match (erase r) (map erase_node children)
  end.

Definition no_header : cache_header := mk_header 0 0 0 0.
Definition code (rs : gmap Z rule) (pos : Z) (ns : list node) (pos' : Z) : Prop :=
  code_at (mk_cache no_header rs) pos ns pos'.

Lemma code_frame rs rs' pos ns pos' :
  code rs pos ns pos' -> (forall p, pos <= p < pos' -> rs' !! p = rs !! p) -> code rs' pos ns pos'.
Proof.
  unfold code. induction 1 as [pos|pos r ns pos' Hr Hl Hs Hc IH
    |pos r ch ns pos1 pos' Hr Hm Hs Hc IH Hj Hc' IH']; intros Hf; simpl in *.
  - constructor.
  - pose proof (code_at_le _ _ _ _ Hc). constructor; [simpl; rewrite Hf; [done|lia] | done | done |].
    apply IH. intros p Hp. apply Hf. lia.
  - pose proof (code_at_le _ _ _ _ Hc). pose proof (code_at_le _ _ _ _ Hc').
    eapply code_match; [simpl; rewrite Hf; [done|lia] | done | done | | done |].
    + apply IH. intros p Hp. apply Hf. lia.
    + apply IH'. intros p Hp. apply Hf. lia.
Qed.

(** ** Storing the pending rule *)
Definition flush (ctx : fdi_context) : fdi_context :=
  match store_rule ctx with Continue c => c | _ => ctx end.

Definition clean (ctx : fdi_context) : Prop := rtype (crule ctx) = RULE_UNKNOWN.

Definition ok (ctx : fdi_context) : Prop :=
  0 <= file_end ctx /\ (clean ctx \/ (building ctx /\ key (crule ctx) <> "")).

Lemma flush_clean ctx : clean ctx -> flush ctx = ctx.
Proof. intros H. unfold flush, store_rule. by rewrite bool_decide_eq_true_2. Qed.

Lemma store_rule_flush ctx : ~ clean ctx -> store_rule ctx = Continue (flush ctx).
Proof. intros H. unfold flush, store_rule. by rewrite bool_decide_eq_false_2. Qed.

Lemma pending_end ctx :
  building ctx -> key (crule ctx) <> "" ->
  file_end ctx = data_end (position ctx) (crule ctx) /\
  RULES_ROUND (file_end ctx) = position ctx + size_of (crule ctx) /\
  ROUND32 (position ctx + sizeof_rule) <= file_end ctx /\ 0 < size_of (crule ctx).
Proof.
  intros [_ B2 B3] Hk. rewrite bool_decide_eq_false_2 in B3 by done.
  unfold data_end, size_of, key_len, value_len in *.
  pose proof (len_field_pos (key (crule ctx))). pose proof (len_field_pos (value (crule ctx))).
  split; [done|]. rewrite B3. repeat split; rounds.
Qed.

Lemma flush_pending ctx :
  building ctx -> key (crule ctx) <> "" ->
  file_rules (flush ctx) = <[position ctx := with_layout (size_of (crule ctx))
                               (jump_position (crule ctx)) (crule ctx)]> (file_rules ctx) /\
  clean (flush ctx) /\ file_end (flush ctx) = file_end ctx /\
  match_at_depth (flush ctx) = match_at_depth ctx.
Proof.
  intros B Hk. destruct (pending_end ctx B Hk) as (_ & _ & H & _). unfold flush, store_rule.
  rewrite bool_decide_eq_false_2 by apply B.
  split; [done|]. split; [done|]. split; [|done].
  change (file_end (pad32_write (position ctx) sizeof_rule ctx) = file_end ctx).
  rewrite pad32_write_end. lia.
Qed.

Lemma flush_ok ctx :
  ok ctx -> clean (flush ctx) /\ file_end (flush ctx) = file_end ctx /\
            match_at_depth (flush ctx) = match_at_depth ctx.
Proof.
  intros [_ [H|[B Hk]]].
  - by rewrite flush_clean.
  - by destruct (flush_pending ctx B Hk) as (_ & ? & ? & ?).
Qed.

(** ** What compiling a piece of a document achieves *)
Record compiled (ctx ctx' : fdi_context) (ns : list node) : Prop := {
  c_ok : ok ctx';
  c_stack : match_at_depth ctx' = match_at_depth ctx;
  c_end : file_end ctx <= file_end ctx';
  c_frame : forall p, p < RULES_ROUND (file_end ctx) ->
              file_rules (flush ctx') !! p = file_rules (flush ctx) !! p;
  c_code : exists ms, code (file_rules (flush ctx')) (RULES_ROUND (file_end ctx)) ms
                           (RULES_ROUND (file_end ctx')) /\ map erase_node ms = ns;
}.

Lemma round_mono a b : a <= b -> RULES_ROUND a <= RULES_ROUND b.
Proof. intros. rounds. Qed.

Lemma compiled_refl ctx : ok ctx -> compiled ctx ctx [].
Proof. intros H. split; try done. exists []. split; [constructor | done]. Qed.

Lemma compiled_trans ctx c1 c2 ns1 ns2 :
  compiled ctx c1 ns1 -> compiled c1 c2 ns2 -> compiled ctx c2 (ns1 ++ ns2).
Proof.
  intros [O1 S1 E1 F1 (ms1 & C1 & <-)] [O2 S2 E2 F2 (ms2 & C2 & <-)].
  pose proof (round_mono _ _ E1). pose proof (round_mono _ _ E2).
  split; [done | congruence | lia | |].
  - intros p Hp. rewrite F2 by lia. by apply F1.
  - exists (ms1 ++ ms2). split; [|apply map_app]. eapply code_at_app; [|apply C2].
    eapply code_frame; [apply C1|]. intros p Hp. apply F2. lia.
Qed.

(** ** The file only grows *)
Lemma store_key_mono k ctx ctx' : store_key k ctx = Continue ctx' -> file_end ctx <= file_end ctx'.
Proof.
  unfold store_key. do 2 (case_bool_decide; [done|]). intros [= <-]. rewrite pad32_write_end. simpl. lia.
Qed.
Lemma store_value_mono v ctx ctx' : store_value v ctx = Continue ctx' -> file_end ctx <= file_end ctx'.
Proof.
  unfold store_value. case_bool_decide; [done|]. destruct (_ <? 2); [done|].
  case_bool_decide; intros [= <-]; [lia|]. rewrite !pad32_write_end. simpl. lia.
Qed.
Lemma store_rule_mono ctx ctx' : store_rule ctx = Continue ctx' -> file_end ctx <= file_end ctx'.
Proof.
  unfold store_rule. case_bool_decide; [done|]. intros [= <-].
  change (file_end ctx <= file_end (pad32_write (position ctx) sizeof_rule ctx)).
  rewrite pad32_write_end. lia.
Qed.

Lemma flush_step ctx :
  (if bool_decide (rtype (crule ctx) = RULE_UNKNOWN) then Continue ctx else store_rule ctx)
  = Continue (flush ctx).
Proof.
  case_bool_decide as H; [by rewrite flush_clean | by apply store_rule_flush].
Qed.

Lemma flush_mono ctx : file_end ctx <= file_end (flush ctx).
Proof.
  unfold flush. destruct (store_rule ctx) eqn:E; [by apply store_rule_mono | done | done].
Qed.

Lemma start_attributes_mono attr ctx ctx' :
  start_attributes attr ctx = Continue ctx' -> file_end ctx <= file_end ctx'.
Proof.
  revert ctx. induction attr as [|[name val] attr IH]; intros ctx H; simpl in H; [by injection H as <-|].
  destruct (start_attribute name val ctx) as [ctx1| |] eqn:E; try done. simpl in H. apply IH in H.
  enough (file_end ctx <= file_end ctx1) by lia. clear -E.
  unfold start_attribute in E. case_bool_decide; [destruct (0 <? _); [done|]; by eapply store_key_mono|].
  destruct (rtype (crule ctx));
    try (destruct (negb _); [by injection E as <-|]; case_bool_decide; [done|]; by injection E as <-);
    try (case_bool_decide; [destruct (0 <? _); [done|]; by eapply store_key_mono | by injection E as <-]).
  destruct (_ =? 0); [done|]. case_bool_decide; [done|]. by apply store_value_mono in E.
Qed.

Lemma handle_event_mono ev ctx ctx' : handle_event ev ctx = Continue ctx' -> file_end ctx <= file_end ctx'.
Proof.
  destruct ev as [el attr|s|el]; simpl.
  - unfold start. intros H.
    rewrite flush_step in H. pose proof (flush_mono ctx). cbn [pbind] in H.
    case_bool_decide; [injection H as <-; done|].
    destruct (start_attributes attr _) as [c2| |] eqn:Ea; try done. apply start_attributes_mono in Ea.
    simpl in H, Ea. destruct (_ =? 0); [done|]. case_bool_decide; [|injection H as <-; lia].
    unfold remember_jump_position in H. case_decide; [done|]. injection H as <-. simpl. lia.
  - unfold cdata. destruct (takes_text _); [apply store_value_mono | by intros [= <-]].
  - unfold end_. intros H. destruct (get_rule_type el); try (by injection H as <-);
      try (case_bool_decide; [by apply store_rule_mono | done]).
    destruct (if bool_decide (rtype (crule ctx) = RULE_MATCH) then store_rule ctx else Continue ctx)
      as [c1| |] eqn:E; try done.
    assert (file_end ctx <= file_end c1).
    { case_bool_decide; [by apply store_rule_mono | by injection E as <-]. }
    simpl in H. unfold set_jump_position in H. destruct (match_at_depth c1); [done|].
    injection H as <-. simpl. lia.
Qed.

Lemma handle_events_mono evs ctx ctx' :
  handle_events evs ctx = Continue ctx' -> file_end ctx <= file_end ctx'.
Proof.
  revert ctx. induction evs as [|ev evs IH]; intros ctx H; simpl in H; [by injection H as <-|].
  destruct (handle_event ev ctx) as [c1| |] eqn:E; try done. simpl in H.
  apply handle_event_mono in E. apply IH in H. lia.
Qed.

Lemma handle_events_app evs1 evs2 ctx :
  handle_events (evs1 ++ evs2) ctx = let? c := handle_events evs1 ctx in handle_events evs2 c.
Proof.
  revert ctx. induction evs1 as [|ev evs1 IH]; intros ctx; simpl; [done|].
  destruct (handle_event ev ctx); simpl; auto.
Qed.

(** ** Elements *)

(** Offsets have 32 bits. *)
Definition fits (ctx : fdi_context) : Prop := RULES_ROUND (file_end ctx) < 2 ^ 32.

Definition compiles (x : xml) : Prop := forall ctx ctx',
  ok ctx -> handle_events (events_of x) ctx = Continue ctx' -> fits ctx' ->
  match x with
  | Element _ _ _ => compiled ctx ctx' (doc_nodes x) /\ clean ctx'
  | Text _ => True
  end.

Lemma fits_mono evs ctx ctx' : handle_events evs ctx = Continue ctx' -> fits ctx' -> fits ctx.
Proof. unfold fits. intros H%handle_events_mono Hf. pose proof (round_mono _ _ H). lia. Qed.

(** Children where text is ignored. *)
Lemma compiles_children ch ctx ctx' :
  Forall compiles ch -> ok ctx -> takes_text (rtype (crule ctx)) = false ->
  handle_events (flat_map events_of ch) ctx = Continue ctx' -> fits ctx' ->
  compiled ctx ctx' (flat_map doc_nodes ch) /\ (clean ctx' \/ ctx' = ctx).
Proof.
  intros Hch. revert ctx. induction Hch as [|x ch Hx _ IH]; intros ctx Hok Ht H Hf; simpl in H.
  - injection H as <-. split; [by apply compiled_refl | by right].
  - rewrite handle_events_app in H.
    destruct (handle_events (events_of x) ctx) as [c1| |] eqn:E; try done. cbn [pbind] in H.
    assert (fits c1) as Hf1 by (by eapply fits_mono).
    destruct x as [el attr ch'|s].
    + destruct (Hx ctx c1 Hok E Hf1) as [C1 Hc1].
      destruct (IH c1) as [C2 Hc2]; [apply C1 | by rewrite Hc1 | done | done |].
      split; [by eapply compiled_trans|]. left. by destruct Hc2 as [| ->].
    + simpl in E. unfold cdata in E. rewrite Ht in E. simpl in E. injection E as <-.
      by apply (IH ctx).
Qed.

(** Children of a rule whose value is its text. *)
Lemma leaf_children ch ctx ctx' :
  Forall compiles ch -> building ctx -> key (crule ctx) <> "" ->
  handle_events (flat_map events_of ch) ctx = Continue ctx' -> fits ctx' -> 0 <= file_end ctx ->
  clean ctx' \/
  (building ctx' /\ same_frame ctx ctx' /\ key (crule ctx') <> "" /\
   erase (crule ctx') = erase (add_text (if takes_text (rtype (crule ctx)) then text_of ch else "")
                                        (crule ctx))).
Proof.
  intros Hch. revert ctx. induction Hch as [|x ch Hx Hch IH]; intros ctx B Hk H Hf H0; simpl in H.
  - injection H as <-. right. split; [done|]. split; [done|]. split; [done|].
    unfold erase, with_layout, add_text. simpl.
    destruct (takes_text _); by rewrite string_app_nil_r.
  - rewrite handle_events_app in H.
    destruct (handle_events (events_of x) ctx) as [c1| |] eqn:E; try done. cbn [pbind] in H.
    assert (fits c1) as Hf1 by (by eapply fits_mono).
    destruct x as [el attr ch'|s].
    + left. destruct (Hx ctx c1) as [C1 Hc1]; [split; [done | by right] | done | done |].
      destruct (compiles_children ch c1 ctx') as [_ Hc]; [done | apply C1 | by rewrite Hc1 | done.. |].
      by destruct Hc as [| ->].
    + simpl in E. unfold cdata in E. destruct (takes_text (rtype (crule ctx))) eqn:Et.
      * destruct (store_value s ctx) as [c| |] eqn:Es; try done. simpl in E. injection E as <-.
        pose proof (store_value_mono _ _ _ Es).
        apply store_value_ok in Es as (B1 & F1 & K1 & V1 & M1 & M2); [|done].
        destruct (IH c) as [Hc|(B2 & F2 & K2 & E2)]; [done | by rewrite K1 | done | done | lia | by left |].
        right. split; [done|]. split; [by eapply same_frame_trans|]. split; [done|].
        rewrite E2. destruct F1 as (_ & _ & _ & Fr & _). rewrite Fr, Et.
        unfold erase, with_layout, add_text. simpl. rewrite Fr, K1, V1, M1, M2.
        by rewrite string_app_assoc.
      * simpl in E. injection E as <-. destruct (IH ctx) as [Hc|(B2 & F2 & K2 & E2)]; [done..| |].
        -- by left.
        -- rewrite Et in E2. by right.
Qed.

(** The start of a rule. *)
Definition opened (el : string) (ctx : fdi_context) : fdi_context :=
  mk_ctx (match_at_depth (flush ctx))
    (mk_rule sizeof_rule 0 (get_rule_type el) MATCH_UNKNOWN MERGE_UNKNOWN "" "")
    (RULES_ROUND (file_end (flush ctx))) (file_rules (flush ctx)) (file_end (flush ctx)).

Lemma opened_building el ctx :
  ok ctx -> get_rule_type el <> RULE_UNKNOWN -> building (opened el ctx).
Proof.
  intros [H0 H] Ht. pose proof (flush_mono ctx). split; simpl; [done | rounds |]. split; [done|]. rounds.
Qed.

Lemma element_rule_spec el attr ctx ctx1 :
  start_attributes attr (opened el ctx) = Continue ctx1 -> element_rule el attr = Some (crule ctx1).
Proof.
  intros H. unfold element_rule.
  pose proof (start_attributes_sim (fun _ _ => True) attr (opened el ctx) (mk_ctx []
    (mk_rule sizeof_rule 0 (get_rule_type el) MATCH_UNKNOWN MERGE_UNKNOWN "" "") 0 ∅ 0)
    ltac:(done)) as S.
  rewrite H in S. simpl in S. destruct (start_attributes attr (mk_ctx _ _ _ _ _)); try done.
  by destruct S as [_ ->].
Qed.


Lemma compiles_unknown el attr ch :
  Forall compiles ch -> get_rule_type el = RULE_UNKNOWN -> compiles (Element el attr ch).
Proof.
  intros Hch Ht ctx ctx' Hok H Hf. simpl in H. unfold start in H. rewrite flush_step in H.
  cbn [pbind] in H. rewrite bool_decide_eq_true_2 in H by done. cbn [pbind] in H.
  fold (opened el ctx) in H. destruct (flush_ok ctx Hok) as (F1 & F2 & F3).
  assert (clean (opened el ctx)) as Hcl by done.
  assert (ok (opened el ctx)) as Hok1 by (split; [simpl; rewrite F2; apply Hok | by left]).
  assert (compiled ctx (opened el ctx) []) as C0.
  { split; [done | done | simpl; lia | by rewrite (flush_clean (opened el ctx)) |].
    exists []. split; [|done]. simpl. rewrite F2. constructor. }
  rewrite handle_events_app in H.
  destruct (handle_events (flat_map events_of ch) (opened el ctx)) as [c2| |] eqn:E; try done.
  simpl in H. unfold end_ in H. rewrite Ht in H. simpl in H. injection H as <-.
  destruct (compiles_children ch (opened el ctx) c2) as [C Hc]; [done | done | by rewrite Hcl | done | done |].
  split; [|by destruct Hc as [| ->]].
  simpl. rewrite Ht. by apply (compiled_trans ctx (opened el ctx) c2 []).
Qed.

(** The element up to its children. *)
Lemma start_rule el attr ctx c1 :
  ok ctx -> get_rule_type el <> RULE_UNKNOWN -> start el attr ctx = Continue c1 ->
  exists ca, start_attributes attr (opened el ctx) = Continue ca /\ building ca /\
    key (crule ca) <> "" /\ same_frame (opened el ctx) ca /\ element_rule el attr = Some (crule ca) /\
    (if bool_decide (get_rule_type el = RULE_MATCH) then remember_jump_position ca = Continue c1
     else c1 = ca).
Proof.
  intros Hok Ht H. unfold start in H. rewrite flush_step in H. cbn [pbind] in H.
  rewrite bool_decide_eq_false_2 in H by done. fold (opened el ctx) in H.
  destruct (start_attributes attr (opened el ctx)) as [ca| |] eqn:Ea; try done. cbn [pbind] in H.
  exists ca. destruct (start_attributes_ok _ _ _ (opened_building el ctx Hok Ht) Ea) as [B S].
  split; [done|]. split; [done|].
  destruct (Z.eqb_spec (key_len (crule ca)) 0) as [|Hk]; [done|].
  split; [intros E; unfold key_len in Hk; by rewrite E in Hk|]. split; [done|].
  split; [by eapply element_rule_spec|].
  assert (rtype (crule ca) = get_rule_type el) as Er by apply S. rewrite Er in H.
  case_bool_decide; [done | by injection H].
Qed.

(** The position of a new rule, and what is in front of it. *)
Lemma opened_frame el ctx ca :
  ok ctx -> same_frame (opened el ctx) ca ->
  position ca = RULES_ROUND (file_end ctx) /\ file_rules ca = file_rules (flush ctx) /\
  match_at_depth ca = match_at_depth ctx /\ jump_position (crule ca) = 0 /\
  rule_size (crule ca) = sizeof_rule.
Proof.
  intros Hok (S1 & S2 & S3 & _ & S5 & S6). destruct (flush_ok ctx Hok) as (_ & F2 & F3).
  simpl in *. rewrite F2 in S2. rewrite F3 in S1. done.
Qed.

Lemma erase_layout a b r : erase (with_layout a b r) = erase r.
Proof. done. Qed.

Lemma compiles_leaf el attr ch :
  Forall compiles ch -> get_rule_type el <> RULE_UNKNOWN -> get_rule_type el <> RULE_MATCH ->
  compiles (Element el attr ch).
Proof.
  intros Hch Ht1 Ht2 ctx ctx' Hok H Hf. simpl in H.
  destruct (start el attr ctx) as [c1| |] eqn:Es; try done. cbn [pbind] in H.
  destruct (start_rule el attr ctx c1 Hok Ht1 Es) as (ca & Ea & B & Hk & S & Er & E1).
  rewrite bool_decide_eq_false_2 in E1 by done. subst c1.
  rewrite handle_events_app in H.
  destruct (handle_events (flat_map events_of ch) ca) as [c2| |] eqn:E; try done. cbn [pbind] in H.
  assert (rtype (crule ca) = get_rule_type el) as Ety by apply S.
  destruct (pending_end ca B Hk) as (Eend & _ & _ & _).
  destruct (opened_frame el ctx ca Hok S) as (P1 & P2 & P3 & P4 & P5).
  assert (0 <= file_end ca) as H0.
  { apply start_attributes_mono in Ea. pose proof (flush_mono ctx). destruct Hok. simpl in Ea. lia. }
  assert (handle_event (End el) c2 = Continue ctx') as Hend.
  { simpl in H. simpl. by destruct (end_ el c2). }
  simpl in Hend.
  assert (rtype (crule c2) = get_rule_type el /\ store_rule c2 = Continue ctx') as [Ety2 Hst].
  { unfold end_ in Hend. destruct (get_rule_type el); try done; by case_bool_decide. }
  assert (fits c2) as Hf2. { unfold fits in *. pose proof (round_mono _ _ (store_rule_mono _ _ Hst)). lia. }
  destruct (leaf_children ch ca c2) as [Hc|(B2 & S2 & Hk2 & E2)]; [done..| |].
  { unfold clean in Hc. congruence. }
  rewrite store_rule_flush in Hst by (unfold clean; congruence). injection Hst as <-.
  destruct (flush_pending c2 B2 Hk2) as (R1 & R2 & R3 & R4).
  destruct (pending_end c2 B2 Hk2) as (Q1 & Q2 & Q3 & Q4).
  destruct S2 as (T1 & T2 & T3 & T4 & T5 & T6).
  assert (file_end ctx <= file_end c2) as Hmono.
  { apply handle_events_mono in E. apply start_attributes_mono in Ea. pose proof (flush_mono ctx).
    simpl in Ea. lia. }
  split; [|done]. split.
  - split; [destruct Hok; lia | by left].
  - congruence.
  - lia.
  - intros p Hp. rewrite (flush_clean (flush c2)), R1, T2, P1, lookup_insert_ne by (done || lia).
    by rewrite T3, P2.
  - exists [Leaf (with_layout (size_of (crule c2)) (jump_position (crule c2)) (crule c2))]. split.
    + rewrite (flush_clean (flush c2)), R1, R3, Q2, T2, P1 by done.
      apply code_leaf; [simpl; apply lookup_insert_eq | | done | constructor].
      split; simpl; rewrite Ety2; done.
    + simpl. rewrite Er, erase_layout, E2, Ety.
      assert (forall t, erase (add_text t (crule ca)) = add_text t (crule ca)) as ->.
      { intros t. unfold erase, with_layout, add_text. simpl. by rewrite P4, P5. }
      destruct (get_rule_type el); done.
Qed.

(** The context after the start of a match. *)
Definition pushed (ca : fdi_context) : fdi_context :=
  mk_ctx (position ca :: match_at_depth ca) (crule ca) (position ca) (file_rules ca) (file_end ca).

(** The end of a match writes the jump behind its children. *)
Lemma close_match el ctx ca c2 ctx' ns :
  ok ctx -> building ca -> key (crule ca) <> "" -> same_frame (opened el ctx) ca ->
  rtype (crule ca) = RULE_MATCH -> file_end ctx <= file_end ca ->
  compiled (pushed ca) c2 ns -> set_jump_position (flush c2) = Continue ctx' -> fits ctx' ->
  compiled ctx ctx' [Match (crule ca) ns] /\ clean ctx'.
Proof.
  intros Hok B Hk S Ety Hgrow [O2 S2 E2 F2 (ms & C2 & M2)] Hj Hf.
  destruct (opened_frame el ctx ca Hok S) as (P1 & P2 & P3 & P4 & P5).
  assert (building (pushed ca)) as B1 by (by destruct B).
  destruct (flush_ok c2 O2) as (G1 & G2 & G3).
  unfold set_jump_position in Hj. rewrite G3, S2 in Hj. simpl in Hj. injection Hj as <-.
  destruct (flush_pending (pushed ca) B1 Hk) as (R1 & R2 & R3 & R4).
  destruct (pending_end (pushed ca) B1 Hk) as (Q1 & Q2 & Q3 & Q4). simpl in Q2, R1.
  unfold fits in Hf. simpl in Hf. rewrite G2 in Hf |- *.
  assert (u32 (RULES_ROUND (file_end c2)) = RULES_ROUND (file_end c2)) as ->.
  { apply wrap_u_id. destruct O2 as [? _]. split; [rounds | lia]. }
  set (r1 := with_layout (size_of (crule ca)) 0 (crule ca)).
  assert (file_rules (flush c2) !! position ca = Some r1) as Hr.
  { rewrite F2 by (simpl in *; lia). rewrite R1, P4. apply lookup_insert_eq. }
  match goal with |- compiled _ ?c _ /\ _ => set (c3 := c) end.
  assert (clean c3) as Hc3 by done. pose proof (round_mono _ _ E2) as Hm2.
  split; [|done]. split; [split; [simpl; apply O2 | by left] | done | simpl in *; lia | |].
  - intros p Hp. rewrite (flush_clean c3) by done. simpl.
    rewrite lookup_alter_ne by lia. rewrite F2 by (simpl in *; lia).
    rewrite R1, lookup_insert_ne by lia. by rewrite P2.
  - exists [Match (with_layout (size_of (crule ca)) (RULES_ROUND (file_end c2)) (crule ca)) ms]. split.
    + rewrite (flush_clean c3) by done. simpl. rewrite <- P1.
      eapply code_match; [simpl; rewrite lookup_alter_eq, Hr; reflexivity | done | done | | reflexivity | constructor].
      simpl. rewrite <- Q2. eapply code_frame; [apply C2|]. intros p Hp.
      rewrite lookup_alter_ne; [done|]. simpl in *. lia.
    + simpl. rewrite M2, erase_layout. unfold erase, with_layout. rewrite <- P4, <- P5.
      by destruct (crule ca).
Qed.

Lemma compiles_match el attr ch :
  Forall compiles ch -> get_rule_type el = RULE_MATCH -> compiles (Element el attr ch).
Proof.
  intros Hch Ht ctx ctx' Hok H Hf. simpl in H.
  destruct (start el attr ctx) as [c1| |] eqn:Es; try done. cbn [pbind] in H.
  destruct (start_rule el attr ctx c1 Hok ltac:(by rewrite Ht) Es) as (ca & Ea & B & Hk & S & Er & E1).
  rewrite bool_decide_eq_true_2 in E1 by done.
  unfold remember_jump_position in E1. case_decide; [done|]. injection E1 as <-. fold (pushed ca) in H.
  rewrite handle_events_app in H.
  destruct (handle_events (flat_map events_of ch) (pushed ca)) as [c2| |] eqn:E; try done. cbn [pbind] in H.
  assert (rtype (crule ca) = RULE_MATCH) as Ety by (rewrite <- Ht; apply S).
  assert (file_end ctx <= file_end ca) as Hgrow.
  { apply start_attributes_mono in Ea. pose proof (flush_mono ctx). simpl in Ea. lia. }
  assert (ok (pushed ca)) as Hok1 by (split; [destruct Hok; simpl; lia | right; by destruct B]).
  assert (handle_event (End el) c2 = Continue ctx') as Hend.
  { simpl in H. simpl. by destruct (end_ el c2). }
  assert (fits c2) as Hf2.
  { unfold fits in *. pose proof (round_mono _ _ (handle_event_mono _ _ _ Hend)). lia. }
  simpl in Hend. unfold end_ in Hend. rewrite Ht in Hend.
  destruct (compiles_children ch (pushed ca) c2) as [C Hc]; [done|done|by simpl; rewrite Ety|done|done|].
  simpl. rewrite Ht, Er. apply (close_match el ctx ca c2); [done..| |done].
  destruct Hc as [Hc| ->].
  - unfold clean in Hc. rewrite Hc in Hend. by rewrite (flush_clean c2 Hc).
  - simpl in Hend. rewrite bool_decide_eq_true_2 in Hend by done.
    rewrite store_rule_flush in Hend by (unfold clean; simpl; congruence). done.
Qed.

Lemma xml_compiles : forall x, compiles x.
Proof.
  fix IH 1. intros [el attr ch|s]; [|by intros ctx ctx' _ _ _].
  assert (Forall compiles ch) as Hch by (induction ch; constructor; auto).
  destruct (get_rule_type el) eqn:Ht; try (apply compiles_leaf; [done | by rewrite Ht..]).
  - by apply compiles_unknown.
  - by apply compiles_match.
Qed.

(** ** Files *)
Definition eof_rule (name : string) : rule :=
  mk_rule sizeof_rule 0 RULE_EOF MATCH_UNKNOWN MERGE_UNKNOWN "" name.

Definition eof_context (name : string) (ctx : fdi_context) : fdi_context :=
  mk_ctx (match_at_depth ctx) (mk_rule sizeof_rule 0 RULE_EOF MATCH_UNKNOWN MERGE_UNKNOWN "" "")
         (RULES_ROUND (file_end ctx)) (file_rules ctx) (file_end ctx).

(** A file as a tree; [None]: not well formed. *)
Definition source_file : Type := (string * option (list xml))%type.
Definition file_events (s : source_file) : string * option (list event) :=
  (s.1, flat_map events_of <$> s.2).

(** What a compiled file adds to the cache file. *)
Record file_added (f f' : cache_file) (ns : list node) : Prop := {
  fa_end : cf_end f < cf_end f';
  fa_frame : forall p, p < RULES_ROUND (cf_end f) -> cf_rules f' !! p = cf_rules f !! p;
  fa_code : exists ms r pos, ns = map erase_node ms ++ [Leaf (erase r)] /\ rtype r = RULE_EOF /\
    0 < rule_size r /\ code (cf_rules f') (RULES_ROUND (cf_end f)) ms pos /\
    cf_rules f' !! pos = Some r /\ pos < cf_end f' /\ RULES_ROUND (cf_end f') = pos + rule_size r;
}.

Lemma file_compiles name doc f f' :
  0 <= cf_end f -> compile_fdi_file name (Some (flat_map events_of doc)) f = Continue f' ->
  RULES_ROUND (cf_end f') < 2 ^ 32 ->
  file_added f f' (flat_map doc_nodes doc ++ [Leaf (eof_rule name)]).
Proof.
  intros H0 H Hf. unfold compile_fdi_file in H. set (ctx0 := mk_ctx [] init_rule_struct 0 _ _) in H.
  destruct (handle_events (flat_map events_of doc) ctx0) as [c1| |] eqn:E1; try done. cbn [pbind] in H.
  fold (eof_context name c1) in H.
  destruct (store_key name (eof_context name c1)) as [c2| |] eqn:E2; try done. cbn [pbind] in H.
  destruct (store_value "" c2) as [c3| |] eqn:E3; try done. cbn [pbind] in H.
  destruct (store_rule c3) as [c4| |] eqn:E4; try done. cbn [pbind] in H. injection H as <-.
  pose proof (store_rule_mono _ _ E4) as M4. pose proof (store_value_mono _ _ _ E3) as M3.
  pose proof (store_key_mono _ _ _ E2) as M2. simpl in M2.
  pose proof (handle_events_mono _ _ _ E1) as M1. simpl in M1, Hf.
  assert (fits c1) as Hf1.
  { unfold fits. pose proof (round_mono (file_end c1) (file_end c4) ltac:(lia)). lia. }
  assert (ok ctx0) as Hok0 by (split; [done | by left]).
  destruct (compiles_children doc ctx0 c1) as [[O1 S1 End1 F1 (ms & C1 & Hms)] Hc];
    [by apply Forall_true, xml_compiles | done | done | done | done |].
  assert (clean c1) as Hc1 by (by destruct Hc as [| ->]).
  rewrite (flush_clean c1) in F1, C1 by done. rewrite (flush_clean ctx0) in F1 by done.
  assert (building (eof_context name c1)) as B1.
  { split; simpl; [done | rounds |]. split; [done | rounds]. }
  apply store_key_ok in E2 as (B2 & S2 & K2 & V2 & Hne & T2 & T2'); [|done..].
  apply store_value_ok in E3 as (B3 & S3 & K3 & V3 & T3 & T3'); [|done].
  assert (same_frame (eof_context name c1) c3) as (G1 & G2 & G3 & G4 & G5 & G6)
    by (by eapply same_frame_trans). simpl in G1, G2, G3, G4, G5, G6.
  assert (key (crule c3) <> "") as Hk3 by congruence.
  destruct (flush_pending c3 B3 Hk3) as (R1 & R2 & R3 & R4).
  destruct (pending_end c3 B3 Hk3) as (Q1 & Q2 & Q3 & Q4).
  rewrite store_rule_flush in E4 by apply B3. injection E4 as <-.
  split; simpl.
  - rewrite R3. simpl in *. rounds.
  - intros p Hp. pose proof (round_mono _ _ M1). rewrite R1, G2, lookup_insert_ne by lia.
    rewrite G3. by apply F1.
  - exists ms, (with_layout (size_of (crule c3)) (jump_position (crule c3)) (crule c3)), (position c3).
    split; [|split; [done|split; [done|]]].
    + rewrite Hms, erase_layout. f_equal. unfold erase, with_layout, eof_rule.
      rewrite G4, K3, K2, V3, V2, T3, T2, T3', T2'. done.
    + split; [|split; [by rewrite R1, lookup_insert_eq|]].
      * rewrite G2. eapply code_frame; [apply C1|]. intros p Hp.
        rewrite R1, G2, lookup_insert_ne by lia. by rewrite G3.
      * rewrite R3. split; [rounds | done].
Qed.

(** ** Sections *)
Definition accepted (s : source_file) : bool :=
  match compile_fdi_file s.1 (file_events s).2 (mk_file ∅ 0) with Continue _ => true | _ => false end.

Definition file_nodes (s : source_file) : list node :=
  if accepted s then flat_map doc_nodes (default [] s.2) ++ [Leaf (eof_rule s.1)] else [].

(** The meaning of a list of files: those that compile, in order. *)
Definition section_nodes (files : list source_file) : list node := flat_map file_nodes files.

Lemma compile_sim name evs f1 f2 :
  parse_sim (fun _ _ => True) (compile_fdi_file name evs f1) (compile_fdi_file name evs f2).
Proof.
  unfold compile_fdi_file. destruct evs as [evs|]; [|done].
  eapply (pbind_sim ctx_sim); [by apply handle_events_sim|]. intros a b [Ha _].
  eapply (pbind_sim ctx_sim); [by apply store_key_sim|]. intros a' b' H'.
  eapply (pbind_sim ctx_sim); [by apply store_value_sim|]. intros a'' b'' H''.
  by eapply (pbind_sim ctx_sim); [apply store_rule_sim|].
Qed.

Lemma accepted_spec s f :
  match compile_fdi_file s.1 (file_events s).2 f with
  | Continue _ => accepted s = true
  | _ => accepted s = false
  end.
Proof.
  unfold accepted. pose proof (compile_sim s.1 (file_events s).2 f (mk_file ∅ 0)) as H.
  by destruct (compile_fdi_file _ _ f), (compile_fdi_file _ _ (mk_file ∅ 0)).
Qed.

Lemma compile_mono name evs f f' : compile_fdi_file name evs f = Continue f' -> cf_end f <= cf_end f'.
Proof.
  unfold compile_fdi_file. intros H. destruct evs as [evs|]; [|done].
  destruct (handle_events evs _) as [c1| |] eqn:E1; try done. cbn [pbind] in H.
  destruct (store_key name _) as [c2| |] eqn:E2; try done. cbn [pbind] in H.
  destruct (store_value "" c2) as [c3| |] eqn:E3; try done. cbn [pbind] in H.
  destruct (store_rule c3) as [c4| |] eqn:E4; try done. cbn [pbind] in H. injection H as <-.
  apply handle_events_mono in E1. apply store_key_mono in E2. apply store_value_mono in E3.
  apply store_rule_mono in E4. simpl in *. lia.
Qed.

(** Where the accepted files end when they are laid out one after the other. *)
Fixpoint lay_out (files : list source_file) (f : cache_file) : cache_file :=
  match files with
  | [] => f
  | s :: rest =>
      match compile_fdi_file s.1 (file_events s).2 f with
      | Continue f' => lay_out rest f'
      | _ => lay_out rest f
      end
  end.

(** The bytes of a cache that holds every accepted file. *)
Definition cache_size (files : DeviceInfoType -> list source_file) : Z :=
  cf_end (lay_out (files DEVICE_INFO_TYPE_PREPROBE ++ files DEVICE_INFO_TYPE_INFORMATION
                   ++ files DEVICE_INFO_TYPE_POLICY) (mk_file ∅ sizeof_cache_header)).

Lemma lay_out_app l1 l2 f : lay_out (l1 ++ l2) f = lay_out l2 (lay_out l1 f).
Proof.
  revert f. induction l1 as [|s l1 IH]; intros f; simpl; [done|]. by destruct (compile_fdi_file _ _ f).
Qed.

Lemma lay_out_mono files f : cf_end f <= cf_end (lay_out files f).
Proof.
  revert f. induction files as [|s files IH]; intros f; simpl; [done|].
  destruct (compile_fdi_file _ _ f) as [f'| |] eqn:E; auto.
  apply compile_mono in E. specialize (IH f'). lia.
Qed.

Lemma rules_add_below name evs f f' :
  compile_fdi_file name evs f = Continue f' -> 0 <= cf_end f' < 2 ^ 31 ->
  rules_add_fdi_file name evs f = Continue f'.
Proof.
  intros E H. unfold rules_add_fdi_file. rewrite E. cbn [pbind].
  rewrite wrap_s_id by (unfold in_s; lia). by destruct (Z.ltb_spec (cf_end f') 0); [lia|].
Qed.

(** ** The files of a section

    The FDI files below directories, in the order in which they are compiled;
    [None] when a directory cannot be scanned. *)
Fixpoint entry_files (dir : string) (e : dirent) : option (list (string * option (list event))) :=
  match e with
  | RegularFile filename evs => Some (if is_fdi filename then [(path_in dir filename, evs)] else [])
  | Subdirectory filename entries =>
      if has_prefix filename "." then Some []
      else match entries with
           | None => None
           | Some es =>
               (fix loop (es : list dirent) :=
                  match es with
                  | [] => Some []
                  | e :: es' => l ← entry_files (path_in dir filename) e; l' ← loop es'; Some (l ++ l')
                  end) es
           end
  | OtherEntry _ => Some []
  end.

Fixpoint entries_files (dir : string) (es : list dirent) : option (list (string * option (list event))) :=
  match es with
  | [] => Some []
  | e :: es' => l ← entry_files dir e; l' ← entries_files dir es'; Some (l ++ l')
  end.

Fixpoint directory_files (dirs : directories) : option (list (string * option (list event))) :=
  match dirs with
  | [] => Some []
  | (dir, es) :: rest => es ← es; l ← entries_files dir es; l' ← directory_files rest; Some (l ++ l')
  end.

(** Compiling a list of files. *)
Fixpoint add_files (files : list (string * option (list event))) (f : cache_file) (skipped : Z)
  : parse (cache_file * Z) :=
  match files with
  | [] => Continue (f, skipped)
  | (name, evs) :: rest =>
      match rules_add_fdi_file name evs f with
      | Continue f' => add_files rest f' skipped
      | Stopped => add_files rest f (skipped + 1)
      | Died => Died
      end
  end.

Lemma add_files_app l1 l2 f k :
  add_files (l1 ++ l2) f k = (let? x := add_files l1 f k in add_files l2 x.1 x.2).
Proof.
  revert f k. induction l1 as [|[name evs] l1 IH]; intros f k; simpl; [done|].
  by destruct (rules_add_fdi_file name evs f).
Qed.

Definition counted (k : Z) (r : parse (cache_file * Z)) : parse (cache_file * Z) :=
  let? x := r in Continue (x.1, k + x.2).

Lemma counted_counted k k' r : counted k (counted k' r) = counted (k + k') r.
Proof. destruct r as [[f n]| |]; [|done..]. simpl. by rewrite Z.add_assoc. Qed.

Lemma add_files_counted l f k : add_files l f k = counted k (add_files l f 0).
Proof.
  revert f k. induction l as [|[name evs] l IH]; intros f k; simpl; [by rewrite Z.add_0_r|].
  destruct (rules_add_fdi_file name evs f) as [f'| |]; [apply IH| |done].
  rewrite (IH f (k + 1)), (IH f (0 + 1)), counted_counted. done.
Qed.

Lemma add_files_then l l' f :
  add_files (l ++ l') f 0 = (let? x := add_files l f 0 in counted x.2 (add_files l' x.1 0)).
Proof.
  rewrite add_files_app. destruct (add_files l f 0) as [[f' k]| |]; [|done..]. simpl.
  apply add_files_counted.
Qed.

Lemma search_entry_files : forall e dir l f,
  entry_files dir e = Some l -> search_entry dir e f = add_files l f 0.
Proof.
  fix IH 1. intros [name evs|name entries|name] dir l f H; simpl in *.
  - injection H as <-. destruct (is_fdi name); [|done]. simpl.
    by destruct (rules_add_fdi_file _ _ _).
  - destruct (has_prefix name "."); [by simplify_eq|]. destruct entries as [es|]; [|done].
    match goal with |- ?loop es f 0 = _ =>
      cut (forall k, loop es f k = counted k (add_files l f 0)) end.
    { intros H'. rewrite H'. by destruct (add_files l f 0) as [[f' n]| |]. }
    revert l f H. induction es as [|e es IHes]; intros l f H k; simpl in *.
    { simplify_eq. simpl. by rewrite Z.add_0_r. }
    apply bind_Some in H as (l1 & H1 & H). apply bind_Some in H as (l2 & H2 & H). simplify_eq.
    rewrite (IH e _ l1 f H1), add_files_then.
    destruct (add_files l1 f 0) as [[f1 n1]| |]; [|done..]. simpl.
    rewrite (IHes l2 f1 H2). symmetry. apply counted_counted.
  - by simplify_eq.
Qed.

Lemma search_entries_files es dir l f k :
  entries_files dir es = Some l -> search_entries dir es f k = add_files l f k.
Proof.
  revert l f k. induction es as [|e es IH]; intros l f k H; simpl in *; [by simplify_eq|].
  apply bind_Some in H as (l1 & H1 & H). apply bind_Some in H as (l2 & H2 & H). simplify_eq.
  rewrite (search_entry_files e dir l1 f H1), (add_files_counted (l1 ++ l2)), add_files_then.
  destruct (add_files l1 f 0) as [[f1 n1]| |]; [|done..]. simpl.
  rewrite (IH l2 f1 _ H2), counted_counted. apply add_files_counted.
Qed.

Lemma search_directories_files dirs l f k :
  directory_files dirs = Some l -> search_directories dirs f k = add_files l f k.
Proof.
  revert l f k. induction dirs as [|[dir [es|]] dirs IH]; intros l f k H; simpl in *;
    [by simplify_eq | | done].
  apply bind_Some in H as (l1 & H1 & H). apply bind_Some in H as (l2 & H2 & H). simplify_eq.
  rewrite (search_entries_files es dir l1 f 0 H1), (add_files_counted (l1 ++ l2)), add_files_then.
  destruct (add_files l1 f 0) as [[f1 n1]| |]; [|done..]. simpl.
  rewrite (IH l2 f1 _ H2), counted_counted. apply add_files_counted.
Qed.

Lemma file_added_trans f f1 f2 ns1 ns2 :
  file_added f f1 ns1 -> file_added f1 f2 ns2 -> file_added f f2 (ns1 ++ ns2).
Proof.
  intros [E1 F1 (ms1 & r1 & p1 & -> & T1 & Z1 & C1 & R1 & L1 & N1)]
         [E2 F2 (ms2 & r2 & p2 & -> & T2 & Z2 & C2 & R2 & L2 & N2)].
  pose proof (round_mono (cf_end f) (cf_end f1) ltac:(lia)).
  split; [lia | |].
  - intros p Hp. rewrite F2 by lia. by apply F1.
  - exists (ms1 ++ Leaf r1 :: ms2), r2, p2. split.
    + rewrite map_app, <- !app_assoc. done.
    + split; [done|]. split; [done|]. split; [|done].
      eapply code_at_app; [eapply code_frame; [apply C1|]; intros p Hp; apply F2; lia|].
      apply code_leaf; [simpl; rewrite F2; [done | lia] | split; by rewrite T1 | done |].
      rewrite <- N1. apply C2.
Qed.

Lemma section_compiles files f k f' k' :
  0 <= cf_end f -> cf_end (lay_out files f) < 2 ^ 31 ->
  add_files (map file_events files) f k = Continue (f', k') ->
  f' = lay_out files f /\
  k' = k + Z.of_nat (length (filter (fun s => accepted s = false) files)) /\
  ((section_nodes files = [] /\ f' = f) \/ file_added f f' (section_nodes files)).
Proof.
  revert f k. induction files as [|s files IH]; intros f k H0 Hf H; cbn [map add_files lay_out] in H, Hf |- *.
  - simplify_eq. split; [done|]. split; [simpl; lia | by left].
  - pose proof (accepted_spec s f) as Ha. unfold file_events in Ha, H, Hf |- *. cbn [fst snd] in Ha, H, Hf |- *.
    destruct (compile_fdi_file s.1 (flat_map events_of <$> s.2) f) as [f1| |] eqn:E.
    + pose proof (compile_mono _ _ _ _ E). pose proof (lay_out_mono files f1).
      rewrite (rules_add_below _ _ _ _ E) in H by lia.
      destruct (IH f1 k) as (Hf' & Hk & Hadd); [lia | done | done |].
      rewrite filter_cons_False by congruence. split; [done|]. split; [done|]. right.
      assert (file_added f f1 (file_nodes s)) as A1.
      { unfold file_nodes. rewrite Ha. destruct s as [name [doc|]]; [|done].
        apply file_compiles; [done | done | rounds]. }
      unfold section_nodes. simpl. destruct Hadd as [[E2 ->]|A2].
      * fold (section_nodes files). rewrite E2. by rewrite app_nil_r.
      * by eapply file_added_trans.
    + unfold rules_add_fdi_file in H. rewrite E in H. cbn [pbind] in H.
      destruct (IH f (k + 1)) as (Hf' & Hk & Hadd); [done..|].
      rewrite filter_cons_True by congruence. split; [done|]. split; [simpl; lia|].
      unfold section_nodes. simpl. unfold file_nodes at 1 3. rewrite Ha. done.
    + unfold rules_add_fdi_file in H. by rewrite E in H.
Qed.

(** ** The layout fields do not matter *)
Section Erase.
Context {P : Platform} (stack : list ascii).

Lemma run_node_erase s : forall n id e, run_node stack s (erase_node n) id e = run_node stack s n id e.
Proof.
  fix IH 1. intros [r|r ch] id e; [done|].
  change (erase_node (Match r ch)) with (Match (erase r) (map erase_node ch)).
  rewrite !run_match. change (handle_match e (erase r) id) with (handle_match e r id).
  destruct (defined _) as [|[]]; try done. simpl. revert e.
  induction ch as [|n ch IHch]; intros e; simpl; [done|]. rewrite IH.
  destruct (run_node stack s n id e); simpl; auto.
Qed.

Lemma run_nodes_erase s ns id e :
  run_nodes stack s (map erase_node ns) id e = run_nodes stack s ns id e.
Proof.
  revert e. induction ns as [|n ns IH]; intros e; simpl; [done|]. rewrite run_node_erase.
  destruct (run_node stack s n id e); simpl; auto.
Qed.

Lemma tree_search_erase trees depth id t e :
  tree_search stack (fun t => map erase_node (trees t)) depth id t e = tree_search stack trees depth id t e.
Proof.
  revert id t e. induction depth as [|depth IH]; intros id t e; simpl; rewrite run_nodes_erase; [done|].
  apply run_nodes_ext. intros new e'. rewrite IH.
  destruct (tree_search stack trees depth new _ e'); simpl; auto.
Qed.

(** ** The cache *)
Lemma code_cache c pos ns pos' : code (rules c) pos ns pos' -> code_at c pos ns pos'.
Proof. unfold code. induction 1; simpl in *; eauto using code_at. Qed.

Lemma file_added_laid_out c t f f' ns :
  section_start c t = RULES_ROUND (cf_end f) ->
  (section_end c t = RULES_ROUND (cf_end f') \/ section_end c t = cf_end f') ->
  (forall p, p < RULES_ROUND (cf_end f') -> rules c !! p = cf_rules f' !! p) ->
  (ns = [] /\ f' = f) \/ file_added f f' ns ->
  exists ms, laid_out c t ms /\ map erase_node ms = ns.
Proof.
  intros Hs He Hr [[-> ->]|[E F (ms & r & p & -> & T & Z & C & R & L & N)]].
  - exists []. split; [|done]. left. split; [|done]. destruct He as [-> | ->]; rewrite Hs; rounds.
  - exists (ms ++ [Leaf r]). split; [|by rewrite map_app]. right. exists ms, r, p.
    split; [done|]. split; [done|]. split; [done|].
    assert (cf_end f' <= RULES_ROUND (cf_end f')) by rounds. rewrite Hs. split; [|split].
    + apply code_cache. eapply code_frame; [apply C|]. intros q Hq. apply Hr. lia.
    + rewrite Hr by lia. done.
    + destruct He as [-> | ->]; lia.
Qed.

Lemma built_laid_out dirs (files : DeviceInfoType -> list source_file) b :
  build_cache dirs = Continue b -> (forall t, directory_files (dirs t) = Some (map file_events (files t))) ->
  cache_size files < 2 ^ 31 ->
  wf_header (header (cache_of b)) /\
  (forall t, exists ms, laid_out (cache_of b) t ms /\ map erase_node ms = section_nodes (files t)) /\
  b_skipped b = Z.of_nat (length (filter (fun s => accepted s = false)
    (files DEVICE_INFO_TYPE_PREPROBE ++ files DEVICE_INFO_TYPE_INFORMATION ++ files DEVICE_INFO_TYPE_POLICY))).
Proof.
  intros H Hd Hf. unfold build_cache in H. set (f0 := mk_file ∅ sizeof_cache_header) in H.
  destruct (search_directories _ f0 0) as [[f1 k1]| |] eqn:E1; try done. cbn [pbind fst snd] in H.
  destruct (search_directories _ f1 k1) as [[f2 k2]| |] eqn:E2; try done. cbn [pbind fst snd] in H.
  destruct (search_directories _ f2 k2) as [[f3 k3]| |] eqn:E3; try done. cbn [pbind fst snd] in H.
  injection H as <-. unfold cache_size in Hf. fold f0 in Hf. rewrite !lay_out_app in Hf.
  rewrite (search_directories_files _ _ _ _ (Hd _)) in E1. rewrite (search_directories_files _ _ _ _ (Hd _)) in E2.
  rewrite (search_directories_files _ _ _ _ (Hd _)) in E3.
  assert (cf_end f0 = 20) as Hf0 by done. assert (RULES_ROUND (cf_end f0) = 24) as R0 by done.
  pose proof (lay_out_mono (files DEVICE_INFO_TYPE_PREPROBE) f0) as M1.
  pose proof (lay_out_mono (files DEVICE_INFO_TYPE_INFORMATION) (lay_out (files DEVICE_INFO_TYPE_PREPROBE) f0)) as M2.
  match type of Hf with cf_end (lay_out ?l ?f) < _ => pose proof (lay_out_mono l f) as M3 end.
  apply section_compiles in E1 as (-> & K1 & A1); [|lia..].
  apply section_compiles in E2 as (-> & K2 & A2); [|lia..].
  apply section_compiles in E3 as (-> & K3 & A3); [|lia..].
  set (f1 := lay_out _ f0) in *. set (f2 := lay_out _ f1) in *. set (f3 := lay_out _ f2) in *.
  pose proof (round_mono _ _ M1). pose proof (round_mono _ _ M2). pose proof (round_mono _ _ M3).
  assert (cf_end f3 <= RULES_ROUND (cf_end f3) < cf_end f3 + 8) by (split; rounds).
  assert (forall f f' ns, (ns = [] /\ f' = f) \/ file_added f f' ns ->
    forall p, p < RULES_ROUND (cf_end f) -> cf_rules f' !! p = cf_rules f !! p) as Hframe.
  { intros f f' ns [[_ ->]|A] p Hp; [done | by apply A]. }
  assert (forall z, 0 <= z < 2 ^ 32 -> u32 z = z) as Hu by (intros; by apply wrap_u_id).
  unfold cache_of. cbn [b_preprobe b_information b_policy b_file b_skipped].
  change sizeof_cache_header with (cf_end f0).
  rewrite !Hu by lia. split; [unfold wf_header; cbn -[RULES_ROUND f0]; lia|]. split.
  - intros [].
    + apply (file_added_laid_out _ _ f0 f1); [done | by left | | done]. intros p Hp. simpl.
      rewrite (Hframe f2 f3 _ A3) by lia. by rewrite (Hframe f1 f2 _ A2) by lia.
    + apply (file_added_laid_out _ _ f1 f2); [done | by left | | done]. intros p Hp. simpl.
      by rewrite (Hframe f2 f3 _ A3) by lia.
    + by apply (file_added_laid_out _ _ f2 f3); [done | right | | done].
  - rewrite K3, K2, K1, !filter_app, !length_app. lia.
Qed.

Lemma cache_search dirs (files : DeviceInfoType -> list source_file) b depth id t e :
  build_cache dirs = Continue b -> (forall t, directory_files (dirs t) = Some (map file_events (files t))) ->
  cache_size files < 2 ^ 31 ->
  di_search_and_merge stack (cache_of b) depth id t e
  = tree_search stack (fun t => section_nodes (files t)) depth id t e.
Proof.
  intros H Hd Hf. destruct (built_laid_out dirs files b H Hd Hf) as (Hh & Hl & _).
  destruct (Hl DEVICE_INFO_TYPE_PREPROBE) as (m1 & L1 & N1).
  destruct (Hl DEVICE_INFO_TYPE_INFORMATION) as (m2 & L2 & N2).
  destruct (Hl DEVICE_INFO_TYPE_POLICY) as (m3 & L3 & N3).
  set (trees := fun t => match t with
    | DEVICE_INFO_TYPE_PREPROBE => m1 | DEVICE_INFO_TYPE_INFORMATION => m2
    | DEVICE_INFO_TYPE_POLICY => m3 end).
  rewrite (search_runs_the_tree stack (cache_of b) trees) by (done || by intros []).
  rewrite <- tree_search_erase. clear -N1 N2 N3. revert id t e.
  assert (forall t, map erase_node (trees t) = section_nodes (files t)) as Ht by (by intros []).
  induction depth as [|depth IH]; intros id t e; simpl; rewrite Ht; [done|].
  apply run_nodes_ext. intros new e'. rewrite IH.
  destruct (tree_search _ _ depth new _ e'); simpl; auto.
Qed.
End Erase.
