(* ===== verification/FdiClaims.v ===== *)
(** * What device information files do ([hald/create_cache.c], [hald/device_info.c]) *)

From Stdlib Require Import ZArith Lia Ascii SpecFloat.
From stdpp Require Import base list gmap strings option pretty fin_maps.
From S2P Require Import Prelude CStd Property Device DeviceTheory DeviceStore FdiRules FdiInterp FdiCache FdiCompile.

Section Claims.
Context {P : Platform} (stack : list ascii).

(** C1 The compiled cache means what the files say: when the cache was built,
    searching it for a device gives, for every section and device, the result
    of processing the accepted ones of the FDI files found below the
    directories of the section in the order of the traversal, the children of each <match>
    exactly when it holds; and the number of skipped files is that of the
    files that do not compile.  The condition: the rules of the accepted files
    take less than 2 GB (the end of a file is returned as an [int], and a
    negative one is taken for an error). *)
Theorem cache_means_the_files dirs (files : DeviceInfoType -> list source_file) b depth id t e :
  build_cache dirs = Continue b ->
  (forall t, directory_files (dirs t) = Some (map file_events (files t))) ->
  cache_size files < 2 ^ 31 ->
  di_search_and_merge stack (cache_of b) depth id t e
  = tree_search stack (fun t => section_nodes (files t)) depth id t e /\
  b_skipped b = Z.of_nat (length (filter (fun s => accepted s = false)
    (files DEVICE_INFO_TYPE_PREPROBE ++ files DEVICE_INFO_TYPE_INFORMATION ++ files DEVICE_INFO_TYPE_POLICY))).
Proof.
  intros H Hd Hf. split; [by apply (cache_search stack dirs files)|].
  by destruct (built_laid_out dirs files b H Hd Hf) as (_ & _ & ?).
Qed.

(** C14 On a compiled cache the interpreter never dies on a jump and never
    reads bytes that are no rule: every jump of a match leads to a rule of the
    same section.  (The rules of the accepted files take less than 2 GB.) *)
Theorem interpreter_stays_on_rules dirs (files : DeviceInfoType -> list source_file) b depth id t e :
  build_cache dirs = Continue b ->
  (forall t, directory_files (dirs t) = Some (map file_events (files t))) ->
  cache_size files < 2 ^ 31 ->
  di_search_and_merge stack (cache_of b) depth id t e <> inl RuleIsNull /\
  di_search_and_merge stack (cache_of b) depth id t e <> inl NoRuleThere.
Proof.
  intros H Hd Hf. rewrite (cache_search stack dirs files b) by done.
  split; intros E; apply tree_search_faults in E as [?|?]; discriminate.
Qed.

(** ** Comparisons *)
Definition order_of (t : match_type) : option (Z -> Z -> bool) :=
  match t with
  | MATCH_COMPARE_LT => Some Z.ltb
  | MATCH_COMPARE_LE => Some Z.leb
  | MATCH_COMPARE_GT => Some Z.gtb
  | MATCH_COMPARE_GE => Some Z.geb
  | MATCH_COMPARE_NE => Some (fun a b => negb (a =? b))
  | _ => None
  end.

(** The number a property is compared as. *)
Definition number_of (p : HalProperty) : option Z :=
  match p with
  | PInt32 z => Some z
  | PUint64 z => Some z
  | _ => None
  end.

Lemma compare_test_order t f a b :
  order_of t = Some f -> compare_test t (a - b) = f a b.
Proof.
  destruct t; intros H; simplify_eq/=; unfold Z.gtb, Z.geb;
    repeat match goal with |- context [?x <? ?y] => destruct (Z.ltb_spec x y) end;
    repeat match goal with |- context [?x <=? ?y] => destruct (Z.leb_spec x y) end;
    repeat match goal with |- context [?x =? ?y] => destruct (Z.eqb_spec x y) end;
    repeat match goal with |- context [?x ?= ?y] => destruct (Z.compare_spec x y) end;
    try done; lia.
Qed.

(** The five comparison matches decide the order of the integers, for
    32-bit and 64-bit properties, as long as the property is below 2^63 and
    the difference fits 64 bits. *)
Lemma comparisons_decide_the_order e id d t f prop p n v :
  order_of t = Some f -> props d !! prop = Some p -> number_of p = Some n ->
  - 2 ^ 31 <= n < 2 ^ 63 -> in_s 64 (n - strtoll v) ->
  match_device e id d t prop v = f n (strtoll v).
Proof.
  intros Ht Hp Hn Hr Hs. rewrite <- (compare_test_order t f n (strtoll v) Ht).
  assert (match_compare_property d prop v = Some (n - strtoll v)) as E.
  { unfold match_compare_property, hal_device_has_property, hal_device_property_get_type,
      hal_device_property_get_int, hal_device_property_get_uint64, hal_device_property_find.
    rewrite Hp. destruct p; simplify_eq/=.
    - by rewrite wrap_s_id.
    - rewrite (wrap_s_id 64 n) by (unfold in_s; lia). by rewrite wrap_s_id. }
  destruct t; simplify_eq/=; by rewrite E.
Qed.

(** An unsigned property of 2^63 and more is compared as a negative number:
    it counts as less than zero. *)
Lemma large_uint64_compares_below_zero e id d prop n :
  props d !! prop = Some (PUint64 n) -> 2 ^ 63 <= n < 2 ^ 64 ->
  match_device e id d MATCH_COMPARE_LT prop "0" = true.
Proof.
  intros Hp Hn. simpl. unfold match_compare_property, hal_device_has_property,
    hal_device_property_get_type, hal_device_property_get_uint64, hal_device_property_find.
  rewrite Hp. simpl. change (strtoll "0") with 0. rewrite Z.sub_0_r.
  assert (wrap_s 64 n = n - 2 ^ 64) as ->.
  { unfold wrap_s. Z.to_euclidean_division_equations; lia. }
  rewrite wrap_s_id by (unfold in_s; lia). apply Z.ltb_lt. lia.
Qed.

(** ** Appending to strings *)
Definition plain_key (k : string) : Prop := strchr k ":" = false.

Lemma merge_target_own e r id d :
  e_heap e !! id = Some d -> plain_key (key r) -> merge_target e r id = Some (Some (id, key r)).
Proof.
  intros Hd Hk. unfold merge_target. rewrite Hd. simpl. destruct (_ || _); [|done].
  unfold resolve_udiprop_path. rewrite Hk. simpl. unfold resolved_device. rewrite Hd.
  by rewrite bool_decide_eq_true_2.
Qed.

Lemma concat_buf_spec a b :
  (String.length a < HAL_PATH_MAX)%nat ->
  concat_buf a b = if decide (String.length a + String.length b < HAL_PATH_MAX)%nat
                   then Some (a +:+ b) else None.
Proof.
  intros Ha. unfold concat_buf, strncpy. rewrite decide_True by done. simpl.
  rewrite str_take_length. repeat case_decide; try lia; [|done].
  rewrite str_take_all by lia. done.
Qed.

Lemma set_string_over d k s v :
  props d !! k = Some (PString s) ->
  props (dev_of (hal_device_property_set_string k (Some v) d)) = <[k := PString (utf8_sanitize v)]> (props d)
  \/ (s = v /\ dev_of (hal_device_property_set_string k (Some v) d) = d).
Proof.
  intros H. change (hal_device_property_set_string k (Some v) d) with (set_value k (PString v) d).
  rewrite set_value_correct. unfold set_value_spec. rewrite H. simpl.
  destruct (decide (v = s)) as [->|Hne].
  - right. by rewrite bool_decide_eq_true_2.
  - left. by rewrite bool_decide_eq_false_2 by congruence.
Qed.

(** <append> and <prepend> of a text to a string property concatenate
    below 512 bytes; from 512 bytes on they write behind their stack buffer. *)
Lemma append_concatenates s r id d e old :
  e_heap e !! id = Some d -> plain_key (key r) -> props d !! key r = Some (PString old) ->
  type_merge r = MERGE_STRING -> rtype r = RULE_APPEND \/ rtype r = RULE_PREPEND ->
  (String.length old < HAL_PATH_MAX)%nat -> (String.length (value r) < HAL_PATH_MAX)%nat ->
  g_utf8_validate (old +:+ value r) = None -> g_utf8_validate (value r +:+ old) = None ->
  let text := if bool_decide (rtype r = RULE_APPEND) then old +:+ value r else value r +:+ old in
  match handle_merge stack s r id e with
  | inr (ok, e') =>
      (String.length old + String.length (value r) < HAL_PATH_MAX)%nat /\ ok = true /\
      exists d', e_heap e' !! id = Some d' /\ props d' = <[key r := PString text]> (props d)
  | inl f =>
      (HAL_PATH_MAX <= String.length old + String.length (value r))%nat /\ f = BufferOverrun
  end.
Proof.
  intros Hd Hk Hp Hm Hr Ho Hv U1 U2 text. unfold handle_merge.
  rewrite (merge_target_own e r id d) by done. cbn [defined obind].
  assert (merge_append stack e r id (key r) =
    if decide (String.length old + String.length (value r) < HAL_PATH_MAX)%nat
    then (fun x => (true, snd x)) <$> on_device id (hal_device_property_set_string (key r) (Some text)) e
    else None) as E.
  { unfold merge_append, is_type, hal_device_property_get_type, hal_device_property_get_string,
      hal_device_property_find. rewrite Hd. simpl. rewrite Hp. simpl. rewrite Hm. simpl.
    unfold text_to_add, strncpy. rewrite Hm, decide_True by done. simpl.
    unfold text. case_bool_decide; rewrite concat_buf_spec by done;
      [|rewrite Nat.add_comm]; by case_decide. }
  assert (handle_merge stack s r id e = defined (merge_append stack e r id (key r))) as Eh.
  { unfold handle_merge. rewrite (merge_target_own e r id d) by done. by destruct Hr as [-> | ->]. }
  unfold handle_merge in Eh. rewrite (merge_target_own e r id d) in Eh by done.
  cbn [defined obind] in Eh. rewrite Eh, E. case_decide as Hlen; [|simpl; split; [lia | done]].
  unfold on_device. rewrite Hd. simpl. split; [done|]. split; [done|]. eexists.
  rewrite lookup_insert_eq. split; [done|].
  assert (g_utf8_validate text = None) as Ut by (unfold text; by case_bool_decide).
  destruct (set_string_over d (key r) old text Hp) as [-> | [Heq ->]].
  - by rewrite utf8_sanitize_id.
  - symmetry. apply insert_id. by rewrite <- Heq.
Qed.

(** "contains_not" is the negation of "contains" exactly on properties that
    are missing, strings or string lists; on numbers both fail. *)
Lemma contains_not_negates_contains e id d prop v :
  match_device e id d MATCH_CONTAINS_NOT prop v =
  (if match props d !! prop with
      | None | Some (PString _) | Some (PStrlist _) => true
      | _ => false
      end
   then negb (match_device e id d MATCH_CONTAINS prop v) else false) /\
  (match props d !! prop with
   | None | Some (PString _) | Some (PStrlist _) => True
   | _ => match_device e id d MATCH_CONTAINS prop v = false
   end).
Proof.
  simpl. unfold contains, hal_device_has_property, is_type, hal_device_property_get_type,
    hal_device_property_find. by destruct (props d !! prop) as [[]|].
Qed.

(** ** Spawning outside the name space of devices *)
Definition env_ok (e : env) : Prop := forall id, id ∈ gdl e \/ id ∈ tdl e -> is_Some (e_heap e !! id).

Lemma find_device_insert p h id d l :
  (forall i, i ∈ l -> is_Some (h !! i)) -> h !! id = None ->
  find_device p (<[id := d]> h) l = find_device p h l.
Proof.
  intros Hl Hid. induction l as [|i l IH]; [done|]. simpl.
  rewrite lookup_insert_ne, IH; [done | set_solver |].
  intros ->. destruct (Hl i); [set_solver | congruence].
Qed.

Lemma fresh_id_new e : e_heap e !! fresh_id e = None.
Proof. apply (not_elem_of_dom (D := gset nat)). apply (is_fresh (dom (e_heap e) : gset nat)). Qed.

Lemma set_udi_udi k d : udi (dev_of (hal_device_set_udi k d)) = k.
Proof.
  unfold hal_device_set_udi. rewrite !dev_of_bind, dev_of_ret.
  destruct (set_string_keeps "info.udi" (Some k)
    (mk_device k (num_addons d) (num_addons_ready d) (props d))) as [W _].
  by apply write_frame in W as [? _].
Qed.

(** A spawned device that the store refuses leaves no trace in the lists. *)
Lemma spawn_refused k d e new e' :
  env_ok e -> has_prefix k UDI_PREFIX = false -> spawn_device k d e = Some (new, e') ->
  env_ok e' /\ is_Some (e_heap e' !! new) /\ forall u, env_find e' u = env_find e u.
Proof.
  intros Hok Hk H. unfold spawn_device, on_device in H. simpl in H.
  rewrite lookup_insert_eq in H. simpl in H. injection H as <- <-.
  pose proof (fresh_id_new e) as Hnew.
  match goal with |- env_ok (add_to_tdl _ (mk_env (<[_ := ?x]> _) _ _ _ _ _)) /\ _ => set (dn := x) end.
  assert (udi dn = k) as Hu.
  { unfold dn. rewrite !dev_of_bind. apply set_udi_udi. }
  unfold add_to_tdl. cbn [e_heap]. rewrite lookup_insert_eq. rewrite Hu, Hk.
  rewrite insert_insert_eq. split; [|split].
  - intros i Hi. simpl in *. rewrite lookup_insert. case_decide; [eauto|]. by apply Hok.
  - simpl. rewrite lookup_insert_eq. eauto.
  - intros u. unfold env_find. simpl. rewrite !find_device_insert; [done|..]; auto; intros; apply Hok; auto.
Qed.

Lemma spawn_total k d e : exists new e', spawn_device k d e = Some (new, e').
Proof.
  unfold spawn_device, on_device. simpl. rewrite lookup_insert_eq. simpl. eauto.
Qed.

Lemma spawn_tree_diverges trees r rest depth id e d :
  trees DEVICE_INFO_TYPE_INFORMATION = Leaf r :: rest -> rtype r = RULE_SPAWN ->
  has_prefix (key r) UDI_PREFIX = false ->
  env_ok e -> e_heap e !! id = Some d -> env_find e (key r) = None ->
  tree_search stack trees depth id DEVICE_INFO_TYPE_INFORMATION e = inl OutOfFuel.
Proof.
  intros Ht Hr Hk. revert id e d. induction depth as [|depth IH]; intros id e d Hok Hd Hf; simpl;
    rewrite Ht; cbn [run_nodes run_node]; rewrite Hr; unfold handle_merge, merge_target; rewrite Hd, Hr;
    simpl; rewrite Hf;
    destruct (spawn_total (key r) d e) as (new & e' & E); rewrite E; simpl; [done|].
  destruct (spawn_refused (key r) d e new e' Hok Hk E) as (Hok' & [d' Hd'] & Hfind).
  rewrite (IH new e' d' Hok' Hd' ltac:(by rewrite Hfind)). done.
Qed.

(** A <spawn> whose UDI lies outside "/org/freedesktop/Hal/devices/" never
    ends: the store refuses the new device, so the rules applied to it spawn
    it again; whatever the permitted depth, the recursion exceeds it. *)
Lemma spawn_outside_the_name_space_never_ends dirs (files : DeviceInfoType -> list source_file)
    b r rest depth id e d :
  build_cache dirs = Continue b ->
  (forall t, directory_files (dirs t) = Some (map file_events (files t))) ->
  cache_size files < 2 ^ 31 ->
  section_nodes (files DEVICE_INFO_TYPE_INFORMATION) = Leaf r :: rest ->
  rtype r = RULE_SPAWN -> has_prefix (key r) UDI_PREFIX = false ->
  env_ok e -> e_heap e !! id = Some d -> env_find e (key r) = None ->
  di_search_and_merge stack (cache_of b) depth id DEVICE_INFO_TYPE_INFORMATION e = inl OutOfFuel.
Proof.
  intros Hb Hds Hs Hn Hr Hk Hok Hd Hf. rewrite (cache_search stack dirs files b) by done.
  by eapply spawn_tree_diverges.
Qed.
End Claims.

(** ** Instances *)
Import AsciiPlatform.

Definition camera_documents : list (string * option (list xml)) :=
  [("10-camera.fdi", Some [Element "deviceinfo" [("version", "0.2")]
     [Text " "; Element "device" []
        [Element "match" [("key", "info.product"); ("string", "Camera")]
           [Text " "; Element "match" [("key", "usb.speed"); ("compare_ge", "100")]
              [Element "merge" [("key", "info.category"); ("type", "string")] [Text "fast"]];
            Element "append" [("key", "info.product"); ("type", "string")] [Text " X"; Text "1"]];
         Element "addset" [("key", "info.capabilities"); ("type", "strlist")] [Text "camera"]]]]);
   ("20-broken.fdi", Some [Element "match" [("string", "x")] []]);
   ("30-no-xml.fdi", None)].

Definition regular (s : source_file) : dirent := RegularFile s.1 (file_events s).2.

Definition camera_dirs (t : DeviceInfoType) : directories :=
  match t with
  | DEVICE_INFO_TYPE_INFORMATION =>
      [("/usr/share/hal/fdi/information",
        Some [Subdirectory "10freedesktop" (Some (map regular camera_documents));
              RegularFile "README" None]);
       ("/etc/hal/fdi/information", Some [])]
  | _ => []
  end.

Definition camera_files (t : DeviceInfoType) : list source_file :=
  match t with
  | DEVICE_INFO_TYPE_INFORMATION =>
      map (fun s => (path_in "/usr/share/hal/fdi/information/10freedesktop" s.1, s.2)) camera_documents
  | _ => []
  end.

Lemma camera_dirs_files t : directory_files (camera_dirs t) = Some (map file_events (camera_files t)).
Proof. by destruct t; vm_compute. Qed.

Definition camera_env : env :=
  mk_env {[1%nat := mk_device "/org/freedesktop/Hal/devices/usb_1" 0 0
            {[ "info.product" := PString "Camera"; "usb.speed" := PUint64 480 ]} ]}
         [] [1%nat] [] 0 [].

Definition zero_stack : list ascii := replicate 512 NUL.

Definition camera_cache : built :=
  match build_cache camera_dirs with
  | Continue b => b
  | _ => mk_built 0 0 0 (mk_file ∅ 0) 0
  end.

Lemma camera_cache_builds :
  build_cache camera_dirs = Continue camera_cache.
Proof. vm_compute. reflexivity. Qed.

(** A property of the device after the search. *)
Definition property_after (r : outcome env) (k : string) : option HalProperty :=
  match r with inr e => d ← e_heap e !! 1%nat; props d !! k | inl _ => None end.

Lemma cache_means_the_files_witness :
  b_skipped camera_cache = 2 /\
  let r := di_search_and_merge zero_stack (cache_of camera_cache) 0 1 DEVICE_INFO_TYPE_INFORMATION camera_env in
  property_after r "info.product" = Some (PString "Camera X1") /\
  property_after r "info.category" = Some (PString "fast") /\
  property_after r "info.capabilities" = Some (PStrlist ["camera"]).
Proof.
  destruct (cache_means_the_files zero_stack camera_dirs camera_files camera_cache 0 1
    DEVICE_INFO_TYPE_INFORMATION camera_env) as [E1 E2].
  - exact camera_cache_builds.
  - exact camera_dirs_files.
  - vm_compute. reflexivity.
  - cbv zeta. rewrite E1, E2. split; [vm_compute; reflexivity|].
    split; [vm_compute; reflexivity|]. split; vm_compute; reflexivity.
Defined.

Lemma interpreter_stays_on_rules_witness :
  di_search_and_merge zero_stack (cache_of camera_cache) 0 1 DEVICE_INFO_TYPE_INFORMATION camera_env
  <> inl RuleIsNull.
Proof.
  apply (interpreter_stays_on_rules zero_stack camera_dirs camera_files camera_cache 0 1
    DEVICE_INFO_TYPE_INFORMATION camera_env).
  - exact camera_cache_builds.
  - exact camera_dirs_files.
  - vm_compute. reflexivity.
Defined.

Definition camera : HalDevice := mk_device "/org/freedesktop/Hal/devices/usb_1" 0 0
  {[ "info.product" := PString "Camera"; "usb.speed" := PUint64 480; "usb.port" := PInt32 (-3);
     "volume.size" := PUint64 (2 ^ 63 + 5) ]}.

Lemma comparisons_decide_the_order_witness :
  match_device camera_env 1 camera MATCH_COMPARE_LT "usb.port" "0x10" = (-3 <? 16).
Proof.
  apply (comparisons_decide_the_order camera_env 1 camera MATCH_COMPARE_LT Z.ltb "usb.port"
    (PInt32 (-3)) (-3) "0x10"); [reflexivity..| lia | vm_compute; split; [discriminate | reflexivity]].
Defined.

Lemma large_uint64_compares_below_zero_witness :
  match_device camera_env 1 camera MATCH_COMPARE_LT "volume.size" "0" = true.
Proof.
  apply (large_uint64_compares_below_zero camera_env 1 camera "volume.size" (2 ^ 63 + 5));
    [vm_compute; reflexivity | lia].
Defined.

Definition append_rule : rule :=
  mk_rule 64 0 RULE_APPEND MATCH_UNKNOWN MERGE_STRING " X1" "info.product".

Lemma append_concatenates_witness :
  match handle_merge zero_stack (fun _ e => inr e) append_rule 1 camera_env with
  | inr (ok, e') => ok = true
  | inl _ => False
  end.
Proof.
  pose proof (append_concatenates zero_stack (fun _ e => inr e) append_rule 1
    (mk_device "/org/freedesktop/Hal/devices/usb_1" 0 0
            {[ "info.product" := PString "Camera"; "usb.speed" := PUint64 480 ]}) camera_env "Camera"
    eq_refl eq_refl eq_refl eq_refl (or_introl eq_refl)) as H.
  destruct (handle_merge zero_stack (fun _ e => inr e) append_rule 1 camera_env) as [f|[ok e']] eqn:E.
  - vm_compute in E. discriminate E.
  - apply H; [unfold HAL_PATH_MAX; simpl; lia.. | reflexivity | reflexivity].
Defined.

Definition bad_spawn : list xml :=
  [Element "deviceinfo" [] [Element "spawn" [("udi", "/my/device")] []]].
Definition bad_spawn_dirs (t : DeviceInfoType) : directories :=
  match t with
  | DEVICE_INFO_TYPE_INFORMATION => [("/fdi", Some [regular ("spawn.fdi", Some bad_spawn)])]
  | _ => []
  end.
Definition bad_spawn_files (t : DeviceInfoType) : list source_file :=
  match t with
  | DEVICE_INFO_TYPE_INFORMATION => [("/fdi/spawn.fdi", Some bad_spawn)]
  | _ => []
  end.

Lemma spawn_outside_the_name_space_never_ends_witness :
  exists b, build_cache bad_spawn_dirs = Continue b /\
    di_search_and_merge zero_stack (cache_of b) 40 1 DEVICE_INFO_TYPE_INFORMATION camera_env
    = inl OutOfFuel.
Proof.
  destruct (build_cache bad_spawn_dirs) as [b| |] eqn:E;
    [|vm_compute in E; discriminate E..].
  exists b. split; [reflexivity|].
  eapply (spawn_outside_the_name_space_never_ends zero_stack bad_spawn_dirs bad_spawn_files b).
  - exact E.
  - intros []; reflexivity.
  - vm_compute in E. injection E as <-. vm_compute. reflexivity.
  - vm_compute. reflexivity.
  - reflexivity.
  - reflexivity.
  - intros id [H|H]; simpl in H; [by apply not_elem_of_nil in H|].
    apply list_elem_of_singleton in H as ->. eexists. reflexivity.
  - reflexivity.
  - reflexivity.
Defined.
