(* ===== verification/AccessCheck.v ===== *)
(** * Who may use a locked device ([hald/access-check.c], lock methods of [hald/hald_dbus.c])

    The D-Bus methods that take and release interface locks, on a device or
    globally (a lock on the computer object under the name "Global.<interface>"),
    and the checks whether a caller is locked out.

    What the daemon knows of a caller ([ci_tracker_get_info]) is asked from the
    bus daemon and ConsoleKit and is a parameter, as are the answers of
    PolicyKit, the effective user id and the configuration of the build. *)

From Stdlib Require Import ZArith Lia Ascii SpecFloat.
From stdpp Require Import base list gmap strings option pretty fin_maps.
From S2P Require Import Prelude CStd Property Device DeviceTheory DeviceMerge Locks DeviceStore FdiRules.

Record CICallerInfo := mk_caller {
  ci_uid : Z;
  ci_ck_session_path : option string;
  ci_is_local : bool;
  ci_in_active_session : bool;
}.

(** [PolicyKit]: action and caller to the result; [None] when the caller
    cannot be described to it. *)
Inductive configuration :=
  | NoConsoleKit
  | ConsoleKit
  | PolicyKit (can_do : string -> string -> option bool).

Definition COMPUTER : string := "/org/freedesktop/Hal/devices/computer".

(** The daemon: devices and lists, and the devices with locks. *)
Record daemon := mk_daemon { d_env : env; d_locked : list nat }.

Definition find_by_udi (e : env) (u : string) : option (nat * HalDevice) :=
  id ← env_find e u; d ← e_heap e !! id; Some (id, d).

Section Access.
Context (cfg : configuration) (ci_tracker_get_info : string -> option CICallerInfo) (geteuid : Z).

(** ** The checks *)
Definition access_check_caller_is_root_or_hal (caller : string) : bool :=
  match ci_tracker_get_info caller with
  | None => false
  | Some ci => negb (negb (ci_uid ci =? 0) && negb (ci_uid ci =? geteuid))
  end.

(** [sender] is [None] on the direct connection of a helper. *)
Definition access_check_message_caller_is_root_or_hal (sender : option string) : bool :=
  match sender with
  | None => false
  | Some s => access_check_caller_is_root_or_hal s
  end.

Definition access_check_caller_have_access_to_device (device : HalDevice) (action caller : string)
  : bool :=
  match cfg with
  | NoConsoleKit => true
  | _ =>
      match ci_tracker_get_info caller with
      | None => false
      | Some ci =>
          if (ci_uid ci =? 0) || (ci_uid ci =? geteuid) then true
          else if (action =s? "hal-lock") && (udi device =s? COMPUTER) then true
          else match cfg with
               | PolicyKit can_do =>
                   match can_do action caller with Some true => true | _ => false end
               | _ =>
                   match ci_ck_session_path ci with
                   | None => false
                   | Some _ => if negb (ci_is_local ci) then false
                               else if negb (ci_in_active_session ci) then false
                               else true
                   end
               end
      end
  end.

(** The loop over the holders of the global lock: [None] when the caller holds
    it and may access the device, otherwise whether the device is locked. *)
Fixpoint global_loop (device : HalDevice) (caller : string) (holders : list string)
    (is_locked : bool) : option bool :=
  match holders with
  | [] => Some is_locked
  | h :: rest =>
      let access := access_check_caller_have_access_to_device device "hal-lock" h in
      if h =s? caller then
        if access then None else global_loop device caller rest is_locked
      else global_loop device caller rest (if access then true else is_locked)
  end.

Definition access_check_caller_locked_out (e : env) (device : HalDevice) (caller interface : string)
  : bool :=
  match find_by_udi e COMPUTER with
  | None => true
  | Some (_, computer) =>
      let holders := default [] (hal_device_get_lock_holders device interface) in
      let global_holders :=
        default [] (hal_device_get_lock_holders computer ("Global." +:+ interface)) in
      if existsb (fun h => h =s? caller) holders then false
      else match global_loop device caller global_holders (negb (bool_decide (holders = []))) with
           | None => false
           | Some is_locked => is_locked
           end
  end.

(** [caller] is [None] on a direct connection. *)
Definition is_other (caller : option string) (h : string) : bool :=
  match caller with None => true | Some c => negb (h =s? c) end.

Definition access_check_locked_by_others (e : env) (device : HalDevice) (caller : option string)
    (interface : string) : bool :=
  match find_by_udi e COMPUTER with
  | None => true
  | Some (_, computer) =>
      let holders := default [] (hal_device_get_lock_holders device interface) in
      let global_holders :=
        default [] (hal_device_get_lock_holders computer ("Global." +:+ interface)) in
      if existsb (is_other caller) holders then true
      else existsb (fun h => is_other caller h &&
                             access_check_caller_have_access_to_device device "hal-lock" h) global_holders
  end.

(** ** The methods *)
Inductive reply :=
  | NoSuchDevice (u : string)
  | SyntaxError (method_name : string)
  | PermissionDenied (reason : string)
  | InterfaceAlreadyLocked (interface : string)
  | InterfaceNotLocked (interface : string)
  | Return
  | ReturnBool (b : bool).

(** An operation on the locks of a device of the daemon. *)
Definition lock_step (id : nat) (op : dev (bool * locked_change)) (w : daemon) : bool * daemon :=
  match on_device id op (d_env w) with
  | Some ((b, change), e) => (b, mk_daemon e (apply_change id change (d_locked w)))
  | None => (false, w)
  end.

(** [args] is [None] when [dbus_message_get_args] fails; [sender] is the name
    of the caller. *)
Definition device_acquire_interface_lock (u : string) (args : option (string * bool))
    (sender : string) (local_interface : bool) (w : daemon) : reply * daemon :=
  match find_by_udi (d_env w) u with
  | None => (NoSuchDevice u, w)
  | Some (id, d) =>
      match args with
      | None => (SyntaxError "AqcuireInterfaceLock", w)
      | Some (interface_name, exclusive) =>
          if negb local_interface &&
             negb (access_check_caller_have_access_to_device d "org.freedesktop.hal.lock" sender)
          then (PermissionDenied "AcquireInterfaceLock: no access to device", w)
          else match lock_step id (hal_device_acquire_lock interface_name exclusive sender) w with
               | (true, w') => (Return, w')
               | (false, w') => (InterfaceAlreadyLocked interface_name, w')
               end
      end
  end.

Definition device_release_interface_lock (u : string) (args : option string) (sender : string)
    (w : daemon) : reply * daemon :=
  match find_by_udi (d_env w) u with
  | None => (NoSuchDevice u, w)
  | Some (id, _) =>
      match args with
      | None => (SyntaxError "ReleaseInterfaceLock", w)
      | Some interface_name =>
          match lock_step id (hal_device_release_lock interface_name sender) w with
          | (true, w') => (Return, w')
          | (false, w') => (InterfaceNotLocked interface_name, w')
          end
      end
  end.

Definition device_is_caller_locked_out (u : string) (args : option (string * string))
    (sender : option string) (local_interface : bool) (w : daemon) : reply * daemon :=
  match find_by_udi (d_env w) u with
  | None => (NoSuchDevice u, w)
  | Some (_, d) =>
      if negb local_interface && negb (access_check_message_caller_is_root_or_hal sender)
      then (PermissionDenied "IsCallerLockedOut: not privileged", w)
      else match args with
           | None => (SyntaxError "IsCallerLockedOut", w)
           | Some (interface_name, caller) =>
               (ReturnBool (access_check_caller_locked_out (d_env w) d caller interface_name), w)
           end
  end.

Definition device_is_locked_by_others (u : string) (args : option string) (sender : option string)
    (w : daemon) : reply * daemon :=
  match find_by_udi (d_env w) u with
  | None => (NoSuchDevice u, w)
  | Some (_, d) =>
      match args with
      | None => (SyntaxError "IsLockedByOthers", w)
      | Some interface_name =>
          (ReturnBool (access_check_locked_by_others (d_env w) d sender interface_name), w)
      end
  end.

Definition device_acquire_global_interface_lock (args : option (string * bool)) (sender : string)
    (w : daemon) : reply * daemon :=
  match find_by_udi (d_env w) COMPUTER with
  | None => (NoSuchDevice COMPUTER, w)
  | Some (id, _) =>
      match args with
      | None => (SyntaxError "AqcuireGlobalInterfaceLock", w)
      | Some (interface_name, exclusive) =>
          match lock_step id (hal_device_acquire_lock ("Global." +:+ interface_name) exclusive sender) w with
          | (true, w') => (Return, w')
          | (false, w') => (InterfaceAlreadyLocked interface_name, w')
          end
      end
  end.

Definition device_release_global_interface_lock (args : option string) (sender : string)
    (w : daemon) : reply * daemon :=
  match find_by_udi (d_env w) COMPUTER with
  | None => (NoSuchDevice COMPUTER, w)
  | Some (id, _) =>
      match args with
      | None => (SyntaxError "ReleaseGlobalInterfaceLock", w)
      | Some interface_name =>
          match lock_step id (hal_device_release_lock ("Global." +:+ interface_name) sender) w with
          | (true, w') => (Return, w')
          | (false, w') => (InterfaceNotLocked interface_name, w')
          end
      end
  end.

(** ** Who is locked out *)
Definition access (device : HalDevice) (h : string) : bool :=
  access_check_caller_have_access_to_device device "hal-lock" h.

Definition holders_on (d : HalDevice) (lock_name : string) : list string :=
  default [] (hal_device_get_lock_holders d lock_name).

Lemma global_loop_spec device caller G b :
  global_loop device caller G b =
  if decide (caller ∈ G /\ access device caller = true) then None
  else Some (b || existsb (fun h => negb (h =s? caller) && access device h) G).
Proof.
  revert b. induction G as [|h G IH]; intros b; cbn [global_loop existsb].
  - rewrite decide_False by set_solver. by rewrite orb_false_r.
  - fold (access device h). case_bool_decide as Hh; simpl.
    + subst h. destruct (access device caller) eqn:Ea.
      * rewrite decide_True; [done|]. split; [set_solver | done].
      * rewrite IH, !decide_False; [done | naive_solver | naive_solver].
    + rewrite IH. destruct (decide (caller ∈ G /\ access device caller = true)) as [[H1 H2]|Hn].
      * rewrite decide_True; [done|]. split; [set_solver | done].
      * rewrite decide_False by set_solver. by destruct (access device h), b.
Qed.

(** Another client keeps [caller] from the interface. *)
Definition kept_out (computer device : HalDevice) (caller interface : string) : Prop :=
  (caller ∉ holders_on device interface) /\
  ~ (caller ∈ holders_on computer ("Global." +:+ interface) /\ access device caller = true) /\
  (holders_on device interface <> [] \/
   exists h, h ∈ holders_on computer ("Global." +:+ interface) /\ h <> caller /\ access device h = true).

Lemma existsb_other (l : list string) caller (f : string -> bool) :
  existsb (fun h => negb (h =s? caller) && f h) l = true <->
  exists h, h ∈ l /\ h <> caller /\ f h = true.
Proof.
  rewrite existsb_exists. split; intros (h & Hin & H); exists h; rewrite list_elem_of_In in *.
  - apply andb_true_iff in H as [H1 H2]. apply negb_true_iff, bool_decide_eq_false in H1. done.
  - destruct H as [H1 H2]. split; [done|]. by rewrite bool_decide_eq_false_2, H2.
Qed.

Lemma locked_out_spec e device caller interface computer id :
  find_by_udi e COMPUTER = Some (id, computer) ->
  access_check_caller_locked_out e device caller interface = true <->
  kept_out computer device caller interface.
Proof.
  intros Hc. unfold access_check_caller_locked_out. rewrite Hc.
  fold (holders_on device interface) (holders_on computer ("Global." +:+ interface)).
  unfold kept_out. destruct (existsb _ (holders_on device interface)) eqn:Ex.
  - apply existsb_eqs_spec in Ex. naive_solver.
  - apply existsb_eqs_false in Ex. rewrite global_loop_spec. case_decide as Hd.
    + naive_solver.
    + rewrite orb_true_iff, existsb_other, negb_true_iff, bool_decide_eq_false. naive_solver.
Qed.

Lemma locked_by_others_spec e device caller interface computer id :
  find_by_udi e COMPUTER = Some (id, computer) ->
  access_check_locked_by_others e device (Some caller) interface = true <->
  (exists h, h ∈ holders_on device interface /\ h <> caller) \/
  (exists h, h ∈ holders_on computer ("Global." +:+ interface) /\ h <> caller /\ access device h = true).
Proof.
  intros Hc. unfold access_check_locked_by_others. rewrite Hc. simpl.
  fold (holders_on device interface) (holders_on computer ("Global." +:+ interface)).
  pose proof (existsb_other (holders_on computer ("Global." +:+ interface)) caller (access device)) as Hg.
  assert (existsb (is_other (Some caller)) (holders_on device interface) = true <->
          exists h, h ∈ holders_on device interface /\ h <> caller) as Hh.
  { rewrite existsb_exists. simpl. split; intros (h & Hin & H); exists h; rewrite list_elem_of_In in *;
      (split; [done|]); [apply negb_true_iff, bool_decide_eq_false in H | rewrite bool_decide_eq_false_2];
      done. }
  simpl in Hh. destruct (existsb _ (holders_on device interface)).
  - naive_solver.
  - unfold access in Hg. rewrite Hg. split; [by right|]. intros [H|H]; [|done]. naive_solver.
Qed.

(** ** Lock operations keep UDIs *)
Lemma find_device_same_udi u h id d d' l :
  h !! id = Some d -> udi d' = udi d ->
  find_device (fun x => udi x =s? u) (<[id := d']> h) l = find_device (fun x => udi x =s? u) h l.
Proof.
  intros Hd Hu. induction l as [|i l IH]; [done|]. simpl. rewrite IH, lookup_insert.
  case_decide; [subst|done]. by rewrite Hd, Hu.
Qed.
End Access.
