(* ===== verification/AccessClaims.v ===== *)
(** * What interface locks guarantee to clients ([hald/access-check.c], [hald/hald_dbus.c]) *)

From Stdlib Require Import ZArith Lia Ascii SpecFloat.
From stdpp Require Import base list gmap strings option pretty fin_maps.
From S2P Require Import Prelude CStd Property Device DeviceTheory DeviceMerge Locks DeviceStore FdiRules AccessCheck.

(** ** Lock operations keep UDIs *)
Definition keeps_udi {A} (m : dev A) : Prop := forall d, udi (dev_of (m d)) = udi d.

Lemma keeps_udi_bind {A B} (m : dev A) (k : A -> dev B) :
  keeps_udi m -> (forall a, keeps_udi (k a)) -> keeps_udi (dbind m k).
Proof. intros Hm Hk d. by rewrite dev_of_bind, Hk, Hm. Qed.

Lemma keeps_keeps_udi {A} k (m : dev A) : keeps k m -> keeps_udi m.
Proof. intros Hm d. destruct (Hm d) as [W _]. by apply write_frame in W as [-> _]. Qed.

Lemma remove_keeps_udi k : keeps_udi (hal_device_property_remove k).
Proof.
  intros d. unfold hal_device_property_remove, dbind, dget, drop_prop, g_signal_emit, dret.
  by destruct (hal_device_property_find d k).
Qed.

(** A lock operation keeps the name of the device. *)
Ltac keeps_udi :=
  let p := fresh "P" in pose (p := AsciiPlatform.platform);
  repeat match goal with
  | |- keeps_udi (dbind _ _) => apply keeps_udi_bind; [|intros]
  | |- keeps_udi (if ?b then _ else _) => destruct b
  | |- keeps_udi (dret _) => done
  | |- keeps_udi (dget _) => done
  | |- keeps_udi (g_signal_emit _) => done
  | |- keeps_udi (hal_device_property_remove _) => apply remove_keeps_udi
  | |- keeps_udi _ => eapply keeps_keeps_udi; solve [eauto with hal]
  end.

Lemma acquire_udi n ex s : keeps_udi (hal_device_acquire_lock n ex s).
Proof. unfold hal_device_acquire_lock. keeps_udi. Qed.
Lemma release_udi n s : keeps_udi (hal_device_release_lock n s).
Proof. unfold hal_device_release_lock. keeps_udi. Qed.

Section Claims.
Context (cfg : configuration) (ci_tracker_get_info : string -> option CICallerInfo) (geteuid : Z).

(** The condition of hal-spec-locking.xml, with its two clauses, for a caller [a]. *)
Definition holds_device_lock (device : HalDevice) (interface c : string) : Prop := c ∈ holders_on device interface.
Definition holds_global_lock (computer : HalDevice) (interface c : string) : Prop :=
  c ∈ holders_on computer ("Global." +:+ interface).
Definition may_access (device : HalDevice) (c : string) : Prop :=
  access cfg ci_tracker_get_info geteuid device c = true.
Definition documented (computer device : HalDevice) (interface a : string) : Prop :=
  let holds_either := holds_global_lock computer interface a \/ holds_device_lock device interface a in
  (exists b, b <> a /\ holds_device_lock device interface b /\ ~ holds_either) \/
  (exists b, b <> a /\ holds_global_lock computer interface b /\ may_access device b /\ ~ holds_either).

(** What the code adds: a holder of the global lock without access to the
    device is treated like a caller without locks. *)
Definition undocumented (computer device : HalDevice) (interface a : string) : Prop :=
  holds_global_lock computer interface a /\ ~ may_access device a /\ ~ holds_device_lock device interface a /\
  exists b, b <> a /\ (holds_device_lock device interface b \/ holds_global_lock computer interface b /\ may_access device b).

Lemma kept_out_cases computer device interface a :
  kept_out cfg ci_tracker_get_info geteuid computer device a interface <->
  documented computer device interface a \/ undocumented computer device interface a.
Proof.
  unfold kept_out, documented, undocumented, holds_device_lock, holds_global_lock, may_access.
  assert (N : a ∉ holders_on device interface ->
    holders_on device interface <> [] <-> exists b, b <> a /\ b ∈ holders_on device interface).
  { intros Ha. destruct (holders_on device interface) as [|b l]; [split; [done|intros (b & _ & []%not_elem_of_nil)]|].
    split; [|done]. intros _. exists b. set_solver. }
  destruct (decide (a ∈ holders_on computer ("Global." +:+ interface))) as [G|G],
    (access cfg ci_tracker_get_info geteuid device a) eqn:A; naive_solver.
Qed.

(** C12 Who is locked out of an interface, compared with the documentation
    (hal-spec-locking.xml and the comment at the function).  For every state
    of the daemon, device, caller and interface: when there is no computer
    object, the caller is locked out.  Otherwise the caller is
    locked out exactly when the documented condition holds (somebody else holds the
    lock of the device, or the global lock with access to the device, and the
    caller holds neither the global lock nor the lock of the device), or in
    one case in which the documentation says it never is, and the code
    differs: the caller holds the global lock but may not access the device,
    does not hold the lock of the device, and somebody else holds that one or, with
    access, the global lock. *)
Theorem locked_out_iff_kept_out e device caller interface :
  let locked_out := access_check_caller_locked_out cfg ci_tracker_get_info geteuid e device caller interface in
  match find_by_udi e COMPUTER with
  | None => locked_out = true
  | Some (_, computer) =>
      locked_out = true <-> documented computer device interface caller \/ undocumented computer device interface caller
  end.
Proof.
  intros locked_out. destruct (find_by_udi e COMPUTER) as [[id computer]|] eqn:Hc.
  - rewrite <- kept_out_cases. by apply (locked_out_spec _ _ _ _ _ _ _ computer id).
  - unfold locked_out, access_check_caller_locked_out. by rewrite Hc.
Qed.

(** Whoever is locked out is told so by "IsLockedByOthers" too: a caller
    that is locked out is locked out by others. *)
Lemma locked_out_means_locked_by_others e device caller interface :
  access_check_caller_locked_out cfg ci_tracker_get_info geteuid e device caller interface = true ->
  access_check_locked_by_others cfg ci_tracker_get_info geteuid e device (Some caller) interface = true.
Proof.
  destruct (find_by_udi e COMPUTER) as [[id computer]|] eqn:Hc.
  - rewrite (locked_out_spec cfg ci_tracker_get_info geteuid e device caller interface computer id Hc).
    rewrite (locked_by_others_spec cfg ci_tracker_get_info geteuid e device caller interface computer id Hc).
    intros (H1 & H2 & [H3|H3]); [left|by right].
    destruct (holders_on device interface) as [|h hs]; [done|]. exists h. set_solver.
  - intros _. unfold access_check_locked_by_others. by rewrite Hc.
Qed.

Lemma lock_step_env id op w d b change e :
  e_heap (d_env w) !! id = Some d -> lock_step id op w = (b, mk_daemon e change) ->
  b = (res (op d)).1 /\ e_heap e = <[id := dev_of (op d)]> (e_heap (d_env w)) /\
  gdl e = gdl (d_env w) /\ tdl e = tdl (d_env w).
Proof.
  intros Hd H. unfold lock_step, on_device in H. rewrite Hd in H. simpl in H.
  destruct (res (op d)) as [b' c']. by simplify_eq/=.
Qed.

Lemma find_after e e' id d d' u :
  e_heap e !! id = Some d -> e_heap e' = <[id := d']> (e_heap e) -> gdl e' = gdl e -> tdl e' = tdl e ->
  udi d' = udi d -> env_find e' u = env_find e u.
Proof.
  intros Hd Hh Hg Ht Hu. unfold env_find. rewrite Hh, Hg, Ht.
  by rewrite !(find_device_same_udi u (e_heap e) id d d').
Qed.

Lemma find_by_udi_heap e u id d : find_by_udi e u = Some (id, d) -> env_find e u = Some id /\ e_heap e !! id = Some d.
Proof.
  unfold find_by_udi. destruct (env_find e u) as [i|]; [|done]. simpl.
  destruct (e_heap e !! i) eqn:E; simpl; intros; simplify_eq. done.
Qed.

Lemma acquired_holders n s d t :
  lock_rep d t -> name_ok n -> (res (hal_device_acquire_lock n true s d)).1 = true ->
  holders_on (dev_of (hal_device_acquire_lock n true s d)) n = [s].
Proof.
  intros R Hn H. destruct (acquire_simulates d t n true s R Hn) as [E R'].
  rewrite E in H. simpl in H. unfold holders_on. rewrite (holders_of_rep _ _ n R' Hn).
  unfold acquire_spec in *. destruct (t !! n) as [[[|] hs]|]; simpl in *; try done.
  by rewrite lookup_insert_eq.
Qed.

(** The method AcquireInterfaceLock, asked for an exclusive lock, keeps
    everybody else out: after it returned to a client, any other caller is
    locked out of the interface on the device, unless that caller holds the
    global lock and may access the device. *)
Lemma exclusive_lock_keeps_others_out u interface sender local w w' id d t other computer cid :
  find_by_udi (d_env w) u = Some (id, d) -> lock_rep d t -> name_ok interface ->
  device_acquire_interface_lock cfg ci_tracker_get_info geteuid u (Some (interface, true)) sender local w
    = (Return, w') ->
  find_by_udi (d_env w') COMPUTER = Some (cid, computer) ->
  other <> sender ->
  ~ (other ∈ holders_on computer ("Global." +:+ interface) /\
     access cfg ci_tracker_get_info geteuid (dev_of (hal_device_acquire_lock interface true sender d)) other = true) ->
  exists d', find_by_udi (d_env w') u = Some (id, d') /\ holders_on d' interface = [sender] /\
             access_check_caller_locked_out cfg ci_tracker_get_info geteuid (d_env w') d' other interface = true.
Proof.
  intros Hf R Hn H Hc Hne Hg. apply find_by_udi_heap in Hf as Hf'. destruct Hf' as [Hid Hd].
  unfold device_acquire_interface_lock in H. rewrite Hf in H.
  destruct (negb local && _); [done|].
  destruct (lock_step id _ w) as [b [e' l']] eqn:E. destruct b; [|done]. injection H as <-.
  destruct (lock_step_env id _ w d true l' e' Hd E) as (Hb & Hh & Hgd & Htd).
  set (d' := dev_of (hal_device_acquire_lock interface true sender d)) in *.
  assert (holders_on d' interface = [sender]) as Hs by (apply (acquired_holders interface sender d t); [done|done|by symmetry]).
  exists d'. split; [|split; [done|]].
  - unfold find_by_udi. simpl. rewrite (find_after (d_env w) e' id d d') by (done || apply acquire_udi).
    rewrite Hid. simpl. by rewrite Hh, lookup_insert_eq.
  - apply (locked_out_spec _ _ _ _ _ _ _ computer cid); [done|].
    unfold kept_out. rewrite Hs. split; [set_solver|]. split; [done|]. by left.
Qed.

(** The exception for the computer object is never used when a lock is
    acquired: a caller in an inactive session, who passes the check for
    "hal-lock" on the computer, is refused by AcquireInterfaceLock on it,
    which checks the action "org.freedesktop.hal.lock" instead. *)
Lemma inactive_session_cannot_lock_the_computer interface ex sender w id computer ci :
  cfg = ConsoleKit -> find_by_udi (d_env w) COMPUTER = Some (id, computer) -> udi computer = COMPUTER ->
  ci_tracker_get_info sender = Some ci -> ci_uid ci <> 0 -> ci_uid ci <> geteuid ->
  ci_in_active_session ci = false ->
  access cfg ci_tracker_get_info geteuid computer sender = true /\
  device_acquire_interface_lock cfg ci_tracker_get_info geteuid COMPUTER (Some (interface, ex)) sender false w
    = (PermissionDenied "AcquireInterfaceLock: no access to device", w).
Proof.
  intros -> Hc Hu Hi H1 H2 Ha. unfold access, device_acquire_interface_lock,
    access_check_caller_have_access_to_device. rewrite Hc, Hi.
  rewrite (proj2 (Z.eqb_neq _ _) H1), (proj2 (Z.eqb_neq _ _) H2), Hu. simpl. split; [done|].
  destruct (ci_ck_session_path ci); [|done]. destruct (negb (ci_is_local ci)); [done|]. by rewrite Ha.
Qed.

(** Contrary to its documentation, a caller that holds the global lock is
    locked out when it has no access to the device and another client holds
    the lock of the device. *)
Lemma global_holder_without_access_is_locked_out e device caller interface computer id :
  find_by_udi e COMPUTER = Some (id, computer) ->
  caller ∈ holders_on computer ("Global." +:+ interface) -> access cfg ci_tracker_get_info geteuid device caller = false ->
  holders_on device interface <> [] -> caller ∉ holders_on device interface ->
  access_check_caller_locked_out cfg ci_tracker_get_info geteuid e device caller interface = true.
Proof.
  intros Hc Hg Ha Hd Hn. apply (locked_out_spec _ _ _ _ _ _ _ computer id); [done|].
  split; [done|]. split; [|by left]. intros [_ H]. congruence.
Qed.
End Claims.

(** ** Instances *)
Definition iface : string := "org.freedesktop.Hal.Device.Storage".

Definition callers (c : string) : option CICallerInfo :=
  if c =s? ":1.1" then Some (mk_caller 1000 (Some "/session1") true true)
  else if c =s? ":1.2" then Some (mk_caller 1001 (Some "/session2") true false)
  else None.

Definition volume : HalDevice := mk_device "/org/freedesktop/Hal/devices/volume_1" 0 0 ∅.
Definition computer_device : HalDevice := mk_device COMPUTER 0 0 ∅.
Definition sample_daemon : daemon :=
  mk_daemon (mk_env {[1%nat := computer_device; 2%nat := volume]} [2%nat; 1%nat] [] [] 0 []) [].

Definition with_lock (n : string) (ex : bool) (s : string) (d : HalDevice) : HalDevice :=
  dev_of (hal_device_acquire_lock n ex s d).

(** Both cases: another client holds the lock of the volume; and the client
    that is kept out holds the global lock, in an inactive session. *)
Lemma locked_out_iff_kept_out_witness :
  access_check_caller_locked_out ConsoleKit callers 100 (d_env sample_daemon)
    (with_lock iface false ":1.1" volume) ":1.2" iface = true /\
  undocumented ConsoleKit callers 100 (with_lock ("Global." +:+ iface) false ":1.2" computer_device)
    (with_lock iface false ":1.1" volume) iface ":1.2".
Proof.
  split.
  - apply (locked_out_iff_kept_out ConsoleKit callers 100 (d_env sample_daemon)
      (with_lock iface false ":1.1" volume) ":1.2" iface).
    left. left. exists ":1.1". split; [discriminate|]. split; [vm_compute; apply list_elem_of_In; by left|].
    vm_compute. intros [H|H]; apply list_elem_of_In in H; naive_solver.
  - split_and!; [vm_compute; apply list_elem_of_In; by left | vm_compute; discriminate | |].
    + vm_compute. intros H. apply list_elem_of_In in H. naive_solver.
    + exists ":1.1". split; [discriminate|]. left. vm_compute. apply list_elem_of_In. by left.
Defined.

Lemma locked_out_means_locked_by_others_witness :
  access_check_locked_by_others ConsoleKit callers 100 (d_env sample_daemon)
    (with_lock iface false ":1.1" volume) (Some ":1.2") iface = true.
Proof.
  apply (locked_out_means_locked_by_others ConsoleKit callers 100). vm_compute. reflexivity.
Defined.

Lemma volume_rep : lock_rep volume ∅.
Proof. apply lock_rep_empty. intros k _. apply lookup_empty. Qed.

Definition acquired : reply * daemon :=
  device_acquire_interface_lock ConsoleKit callers 100 (udi volume) (Some (iface, true)) ":1.1" false
    sample_daemon.

Lemma exclusive_lock_keeps_others_out_witness :
  exists d', find_by_udi (d_env acquired.2) (udi volume) = Some (2%nat, d') /\
    access_check_caller_locked_out ConsoleKit callers 100 (d_env acquired.2) d' ":1.2" iface = true.
Proof.
  destruct (exclusive_lock_keeps_others_out ConsoleKit callers 100 (udi volume) iface ":1.1" false
    sample_daemon acquired.2 2 volume ∅ ":1.2" computer_device 1) as (d' & H1 & _ & H3).
  - reflexivity.
  - exact volume_rep.
  - unfold name_ok. simpl. lia.
  - rewrite (surjective_pairing (device_acquire_interface_lock _ _ _ _ _ _ _ _)).
    f_equal.
  - vm_compute. reflexivity.
  - discriminate.
  - vm_compute. intros [H _]. by apply not_elem_of_nil in H.
  - exists d'. split; [exact H1 | exact H3].
Defined.

Lemma inactive_session_cannot_lock_the_computer_witness :
  device_acquire_interface_lock ConsoleKit callers 100 COMPUTER (Some (iface, false)) ":1.2" false sample_daemon
    = (PermissionDenied "AcquireInterfaceLock: no access to device", sample_daemon).
Proof.
  apply (inactive_session_cannot_lock_the_computer ConsoleKit callers 100 iface false ":1.2" sample_daemon 1
    computer_device (mk_caller 1001 (Some "/session2") true false)); try reflexivity; discriminate.
Defined.

Lemma global_holder_without_access_is_locked_out_witness :
  access_check_caller_locked_out ConsoleKit callers 100
    (mk_env {[1%nat := with_lock ("Global." +:+ iface) false ":1.2" computer_device]} [1%nat] [] [] 0 [])
    (with_lock iface false ":1.1" volume) ":1.2" iface = true.
Proof.
  apply (global_holder_without_access_is_locked_out ConsoleKit callers 100 _ _ ":1.2" iface
    (with_lock ("Global." +:+ iface) false ":1.2" computer_device) 1).
  - vm_compute. reflexivity.
  - vm_compute. apply list_elem_of_In. left. reflexivity.
  - vm_compute. reflexivity.
  - vm_compute. discriminate.
  - vm_compute. intros H. apply list_elem_of_In in H. naive_solver.
Defined.
