(* ===== verification/Bus.v ===== *)
(** * Signals on the bus ([hald/hald.c], [hald/hald_dbus.c])

    The handlers of the global device list turn the signals of the device
    store into D-Bus signals; changes of properties inside an atomic update
    are collected and sent at its end.

    [dbus_connection == NULL] and [hald_is_initialising] are the parameters
    [connected] and [initialising]; whether an add-on or a singleton could be
    started is decided by the helper process, the parameters [runner_start]
    and [singleton_added]. *)

From Stdlib Require Import ZArith Lia Ascii SpecFloat.
From stdpp Require Import base list gmap strings option pretty fin_maps.
From S2P Require Import Prelude CStd Property Device DeviceTheory Locks DeviceStore.

Inductive bus_message :=
  | DeviceAdded (u : string)
  | DeviceRemoved (u : string)
  | NewCapability (u capability : string)
  | GlobalInterfaceLockAcquired (interface sender : string) (num_locks : Z)
  | GlobalInterfaceLockReleased (interface sender : string) (num_locks : Z)
  | InterfaceLockAcquired (u interface sender : string) (num_locks : Z)
  | InterfaceLockReleased (u interface sender : string) (num_locks : Z)
  | PropertyModified (u : string) (num_updates : Z) (changes : list (string * bool * bool))
  | Condition (u name details : string).

(** The list is linked from the most recent update on. *)
Record PendingUpdate := mk_update {
  pu_udi : string;
  pu_key : string;
  pu_removed : bool;
  pu_added : bool;
}.

Record bus := mk_bus {
  atomic_count : Z;
  num_pending_updates : Z;
  pending_updates : list PendingUpdate;
}.

Section Bus.
Context (connected initialising : bool).

Definition quiet : bool := negb connected || initialising.
Definition unless_quiet (m : bus_message) : list bus_message := if quiet then [] else [m].

(** ** Sending *)
Definition manager_send_signal_device_added (d : HalDevice) : list bus_message :=
  unless_quiet (DeviceAdded (udi d)).
Definition manager_send_signal_device_removed (d : HalDevice) : list bus_message :=
  unless_quiet (DeviceRemoved (udi d)).
Definition manager_send_signal_new_capability (d : HalDevice) (capability : string) : list bus_message :=
  unless_quiet (NewCapability (udi d) capability).

(** [computer] is the device found under the UDI of the computer. *)
Definition manager_send_signal_interface_lock_acquired (computer : option HalDevice)
    (interface sender : string) : list bus_message :=
  match computer with
  | Some d => unless_quiet (GlobalInterfaceLockAcquired interface sender
                (hal_device_get_num_lock_holders d ("Global." +:+ interface)))
  | None => []
  end.
Definition manager_send_signal_interface_lock_released (computer : option HalDevice)
    (interface sender : string) : list bus_message :=
  match computer with
  | Some d => unless_quiet (GlobalInterfaceLockReleased interface sender
                (hal_device_get_num_lock_holders d ("Global." +:+ interface)))
  | None => []
  end.
Definition device_send_signal_interface_lock_acquired (d : HalDevice) (interface sender : string)
  : list bus_message :=
  unless_quiet (InterfaceLockAcquired (udi d) interface sender (hal_device_get_num_lock_holders d interface)).
Definition device_send_signal_interface_lock_released (d : HalDevice) (interface sender : string)
  : list bus_message :=
  unless_quiet (InterfaceLockReleased (udi d) interface sender (hal_device_get_num_lock_holders d interface)).

Definition device_send_signal_property_modified (d : HalDevice) (key : string) (added removed : bool)
    (b : bus) : bus * list bus_message :=
  if 0 <? atomic_count b then
    (mk_bus (atomic_count b) (num_pending_updates b + 1)
            (mk_update (udi d) key removed added :: pending_updates b), [])
  else (b, unless_quiet (PropertyModified (udi d) 1 [(key, removed, added)])).

(** ** Atomic updates *)
Definition device_property_atomic_update_begin (b : bus) : bus :=
  mk_bus (atomic_count b + 1) (num_pending_updates b) (pending_updates b).

Definition change_of (pu : PendingUpdate) : string * bool * bool := (pu_key pu, pu_removed pu, pu_added pu).

Definition same_udi (u : string) (l : list PendingUpdate) : list PendingUpdate :=
  filter (fun pu => pu_udi pu = u) l.

(** The loop over the updates.  Sending the updates of a device sets the
    [udi] of its later updates to NULL; [nulled] are the UDIs for which this
    happened.  [None]: [strcmp] is called with NULL. *)
Fixpoint flush_updates (l : list PendingUpdate) (nulled : list string) : option (list bus_message) :=
  match l with
  | [] => Some []
  | pu :: rest =>
      if bool_decide (pu_udi pu ∈ nulled) then flush_updates rest nulled
      else if existsb (fun p => bool_decide (pu_udi p ∈ nulled)) rest then None
      else
        let u := pu_udi pu in
        let same := same_udi u (pu :: rest) in
        msgs ← flush_updates rest (u :: nulled);
        Some ((if connected then [PropertyModified u (Z.of_nat (length same)) (change_of <$> same)] else [])
              ++ msgs)
  end.

Definition device_property_atomic_update_end (b : bus) : option (bus * list bus_message) :=
  let c := atomic_count b - 1 in
  let c := if c <? 0 then 0 else c in
  if (c =? 0) && (0 <? num_pending_updates b) then
    msgs ← flush_updates (pending_updates b) [];
    Some (mk_bus c 0 [], msgs)
  else Some (mk_bus c (num_pending_updates b) (pending_updates b), []).

(** ** The handlers of the global device list *)
Context (runner_start singleton_added : string -> bool) (computer : option HalDevice).

Definition start_addons (start : string -> bool) (commands : list string) (d : HalDevice) : HalDevice :=
  foldl (fun d command => if start command then dev_of (hal_device_inc_num_addons d) else d) d commands.

Definition gdl_store_changed (d : HalDevice) (is_added : bool) : HalDevice * list bus_message :=
  if is_added then
    let d1 := start_addons runner_start (hal_device_property_get_strlist d "info.addons") d in
    let d2 := start_addons singleton_added (hal_device_property_get_strlist d "info.addons.singleton") d1 in
    (d2, if hal_device_are_all_addons_ready d2 then manager_send_signal_device_added d2 else [])
  else
    (d, if hal_device_are_all_addons_ready d then manager_send_signal_device_removed d else []).

Definition gdl_property_changed (d : HalDevice) (key : string) (added removed : bool) (b : bus)
  : bus * list bus_message :=
  if hal_device_are_all_addons_ready d
  then device_send_signal_property_modified d key removed added b
  else (b, []).

Definition gdl_capability_added (d : HalDevice) (capability : string) : list bus_message :=
  if hal_device_are_all_addons_ready d then manager_send_signal_new_capability d capability else [].

Definition is_global (d : HalDevice) (lock_name : string) : bool :=
  has_prefix lock_name "Global." && (udi d =s? "/org/freedesktop/Hal/devices/computer").

Definition gdl_lock_acquired (d : HalDevice) (lock_name lock_owner : string) : list bus_message :=
  if hal_device_are_all_addons_ready d then
    if is_global d lock_name
    then manager_send_signal_interface_lock_acquired computer (str_drop 7 lock_name) lock_owner
    else device_send_signal_interface_lock_acquired d lock_name lock_owner
  else [].

Definition gdl_lock_released (d : HalDevice) (lock_name lock_owner : string) : list bus_message :=
  if hal_device_are_all_addons_ready d then
    if is_global d lock_name
    then manager_send_signal_interface_lock_released computer (str_drop 7 lock_name) lock_owner
    else device_send_signal_interface_lock_released d lock_name lock_owner
  else [].

(** A signal of the store about a device. *)
Definition gdl_signal (d : HalDevice) (s : store_signal) (b : bus) : bus * list bus_message :=
  match s with
  | STORE_CHANGED _ _ => (b, [])
  | DEVICE_PROPERTY_CHANGED _ key added removed => gdl_property_changed d key added removed b
  | DEVICE_CAPABILITY_ADDED _ c => (b, gdl_capability_added d c)
  | DEVICE_LOCK_ACQUIRED _ n o => (b, gdl_lock_acquired d n o)
  | DEVICE_LOCK_RELEASED _ n o => (b, gdl_lock_released d n o)
  end.

(** The signals a store with one connection to the device emits, and what the
    handlers of the global device list send. *)
Definition store_signals (id : nat) (s : signal) : list store_signal :=
  match s with
  | PRE_PROPERTY_CHANGED _ _ => []
  | PROPERTY_CHANGED key a b => [DEVICE_PROPERTY_CHANGED id key a b]
  | CAPABILITY_ADDED c => [DEVICE_CAPABILITY_ADDED id c]
  | LOCK_ACQUIRED n o => [DEVICE_LOCK_ACQUIRED id n o]
  | LOCK_RELEASED n o => [DEVICE_LOCK_RELEASED id n o]
  end.

Fixpoint gdl_signals (d : HalDevice) (l : list store_signal) (b : bus) : bus * list bus_message :=
  match l with
  | [] => (b, [])
  | s :: rest =>
      let '(b1, m1) := gdl_signal d s b in
      let '(b2, m2) := gdl_signals d rest b1 in (b2, m1 ++ m2)
  end.

Fixpoint announce (id : nat) (t : list emission) (b : bus) : bus * list bus_message :=
  match t with
  | [] => (b, [])
  | e :: rest =>
      let '(b1, m1) := gdl_signals (em_device e) (store_signals id (em_signal e)) b in
      let '(b2, m2) := announce id rest b1 in (b2, m1 ++ m2)
  end.

(** ** Add-ons that report ready or end: [addon_is_ready], [addon_terminated] *)
Definition addon_terminated (d : HalDevice) : HalDevice * list bus_message :=
  let r := hal_device_inc_num_ready_addons d in
  (dev_of r, if res r then
               if hal_device_are_all_addons_ready (dev_of r)
               then manager_send_signal_device_added (dev_of r) else []
             else []).

Fixpoint addon_events (n : nat) (d : HalDevice) : HalDevice * list bus_message :=
  match n with
  | O => (d, [])
  | S n' => let '(d1, m1) := addon_terminated d in
            let '(d2, m2) := addon_events n' d1 in (d2, m1 ++ m2)
  end.
End Bus.

(** ** The store emits these signals *)
Lemma handle_signals hash id e st st' s :
  handle hash id e st = Some (st', s) -> s = store_signals id (em_signal e).
Proof.
  unfold handle, device_pre_property_changed, emit_device_property_changed,
    emit_device_capability_added, emit_device_lock_acquired, emit_device_lock_released.
  destruct (em_signal e); intros H; simplify_eq/=; try done;
    destruct (is_string _ _); simplify_eq/=; try done;
    destruct (property_index_modify_string _ _ _ _ _ _); by simplify_eq/=.
Qed.
