(* ===== verification/BusClaims.v ===== *)
(** * What clients on the bus can rely on ([hald/hald.c], [hald/hald_dbus.c])

    A client that follows the PropertyModified signals of a device, atomic
    updates, and when a device is announced. *)

From Stdlib Require Import ZArith Lia Ascii SpecFloat.
From stdpp Require Import base list gmap strings option pretty fin_maps.
From S2P Require Import Prelude CStd Property Device DeviceTheory Locks DeviceStore Bus.

(** ** Programs that leave the name and the add-ons of a device alone, and announce what they do *)
Definition property_op (o : dop) : bool :=
  match o with
  | OSetUdi _ | OIncAddons | OIncReady | OAppendSilently _ _ | OClearSilently _ => false
  | _ => true
  end.
Lemma property_ops_loud os : Forall (fun o => property_op o = true) os -> Forall (fun o => silent o = None) os.
Proof. intros H. eapply Forall_impl; [exact H|]. by intros []. Qed.

Definition same_head (d d' : HalDevice) : Prop :=
  udi d' = udi d /\ num_addons d' = num_addons d /\ num_addons_ready d' = num_addons_ready d.

Definition steady {A} (m : dev A) : Prop := forall d,
  same_head d (dev_of (m d)) /\ Forall (fun e => same_head d (em_device e)) (trace (m d)).

(** ** Clients

    The set of keys a client knows that applies the flags of every
    PropertyModified signal of the device [u], in the order of the message. *)
Definition apply_flags (s : gset string) (c : string * bool * bool) : gset string :=
  let '(key, removed, added) := c in
  if removed then s ∖ {[key]} else if added then {[key]} ∪ s else s.

Definition client (u : string) (s : gset string) (m : bus_message) : gset string :=
  match m with
  | PropertyModified u' _ changes => if bool_decide (u' = u) then foldl apply_flags s changes else s
  | _ => s
  end.

(** The changes a run of a device program signals, in order. *)
Definition change_of_signal (e : emission) : option (string * bool * bool) :=
  match em_signal e with
  | PROPERTY_CHANGED key removed added => Some (key, removed, added)
  | _ => None
  end.
Definition changes (t : list emission) : list (string * bool * bool) := omap change_of_signal t.

(** A list of updates in which those of a device stand together. *)
Definition updates_of (g : string * list (string * bool * bool)) : list PendingUpdate :=
  (fun c => mk_update g.1 c.1.1 c.1.2 c.2) <$> g.2.
Definition message_of (g : string * list (string * bool * bool)) : bus_message :=
  PropertyModified g.1 (Z.of_nat (length g.2)) g.2.

Lemma same_head_refl d : same_head d d.
Proof. done. Qed.
Lemma same_head_trans d1 d2 d3 : same_head d1 d2 -> same_head d2 d3 -> same_head d1 d3.
Proof. unfold same_head. intuition congruence. Qed.
Lemma same_head_ready d d' :
  same_head d d' -> hal_device_are_all_addons_ready d' = hal_device_are_all_addons_ready d.
Proof. unfold hal_device_are_all_addons_ready. by intros (_ & -> & ->). Qed.

Section Steady.
Context {P : Platform}.

Lemma steady_ret {A} (a : A) : steady (dret a).
Proof. intros d. split; [done | constructor]. Qed.

Lemma steady_bind {A B} (m : dev A) (k : A -> dev B) :
  steady m -> (forall a, steady (k a)) -> steady (dbind m k).
Proof.
  intros Hm Hk d. specialize (Hm d). unfold dbind.
  destruct (m d) as [[a d1] t1]. specialize (Hk a d1).
  destruct (k a d1) as [[b d2] t2]. unfold dev_of, trace in *. simpl in *.
  destruct Hm as [H1 T1], Hk as [H2 T2]. split; [by eapply same_head_trans|].
  apply Forall_app. split; [done|]. eapply Forall_impl; [exact T2|].
  intros e He. by eapply same_head_trans.
Qed.

Lemma writes_steady {A} key (m : dev A) : writes key m -> steady m.
Proof.
  intros H d. pose proof (write_frame _ _ _ _ (H d)) as (Hu & Hn & Hr & _).
  split; [done|].
  destruct (H d) as [|p d' _ -> |q p d' _ _ _ ->|q p d' _ _ ->|q d' _ ->];
    repeat constructor.
Qed.

Lemma keeps_steady {A} key (m : dev A) : keeps key m -> steady m.
Proof. intros H. by eapply writes_steady, keeps_writes. Qed.

Lemma signal_steady s : steady (g_signal_emit s).
Proof. intros d. repeat constructor. Qed.

Lemma run_dop_steady o : property_op o = true -> steady (run_dop o).
Proof.
  destruct o; intros Ho; try discriminate Ho; simpl;
    try (apply steady_bind; [|intros; apply steady_ret]);
    try (eapply keeps_steady; solve [eauto with hal]).
  - eapply writes_steady. eauto with hal.
  - apply steady_bind; [eapply keeps_steady; eauto with hal|].
    intros []; [apply signal_steady | apply steady_ret].
  - intros d. destruct (finish_announces key is_added d) as [-> [->|[_ ->]]]; repeat constructor.
Qed.

Lemma run_dops_steady os : Forall (fun o => property_op o = true) os -> steady (run_dops os).
Proof.
  induction 1 as [|o os Ho _ IH]; simpl; [apply steady_ret|].
  apply steady_bind; [by apply run_dop_steady | done].
Qed.

Lemma flags_of_changes t s : foldl listen_flags s t = foldl apply_flags s (changes t).
Proof.
  revert s. induction t as [|e t IH]; intros s; simpl; [done|].
  unfold changes, change_of_signal, listen_flags at 2. simpl.
  destruct (em_signal e); simpl; apply IH.
Qed.
End Steady.

Section Announce.
Context (computer : option HalDevice) (id : nat).

Definition is_modified (m : bus_message) : bool :=
  match m with PropertyModified _ _ _ => true | _ => false end.

Lemma changes_cons e t : changes (e :: t) = option_list (change_of_signal e) ++ changes t.
Proof. unfold changes. simpl. by destruct (change_of_signal e). Qed.

Ltac one_signal :=
  unfold change_of_signal; case_match; simpl;
  unfold gdl_property_changed, gdl_capability_added, gdl_lock_acquired, gdl_lock_released,
    device_send_signal_property_modified, manager_send_signal_interface_lock_acquired,
    manager_send_signal_interface_lock_released.

Lemma signal_direct d e b s :
  hal_device_are_all_addons_ready d = true -> atomic_count b = 0 -> same_head d (em_device e) ->
  let r := gdl_signals true false computer (em_device e) (store_signals id (em_signal e)) b in
  r.1 = b /\ foldl (client (udi d)) s r.2 = foldl apply_flags s (option_list (change_of_signal e)).
Proof.
  intros Hr Hb He r. pose proof (same_head_ready _ _ He) as Hre. rewrite Hr in Hre.
  destruct He as [Hu _]. unfold r. one_signal; rewrite ?Hre, ?Hb; simpl; try done;
    [by rewrite Hu, bool_decide_eq_true_2 | by repeat (case_match; simpl)..].
Qed.

Lemma announce_direct d t b s :
  hal_device_are_all_addons_ready d = true -> atomic_count b = 0 ->
  Forall (fun e => same_head d (em_device e)) t ->
  (announce true false computer id t b).1 = b /\
  foldl (client (udi d)) s (announce true false computer id t b).2 = foldl apply_flags s (changes t).
Proof.
  intros Hr Hb Ht. revert s. induction Ht as [|e t He _ IH]; intros s; [done|].
  destruct (signal_direct d e b s Hr Hb He) as [E1 E2]. rewrite changes_cons. simpl.
  destruct (gdl_signals _ _ _ _ _ _) as [b1 m1]. simpl in E1, E2. subst b1.
  specialize (fun s => proj2 (IH s)) as IH2. pose proof (proj1 (IH s)) as IH1.
  destruct (announce true false computer id t b) as [b2 m2]. simpl in *.
  split; [done|]. rewrite !foldl_app, E2. apply IH2.
Qed.

Lemma signal_atomic d e b :
  hal_device_are_all_addons_ready d = true -> 0 < atomic_count b -> same_head d (em_device e) ->
  let r := gdl_signals true false computer (em_device e) (store_signals id (em_signal e)) b in
  r.1 = mk_bus (atomic_count b) (num_pending_updates b + Z.of_nat (length (option_list (change_of_signal e))))
          (updates_of (udi d, option_list (change_of_signal e)) ++ pending_updates b) /\
  Forall (fun m => is_modified m = false) r.2.
Proof.
  intros Hr Hb He r. pose proof (same_head_ready _ _ He) as Hre. rewrite Hr in Hre.
  apply Z.ltb_lt in Hb. destruct He as [Hu _]. unfold r.
  one_signal; rewrite ?Hre, ?Hb; simpl; try (by rewrite Hu);
    rewrite Z.add_0_r; (split; [by destruct b|]); repeat (case_match; simpl); repeat constructor.
Qed.

Lemma announce_atomic d t b :
  hal_device_are_all_addons_ready d = true -> 0 < atomic_count b ->
  Forall (fun e => same_head d (em_device e)) t ->
  (announce true false computer id t b).1
    = mk_bus (atomic_count b) (num_pending_updates b + Z.of_nat (length (changes t)))
             (updates_of (udi d, reverse (changes t)) ++ pending_updates b) /\
  Forall (fun m => is_modified m = false) (announce true false computer id t b).2.
Proof.
  intros Hr Hb Ht. revert b Hb. induction Ht as [|e t He _ IH]; intros b Hb.
  { simpl. rewrite Z.add_0_r. by destruct b. }
  destruct (signal_atomic d e b Hr Hb He) as [E1 E2]. rewrite changes_cons. simpl.
  destruct (gdl_signals _ _ _ _ _ _) as [b1 m1]. simpl in E1, E2. subst b1.
  match goal with |- context [announce _ _ _ _ t ?b'] => specialize (IH b' Hb) end.
  destruct (announce true false computer id t _) as [b2 m2]. simpl in *.
  destruct IH as [-> IH]. split; [|by apply Forall_app].
  f_equal; [rewrite length_app; lia|].
  unfold updates_of. simpl. rewrite reverse_app, fmap_app, <- app_assoc.
  by destruct (change_of_signal e).
Qed.
End Announce.

(** ** The end of an atomic update *)
Section Flush.
Context (connected : bool).

Lemma same_udi_group u cs rest :
  Forall (fun p => pu_udi p <> u) rest -> same_udi u (updates_of (u, cs) ++ rest) = updates_of (u, cs).
Proof.
  intros Hr. unfold same_udi. rewrite filter_app.
  assert (filter (fun pu => pu_udi pu = u) rest = []) as ->.
  { induction Hr as [|p l Hp _ IH]; [done|]. by rewrite filter_cons_False. }
  rewrite app_nil_r. induction cs as [|c cs IH]; [done|].
  unfold updates_of in *. simpl in *. rewrite filter_cons_True by done. by f_equal.
Qed.

Lemma flush_skips u cs rest nulled :
  u ∈ nulled -> flush_updates connected (updates_of (u, cs) ++ rest) nulled = flush_updates connected rest nulled.
Proof.
  intros Hu. induction cs as [|c cs IH]; [done|]. simpl.
  by rewrite bool_decide_eq_true_2.
Qed.

Lemma no_nulled l (nulled : list string) :
  Forall (fun p => pu_udi p ∉ nulled) l -> existsb (fun p => bool_decide (pu_udi p ∈ nulled)) l = false.
Proof.
  induction 1 as [|p l Hp _ IH]; [done|]. simpl. by rewrite bool_decide_eq_false_2.
Qed.

Lemma some_nulled l (nulled : list string) z :
  z ∈ l -> pu_udi z ∈ nulled -> existsb (fun p => bool_decide (pu_udi p ∈ nulled)) l = true.
Proof.
  intros Hz Hn. apply existsb_exists. exists z. rewrite <- list_elem_of_In.
  by rewrite bool_decide_eq_true_2.
Qed.

Lemma updates_of_udi gs (Q : string -> Prop) :
  Forall (fun g => Q g.1) gs -> Forall (fun p => Q (pu_udi p)) (concat (updates_of <$> gs)).
Proof.
  induction 1 as [|g gs Hg _ IH]; [done|]. simpl. apply Forall_app. split; [|done].
  apply Forall_fmap, Forall_forall. done.
Qed.

Lemma flush_first pu rest nulled msgs :
  pu_udi pu ∉ nulled -> Forall (fun p => pu_udi p ∉ nulled) rest ->
  flush_updates connected rest (pu_udi pu :: nulled) = Some msgs ->
  flush_updates connected (pu :: rest) nulled
  = let same := same_udi (pu_udi pu) (pu :: rest) in
    Some ((if connected then [PropertyModified (pu_udi pu) (Z.of_nat (length same)) (change_of <$> same)]
           else []) ++ msgs).
Proof.
  intros Hpu Hr E. simpl. rewrite bool_decide_eq_false_2 by done. rewrite no_nulled by done.
  by rewrite E.
Qed.

Lemma changes_of_updates u cs : change_of <$> updates_of (u, cs) = cs.
Proof.
  unfold updates_of. simpl. rewrite <- list_fmap_compose.
  transitivity (id <$> cs); [|by rewrite list_fmap_id].
  apply list_fmap_ext. by intros _ [[??]?] _.
Qed.

Lemma flush_groups gs nulled :
  NoDup (gs.*1) -> Forall (fun g => g.2 <> []) gs -> Forall (fun g => g.1 ∉ nulled) gs ->
  flush_updates connected (concat (updates_of <$> gs)) nulled
  = Some (if connected then message_of <$> gs else []).
Proof.
  revert nulled. induction gs as [|[u cs] gs IH]; intros nulled Hnd Hne Hnul; [by destruct connected|].
  apply Forall_cons in Hne as [Hc Hne]. apply Forall_cons in Hnul as [Hu Hnul].
  apply NoDup_cons in Hnd as [Hni Hnd]. simpl in *.
  change (list_fmap _ _ updates_of gs) with (updates_of <$> gs).
  destruct cs as [|c cs]; [done|].
  assert (Forall (fun g => g.1 <> u) gs) as Hother.
  { apply Forall_forall. intros g Hg <-. apply Hni. by apply list_elem_of_fmap_2. }
  assert (Forall (fun p => pu_udi p ∉ nulled)
            ((updates_of (u, cs)) ++ concat (updates_of <$> gs))) as Hfresh.
  { apply Forall_app. split; [apply Forall_fmap, Forall_forall; done|].
    by apply (updates_of_udi gs (fun x => x ∉ nulled)). }
  pose proof (same_udi_group u (c :: cs) (concat (updates_of <$> gs))
                (updates_of_udi gs (fun x => x <> u) Hother)) as Hsame.
  change (updates_of (u, c :: cs) ++ ?r) with (mk_update u c.1.1 c.1.2 c.2 :: (updates_of (u, cs) ++ r)) in *.
  rewrite (flush_first _ _ _ (if connected then message_of <$> gs else [])); [|done|done|].
  - simpl pu_udi. rewrite Hsame. cbv zeta. rewrite changes_of_updates. unfold updates_of at 1.
    rewrite length_fmap. by destruct connected.
  - simpl. rewrite flush_skips by set_solver. rewrite (IH (u :: nulled)); [done..|].
    apply Forall_forall. intros g Hg. rewrite Forall_forall in Hother, Hnul.
    specialize (Hother g Hg). specialize (Hnul g Hg). set_solver.
Qed.

Lemma flush_crash a y c z nulled :
  pu_udi y ∉ nulled -> z ∈ c -> pu_udi z ∈ nulled ->
  flush_updates connected (a ++ y :: c) nulled = None.
Proof.
  intros Hy Hz Hn. induction a as [|p a IH]; simpl.
  - by rewrite bool_decide_eq_false_2, (some_nulled _ _ z).
  - case_bool_decide; [done|]. rewrite (some_nulled _ _ z); [done| |done]. set_solver.
Qed.

Lemma flush_interleaved l1 x l2 y l3 z nulled :
  z ∈ l3 -> pu_udi x = pu_udi z -> pu_udi x <> pu_udi y ->
  pu_udi x ∉ nulled -> pu_udi y ∉ nulled ->
  flush_updates connected (l1 ++ x :: l2 ++ y :: l3) nulled = None.
Proof.
  intros Hz Hxz Hxy. revert nulled. induction l1 as [|p l1 IH]; intros nulled Hx Hy; simpl.
  - rewrite bool_decide_eq_false_2 by done. destruct (existsb _ _); [done|].
    rewrite (flush_crash l2 y l3 z); [done|set_solver|done|set_solver].
  - case_bool_decide as Hp; [by apply IH|]. destruct (existsb _ _); [done|].
    destruct (decide (pu_udi p = pu_udi x)) as [Epx|Hpx].
    { replace (l1 ++ x :: l2 ++ y :: l3) with ((l1 ++ x :: l2) ++ y :: l3) by (by rewrite <- app_assoc).
      rewrite (flush_crash (l1 ++ x :: l2) y l3 z); [done| |done|].
      - rewrite not_elem_of_cons. split; congruence.
      - rewrite <- Hxz, <- Epx. by left. }
    destruct (decide (pu_udi p = pu_udi y)) as [Epy|Hpy]; [|rewrite IH; set_solver].
    rewrite (flush_crash l1 x (l2 ++ y :: l3) y); [done|..]; set_solver.
Qed.
End Flush.

Lemma end_of_one_device u cs :
  device_property_atomic_update_end true
    (mk_bus 1 (0 + Z.of_nat (length cs)) (updates_of (u, reverse cs) ++ []))
  = Some (mk_bus 0 0 [], match cs with [] => [] | _ => [message_of (u, reverse cs)] end).
Proof.
  unfold device_property_atomic_update_end. simpl.
  destruct cs as [|c cs]; [done|]. simpl length. rewrite (proj2 (Z.ltb_lt _ _)) by lia.
  pose proof (flush_groups true [(u, reverse (c :: cs))] []) as E. simpl in E.
  rewrite E; [done| |..]; repeat constructor; try set_solver.
  simpl. rewrite reverse_cons. by destruct (reverse cs).
Qed.

(** Changes of different keys can be applied in either order. *)
Lemma apply_flags_comm s c1 c2 :
  c1.1.1 <> c2.1.1 -> apply_flags (apply_flags s c1) c2 = apply_flags (apply_flags s c2) c1.
Proof.
  destruct c1 as [[k1 r1] a1], c2 as [[k2 r2] a2]. simpl. intros Hk.
  destruct r1, a1, r2, a2; simpl; try done; set_solver.
Qed.

Lemma apply_flags_first s c cs :
  c.1.1 ∉ cs.*1.*1 -> foldl apply_flags (apply_flags s c) cs = apply_flags (foldl apply_flags s cs) c.
Proof.
  revert s. induction cs as [|c' cs IH]; intros s Hc; [done|]. simpl in *.
  rewrite apply_flags_comm by set_solver. apply IH. set_solver.
Qed.

Lemma apply_flags_reverse s cs :
  NoDup (cs.*1.*1) -> foldl apply_flags s (reverse cs) = foldl apply_flags s cs.
Proof.
  revert s. induction cs as [|c cs IH]; intros s Hnd; [done|].
  simpl in Hnd. apply NoDup_cons in Hnd as [Hc Hnd].
  rewrite reverse_cons, foldl_app. simpl. rewrite IH by done.
  symmetry. by apply apply_flags_first.
Qed.

Lemma sent_in_any_order u s cs :
  NoDup (cs.*1.*1) ->
  foldl (client u) s (match cs with [] => [] | _ => [message_of (u, reverse cs)] end)
  = foldl apply_flags s cs.
Proof.
  intros Hnd. rewrite <- apply_flags_reverse by done. destruct cs; [done|].
  simpl. by rewrite bool_decide_eq_true_2.
Qed.

(** ** Add-ons *)
Lemma start_addons_spec start commands d :
  let d' := start_addons start commands d in
  udi d' = udi d /\ num_addons_ready d' = num_addons_ready d /\ num_addons d <= num_addons d'.
Proof.
  revert d. unfold start_addons. induction commands as [|c cs IH]; intros d; simpl; [repeat split; lia|].
  destruct (start c); [|apply IH].
  destruct (IH (dev_of (hal_device_inc_num_addons d))) as (-> & -> & H). simpl in *. repeat split; lia.
Qed.

Lemma addon_events_done connected initialising n d :
  num_addons_ready d = num_addons d -> addon_events connected initialising n d = (d, []).
Proof.
  intros H. induction n as [|n IH]; [done|]. simpl.
  unfold addon_terminated, hal_device_inc_num_ready_addons, hal_device_are_all_addons_ready.
  rewrite (proj2 (Z.eqb_eq _ _) H). simpl.
  change (dev_of (false, d, [])) with d. by rewrite IH.
Qed.

Lemma addon_events_spec connected initialising n d :
  num_addons_ready d < num_addons d ->
  let r := addon_events connected initialising n d in
  udi r.1 = udi d /\ num_addons r.1 = num_addons d /\
  num_addons_ready r.1 = num_addons_ready d + Z.min (Z.of_nat n) (num_addons d - num_addons_ready d) /\
  r.2 = if num_addons d - num_addons_ready d <=? Z.of_nat n
        then manager_send_signal_device_added connected initialising d else [].
Proof.
  revert d. induction n as [|n IH]; intros d Hd.
  { simpl. rewrite Z.min_l by lia. rewrite (proj2 (Z.leb_gt _ _)) by lia. repeat split; lia. }
  simpl. unfold addon_terminated, hal_device_inc_num_ready_addons, hal_device_are_all_addons_ready.
  rewrite (proj2 (Z.eqb_neq (num_addons_ready d) (num_addons d))) by lia. simpl.
  destruct (Z.eqb_spec (num_addons_ready d + 1) (num_addons d)) as [E|E].
  - rewrite (proj2 (Z.leb_le _ _)) by lia.
    rewrite addon_events_done by done. simpl. rewrite app_nil_r. repeat split; try done. lia.
  - destruct (IH (mk_device (udi d) (num_addons d) (num_addons_ready d + 1) (props d)))
      as (H1 & H2 & H3 & H4); [simpl; lia|]. simpl in *.
    destruct (addon_events _ _ _ _) as [d2 m2]. simpl in *. rewrite H1, H2, H3, H4.
    repeat split; try lia.
    destruct (Z.leb_spec (num_addons d - (num_addons_ready d + 1)) (Z.of_nat n)),
      (Z.leb_spec (num_addons d - num_addons_ready d) (Z.of_nat (S n))); (done || lia).
Qed.

(** ** What clients can rely on *)
Section Claims.
Context {P : Platform}.

(** C4 A client that applies the removed and added flags of the
    PropertyModified signals of a device to the set of keys it knows has, after
    any program of property operations outside an atomic update (all but the two
    that edit a list with changeset TRUE, which send nothing), exactly the
    keys of the device (the add-ons of the device are ready, the bus is
    connected and the daemon has started up). *)
Theorem bus_clients_follow_the_device computer id os d b :
  Forall (fun o => property_op o = true) os ->
  hal_device_are_all_addons_ready d = true -> atomic_count b = 0 ->
  let r := run_dops os d in
  foldl (client (udi d)) (dom (props d)) (announce true false computer id (trace r) b).2
  = dom (props (dev_of r)).
Proof.
  intros Hos Hr Hb r. destruct (run_dops_steady os Hos d) as [_ Ht].
  rewrite (proj2 (announce_direct computer id d _ b _ Hr Hb Ht)), <- flags_of_changes.
  by apply run_dops_faithful, property_ops_loud.
Qed.

(** Inside an atomic update nothing is sent about the properties of a
    device; its end sends one PropertyModified signal with all changes, the
    last change first and with their number, and clears the queue.  When no
    key was changed twice, a client that applies it knows exactly the keys of
    the device. *)
Lemma atomic_update_is_one_message computer id os d b :
  Forall (fun o => property_op o = true) os ->
  hal_device_are_all_addons_ready d = true -> b = mk_bus 0 0 [] ->
  let r := run_dops os d in
  let a := announce true false computer id (trace r) (device_property_atomic_update_begin b) in
  let cs := changes (trace r) in
  let sent := match cs with [] => [] | _ => [message_of (udi d, reverse cs)] end in
  Forall (fun m => is_modified m = false) a.2 /\
  device_property_atomic_update_end true a.1 = Some (b, sent) /\
  (NoDup (cs.*1.*1) -> foldl (client (udi d)) (dom (props d)) sent = dom (props (dev_of r))).
Proof.
  intros Hos Hr -> r a cs sent. destruct (run_dops_steady os Hos d) as [_ Ht].
  destruct (announce_atomic computer id d _ (mk_bus 1 0 []) Hr eq_refl Ht) as [E1 E2].
  split; [exact E2|]. split.
  - unfold a, sent, cs, r. change (device_property_atomic_update_begin _) with (mk_bus 1 0 []). rewrite E1.
    apply end_of_one_device.
  - intros Hnd. unfold sent. rewrite sent_in_any_order by done. unfold cs. rewrite <- flags_of_changes.
    by apply run_dops_faithful, property_ops_loud.
Qed.

(** At the end of an atomic update over several devices every device whose
    updates stand together in the queue gets one PropertyModified signal with
    its updates and their number, and the queue is cleared. *)
Lemma one_message_per_device connected gs b :
  gs <> [] -> NoDup (gs.*1) -> Forall (fun g => g.2 <> []) gs ->
  atomic_count b = 1 -> pending_updates b = concat (updates_of <$> gs) ->
  num_pending_updates b = Z.of_nat (length (pending_updates b)) ->
  device_property_atomic_update_end connected b
  = Some (mk_bus 0 0 [], if connected then message_of <$> gs else []).
Proof.
  intros Hgs Hnd Hne Hc Hp Hn. unfold device_property_atomic_update_end. rewrite Hc, Hn, Hp. simpl.
  rewrite flush_groups; [|done|done|apply Forall_forall; set_solver].
  rewrite (proj2 (Z.ltb_lt _ _)); [done|].
  destruct gs as [|[u [|c cs]] gs]; [done|by apply Forall_cons in Hne as [? _]|]. simpl. lia.
Qed.

(** When the updates of two devices interleave in the queue (an update of
    one, then one of the other, then one of the first again) the end of the
    atomic update calls [strcmp] with a null pointer, whatever else is in the
    queue. *)
Lemma interleaved_updates_crash connected b l1 x l2 y l3 z l4 :
  pending_updates b = l1 ++ x :: l2 ++ y :: l3 ++ z :: l4 ->
  pu_udi x = pu_udi z -> pu_udi x <> pu_udi y ->
  atomic_count b = 1 -> num_pending_updates b = Z.of_nat (length (pending_updates b)) ->
  device_property_atomic_update_end connected b = None.
Proof.
  intros Hp Hxz Hxy Hc Hn. unfold device_property_atomic_update_end. rewrite Hc, Hn. simpl.
  rewrite (proj2 (Z.ltb_lt 0 _)); [|rewrite Hp, length_app; simpl; lia]. rewrite Hp.
  rewrite (flush_interleaved connected l1 x l2 y (l3 ++ z :: l4) z []); set_solver.
Qed.

(** A new device is announced by DeviceAdded exactly once: when it is added
    if no add-on was started for it, and else when the last of its add-ons has
    reported (or ended); further reports send nothing.  Its removal is
    announced by DeviceRemoved exactly when it had been announced. *)
Lemma device_is_announced_once start singleton d n :
  num_addons d = 0 -> num_addons_ready d = 0 ->
  let a := gdl_store_changed true false start singleton d true in
  let r := addon_events true false n a.1 in
  let seen := num_addons a.1 <=? Z.of_nat n in
  a.2 ++ r.2 = (if seen then [DeviceAdded (udi d)] else []) /\
  (gdl_store_changed true false start singleton r.1 false).2
  = (if seen then [DeviceRemoved (udi d)] else []).
Proof.
  intros Ha Hr a r seen. unfold seen, r, a, gdl_store_changed.
  set (d1 := start_addons start _ d). set (d2 := start_addons singleton _ d1).
  destruct (start_addons_spec start (hal_device_property_get_strlist d "info.addons") d) as (U1 & R1 & N1).
  destruct (start_addons_spec singleton (hal_device_property_get_strlist d "info.addons.singleton") d1)
    as (U2 & R2 & N2). fold d1 in U1, R1, N1. fold d2 in U2, R2, N2. simpl.
  unfold hal_device_are_all_addons_ready.
  destruct (Z.eqb_spec (num_addons_ready d2) (num_addons d2)) as [E|E].
  - rewrite addon_events_done by done. simpl. rewrite (proj2 (Z.eqb_eq _ _)) by done.
    rewrite (proj2 (Z.leb_le _ _)) by lia.
    unfold manager_send_signal_device_added, manager_send_signal_device_removed, unless_quiet. simpl.
    by rewrite U2, U1.
  - destruct (addon_events_spec true false n d2) as (Eu & En & Er & Em); [lia|].
    rewrite Em, Er, En. replace (num_addons d2 - num_addons_ready d2) with (num_addons d2) by lia.
    unfold manager_send_signal_device_added, manager_send_signal_device_removed, unless_quiet. simpl.
    rewrite Eu, U2, U1.
    destruct (Z.leb_spec (num_addons d2) (Z.of_nat n)), (Z.eqb_spec (num_addons_ready d2 + Z.min (Z.of_nat n) (num_addons d2)) (num_addons d2));
      (done || lia).
Qed.
End Claims.

(** ** Instances *)
Import AsciiPlatform.

Definition bus_device : HalDevice :=
  mk_device "/org/freedesktop/Hal/devices/volume" 1 1 {[ "volume.is_mounted" := PBoolean false ]}.
Definition bus_ops : list dop :=
  [OSetBool "volume.is_mounted" true; OSetString "volume.mount_point" (Some "/mnt"); ORemove "volume.label"].

Lemma bus_ops_property : Forall (fun o => property_op o = true) bus_ops.
Proof. by repeat constructor. Qed.

Lemma bus_clients_follow_the_device_witness :
  foldl (client (udi bus_device)) (dom (props bus_device))
    (announce true false None 0 (trace (run_dops bus_ops bus_device)) (mk_bus 0 0 [])).2
  = dom (props (dev_of (run_dops bus_ops bus_device))) /\
  length (announce true false None 0 (trace (run_dops bus_ops bus_device)) (mk_bus 0 0 [])).2 = 2%nat.
Proof.
  split; [|vm_compute; reflexivity].
  apply (bus_clients_follow_the_device None 0 bus_ops bus_device (mk_bus 0 0 []));
    [exact bus_ops_property | reflexivity | reflexivity].
Defined.

Lemma atomic_update_is_one_message_witness :
  device_property_atomic_update_end true
    (announce true false None 0 (trace (run_dops bus_ops bus_device))
       (device_property_atomic_update_begin (mk_bus 0 0 []))).1
  = Some (mk_bus 0 0 [],
      [PropertyModified "/org/freedesktop/Hal/devices/volume" 2
         [("volume.mount_point", false, true); ("volume.is_mounted", false, false)]]).
Proof.
  apply (atomic_update_is_one_message None 0 bus_ops bus_device (mk_bus 0 0 []));
    [exact bus_ops_property | reflexivity | reflexivity].
Defined.

Lemma one_message_per_device_witness :
  device_property_atomic_update_end true
    (mk_bus 1 3 [mk_update "u" "k2" false false; mk_update "u" "k1" false true; mk_update "v" "k" true false])
  = Some (mk_bus 0 0 [],
      [PropertyModified "u" 2 [("k2", false, false); ("k1", false, true)];
       PropertyModified "v" 1 [("k", true, false)]]).
Proof.
  apply (one_message_per_device true
    [("u", [("k2", false, false); ("k1", false, true)]); ("v", [("k", true, false)])]);
    [discriminate | vm_compute; repeat constructor; set_solver | repeat constructor; discriminate
    | reflexivity | reflexivity | reflexivity].
Defined.

Lemma interleaved_updates_crash_witness :
  device_property_atomic_update_end true
    (mk_bus 1 3 [mk_update "u" "k2" false false; mk_update "v" "k" true false; mk_update "u" "k1" false true])
  = None.
Proof.
  apply (interleaved_updates_crash true _ [] (mk_update "u" "k2" false false) []
    (mk_update "v" "k" true false) [] (mk_update "u" "k1" false true) []);
    [reflexivity | reflexivity | discriminate | reflexivity | reflexivity].
Defined.

Lemma device_is_announced_once_witness :
  let d := mk_device "u" 0 0 {[ "info.addons" := PStrlist ["hald-addon-storage"; "broken"] ]} in
  let a := gdl_store_changed true false (fun c => c =s? "hald-addon-storage") (fun _ => false) d true in
  a.2 ++ (addon_events true false 3 a.1).2 = [DeviceAdded "u"] /\
  a.2 ++ (addon_events true false 0 a.1).2 = [].
Proof.
  intros d a. split.
  - etransitivity; [|vm_compute; reflexivity].
    exact (proj1 (device_is_announced_once (fun c => c =s? "hald-addon-storage") (fun _ => false) d 3
                    eq_refl eq_refl)).
  - etransitivity; [|vm_compute; reflexivity].
    exact (proj1 (device_is_announced_once (fun c => c =s? "hald-addon-storage") (fun _ => false) d 0
                    eq_refl eq_refl)).
Defined.
