(* ===== verification/Hotplug.v ===== *)
(** * The queue of hotplug events ([hald/linux/hotplug.c], [hald/linux/hotplug.h])

    Events wait in a queue until no earlier event they depend on is queued or
    in progress.  An event that begins is handed to the code for its kind of
    device, which ends it at once or later; the handlers are a parameter
    ([handler]): what they do to the queue is a list of calls of this file.

    An event is a pointer in the source; the model names it by a number.  The
    source reads the fields of the [sysfs] member of the union for every kind
    of event: events are allocated with zeros, so the [sysfs_path], the
    [sysfs_path_old] and the [seqnum] of an ACPI, APM or PMU event read as
    empty and zero (their own paths are shorter than the 252 bytes in front of
    [sysfs_path]).

    Fuel: each round of [hotplug_event_process_queue] begins an event or goes
    on to the next; [(n + 1) * (n + 1)] rounds are enough for [n] events when
    the handlers add none. *)

From Stdlib Require Import ZArith Lia Ascii SpecFloat.
From stdpp Require Import base list gmap strings option pretty.
From S2P Require Import Prelude CStd Property Device FdiRules.

(** ** Events *)
Inductive HotplugActionType :=
  | HOTPLUG_ACTION_ADD
  | HOTPLUG_ACTION_REMOVE
  | HOTPLUG_ACTION_ONLINE
  | HOTPLUG_ACTION_OFFLINE
  | HOTPLUG_ACTION_CHANGE
  | HOTPLUG_ACTION_MOVE.

(** The last constructor stands for the other values of the enumeration's
    integer type. *)
Inductive HotplugEventType :=
  | HOTPLUG_EVENT_SYSFS
  | HOTPLUG_EVENT_SYSFS_DEVICE
  | HOTPLUG_EVENT_SYSFS_BLOCK
  | HOTPLUG_EVENT_ACPI
  | HOTPLUG_EVENT_APM
  | HOTPLUG_EVENT_PMU
  | HOTPLUG_EVENT_OTHER (code : Z).

#[global] Instance action_eq_dec : EqDecision HotplugActionType.
Proof. solve_decision. Defined.
#[global] Instance event_type_eq_dec : EqDecision HotplugEventType.
Proof. solve_decision. Defined.

(** What udev tells about a disk. *)
Record udev_info := mk_udev {
  u_vendor : string; u_model : string; u_revision : string; u_serial : string; u_fsusage : string;
  u_fstype : string; u_fsversion : string; u_fslabel : string; u_fsuuid : string;
}.
#[global] Instance udev_eq_dec : EqDecision udev_info.
Proof. solve_decision. Defined.
Definition no_udev : udev_info := mk_udev "" "" "" "" "" "" "" "" "".

Record HotplugEvent := mk_event {
  ev_id : nat;                (** the address *)
  action : HotplugActionType;
  type : HotplugEventType;
  reposted : bool;
  subsystem : string;
  sysfs_path : string;
  sysfs_path_old : string;
  seqnum : Z;
  is_dm_device : bool;
  ev_device_file : string;
  ev_power_path : string;     (** of an ACPI, APM or PMU event, with its type *)
  ev_power_type : Z;
  ev_udev : udev_info;
}.

#[global] Instance event_eq_dec : EqDecision HotplugEvent.
Proof. solve_decision. Defined.

Definition is_sysfs (e : HotplugEvent) : bool :=
  match type e with
  | HOTPLUG_EVENT_SYSFS | HOTPLUG_EVENT_SYSFS_DEVICE | HOTPLUG_EVENT_SYSFS_BLOCK => true
  | _ => false
  end.

(** ** Dependencies *)
Fixpoint compare_from (n : nat) (running waiting : string) : bool :=
  match n with
  | O => false
  | S n' =>
      match running, waiting with
      | EmptyString, EmptyString => true
      | EmptyString, String w _ => bool_decide (w = "/"%char)
      | String r _, EmptyString => bool_decide (r = "/"%char)
      | String r running', String w waiting' =>
          if bool_decide (r = w) then compare_from n' running' waiting' else false
      end
  end.

Definition compare_sysfspath (running waiting : string) : bool :=
  compare_from HAL_PATH_MAX running waiting.

Definition compare_event (eventl eventr : HotplugEvent) : bool :=
  if negb (sysfs_path_old eventl =s? "") && (sysfs_path_old eventr =s? sysfs_path_old eventl) then true
  else compare_sysfspath (sysfs_path eventr) (sysfs_path eventl).

(** The two tests in the loop of [compare_events]. *)
Definition waits_for (e loop_event : HotplugEvent) : bool :=
  compare_event e loop_event ||
  (is_dm_device e && bool_decide (type loop_event = HOTPLUG_EVENT_SYSFS_BLOCK) &&
   negb (is_dm_device loop_event)).

Fixpoint compare_loop (e : HotplugEvent) (events : list HotplugEvent) : bool :=
  match events with
  | [] => false
  | loop_event :: rest =>
      if seqnum e <=? seqnum loop_event then false
      else if waits_for e loop_event then true
      else compare_loop e rest
  end.

Definition compare_events (e : HotplugEvent) (events : list HotplugEvent) : bool :=
  if is_sysfs e then compare_loop e events else false.

(** ** Choosing the handler *)

(** What [hotplug_event_begin_sysfs] asks: the device of the global list with
    a sysfs path, [readlink], and whether a directory has a "range" file that
    holds a number. *)
Record sysfs_view := mk_view {
  device_at : string -> option HalDevice;
  hal_util_readlink : string -> option string;
  has_range : string -> bool;
}.

Inductive handler_call :=
  | AddDev | RemoveDev | RefreshDev (d : HalDevice) | MoveDev (d : HalDevice)
  | AddBlockdev (is_partition : bool) | RemoveBlockdev | RefreshBlockdev (d : HalDevice)
  | AddAcpi | RemoveAcpi | AddApm | RemoveApm | AddPmu | RemovePmu
  | EndEvent
  | NoCall.

Definition set_type (t : HotplugEventType) (e : HotplugEvent) : HotplugEvent :=
  mk_event (ev_id e) (action e) t (reposted e) (subsystem e) (sysfs_path e) (sysfs_path_old e)
           (seqnum e) (is_dm_device e) (ev_device_file e) (ev_power_path e) (ev_power_type e) (ev_udev e).

Definition if_sysfs (t : HotplugEventType) (e : HotplugEvent) : HotplugEvent :=
  if bool_decide (type e = HOTPLUG_EVENT_SYSFS) then set_type t e else e.

(** The type of an event that came without one: by its subsystem, by the
    device that is known, by the "subsystem" link, and by its path. *)
Definition classify (v : sysfs_view) (d : option HalDevice) (e : HotplugEvent) : HotplugEvent :=
  let e := if subsystem e =s? "block" then if_sysfs HOTPLUG_EVENT_SYSFS_BLOCK e else e in
  let e := match d with
           | Some d =>
               let type := hal_device_property_get_int d "linux.hotplug_type" in
               if type =? 2 then if_sysfs HOTPLUG_EVENT_SYSFS_DEVICE e
               else if type =? 3 then if_sysfs HOTPLUG_EVENT_SYSFS_BLOCK e
               else e
           | None => e
           end in
  let e := match hal_util_readlink v (snprintf HAL_PATH_MAX (sysfs_path e +:+ "/subsystem")) with
           | Some subsystem_target =>
               if strstr subsystem_target "/block" then if_sysfs HOTPLUG_EVENT_SYSFS_BLOCK e
               else if_sysfs HOTPLUG_EVENT_SYSFS_DEVICE e
           | None => e
           end in
  if has_prefix (sysfs_path e) "/sys/block" then if_sysfs HOTPLUG_EVENT_SYSFS_BLOCK e
  else if_sysfs HOTPLUG_EVENT_SYSFS_DEVICE e.

Definition known_device (v : sysfs_view) (e : HotplugEvent) : option HalDevice :=
  match device_at v (sysfs_path e) with
  | Some d => Some d
  | None => if bool_decide (action e = HOTPLUG_ACTION_MOVE) then device_at v (sysfs_path_old e) else None
  end.

Definition hotplug_event_begin_sysfs (v : sysfs_view) (e0 : HotplugEvent) : HotplugEvent * handler_call :=
  let d := known_device v e0 in
  let e := classify v d e0 in
  (e,
   match type e with
   | HOTPLUG_EVENT_SYSFS_DEVICE =>
       match action e, d with
       | HOTPLUG_ACTION_ADD, _ | HOTPLUG_ACTION_CHANGE, None => AddDev
       | HOTPLUG_ACTION_REMOVE, _ => RemoveDev
       | HOTPLUG_ACTION_CHANGE, Some d => RefreshDev d
       | HOTPLUG_ACTION_MOVE, Some d => MoveDev d
       | _, _ => EndEvent
       end
   | HOTPLUG_EVENT_SYSFS_BLOCK =>
       match action e, d with
       | HOTPLUG_ACTION_ADD, _ | HOTPLUG_ACTION_CHANGE, None =>
           AddBlockdev (negb (strstr (sysfs_path e) "/fakevolume" || has_range v (sysfs_path e)))
       | HOTPLUG_ACTION_REMOVE, _ => RemoveBlockdev
       | HOTPLUG_ACTION_CHANGE, Some d => RefreshBlockdev d
       | _, _ => EndEvent
       end
   | _ => EndEvent
   end).

Definition hotplug_event_begin_acpi (e : HotplugEvent) : handler_call :=
  match action e with
  | HOTPLUG_ACTION_ADD => AddAcpi
  | HOTPLUG_ACTION_REMOVE => RemoveAcpi
  | _ => NoCall
  end.
Definition hotplug_event_begin_apm (e : HotplugEvent) : handler_call :=
  match action e with
  | HOTPLUG_ACTION_ADD => AddApm
  | HOTPLUG_ACTION_REMOVE => RemoveApm
  | _ => NoCall
  end.
Definition hotplug_event_begin_pmu (e : HotplugEvent) : handler_call :=
  match action e with
  | HOTPLUG_ACTION_ADD => AddPmu
  | HOTPLUG_ACTION_REMOVE => RemovePmu
  | _ => NoCall
  end.

Definition hotplug_event_begin (v : sysfs_view) (e : HotplugEvent) : HotplugEvent * handler_call :=
  match type e with
  | HOTPLUG_EVENT_SYSFS | HOTPLUG_EVENT_SYSFS_DEVICE | HOTPLUG_EVENT_SYSFS_BLOCK =>
      hotplug_event_begin_sysfs v e
  | HOTPLUG_EVENT_ACPI => (e, hotplug_event_begin_acpi e)
  | HOTPLUG_EVENT_APM => (e, hotplug_event_begin_apm e)
  | HOTPLUG_EVENT_PMU => (e, hotplug_event_begin_pmu e)
  | HOTPLUG_EVENT_OTHER _ => (e, EndEvent)
  end.

(** ** The queue *)

(** [has_queue]: [hotplug_event_queue] is allocated.  [drained] counts the
    calls of [hotplug_queue_now_empty]; [begun] is a history, the events that
    were begun, the last one first. *)
Record hotplug := mk_hotplug {
  has_queue : bool;
  hotplug_event_queue : list HotplugEvent;
  hotplug_event_queue_restart : bool;
  hotplug_events_in_progress : list HotplugEvent;
  processing : bool;
  drained : nat;
  begun : list HotplugEvent;
}.

Definition set_restart (b : bool) (st : hotplug) : hotplug :=
  mk_hotplug (has_queue st) (hotplug_event_queue st) b (hotplug_events_in_progress st)
             (processing st) (drained st) (begun st).
Definition set_processing (b : bool) (st : hotplug) : hotplug :=
  mk_hotplug (has_queue st) (hotplug_event_queue st) (hotplug_event_queue_restart st)
             (hotplug_events_in_progress st) b (drained st) (begun st).

(** [g_list_remove]: the first link with the pointer. *)
Fixpoint list_remove_event (id : nat) (l : list HotplugEvent) : list HotplugEvent :=
  match l with
  | [] => []
  | e :: rest => if bool_decide (ev_id e = id) then rest else e :: list_remove_event id rest
  end.

Definition hotplug_event_end (id : nat) (st : hotplug) : hotplug :=
  mk_hotplug (has_queue st) (hotplug_event_queue st) true
             (list_remove_event id (hotplug_events_in_progress st)) (processing st) (drained st) (begun st).

(** [reposted] is set in the event itself, wherever it is linked. *)
Definition mark_reposted (id : nat) (e : HotplugEvent) : HotplugEvent :=
  if bool_decide (ev_id e = id)
  then mk_event (ev_id e) (action e) (type e) true (subsystem e) (sysfs_path e) (sysfs_path_old e)
                (seqnum e) (is_dm_device e) (ev_device_file e) (ev_power_path e) (ev_power_type e) (ev_udev e)
  else e.

Definition hotplug_event_reposted (id : nat) (st : hotplug) : hotplug :=
  mk_hotplug (has_queue st) (mark_reposted id <$> hotplug_event_queue st) (hotplug_event_queue_restart st)
             (list_remove_event id (hotplug_events_in_progress st)) (processing st) (drained st) (begun st).

Definition hotplug_event_enqueue (e : HotplugEvent) (st : hotplug) : hotplug :=
  mk_hotplug true (hotplug_event_queue st ++ [e]) (hotplug_event_queue_restart st)
             (hotplug_events_in_progress st) (processing st) (drained st) (begun st).

Definition hotplug_event_enqueue_at_front (e : HotplugEvent) (st : hotplug) : hotplug :=
  mk_hotplug true (e :: hotplug_event_queue st) true
             (hotplug_events_in_progress st) (processing st) (drained st) (begun st).

(** What a handler does with the queue. *)
Inductive queue_call :=
  | CallEnd
  | CallReposted
  | CallEnqueue (e : HotplugEvent)
  | CallEnqueueAtFront (e : HotplugEvent).

Definition run_call (id : nat) (st : hotplug) (c : queue_call) : hotplug :=
  match c with
  | CallEnd => hotplug_event_end id st
  | CallReposted => hotplug_event_reposted id st
  | CallEnqueue e => hotplug_event_enqueue e st
  | CallEnqueueAtFront e => hotplug_event_enqueue_at_front e st
  end.

Section Queue.
Context (view : hotplug -> sysfs_view) (handler : handler_call -> HotplugEvent -> list queue_call).

Definition queue_calls (c : handler_call) (e : HotplugEvent) : list queue_call :=
  match c with
  | EndEvent => [CallEnd]
  | NoCall => []
  | _ => handler c e
  end.

(** Position [i] leaves the queue and begins; the handler runs with its type
    settled. *)
Definition begin_at (i : nat) (e : HotplugEvent) (st : hotplug) : hotplug :=
  let '(e', c) := hotplug_event_begin (view st) e in
  let st := mk_hotplug (has_queue st) (delete i (hotplug_event_queue st)) (hotplug_event_queue_restart st)
              (hotplug_events_in_progress st ++ [e']) (processing st) (drained st) (e :: begun st) in
  foldl (run_call (ev_id e)) st (queue_calls c e').

Fixpoint process_loop (fuel : nat) (i : nat) (st : hotplug) : option hotplug :=
  match fuel with
  | O => None
  | S fuel' =>
      match hotplug_event_queue st !! i with
      | None => Some st
      | Some e =>
          if negb (compare_events e (hotplug_event_queue st)) &&
             negb (compare_events e (hotplug_events_in_progress st)) then
            let st' := begin_at i e st in
            if bool_decide (i = O) || hotplug_event_queue_restart st'
            then process_loop fuel' 0 (set_restart false st')
            else process_loop fuel' i st'
          else process_loop fuel' (S i) st
      end
  end.

Definition queue_now_empty (st : hotplug) : hotplug :=
  match hotplug_event_queue st, hotplug_events_in_progress st with
  | [], [] => mk_hotplug (has_queue st) [] (hotplug_event_queue_restart st) [] (processing st)
                         (S (drained st)) (begun st)
  | _, _ => st
  end.

Definition hotplug_event_process_queue (fuel : nat) (st : hotplug) : option hotplug :=
  if negb (has_queue st) then Some st
  else if processing st then Some st
  else
    st' ← process_loop fuel 0 (set_processing true st);
    Some (queue_now_empty (set_processing false st')).
End Queue.
