(* ===== verification/HotplugClaims.v ===== *)
(** * What the hotplug queue guarantees ([hald/linux/hotplug.c])

    Which paths depend on each other, that processing the queue ends and
    strands no event, in which order dependent events begin, and where the
    order is not kept. *)

From Stdlib Require Import ZArith Lia Ascii SpecFloat Sorted.
From stdpp Require Import base list gmap strings option pretty sorting.
From S2P Require Import Prelude CStd Property Device FdiRules Hotplug.

(** ** Paths *)

(** The same device, or one below the other. *)
Definition related (a b : string) : Prop :=
  a = b \/ (exists rest, b = a +:+ "/" +:+ rest) \/ (exists rest, a = b +:+ "/" +:+ rest).

Lemma related_cons c a b : related (String c a) (String c b) <-> related a b.
Proof.
  unfold related. split; intros [H|[[r H]|[r H]]].
  - left. by injection H.
  - right; left. exists r. by injection H.
  - right; right. exists r. by injection H.
  - left. by f_equal.
  - right; left. exists r. rewrite H. done.
  - right; right. exists r. rewrite H. done.
Qed.

Lemma compare_from_spec n a b :
  (String.length a < n)%nat -> (String.length b < n)%nat ->
  compare_from n a b = true <-> related a b.
Proof.
  revert a b. induction n as [|n IH]; intros a b Ha Hb; [lia|].
  destruct a as [|x a], b as [|y b]; simpl in *.
  - split; [by left | done].
  - rewrite bool_decide_eq_true. split.
    + intros ->. right; left. by exists b.
    + intros [H|[[r H]|[r H]]]; [done | by injection H | done].
  - rewrite bool_decide_eq_true. split.
    + intros ->. right; right. by exists a.
    + intros [H|[[r H]|[r H]]]; [done | done | by injection H].
  - case_bool_decide as Hxy.
    + subst y. rewrite related_cons. apply IH; lia.
    + split; [done|]. intros [H|[[r H]|[r H]]]; by injection H.
Qed.

(** ** Comparing with a list *)
Definition earlier (a b : HotplugEvent) : Prop := seqnum a < seqnum b.

Definition blocks (e x : HotplugEvent) : bool := (seqnum x <? seqnum e) && waits_for e x.

Lemma compare_loop_later e l :
  Forall (fun x => seqnum e <= seqnum x) l -> existsb (blocks e) l = false.
Proof.
  induction 1 as [|x l Hx _ IH]; [done|]. simpl. rewrite IH. unfold blocks.
  by rewrite (proj2 (Z.ltb_ge _ _) Hx).
Qed.

Lemma compare_loop_sorted e l : StronglySorted earlier l -> compare_loop e l = existsb (blocks e) l.
Proof.
  induction 1 as [|x l _ IH Hx]; [done|]. simpl. unfold blocks at 1.
  destruct (Z.leb_spec (seqnum e) (seqnum x)) as [H|H].
  - rewrite (proj2 (Z.ltb_ge _ _)) by lia. simpl. symmetry. apply compare_loop_later.
    eapply Forall_impl; [exact Hx|]. unfold earlier. intros y Hy. lia.
  - rewrite (proj2 (Z.ltb_lt _ _)) by lia. simpl. by destruct (waits_for e x).
Qed.

Lemma compare_own_head e l : compare_events e (e :: l) = false.
Proof. unfold compare_events. simpl. destruct (is_sysfs e); [|done]. by rewrite Z.leb_refl. Qed.

(** ** Handlers that leave the queue alone *)
Definition quiet (handler : handler_call -> HotplugEvent -> list queue_call) : Prop :=
  forall c e, handler c e = [] \/ handler c e = [CallEnd].

Section Theory.
Context (view : hotplug -> sysfs_view) (handler : handler_call -> HotplugEvent -> list queue_call).
Context (Hquiet : quiet handler).

Lemma quiet_calls c e : queue_calls handler c e = [] \/ queue_calls handler c e = [CallEnd].
Proof. destruct c; simpl; auto. Qed.

(** What beginning an event does. *)
Lemma begin_at_spec i e st :
  let st' := begin_at view handler i e st in
  hotplug_event_queue st' = delete i (hotplug_event_queue st) /\ begun st' = e :: begun st /\
  drained st' = drained st /\ processing st' = processing st /\ has_queue st' = has_queue st /\
  (hotplug_events_in_progress st' <> [] \/ hotplug_event_queue_restart st' = true).
Proof.
  intros st'. unfold st', begin_at. destruct (hotplug_event_begin (view st) e) as [e' c].
  destruct (quiet_calls c e') as [-> | ->]; simpl; repeat split; try done.
  - left. by destruct (hotplug_events_in_progress st).
  - by right.
Qed.

Definition can_begin (e : HotplugEvent) (st : hotplug) : bool :=
  negb (compare_events e (hotplug_event_queue st)) &&
  negb (compare_events e (hotplug_events_in_progress st)).

(** A property of the states of the loop, by what its rounds do. *)
Lemma process_loop_ind (Q : nat -> hotplug -> Prop) :
  (forall i st, Q i st -> Q i (set_restart false st)) ->
  (forall i e st, Q i st -> hotplug_event_queue st !! i = Some e -> can_begin e st = true ->
     let st' := begin_at view handler i e st in
     Q (if bool_decide (i = O) || hotplug_event_queue_restart st' then O else i) st') ->
  (forall i e st, Q i st -> hotplug_event_queue st !! i = Some e -> can_begin e st = false -> Q (S i) st) ->
  forall fuel i st st', Q i st -> process_loop view handler fuel i st = Some st' ->
    exists j, Q j st' /\ hotplug_event_queue st' !! j = None.
Proof.
  intros Hset Hbegin Hheld. induction fuel as [|fuel IH]; intros i st st' HQ H; [done|]. simpl in H.
  destruct (hotplug_event_queue st !! i) as [e|] eqn:E; [|injection H as <-; eauto].
  fold (can_begin e st) in H. destruct (can_begin e st) eqn:Ec.
  - specialize (Hbegin i e st HQ E Ec). simpl in Hbegin.
    destruct (bool_decide (i = 0%nat) || _); (eapply IH; [|exact H]); auto.
  - eapply IH; [|exact H]. eauto.
Qed.

(** ** Termination *)
Definition rounds (n : nat) : nat := ((n + 1) * (n + 1))%nat.

Lemma process_loop_ends fuel i st :
  (i <= length (hotplug_event_queue st))%nat ->
  (rounds (length (hotplug_event_queue st)) - i <= fuel)%nat ->
  is_Some (process_loop view handler fuel i st).
Proof.
  unfold rounds. revert i st. induction fuel as [|fuel IH]; intros i st Hi Hf; [nia|]. simpl.
  destruct (hotplug_event_queue st !! i) as [e|] eqn:E; [|eauto].
  pose proof (lookup_lt_Some _ _ _ E) as Hlt. fold (can_begin e st). destruct (can_begin e st).
  - destruct (begin_at_spec i e st) as (Hq & _).
    assert (length (hotplug_event_queue (begin_at view handler i e st)) = length (hotplug_event_queue st) - 1)%nat
      as Hlen by (rewrite Hq, length_delete; [done | eauto]).
    destruct (bool_decide (i = 0%nat) || _); apply IH; simpl; rewrite Hlen; nia.
  - apply IH; [lia|]. nia.
Qed.

(** ** What processing leaves *)
Definition conserved (st0 : hotplug) (st : hotplug) : Prop :=
  drained st = drained st0 /\ has_queue st = has_queue st0 /\ processing st = processing st0 /\
  exists l, begun st = l ++ begun st0 /\ l ++ hotplug_event_queue st ≡ₚ hotplug_event_queue st0.

Definition not_stranded (i : nat) (st : hotplug) : Prop :=
  i = O \/ hotplug_events_in_progress st <> [].

Lemma begin_conserved st0 i e st :
  conserved st0 st -> hotplug_event_queue st !! i = Some e ->
  conserved st0 (begin_at view handler i e st).
Proof.
  intros (H1 & H2 & H3 & l & Hl & Hp) E. destruct (begin_at_spec i e st) as (Q1 & Q2 & Q3 & Q4 & Q5 & _).
  split; [congruence|]. split; [congruence|]. split; [congruence|]. exists (e :: l).
  rewrite Q1, Q2, Hl. split; [done|]. rewrite <- Hp. simpl.
  rewrite (delete_Permutation _ _ _ E) at 2. by rewrite <- Permutation_middle.
Qed.

Lemma begin_not_stranded i e st :
  let st' := begin_at view handler i e st in
  not_stranded (if bool_decide (i = O) || hotplug_event_queue_restart st' then O else i) st'.
Proof.
  intros st'. destruct (begin_at_spec i e st) as (_ & _ & _ & _ & _ & H). fold st' in H.
  case_bool_decide; simpl; [by left|]. destruct (hotplug_event_queue_restart st'); [by left|].
  right. by destruct H.
Qed.

Lemma held_not_stranded i e st :
  not_stranded i st -> hotplug_event_queue st !! i = Some e -> can_begin e st = false ->
  not_stranded (S i) st.
Proof.
  intros [-> |H] E Ec; right; [|done]. destruct (hotplug_event_queue st) as [|e' q] eqn:Eq; [done|].
  simpl in E. injection E as ->. unfold can_begin in Ec. rewrite Eq, compare_own_head in Ec. simpl in Ec.
  intros Hp. rewrite Hp in Ec. unfold compare_events in Ec. by destruct (is_sysfs e).
Qed.

Lemma process_loop_result fuel st st' :
  process_loop view handler fuel 0 st = Some st' ->
  conserved st st' /\ (hotplug_event_queue st' = [] \/ hotplug_events_in_progress st' <> []).
Proof.
  intros H. destruct (process_loop_ind (fun i s => conserved st s /\ not_stranded i s)
    ltac:(done)) with (fuel := fuel) (i := O) (st := st) (st' := st') as (j & [Hc [-> |Hn]] & Hj).
  - intros i e s [Hc _] E _. split; [by apply begin_conserved | apply begin_not_stranded].
  - intros i e s [Hc Hn] E Ec. split; [done | by eapply held_not_stranded].
  - split; [|by left]. repeat split. exists []. done.
  - done.
  - split; [done|]. left. by destruct (hotplug_event_queue st').
  - split; [done | by right].
Qed.
End Theory.

(** ** Runs of the system *)
Definition no_events : hotplug := mk_hotplug false [] false [] false 0 [].

(** The kernel reports events with growing numbers; events in progress end at
    any time; the queue is processed at any time. *)
Inductive hstep (view : hotplug -> sysfs_view)
    (handler : handler_call -> HotplugEvent -> list queue_call) : hotplug -> hotplug -> Prop :=
  | step_uevent e st :
      (forall e', e' ∈ hotplug_event_queue st ++ begun st -> seqnum e' < seqnum e) ->
      hstep view handler st (hotplug_event_enqueue e st)
  | step_end id st : hstep view handler st (hotplug_event_end id st)
  | step_process fuel st st' :
      hotplug_event_process_queue view handler fuel st = Some st' -> hstep view handler st st'.

Definition hreachable view handler : hotplug -> Prop := rtc (hstep view handler) no_events.

Section Order.
Context (view : hotplug -> sysfs_view) (handler : handler_call -> HotplugEvent -> list queue_call).
Context (Hquiet : quiet handler).

(** No event that was begun waits for one that is still queued. *)
Record ordered (st : hotplug) : Prop := {
  queue_sorted : StronglySorted earlier (hotplug_event_queue st);
  begun_first : forall e e', e ∈ hotplug_event_queue st -> e' ∈ begun st -> is_sysfs e' = true ->
    blocks e' e = false;
}.

Lemma sorted_delete i l : StronglySorted earlier l -> StronglySorted earlier (delete i l).
Proof.
  revert i. induction l as [|x l IH]; intros [|i] H; simpl; try done; apply StronglySorted_inv in H as [H Hx].
  - done.
  - constructor; [by apply IH|]. apply Forall_forall. intros y Hy. rewrite Forall_forall in Hx.
    apply Hx. by eapply list_elem_of_delete_inv.
Qed.

Lemma sorted_snoc l e :
  StronglySorted earlier l -> Forall (fun x => seqnum x < seqnum e) l -> StronglySorted earlier (l ++ [e]).
Proof.
  induction 1 as [|x l H IH Hx]; intros Hl; simpl; [repeat constructor|].
  apply Forall_cons in Hl as [He Hl]. constructor; [by apply IH|].
  apply Forall_app. split; [done|]. by repeat constructor.
Qed.

Lemma begin_ordered i e st :
  ordered st -> hotplug_event_queue st !! i = Some e -> can_begin e st = true ->
  ordered (begin_at view handler i e st).
Proof.
  intros [Hs Hb] E Hc. destruct (begin_at_spec view handler Hquiet i e st) as (Q1 & Q2 & _).
  assert (forall x, x ∈ delete i (hotplug_event_queue st) -> x ∈ hotplug_event_queue st) as Hsub.
  { intros x Hx. rewrite (delete_Permutation _ _ _ E). by right. }
  split; rewrite Q1; [by apply sorted_delete|]. intros x e'. rewrite Q2. intros Hx He' Hsys.
  apply elem_of_cons in He' as [-> |He']; [|by apply Hb; auto].
  apply andb_true_iff in Hc as [Hc _]. apply negb_true_iff in Hc.
  unfold compare_events in Hc. rewrite Hsys, compare_loop_sorted in Hc by done.
  apply not_true_is_false. intros Hbl. apply not_true_iff_false in Hc. apply Hc, existsb_exists.
  exists x. split; [|done]. apply list_elem_of_In. auto.
Qed.

Lemma process_ordered fuel st st' :
  ordered st -> hotplug_event_process_queue view handler fuel st = Some st' -> ordered st'.
Proof.
  intros Ho H. unfold hotplug_event_process_queue in H.
  destruct (has_queue st); [|by injection H as <-]. simpl in H.
  destruct (processing st); [by injection H as <-|].
  apply bind_Some in H as (s & H & Hs). injection Hs as <-.
  destruct (process_loop_ind view handler (fun _ s => ordered s)) with
    (fuel := fuel) (i := O) (st := set_processing true st) (st' := s) as (j & Hj & _).
  - intros i x [H1 H2]. by split.
  - intros i e x Hx E Hc. by apply begin_ordered.
  - done.
  - destruct Ho as [H1 H2]. by split.
  - done.
  - destruct Hj as [H1 H2]. unfold queue_now_empty. simpl.
    destruct (hotplug_event_queue s) eqn:Eq, (hotplug_events_in_progress s);
      split; simpl; rewrite ?Eq; try done; set_solver.
Qed.

Lemma step_ordered st st' : ordered st -> hstep view handler st st' -> ordered st'.
Proof.
  intros Ho H. destruct H as [e st Hnew|id st|fuel st st' H].
  - destruct Ho as [H1 H2]. split; simpl.
    + apply sorted_snoc; [done|]. apply Forall_forall. intros x Hx. apply Hnew. set_solver.
    + intros x e' Hx He' Hsys. apply elem_of_app in Hx as [Hx|Hx]; [by apply H2|].
      apply list_elem_of_singleton in Hx as ->. unfold blocks.
      specialize (Hnew e' ltac:(set_solver)). by rewrite (proj2 (Z.ltb_ge _ _)) by lia.
  - destruct Ho as [H1 H2]. by split.
  - by eapply process_ordered.
Qed.

Lemma reachable_ordered st : hreachable view handler st -> ordered st.
Proof.
  unfold hreachable. intros H. remember no_events as s0 eqn:E0.
  assert (ordered s0) as Ho by (subst s0; split; [constructor | intros e e' H1; by apply not_elem_of_nil in H1]).
  clear E0. induction H as [|x y z Hxy _ IH]; [done|]. apply IH. by eapply step_ordered.
Qed.
End Order.

(** ** Claims *)

(** Two sysfs paths depend on each other exactly when they are equal or one
    is a directory above the other (not merely a prefix of its text). *)
Lemma paths_depend_iff_related running waiting :
  (String.length running < HAL_PATH_MAX)%nat -> (String.length waiting < HAL_PATH_MAX)%nat ->
  compare_sysfspath running waiting = true <-> related running waiting.
Proof. apply compare_from_spec. Qed.

(** C16 With handlers that neither add nor repost events (each ends its
    event at once, or later), processing a queue that exists and
    is not being processed already ends, within a bound given by the length of the queue, and
    strands nothing: it begins events
    in some order and keeps the rest queued, each event once; events stay
    queued only while some event is in progress (whose end will process the
    queue again), and the end of all activity is reported exactly when
    nothing is queued or in progress.  The condition on the handlers is needed: the handler of
    removed disks puts an event in front of its own and reposts, and can do so without end. *)
Theorem processing_ends_and_strands_nothing view handler st :
  quiet handler -> has_queue st = true -> processing st = false ->
  exists st', hotplug_event_process_queue view handler (rounds (length (hotplug_event_queue st))) st = Some st' /\
    (hotplug_event_queue st' = [] \/ hotplug_events_in_progress st' <> []) /\
    (exists l, begun st' = l ++ begun st /\ l ++ hotplug_event_queue st' ≡ₚ hotplug_event_queue st) /\
    processing st' = false /\
    drained st' = (drained st + match hotplug_event_queue st', hotplug_events_in_progress st' with
                                | [], [] => 1 | _, _ => 0 end)%nat.
Proof.
  intros Hq Hh Hp. unfold hotplug_event_process_queue. rewrite Hh, Hp. simpl.
  destruct (process_loop_ends view handler Hq (rounds (length (hotplug_event_queue st))) 0
    (set_processing true st)) as [s Es]; [simpl; lia | simpl; lia |]. rewrite Es. simpl.
  destruct (process_loop_result view handler Hq _ _ _ Es) as [(H1 & H2 & H3 & l & Hl & Hperm) Hn].
  eexists. split; [done|]. simpl in *. unfold queue_now_empty. simpl.
  destruct (hotplug_event_queue s) as [|x q] eqn:Eq, (hotplug_events_in_progress s) as [|y p] eqn:Ep;
    simpl; rewrite ?Eq, ?Ep; (split; [naive_solver|]); (split; [by exists l|]); (split; [done|]); lia.
Qed.

(** C15 Dependent events begin in the order of their numbers: in every state
    the queue reaches (with numbers that grow and handlers that add no
    events), no sysfs event that was begun waits for an earlier event that is
    still queued. *)
Theorem dependent_events_begin_in_order view handler st e e' :
  quiet handler -> hreachable view handler st ->
  e ∈ hotplug_event_queue st -> e' ∈ begun st -> is_sysfs e' = true -> seqnum e < seqnum e' ->
  waits_for e' e = false.
Proof.
  intros Hq Hr He He' Hs Hlt. pose proof (begun_first _ (reachable_ordered view handler Hq st Hr) e e' He He' Hs) as H.
  unfold blocks in H. by rewrite (proj2 (Z.ltb_lt _ _) Hlt) in H.
Qed.

(** ** Instances *)
Definition no_view : hotplug -> sysfs_view := fun _ => mk_view (fun _ => None) (fun _ => None) (fun _ => false).

(** Handlers that leave every event running. *)
Definition slow : handler_call -> HotplugEvent -> list queue_call := fun _ _ => [].
Lemma slow_quiet : quiet slow.
Proof. by left. Qed.

Definition uevent (id : nat) (n : Z) (path : string) : HotplugEvent :=
  mk_event id HOTPLUG_ACTION_ADD HOTPLUG_EVENT_SYSFS_DEVICE false "usb" path "" n false "" "" 0 no_udev.

Definition hub := uevent 1 1 "/sys/devices/usb1".
Definition port := uevent 2 3 "/sys/devices/usb1/1-1".
Definition camera_event := uevent 3 4 "/sys/devices/usb1/1-1/1-1:1.0".
Definition other := uevent 4 5 "/sys/devices/pci0".

Definition four_events : hotplug :=
  foldl (fun st e => hotplug_event_enqueue e st) no_events [hub; port; camera_event; other].

Lemma reach_enqueue view handler e st :
  hreachable view handler st ->
  forallb (fun e' => seqnum e' <? seqnum e) (hotplug_event_queue st ++ begun st) = true ->
  hreachable view handler (hotplug_event_enqueue e st).
Proof.
  intros Hr Hn. eapply rtc_r; [exact Hr|]. apply step_uevent. intros e' He'.
  rewrite forallb_forall in Hn. apply Z.ltb_lt, Hn. by apply list_elem_of_In.
Qed.

Lemma four_events_reachable : hreachable no_view slow four_events.
Proof. unfold four_events. simpl. repeat (apply reach_enqueue; [|reflexivity]). apply rtc_refl. Qed.

(** After the first processing, the end of the hub's event and the second. *)
Definition after_hub : option hotplug :=
  st ← hotplug_event_process_queue no_view slow 25 four_events;
  hotplug_event_process_queue no_view slow 25 (hotplug_event_end 1 st).

(** An event can begin although its parent's event is in progress: the list
    of events in progress is not in the order of their numbers, and the
    comparison stops at the first larger number.  Some run reaches a state
    with both in progress. *)
Lemma child_event_overlaps_its_parent :
  exists st p c, hreachable no_view slow st /\
    p ∈ hotplug_events_in_progress st /\ c ∈ hotplug_events_in_progress st /\
    seqnum p < seqnum c /\ waits_for c p = true /\ related (sysfs_path p) (sysfs_path c).
Proof.
  destruct after_hub as [st|] eqn:E; [|vm_compute in E; discriminate E].
  exists st, port, camera_event. split.
  - unfold after_hub in E. apply bind_Some in E as (s & E1 & E2).
    unfold hreachable. etransitivity; [apply four_events_reachable|].
    eapply rtc_l; [by eapply step_process|]. eapply rtc_l; [apply (step_end _ _ 1)|].
    eapply rtc_l; [by eapply step_process | apply rtc_refl].
  - vm_compute in E. injection E as <-. split; [|split; [|split; [|split]]].
    + simpl. right. left.
    + simpl. right. right. left.
    + simpl. lia.
    + vm_compute. reflexivity.
    + right; left. exists "1-1:1.0". reflexivity.
Qed.

Lemma paths_depend_iff_related_witness :
  compare_sysfspath "/sys/a" "/sys/a/b" = true <-> related "/sys/a" "/sys/a/b".
Proof. apply (paths_depend_iff_related "/sys/a" "/sys/a/b"); unfold HAL_PATH_MAX; simpl; lia. Defined.

Lemma processing_ends_and_strands_nothing_witness :
  exists st', hotplug_event_process_queue no_view slow 25 four_events = Some st' /\
    (hotplug_event_queue st' = [] \/ hotplug_events_in_progress st' <> []).
Proof.
  destruct (processing_ends_and_strands_nothing no_view slow four_events slow_quiet eq_refl eq_refl)
    as (st' & E & H & _). by exists st'.
Defined.

(** The hub and the other device were begun, the port is still queued. *)
Lemma dependent_events_begin_in_order_witness :
  exists st, hotplug_event_process_queue no_view slow 25 four_events = Some st /\
    waits_for other port = false.
Proof.
  destruct (hotplug_event_process_queue no_view slow 25 four_events) as [st|] eqn:E;
    [|vm_compute in E; discriminate E].
  exists st. split; [reflexivity|].
  apply (dependent_events_begin_in_order no_view slow st port other slow_quiet).
  - eapply rtc_r; [apply four_events_reachable | by eapply step_process].
  - vm_compute in E. injection E as <-. simpl. left.
  - vm_compute in E. injection E as <-. simpl. left.
  - reflexivity.
  - reflexivity.
Defined.
