(* ===== verification/Partutil.v ===== *)
(** * Partition tables ([partutil/partutil.c])

    The parsers for MS-DOS, extended, GPT and Apple partition tables and the
    questions about their entries.  A device is the list of its bytes (numbers
    below 256); reading fails when it is too short, and [lseek] refuses offsets
    that are negative as [off_t].  Products of two [int]s wrap.

    The chain of extended partition tables is followed with fuel, one unit per
    table; [None] is the lack of fuel.  GLib's [g_strchomp] and
    [g_utf16_to_utf8] are parameters.  Changing partitions is done by
    libparted and is not modelled. *)

From Stdlib Require Import ZArith Lia Ascii.
From stdpp Require Import base list strings option.
From S2P Require Import Prelude CStd Property.

(** ** Data *)
Inductive PartitionScheme := PART_TYPE_MSDOS | PART_TYPE_MSDOS_EXTENDED | PART_TYPE_APPLE | PART_TYPE_GPT.

Definition part_get_scheme_name (scheme : PartitionScheme) : string :=
  match scheme with
  | PART_TYPE_GPT => "gpt"
  | PART_TYPE_MSDOS => "mbr"
  | PART_TYPE_MSDOS_EXTENDED => "embr"
  | PART_TYPE_APPLE => "apm"
  end.

(** [is_part_table] says whether [pe_table] is there. *)
Inductive PartitionEntry :=
  | mk_part_entry (pe_table : option PartitionTable) (pe_data : list Z) (pe_offset : Z)
with PartitionTable :=
  | mk_table (pt_scheme : PartitionScheme) (pt_offset pt_size : Z) (pt_entries : list PartitionEntry).

Definition pe_table (pe : PartitionEntry) : option PartitionTable := let '(mk_part_entry t _ _) := pe in t.
Definition pe_data (pe : PartitionEntry) : list Z := let '(mk_part_entry _ d _) := pe in d.
Definition pe_offset (pe : PartitionEntry) : Z := let '(mk_part_entry _ _ o) := pe in o.
Definition scheme (p : PartitionTable) : PartitionScheme := let '(mk_table s _ _ _) := p in s.
Definition entries (p : PartitionTable) : list PartitionEntry := let '(mk_table _ _ _ l) := p in l.

(** ** Bytes *)
Definition byte_at (i : nat) (b : list Z) : Z := default 0 (b !! i).

Fixpoint le (b : list Z) : Z :=
  match b with [] => 0 | x :: rest => x + 256 * le rest end.

Definition get_le16 (b : list Z) : Z := le (take 2 b).
Definition get_le32 (b : list Z) : Z := le (take 4 b).
Definition get_le64 (b : list Z) : Z := le (take 8 b).
Definition get_be32 (b : list Z) : Z := le (reverse (take 4 b)).
Definition get_be16 (b : list Z) : Z := le (reverse (take 2 b)).

Definition hex_digit (d : Z) : ascii :=
  ascii_of_nat (Z.to_nat (if d <? 10 then 48 + d else 55 + d)).
(** ["%0<n>X"] of a value below [16 ^ n]. *)
Fixpoint hex (n : nat) (z : Z) : string :=
  match n with O => "" | S n' => hex n' (z / 16) +:+ String (hex_digit (z mod 16)) "" end.
Definition lower_hex (s : string) : string :=
  String.string_of_list_ascii (map (fun c =>
    if decide (65 <= nat_of_ascii c)%nat then ascii_of_nat (nat_of_ascii c + 32) else c)
    (String.list_ascii_of_string s)).

Definition get_le_guid (b : list Z) : string :=
  let d := fun i => hex 2 (byte_at i b) in
  hex 8 (get_le32 b) +:+ "-" +:+ hex 4 (get_le16 (drop 4 b)) +:+ "-" +:+ hex 4 (get_le16 (drop 6 b)) +:+ "-"
  +:+ d 8%nat +:+ d 9%nat +:+ "-"
  +:+ d 10%nat +:+ d 11%nat +:+ d 12%nat +:+ d 13%nat +:+ d 14%nat +:+ d 15%nat.

(** [lseek] and [read] of exactly [len] bytes. *)
Definition read_at (disk : list Z) (off : Z) (len : nat) : option (list Z) :=
  if s64 off <? 0 then None
  else if Z.of_nat (length disk) <? off + Z.of_nat len then None
  else Some (take len (drop (Z.to_nat off) disk)).

(** ** Entries *)
Definition part_entry_new (e_part_table : option PartitionTable) (data : list Z) (length : nat)
    (offset : Z) : PartitionEntry :=
  mk_part_entry e_part_table (take length data) offset.

(** ** MS-DOS *)
Definition MSDOS_PARTTABLE_OFFSET : nat := 446.
Definition MSDOS_SIG_OFF : nat := 510.

Definition has_msdos_magic (sector : list Z) : bool :=
  (byte_at MSDOS_SIG_OFF sector =? 85) && (byte_at (MSDOS_SIG_OFF + 1) sector =? 170).

(** The 16 bytes of entry [n], and its fields. *)
Definition msdos_entry (sector : list Z) (n : nat) : list Z :=
  drop (MSDOS_PARTTABLE_OFFSET + n * 16) sector.
Definition pstart (sector : list Z) (n : nat) : Z := 512 * get_le32 (drop 8 (msdos_entry sector n)).
Definition psize (sector : list Z) (n : nat) : Z := 512 * get_le32 (drop 12 (msdos_entry sector n)).
Definition ptype (sector : list Z) (n : nat) : Z := byte_at 4 (msdos_entry sector n).
Definition pflag (sector : list Z) (n : nat) : Z := byte_at 0 (msdos_entry sector n).

(** The logical partition of one extended table, and where the next table is
    (0: there is none). *)
Definition embr_entry (embr : list Z) (readfrom : Z) : list PartitionEntry :=
  if psize embr 0 =? 0 then []
  else [part_entry_new None (msdos_entry embr 0) 16 (u64 (readfrom + Z.of_nat MSDOS_PARTTABLE_OFFSET))].
Definition embr_next (embr : list Z) (offset : Z) : Z :=
  if psize embr 1 =? 0 then 0
  else if pstart embr 1 =? 0 then 0
  else u64 (offset + pstart embr 1).

Definition add_entries (offset size : Z) (p : option PartitionTable) (l : list PartitionEntry)
  : PartitionTable :=
  match p with
  | None => mk_table PART_TYPE_MSDOS_EXTENDED offset size l
  | Some (mk_table s o z es) => mk_table s o z (es ++ l)
  end.

Fixpoint extended_loop (fuel : nat) (disk : list Z) (offset size next : Z) (p : option PartitionTable)
  : option (option PartitionTable) :=
  if next =? 0 then Some p
  else match fuel with
       | O => None
       | S fuel' =>
           match read_at disk next 512 with
           | None => Some p
           | Some embr =>
               if negb (has_msdos_magic embr) then Some p
               else extended_loop fuel' disk offset size (embr_next embr offset)
                      (Some (add_entries offset size p (embr_entry embr next)))
           end
       end.

Definition part_table_parse_msdos_extended (fuel : nat) (disk : list Z) (offset size : Z)
  : option (option PartitionTable) :=
  extended_loop fuel disk offset size offset None.

Definition is_extended_type (t : Z) : bool := (t =? 5) || (t =? 15) || (t =? 133).

(** One of the four entries. *)
Definition msdos_part (fuel : nat) (disk mbr : list Z) (offset : Z) (n : nat)
  : option (list PartitionEntry) :=
  let at_ := u64 (offset + Z.of_nat (MSDOS_PARTTABLE_OFFSET + n * 16)) in
  if is_extended_type (ptype mbr n) then
    e ← part_table_parse_msdos_extended fuel disk (pstart mbr n) (psize mbr n);
    Some (match e with
          | Some t => [part_entry_new (Some t) (msdos_entry mbr n) 16 at_]
          | None => []
          end)
  else Some [part_entry_new None (msdos_entry mbr n) 16 at_].

(** The sanity checks: [Some found_gpt] when the table is refused. *)
Fixpoint msdos_checks (mbr : list Z) (ns : list nat) : option bool :=
  match ns with
  | [] => None
  | n :: rest =>
      if negb (pflag mbr n =? 0) && negb (pflag mbr n =? 128) then Some false
      else if ptype mbr n =? 238 then Some true
      else msdos_checks mbr rest
  end.

Fixpoint msdos_parts (fuel : nat) (disk mbr : list Z) (offset : Z) (ns : list nat)
  : option (list PartitionEntry) :=
  match ns with
  | [] => Some []
  | n :: rest => l ← msdos_part fuel disk mbr offset n; l' ← msdos_parts fuel disk mbr offset rest;
                 Some (l ++ l')
  end.

(** The table and [found_gpt]. *)
Definition part_table_parse_msdos (fuel : nat) (disk : list Z) (offset size : Z)
  : option (option PartitionTable * bool) :=
  match read_at disk offset 512 with
  | None => Some (None, false)
  | Some mbr =>
      if negb (has_msdos_magic mbr) then Some (None, false)
      else match msdos_checks mbr [0; 1; 2; 3]%nat with
           | Some found_gpt => Some (None, found_gpt)
           | None =>
               l ← msdos_parts fuel disk mbr offset [0; 1; 2; 3]%nat;
               Some (Some (mk_table PART_TYPE_MSDOS offset size l), false)
           end
  end.

(** ** GPT *)
Definition GPT_MAGIC : list Z := [69; 70; 73; 32; 80; 65; 82; 84].
Definition GPT_PART_TYPE_GUID_EMPTY : string := "00000000-0000-0000-0000-000000000000".

(** The entries from number [n] on, [count] of them; reading stops at the
    first that cannot be read. *)
Fixpoint gpt_loop (disk : list Z) (offset partition_entry_lba size_of_entry : Z) (count : nat) (n : Z)
  : list PartitionEntry :=
  match count with
  | O => []
  | S count' =>
      let at_ := u64 (offset + partition_entry_lba * 512 + s32 (n * size_of_entry)) in
      match read_at disk at_ 128 with
      | None => []
      | Some e =>
          (if get_le_guid e =s? GPT_PART_TYPE_GUID_EMPTY then [] else [part_entry_new None e 128 at_])
          ++ gpt_loop disk offset partition_entry_lba size_of_entry count' (n + 1)
      end
  end.

Definition part_table_parse_gpt (disk : list Z) (offset size : Z) : option PartitionTable :=
  magic ← read_at disk (u64 (offset + 512)) 8;
  if bool_decide (magic = GPT_MAGIC) then
    _ ← read_at disk (u64 (offset + 512 + 56)) 16;
    lba ← read_at disk (u64 (offset + 512 + 72)) 8;
    num ← read_at disk (u64 (offset + 512 + 80)) 4;
    sz ← read_at disk (u64 (offset + 512 + 84)) 4;
    let num_entries := s32 (get_le32 num) in
    let size_of_entry := s32 (get_le32 sz) in
    Some (mk_table PART_TYPE_GPT offset size
            (gpt_loop disk offset (get_le64 lba) size_of_entry (Z.to_nat num_entries) 0))
  else None.

(** ** Apple *)
Definition sizeof_mac_part : nat := 136.

(** [mac_part] is the entry read last: its signature is checked before the
    next one is read. *)
Fixpoint apple_loop (disk : list Z) (offset block_size : Z) (count : nat) (n : Z) (mac_part : list Z)
  : list PartitionEntry :=
  match count with
  | O => []
  | S count' =>
      if negb (bool_decide (take 2 mac_part = [80; 77])) then []
      else
        let at_ := u64 (offset + s32 ((n + 1) * block_size)) in
        match read_at disk at_ sizeof_mac_part with
        | None => []
        | Some e => part_entry_new None e sizeof_mac_part at_
                    :: apple_loop disk offset block_size count' (n + 1) e
        end
  end.

Definition part_table_parse_apple (disk : list Z) (offset size : Z) : option PartitionTable :=
  mac_header ← read_at disk offset 8;
  if bool_decide (take 2 mac_header = [69; 82]) then
    let block_size := get_be16 (drop 2 mac_header) in
    Some (mk_table PART_TYPE_APPLE offset size
      (match read_at disk (u64 (offset + block_size)) sizeof_mac_part with
       | None => []
       | Some mac_part =>
           apple_loop disk offset block_size (Z.to_nat (s32 (get_be32 (drop 4 mac_part)))) 0 mac_part
       end))
  else None.

(** ** The whole disk: [None] for the device when it cannot be opened or its
    size is unknown. *)
Definition part_table_load_from_disk (fuel : nat) (device : option (list Z)) (size : option Z)
  : option (option PartitionTable) :=
  match device, size with
  | Some disk, Some size =>
      r ← part_table_parse_msdos fuel disk 0 size;
      Some (match r.1 with
            | Some p => Some p
            | None =>
                match (if r.2 : bool then part_table_parse_gpt disk 0 size else None) with
                | Some t => Some t
                | None => part_table_parse_apple disk 0 size
                end
            end)
  | _, _ => Some None
  end.

(** ** Questions *)
Definition G_MAXUINT64 : Z := 2 ^ 64 - 1.

(** [g_slist_nth_data]: an entry number is an [int], converted to unsigned. *)
Definition nth_entry (p : PartitionTable) (entry : Z) : option PartitionEntry :=
  entries p !! Z.to_nat (u32 entry).

Definition part_table_get_scheme (p : PartitionTable) : PartitionScheme := scheme p.
Definition part_table_get_offset (p : PartitionTable) : Z := let '(mk_table _ o _ _) := p in o.
Definition part_table_get_size (p : PartitionTable) : Z := let '(mk_table _ _ z _) := p in z.
Definition part_table_get_num_entries (p : PartitionTable) : Z := Z.of_nat (length (entries p)).

Definition part_table_entry_get_nested (p : PartitionTable) (entry : Z) : option PartitionTable :=
  pe ← nth_entry p entry; pe_table pe.

Definition entry_offset (s : PartitionScheme) (pe : PartitionEntry) : Z :=
  match s with
  | PART_TYPE_GPT => u64 (512 * get_le64 (drop 32 (pe_data pe)))
  | PART_TYPE_MSDOS => u64 (512 * get_le32 (drop 8 (pe_data pe)))
  | PART_TYPE_MSDOS_EXTENDED =>
      u64 (512 * get_le32 (drop 8 (pe_data pe)) + pe_offset pe - Z.of_nat MSDOS_PARTTABLE_OFFSET)
  | PART_TYPE_APPLE => u64 (512 * get_be32 (drop 8 (pe_data pe)))
  end.
Definition part_table_entry_get_offset (p : PartitionTable) (entry : Z) : Z :=
  match nth_entry p entry with Some pe => entry_offset (scheme p) pe | None => G_MAXUINT64 end.

Definition entry_size (s : PartitionScheme) (pe : PartitionEntry) : Z :=
  match s with
  | PART_TYPE_GPT => u64 (512 * (get_le64 (drop 40 (pe_data pe)) - get_le64 (drop 32 (pe_data pe)) + 1))
  | PART_TYPE_MSDOS | PART_TYPE_MSDOS_EXTENDED => u64 (512 * get_le32 (drop 12 (pe_data pe)))
  | PART_TYPE_APPLE => u64 (512 * get_be32 (drop 12 (pe_data pe)))
  end.
Definition part_table_entry_get_size (p : PartitionTable) (entry : Z) : Z :=
  match nth_entry p entry with Some pe => entry_size (scheme p) pe | None => G_MAXUINT64 end.

Definition flag_bit (v : Z) (i : Z) (name : string) : list string := if Z.testbit v i then [name] else [].

Definition part_table_entry_get_flags (p : PartitionTable) (entry : Z) : option (list string) :=
  pe ← nth_entry p entry;
  Some (match scheme p with
        | PART_TYPE_GPT => flag_bit (get_le64 (drop 48 (pe_data pe))) 0 "required"
        | PART_TYPE_MSDOS | PART_TYPE_MSDOS_EXTENDED =>
            if byte_at 0 (pe_data pe) =? 128 then ["boot"] else []
        | PART_TYPE_APPLE =>
            let apm_status := get_be32 (drop 88 (pe_data pe)) in
            flag_bit apm_status 1 "allocated" ++ flag_bit apm_status 2 "in_use" ++
            flag_bit apm_status 3 "boot" ++ flag_bit apm_status 4 "allow_read" ++
            flag_bit apm_status 5 "allow_write" ++ flag_bit apm_status 6 "boot_code_is_pic"
        end).

(** The C string in the bytes; [None] when no terminator is among them. *)
Definition c_string (b : list Z) : option string := cstr ((fun z => ascii_of_nat (Z.to_nat z)) <$> b).

Section Text.
Context (g_strchomp : string -> string) (g_utf16_to_utf8 : list Z -> option string).

(** The outer option: reading outside the entry. *)
Definition part_table_entry_get_type (p : PartitionTable) (entry : Z) : option (option string) :=
  match nth_entry p entry with
  | None => Some None
  | Some pe =>
      match scheme p with
      | PART_TYPE_GPT => Some (Some (g_strchomp (get_le_guid (pe_data pe))))
      | PART_TYPE_MSDOS | PART_TYPE_MSDOS_EXTENDED =>
          Some (Some (g_strchomp ("0x" +:+ lower_hex (hex 2 (byte_at 4 (pe_data pe))))))
      | PART_TYPE_APPLE => s ← c_string (drop 48 (pe_data pe)); Some (Some (g_strchomp (g_strchomp s)))
      end
  end.

Definition part_table_entry_get_uuid (p : PartitionTable) (entry : Z) : option string :=
  pe ← nth_entry p entry;
  match scheme p with
  | PART_TYPE_GPT => Some (g_strchomp (get_le_guid (drop 16 (pe_data pe))))
  | _ => None
  end.

Definition part_table_entry_get_label (p : PartitionTable) (entry : Z) : option (option string) :=
  match nth_entry p entry with
  | None => Some None
  | Some pe =>
      match scheme p with
      | PART_TYPE_GPT => Some (g_strchomp <$> g_utf16_to_utf8 (take 72 (drop 56 (pe_data pe))))
      | PART_TYPE_APPLE => s ← c_string (drop 16 (pe_data pe)); Some (Some (g_strchomp (g_strchomp s)))
      | _ => Some None
      end
  end.
End Text.

(** The table that holds the offset and the number of its entry; -1 when no
    entry does. *)
Fixpoint part_table_find (p : PartitionTable) (offset : Z) : PartitionTable * Z :=
  match p with
  | mk_table s _ _ es =>
      (fix loop (es : list PartitionEntry) (n : Z) : PartitionTable * Z :=
         match es with
         | [] => (p, -1)
         | pe :: rest =>
             if (entry_offset s pe <=? offset) && (offset <? u64 (entry_offset s pe + entry_size s pe)) then
               match pe with
               | mk_part_entry (Some nested) _ _ =>
                   if entry_offset s pe <? offset then part_table_find nested offset else (p, n)
               | _ => (p, n)
               end
             else loop rest (n + 1)
         end) es 0
  end.
