(* ===== verification/PartutilClaims.v ===== *)
(** * What reading partition tables guarantees ([partutil/partutil.c])

    Chains of extended tables, a round trip through the master boot record,
    the number of its entries, and finding the entry at an offset. *)

From Stdlib Require Import ZArith Lia Ascii.
From stdpp Require Import base list strings option sets.
From S2P Require Import Prelude CStd Property Partutil.

(** ** Bytes *)
Definition byte (z : Z) : Prop := 0 <= z < 256.

Lemma le_range b : Forall byte b -> 0 <= le b < 256 ^ Z.of_nat (length b).
Proof.
  induction 1 as [|x b Hx _ IH]; [simpl; lia|]. cbn [le length]. rewrite Nat2Z.inj_succ, Z.pow_succ_r by lia.
  unfold byte in Hx. lia.
Qed.

Lemma get_le32_range b : Forall byte b -> 0 <= get_le32 b < 2 ^ 32.
Proof.
  intros H. unfold get_le32. pose proof (le_range (take 4 b) (Forall_take _ 4 _ H)) as Hr.
  pose proof (length_take_le b 4) as _. rewrite length_take in Hr.
  assert (256 ^ Z.of_nat (4 `min` length b) <= 256 ^ 4) by (apply Z.pow_le_mono_r; lia). lia.
Qed.

Lemma read_at_bytes disk x n b : Forall byte disk -> read_at disk x n = Some b -> Forall byte b.
Proof.
  unfold read_at. destruct (_ <? 0); [done|]. destruct (_ <? _); [done|]. intros H [= <-].
  by apply Forall_take, Forall_drop.
Qed.

Lemma read_at_length disk x n b : 0 <= x -> read_at disk x n = Some b -> length b = n.
Proof.
  unfold read_at. intros Hx. destruct (_ <? 0); [done|].
  destruct (Z.ltb_spec (Z.of_nat (length disk)) (x + Z.of_nat n)); [done|]. intros [= <-].
  rewrite length_take, length_drop. lia.
Qed.

Lemma read_at_range disk x n b :
  0 <= x -> read_at disk x n = Some b -> x + Z.of_nat n <= Z.of_nat (length disk).
Proof.
  unfold read_at. destruct (_ <? 0); [done|]. destruct (Z.ltb_spec (Z.of_nat (length disk)) (x + Z.of_nat n)); [done|].
  lia.
Qed.

(** ** Chains of extended tables

    The layout of an extended table: four bytes each at 454 and 458 for start
    and size of the logical partition, in sectors from the table, and at 470
    and 474 for the next table, in sectors from the extended partition. *)
Definition dword (sector : list Z) (i : nat) : Z :=
  byte_at i sector + 2 ^ 8 * byte_at (i + 1) sector + 2 ^ 16 * byte_at (i + 2) sector
  + 2 ^ 24 * byte_at (i + 3) sector.

Lemma get_le32_dword sector i :
  (i + 4 <= length sector)%nat -> get_le32 (drop i sector) = dword sector i.
Proof.
  intros Hl. unfold get_le32, dword, byte_at.
  replace i with (i + 0)%nat at 2 by lia. rewrite <- !lookup_drop.
  assert (4 <= length (drop i sector))%nat by (rewrite length_drop; lia).
  destruct (drop i sector) as [|a [|b [|c [|d l]]]]; simpl in *; lia.
Qed.

Lemma get_le32_entry sector i n :
  length sector = 512%nat -> (n <= 1)%nat -> (i <= 12)%nat ->
  get_le32 (drop i (msdos_entry sector n)) = dword sector (446 + n * 16 + i).
Proof.
  intros Hl Hn Hi. unfold msdos_entry, MSDOS_PARTTABLE_OFFSET. rewrite drop_drop.
  apply get_le32_dword. lia.
Qed.

Section Chain.
Context (disk : list Z) (offset size : Z) (Hbytes : Forall byte disk) (Hoff : 0 < offset < 2 ^ 41).

(** A table that can be read. *)
Definition embr_at (x : Z) : option (list Z) :=
  embr ← read_at disk x 512; if has_msdos_magic embr then Some embr else None.

(** The table behind one. *)
Definition link (x : Z) : option Z :=
  embr ← embr_at x;
  if (dword embr 470 =? 0) || (dword embr 474 =? 0) then None else Some (offset + 512 * dword embr 470).

Fixpoint follow (n : nat) (x : Z) : option Z :=
  match n with O => Some x | S n' => y ← link x; follow n' y end.

(** The tables from [x] on, when the chain ends: the last one links nowhere, or
    to a place without a table. *)
Inductive chain : Z -> list Z -> Prop :=
  | chain_broken x : embr_at x = None -> chain x []
  | chain_last x embr : embr_at x = Some embr -> link x = None -> chain x [x]
  | chain_link x y l : link x = Some y -> chain y l -> chain x (x :: l).

(** The logical partition in the table at [x]: where it starts, and its size. *)
Definition logical (x : Z) : option (Z * Z) :=
  embr ← embr_at x; if dword embr 458 =? 0 then None else Some (x + 512 * dword embr 454, 512 * dword embr 458).

Lemma embr_at_sector x embr : 0 <= x -> embr_at x = Some embr -> Forall byte embr /\ length embr = 512%nat.
Proof.
  intros Hx. unfold embr_at. destruct (read_at disk x 512) as [e|] eqn:E; [|done]. simpl.
  destruct (has_msdos_magic e); [|done]. intros [= <-].
  split; [by eapply read_at_bytes | by eapply read_at_length].
Qed.

Lemma embr_next_link x embr :
  0 <= x -> embr_at x = Some embr -> embr_next embr offset = default 0 (link x).
Proof.
  intros Hx E. destruct (embr_at_sector x embr Hx E) as [Hb Hl]. unfold link. rewrite E. simpl.
  unfold embr_next, psize, pstart. rewrite !get_le32_entry by (done || lia). simpl.
  assert (0 <= dword embr 470 < 2 ^ 32).
  { rewrite <- get_le32_dword by (rewrite Hl; lia). by apply get_le32_range, Forall_drop. }
  destruct (Z.eqb_spec (512 * dword embr 474) 0), (Z.eqb_spec (dword embr 474) 0); try lia;
    [by rewrite orb_true_r|].
  destruct (Z.eqb_spec (512 * dword embr 470) 0), (Z.eqb_spec (dword embr 470) 0); try lia; [done|].
  simpl. rewrite wrap_u_id by (unfold in_u; lia). done.
Qed.

Lemma loop_step fuel x p :
  x <> 0 ->
  extended_loop (S fuel) disk offset size x p =
  match embr_at x with
  | None => Some p
  | Some embr => extended_loop fuel disk offset size (embr_next embr offset)
                   (Some (add_entries offset size p (embr_entry embr x)))
  end.
Proof.
  intros Hx. cbn [extended_loop]. rewrite (proj2 (Z.eqb_neq _ _) Hx). unfold embr_at.
  destruct (read_at disk x 512) as [embr|]; [|done]. simpl. by destruct (has_msdos_magic embr).
Qed.

Lemma link_Some x y :
  0 <= x -> link x = Some y -> 0 < y /\ exists embr, embr_at x = Some embr /\ embr_next embr offset = y.
Proof.
  intros Hx El. assert (is_Some (embr_at x)) as [embr E].
  { unfold link in El. destruct (embr_at x); [eauto | done]. }
  split; [|exists embr; split; [done|]; rewrite (embr_next_link x embr Hx E), El; done].
  destruct (embr_at_sector x embr Hx E) as [Hb Hl]. unfold link in El. rewrite E in El. simpl in El.
  destruct (_ || _); [done|]. injection El as <-.
  pose proof (get_le32_range (drop 470 embr) (Forall_drop _ 470 _ Hb)) as Hr.
  rewrite get_le32_dword in Hr by (rewrite Hl; lia). lia.
Qed.

Lemma follow_diverges fuel x p :
  0 < x -> is_Some (follow fuel x) -> extended_loop fuel disk offset size x p = None.
Proof.
  revert x p. induction fuel as [|fuel IH]; intros x p Hx [z Hz].
  - cbn [extended_loop]. by rewrite (proj2 (Z.eqb_neq _ _)) by lia.
  - simpl in Hz. destruct (link x) as [y|] eqn:El; [|done]. simpl in Hz.
    apply link_Some in El as (Hy & embr & E & <-); [|lia]. rewrite loop_step, E by lia. apply IH; [lia | eauto].
Qed.

Lemma follow_app a b x : follow (a + b) x = y ← follow a x; follow b y.
Proof.
  revert x. induction a as [|a IH]; intros x; simpl; [done|]. destruct (link x); simpl; [apply IH | done].
Qed.

Lemma follow_prefix a b x : (a <= b)%nat -> is_Some (follow b x) -> is_Some (follow a x).
Proof.
  intros Hab. replace b with (a + (b - a))%nat by lia. rewrite follow_app.
  destruct (follow a x); [eauto | by intros [? ?]].
Qed.

Lemma follow_cycle k m x : follow k x = Some x -> follow (m * k) x = Some x.
Proof.
  intros H. induction m as [|m IH]; simpl; [done|]. rewrite follow_app, H. simpl. done.
Qed.

(** Entries collected along a chain. *)
Definition collected (l : list Z) : list PartitionEntry :=
  flat_map (fun x => match embr_at x with Some embr => embr_entry embr x | None => [] end) l.

Definition with_entries (p : option PartitionTable) (l : list Z) : option PartitionTable :=
  match l with [] => p | _ => Some (add_entries offset size p (collected l)) end.

Lemma add_entries_app p l1 l2 :
  add_entries offset size (Some (add_entries offset size p l1)) l2 = add_entries offset size p (l1 ++ l2).
Proof. destruct p as [[s o z es]|]; simpl; [by rewrite app_assoc | done]. Qed.

Lemma loop_chain x l :
  chain x l -> 0 < x -> forall fuel p, (length l < fuel)%nat ->
  extended_loop fuel disk offset size x p = Some (with_entries p l).
Proof.
  induction 1 as [x E|x embr E El|x y l El Hc IH]; intros Hx [|fuel] p Hf; try (simpl in Hf; lia);
    rewrite loop_step by lia.
  - by rewrite E.
  - rewrite E, (embr_next_link x embr), El by (done || lia). simpl. unfold with_entries, collected. simpl. rewrite E, app_nil_r. by destruct fuel.
  - apply link_Some in El as (Hy & embr & E & <-); [|lia]. rewrite E.
    rewrite IH by (simpl in Hf; lia). f_equal.
    unfold with_entries. destruct l as [|y l].
    + unfold collected. cbn [flat_map]. by rewrite E, app_nil_r.
    + rewrite add_entries_app. unfold collected. cbn [flat_map]. by rewrite E.
Qed.
End Chain.

(** Start and size of a logical partition, as the table reports them. *)
Definition place (pe : PartitionEntry) : Z * Z :=
  (entry_offset PART_TYPE_MSDOS_EXTENDED pe, entry_size PART_TYPE_MSDOS_EXTENDED pe).

Lemma get_le32_take i l : (i <= 12)%nat -> get_le32 (drop i (take 16 l)) = get_le32 (drop i l).
Proof.
  intros Hi. unfold get_le32. replace 16%nat with (i + (16 - i))%nat by lia.
  rewrite <- take_drop_commute, take_take. f_equal. f_equal. lia.
Qed.

Lemma logical_place disk x embr :
  Forall byte disk -> Z.of_nat (length disk) < 2 ^ 62 -> 0 <= x -> embr_at disk x = Some embr ->
  place <$> embr_entry embr x = option_list (logical disk x).
Proof.
  intros Hb Hl Hx E. destruct (embr_at_sector disk Hb x embr Hx E) as [He Hlen].
  assert (x + 512 <= Z.of_nat (length disk)).
  { unfold embr_at in E. destruct (read_at disk x 512) eqn:Er; [|done]. by apply (read_at_range _ _ 512) in Er. }
  assert (forall i, (i + 4 <= 512)%nat -> 0 <= dword embr i < 2 ^ 32) as Hr.
  { intros i Hi. rewrite <- get_le32_dword by lia. by apply get_le32_range, Forall_drop. }
  pose proof (Hr 454%nat ltac:(lia)). pose proof (Hr 458%nat ltac:(lia)).
  unfold logical, embr_entry, psize. rewrite E, get_le32_entry by (done || lia). simpl (446 + _ + _)%nat.
  cbn [mbind option_bind].
  destruct (Z.eqb_spec (512 * dword embr 458) 0), (Z.eqb_spec (dword embr 458) 0); try lia; [done|].
  unfold place, part_entry_new, entry_offset, entry_size, pe_data, pe_offset.
  cbn [fmap list_fmap option_list].
  rewrite !get_le32_take, !get_le32_entry by (done || lia). simpl (446 + _ + _)%nat.
  unfold MSDOS_PARTTABLE_OFFSET.
  rewrite (wrap_u_id 64 (x + _)), !wrap_u_id by (unfold in_u; lia).
  simpl. do 2 f_equal. lia.
Qed.

Lemma collected_places disk offset x l :
  Forall byte disk -> Z.of_nat (length disk) < 2 ^ 62 -> 0 < offset < 2 ^ 41 -> 0 <= x ->
  chain disk offset x l -> place <$> collected disk l = omap (logical disk) l.
Proof.
  intros Hb Hl Ho Hx Hc. induction Hc as [x E|x embr E El|x y l El Hc IH]; [done|..];
    unfold collected; cbn [flat_map]; rewrite fmap_app.
  - rewrite E, (logical_place disk x embr) by done. simpl. by destruct (logical disk x).
  - apply link_Some in El as (Hy & embr & E & _); [|done..].
    rewrite E, (logical_place disk x embr) by done. fold (collected disk l). rewrite IH by lia. simpl.
    by destruct (logical disk x).
Qed.

(** ** Entries of the master boot record *)

(** An extended partition without a table where it starts. *)
Definition lost (disk mbr : list Z) (n : nat) : bool :=
  is_extended_type (ptype mbr n) &&
  ((pstart mbr n =? 0) || bool_decide (embr_at disk (pstart mbr n) = None)).

Lemma loop_keeps_table fuel disk offset size x t p :
  extended_loop fuel disk offset size x (Some t) = Some p -> is_Some p.
Proof.
  revert x t. induction fuel as [|fuel IH]; intros x t H; destruct (Z.eq_dec x 0) as [->|Hx].
  - simpl in H. injection H as <-. eauto.
  - cbn [extended_loop] in H. by rewrite (proj2 (Z.eqb_neq _ _) Hx) in H.
  - simpl in H. injection H as <-. eauto.
  - rewrite loop_step in H by done. destruct (embr_at disk x); [by eapply IH|]. injection H as <-. eauto.
Qed.

Lemma msdos_part_length fuel disk mbr offset n l :
  msdos_part fuel disk mbr offset n = Some l -> length l = (if lost disk mbr n then 0 else 1)%nat.
Proof.
  unfold msdos_part, lost. destruct (is_extended_type (ptype mbr n)); simpl; [|by intros [= <-]].
  unfold part_table_parse_msdos_extended.
  destruct (extended_loop fuel disk _ _ (pstart mbr n) None) as [e|] eqn:E; [|done]. simpl. intros [= <-].
  destruct (Z.eqb_spec (pstart mbr n) 0) as [E0|E0].
  - rewrite E0 in E. destruct fuel; simpl in E; injection E as <-; done.
  - simpl. destruct fuel as [|fuel].
    { cbn [extended_loop] in E. by rewrite (proj2 (Z.eqb_neq _ _) E0) in E. }
    rewrite loop_step in E by done. destruct (embr_at disk (pstart mbr n)).
    + apply loop_keeps_table in E as [t ->]. done.
    + injection E as <-. done.
Qed.

Lemma msdos_parts_length fuel disk mbr offset ns l :
  msdos_parts fuel disk mbr offset ns = Some l ->
  (length l + length (filter (fun n => lost disk mbr n = true) ns) = length ns)%nat.
Proof.
  revert l. induction ns as [|n ns IH]; intros l H; simpl in H; [by injection H as <-|].
  destruct (msdos_part fuel disk mbr offset n) as [l1|] eqn:E1; [|done]. simpl in H.
  destruct (msdos_parts fuel disk mbr offset ns) as [l2|] eqn:E2; [|done]. simpl in H. injection H as <-.
  apply msdos_part_length in E1. specialize (IH l2 eq_refl). rewrite length_app, E1, filter_cons.
  destruct (lost disk mbr n); case_decide; try done; simpl; lia.
Qed.

(** ** Writing a master boot record *)
Record primary := mk_primary {
  pr_boot : bool; pr_chs1 : Z * Z * Z; pr_type : Z; pr_chs2 : Z * Z * Z; pr_start : Z; pr_size : Z;
}.

Definition enc32 (z : Z) : list Z := [z mod 256; (z / 2 ^ 8) mod 256; (z / 2 ^ 16) mod 256; (z / 2 ^ 24) mod 256].
Definition enc_primary (e : primary) : list Z :=
  [if pr_boot e then 128 else 0; (pr_chs1 e).1.1; (pr_chs1 e).1.2; (pr_chs1 e).2; pr_type e;
   (pr_chs2 e).1.1; (pr_chs2 e).1.2; (pr_chs2 e).2] ++ enc32 (pr_start e) ++ enc32 (pr_size e).
Definition enc_mbr (boot_code : list Z) (e0 e1 e2 e3 : primary) : list Z :=
  boot_code ++ enc_primary e0 ++ enc_primary e1 ++ enc_primary e2 ++ enc_primary e3 ++ [85; 170].

(** A plain primary partition. *)
Definition plain (e : primary) : Prop :=
  is_extended_type (pr_type e) = false /\ pr_type e <> 238 /\ in_u 32 (pr_start e) /\ in_u 32 (pr_size e).

Lemma le_enc32 z : in_u 32 z -> le (enc32 z) = z.
Proof.
  unfold in_u, enc32. intros H. cbn [le].
  pose proof (Z.div_mod z 256 ltac:(lia)). pose proof (Z.div_mod (z / 2 ^ 8) 256 ltac:(lia)).
  pose proof (Z.div_mod (z / 2 ^ 16) 256 ltac:(lia)).
  assert (z / 2 ^ 16 = z / 2 ^ 8 / 256) as E1 by (rewrite Z.div_div by lia; done).
  assert (z / 2 ^ 24 = z / 2 ^ 16 / 256) as E2 by (rewrite Z.div_div by lia; done).
  assert (0 <= z / 2 ^ 24 < 256) by (split; [apply Z.div_pos; lia | apply Z.div_lt_upper_bound; lia]).
  rewrite (Z.mod_small (z / 2 ^ 24) 256) by lia. change (2 ^ 8) with 256 in *. lia.
Qed.

Section Mbr.
Context (boot_code : list Z) (e0 e1 e2 e3 : primary) (Hboot : length boot_code = MSDOS_PARTTABLE_OFFSET).
Let mbr := enc_mbr boot_code e0 e1 e2 e3.

Lemma mbr_length : length mbr = 512%nat.
Proof. unfold mbr, enc_mbr. rewrite !length_app, Hboot. done. Qed.

Lemma mbr_entry n e : [e0; e1; e2; e3] !! n = Some e -> exists rest, msdos_entry mbr n = enc_primary e ++ rest.
Proof.
  intros He. unfold msdos_entry, mbr, enc_mbr. rewrite <- Hboot, <- drop_drop, drop_app_length.
  destruct n as [|[|[|[|n]]]]; simpl in He; simplify_eq; eexists; reflexivity.
Qed.

Lemma mbr_magic : has_msdos_magic mbr = true.
Proof.
  unfold has_msdos_magic, byte_at, mbr, enc_mbr, MSDOS_SIG_OFF.
  rewrite (lookup_app_r boot_code _ 510), (lookup_app_r boot_code _ (510 + 1))
    by (rewrite Hboot; unfold MSDOS_PARTTABLE_OFFSET; lia).
  by rewrite Hboot.
Qed.

Lemma mbr_part fuel disk offset n e :
  [e0; e1; e2; e3] !! n = Some e -> plain e ->
  msdos_part fuel disk mbr offset n
  = Some [mk_part_entry None (enc_primary e) (u64 (offset + Z.of_nat (MSDOS_PARTTABLE_OFFSET + n * 16)))].
Proof.
  intros He (Ht & _). destruct (mbr_entry n e He) as [rest E]. unfold msdos_part, ptype. rewrite E.
  change (byte_at 4 (enc_primary e ++ rest)) with (pr_type e). rewrite Ht.
  unfold part_entry_new. by rewrite (take_app_length' (enc_primary e)).
Qed.

Lemma mbr_checks n e :
  [e0; e1; e2; e3] !! n = Some e -> plain e ->
  (negb (pflag mbr n =? 0) && negb (pflag mbr n =? 128)) = false /\ (ptype mbr n =? 238) = false.
Proof.
  intros He (_ & Ht & _). destruct (mbr_entry n e He) as [rest E]. unfold pflag, ptype. rewrite E.
  change (byte_at 0 (enc_primary e ++ rest)) with (if pr_boot e then 128 else 0).
  change (byte_at 4 (enc_primary e ++ rest)) with (pr_type e).
  split; [by destruct (pr_boot e) | by apply Z.eqb_neq].
Qed.

Lemma mbr_parsed fuel rest size :
  plain e0 -> plain e1 -> plain e2 -> plain e3 ->
  part_table_parse_msdos fuel (mbr ++ rest) 0 size
  = Some (Some (mk_table PART_TYPE_MSDOS 0 size
      ((fun '(n, e) => mk_part_entry None (enc_primary e) (u64 (0 + Z.of_nat (MSDOS_PARTTABLE_OFFSET + n * 16))))
         <$> [(0, e0); (1, e1); (2, e2); (3, e3)]%nat)), false).
Proof.
  intros H0 H1 H2 H3. unfold part_table_parse_msdos.
  assert (read_at (mbr ++ rest) 0 512 = Some mbr) as ->.
  { unfold read_at. rewrite length_app, mbr_length. destruct (Z.ltb_spec (Z.of_nat (512 + length rest)) (0 + Z.of_nat 512)); [lia|].
    simpl. rewrite drop_0, take_app_length' by (by rewrite mbr_length). done. }
  rewrite mbr_magic. cbn [negb msdos_checks].
  destruct (mbr_checks 0 e0 eq_refl H0) as [-> ->], (mbr_checks 1 e1 eq_refl H1) as [-> ->],
    (mbr_checks 2 e2 eq_refl H2) as [-> ->], (mbr_checks 3 e3 eq_refl H3) as [-> ->].
  cbn [msdos_parts].
  rewrite (mbr_part fuel _ 0 0 e0), (mbr_part fuel _ 0 1 e1), (mbr_part fuel _ 0 2 e2), (mbr_part fuel _ 0 3 e3) by done.
  done.
Qed.
End Mbr.

Lemma plain_entry e o :
  plain e ->
  entry_offset PART_TYPE_MSDOS (mk_part_entry None (enc_primary e) o) = 512 * pr_start e /\
  entry_size PART_TYPE_MSDOS (mk_part_entry None (enc_primary e) o) = 512 * pr_size e.
Proof.
  intros (_ & _ & Hs & Hz). unfold entry_offset, entry_size, pe_data, get_le32.
  change (take 4 (drop 8 (enc_primary e))) with (enc32 (pr_start e)).
  change (take 4 (drop 12 (enc_primary e))) with (enc32 (pr_size e)).
  rewrite !le_enc32 by done. unfold in_u in *. rewrite !wrap_u_id by (unfold in_u; lia). done.
Qed.

(** ** Finding an entry *)
Definition contains_offset (s : PartitionScheme) (offset : Z) (pe : PartitionEntry) : bool :=
  (entry_offset s pe <=? offset) && (offset <? u64 (entry_offset s pe + entry_size s pe)).

Definition found (offset : Z) (r : PartitionTable * Z) : Prop :=
  let '(t, n) := r in
  (n = -1 /\ Forall (fun pe => contains_offset (scheme t) offset pe = false) (entries t)) \/
  exists i pe, n = Z.of_nat i /\ entries t !! i = Some pe /\ contains_offset (scheme t) offset pe = true /\
    (pe_table pe = None \/ entry_offset (scheme t) pe = offset) /\
    Forall (fun pe' => contains_offset (scheme t) offset pe' = false) (take i (entries t)).

(** The tables reached from one by descending into extended partitions that
    reach over the offset. *)
Inductive inside (offset : Z) : PartitionTable -> PartitionTable -> Prop :=
  | inside_refl t : inside offset t t
  | inside_nested t pe t' t'' :
      pe ∈ entries t -> contains_offset (scheme t) offset pe = true -> entry_offset (scheme t) pe < offset ->
      pe_table pe = Some t' -> inside offset t' t'' -> inside offset t t''.

(** The loop over the entries. *)
Section Loop.
Context (p : PartitionTable) (offset : Z).

Fixpoint find_loop (es : list PartitionEntry) (n : Z) : PartitionTable * Z :=
  match es with
  | [] => (p, -1)
  | pe :: rest =>
      if contains_offset (scheme p) offset pe then
        match pe with
        | mk_part_entry (Some nested) _ _ =>
            if entry_offset (scheme p) pe <? offset then part_table_find nested offset else (p, n)
        | _ => (p, n)
        end
      else find_loop rest (n + 1)
  end.

Lemma find_loop_found seen rest :
  entries p = seen ++ rest -> Forall (fun pe => contains_offset (scheme p) offset pe = false) seen ->
  (forall pe t, pe ∈ rest -> pe_table pe = Some t ->
     inside offset t (part_table_find t offset).1 /\ found offset (part_table_find t offset)) ->
  inside offset p (find_loop rest (Z.of_nat (length seen))).1 /\
  found offset (find_loop rest (Z.of_nat (length seen))).
Proof.
  revert seen. induction rest as [|pe rest IH]; intros seen He Hs Hn; cbn [find_loop].
  - rewrite app_nil_r in He. split; [constructor|]. left. by rewrite He.
  - destruct (contains_offset (scheme p) offset pe) eqn:Ec.
    + assert (entries p !! length seen = Some pe) as El by (rewrite He; by apply list_lookup_middle).
      assert (take (length seen) (entries p) = seen) as Et by (rewrite He; by rewrite take_app_length).
      assert (pe_table pe = None \/ entry_offset (scheme p) pe = offset ->
              inside offset p p /\ found offset (p, Z.of_nat (length seen))) as Hhere.
      { intros H. split; [constructor|]. right. exists (length seen), pe. rewrite Et. done. }
      pose proof Ec as Ho. apply andb_true_iff in Ho as [Ho _]. apply Z.leb_le in Ho.
      destruct pe as [[t|] d po]; [|apply Hhere; by left].
      destruct (Z.ltb_spec (entry_offset (scheme p) (mk_part_entry (Some t) d po)) offset).
      * destruct (Hn (mk_part_entry (Some t) d po) t) as [Hi Hf]; [set_solver | done |].
        split; [|done]. apply (inside_nested _ p (mk_part_entry (Some t) d po) t); try done.
        by apply (list_elem_of_lookup_2 _ (length seen)).
      * apply Hhere. right. lia.
    + replace (Z.of_nat (length seen) + 1) with (Z.of_nat (length (seen ++ [pe])))
        by (rewrite length_app; simpl; lia).
      apply IH; [by rewrite <- app_assoc | apply Forall_app; by repeat constructor |].
      intros pe' t Hpe'. apply Hn. by right.
Qed.
End Loop.

Lemma find_unfold p offset : part_table_find p offset = find_loop p offset (entries p) 0.
Proof. by destruct p. Qed.

(** Induction on tables, through the tables nested in their entries. *)
Definition nested_all (P : PartitionTable -> Prop) (pe : PartitionEntry) : Prop :=
  match pe with mk_part_entry (Some t) _ _ => P t | mk_part_entry None _ _ => True end.

Section TableInd.
Context (P : PartitionTable -> Prop).
Context (H : forall s o z es, Forall (nested_all P) es -> P (mk_table s o z es)).

Fixpoint table_nested_ind (p : PartitionTable) : P p :=
  match p with
  | mk_table s o z es =>
      H s o z es
        ((fix go (es : list PartitionEntry) : Forall (nested_all P) es :=
            match es with
            | [] => @List.Forall_nil _ _
            | pe :: rest =>
                @List.Forall_cons _ _ pe rest
                  (match pe return nested_all P pe with
                   | mk_part_entry (Some t) _ _ => table_nested_ind t
                   | mk_part_entry None _ _ => I
                   end) (go rest)
            end) es)
  end.
End TableInd.

Lemma find_found p offset :
  inside offset p (part_table_find p offset).1 /\ found offset (part_table_find p offset).
Proof.
  induction p as [s o z es IH] using table_nested_ind. rewrite find_unfold.
  apply (find_loop_found (mk_table s o z es) offset []); [done | constructor |].
  intros pe t Hpe Ht. rewrite Forall_forall in IH. specialize (IH pe Hpe).
  destruct pe as [[t'|] d po]; simpl in *; by simplify_eq.
Qed.

(** ** Claims *)
Definition zero_primary : primary := mk_primary false (0, 0, 0) 0 (0, 0, 0) 0 0.
Definition sample_primary (boot : bool) (type start size : Z) : primary :=
  mk_primary boot (0, 1, 1) type (0, 2, 2) start size.
(** An extended table: its logical partition and the link. *)
Definition sample_embr (start next : Z) : list Z :=
  enc_mbr (repeat 0 446) (sample_primary false 131 start 2) (sample_primary false 5 next (if next =? 0 then 0 else 4))
    zero_primary zero_primary.

(** C39 Logical partitions of an extended partition whose chain of tables ends:
    with fuel for every table of the chain, the parser returns an extended table
    whose entries are the logical partitions along the chain, in its order,
    reported with the sizes and at the places their tables give relative to
    themselves.  Tables
    with an empty first entry contribute none. *)
Theorem logical_partitions_of_a_chain disk offset size l fuel
    (Hbytes : Forall byte disk) (Hlen : Z.of_nat (length disk) < 2 ^ 62) (Hoff : 0 < offset < 2 ^ 41)
    (Hchain : chain disk offset offset l) (Hne : l <> []) (Hfuel : (length l < fuel)%nat) :
  exists t,
    part_table_parse_msdos_extended fuel disk offset size = Some (Some t) /\
    scheme t = PART_TYPE_MSDOS_EXTENDED /\
    (fun pe => (entry_offset (scheme t) pe, entry_size (scheme t) pe)) <$> entries t = omap (logical disk) l.
Proof.
  exists (mk_table PART_TYPE_MSDOS_EXTENDED offset size (collected disk l)). split; [|split; [done|]].
  - unfold part_table_parse_msdos_extended. rewrite (loop_chain disk offset size Hbytes Hoff offset l) by (done || lia).
    by destruct l.
  - apply (collected_places disk offset offset); (done || lia).
Qed.

Definition chained_disk : list Z := repeat 0 512 ++ sample_embr 1 1 ++ sample_embr 3 0.

Lemma chained_disk_chain : chain chained_disk 512 512 [512; 1024].
Proof.
  apply (chain_link _ _ 512 1024); [by vm_compute|]. eapply chain_last; by vm_compute.
Qed.

Lemma logical_partitions_of_a_chain_witness :
  omap (logical chained_disk) [512; 1024] = [(1024, 1024); (2560, 1024)] /\
  exists t,
    part_table_parse_msdos_extended 3 chained_disk 512 4096 = Some (Some t) /\
    scheme t = PART_TYPE_MSDOS_EXTENDED /\
    (fun pe => (entry_offset (scheme t) pe, entry_size (scheme t) pe)) <$> entries t
      = omap (logical chained_disk) [512; 1024].
Proof.
  split; [by vm_compute|]. apply logical_partitions_of_a_chain.
  - apply (bool_decide_unpack _). by vm_compute.
  - by vm_compute.
  - lia.
  - apply chained_disk_chain.
  - done.
  - simpl. lia.
Defined.

(** A cyclic chain of extended tables: when following the links from the start
    of the extended partition leads to a table that links back to itself, after
    any number of tables, no amount of fuel is enough: the parser loops for ever
    on that disk, collecting the same entries again and again. *)
Lemma cyclic_chain_never_ends disk offset size j k x
    (Hbytes : Forall byte disk) (Hoff : 0 < offset < 2 ^ 41) (Hreach : follow disk offset j offset = Some x)
    (Hcycle : follow disk offset (S k) x = Some x) :
  forall fuel, part_table_parse_msdos_extended fuel disk offset size = None.
Proof.
  intros fuel. apply follow_diverges; [done | done | lia |].
  apply (follow_prefix _ _ fuel (j + fuel * S k)); [lia|].
  rewrite follow_app, Hreach. simpl. exists x. by apply follow_cycle.
Qed.

Definition cyclic_disk : list Z := repeat 0 512 ++ sample_embr 1 1 ++ sample_embr 3 1.

Lemma cyclic_chain_never_ends_witness :
  follow cyclic_disk 512 1 512 = Some 1024 /\
  forall fuel, part_table_parse_msdos_extended fuel cyclic_disk 512 4096 = None.
Proof.
  split; [by vm_compute|].
  apply (cyclic_chain_never_ends cyclic_disk 512 4096 1 0 1024); try by vm_compute.
  apply (bool_decide_unpack _). by vm_compute.
Defined.

(** C38 The master boot record round-trips: four entries of which none is an
    extended or a protective GPT partition, written in the on-disk layout behind
    446 bytes of boot code, are read back as a table of four entries with the same
    starts and sizes (in bytes), types and boot flags, and no nested tables,
    whatever follows on the disk. *)
Theorem mbr_round_trip g_strchomp fuel boot_code e0 e1 e2 e3 rest size
    (Hboot : length boot_code = MSDOS_PARTTABLE_OFFSET) (Hplain : Forall plain [e0; e1; e2; e3]) :
  exists t,
    part_table_parse_msdos fuel (enc_mbr boot_code e0 e1 e2 e3 ++ rest) 0 size = Some (Some t, false) /\
    scheme t = PART_TYPE_MSDOS /\ part_table_get_num_entries t = 4 /\
    forall n e, [e0; e1; e2; e3] !! n = Some e ->
      part_table_entry_get_offset t (Z.of_nat n) = 512 * pr_start e /\
      part_table_entry_get_size t (Z.of_nat n) = 512 * pr_size e /\
      part_table_entry_get_flags t (Z.of_nat n) = Some (if pr_boot e then ["boot"] else []) /\
      part_table_entry_get_type g_strchomp t (Z.of_nat n)
        = Some (Some (g_strchomp ("0x" +:+ lower_hex (hex 2 (pr_type e))))) /\
      part_table_entry_get_nested t (Z.of_nat n) = None.
Proof.
  set (entry n e := mk_part_entry None (enc_primary e) (u64 (0 + Z.of_nat (MSDOS_PARTTABLE_OFFSET + n * 16)))).
  exists (mk_table PART_TYPE_MSDOS 0 size [entry 0%nat e0; entry 1%nat e1; entry 2%nat e2; entry 3%nat e3]).
  rewrite !Forall_cons in Hplain. destruct Hplain as (H0 & H1 & H2 & H3 & _).
  split; [by apply mbr_parsed|]. split; [done|]. split; [done|]. intros n e He.
  assert (plain e /\ exists o, nth_entry (mk_table PART_TYPE_MSDOS 0 size
            [entry 0%nat e0; entry 1%nat e1; entry 2%nat e2; entry 3%nat e3]) (Z.of_nat n)
            = Some (mk_part_entry None (enc_primary e) o)) as (Hp & o & En).
  { destruct n as [|[|[|[|n]]]]; simpl in He; simplify_eq; split; try done; by eexists. }
  unfold part_table_entry_get_offset, part_table_entry_get_size, part_table_entry_get_flags,
    part_table_entry_get_type, part_table_entry_get_nested. rewrite En. cbn [scheme].
  destruct (plain_entry e o Hp) as [-> ->]. split; [done|]. split; [done|].
  split; [|done]. cbn. unfold byte_at. cbn. by destruct (pr_boot e).
Qed.

Lemma mbr_round_trip_witness :
  exists t,
    part_table_parse_msdos 0
      (enc_mbr (repeat 0 446) (sample_primary true 131 63 1000) (sample_primary false 130 1063 200)
         zero_primary zero_primary ++ [1; 2; 3]) 0 4096 = Some (Some t, false) /\
    part_table_entry_get_offset t 1 = 544256 /\ part_table_entry_get_size t 1 = 102400 /\
    part_table_entry_get_flags t 0 = Some ["boot"] /\
    part_table_entry_get_type id t 0 = Some (Some "0x83").
Proof.
  destruct (mbr_round_trip id 0 (repeat 0 446) (sample_primary true 131 63 1000)
    (sample_primary false 130 1063 200) zero_primary zero_primary [1; 2; 3] 4096)
    as (t & Ht & _ & _ & H).
  - by vm_compute.
  - repeat constructor; by vm_compute.
  - exists t. split; [exact Ht|].
    destruct (H 1%nat _ eq_refl) as (E1 & E2 & _), (H 0%nat _ eq_refl) as (_ & _ & E3 & E4 & _).
    split; [exact E1|]. split; [exact E2|]. split; [exact E3|]. etransitivity; [exact E4 | by vm_compute].
Defined.

(** The number of entries of a master boot record: the comment promises four,
    always; the table has four less one for each extended partition that is lost,
    because it starts at 0 or no extended table can be read where it starts. *)
Lemma number_of_msdos_entries fuel disk mbr offset size t found_gpt
    (Hread : read_at disk offset 512 = Some mbr)
    (Hparse : part_table_parse_msdos fuel disk offset size = Some (Some t, found_gpt)) :
  part_table_get_num_entries t
  = 4 - Z.of_nat (length (filter (fun n => lost disk mbr n = true) [0; 1; 2; 3]%nat)).
Proof.
  unfold part_table_parse_msdos in Hparse. rewrite Hread in Hparse.
  destruct (negb _); [done|]. destruct (msdos_checks _ _); [done|].
  destruct (msdos_parts fuel disk mbr offset [0; 1; 2; 3]%nat) as [l|] eqn:E; [|done].
  simpl in Hparse. injection Hparse as <- <-. apply msdos_parts_length in E.
  unfold part_table_get_num_entries. simpl entries. change (length [0; 1; 2; 3]%nat) with 4%nat in E. lia.
Qed.

(** A disk with an extended partition behind its end. *)
Definition lossy_mbr : list Z :=
  enc_mbr (repeat 0 446) (sample_primary true 131 63 1000) (sample_primary false 5 1063 200) zero_primary zero_primary.

Lemma number_of_msdos_entries_witness :
  exists t, part_table_parse_msdos 1 lossy_mbr 0 4096 = Some (Some t, false) /\ part_table_get_num_entries t = 3.
Proof.
  destruct (part_table_parse_msdos 1 lossy_mbr 0 4096) as [[[t|] [|]]|] eqn:E;
    try (exfalso; vm_compute in E; discriminate E).
  exists t. split; [done|].
  rewrite (number_of_msdos_entries 1 lossy_mbr lossy_mbr 0 4096 t false); [by vm_compute | by vm_compute | exact E].
Defined.

(** Finding the entry at an offset: the table returned is reached from the given
    one by descending into extended partitions that start before the offset and
    reach over it, and the number returned is that of its first entry that holds
    the offset - one without a nested table, or an extended partition that starts
    there - or -1 when no entry of it does. *)
Lemma find_returns_the_entry_at_the_offset p offset :
  inside offset p (part_table_find p offset).1 /\ found offset (part_table_find p offset).
Proof. apply find_found. Qed.

(** Offset 2560 of a disk with an extended partition at 512: the second logical
    partition. *)
Example find_logical :
  match part_table_parse_msdos_extended 3 chained_disk 512 4096 with
  | Some (Some t) =>
      snd (part_table_find (mk_table PART_TYPE_MSDOS 0 8192
        [mk_part_entry (Some t) (enc_primary (sample_primary false 5 1 16)) 446]) 2560)
  | _ => -1
  end = 1.
Proof. by vm_compute. Qed.
