(* ===== verification/Util.v ===== *)
(** * Utilities ([hald/util.c], [hald_compute_udi] of [hald/hald.c])

    Paths, unique device identifiers, values read from files, and callouts.

    A file is the string of its bytes, given by [fopen] (which is [None] when
    the file cannot be opened).  GLib's text functions are the fields of
    [GText], with the behaviour GLib documents as its laws.  [None] stands for
    an access outside a buffer, unless it is said to be NULL. *)

From Stdlib Require Import ZArith Lia Ascii SpecFloat.
From stdpp Require Import base list gmap strings option pretty.
From S2P Require Import Prelude CStd Property Device FdiRules.

(** ** Characters and strings *)
Definition in_range (c : ascii) (lo hi : Z) : bool := (lo <=? char_code c) && (char_code c <=? hi).

Definition VALID_INITIAL_NAME_CHARACTER (c : ascii) : bool :=
  in_range c 65 90 || in_range c 97 122 || bool_decide (c = "_"%char).
Definition VALID_NAME_CHARACTER (c : ascii) : bool :=
  in_range c 48 57 || in_range c 65 90 || in_range c 97 122 || bool_decide (c = "_"%char).

Definition slash : ascii := "/".

(** [strrchr]: the index of the last occurrence. *)
Fixpoint strrchr (s : string) (c : ascii) : option nat :=
  match s with
  | EmptyString => None
  | String x s' => match strrchr s' c with
                   | Some i => Some (S i)
                   | None => if decide (x = c) then Some O else None
                   end
  end.

(** Up to the first zero byte. *)
Fixpoint cut_nul (s : string) : string :=
  match s with
  | EmptyString => ""
  | String c s' => if decide (c = "000"%char) then "" else String c (cut_nul s')
  end.

(** The characters of [s] up to the first that satisfies [stop], and the rest. *)
Fixpoint span (stop : ascii -> bool) (s : string) : string * string :=
  match s with
  | EmptyString => ("", "")
  | String c s' => if stop c then ("", s) else let '(a, b) := span stop s' in (String c a, b)
  end.

Class GText := {
  g_strcanon : string -> string -> ascii -> string;
  g_strsplit_set : string -> string -> list string;
  g_strchug : string -> string;
}.

(** "For each character in string, if the character is not in valid_chars,
    replaces the character with substitutor." *)
Class GTextLaws (G : GText) : Prop := {
  g_strcanon_spec s valid sub :
    g_strcanon s valid sub = string_map (fun c => if strchr valid c then c else sub) s;
}.

(** [strtol (s, &end, base)] for the bases 0, 10 and 16: the value before it is
    cut to the range of [long], and whether any digit was read. *)
Definition base_magnitude (base : Z) (s : string) : Z :=
  if base =? 0 then magnitude s
  else if base =? 16 then
    match s with
    | String "0" (String x (String h _ as r)) =>
        if (bool_decide (x = "x"%char) || bool_decide (x = "X"%char)) && is_hex h
        then digits 16 0 r else digits 16 0 s
    | _ => digits 16 0 s
    end
  else digits base 0 s.
Definition long_value (base : Z) (s : string) : Z :=
  let '(neg, r) := sign_split (skip_space s) in
  let m := base_magnitude base r in if neg then - m else m.
Definition long_digits (base : Z) (s : string) : bool :=
  match (sign_split (skip_space s)).2 with
  | String c _ => match digit_val c with
                  | Some d => d <? (if base =? 0 then 10 else base)
                  | None => false
                  end
  | EmptyString => false
  end.
(** [errno == ERANGE] *)
Definition long_overflows (base : Z) (s : string) : bool :=
  negb ((- 2 ^ 63 <=? long_value base s) && (long_value base s <? 2 ^ 63)).
Definition strtol (base : Z) (s : string) : Z :=
  Z.max (- 2 ^ 63) (Z.min (2 ^ 63 - 1) (long_value base s)).

(** [fgets (buf, n, f)] at the start of a file: [None] at its end. *)
Definition fgets (n : nat) (content : string) : option string :=
  match content with
  | EmptyString => None
  | _ =>
      let s := str_take (n - 1) content in
      let '(line, rest) := span (fun c => bool_decide (c = "010"%char)) s in
      Some (cut_nul (line +:+ str_take 1 rest))
  end.

(** ** Paths *)

(** The result, and the path afterwards; [path == NULL] is not modelled. *)
Definition hal_util_remove_trailing_slash (path : string) : bool * string :=
  match strrchr path slash with
  | None => (true, path)
  | Some i => (true, if decide (S i = String.length path) then str_take i path else path)
  end.

Definition hal_util_get_last_element (s : string) : string :=
  match strrchr s slash with
  | Some (S i) => str_drop (S (S i)) s
  | _ => s
  end.

(** [None] when there is no slash among the first [HAL_PATH_MAX] bytes: the
    index runs below the start of the copy. *)
Definition hal_util_get_parent_path (path : string) : option string :=
  let parent_path := str_take HAL_PATH_MAX path in
  i ← strrchr parent_path slash; Some (str_take i parent_path).

(** One round of the inner loop: from [p1] back to the slash before it, -1 when
    there is none. *)
Definition back_to_slash (path1 : string) (p1 : Z) : Z :=
  if p1 <? 0 then p1
  else match strrchr (str_take (Z.to_nat p1) path1) slash with
       | Some i => Z.of_nat i
       | None => -1
       end.

Fixpoint skip_parents (fuel : nat) (path1 p2 : string) (p1 : Z) : Z * string :=
  match fuel with
  | O => (p1, p2)
  | S fuel' =>
      if has_prefix p2 "../" then skip_parents fuel' path1 (str_drop 3 p2) (back_to_slash path1 p1)
      else (p1, p2)
  end.

(** The outer option is an overrun of [buf], the inner one is NULL. *)
Definition hal_util_get_normalized_path (path1 path2 : string) : option (option string) :=
  let '(p1, p2) := skip_parents (String.length path2) path1 path2 (Z.of_nat (String.length path1)) in
  if p1 <? 0 then Some None
  else if Z.of_nat HAL_PATH_MAX <=? p1 then None
  else Some (Some (str_take (Z.to_nat p1) path1 +:+ "/" +:+ p2)).

(** The result, and the path afterwards. *)
Definition hal_util_path_ascend (path : string) : bool * string :=
  match strrchr path slash with
  | None => (false, path)
  | Some i => (true, str_take i path)
  end.

(** ** Names of interfaces *)

(** The loop from behind the first character on; [dot] says whether
    [last_dot] was set. *)
Fixpoint name_loop (s : string) (dot : bool) : bool :=
  match s with
  | EmptyString => dot
  | String c s' =>
      if decide (c = "."%char) then
        match s' with
        | EmptyString => false
        | String x s'' => if negb (VALID_INITIAL_NAME_CHARACTER x) then false else name_loop s'' true
        end
      else if negb (VALID_NAME_CHARACTER c) then false
      else name_loop s' dot
  end.

Definition is_valid_interface_name (name : string) : bool :=
  match name with
  | EmptyString => false
  | String c s =>
      if decide (c = "."%char) then false
      else if negb (VALID_INITIAL_NAME_CHARACTER c) then false
      else name_loop s false
  end.

(** ** Unique device identifiers *)

(** [taken] is [hal_device_store_find (store, udi) != NULL]. *)
Fixpoint unique_loop (fuel : nat) (taken : string -> bool) (size : nat) (u : string) (i : Z)
  : option string :=
  match fuel with
  | O => None
  | S fuel' =>
      let candidate := snprintf size (u +:+ "_" +:+ pretty i) in
      if taken candidate then unique_loop fuel' taken size u (i + 1) else Some candidate
  end.

(** [None]: out of fuel. *)
Definition hal_util_make_udi_unique (fuel : nat) (taken : string -> bool) (udisize : nat) (original_udi : string)
  : option string :=
  if taken original_udi then unique_loop fuel taken udisize original_udi 0
  else Some (snprintf udisize original_udi).

Definition UDI_CHARS : string :=
  "_abcdefghijklmnopqrstuvwxyzABCDEFGHIJKLMNOPQRSTUVWXYZ1234567890".

Section GText.
Context {G : GText}.

(** [text] is the formatted text. *)
Definition hal_util_compute_udi (dstsize : nat) (text : string) : string :=
  g_strcanon (snprintf dstsize text) (String slash UDI_CHARS) "_".

(** [sscanf (udi, ".../%s", end)] reads one word. *)
Definition hal_util_validate_udi (udi : string) (size : nat) : string :=
  if has_prefix udi "/org/freedesktop/Hal/devices/" then
    let '(end_, _) := span isspace (skip_space (str_drop 29 udi)) in
    if strchr end_ slash
    then snprintf size ("/org/freedesktop/Hal/devices/" +:+ g_strcanon end_ UDI_CHARS "_")
    else udi
  else udi.

(** The loop numbers into a buffer of 256 bytes, then copies to [dst]. *)
Fixpoint compute_loop (fuel : nat) (taken : string -> bool) (dstsize : nat) (dst : string) (i : Z)
  : option string :=
  match fuel with
  | O => None
  | S fuel' =>
      let buf := snprintf 256 (dst +:+ "_" +:+ pretty i) in
      if taken buf then compute_loop fuel' taken dstsize dst (i + 1) else Some (snprintf dstsize buf)
  end.

(** [taken]: in the global or in the temporary list. *)
Definition hald_compute_udi (fuel : nat) (taken : string -> bool) (dstsize : nat) (text : string)
  : option string :=
  let dst := hal_util_validate_udi (hal_util_compute_udi dstsize text) dstsize in
  if taken dst then compute_loop fuel taken dstsize dst 0 else Some dst.

(** ** Values from files *)
Context {P : Platform} (fopen : string -> option string) (strtod : string -> double * bool).

Definition file_path (directory file : string) : string := snprintf HAL_PATH_MAX (directory +:+ "/" +:+ file).

(** The [long] is stored in a [gint]. *)
Definition hal_util_get_int_from_file (directory file : string) (base : Z) : option Z :=
  f ← fopen (file_path directory file); buf ← fgets 64 f;
  if long_overflows base buf then None else Some (s32 (strtol base buf)).

Definition hal_util_set_int_from_file (key directory file : string) (base : Z) : dev bool :=
  match hal_util_get_int_from_file directory file base with
  | Some value => hal_device_property_set_int key value
  | None => dret false
  end.

(** Read with [strtoll], then converted to unsigned. *)
Definition hal_util_get_uint64_from_file (directory file : string) (base : Z) : option Z :=
  f ← fopen (file_path directory file); buf ← fgets 64 f;
  if long_overflows base buf then None else Some (u64 (strtol base buf)).

Definition hal_util_set_uint64_from_file (key directory file : string) (base : Z) : dev bool :=
  match hal_util_get_uint64_from_file directory file base with
  | Some value => hal_device_property_set_uint64 key value
  | None => dret false
  end.

(** Trailing white space is cleared from the end; nothing but white space
    leaves the empty string. *)
Fixpoint strip_trailing (s : string) : string :=
  match s with
  | EmptyString => ""
  | String c s' => match strip_trailing s' with
                   | EmptyString => if isspace c then "" else String c ""
                   | t => String c t
                   end
  end.

Definition hal_util_get_string_from_file (directory file : string) : option string :=
  f ← fopen (file_path directory file); buf ← fgets 256 f;
  if decide (buf = "") then None else Some (strip_trailing buf).

Definition hal_util_get_bool_from_file (directory file true_val : string) : option bool :=
  value ← hal_util_get_string_from_file directory file; Some (value =s? true_val).

Definition hal_util_set_string_from_file (key directory file : string) : dev bool :=
  match hal_util_get_string_from_file directory file with
  | Some buf => hal_device_property_set_string key (Some buf)
  | None => dret false
  end.

(** [strtod]: the value, and whether it was out of range. *)
Definition hal_util_set_double_from_file (key directory file : string) : dev bool :=
  match hal_util_get_string_from_file directory file with
  | Some buf => let '(value, erange) := strtod buf in
                if erange then dret false else hal_device_property_set_double key value
  | None => dret false
  end.

(** *** Lines of a file

    The buffers are static: each of the two functions has its own, with the
    name of the file it holds; the flag is shared. *)
Record grep_buffer := mk_grep_buffer { oldfilename : string; gbuf : string }.
Record grep_state := mk_grep { grep_can_reuse : bool; grep_line : grep_buffer; grep_next : grep_buffer }.

Definition hal_util_grep_discard_existing_data (st : grep_state) : grep_state :=
  mk_grep false (grep_line st) (grep_next st).

(** [None]: the directory fills the whole buffer of the file name. *)
Definition grep_filename (directory : string) (file : option string) : option string :=
  match file with
  | Some (String _ _ as f) => Some (file_path directory f)
  | _ => strncpy HAL_PATH_MAX directory
  end.

(** The line at the start of [p], and what is behind its end. *)
Definition line_end (c : ascii) : bool := bool_decide (c = "010"%char) || bool_decide (c = "000"%char).

(** The lines from [p] on: the loop steps over the separator and stops at the
    end of the data. *)
Fixpoint grep_lines (fuel : nat) (p : string) : list string :=
  match fuel with
  | O => []
  | S fuel' =>
      let '(line, rest) := span line_end p in
      line :: match str_drop 1 rest with
              | EmptyString => []
              | p' => grep_lines fuel' p'
              end
  end.
Definition lines_of (buf : string) : list string := grep_lines (S (String.length buf)) buf.

(** The first line shorter than 256 bytes that starts with [linestart], and the
    lines behind it. *)
Fixpoint grep_loop (lines : list string) (linestart : string) : option (string * list string) :=
  match lines with
  | [] => None
  | line :: rest =>
      if decide (String.length line < 256)%nat then
        if has_prefix line linestart then Some (str_drop (String.length linestart) line, rest)
        else grep_loop rest linestart
      else grep_loop rest linestart
  end.

Definition reusable (can_reuse reuse : bool) (b : grep_buffer) (filename : string) : bool :=
  can_reuse && reuse && (oldfilename b =s? filename).

(** The buffer after (re)reading the file: 2047 bytes at most. *)
Definition grep_load (can_reuse reuse : bool) (b : grep_buffer) (filename : string) : option grep_buffer :=
  if reusable can_reuse reuse b filename then Some b
  else content ← fopen filename; Some (mk_grep_buffer filename (str_take 2047 content)).

Definition hal_util_grep_file (directory : string) (file : option string) (linestart : string) (reuse : bool)
    (st : grep_state) : option (option string * grep_state) :=
  filename ← grep_filename directory file;
  match grep_load (grep_can_reuse st) reuse (grep_line st) filename with
  | None => Some (None, st)
  | Some b => Some (fst <$> grep_loop (lines_of (gbuf b)) linestart, mk_grep true b (grep_next st))
  end.

(** [None] when the next line does not fit the buffer of 256 bytes, into which
    it is copied without a check. *)
Definition hal_util_grep_file_next_line (directory : string) (file : option string) (linestart : string)
    (reuse : bool) (st : grep_state) : option (option string * grep_state) :=
  filename ← grep_filename directory file;
  match grep_load (grep_can_reuse st) reuse (grep_next st) filename with
  | None => Some (None, st)
  | Some b =>
      let st' := mk_grep true (grep_line st) b in
      match grep_loop (lines_of (gbuf b)) linestart with
      | Some (_, next :: _) =>
          if decide (String.length next < 256)%nat then Some (Some next, st') else None
      | _ => Some (None, st')
      end
  end.

Definition G_MAXUINT : Z := 2 ^ 32 - 1.
Definition G_MAXINT : Z := 2 ^ 31 - 1.

(** The loop over the tokens. *)
Definition nth_token (tokens : list string) (elem : Z) : option string :=
  filter (fun t => t <> "") tokens !! Z.to_nat elem.

(** A line of the buffer is shorter than the 256 bytes the result is copied
    to. *)
Definition hal_util_grep_string_elem_from_file (directory : string) (file : option string)
    (linestart : string) (elem : Z) (reuse : bool) (st : grep_state) : option (option string * grep_state) :=
  '(line, st') ← hal_util_grep_file directory file linestart reuse st;
  Some (match line with
        | None => None
        | Some line =>
            if decide (line = "") then None
            else if elem =? G_MAXUINT then
              if decide (String.length line < 2)%nat then None else Some (g_strchug (str_drop 1 line))
            else nth_token (g_strsplit_set line (String " " (String "009" ":"))) elem
        end, st').

Definition hal_util_grep_int_elem_from_file (directory : string) (file : option string)
    (linestart : string) (elem base : Z) (reuse : bool) (st : grep_state) : option (Z * grep_state) :=
  '(strvalue, st') ← hal_util_grep_string_elem_from_file directory file linestart elem reuse st;
  Some (match strvalue with
        | Some s => if long_digits base s then s32 (strtol base s) else G_MAXINT
        | None => G_MAXINT
        end, st').

(** Setters: the computation on the device, and the state afterwards. *)
Definition hal_util_set_string_elem_from_file (key directory : string) (file : option string)
    (linestart : string) (elem : Z) (reuse : bool) (st : grep_state) : option (dev bool * grep_state) :=
  '(value, st') ← hal_util_grep_string_elem_from_file directory file linestart elem reuse st;
  Some (match value with
        | Some v => hal_device_property_set_string key (Some v)
        | None => dret false
        end, st').

Definition hal_util_set_int_elem_from_file (key directory : string) (file : option string)
    (linestart : string) (elem base : Z) (reuse : bool) (st : grep_state) : option (dev bool * grep_state) :=
  '(strvalue, st') ← hal_util_grep_string_elem_from_file directory file linestart elem reuse st;
  Some (match strvalue with
        | Some s => if long_digits base s then hal_device_property_set_int key (s32 (strtol base s))
                    else dret false
        | None => dret false
        end, st').

(** TRUE whether or not the property could be set. *)
Definition hal_util_set_bool_elem_from_file (key directory : string) (file : option string)
    (linestart : string) (elem : Z) (expected : string) (reuse : bool) (st : grep_state)
  : option (dev bool * grep_state) :=
  '(line, st') ← hal_util_grep_file directory file linestart reuse st;
  Some (match line with
        | None => dret false
        | Some line =>
            if decide (line = "") then dret false
            else match nth_token (g_strsplit_set line (String " " (String "009" ":"))) elem with
                 | Some t => hal_device_property_set_bool key (t =s? expected) ;;; dret true
                 | None => dret false
                 end
        end, st').

Definition hal_util_dup_strv_from_g_slist (strlist : list string) : list string := strlist.

(** *** The list of what HAL has mounted

    [None] for the file when it cannot be read. *)
Fixpoint mtab_loop (lines : list string) (mount_point : string) : bool :=
  match lines with
  | [] => false
  | line :: rest =>
      if has_prefix line "#" then mtab_loop rest mount_point
      else match g_strsplit line (String "009" "") 6 with
           | [_; _; _; _; _; m] => if m =s? mount_point then true else mtab_loop rest mount_point
           | _ => mtab_loop rest mount_point
           end
  end.

Definition hal_util_is_mounted_by_hald (mount_point : string) : bool :=
  match fopen "/media/.hal-mtab" with
  | None => false
  | Some content => mtab_loop (g_strsplit (cut_nul content) (String "010" "") 0) mount_point
  end.
End GText.

(** ** Callouts

    The programs of a device are run one after the other; when the last one
    has ended the callback is called. *)
Record Callout := mk_callout { co_programs : list string; co_next : nat }.

Inductive callout_event :=
  | RunProgram (program : string)
  | CalloutsDone.

(** What happens, and the callout if it goes on. *)
Definition callout_do_next (c : Callout) : callout_event * option Callout :=
  match co_programs c !! co_next c with
  | None => (CalloutsDone, None)
  | Some p => (RunProgram p, Some (mk_callout (co_programs c) (S (co_next c))))
  end.

Definition callout_terminated (c : Callout) : callout_event * option Callout := callout_do_next c.

Definition hal_callout_device (programs : list string) : callout_event * option Callout :=
  callout_do_next (mk_callout programs 0).

(** The callouts of a device for one occasion. *)
Definition device_callouts (d : HalDevice) (key : string) : callout_event * option Callout :=
  match hal_device_property_dup_strlist_as_strv d key with
  | None => (CalloutsDone, None)
  | Some programs => hal_callout_device programs
  end.

Definition hal_util_callout_device_remove (d : HalDevice) := device_callouts d "info.callouts.remove".
Definition hal_util_callout_device_preprobe (d : HalDevice) := device_callouts d "info.callouts.preprobe".
