(* ===== verification/UtilClaims.v ===== *)
(** * What the utilities guarantee ([hald/util.c])

    Names of interfaces, normalized paths, device identifiers that are valid
    and free, and callouts that run in order. *)

From Stdlib Require Import ZArith Lia Ascii.
From stdpp Require Import base list gmap strings option pretty sets.
From S2P Require Import Prelude CStd Property Device FdiRules Util.

(** ** Strings of characters *)
Fixpoint all_chars (f : ascii -> bool) (s : string) : bool :=
  match s with EmptyString => true | String c s' => f c && all_chars f s' end.

Lemma all_chars_app f a b : all_chars f (a +:+ b) = all_chars f a && all_chars f b.
Proof.
  induction a as [|c a IH]; [done|]. change (String c a +:+ b) with (String c (a +:+ b)).
  simpl. by rewrite IH, andb_assoc.
Qed.

Lemma all_chars_impl (f g : ascii -> bool) s :
  (forall c, f c = true -> g c = true) -> all_chars f s = true -> all_chars g s = true.
Proof.
  intros Hfg. induction s as [|c s IH]; [done|]. simpl. rewrite !andb_true_iff. intros [H1 H2]. auto.
Qed.

(** ** Names of interfaces *)

(** An identifier: a letter or underscore, then letters, digits, underscores. *)
Definition identifier (s : string) : Prop :=
  exists c w, s = String c w /\ VALID_INITIAL_NAME_CHARACTER c = true /\ all_chars VALID_NAME_CHARACTER w = true.

Fixpoint dotted (l : list string) : string :=
  match l with [] => "" | x :: l' => String "." (x +:+ dotted l') end.

(** The two ways a run of name characters and dotted identifiers can start. *)
Lemma dotted_inv x s w l :
  String x s = w +:+ dotted l -> all_chars VALID_NAME_CHARACTER w = true -> Forall identifier l ->
  (exists w', w = String x w' /\ s = w' +:+ dotted l /\ VALID_NAME_CHARACTER x = true /\
     all_chars VALID_NAME_CHARACTER w' = true) \/
  (x = "."%char /\ exists y v l', l = String y v :: l' /\ s = String y (v +:+ dotted l') /\
     VALID_INITIAL_NAME_CHARACTER y = true /\ all_chars VALID_NAME_CHARACTER v = true /\ Forall identifier l').
Proof.
  intros E Hw Hl. destruct w as [|c w].
  - right. destruct l as [|id l]; [discriminate E|]. apply Forall_cons in Hl as [(y & v & -> & Hy & Hv) Hl].
    injection E as -> ->. split; [done|]. exists y, v, l. done.
  - left. injection E as -> ->. simpl in Hw. apply andb_true_iff in Hw as [Hx Hw]. by exists w.
Qed.

Definition name_rest (s : string) (dot : bool) : Prop :=
  exists w l, s = w +:+ dotted l /\ all_chars VALID_NAME_CHARACTER w = true /\ Forall identifier l /\
    (dot = true \/ l <> []).

Lemma name_rest_nil dot : name_rest "" dot <-> dot = true.
Proof.
  split.
  - intros ([|c w] & [|x l] & E & _ & _ & Hd); try discriminate E. by destruct Hd.
  - intros ->. exists "", []. repeat split; auto.
Qed.

Lemma name_rest_dot y s dot :
  name_rest (String "." (String y s)) dot <-> VALID_INITIAL_NAME_CHARACTER y = true /\ name_rest s true.
Proof.
  split.
  - intros (w & l & E & Hw & Hl & _).
    destruct (dotted_inv _ _ _ _ E Hw Hl) as [(w' & _ & _ & Hd & _)|(_ & z & v & l' & -> & [= -> ->] & Hz & Hv & Hl')].
    { discriminate Hd. }
    split; [done|]. exists v, l'. auto.
  - intros [Hy (w & l & -> & Hw & Hl & _)]. exists "", (String y w :: l).
    split; [done|]. split; [done|]. split; [|by right]. constructor; [|done]. by exists y, w.
Qed.

Lemma name_rest_char c s dot :
  c <> "."%char -> name_rest (String c s) dot <-> VALID_NAME_CHARACTER c = true /\ name_rest s dot.
Proof.
  intros Hc. split.
  - intros (w & l & E & Hw & Hl & Hd).
    destruct (dotted_inv _ _ _ _ E Hw Hl) as [(w' & -> & -> & Hx & Hw')|[? _]]; [|done].
    split; [done|]. exists w', l. auto.
  - intros [Hx (w & l & -> & Hw & Hl & Hd)]. exists (String c w), l. simpl. by rewrite Hx.
Qed.

Lemma name_loop_spec n s dot :
  (String.length s <= n)%nat -> name_loop s dot = true <-> name_rest s dot.
Proof.
  revert s dot. induction n as [|n IH]; intros [|c s] dot Hn; simpl in Hn; try lia;
    [symmetry; apply name_rest_nil..|].
  cbn [name_loop]. destruct (decide (c = "."%char)) as [->|Hc].
  - destruct s as [|y s].
    + split; [done|]. intros (w & l & E & Hw & Hl & _).
      destruct (dotted_inv _ _ _ _ E Hw Hl) as [(w' & _ & _ & Hd & _)|(_ & z & v & l' & _ & E' & _)];
        [discriminate Hd | discriminate E'].
    + rewrite name_rest_dot. simpl in Hn. destruct (VALID_INITIAL_NAME_CHARACTER y); simpl; [|naive_solver].
      rewrite (IH s true) by lia. naive_solver.
  - rewrite name_rest_char by done. destruct (VALID_NAME_CHARACTER c); simpl; [|naive_solver].
    rewrite (IH s dot) by lia. naive_solver.
Qed.

(** Which names of interfaces are valid: exactly those made of two or more
    identifiers (a letter or underscore followed by letters, digits and
    underscores) joined by dots.  The scan decides this although it skips two
    characters at every dot. *)
Lemma valid_interface_names name :
  is_valid_interface_name name = true <->
  exists x l, name = x +:+ dotted l /\ Forall identifier (x :: l) /\ l <> [].
Proof.
  destruct name as [|c s].
  { simpl. split; [done|]. intros (x & l & E & Hl & _).
    apply Forall_cons in Hl as [(c & w & -> & _) _]. discriminate E. }
  cbn [is_valid_interface_name]. destruct (decide (c = "."%char)) as [->|Hc].
  - split; [done|]. intros (x & l & E & Hl & _).
    apply Forall_cons in Hl as [(c & w & -> & Hi & _) _]. by injection E as <- _.
  - destruct (VALID_INITIAL_NAME_CHARACTER c) eqn:Ec; simpl.
    + rewrite (name_loop_spec (String.length s)) by done. split.
      * intros (w & l & -> & Hw & Hl & [|Hd]); [done|]. exists (String c w), l.
        split; [done|]. split; [|done]. constructor; [|done]. by exists c, w.
      * intros (x & l & E & Hl & Hd). apply Forall_cons in Hl as [(y & w & -> & _ & Hw) Hl].
        injection E as <- ->. exists w, l. split; [done|]. split; [done|]. split; [done | by right].
    + split; [done|]. intros (x & l & E & Hl & _).
      apply Forall_cons in Hl as [(y & w & -> & Hi & _) _]. injection E as <- _. congruence.
Qed.

(** ** Paths *)

(** An absolute path from its components. *)
Fixpoint path_of (comps : list string) : string :=
  match comps with [] => "" | c :: rest => String slash (c +:+ path_of rest) end.

Fixpoint parents (k : nat) (rest : string) : string :=
  match k with O => rest | S k' => "../" +:+ parents k' rest end.

Definition no_slash (s : string) : Prop := strchr s slash = false.

Lemma path_of_app a b : path_of (a ++ b) = path_of a +:+ path_of b.
Proof.
  induction a as [|c a IH]; [done|]. cbn [path_of app]. rewrite IH, string_app_assoc. done.
Qed.

Lemma strrchr_none s : no_slash s -> strrchr s slash = None.
Proof.
  unfold no_slash. induction s as [|c s IH]; [done|]. cbn [strchr strrchr]. intros [H1 H2]%orb_false_iff.
  rewrite IH by done. apply bool_decide_eq_false in H1. by rewrite decide_False.
Qed.

Lemma strrchr_last a c : no_slash c -> strrchr (a +:+ String slash c) slash = Some (String.length a).
Proof.
  intros Hc. induction a as [|x a IH].
  - change ("" +:+ String slash c) with (String slash c). cbn [strrchr]. rewrite (strrchr_none c Hc).
    by rewrite decide_True.
  - change (String x a +:+ String slash c) with (String x (a +:+ String slash c)). cbn [strrchr].
    by rewrite IH.
Qed.

Lemma back_to_slash_last comps c tail :
  no_slash c ->
  back_to_slash (path_of (comps ++ [c]) +:+ tail) (Z.of_nat (String.length (path_of (comps ++ [c]))))
  = Z.of_nat (String.length (path_of comps)).
Proof.
  intros Hc. unfold back_to_slash. destruct (Z.ltb_spec (Z.of_nat (String.length (path_of (comps ++ [c])))) 0); [lia|].
  rewrite Nat2Z.id, str_take_app, path_of_app. cbn [path_of]. rewrite string_app_nil_r.
  by rewrite strrchr_last.
Qed.

Lemma skip_parents_done k path1 rest fuel :
  has_prefix rest "../" = false -> (k <= fuel)%nat ->
  skip_parents fuel path1 (parents k rest) (-1) = (-1, rest).
Proof.
  intros Hr. revert fuel. induction k as [|k IH]; intros [|fuel] Hf; cbn [skip_parents parents]; try lia;
    [done | by rewrite Hr |].
  assert (has_prefix ("../" +:+ parents k rest) "../" = true) as -> by (apply has_prefix_spec; eauto).
  change 3%nat with (String.length "../") at 1. rewrite str_drop_app. apply IH. lia.
Qed.

Lemma parents_length k rest : (k <= String.length (parents k rest))%nat.
Proof. induction k as [|k IH]; cbn [parents]; [lia|]. rewrite string_length_app. simpl (String.length "../"). lia. Qed.

(** The path up to a component is a prefix of the whole. *)
Lemma skip_parents_spec k comps tail rest fuel :
  Forall no_slash comps -> has_prefix rest "../" = false -> (k <= fuel)%nat ->
  skip_parents fuel (path_of comps +:+ tail) (parents k rest) (Z.of_nat (String.length (path_of comps)))
  = ((if decide (k <= length comps)%nat
      then Z.of_nat (String.length (path_of (take (length comps - k) comps))) else -1), rest).
Proof.
  intros Hc Hr. revert comps tail fuel Hc. induction k as [|k IH]; intros comps tail fuel Hc Hf.
  - rewrite decide_True by lia. rewrite Nat.sub_0_r, firstn_all. cbn [parents].
    destruct fuel; cbn [skip_parents]; [done | by rewrite Hr].
  - destruct fuel as [|fuel]; [lia|]. cbn [skip_parents parents].
    assert (has_prefix ("../" +:+ parents k rest) "../" = true) as -> by (apply has_prefix_spec; eauto).
    change 3%nat with (String.length "../") at 1. rewrite str_drop_app.
    destruct comps as [|c comps' _] using rev_ind.
    + rewrite decide_False by (simpl; lia). cbn [path_of String.length].
      assert (back_to_slash ("" +:+ tail) (Z.of_nat 0) = -1) as -> by (by destruct tail).
      apply skip_parents_done; [done | lia].
    + apply Forall_app in Hc as [Hc' Hc]. apply Forall_cons in Hc as [Hc _].
      rewrite back_to_slash_last by done. rewrite path_of_app, <- string_app_assoc.
      rewrite IH by (done || lia). rewrite length_app. simpl. f_equal.
      destruct (decide (k <= length comps')%nat); [rewrite decide_True by lia | by rewrite decide_False by lia].
      do 3 f_equal. rewrite take_app_le by lia. f_equal. lia.
Qed.

(** Normalizing a path: [path1] of components [comps] and a relative [path2] that
    starts with [k] times "../" give the path of the first [length comps - k]
    components followed by the rest of [path2]; NULL when [path2] climbs above
    the root. *)
Lemma normalized_path_climbs comps k rest
    (Hcomps : Forall no_slash comps) (Hrest : has_prefix rest "../" = false)
    (Hlen : (String.length (path_of comps) < HAL_PATH_MAX)%nat) :
  hal_util_get_normalized_path (path_of comps) (parents k rest) =
  Some (if decide (k <= length comps)%nat
        then Some (path_of (take (length comps - k) comps) +:+ "/" +:+ rest) else None).
Proof.
  unfold hal_util_get_normalized_path.
  pose proof (skip_parents_spec k comps "" rest (String.length (parents k rest)) Hcomps Hrest) as H.
  rewrite string_app_nil_r in H. rewrite H by apply parents_length. clear H.
  destruct (decide (k <= length comps)%nat) as [Hk|]; [|done].
  pose proof (take_drop (length comps - k) comps) as Hd. apply (f_equal path_of) in Hd. rewrite path_of_app in Hd.
  set (p := path_of (take (length comps - k) comps)) in *.
  assert (String.length p <= String.length (path_of comps))%nat as Hp.
  { rewrite <- Hd, string_length_app. lia. }
  destruct (Z.ltb_spec (Z.of_nat (String.length p)) 0); [lia|].
  destruct (Z.leb_spec (Z.of_nat HAL_PATH_MAX) (Z.of_nat (String.length p))); [lia|].
  rewrite Nat2Z.id, <- Hd, str_take_app. done.
Qed.

Lemma normalized_path_climbs_witness :
  hal_util_get_normalized_path (path_of ["sys"; "class"; "net"]) (parents 2 "devices/eth0")
  = Some (Some "/sys/devices/eth0") /\
  hal_util_get_normalized_path (path_of ["sys"]) (parents 2 "x") = Some None.
Proof.
  split.
  - rewrite normalized_path_climbs; [done | repeat constructor; done | done | vm_compute; lia].
  - rewrite normalized_path_climbs; [done | repeat constructor; done | done | vm_compute; lia].
Defined.

(** ** Callouts *)

(** Everything that happens until the callback, each program ending in turn. *)
Fixpoint run_callouts (fuel : nat) (s : callout_event * option Callout) : list callout_event :=
  s.1 :: match fuel, s.2 with
         | S fuel', Some c => run_callouts fuel' (callout_terminated c)
         | _, _ => []
         end.

Lemma run_callouts_from done_ todo :
  run_callouts (length todo) (callout_do_next (mk_callout (done_ ++ todo) (length done_)))
  = (RunProgram <$> todo) ++ [CalloutsDone].
Proof.
  revert done_. induction todo as [|p todo IH]; intros done_.
  - unfold callout_do_next. simpl. by rewrite app_nil_r, lookup_ge_None_2 by lia.
  - unfold callout_do_next. simpl. rewrite list_lookup_middle by done. simpl. f_equal.
    unfold callout_terminated. specialize (IH (done_ ++ [p])).
    rewrite <- app_assoc, length_app, Nat.add_comm in IH. exact IH.
Qed.

(** Callouts: the programs of a device run one at a time, in the order of the
    list, and the callback is called once, after the last has ended (at once
    when there are none). *)
Lemma callouts_run_in_order d key :
  run_callouts (length (hal_device_property_get_strlist d key)) (device_callouts d key)
  = (RunProgram <$> hal_device_property_get_strlist d key) ++ [CalloutsDone].
Proof.
  unfold device_callouts, hal_device_property_dup_strlist_as_strv, hal_callout_device.
  destruct (hal_device_property_get_strlist d key) as [|p l] eqn:E; [done|].
  apply (run_callouts_from []).
Qed.

(** ** Device identifiers *)
Definition udi_char (c : ascii) : bool := strchr UDI_CHARS c.

(** The digits of a number. *)
Lemma pretty_chars (f : ascii -> bool) (i : Z) : (forall d, f (pretty_N_char d) = true) -> 0 <= i -> all_chars f (pretty i) = true.
Proof.
  intros Hf Hi. assert (forall x s, all_chars f s = true -> all_chars f (pretty_N_go x s) = true) as Hgo.
  { intros x. induction (N.lt_wf_0 x) as [x _ IH]. intros s Hs.
    destruct (decide (x = 0)%N) as [->|Hx]; [by rewrite pretty_N_go_0|].
    rewrite pretty_N_go_step by lia. apply IH; [apply N.div_lt; lia|]. cbn [all_chars]. by rewrite Hs, Hf. }
  assert (forall n : N, all_chars f (pretty n) = true) as HN.
  { intros n. unfold pretty, pretty_N. case_decide; [cbn; pose proof (Hf 0%N) as H0; cbn in H0; by rewrite H0 | by apply Hgo]. }
  destruct i as [|p|p]; [exact (HN 0%N) | apply HN | lia].
Qed.
Lemma pretty_digits (i : Z) : 0 <= i -> all_chars udi_char (pretty i) = true.
Proof. apply pretty_chars. intros d. unfold pretty_N_char. by repeat case_match. Qed.

Lemma search_fails (f : Z -> string) (L : list string) n :
  (forall a b, f a = f b -> a = b) -> (forall k, 0 <= k < Z.of_nat n -> f k ∈ L) -> (n <= length L)%nat.
Proof.
  intros Hinj Hin. assert (f <$> seqZ 0 (Z.of_nat n) ⊆+ L) as Hs.
  { apply NoDup_submseteq.
    - apply NoDup_fmap_2_strong; [auto | apply NoDup_seqZ].
    - intros x (k & -> & Hk)%list_elem_of_fmap. apply Hin. by apply elem_of_seqZ in Hk. }
  apply submseteq_length in Hs. rewrite length_fmap, length_seqZ in Hs. lia.
Qed.

Definition numbered (u : string) (i : Z) : string := u +:+ "_" +:+ pretty i.

Lemma numbered_inj u a b : numbered u a = numbered u b -> a = b.
Proof. unfold numbered. intros H%string_app_inj_l. injection H. apply pretty_Z_inj. Qed.

Lemma compute_loop_cases fuel taken dstsize dst i :
  match compute_loop fuel taken dstsize dst i with
  | Some u => exists k, i <= k < i + Z.of_nat fuel /\ u = snprintf dstsize (snprintf 256 (numbered dst k)) /\
                        taken (snprintf 256 (numbered dst k)) = false
  | None => forall k, i <= k < i + Z.of_nat fuel -> taken (snprintf 256 (numbered dst k)) = true
  end.
Proof.
  revert i. induction fuel as [|fuel IH]; intros i; cbn [compute_loop]; [intros; lia|].
  fold (numbered dst i). destruct (taken (snprintf 256 (numbered dst i))) eqn:E.
  - specialize (IH (i + 1)). destruct (compute_loop _ _ _ _ _).
    + destruct IH as (k & Hk & H). exists k. split; [lia | done].
    + intros k Hk. destruct (decide (k = i)) as [->|]; [done|]. apply IH. lia.
  - exists i. split; [lia | done].
Qed.

Definition listed (L : list string) (u : string) : bool := bool_decide (u ∈ L).

(** What the loop returns when its candidates fit the buffers. *)
Lemma compute_loop_finds L dstsize dst fuel :
  (length L < fuel)%nat ->
  (forall i, 0 <= i < Z.of_nat fuel -> (String.length (numbered dst i) < Nat.min 256 dstsize)%nat) ->
  exists k, 0 <= k /\ compute_loop fuel (listed L) dstsize dst 0 = Some (numbered dst k) /\ numbered dst k ∉ L.
Proof.
  intros Hf Hfit. pose proof (compute_loop_cases fuel (listed L) dstsize dst 0) as H.
  destruct (compute_loop _ _ _ _ _) as [u|].
  - destruct H as (k & Hk & -> & Ht). pose proof (Hfit k ltac:(lia)) as Hl.
    rewrite !snprintf_fits in * by (rewrite ?snprintf_fits; lia). exists k. split; [lia|]. split; [done|].
    by apply bool_decide_eq_false in Ht.
  - exfalso. apply (Nat.lt_irrefl (length L)). eapply Nat.lt_le_trans; [exact Hf|].
    apply (search_fails (numbered dst)); [apply numbered_inj|]. intros k Hk.
    specialize (H k ltac:(lia)). pose proof (Hfit k ltac:(lia)) as Hl.
    rewrite snprintf_fits in H by lia. by apply bool_decide_eq_true in H.
Qed.

(** *** The characters of an identifier *)
Lemma string_map_id f s : all_chars (fun c => bool_decide (f c = c)) s = true -> string_map f s = s.
Proof.
  induction s as [|c s IH]; [done|]. simpl. intros [H1%bool_decide_eq_true H2]%andb_true_iff.
  by rewrite H1, IH.
Qed.

Lemma string_map_app f a b : string_map f (a +:+ b) = string_map f a +:+ string_map f b.
Proof. induction a as [|c a IH]; [done | exact (f_equal (String (f c)) IH)]. Qed.

Lemma string_map_length f s : String.length (string_map f s) = String.length s.
Proof. induction s as [|c s IH]; simpl; [done | by rewrite IH]. Qed.

Lemma string_map_chars (p : ascii -> bool) f s : (forall c, p (f c) = true) -> all_chars p (string_map f s) = true.
Proof. intros H. induction s as [|c s IH]; simpl; [done | by rewrite H, IH]. Qed.

Lemma span_none stop s : all_chars (fun c => negb (stop c)) s = true -> span stop s = (s, "").
Proof.
  induction s as [|c s IH]; [done|]. simpl. intros [H1%negb_true_iff H2]%andb_true_iff.
  by rewrite H1, IH.
Qed.

Lemma skip_space_none s : all_chars (fun c => negb (isspace c)) s = true -> skip_space s = s.
Proof. destruct s as [|c s]; [done|]. simpl. intros [H%negb_true_iff _]%andb_true_iff. by rewrite H. Qed.

(** All characters, by evaluation. *)
Lemma ascii_forall (p : ascii -> bool) :
  forallb (fun n => p (ascii_of_nat n)) (seq 0 256) = true -> forall c, p c = true.
Proof.
  intros H c. rewrite forallb_forall in H. rewrite <- (ascii_nat_embedding c). apply H.
  apply in_seq. pose proof (nat_ascii_bounded c). lia.
Qed.

Definition canon (valid : string) (s : string) : string :=
  string_map (fun c => if strchr valid c then c else "_"%char) s.

Lemma canon_udi_chars s : all_chars udi_char (canon UDI_CHARS s) = true.
Proof.
  apply string_map_chars. intros c. unfold udi_char. destruct (strchr UDI_CHARS c) eqn:E; [done | by vm_compute].
Qed.

Lemma path_char c : strchr (String slash UDI_CHARS) c = bool_decide (slash = c) || udi_char c.
Proof. done. Qed.

Lemma canon_path_chars s :
  all_chars (fun c => bool_decide (slash = c) || udi_char c) (canon (String slash UDI_CHARS) s) = true.
Proof.
  apply string_map_chars. intros c. rewrite <- path_char.
  destruct (strchr (String slash UDI_CHARS) c) eqn:E; [done | by vm_compute].
Qed.

Lemma no_space_path c : bool_decide (slash = c) || udi_char c = true -> negb (isspace c) = true.
Proof.
  pose proof (ascii_forall (fun c => negb (bool_decide (slash = c) || udi_char c) || negb (isspace c))
                ltac:(by vm_compute) c) as H.
  simpl in H. intros E. rewrite E in H. exact H.
Qed.

Lemma no_slash_udi s :
  all_chars (fun c => bool_decide (slash = c) || udi_char c) s = true -> strchr s slash = false ->
  all_chars udi_char s = true.
Proof.
  induction s as [|c s IH]; [done|]. cbn [all_chars strchr].
  intros [H1 H2]%andb_true_iff [H3 H4]%orb_false_iff. rewrite IH, andb_true_r by done.
  apply bool_decide_eq_false in H3. rewrite bool_decide_eq_false_2 in H1 by done. done.
Qed.

Section Udi.
Context {G : GText} {L : GTextLaws G}.

Definition PREFIX : string := "/org/freedesktop/Hal/devices/".

Lemma compute_udi_prefix size w :
  (String.length (PREFIX +:+ w) < size)%nat ->
  hal_util_compute_udi size (PREFIX +:+ w) = PREFIX +:+ canon (String slash UDI_CHARS) w.
Proof.
  intros Hl. unfold hal_util_compute_udi. rewrite snprintf_fits, g_strcanon_spec by done.
  by rewrite string_map_app.
Qed.

Lemma validate_udi_prefix size w :
  (String.length (PREFIX +:+ w) < size)%nat ->
  exists v, hal_util_validate_udi (PREFIX +:+ canon (String slash UDI_CHARS) w) size = PREFIX +:+ v /\
            all_chars udi_char v = true /\ String.length v = String.length w.
Proof.
  intros Hl. unfold hal_util_validate_udi. change "/org/freedesktop/Hal/devices/" with PREFIX. set (c := canon (String slash UDI_CHARS) w).
  assert (String.length c = String.length w) as Hc by apply string_map_length.
  assert (has_prefix (PREFIX +:+ c) PREFIX = true) as -> by (apply has_prefix_spec; eauto).
  change 29%nat with (String.length PREFIX). rewrite str_drop_app.
  pose proof (canon_path_chars w) as Hp. fold c in Hp.
  pose proof (all_chars_impl _ _ c no_space_path Hp) as Hs.
  rewrite skip_space_none, span_none by done. destruct (strchr c slash) eqn:Es.
  - exists (canon UDI_CHARS c). split; [|split].
    + rewrite g_strcanon_spec. fold (canon UDI_CHARS c). apply snprintf_fits. rewrite string_length_app in *.
      unfold canon at 1. rewrite string_map_length, Hc. done.
    + apply canon_udi_chars.
    + unfold canon. by rewrite string_map_length.
  - exists c. split; [done|]. split; [by apply no_slash_udi | done].
Qed.

(** C32 Device identifiers: from a text in the name space of devices, when it fits the
    buffers even with a number behind it, the search ends after at most one
    round more than there are devices, and yields an identifier that no device
    has and that consists, behind the name space, of letters, digits and
    underscores only. *)
Theorem computed_udi_is_free_and_valid U w dstsize fuel
    (Hfuel : (length U < fuel)%nat)
    (Hfits : forall i, 0 <= i < Z.of_nat fuel ->
       (String.length PREFIX + String.length w + 1 + String.length (pretty i) < Nat.min 256 dstsize)%nat) :
  exists u v, hald_compute_udi fuel (listed U) dstsize (PREFIX +:+ w) = Some u /\
    u ∉ U /\ u = PREFIX +:+ v /\ all_chars udi_char v = true.
Proof.
  pose proof (Hfits 0 ltac:(lia)) as H0.
  assert (String.length (PREFIX +:+ w) < dstsize)%nat as Hl by (rewrite string_length_app; lia).
  unfold hald_compute_udi. rewrite compute_udi_prefix by done.
  destruct (validate_udi_prefix dstsize w Hl) as (v & -> & Hv & Hlen).
  destruct (listed U (PREFIX +:+ v)) eqn:E.
  - destruct (compute_loop_finds U dstsize (PREFIX +:+ v) fuel Hfuel) as (k & Hk & -> & Hn).
    { intros i Hi. unfold numbered. rewrite !string_length_app, Hlen. specialize (Hfits i Hi). simpl (String.length "_"). lia. }
    exists (numbered (PREFIX +:+ v) k), (v +:+ "_" +:+ pretty k). split; [done|]. split; [done|].
    split; [unfold numbered; by rewrite !string_app_assoc|].
    rewrite !all_chars_app, Hv, pretty_digits by done. done.
  - exists (PREFIX +:+ v), v. apply bool_decide_eq_false in E. done.
Qed.

(** A device identifier of 255 bytes that is taken is never made unique: the
    number is cut off by the buffer, every candidate is the identifier itself,
    and no amount of fuel is enough. *)
Lemma long_udi_is_never_unique taken dstsize text
    (Hlen : String.length (hal_util_validate_udi (hal_util_compute_udi dstsize text) dstsize) = 255%nat)
    (Htaken : taken (hal_util_validate_udi (hal_util_compute_udi dstsize text) dstsize) = true) :
  forall fuel, hald_compute_udi fuel taken dstsize text = None.
Proof.
  intros fuel. unfold hald_compute_udi. rewrite Htaken.
  set (dst := hal_util_validate_udi _ _) in *.
  pose proof (compute_loop_cases fuel taken dstsize dst 0) as H.
  destruct (compute_loop fuel taken dstsize dst 0) as [u|]; [|done].
  destruct H as (k & _ & _ & Ht). exfalso. unfold numbered, snprintf in Ht.
  change (256 - 1)%nat with 255%nat in Ht. rewrite <- Hlen, str_take_app in Ht. congruence.
Qed.
End Udi.

(** An instance of GLib's functions, for the witnesses. *)
Fixpoint split_set (s seps cur : string) : list string :=
  match s with
  | EmptyString => [cur]
  | String c s' => if strchr seps c then cur :: split_set s' seps "" else split_set s' seps (cur +:+ String c "")
  end.

#[local] Instance sample_text : GText := {|
  g_strcanon s valid sub := string_map (fun c => if strchr valid c then c else sub) s;
  g_strsplit_set s seps := split_set s seps "";
  g_strchug := skip_space;
|}.
#[local] Instance sample_text_laws : GTextLaws sample_text.
Proof. by constructor. Qed.

Lemma computed_udi_is_free_and_valid_witness :
  hald_compute_udi 3 (listed [PREFIX +:+ "usb_1_0"; PREFIX +:+ "usb_1_0_0"]) 256 (PREFIX +:+ "usb 1/0")
    = Some (PREFIX +:+ "usb_1_0_1") /\
  exists u v, hald_compute_udi 3 (listed [PREFIX +:+ "usb_1_0"; PREFIX +:+ "usb_1_0_0"]) 256 (PREFIX +:+ "usb 1/0")
    = Some u /\ u ∉ [PREFIX +:+ "usb_1_0"; PREFIX +:+ "usb_1_0_0"] /\ u = PREFIX +:+ v /\ all_chars udi_char v = true.
Proof.
  split; [by vm_compute|]. apply computed_udi_is_free_and_valid; [simpl; lia|].
  intros i Hi. assert (i = 0 \/ i = 1 \/ i = 2) as [-> | [-> | ->]] by lia; vm_compute; lia.
Defined.

Fixpoint repeat_char (n : nat) (c : ascii) : string :=
  match n with O => "" | S n' => String c (repeat_char n' c) end.

Lemma long_udi_is_never_unique_witness :
  hald_compute_udi 1 (fun _ => false) 256 (PREFIX +:+ repeat_char 300 "x") = Some (PREFIX +:+ repeat_char 226 "x") /\
  forall fuel, hald_compute_udi fuel (listed [PREFIX +:+ repeat_char 226 "x"]) 256
    (PREFIX +:+ repeat_char 300 "x") = None.
Proof.
  split; [by vm_compute|]. apply long_udi_is_never_unique; by vm_compute.
Defined.
