(* ===== verification/Dbus.v ===== *)
(** * D-Bus methods of the daemon ([hald/hald_dbus.c])

    Messages and their arguments, the errors the daemon raises, its state, and
    the methods on properties, devices and the manager object.

    A method is a computation of type [hm]: it takes the state of the daemon to
    a result, the new state and the actions it causes (signals on the bus,
    messages to helpers, programs to run), or to a [crash].  The reply is the
    result of the method.  libdbus is a third party: a message is given with
    its arguments, and [dbus_message_get_args] compares their types from the
    first on and ignores arguments behind the ones it asks for.

    What PolicyKit, the trackers of callers and the back end of the operating
    system answer are parameters. *)

From Stdlib Require Import ZArith Lia Ascii SpecFloat.
From stdpp Require Import base list gmap strings option pretty fin_maps.
From S2P Require Import Prelude CStd Property Device DeviceStore FdiRules Locks AccessCheck Bus.

(** ** Messages *)
Inductive dbus_value :=
  | VByte (z : Z)
  | VInt16 (z : Z)
  | VUint16 (z : Z)
  | VInt32 (z : Z)
  | VUint32 (z : Z)
  | VInt64 (z : Z)
  | VUint64 (z : Z)
  | VDouble (d : double)
  | VBoolean (b : bool)
  | VString (s : string)
  | VStrings (l : list string)                                  (** array of strings *)
  | VDict (l : list (string * dbus_value))                      (** a{sv} *)
  | VDevices (l : list (string * list (string * dbus_value)))   (** a(sa{sv}) *)
  | VChanges (l : list (string * bool * bool))                  (** a(sbb) *)
  | VOther (signature : string).                                (** any other type *)

Definition value_signature (v : dbus_value) : string :=
  match v with
  | VByte _ => "y" | VInt16 _ => "n" | VUint16 _ => "q" | VInt32 _ => "i" | VUint32 _ => "u"
  | VInt64 _ => "x" | VUint64 _ => "t" | VDouble _ => "d" | VBoolean _ => "b" | VString _ => "s"
  | VStrings _ => "as" | VDict _ => "a{sv}" | VDevices _ => "a(sa{sv})"
  | VChanges _ => "a(sbb)" | VOther s => s
  end.

(** [DBUS_TYPE_ARRAY] *)
Definition is_array (v : dbus_value) : bool := has_prefix (value_signature v) "a".

(** [m_sender] is [None] on the direct connection of a helper. *)
Record DBusMessage := mk_message {
  m_path : string;
  m_interface : option string;
  m_member : string;
  m_sender : option string;
  m_args : list dbus_value;
}.

Definition dbus_message_get_signature (m : DBusMessage) : string :=
  foldr (fun v s => value_signature v +:+ s) "" (m_args m).

Definition dbus_message_is_method_call (m : DBusMessage) (interface method : string) : bool :=
  match m_interface m with
  | Some i => (i =s? interface) && (m_member m =s? method)
  | None => false
  end.

(** [dbus_message_get_args] for the types the methods ask for. *)
Definition get_args_s (m : DBusMessage) : option string :=
  match m_args m with VString a :: _ => Some a | _ => None end.
Definition get_args_ss (m : DBusMessage) : option (string * string) :=
  match m_args m with VString a :: VString b :: _ => Some (a, b) | _ => None end.
Definition get_args_sb (m : DBusMessage) : option (string * bool) :=
  match m_args m with VString a :: VBoolean b :: _ => Some (a, b) | _ => None end.

(** The type of a property as it is sent: [DBUS_TYPE_*], and a number of its own
    for string lists. *)
Definition prop_type_code (t : prop_type) : Z :=
  match t with
  | HAL_PROPERTY_TYPE_INVALID => 0
  | HAL_PROPERTY_TYPE_INT32 => 105
  | HAL_PROPERTY_TYPE_UINT64 => 116
  | HAL_PROPERTY_TYPE_DOUBLE => 100
  | HAL_PROPERTY_TYPE_BOOLEAN => 98
  | HAL_PROPERTY_TYPE_STRING => 115
  | HAL_PROPERTY_TYPE_STRLIST => Z.shiftl 115 8 + 108
  end.

(** ** Replies *)
Inductive dbus_reply :=
  | MethodReturn (args : list dbus_value)
  | ErrorReply (name text : string).

Definition raise_error (error_name text : string) : dbus_reply := ErrorReply error_name (snprintf 512 text).

Definition raise_no_such_device (u : string) : dbus_reply :=
  raise_error "org.freedesktop.Hal.NoSuchDevice" ("No device with id " +:+ u).
Definition raise_no_such_property (device_id key : string) : dbus_reply :=
  raise_error "org.freedesktop.Hal.NoSuchProperty"
    ("No property " +:+ key +:+ " on device with id " +:+ device_id).
Definition raise_property_type_error (device_id key : string) : dbus_reply :=
  raise_error "org.freedesktop.Hal.TypeMismatch"
    ("Type mismatch setting property " +:+ key +:+ " on device with id " +:+ device_id).
Definition raise_syntax (method_name : string) : dbus_reply :=
  raise_error "org.freedesktop.Hal.SyntaxError"
    ("There is a syntax error in the invocation of the method " +:+ method_name).
Definition raise_device_not_locked (d : HalDevice) : dbus_reply :=
  raise_error "org.freedesktop.Hal.DeviceNotLocked" ("The device " +:+ udi d +:+ " is not locked").
Definition raise_device_already_locked (d : HalDevice) : dbus_reply :=
  ErrorReply "org.freedesktop.Hal.DeviceAlreadyLocked"
    (default "Device is already locked" (hal_device_property_get_string d "info.locked.reason")).
Definition raise_permission_denied (reason : string) : dbus_reply :=
  raise_error "org.freedesktop.Hal.PermissionDenied" ("Permission denied: " +:+ reason).
Definition raise_interface_locked (interface : string) : dbus_reply :=
  raise_error "org.freedesktop.Hal.Device.InterfaceLocked"
    ("The interface " +:+ interface +:+ " is locked by someone else").
Definition raise_interface_already_locked (interface : string) : dbus_reply :=
  raise_error "org.freedesktop.Hal.Device.InterfaceAlreadyLocked"
    ("The interface " +:+ interface +:+
     " is already exclusively locked either by someone else or it's already locked by yourself").
Definition raise_interface_not_locked (interface : string) : dbus_reply :=
  raise_error "org.freedesktop.Hal.Device.InterfaceNotLocked"
    ("The interface " +:+ interface +:+ " is not locked by you").

(** The replies of the lock methods, as they are sent. *)
Definition reply_of (r : reply) : dbus_reply :=
  match r with
  | NoSuchDevice u => raise_no_such_device u
  | SyntaxError n => raise_syntax n
  | PermissionDenied reason => raise_permission_denied reason
  | InterfaceAlreadyLocked i => raise_interface_already_locked i
  | InterfaceNotLocked i => raise_interface_not_locked i
  | Return => MethodReturn []
  | ReturnBool b => MethodReturn [VBoolean b]
  end.

(** ** The state of the daemon

    Connections of helpers are numbers. *)
Record HelperInterfaceHandler := mk_helper {
  hih_connection : nat;
  hih_interface_name : string;
  hih_introspection_xml : string;
  hih_udi : string;
}.

Record SingletonInfo := mk_singleton { si_connection : option nat; si_devices : list nat }.

Record MethodInvocation := mk_invocation {
  mi_udi : string;
  mi_execpath : string;
  mi_extra_env : list string;
  mi_stdin : string;
  mi_member : string;
  mi_interface : string;
  mi_message : DBusMessage;
  mi_connection : nat;
}.

(** [h_queue] is [udi_to_method_queue]; the head of a queue is being executed. *)
Record hald := mk_hald {
  h_core : daemon;
  h_bus : bus;
  services_with_locks : gmap string (list nat);
  helper_interface_handlers : list HelperInterfaceHandler;
  singletons : gmap string SingletonInfo;
  h_queue : gmap string (list MethodInvocation);
}.

Inductive action :=
  | Broadcast (m : bus_message)
  | Answer (connection : nat) (m : DBusMessage) (r : dbus_reply)      (** to a queued method call *)
  | RunMethod (u execpath : string) (extra_env : list string) (stdin : string)
  | Forward (connection : nat) (m : DBusMessage)
  | CallSingleton (connection : nat) (added : bool) (u : string) (props : list (string * dbus_value))
  | StartSingleton (command_line : string)
  | StartAddon (u command_line : string)
  | KillHelpers (u : string)
  | RefreshMountState (u : string)
  | Callouts (u hald_action : string) (programs : list string)
  | UnrefOfList.     (** a [GSList] is passed to [g_object_unref] *)

Inductive crash :=
  | NullString       (** NULL where a string is needed *)
  | ReadAfterFree
  | BadFree          (** [g_free] of a pointer into an allocated block *)
  | RuleFault (f : fault)
  | NoDevice         (** a number that names no device *)
  | Endless.         (** out of fuel *)

Definition hm (A : Type) : Type := hald -> crash + (A * hald * list action).
Definition hret {A} (a : A) : hm A := fun h => inr (a, h, []).
Definition hbind {A B} (m : hm A) (k : A -> hm B) : hm B := fun h =>
  match m h with
  | inl c => inl c
  | inr (a, h1, t1) =>
      match k a h1 with
      | inl c => inl c
      | inr (b, h2, t2) => inr (b, h2, t1 ++ t2)
      end
  end.
Definition hget {A} (f : hald -> A) : hm A := fun h => inr (f h, h, []).
Definition hact (l : list action) : hm unit := fun h => inr (tt, h, l).
Definition hcrash {A} (c : crash) : hm A := fun _ => inl c.
Definition hmod (f : hald -> hald) : hm unit := fun h => inr (tt, f h, []).

Notation "'let^' x := m 'in' k" := (hbind m (fun x => k))
  (at level 10, x name, m at level 100, k at level 200) : hal_scope.
Notation "m ;^ k" := (hbind m (fun _ => k)) (at level 199, right associativity) : hal_scope.

Definition set_core (f : daemon -> daemon) (h : hald) : hald :=
  mk_hald (f (h_core h)) (h_bus h) (services_with_locks h) (helper_interface_handlers h)
          (singletons h) (h_queue h).
Definition set_bus (b : bus) (h : hald) : hald :=
  mk_hald (h_core h) b (services_with_locks h) (helper_interface_handlers h) (singletons h) (h_queue h).
Definition set_services (f : gmap string (list nat) -> gmap string (list nat)) (h : hald) : hald :=
  mk_hald (h_core h) (h_bus h) (f (services_with_locks h)) (helper_interface_handlers h)
          (singletons h) (h_queue h).
Definition set_helpers (f : list HelperInterfaceHandler -> list HelperInterfaceHandler) (h : hald) : hald :=
  mk_hald (h_core h) (h_bus h) (services_with_locks h) (f (helper_interface_handlers h))
          (singletons h) (h_queue h).
Definition set_singletons (f : gmap string SingletonInfo -> gmap string SingletonInfo) (h : hald) : hald :=
  mk_hald (h_core h) (h_bus h) (services_with_locks h) (helper_interface_handlers h)
          (f (singletons h)) (h_queue h).
Definition set_queue (f : gmap string (list MethodInvocation) -> gmap string (list MethodInvocation)) (h : hald)
  : hald :=
  mk_hald (h_core h) (h_bus h) (services_with_locks h) (helper_interface_handlers h)
          (singletons h) (f (h_queue h)).

Definition h_env (h : hald) : env := d_env (h_core h).
Definition set_env (e : env) (h : hald) : hald := set_core (fun c => mk_daemon e (d_locked c)) h.

(** ** Devices and their signals *)
Section Dbus.
Context {P : Platform}.
Context (cfg : configuration) (ci_tracker_get_info : string -> option CICallerInfo) (geteuid : Z).
Context (connected initialising : bool).
(** The order in which GLib walks the hash table of properties. *)
Context (property_order : HalDevice -> list string).

(** What the handlers of the global device list send for the emissions of a
    device that is in it. *)
Definition computer_at (e : env) (id : nat) (d : HalDevice) : option HalDevice :=
  snd <$> find_by_udi (mk_env (<[id := d]> (e_heap e)) (gdl e) (tdl e) (callouts e)
                              (temp_device_counter e) (e_log e)) COMPUTER.

Fixpoint announce_all (e : env) (id : nat) (t : list emission) (b : bus) : bus * list bus_message :=
  match t with
  | [] => (b, [])
  | em :: rest =>
      let '(b1, m1) := gdl_signals connected initialising (computer_at e id (em_device em)) (em_device em)
                         (store_signals id (em_signal em)) b in
      let '(b2, m2) := announce_all e id rest b1 in (b2, m1 ++ m2)
  end.

(** An operation on a device. *)
Definition dev_op {A} (id : nat) (m : dev A) : hm A := fun h =>
  match e_heap (h_env h) !! id with
  | None => inl NoDevice
  | Some d =>
      let r := m d in
      match on_device id m (h_env h) with
      | None => inl NoDevice
      | Some (a, e') =>
          let '(b, msgs) := if bool_decide (id ∈ gdl (h_env h)) then announce_all (h_env h) id (trace r) (h_bus h)
                            else (h_bus h, []) in
          inr (a, set_bus b (set_env e' h), Broadcast <$> msgs)
      end
  end.

(** [hal_device_store_find] in the global list, then in the temporary one. *)
Definition find_device_object (u : string) : hm (option (nat * HalDevice)) :=
  hget (fun h => find_by_udi (h_env h) u).

Definition privileged (m : DBusMessage) : bool :=
  access_check_message_caller_is_root_or_hal ci_tracker_get_info geteuid (m_sender m).

(** ** Queries of the manager *)

(** [foreach_property_append]: one entry of a dictionary. *)
Definition property_value (p : HalProperty) : dbus_value :=
  match p with
  | PString s => VString s
  | PInt32 z => VInt32 z
  | PUint64 z => VUint64 z
  | PBoolean b => VBoolean b
  | PDouble d => VDouble d
  | PStrlist l => VStrings l
  end.
Definition foreach_property_append (d : HalDevice) (key : string) (iter : list (string * dbus_value))
  : list (string * dbus_value) :=
  match hal_device_property_find d key with
  | Some p => iter ++ [(key, property_value p)]
  | None => iter
  end.

(** [hal_device_property_foreach] *)
Definition all_properties (d : HalDevice) : list (string * dbus_value) :=
  foldl (fun iter key => foreach_property_append d key iter) [] (property_order d).

(** A callback of [hal_device_store_foreach] that never stops. *)
Definition foreach_device {S} (e : env) (l : list nat) (callback : HalDevice -> S -> S) (s : S) : S :=
  foldl (fun s id => match e_heap e !! id with Some d => callback d s | None => s end) s l.

Definition foreach_device_get_udi (d : HalDevice) (iter : list string) : list string := iter ++ [udi d].

Definition manager_get_all_devices : hm dbus_reply :=
  let^ e := hget h_env in
  hret (MethodReturn [VStrings (foreach_device e (gdl e) foreach_device_get_udi [])]).

Definition foreach_device_get_udi_with_properties (d : HalDevice)
    (iter : list (string * list (string * dbus_value))) : list (string * list (string * dbus_value)) :=
  iter ++ [(udi d, all_properties d)].

Definition manager_get_all_devices_with_properties : hm dbus_reply :=
  let^ e := hget h_env in
  hret (MethodReturn [VDevices (foreach_device e (gdl e) foreach_device_get_udi_with_properties [])]).

Definition matches_string (key value : string) (d : HalDevice) : bool :=
  if negb (hal_device_property_get_type d key =t? HAL_PROPERTY_TYPE_STRING) then false
  else match hal_device_property_get_string d key with
       | Some dev_value => dev_value =s? value
       | None => false
       end.

Definition foreach_device_match_get_udi (key value : string) (d : HalDevice) (iter : list string) : list string :=
  if matches_string key value d then iter ++ [udi d] else iter.

(** [strncmp] with the [sizeof] of the literal compares its terminator too. *)
Definition foreach_device_match_get_udi_tdl (key value : string) (d : HalDevice) (iter : list string)
  : list string :=
  if udi d =s? "/org/freedesktop/Hal/devices/temp" then iter
  else if matches_string key value d then iter ++ [udi d] else iter.

Definition manager_find_device_string_match (m : DBusMessage) : hm dbus_reply :=
  match get_args_ss m with
  | None => hret (raise_syntax "Manager.FindDeviceStringMatch")
  | Some (key, value) =>
      let^ e := hget h_env in
      let in_gdl := foreach_device e (gdl e) (foreach_device_match_get_udi key value) [] in
      hret (MethodReturn [VStrings (foreach_device e (tdl e) (foreach_device_match_get_udi_tdl key value) in_gdl)])
  end.

Definition foreach_device_by_capability (capability : string) (d : HalDevice) (iter : list string) : list string :=
  if hal_device_has_capability d capability then iter ++ [udi d] else iter.

Definition manager_find_device_by_capability (m : DBusMessage) : hm dbus_reply :=
  match get_args_s m with
  | None => hret (raise_syntax "Manager.FindDeviceByCapability")
  | Some capability =>
      let^ e := hget h_env in
      hret (MethodReturn [VStrings (foreach_device e (gdl e) (foreach_device_by_capability capability) [])])
  end.

Definition manager_device_exists (m : DBusMessage) : hm dbus_reply :=
  match get_args_s m with
  | None => hret (raise_syntax "Manager.DeviceExists")
  | Some u =>
      let^ d := find_device_object u in
      hret (MethodReturn [VBoolean (match d with Some _ => true | None => false end)])
  end.

(** ** Properties of a device *)
Definition device_get_all_properties (m : DBusMessage) : hm dbus_reply :=
  let^ found := find_device_object (m_path m) in
  match found with
  | None => hret (raise_no_such_device (m_path m))
  | Some (_, d) => hret (MethodReturn [VDict (all_properties d)])
  end.

Definition device_get_property (m : DBusMessage) : hm dbus_reply :=
  let^ found := find_device_object (m_path m) in
  match found with
  | None => hret (raise_no_such_device (m_path m))
  | Some (_, d) =>
      match get_args_s m with
      | None => hret (raise_syntax "GetProperty")
      | Some key =>
          if negb (hal_device_has_property d key) then hret (raise_no_such_property (m_path m) key)
          else match hal_device_property_get_type d key with
               | HAL_PROPERTY_TYPE_STRING =>
                   match hal_device_property_get_string d key with
                   | Some s => hret (MethodReturn [VString s])
                   | None => hcrash NullString
                   end
               | HAL_PROPERTY_TYPE_INT32 => hret (MethodReturn [VInt32 (hal_device_property_get_int d key)])
               | HAL_PROPERTY_TYPE_UINT64 => hret (MethodReturn [VUint64 (hal_device_property_get_uint64 d key)])
               | HAL_PROPERTY_TYPE_DOUBLE => hret (MethodReturn [VDouble (hal_device_property_get_double d key)])
               | HAL_PROPERTY_TYPE_BOOLEAN => hret (MethodReturn [VBoolean (hal_device_property_get_bool d key)])
               | HAL_PROPERTY_TYPE_STRLIST =>
                   hret (MethodReturn [VStrings (hal_device_property_strlist_iter_init d key)])
               | HAL_PROPERTY_TYPE_INVALID => hret (MethodReturn [])
               end
      end
  end.

Definition device_get_property_type (m : DBusMessage) : hm dbus_reply :=
  let^ found := find_device_object (m_path m) in
  match found with
  | None => hret (raise_no_such_device (m_path m))
  | Some (_, d) =>
      match get_args_s m with
      | None => hret (raise_syntax "GetPropertyType")
      | Some key =>
          if negb (hal_device_has_property d key) then hret (raise_no_such_property (m_path m) key)
          else hret (MethodReturn [VInt32 (prop_type_code (hal_device_property_get_type d key))])
      end
  end.

(** The assignment of one argument to a property; FALSE for any other type. *)
Definition set_from_value (key : string) (v : option dbus_value) : dev bool :=
  match v with
  | Some (VString s) => hal_device_property_set_string key (Some s)
  | Some (VInt32 z) => hal_device_property_set_int key z
  | Some (VUint64 z) => hal_device_property_set_uint64 key z
  | Some (VDouble x) => hal_device_property_set_double key x
  | Some (VBoolean b) => hal_device_property_set_bool key b
  | _ => dret false
  end.

Definition device_set_property (m : DBusMessage) (local_interface : bool) : hm dbus_reply :=
  match m_args m with
  | VString key :: rest =>
      if negb local_interface && negb (privileged m)
      then hret (raise_permission_denied "SetProperty: not privileged")
      else
        let^ found := find_device_object (m_path m) in
        match found with
        | None => hret (raise_no_such_device (m_path m))
        | Some (id, _) =>
            let^ rc := dev_op id (set_from_value key (head rest)) in
            if rc then hret (MethodReturn []) else hret (raise_property_type_error (m_path m) key)
        end
  | _ => hret (raise_syntax "SetProperty")
  end.

(** *** Several properties at once *)
Fixpoint append_quietly (key : string) (l : list string) : dev unit :=
  match l with
  | [] => dret tt
  | v :: rest => hal_device_property_strlist_append key v true ;;; append_quietly key rest
  end.

(** The elements of an array in a variant: none when they are not strings. *)
Definition string_elements (v : dbus_value) : list string :=
  match v with VStrings l => l | _ => [] end.

Definition set_array (key : string) (l : list string) : dev unit :=
  let* has := dget (fun d => hal_device_has_property d key) in
  let* type := dget (fun d => hal_device_property_get_type d key) in
  let error := has && negb (type =t? HAL_PROPERTY_TYPE_STRLIST) in
  hal_device_property_strlist_clear key true ;;;
  append_quietly key l ;;;
  (if error then dret tt
   else hal_device_property_strlist_append_finish_changeset key (negb has) ;;; dret tt).

Definition set_variant (key : string) (v : dbus_value) : dev unit :=
  if is_array v then set_array key (string_elements v)
  else set_from_value key (Some v) ;;; dret tt.

Fixpoint set_entries (id : nat) (l : list (string * dbus_value)) : hm unit :=
  match l with
  | [] => hret tt
  | (key, v) :: rest => dev_op id (set_variant key v) ;^ set_entries id rest
  end.

Definition atomic_update_begin : hm unit := hmod (fun h => set_bus (device_property_atomic_update_begin (h_bus h)) h).
(** The crash is the [strcmp] with NULL of [flush_updates]. *)
Definition atomic_update_end : hm unit := fun h =>
  match device_property_atomic_update_end connected (h_bus h) with
  | None => inl NullString
  | Some (b, msgs) => inr (tt, set_bus b h, Broadcast <$> msgs)
  end.

(** An array of another kind than a dictionary has no entries. *)
Definition dict_entries (v : dbus_value) : list (string * dbus_value) :=
  match v with VDict l => l | _ => [] end.

Definition device_set_multiple_properties (m : DBusMessage) (local_interface : bool) : hm dbus_reply :=
  let^ found := find_device_object (m_path m) in
  match found with
  | None => hret (raise_no_such_device (m_path m))
  | Some (id, _) =>
      if negb local_interface && negb (privileged m)
      then hret (raise_permission_denied "SetProperty: not privileged")
      else match m_args m with
           | v :: _ =>
               if is_array v then
                 atomic_update_begin ;^ set_entries id (dict_entries v) ;^ atomic_update_end ;^
                 hret (MethodReturn [])
               else hret (raise_syntax (m_path m))
           | [] => hret (raise_syntax (m_path m))
           end
  end.

Definition device_add_capability (m : DBusMessage) (local_interface : bool) : hm dbus_reply :=
  if negb local_interface && negb (privileged m)
  then hret (raise_permission_denied "AddCapability: not privileged")
  else
    let^ found := find_device_object (m_path m) in
    match found with
    | None => hret (raise_no_such_device (m_path m))
    | Some (id, _) =>
        match get_args_s m with
        | None => hret (raise_syntax "AddCapability")
        | Some capability => dev_op id (hal_device_add_capability capability) ;^ hret (MethodReturn [])
        end
    end.

Definition device_string_list_append_prepend (m : DBusMessage) (do_prepend : bool) : hm dbus_reply :=
  let^ found := find_device_object (m_path m) in
  match found with
  | None => hret (raise_no_such_device (m_path m))
  | Some (id, _) =>
      match get_args_ss m with
      | None => hret (raise_syntax (if do_prepend then "StringListPrepend" else "StringListAppend"))
      | Some (key, value) =>
          let^ ret := dev_op id (if do_prepend then hal_device_property_strlist_prepend key value
                                 else hal_device_property_strlist_append key value false) in
          if ret then hret (MethodReturn []) else hret (raise_property_type_error (m_path m) key)
      end
  end.

Definition device_string_list_remove (m : DBusMessage) : hm dbus_reply :=
  let^ found := find_device_object (m_path m) in
  match found with
  | None => hret (raise_no_such_device (m_path m))
  | Some (id, _) =>
      match get_args_ss m with
      | None => hret (raise_syntax "StringListRemove")
      | Some (key, value) =>
          let^ ret := dev_op id (hal_device_property_strlist_remove key value) in
          if ret then hret (MethodReturn []) else hret (raise_property_type_error (m_path m) key)
      end
  end.

Definition device_remove_property (m : DBusMessage) (local_interface : bool) : hm dbus_reply :=
  if negb local_interface && negb (privileged m)
  then hret (raise_permission_denied "RemoveProperty: not privileged")
  else
    let^ found := find_device_object (m_path m) in
    match found with
    | None => hret (raise_no_such_device (m_path m))
    | Some (id, _) =>
        match get_args_s m with
        | None => hret (raise_syntax "RemoveProperty")
        | Some key =>
            let^ removed := dev_op id (hal_device_property_remove key) in
            if removed then hret (MethodReturn []) else hret (raise_no_such_property (m_path m) key)
        end
    end.

Definition device_property_exists (m : DBusMessage) : hm dbus_reply :=
  let^ found := find_device_object (m_path m) in
  match found with
  | None => hret (raise_no_such_device (m_path m))
  | Some (_, d) =>
      match get_args_s m with
      | None => hret (raise_syntax "RemoveProperty")
      | Some key => hret (MethodReturn [VBoolean (hal_device_has_property d key)])
      end
  end.

Definition device_query_capability (m : DBusMessage) : hm dbus_reply :=
  let^ found := find_device_object (m_path m) in
  match found with
  | None => hret (raise_no_such_device (m_path m))
  | Some (_, d) =>
      match get_args_s m with
      | None => hret (raise_syntax "QueryCapability")
      | Some capability =>
          hret (MethodReturn [VBoolean (existsb (fun c => c =s? capability)
                                          (hal_device_property_strlist_iter_init d "info.capabilities"))])
      end
  end.
End Dbus.
