(* ===== verification/DbusManager.v ===== *)
(** * Locks, helpers and device objects on D-Bus ([hald/hald_dbus.c])

    Advisory locks on devices, conditions, interfaces claimed by helpers,
    add-ons that report ready, singleton add-ons, and the methods of the
    manager that create, remove and commit devices; with the handler of
    [hald/hald.c] that runs when the global device list changes. *)

From Stdlib Require Import ZArith Lia Ascii SpecFloat.
From stdpp Require Import base list gmap strings option pretty fin_maps.
From S2P Require Import Prelude CStd Property Device DeviceStore FdiRules FdiInterp Locks AccessCheck Bus Partutil Util Dbus.

Section Manager.
Context {P : Platform}.
Context (cfg : configuration) (ci_tracker_get_info : string -> option CICallerInfo) (geteuid : Z).
Context (connected initialising : bool) (property_order : HalDevice -> list string).

#[local] Notation dev_op := (dev_op connected initialising).
#[local] Notation privileged := (privileged ci_tracker_get_info geteuid).

(** ** The methods of [access-check.c] and their signals

    The emissions an operation on the daemon has logged, announced when their
    device is in the global list. *)
Fixpoint announce_log (e : env) (log : list (nat * emission)) (b : bus) : bus * list bus_message :=
  match log with
  | [] => (b, [])
  | (id, em) :: rest =>
      let '(b1, m1) := if bool_decide (id ∈ gdl e) then announce_all connected initialising e id [em] b else (b, []) in
      let '(b2, m2) := announce_log e rest b1 in (b2, m1 ++ m2)
  end.

Definition core_op (f : daemon -> reply * daemon) : hm dbus_reply := fun h =>
  let '(r, w) := f (h_core h) in
  let log := drop (length (e_log (h_env h))) (e_log (d_env w)) in
  let '(b, msgs) := announce_log (d_env w) log (h_bus h) in
  inr (reply_of r, set_bus b (set_core (fun _ => w) h), Broadcast <$> msgs).

(** ** Advisory locks *)

(** The table destroys its values with [g_object_unref], but they are lists:
    replacing or removing one passes a list to it. *)
Definition services_insert (lock_owner : string) (devices : list nat) : hm unit :=
  let^ old := hget (fun h => services_with_locks h !! lock_owner) in
  hmod (set_services <[lock_owner := devices]>) ;^
  hact (match old with Some _ => [UnrefOfList] | None => [] end).

Definition services_with_locks_add_lock (lock_owner : string) (id : nat) : hm unit :=
  let^ devices := hget (fun h => default [] (services_with_locks h !! lock_owner)) in
  services_insert lock_owner (id :: devices).

Definition services_with_locks_remove_lock (lock_owner : string) (id : nat) : hm unit :=
  let^ devices := hget (fun h => default [] (services_with_locks h !! lock_owner)) in
  services_insert lock_owner (slist_remove id devices).

Definition drop_lock_properties : dev unit :=
  hal_device_property_remove "info.locked" ;;;
  hal_device_property_remove "info.locked.reason" ;;;
  hal_device_property_remove "info.locked.dbus_name" ;;; dret tt.

(** The list keeps no references: a device that is gone is read after it was
    freed. *)
Fixpoint drop_locks (ids : list nat) : hm unit :=
  match ids with
  | [] => hret tt
  | id :: rest =>
      let^ d := hget (fun h => e_heap (h_env h) !! id) in
      match d with
      | None => hcrash ReadAfterFree
      | Some _ => dev_op id drop_lock_properties ;^ drop_locks rest
      end
  end.

Definition services_with_locks_remove_lockowner (lock_owner : string) : hm unit :=
  let^ devices := hget (fun h => services_with_locks h !! lock_owner) in
  drop_locks (default [] devices) ;^
  hmod (set_services (delete lock_owner)) ;^
  hact (match devices with Some _ => [UnrefOfList] | None => [] end).

Definition device_lock (m : DBusMessage) : hm dbus_reply :=
  let^ found := find_device_object (m_path m) in
  match found with
  | None => hret (raise_no_such_device (m_path m))
  | Some (id, d) =>
      if hal_device_property_get_bool d "info.locked" then hret (raise_device_already_locked d)
      else match get_args_s m with
           | None => hret (raise_syntax "Lock")
           | Some reason =>
               dev_op id (hal_device_property_set_bool "info.locked" true ;;;
                          hal_device_property_set_string "info.locked.reason" (Some reason) ;;;
                          hal_device_property_set_string "info.locked.dbus_name" (m_sender m)) ;^
               match m_sender m with
               | None => hcrash NullString
               | Some sender => services_with_locks_add_lock sender id ;^ hret (MethodReturn [])
               end
           end
  end.

Definition device_unlock (m : DBusMessage) : hm dbus_reply :=
  let^ found := find_device_object (m_path m) in
  match found with
  | None => hret (raise_no_such_device (m_path m))
  | Some (id, d) =>
      if negb (hal_device_property_get_bool d "info.locked") then hret (raise_device_not_locked d)
      else match m_sender m, hal_device_property_get_string d "info.locked.dbus_name" with
           | Some sender, Some owner =>
               if negb (sender =s? owner) then
                 hret (raise_permission_denied
                         ("Service '" +:+ sender +:+ "' does not own the lock on " +:+ udi d))
               else
                 let^ devices := hget (fun h => default [] (services_with_locks h !! sender)) in
                 (match devices with
                  | [] => hret tt
                  | _ => services_with_locks_remove_lock sender id
                  end) ;^
                 dev_op id drop_lock_properties ;^ hret (MethodReturn [])
           | _, _ => hcrash NullString
           end
  end.

(** ** Rescanning and reprobing: the back end's work *)
Context (osspec_device_rescan osspec_device_reprobe : nat -> hm bool).

Definition device_rescan (m : DBusMessage) (local_interface : bool) : hm dbus_reply :=
  if negb local_interface && negb (privileged m)
  then hret (raise_permission_denied "Rescan: not privileged")
  else
    let^ found := find_device_object (m_path m) in
    match found with
    | None => hret (raise_no_such_device (m_path m))
    | Some (id, _) => let^ res := osspec_device_rescan id in hret (MethodReturn [VBoolean res])
    end.

Definition device_reprobe (m : DBusMessage) (local_interface : bool) : hm dbus_reply :=
  if negb local_interface && negb (privileged m)
  then hret (raise_permission_denied "Reprobe: not privileged")
  else
    let^ found := find_device_object (m_path m) in
    match found with
    | None => hret (raise_no_such_device (m_path m))
    | Some (id, _) => let^ res := osspec_device_reprobe id in hret (MethodReturn [VBoolean res])
    end.

(** ** Methods for helpers *)
Definition device_send_signal_condition (d : HalDevice) (condition_name condition_details : string) : hm unit :=
  hact (if quiet connected initialising then [] else [Broadcast (Condition (udi d) condition_name condition_details)]).

Definition device_emit_condition (m : DBusMessage) (local_interface : bool) : hm dbus_reply :=
  if negb local_interface then hret (raise_permission_denied "EmitCondition: only allowed for helpers")
  else match get_args_ss m with
       | None => hret (raise_syntax "EmitCondition")
       | Some (condition_name, condition_details) =>
           let^ found := find_device_object (m_path m) in
           match found with
           | None => hret (raise_no_such_device (m_path m))
           | Some (_, d) =>
               device_send_signal_condition d condition_name condition_details ;^
               hret (MethodReturn [VBoolean true])
           end
       end.

Definition device_claim_interface (connection : nat) (m : DBusMessage) (local_interface : bool) : hm dbus_reply :=
  if negb local_interface then hret (raise_permission_denied "ClaimInterface: only allowed for helpers")
  else match get_args_ss m with
       | None => hret (raise_syntax "ClaimInterface")
       | Some (interface_name, introspection_xml) =>
           let^ found := find_device_object (m_path m) in
           match found with
           | None => hret (raise_no_such_device (m_path m))
           | Some (id, _) =>
               dev_op id (hal_device_property_strlist_add "info.interfaces" interface_name) ;^
               hmod (set_helpers (fun l => l ++ [mk_helper connection interface_name introspection_xml (m_path m)])) ;^
               hret (MethodReturn [VBoolean true])
           end
       end.

(** A device whose add-on is ready or has ended. *)
Definition put_device (id : nat) (d : HalDevice) : hm unit :=
  hmod (fun h => let e := h_env h in
                 set_env (mk_env (<[id := d]> (e_heap e)) (gdl e) (tdl e) (callouts e)
                                 (temp_device_counter e) (e_log e)) h).

Definition addon_ready (id : nat) : hm unit :=
  let^ d := hget (fun h => e_heap (h_env h) !! id) in
  match d with
  | None => hret tt
  | Some d => let '(d', msgs) := addon_terminated connected initialising d in
              put_device id d' ;^ hact (Broadcast <$> msgs)
  end.

Definition addon_is_ready (m : DBusMessage) (local_interface : bool) : hm dbus_reply :=
  if negb local_interface then hret (raise_permission_denied "AddonIsReady: only allowed for helpers")
  else
    let^ found := find_device_object (m_path m) in
    match found with
    | None => hret (raise_no_such_device (m_path m))
    | Some (id, _) => addon_ready id ;^ hret (MethodReturn [VBoolean true])
    end.

(** ** Singleton add-ons *)
Context (hald_runner_start hald_runner_start_singleton : string -> bool).

Definition singleton_signal_device_changed (connection : nat) (id : nat) (added : bool) : hm unit :=
  let^ d := hget (fun h => e_heap (h_env h) !! id) in
  match d with
  | None => hcrash ReadAfterFree
  | Some d => hact [CallSingleton connection added (udi d) (all_properties property_order d)]
  end.

(** The reply of the add-on; [id] is [None] when the device is gone. *)
Definition reply_from_singleton_device_changed (added : bool) (id : option nat) (is_error : bool) : hm unit :=
  if is_error then hret tt
  else match id with
       | Some id => if added then addon_ready id else hret tt
       | None => hret tt
       end.

Definition hald_singleton_device_added (command_line : string) (id : nat) : hm bool :=
  let^ info := hget (fun h => singletons h !! command_line) in
  match info with
  | None =>
      if hald_runner_start_singleton command_line then
        hact [StartSingleton command_line] ;^
        hmod (set_singletons <[command_line := mk_singleton None [id]]>) ;^ hret true
      else hret false
  | Some info =>
      hmod (set_singletons <[command_line := mk_singleton (si_connection info) (id :: si_devices info)]>) ;^
      (match si_connection info with
       | Some connection => singleton_signal_device_changed connection id true
       | None => hret tt
       end) ;^ hret true
  end.

Definition hald_singleton_device_removed (command_line : string) (id : nat) : hm bool :=
  let^ info := hget (fun h => singletons h !! command_line) in
  match info with
  | None => hret false
  | Some info =>
      if bool_decide (id ∈ si_devices info) then
        hmod (set_singletons <[command_line := mk_singleton (si_connection info) (slist_remove id (si_devices info))]>) ;^
        (match si_connection info with
         | Some connection => singleton_signal_device_changed connection id false
         | None => hret tt
         end) ;^ hret true
      else hret false
  end.

Fixpoint signal_devices (connection : nat) (ids : list nat) : hm unit :=
  match ids with
  | [] => hret tt
  | id :: rest => singleton_signal_device_changed connection id true ;^ signal_devices connection rest
  end.

(** Unknown singletons get no reply. *)
Definition singleton_addon_is_ready (connection : nat) (m : DBusMessage) (local_interface : bool)
  : hm (option dbus_reply) :=
  if negb local_interface
  then hret (Some (raise_permission_denied "SingletonAddonIsReady: only allowed for helpers"))
  else match get_args_s m with
       | None => hret (Some (raise_syntax "SingletonAddonIsReady"))
       | Some command_line =>
           let^ info := hget (fun h => singletons h !! command_line) in
           match info with
           | None => hret None
           | Some info =>
               hmod (set_singletons <[command_line := mk_singleton (Some connection) (si_devices info)]>) ;^
               signal_devices connection (si_devices info) ;^
               hret (Some (MethodReturn []))
           end
       end.

(** [singleton_remove_by_connection], for every singleton. *)
Definition singletons_remove_by_connection (connection : nat) : hm unit :=
  hmod (set_singletons (filter (fun p => si_connection p.2 <> Some connection))).

(** ** The global device list *)
Fixpoint start_each (ids : nat) (commands : list string) : hm unit :=
  match commands with
  | [] => hret tt
  | command :: rest =>
      (if hald_runner_start command then
         let^ d := hget (fun h => e_heap (h_env h) !! ids) in
         match d with
         | Some d => hact [StartAddon (udi d) command] ;^ put_device ids (dev_of (hal_device_inc_num_addons d))
         | None => hcrash NoDevice
         end
       else hret tt) ;^ start_each ids rest
  end.

Fixpoint start_singletons (id : nat) (commands : list string) : hm unit :=
  match commands with
  | [] => hret tt
  | command :: rest =>
      let^ ok := hald_singleton_device_added command id in
      (if ok then
         let^ d := hget (fun h => e_heap (h_env h) !! id) in
         match d with
         | Some d => put_device id (dev_of (hal_device_inc_num_addons d))
         | None => hcrash NoDevice
         end
       else hret tt) ;^ start_singletons id rest
  end.

Fixpoint remove_singletons (id : nat) (commands : list string) : hm unit :=
  match commands with
  | [] => hret tt
  | command :: rest => hald_singleton_device_removed command id ;^ remove_singletons id rest
  end.

(** [gdl_store_changed] for a device that was added. *)
Definition gdl_added (id : nat) : hm unit :=
  let^ d := hget (fun h => e_heap (h_env h) !! id) in
  match d with
  | None => hcrash NoDevice
  | Some d =>
      start_each id (hal_device_property_get_strlist d "info.addons") ;^
      start_singletons id (hal_device_property_get_strlist d "info.addons.singleton") ;^
      let^ d' := hget (fun h => e_heap (h_env h) !! id) in
      match d' with
      | None => hcrash NoDevice
      | Some d' =>
          hact (if hal_device_are_all_addons_ready d'
                then Broadcast <$> manager_send_signal_device_added connected initialising d' else [])
      end
  end.

(** [gdl_store_changed] for a device that was removed. *)
Definition gdl_removed (id : nat) : hm unit :=
  let^ d := hget (fun h => e_heap (h_env h) !! id) in
  match d with
  | None => hcrash NoDevice
  | Some d =>
      remove_singletons id (hal_device_property_get_strlist d "info.addons.singleton") ;^
      hact [KillHelpers (udi d)] ;^
      hact (if hal_device_are_all_addons_ready d
            then Broadcast <$> manager_send_signal_device_removed connected initialising d else [])
  end.

Definition set_lists (g t : list nat) : hm unit :=
  hmod (fun h => let e := h_env h in
                 set_env (mk_env (e_heap e) g t (callouts e) (temp_device_counter e) (e_log e)) h).

Definition gdl_add (id : nat) : hm unit :=
  let^ e := hget h_env in
  match e_heap e !! id with
  | None => hcrash NoDevice
  | Some d => if has_prefix (udi d) UDI_PREFIX
              then set_lists (id :: gdl e) (tdl e) ;^ gdl_added id
              else hret tt
  end.

Definition gdl_remove (id : nat) : hm bool :=
  let^ e := hget h_env in
  if bool_decide (id ∈ gdl e)
  then set_lists (slist_remove id (gdl e)) (tdl e) ;^ gdl_removed id ;^ hret true
  else hret false.

(** The temporary list has no handlers. *)
Definition tdl_add (id : nat) : hm unit :=
  let^ e := hget h_env in
  match e_heap e !! id with
  | None => hcrash NoDevice
  | Some d => if has_prefix (udi d) UDI_PREFIX then set_lists (gdl e) (id :: tdl e) else hret tt
  end.
Definition tdl_remove (id : nat) : hm unit :=
  let^ e := hget h_env in set_lists (gdl e) (slist_remove id (tdl e)).

(** The last reference is dropped. *)
Definition free_device (id : nat) : hm unit :=
  hmod (fun h => let e := h_env h in
                 set_env (mk_env (delete id (e_heap e)) (gdl e) (tdl e) (callouts e)
                                 (temp_device_counter e) (e_log e)) h).

(** ** Creating, removing and committing devices *)

(** The microseconds of the clock make the name.  From the second round of the
    loop on [udi] points into the block: in every round that follows it is
    given to [g_free]. *)
Definition manager_new_device (tv_usec : Z) (m : DBusMessage) (local_interface : bool) : hm dbus_reply :=
  if negb local_interface && negb (privileged m)
  then hret (raise_permission_denied "NewDevice: not privileged")
  else
    let^ e := hget h_env in
    let u := "/org/freedesktop/Hal/devices/tmp" +:+ lower_hex (hex 5 (Z.land tv_usec 1048575)) in
    match find_device (fun d => udi d =s? u) (e_heap e) (tdl e) with
    | Some _ => hcrash BadFree
    | None =>
        let id := fresh_id e in
        let '(d, c) := hal_device_new (temp_device_counter e) in
        hmod (set_env (mk_env (<[id := d]> (e_heap e)) (gdl e) (tdl e) (callouts e) c (e_log e))) ;^
        dev_op id (hal_device_set_udi u) ;^
        tdl_add id ;^
        hret (MethodReturn [VString u])
    end.

Definition manager_remove_done (id : nat) : hm unit := gdl_remove id ;^ hret tt.

(** Start callouts, or call back at once when there are none. *)
Definition with_callouts (d : HalDevice) (key hald_action : string) (callback : hm unit) : hm unit :=
  match hal_device_property_dup_strlist_as_strv d key with
  | None => callback
  | Some programs => hact [Callouts (udi d) hald_action programs]
  end.

(** The device found in the temporary list is not kept. *)
Definition manager_remove (m : DBusMessage) (local_interface : bool) : hm dbus_reply :=
  if negb local_interface && negb (privileged m)
  then hret (raise_permission_denied "Remove: not privileged")
  else match get_args_s m with
       | None => hret (raise_syntax "Remove")
       | Some u =>
           let^ e := hget h_env in
           match find_device (fun d => udi d =s? u) (e_heap e) (gdl e) with
           | None => hret (raise_no_such_device u)
           | Some id =>
               match e_heap e !! id with
               | None => hcrash NoDevice
               | Some d =>
                   with_callouts d "info.callouts.remove" "remove" (manager_remove_done id) ;^
                   gdl_remove id ;^
                   (match hal_device_property_dup_strlist_as_strv d "info.callouts.remove" with
                    | None => free_device id
                    | Some _ => hret tt   (** the runner holds a reference *)
                    end) ;^
                   hret (MethodReturn [])
               end
           end
       end.

Context (stack : list ascii) (rules : cache) (depth udi_fuel : nat).

(** Rules are applied to a device; what they log is announced for devices in
    the global list. *)
Definition merge_rules (id : nat) (t : DeviceInfoType) : hm unit := fun h =>
  match di_search_and_merge stack rules depth id t (h_env h) with
  | inl f => inl (RuleFault f)
  | inr e' =>
      let log := drop (length (e_log (h_env h))) (e_log e') in
      let '(b, msgs) := announce_log (h_env h) log (h_bus h) in
      inr (tt, set_bus b (set_env e' h), Broadcast <$> msgs)
  end.

Definition manager_commit_preprobing_done (id : nat) : hm unit :=
  let^ d := hget (fun h => e_heap (h_env h) !! id) in
  match d with
  | None => hcrash NoDevice
  | Some d =>
      if hal_device_property_get_bool d "info.ignore" then
        dev_op id (hal_device_property_remove "info.category" ;;;
                   hal_device_property_remove "info.capabilities" ;;;
                   hal_device_property_set_string "info.udi" (Some "/org/freedesktop/Hal/devices/ignored-device") ;;;
                   hal_device_property_set_string "info.product" (Some "Ignored Device")) ;^ hret tt
      else
        with_callouts d "info.callouts.add" "add" (hret tt) ;^
        merge_rules id DEVICE_INFO_TYPE_INFORMATION ;^
        merge_rules id DEVICE_INFO_TYPE_POLICY
  end.

Definition in_list (e : env) (l : list nat) (u : string) : bool :=
  match find_device (fun d => udi d =s? u) (e_heap e) l with Some _ => true | None => false end.

Definition manager_commit_to_gdl (m : DBusMessage) (local_interface : bool) : hm dbus_reply :=
  if negb local_interface && negb (privileged m)
  then hret (raise_permission_denied "CommitToGdl: not privileged")
  else match get_args_ss m with
       | None => hret (raise_syntax "CommitToGdl")
       | Some (tmp_udi, udi0) =>
           let^ e := hget h_env in
           match find_device (fun d => udi d =s? tmp_udi) (e_heap e) (tdl e) with
           | None => hret (raise_no_such_device tmp_udi)
           | Some id =>
               match hal_util_make_udi_unique udi_fuel (in_list e (gdl e)) 256 udi0 with
               | None => hcrash Endless
               | Some u =>
                   if in_list e (gdl e) u then
                     tdl_remove id ;^ free_device id ;^
                     hret (raise_error "org.freedesktop.Hal.DeviceExists" ("CommitToGdl: Device exists: " +:+ u))
                   else
                     dev_op id (hal_device_property_remove "info.udi" ;;; hal_device_set_udi u) ;^
                     merge_rules id DEVICE_INFO_TYPE_PREPROBE ;^
                     let^ d := hget (fun h => e_heap (h_env h) !! id) in
                     match d with
                     | None => hcrash NoDevice
                     | Some d =>
                         with_callouts d "info.callouts.preprobe" "preprobe" (manager_commit_preprobing_done id) ;^
                         tdl_remove id ;^ gdl_add id ;^ hret (MethodReturn [])
                     end
               end
           end
       end.
End Manager.
