(* ===== verification/DbusIntrospect.v ===== *)
(** * Introspection data of the daemon ([hald/hald_dbus.c])

    The answer to the method Introspect, as XML.  In the texts a backquote
    stands for a double quote, and each text is one line. *)

From Stdlib Require Import ZArith Lia Ascii SpecFloat.
From stdpp Require Import base list gmap strings option pretty fin_maps.
From S2P Require Import Prelude CStd Property Device DeviceStore FdiRules Locks AccessCheck Bus Util Dbus.

Definition xml (s : string) : string := string_map (fun c => if decide (c = "`"%char) then "034"%char else c) s.
Definition lines (l : list string) : string := foldr (fun s r => xml s +:+ String "010" r) "" l.

Definition introspect_header : list string :=
  ["<!DOCTYPE node PUBLIC `-//freedesktop//DTD D-BUS Object Introspection 1.0//EN`";
   "`http://www.freedesktop.org/standards/dbus/1.0/introspect.dtd`>";
   "<node>";
   "  <interface name=`org.freedesktop.DBus.Introspectable`>";
   "    <method name=`Introspect`>";
   "      <arg name=`data` direction=`out` type=`s`/>";
   "    </method>";
   "  </interface>"].

Definition introspect_manager : list string :=
  ["  <interface name=`org.freedesktop.Hal.Manager`>";
   "    <method name=`GetAllDevices`>";
   "      <arg name=`devices` direction=`out` type=`as`/>";
   "    </method>";
   "    <method name=`GetAllDevicesWithProperties`>";
   "      <arg name=`devices_with_props` direction=`out` type=`a(sa{sv})`/>";
   "    </method>";
   "    <method name=`DeviceExists`>";
   "      <arg name=`does_it_exist` direction=`out` type=`b`/>";
   "      <arg name=`udi` direction=`in` type=`s`/>";
   "    </method>";
   "    <method name=`FindDeviceStringMatch`>";
   "      <arg name=`devices` direction=`out` type=`as`/>";
   "      <arg name=`key` direction=`in` type=`s`/>";
   "      <arg name=`value` direction=`in` type=`s`/>";
   "    </method>";
   "    <method name=`FindDeviceByCapability`>";
   "      <arg name=`devices` direction=`out` type=`as`/>";
   "      <arg name=`capability` direction=`in` type=`s`/>";
   "    </method>";
   "    <method name=`NewDevice`>";
   "      <arg name=`temporary_udi` direction=`out` type=`s`/>";
   "    </method>";
   "    <method name=`Remove`>";
   "      <arg name=`udi` direction=`in` type=`s`/>";
   "    </method>";
   "    <method name=`CommitToGdl`>";
   "      <arg name=`temporary_udi` direction=`in` type=`s`/>";
   "      <arg name=`global_udi` direction=`in` type=`s`/>";
   "    </method>";
   "    <method name=`AcquireGlobalInterfaceLock`>";
   "      <arg name=`interface_name` direction=`in` type=`s`/>";
   "      <arg name=`exclusive` direction=`in` type=`b`/>";
   "    </method>";
   "    <method name=`ReleaseGlobalInterfaceLock`>";
   "      <arg name=`interface_name` direction=`in` type=`s`/>";
   "    </method>";
   "    <method name=`SingletonAddonIsReady`>";
   "      <arg name=`command_line` direction=`in` type=`s`/>";
   "    </method>";
   "    <signal name=`DeviceAdded`>";
   "      <arg name=`udi` type=`s`/>";
   "    </signal>";
   "    <signal name=`DeviceRemoved`>";
   "      <arg name=`udi` type=`s`/>";
   "    </signal>";
   "    <signal name=`NewCapability`>";
   "      <arg name=`udi` type=`s`/>";
   "      <arg name=`cap_name` type=`s`/>";
   "    </signal>";
   "    <signal name=`GlobalInterfaceLockAcquired`>";
   "      <arg name=`interface_name` type=`s`/>";
   "      <arg name=`lock_holder` type=`s`/>";
   "      <arg name=`num_locks` type=`i`/>";
   "    </signal>";
   "    <signal name=`GlobalInterfaceLockReleased`>";
   "      <arg name=`interface_name` type=`s`/>";
   "      <arg name=`lock_holder` type=`s`/>";
   "      <arg name=`num_locks` type=`i`/>";
   "    </signal>";
   "  </interface>"].

Definition introspect_device : list string :=
  ["  <interface name=`org.freedesktop.Hal.Device`>";
   "    <method name=`GetAllProperties`>";
   "      <arg name=`properties` direction=`out` type=`a{sv}`/>";
   "    </method>";
   "    <method name=`SetMultipleProperties`>";
   "      <arg name=`properties` direction=`in` type=`a{sv}`/>";
   "    </method>";
   "    <method name=`GetProperty`>";
   "      <arg name=`key` direction=`in` type=`s`/>";
   "      <arg name=`value` direction=`out` type=`v`/>";
   "    </method>";
   "    <method name=`GetPropertyString`>";
   "      <arg name=`key` direction=`in` type=`s`/>";
   "      <arg name=`value` direction=`out` type=`s`/>";
   "    </method>";
   "    <method name=`GetPropertyStringList`>";
   "      <arg name=`key` direction=`in` type=`s`/>";
   "      <arg name=`value` direction=`out` type=`as`/>";
   "    </method>";
   "    <method name=`GetPropertyInteger`>";
   "      <arg name=`key` direction=`in` type=`s`/>";
   "      <arg name=`value` direction=`out` type=`i`/>";
   "    </method>";
   "    <method name=`GetPropertyBoolean`>";
   "      <arg name=`key` direction=`in` type=`s`/>";
   "      <arg name=`value` direction=`out` type=`b`/>";
   "    </method>";
   "    <method name=`GetPropertyDouble`>";
   "      <arg name=`key` direction=`in` type=`s`/>";
   "      <arg name=`value` direction=`out` type=`d`/>";
   "    </method>";
   "    <method name=`SetProperty`>";
   "      <arg name=`key` direction=`in` type=`s`/>";
   "      <arg name=`value` direction=`in` type=`v`/>";
   "    </method>";
   "    <method name=`SetPropertyString`>";
   "      <arg name=`key` direction=`in` type=`s`/>";
   "      <arg name=`value` direction=`in` type=`s`/>";
   "    </method>";
   "    <method name=`SetPropertyStringList`>";
   "      <arg name=`key` direction=`in` type=`s`/>";
   "      <arg name=`value` direction=`in` type=`as`/>";
   "    </method>";
   "    <method name=`SetPropertyInteger`>";
   "      <arg name=`key` direction=`in` type=`s`/>";
   "      <arg name=`value` direction=`in` type=`i`/>";
   "    </method>";
   "    <method name=`SetPropertyBoolean`>";
   "      <arg name=`key` direction=`in` type=`s`/>";
   "      <arg name=`value` direction=`in` type=`b`/>";
   "    </method>";
   "    <method name=`SetPropertyDouble`>";
   "      <arg name=`key` direction=`in` type=`s`/>";
   "      <arg name=`value` direction=`in` type=`d`/>";
   "    </method>";
   "    <method name=`RemoveProperty`>";
   "      <arg name=`key` direction=`in` type=`s`/>";
   "    </method>";
   "    <method name=`GetPropertyType`>";
   "      <arg name=`key` direction=`in` type=`s`/>";
   "      <arg name=`type` direction=`out` type=`i`/>";
   "    </method>";
   "    <method name=`PropertyExists`>";
   "      <arg name=`key` direction=`in` type=`s`/>";
   "      <arg name=`does_it_exist` direction=`out` type=`b`/>";
   "    </method>";
   "    <method name=`AddCapability`>";
   "      <arg name=`capability` direction=`in` type=`s`/>";
   "    </method>";
   "    <method name=`QueryCapability`>";
   "      <arg name=`capability` direction=`in` type=`s`/>";
   "      <arg name=`does_it_have_capability` direction=`out` type=`b`/>";
   "    </method>";
   "    <method name=`Lock`>";
   "      <arg name=`reason` direction=`in` type=`s`/>";
   "      <arg name=`acquired_lock` direction=`out` type=`b`/>";
   "    </method>";
   "    <method name=`Unlock`>";
   "      <arg name=`released_lock` direction=`out` type=`b`/>";
   "    </method>";
   "    <method name=`AcquireInterfaceLock`>";
   "      <arg name=`interface_name` direction=`in` type=`s`/>";
   "      <arg name=`exclusive` direction=`in` type=`b`/>";
   "    </method>";
   "    <method name=`ReleaseInterfaceLock`>";
   "      <arg name=`interface_name` direction=`in` type=`s`/>";
   "    </method>";
   "    <method name=`IsCallerLockedOut`>";
   "      <arg name=`interface_name` direction=`in` type=`s`/>";
   "      <arg name=`caller_sysbus_name` direction=`in` type=`s`/>";
   "      <arg name=`whether_caller_is_locked_out` direction=`out` type=`b`/>";
   "    </method>";
   "    <method name=`IsCallerPrivileged`>";
   "      <arg name=`action` direction=`in` type=`s`/>";
   "      <arg name=`action_parameters` type=`as`/>";
   "      <arg name=`caller_sysbus_name` direction=`in` type=`s`/>";
   "      <arg name=`result` direction=`out` type=`s`/>";
   "    </method>";
   "    <method name=`IsLockedByOthers`>";
   "      <arg name=`interface_name` direction=`in` type=`s`/>";
   "      <arg name=`whether_it_is_locked_by_others` direction=`out` type=`b`/>";
   "    </method>";
   "    <method name=`StringListAppend`>";
   "      <arg name=`key` direction=`in` type=`s`/>";
   "      <arg name=`value` direction=`in` type=`s`/>";
   "    </method>";
   "    <method name=`StringListPrepend`>";
   "      <arg name=`key` direction=`in` type=`s`/>";
   "      <arg name=`value` direction=`in` type=`s`/>";
   "    </method>";
   "    <method name=`StringListRemove`>";
   "      <arg name=`key` direction=`in` type=`s`/>";
   "      <arg name=`value` direction=`in` type=`s`/>";
   "    </method>";
   "    <method name=`EmitCondition`>";
   "      <arg name=`condition_name` direction=`in` type=`s`/>";
   "      <arg name=`condition_details` direction=`in` type=`s`/>";
   "      <arg name=`rc` direction=`out` type=`b`/>";
   "    </method>";
   "    <method name=`Rescan`>";
   "      <arg name=`call_had_sideeffect` direction=`out` type=`b`/>";
   "    </method>";
   "    <method name=`Reprobe`>";
   "      <arg name=`call_had_sideeffect` direction=`out` type=`b`/>";
   "    </method>";
   "    <method name=`ClaimInterface`>";
   "      <arg name=`interface_name` direction=`in` type=`s`/>";
   "      <arg name=`introspection_xml` direction=`in` type=`s`/>";
   "      <arg name=`rc` direction=`out` type=`b`/>";
   "    </method>";
   "    <method name=`AddonIsReady`>";
   "      <arg name=`rc` direction=`out` type=`b`/>";
   "    </method>";
   "    <signal name=`PropertyModified`>";
   "      <arg name=`num_updates` type=`i`/>";
   "      <arg name=`updates` type=`a(sbb)`/>";
   "    </signal>";
   "    <signal name=`Condition`>";
   "      <arg name=`cond_name` type=`s`/>";
   "      <arg name=`cond_details` type=`s`/>";
   "    </signal>";
   "    <signal name=`InterfaceLockAcquired`>";
   "      <arg name=`interface_name` type=`s`/>";
   "      <arg name=`lock_holder` type=`s`/>";
   "      <arg name=`num_locks` type=`i`/>";
   "    </signal>";
   "    <signal name=`InterfaceLockReleased`>";
   "      <arg name=`interface_name` type=`s`/>";
   "      <arg name=`lock_holder` type=`s`/>";
   "      <arg name=`num_locks` type=`i`/>";
   "    </signal>";
   "  </interface>"].

(** [strrchr (udi, '/') + 1] *)
Definition foreach_device_get_xml_node (d : HalDevice) (text : string) : string :=
  let name := match strrchr (udi d) "/" with Some i => str_drop (S i) (udi d) | None => udi d end in
  text +:+ xml "  <node name=`" +:+ name +:+ xml "`/>" +:+ String "010" "".

Section Introspect.
Context {P : Platform}.

(** The arguments of a method: [args] names the arguments of the signature. *)
Fixpoint method_args (sig : string) (args : list string) : string :=
  match args, sig with
  | arg :: rest, String c s =>
      if decide (c = "a"%char) then
        match s with
        | EmptyString => ""      (** a broken signature *)
        | String c' s' =>
            xml "      <arg name=`" +:+ arg +:+ xml "` direction=`in` type=`a" +:+ String c' (xml "`/>") +:+
            String "010" (method_args s' rest)
        end
      else xml "      <arg name=`" +:+ arg +:+ xml "` direction=`in` type=`" +:+ String c (xml "`/>") +:+
           String "010" (method_args s rest)
  | _, _ => ""
  end.

Fixpoint interface_methods (names sigs argnames : list string) : string :=
  match names, sigs, argnames with
  | name :: names, sig :: sigs, a :: argnames =>
      xml "    <method name=`" +:+ name +:+ xml "`>" +:+ String "010" (method_args sig (g_strsplit a " " 0)) +:+
      lines ["      <arg name=`return_code` direction=`out` type=`i`/>"; "    </method>"] +:+
      interface_methods names sigs argnames
  | _, _, _ => ""
  end.

(** The texts of the helpers that claim the interface. *)
Definition helper_xml (helpers : list HelperInterfaceHandler) (path ifname : string) : string :=
  foldr (fun hih r => (if (hih_udi hih =s? path) && (hih_interface_name hih =s? ifname)
                       then hih_introspection_xml hih else "") +:+ r) "" helpers.

Definition introspect_interface (helpers : list HelperInterfaceHandler) (d : HalDevice) (path ifname : string) : string :=
  xml "  <interface name=`" +:+ ifname +:+ xml "`>" +:+ String "010" (helper_xml helpers path ifname) +:+
  interface_methods (hal_device_property_strlist_iter_init d (ifname +:+ ".method_names"))
                    (hal_device_property_strlist_iter_init d (ifname +:+ ".method_signatures"))
                    (hal_device_property_strlist_iter_init d (ifname +:+ ".method_argnames")) +:+
  lines ["  </interface>"].

Definition do_introspect (m : DBusMessage) : hm dbus_reply :=
  let path := m_path m in
  let answer text := hret (MethodReturn [VString (lines introspect_header +:+ text +:+ lines ["</node>"])]) in
  if path =s? "/" then answer (lines ["  <node name=`org`/>"])
  else if path =s? "/org" then answer (lines ["  <node name=`freedesktop`/>"])
  else if path =s? "/org/freedesktop" then answer (lines ["  <node name=`Hal`/>"])
  else if path =s? "/org/freedesktop/Hal"
  then answer (lines ["  <node name=`Manager`/>"; "  <node name=`devices`/>"])
  else if path =s? "/org/freedesktop/Hal/devices" then
    let^ e := hget h_env in answer (foreach_device e (gdl e) foreach_device_get_xml_node "")
  else if path =s? "/org/freedesktop/Hal/Manager" then answer (lines introspect_manager)
  else
    let^ found := find_device_object path in
    match found with
    | None => hret (raise_no_such_device path)
    | Some (_, d) =>
        let^ helpers := hget helper_interface_handlers in
        answer (lines introspect_device +:+
                foldr (fun ifname r => introspect_interface helpers d path ifname +:+ r) ""
                  (hal_device_property_strlist_iter_init d "info.interfaces"))
    end.
End Introspect.
