(* ===== verification/DbusDispatch.v ===== *)
(** * Method calls on devices and the dispatcher ([hald/hald_dbus.c])

    Programs that implement methods of a device are run one at a time per
    device; further calls wait in a queue.  The dispatcher
    ([hald_dbus_filter_handle_methods]) chooses the method for a message. *)

From Stdlib Require Import ZArith Lia Ascii SpecFloat.
From stdpp Require Import base list gmap strings option pretty fin_maps.
From S2P Require Import Prelude CStd Property Device DeviceStore FdiRules FdiInterp Locks AccessCheck Bus Util Dbus DbusManager DbusIntrospect.

(** ** The queue of method calls *)
Definition hald_exec_method_do_invocation (mi : MethodInvocation) : hm bool :=
  let^ found := find_device_object (mi_udi mi) in
  match found with
  | Some (_, d) => hact [RunMethod (udi d) (mi_execpath mi) (mi_extra_env mi) (mi_stdin mi)] ;^ hret true
  | None => hact [Answer (mi_connection mi) (mi_message mi) (raise_no_such_device (mi_udi mi))] ;^ hret false
  end.

(** The comparison with the method at the head has no effect on the result. *)
Definition device_is_executing_method (h : hald) (u interface_name method_name : string) : bool :=
  match h_queue h !! u with
  | Some (mi :: _) =>
      let ret := (mi_interface mi =s? interface_name) && (mi_member mi =s? method_name) in
      ret || true
  | Some [] => true
  | None => false
  end.

Definition hald_exec_method_enqueue (mi : MethodInvocation) : hm unit :=
  let^ queue := hget (fun h => h_queue h !! mi_udi mi) in
  match queue with
  | Some queue => hmod (set_queue <[mi_udi mi := queue ++ [mi]]>)
  | None =>
      hmod (set_queue <[mi_udi mi := [mi]]>) ;^
      hald_exec_method_do_invocation mi ;^ hret tt
  end.

(** An [Unmount] of a volume has ended. *)
Definition refresh_mount_state (mi : MethodInvocation) : hm unit :=
  if (mi_interface mi =s? "org.freedesktop.Hal.Device.Volume") && (mi_member mi =s? "Unmount") then
    let^ found := find_device_object (mi_udi mi) in
    match found with
    | Some (_, d) => hact [RefreshMountState (udi d)]
    | None => hret tt
    end
  else hret tt.

(** [borrowed]: the UDI is the string of the invocation at the head of the
    queue, which is freed before the UDI is used again. *)
Fixpoint process_queue (borrowed : bool) (u : string) (queue : list MethodInvocation) : hm unit :=
  match queue with
  | [] => hret tt
  | mi :: rest =>
      (match rest with [] => hmod (set_queue (delete u)) | _ => hret tt end) ;^
      refresh_mount_state mi ;^
      match rest with
      | [] => hret tt
      | next :: _ =>
          if borrowed then hcrash ReadAfterFree
          else
            hmod (set_queue <[u := rest]>) ;^
            let^ ok := hald_exec_method_do_invocation next in
            if ok then hret tt else process_queue true (mi_udi next) rest
      end
  end.

Definition hald_exec_method_process_queue (u : string) : hm unit :=
  let^ queue := hget (fun h => h_queue h !! u) in
  match queue with
  | Some queue => process_queue false u queue
  | None => hret tt
  end.

(** How the program ended: [success] is [HALD_RUN_SUCCESS]; [error] are the first
    two lines it printed, when there are two. *)
Definition method_reply (success : bool) (return_code : Z) (error : option (string * string)) : dbus_reply :=
  if negb success then ErrorReply "org.freedesktop.Hal.Device.UnknownError" "An unknown error occured"
  else match error with
       | Some (exp_name, exp_detail) =>
           if is_valid_interface_name exp_name then ErrorReply exp_name exp_detail
           else ErrorReply "org.freedesktop.Hal.Device.UnknownError"
                  (exp_name +:+ String " " (String "010" (String " " exp_detail)))
       | None => MethodReturn [VInt32 (s32 return_code)]
       end.

Definition hald_exec_method_cb (u : string) (success : bool) (return_code : Z)
    (error : option (string * string)) (connection : nat) (m : DBusMessage) : hm unit :=
  hald_exec_method_process_queue u ;^
  hact [Answer connection m (method_reply success return_code error)].

(** ** Preparing a call *)
Section Exec.
Context (cfg : configuration) (printf_g : double -> string) (g_basename : string -> string).
(** What ConsoleKit support knows of a caller besides [CICallerInfo]. *)
Context (ci_pid : string -> Z) (ci_selinux_context : string -> option string).

(** [sprintf] into 256 bytes. *)
Definition sprintf_256 (s : string) : option string := if decide (String.length s < 256)%nat then Some s else None.

(** The environment; [None] when a buffer overflows. *)
Definition method_environment (caller : option (CICallerInfo * string)) : option (list string) :=
  match caller with
  | None => Some ["HAL_METHOD_INVOKED_BY_UID=0"]
  | Some (ci, sender) =>
      uid_export ← sprintf_256 ("HAL_METHOD_INVOKED_BY_UID=" +:+ pretty (u32 (ci_uid ci)));
      let sender_export := snprintf 256 ("HAL_METHOD_INVOKED_BY_SYSTEMBUS_CONNECTION_NAME=" +:+ sender) in
      match cfg with
      | NoConsoleKit => Some [uid_export; sender_export]
      | _ =>
          pid_export ← sprintf_256 ("HAL_METHOD_INVOKED_BY_PID=" +:+ pretty (u32 (ci_pid sender)));
          selinux ← (match ci_selinux_context sender with
                     | Some c => s ← sprintf_256 ("HAL_METHOD_INVOKED_BY_SELINUX_CONTEXT=" +:+ c); Some [s]
                     | None => Some []
                     end);
          session ← (match ci_ck_session_path ci with
                     | Some p => s ← sprintf_256 ("HAL_METHOD_INVOKED_BY_SESSION=" +:+ g_basename p); Some [s]
                     | None => Some []
                     end);
          Some ([uid_export; sender_export; pid_export] ++ selinux ++ session)
      end
  end.

(** The text of one argument; [None] for a type that is not supported. *)
Definition argument_text (v : dbus_value) : option string :=
  match v with
  | VByte z | VInt16 z | VUint16 z | VInt32 z | VUint32 z | VInt64 z | VUint64 z => Some (pretty z)
  | VDouble d => Some (printf_g d)
  | VBoolean b => Some (if b then "true" else "false")
  | VString s => Some s
  | VStrings l => Some (foldr (fun x s => x +:+ String "009" s) "" l)
  | VDict _ | VDevices _ | VChanges _ | VOther _ => None
  end.

Fixpoint stdin_text (args : list dbus_value) : option string :=
  match args with
  | [] => Some ""
  | v :: rest => t ← argument_text v; r ← stdin_text rest; Some (t +:+ String "010" r)
  end.

(** What the dispatcher reports to libdbus. *)
Inductive hresult :=
  | Replied (r : dbus_reply)
  | NoReply          (** handled, the reply comes later or never *)
  | NotHandled.

(** [caller] is [None] for a helper. *)
Definition hald_exec_method (d : HalDevice) (caller : option (CICallerInfo * string)) (connection : nat)
    (m : DBusMessage) (execpath : string) : hm hresult :=
  match method_environment caller with
  | None => hcrash (RuleFault BufferOverrun)
  | Some extra_env =>
      match stdin_text (m_args m) with
      | None => hret NotHandled
      | Some mstdin =>
          hald_exec_method_enqueue
            (mk_invocation (udi d) execpath extra_env mstdin (m_member m) (default "" (m_interface m)) m connection) ;^
          hret NoReply
      end
  end.

(** ** Which program implements a method *)
Fixpoint find_method (d : HalDevice) (interface method signature : string) (names : list string) (num : nat)
  : option string :=
  match names with
  | [] => None
  | methodname :: rest =>
      if methodname =s? method then
        match hal_device_property_get_strlist_elem d (interface +:+ ".method_execpaths") num,
              hal_device_property_get_strlist_elem d (interface +:+ ".method_signatures") num with
        | Some execpath, Some sig =>
            if sig =s? signature then Some execpath else find_method d interface method signature rest (S num)
        | _, _ => find_method d interface method signature rest (S num)
        end
      else find_method d interface method signature rest (S num)
  end.

Fixpoint find_program (d : HalDevice) (interface method signature : string) (interfaces : list string)
  : option string :=
  match interfaces with
  | [] => None
  | ifname :: rest =>
      if ifname =s? interface then
        match find_method d interface method signature
                (hal_device_property_strlist_iter_init d (interface +:+ ".method_names")) 0 with
        | Some execpath => Some execpath
        | None => find_program d interface method signature rest
        end
      else find_program d interface method signature rest
  end.
End Exec.

(** ** The dispatcher *)
Section Dispatch.
Context {P : Platform}.
Context (cfg : configuration) (ci_tracker_get_info : string -> option CICallerInfo) (geteuid : Z).
Context (connected initialising : bool) (property_order : HalDevice -> list string).
Context (osspec_device_rescan osspec_device_reprobe : nat -> hm bool).
Context (osspec_filter_function : DBusMessage -> hm hresult).
Context (hald_runner_start hald_runner_start_singleton : string -> bool).
Context (stack : list ascii) (rules : cache) (depth udi_fuel : nat) (tv_usec : Z).
Context (printf_g : double -> string) (g_basename : string -> string).
Context (ci_pid : string -> Z) (ci_selinux_context : string -> option string).
(** PolicyKit's answer as a string; [None] when there is none. *)
Context (polkit_result : HalDevice -> string -> string -> option string).

(** [IsCallerPrivileged]. *)
Definition device_is_caller_privileged (m : DBusMessage) (local_interface : bool) : hm dbus_reply :=
  match cfg with
  | PolicyKit _ =>
      let^ found := find_device_object (m_path m) in
      match found with
      | None => hret (raise_no_such_device (m_path m))
      | Some (_, d) =>
          match m_args m with
          | [VString action; VString caller] =>
              let answer :=
                match polkit_result d action caller with
                | None => hret (raise_error "org.freedesktop.Hal.Error"
                                  "Could not determine whether caller is privileged")
                | Some r => hret (MethodReturn [VString r])
                end in
              if negb local_interface && negb (privileged ci_tracker_get_info geteuid m) then
                match m_sender m ≫= ci_tracker_get_info with
                | None => hret (raise_error "org.freedesktop.Hal.Error" "Could not determine caller info for sender")
                | Some ci_sender =>
                    match ci_tracker_get_info caller with
                    | None => hret (raise_error "org.freedesktop.Hal.Error" "Could not determine caller info for target")
                    | Some ci_target =>
                        if negb (ci_uid ci_sender =? ci_uid ci_target)
                        then hret (raise_permission_denied "IsCallerPrivileged: not privileged/authorized to know")
                        else answer
                    end
                end
              else answer
          | _ => hret (raise_syntax "IsCallerPrivileged")
          end
      end
  | _ => hret (raise_error "org.freedesktop.Hal.Device.Error" "HAL is not built with PolicyKit support")
  end.

Definition replied (r : hm dbus_reply) : hm hresult := let^ x := r in hret (Replied x).

(** A lock method called by a helper has no name to lock with. *)
Definition with_sender (m : DBusMessage) (f : string -> hm dbus_reply) : hm dbus_reply :=
  match m_sender m with Some s => f s | None => hcrash NullString end.

(** The holders of an interface lock, on the device and on the computer. *)
Definition lock_is_held (e : env) (d : HalDevice) (interface : string) : bool :=
  match find_by_udi e COMPUTER with
  | None => false
  | Some (_, computer) =>
      negb (bool_decide (default [] (hal_device_get_lock_holders d interface) = [])) ||
      negb (bool_decide (default [] (hal_device_get_lock_holders computer ("Global." +:+ interface)) = []))
  end.

(** [access_check_caller_locked_out]; a helper has no name: comparing the
    holders with it fails when there are any. *)
Definition caller_locked_out (d : HalDevice) (caller : option string) (interface : string) : hm bool :=
  let^ e := hget h_env in
  match caller with
  | Some c => hret (access_check_caller_locked_out cfg ci_tracker_get_info geteuid e d c interface)
  | None => if lock_is_held e d interface then hcrash NullString
            else hret (match find_by_udi e COMPUTER with None => true | Some _ => false end)
  end.

(** Methods of device-specific interfaces. *)
Definition other_method (connection : nat) (m : DBusMessage) (local_interface : bool) : hm hresult :=
  match m_interface m with
  | None => osspec_filter_function m
  | Some interface =>
      let run (caller : option (CICallerInfo * string)) : hm hresult :=
        let^ found := find_device_object (m_path m) in
        match found with
        | None => osspec_filter_function m
        | Some (_, d) =>
            let^ out := caller_locked_out d (m_sender m) interface in
            if out then hret (Replied (raise_interface_locked interface))
            else
              let^ helpers := hget helper_interface_handlers in
              match list_find (fun hih => hih_udi hih = m_path m /\ hih_interface_name hih = interface) helpers with
              | Some (_, hih) => hact [Forward (hih_connection hih) m] ;^ hret NoReply
              | None =>
                  match find_program d interface (m_member m) (dbus_message_get_signature m)
                          (hal_device_property_strlist_iter_init d "info.interfaces") with
                  | Some execpath =>
                      hald_exec_method cfg printf_g g_basename ci_pid ci_selinux_context d caller connection m execpath
                  | None => osspec_filter_function m
                  end
              end
        end in
      if local_interface then run None
      else match m_sender m with
           | None => osspec_filter_function m
           | Some caller => match ci_tracker_get_info caller with
                            | None => osspec_filter_function m
                            | Some ci => run (Some (ci, caller))
                            end
           end
  end.

Definition MANAGER : string := "org.freedesktop.Hal.Manager".
Definition DEVICE : string := "org.freedesktop.Hal.Device".

(** The methods of the manager object. *)
Definition manager_method (connection : nat) (m : DBusMessage) (local_interface : bool) : option (hm hresult) :=
  if negb (m_path m =s? "/org/freedesktop/Hal/Manager") then None
  else
    let call := dbus_message_is_method_call m MANAGER in
    if call "GetAllDevices" then Some (replied manager_get_all_devices)
    else if call "GetAllDevicesWithProperties"
    then Some (replied (manager_get_all_devices_with_properties property_order))
    else if call "DeviceExists" then Some (replied (manager_device_exists m))
    else if call "FindDeviceStringMatch" then Some (replied (manager_find_device_string_match m))
    else if call "FindDeviceByCapability" then Some (replied (manager_find_device_by_capability m))
    else if call "NewDevice"
    then Some (replied (manager_new_device ci_tracker_get_info geteuid connected initialising tv_usec m local_interface))
    else if call "Remove"
    then Some (replied (manager_remove ci_tracker_get_info geteuid connected initialising property_order m local_interface))
    else if call "CommitToGdl"
    then Some (replied (manager_commit_to_gdl ci_tracker_get_info geteuid connected initialising property_order
                 hald_runner_start hald_runner_start_singleton stack rules depth udi_fuel m local_interface))
    else if call "AcquireGlobalInterfaceLock"
    then Some (replied (with_sender m (fun s =>
           core_op connected initialising (device_acquire_global_interface_lock (get_args_sb m) s))))
    else if call "ReleaseGlobalInterfaceLock"
    then Some (replied (with_sender m (fun s =>
           core_op connected initialising (device_release_global_interface_lock (get_args_s m) s))))
    else if call "SingletonAddonIsReady"
    then Some (let^ r := singleton_addon_is_ready property_order connection m local_interface in
               hret (match r with Some x => Replied x | None => NoReply end))
    else None.

(** The methods of devices. *)
Definition device_method (connection : nat) (m : DBusMessage) (local_interface : bool) : option (hm hresult) :=
  let call := dbus_message_is_method_call m DEVICE in
  if call "AcquireInterfaceLock"
  then Some (replied (with_sender m (fun s =>
         core_op connected initialising
           (device_acquire_interface_lock cfg ci_tracker_get_info geteuid (m_path m) (get_args_sb m) s local_interface))))
  else if call "ReleaseInterfaceLock"
  then Some (replied (with_sender m (fun s =>
         core_op connected initialising (device_release_interface_lock (m_path m) (get_args_s m) s))))
  else if call "IsCallerLockedOut"
  then Some (replied (core_op connected initialising
         (device_is_caller_locked_out cfg ci_tracker_get_info geteuid (m_path m) (get_args_ss m) (m_sender m) local_interface)))
  else if call "IsCallerPrivileged" then Some (replied (device_is_caller_privileged m local_interface))
  else if call "IsLockedByOthers"
  then Some (replied (core_op connected initialising
         (device_is_locked_by_others cfg ci_tracker_get_info geteuid (m_path m) (get_args_s m) (m_sender m))))
  else if call "GetAllProperties" then Some (replied (device_get_all_properties property_order m))
  else if call "SetMultipleProperties"
  then Some (replied (device_set_multiple_properties ci_tracker_get_info geteuid connected initialising m local_interface))
  else if existsb call ["GetProperty"; "GetPropertyString"; "GetPropertyStringList"; "GetPropertyInteger";
                      "GetPropertyBoolean"; "GetPropertyDouble"]
  then Some (replied (device_get_property m))
  else if existsb call ["SetProperty"; "SetPropertyString"; "SetPropertyInteger"; "SetPropertyBoolean";
                      "SetPropertyDouble"]
  then Some (replied (device_set_property ci_tracker_get_info geteuid connected initialising m local_interface))
  else if call "RemoveProperty"
  then Some (replied (device_remove_property ci_tracker_get_info geteuid connected initialising m local_interface))
  else if call "GetPropertyType" then Some (replied (device_get_property_type m))
  else if call "PropertyExists" then Some (replied (device_property_exists m))
  else if call "AddCapability"
  then Some (replied (device_add_capability ci_tracker_get_info geteuid connected initialising m local_interface))
  else if call "QueryCapability" then Some (replied (device_query_capability m))
  else if call "Lock" then Some (replied (device_lock connected initialising m))
  else if call "Unlock" then Some (replied (device_unlock connected initialising m))
  else if call "StringListAppend"
  then Some (replied (device_string_list_append_prepend connected initialising m false))
  else if call "StringListPrepend"
  then Some (replied (device_string_list_append_prepend connected initialising m true))
  else if call "StringListRemove" then Some (replied (device_string_list_remove connected initialising m))
  else if call "Rescan"
  then Some (replied (device_rescan ci_tracker_get_info geteuid osspec_device_rescan m local_interface))
  else if call "Reprobe"
  then Some (replied (device_reprobe ci_tracker_get_info geteuid osspec_device_reprobe m local_interface))
  else if call "EmitCondition" then Some (replied (device_emit_condition connected initialising m local_interface))
  else if call "ClaimInterface"
  then Some (replied (device_claim_interface connected initialising connection m local_interface))
  else if call "AddonIsReady" then Some (replied (addon_is_ready connected initialising m local_interface))
  else None.

Definition hald_dbus_filter_handle_methods (connection : nat) (m : DBusMessage) (local_interface : bool)
  : hm hresult :=
  match manager_method connection m local_interface with
  | Some r => r
  | None =>
      match device_method connection m local_interface with
      | Some r => r
      | None =>
          if dbus_message_is_method_call m "org.freedesktop.DBus.Introspectable" "Introspect"
          then replied (do_introspect m)
          else other_method connection m local_interface
      end
  end.

(** ** A helper's connection is closed

    Its claimed interfaces and its singletons go. *)
Definition local_server_disconnected (connection : nat) : hm unit :=
  hmod (set_helpers (filter (fun hih => hih_connection hih <> connection))) ;^
  singletons_remove_by_connection connection.

End Dispatch.

(** ** Session changes

    Callouts for changes of sessions run one at a time. *)
Record SessionChangesEntry := mk_session_change { sce_device : nat; sce_programs : list string; sce_env : list string }.
Record session_queue := mk_session_queue { session_changes_queue : list SessionChangesEntry; session_changes_is_running : bool }.

(** The entry whose callouts are started. *)
Definition session_changes_process_queue (q : session_queue) : option SessionChangesEntry * session_queue :=
  match session_changes_queue q with
  | [] => (None, q)
  | entry :: rest =>
      if session_changes_is_running q then (None, q)
      else (Some entry, mk_session_queue rest true)
  end.
Definition session_changes_push (entry : SessionChangesEntry) (q : session_queue)
  : option SessionChangesEntry * session_queue :=
  session_changes_process_queue (mk_session_queue (session_changes_queue q ++ [entry]) (session_changes_is_running q)).
Definition session_changes_done_cb (q : session_queue) : option SessionChangesEntry * session_queue :=
  session_changes_process_queue (mk_session_queue (session_changes_queue q) false).
