(* ===== verification/DbusTheory.v ===== *)
(** * Reasoning about D-Bus methods ([hald/hald_dbus.c])

    What an operation on a device does to the state of the daemon, and which
    method the dispatcher chooses. *)

From Stdlib Require Import ZArith Lia Ascii SpecFloat.
From stdpp Require Import base list gmap strings option pretty fin_maps.
From S2P Require Import Prelude CStd Property Device DeviceTheory DeviceStore FdiRules FdiInterp Locks AccessCheck AccessClaims Bus BusClaims Util Dbus DbusManager DbusDispatch.

(** ** Computations *)
Lemma hbind_run {A B} (m : hm A) (k : A -> hm B) h a h1 t1 b h2 t2 :
  m h = inr (a, h1, t1) -> k a h1 = inr (b, h2, t2) -> hbind m k h = inr (b, h2, t1 ++ t2).
Proof. unfold hbind. by intros -> ->. Qed.

Lemma hbind_get {A B} (f : hald -> A) (k : A -> hm B) h : hbind (hget f) k h = k (f h) h.
Proof. unfold hbind, hget. by destruct (k (f h) h) as [?|[[? ?] ?]]. Qed.

Lemma hbind_mod {B} f (k : unit -> hm B) h : hbind (hmod f) k h = k tt (f h).
Proof. unfold hbind, hmod. by destruct (k tt (f h)) as [?|[[? ?] ?]]. Qed.

Lemma hbind_ret {A B} (a : A) (k : A -> hm B) h : hbind (hret a) k h = k a h.
Proof. unfold hbind, hret. by destruct (k a h) as [?|[[? ?] ?]]. Qed.

Lemma hbind_assoc {A B C} (m : hm A) (k : A -> hm B) (l : B -> hm C) h :
  hbind (hbind m k) l h = hbind m (fun a => hbind (k a) l) h.
Proof.
  unfold hbind. destruct (m h) as [?|[[a h1] t1]]; [done|].
  destruct (k a h1) as [?|[[b h2] t2]]; [done|].
  destruct (l b h2) as [?|[[c h3] t3]]; [done|]. by rewrite app_assoc.
Qed.

Lemma replied_run r h x h' t : r h = inr (x, h', t) -> replied r h = inr (Replied x, h', t).
Proof. intros H. unfold replied, hbind. rewrite H. simpl. by rewrite app_nil_r. Qed.

Create Rewrite HintDb hm.
#[export] Hint Rewrite @hbind_get @hbind_mod @hbind_ret @hbind_assoc : hm.

(** ** Operations on devices *)

(** The state in which a device was replaced. *)
Definition env_after {A} (e : env) (id : nat) (r : A * HalDevice * list emission) : env :=
  mk_env (<[id := dev_of r]> (e_heap e)) (gdl e) (tdl e) (callouts e) (temp_device_counter e)
         (e_log e ++ ((fun x => (id, x)) <$> trace r)).

(** The tables beside the devices are as before. *)
Definition same_tables (h h' : hald) : Prop :=
  services_with_locks h' = services_with_locks h /\
  helper_interface_handlers h' = helper_interface_handlers h /\
  singletons h' = singletons h /\ h_queue h' = h_queue h.

Section Ops.
Context (connected initialising : bool).

Lemma dev_op_run {A} id (m : dev A) h d :
  e_heap (h_env h) !! id = Some d ->
  exists b t, dev_op connected initialising id m h =
    inr (res (m d), set_bus b (set_env (env_after (h_env h) id (m d)) h), Broadcast <$> t) /\
    (b, t) = (if bool_decide (id ∈ gdl (h_env h))
              then announce_all connected initialising (h_env h) id (trace (m d)) (h_bus h)
              else (h_bus h, [])).
Proof.
  intros Hd. unfold dev_op, on_device. rewrite Hd. simpl.
  destruct (if bool_decide _ then _ else _) as [b t] eqn:E. exists b, t. done.
Qed.

Lemma find_env_after {A} e id d (r : A * HalDevice * list emission) u :
  find_by_udi e u = Some (id, d) -> udi (dev_of r) = udi d ->
  find_by_udi (env_after e id r) u = Some (id, dev_of r).
Proof.
  intros Hf Hu. apply find_by_udi_heap in Hf as [He Hd]. unfold find_by_udi.
  rewrite (find_after e (env_after e id r) id d (dev_of r)) by done.
  rewrite He. simpl. by rewrite lookup_insert_eq.
Qed.

(** An operation on a device that was found under a UDI and keeps it. *)
Lemma found_op_run {A} (m : dev A) h u id d :
  find_by_udi (h_env h) u = Some (id, d) -> udi (dev_of (m d)) = udi d ->
  exists h' t, dev_op connected initialising id m h = inr (res (m d), h', t) /\
    find_by_udi (h_env h') u = Some (id, dev_of (m d)) /\
    h_env h' = env_after (h_env h) id (m d) /\ same_tables h h'.
Proof.
  intros Hf Hu. destruct (find_by_udi_heap _ _ _ _ Hf) as [_ Hd].
  destruct (dev_op_run id m h d Hd) as (b & t & -> & _). eexists _, _.
  split; [done|]. split; [by apply (find_env_after _ _ d)|]. done.
Qed.

(** Any other device is found as before. *)
Lemma find_other_after {A} e id d (r : A * HalDevice * list emission) u id' d' :
  e_heap e !! id = Some d -> udi (dev_of r) = udi d -> find_by_udi e u = Some (id', d') -> id' <> id ->
  find_by_udi (env_after e id r) u = Some (id', d').
Proof.
  intros Hd Hu Hf Hn. apply find_by_udi_heap in Hf as [He Hd']. unfold find_by_udi.
  rewrite (find_after e (env_after e id r) id d (dev_of r)) by done.
  rewrite He. simpl. rewrite lookup_insert_ne by congruence. by rewrite Hd'.
Qed.

(** Without signals nothing is sent. *)
Lemma dev_op_silent {A} id (m : dev A) h d :
  e_heap (h_env h) !! id = Some d -> m d = (res (m d), d, []) ->
  dev_op connected initialising id m h = inr (res (m d), h, []).
Proof.
  intros Hd Hm. destruct (dev_op_run id m h d Hd) as (b & t & -> & E).
  assert (dev_of (m d) = d) as H1 by by rewrite Hm.
  assert (trace (m d) = []) as H2 by by rewrite Hm.
  unfold env_after in *. rewrite H1, H2 in *. simpl in E.
  assert ((b, t) = (h_bus h, [])) as [= -> ->] by by destruct (bool_decide _).
  f_equal. f_equal. f_equal. rewrite app_nil_r, insert_id by done.
  destruct h as [[e l] ? ? ? ? ?], e. done.
Qed.
End Ops.

Lemma find_device_some p h l id : find_device p h l = Some id -> exists d, h !! id = Some d /\ p d = true /\ id ∈ l.
Proof.
  induction l as [|i l IH]; simpl; [done|].
  destruct (h !! i) as [d|] eqn:E; [destruct (p d) eqn:Ep|]; intros H.
  - injection H as <-. exists d. split; [done|]. split; [done|]. apply list_elem_of_here.
  - destruct (IH H) as (d' & ? & ? & ?). exists d'. auto using list_elem_of_further.
  - destruct (IH H) as (d' & ? & ? & ?). exists d'. auto using list_elem_of_further.
Qed.

Lemma find_by_udi_name e u id d : find_by_udi e u = Some (id, d) -> udi d = u.
Proof.
  intros Hf. apply find_by_udi_heap in Hf as [He Hd]. unfold env_find in He.
  destruct (find_device _ _ (gdl e)) as [i|] eqn:E; [injection He as ->|];
    [apply find_device_some in E as (d' & Hd' & Hu & _) | apply find_device_some in He as (d' & Hd' & Hu & _)];
    bool_hyps; by simplify_eq.
Qed.

(** ** Which method is called *)
Definition device_call (method : string) (m : DBusMessage) : Prop :=
  m_interface m = Some DEVICE /\ m_member m = method.
Definition manager_call (method : string) (m : DBusMessage) : Prop :=
  m_path m = "/org/freedesktop/Hal/Manager" /\ m_interface m = Some MANAGER /\ m_member m = method.

(** Evaluate the tests of the dispatcher for a message with a known interface
    and member. *)
Ltac which_method :=
  repeat match goal with
  | |- context [dbus_message_is_method_call ?m ?i ?n] =>
      let r := eval vm_compute in (dbus_message_is_method_call m i n) in
      change (dbus_message_is_method_call m i n) with r
  end.
Lemma if_none {A} (b : bool) : (if b then None else None) = None :> option A.
Proof. by destruct b. Qed.
Ltac dispatch_call :=
  unfold hald_dbus_filter_handle_methods, manager_method, device_method, existsb;
  which_method; cbv iota beta match;
  rewrite ?if_none; cbv iota beta match.

(** The goal is a message on the bus, the run of its method is known. *)
Ltac by_dispatch m Hi Hm :=
  destruct m as [? ? ? ? ?]; cbn [m_interface m_member] in Hi, Hm;
  rewrite Hi, Hm in *; dispatch_call; by apply replied_run.

(** ** A daemon to evaluate the methods on

    Two devices; the connection ":1.0" belongs to root, ":1.7" to a user. *)
Module Example.
Import AsciiPlatform.

Definition computer : HalDevice := mk_device COMPUTER 0 0 ∅.
Definition VOLUME : string := "/org/freedesktop/Hal/devices/volume".
Definition volume : HalDevice :=
  mk_device VOLUME 0 0
    (<["info.capabilities" := PStrlist ["block"; "volume"]]>
       (<["volume.label" := PString "DATA"]> (<["volume.size" := PUint64 4096]> ∅))).
Definition callers (name : string) : option CICallerInfo :=
  if name =s? ":1.0" then Some (mk_caller 0 None true true)
  else if name =s? ":1.7" then Some (mk_caller 1000 None true true)
  else None.
Definition order (d : HalDevice) : list string := (map_to_list (props d)).*1.
Definition start : hald :=
  mk_hald (mk_daemon (mk_env {[ 0%nat := computer; 1%nat := volume ]} [1; 0]%nat [] [] 0 []) [])
          (mk_bus 0 0 []) ∅ [] ∅ ∅.
Definition no_rules : cache := mk_cache (mk_header 0 0 0 0) ∅.

Definition dispatch : nat -> DBusMessage -> bool -> hm hresult :=
  hald_dbus_filter_handle_methods NoConsoleKit callers 0 true false order
    (fun _ => hret true) (fun _ => hret true) (fun _ => hret NotHandled) (fun _ => true) (fun _ => true)
    [] no_rules 1 10 0 (fun _ => "") (fun s => s) (fun _ => 0) (fun _ => None) (fun _ _ _ => None).

Definition call (member sender : string) (args : list dbus_value) : DBusMessage :=
  mk_message VOLUME (Some DEVICE) member (Some sender) args.
End Example.
