(* ===== verification/DbusClaims.v ===== *)
(** * What the D-Bus methods promise ([hald/hald_dbus.c])

    Who may change devices, which devices a search returns, advisory locks,
    the queue of method calls, and singleton add-ons. *)

From Stdlib Require Import ZArith Lia Ascii SpecFloat.
From stdpp Require Import base list gmap strings option pretty fin_maps.
From S2P Require Import Prelude CStd Property Device DeviceTheory DeviceStore FdiRules FdiInterp Locks AccessCheck AccessClaims Bus BusClaims Util Dbus DbusManager DbusIntrospect DbusDispatch DbusTheory.

(** The methods for privileged clients and for helpers. *)
Definition device_protected : list string :=
  ["SetProperty"; "SetPropertyString"; "SetPropertyInteger"; "SetPropertyBoolean"; "SetPropertyDouble";
   "SetMultipleProperties"; "RemoveProperty"; "AddCapability"; "Rescan"; "Reprobe"; "EmitCondition";
   "ClaimInterface"; "AddonIsReady"].
Definition manager_protected : list string :=
  ["NewDevice"; "Remove"; "CommitToGdl"; "SingletonAddonIsReady"].

(** ** Searches *)

(** The devices of a list, in its order. *)
Definition devices_in (e : env) (l : list nat) : list HalDevice := omap (fun id => e_heap e !! id) l.

Lemma foreach_collects {A} (f : HalDevice -> A) (Q : HalDevice -> Prop) `{forall d, Decision (Q d)} e l
    (callback : HalDevice -> list A -> list A) iter :
  (forall d it, callback d it = if decide (Q d) then it ++ [f d] else it) ->
  foreach_device e l callback iter = iter ++ (f <$> filter Q (devices_in e l)).
Proof.
  intros Hc. unfold foreach_device, devices_in. revert iter.
  induction l as [|id l IH]; intros iter; simpl; [by rewrite app_nil_r|].
  destruct (e_heap e !! id) as [d|] eqn:E; simpl; rewrite ?E; simpl; [|apply IH].
  rewrite IH, Hc, filter_cons. destruct (decide (Q d)); simpl; [by rewrite <- app_assoc | done].
Qed.

Lemma filter_true {A} (l : list A) : filter (fun _ => True) l = l.
Proof. induction l as [|x l IH]; [done|]. rewrite filter_cons, IH. done. Qed.

Lemma matches_string_iff key value d :
  matches_string key value d = true <-> props d !! key = Some (PString value).
Proof.
  unfold matches_string, hal_device_property_get_type, hal_device_property_get_string, hal_device_property_find.
  destruct (props d !! key) as [[]|]; simpl; try (split; discriminate).
  case_bool_decide; naive_solver.
Qed.

(** The temporary devices that FindDeviceStringMatch looks at. *)
Definition not_named_temp (d : HalDevice) : Prop := udi d <> "/org/freedesktop/Hal/devices/temp".
#[global] Instance not_named_temp_dec d : Decision (not_named_temp d) := ltac:(unfold not_named_temp; apply _).

Lemma has_capability_iff c d :
  hal_device_has_capability d c = true <-> c ∈ hal_device_property_get_strlist d "info.capabilities".
Proof.
  unfold hal_device_has_capability. rewrite existsb_exists, list_elem_of_In.
  split; [intros (x & Hx & ->%bool_decide_eq_true); done | intros H; exists c; by rewrite bool_decide_eq_true_2].
Qed.

(** ** Introspection *)

(** The method a line of the introspection data declares. *)
Definition declared (line : string) : option string :=
  let start := "    <method name=`" in
  if has_prefix line start
  then Some (str_take (String.length line - String.length start - 2) (str_drop (String.length start) line))
  else None.

Definition device_methods : list string :=
  ["AcquireInterfaceLock"; "ReleaseInterfaceLock"; "IsCallerLockedOut"; "IsCallerPrivileged"; "IsLockedByOthers";
   "GetAllProperties"; "SetMultipleProperties"; "GetProperty"; "GetPropertyString"; "GetPropertyStringList";
   "GetPropertyInteger"; "GetPropertyBoolean"; "GetPropertyDouble"; "SetProperty"; "SetPropertyString";
   "SetPropertyInteger"; "SetPropertyBoolean"; "SetPropertyDouble"; "RemoveProperty"; "GetPropertyType";
   "PropertyExists"; "AddCapability"; "QueryCapability"; "Lock"; "Unlock"; "StringListAppend"; "StringListPrepend";
   "StringListRemove"; "Rescan"; "Reprobe"; "EmitCondition"; "ClaimInterface"; "AddonIsReady"].
Definition manager_methods : list string :=
  ["GetAllDevices"; "GetAllDevicesWithProperties"; "DeviceExists"; "FindDeviceStringMatch"; "FindDeviceByCapability";
   "NewDevice"; "Remove"; "CommitToGdl"; "AcquireGlobalInterfaceLock"; "ReleaseGlobalInterfaceLock";
   "SingletonAddonIsReady"].

Definition included (a b : list string) : bool := forallb (fun x => bool_decide (x ∈ b)) a.

Lemma included_elem a b x : included a b = true -> x ∈ a -> x ∈ b.
Proof.
  unfold included. rewrite forallb_forall. intros H Hx%list_elem_of_In. exact (bool_decide_eq_true_1 _ (H x Hx)).
Qed.

Lemma same_elements a b x : included a b && included b a = true -> x ∈ a <-> x ∈ b.
Proof. intros [? ?]%andb_true_iff. split; by apply included_elem. Qed.

Definition declared_methods : list string := omap declared introspect_device.

Lemma declared_device n :
  n ∈ device_methods <-> n ∈ declared_methods /\ n <> "SetPropertyStringList".
Proof.
  rewrite (same_elements device_methods (List.filter (fun x => negb (x =s? "SetPropertyStringList")) declared_methods))
    by (vm_compute; reflexivity).
  rewrite !list_elem_of_In, filter_In, negb_true_iff, bool_decide_eq_false. done.
Qed.
Lemma declared_manager n : n ∈ manager_methods <-> n ∈ omap declared introspect_manager.
Proof. apply same_elements. vm_compute. reflexivity. Qed.

Lemma other_member m i (l : list string) n :
  m_member m ∉ l -> n ∈ l -> dbus_message_is_method_call m i n = false.
Proof.
  intros Hm Hn. unfold dbus_message_is_method_call. destruct (m_interface m); [|done].
  apply andb_false_intro2, bool_decide_eq_false_2. by intros <-.
Qed.

Section Dispatcher.
Context {P : Platform}.
Context (cfg : configuration) (ci_tracker_get_info : string -> option CICallerInfo) (geteuid : Z).
Context (connected initialising : bool) (property_order : HalDevice -> list string).
Context (osspec_device_rescan osspec_device_reprobe : nat -> hm bool).
Context (osspec_filter_function : DBusMessage -> hm hresult).
Context (hald_runner_start hald_runner_start_singleton : string -> bool).
Context (stack : list ascii) (rules : cache) (depth udi_fuel : nat) (tv_usec : Z).
Context (printf_g : double -> string) (g_basename : string -> string).
Context (ci_pid : string -> Z) (ci_selinux_context : string -> option string).
Context (polkit_result : HalDevice -> string -> string -> option string).

#[local] Notation dispatch :=
  (hald_dbus_filter_handle_methods cfg ci_tracker_get_info geteuid connected initialising property_order
     osspec_device_rescan osspec_device_reprobe osspec_filter_function hald_runner_start
     hald_runner_start_singleton stack rules depth udi_fuel tv_usec printf_g g_basename ci_pid
     ci_selinux_context polkit_result).
#[local] Notation privileged := (privileged ci_tracker_get_info geteuid).

(** ** Who may change devices *)
Definition refuses (r : hm dbus_reply) (h : hald) : Prop :=
  exists name text, r h = inr (ErrorReply name text, h, []).

Lemma replied_refuses r h :
  refuses r h -> exists name text, replied r h = inr (Replied (ErrorReply name text), h, []).
Proof. intros (n & t & H). exists n, t. by apply replied_run. Qed.

Ltac refuse Hp :=
  unfold refuses, device_set_property, device_set_multiple_properties, device_remove_property,
    device_add_capability, device_rescan, device_reprobe, device_emit_condition, device_claim_interface,
    addon_is_ready, manager_new_device, manager_remove, manager_commit_to_gdl, find_device_object;
  rewrite ?hbind_get, ?Hp; cbn [negb andb]; repeat destr_match; do 2 eexists; reflexivity.

Lemma protected_device_call connection m h :
  privileged m = false -> m_interface m = Some DEVICE -> m_member m ∈ device_protected ->
  exists name text, dispatch connection m false h = inr (Replied (ErrorReply name text), h, []).
Proof.
  intros Hp Hi Hm. destruct m as [path i mem sender args]; simpl in Hi; subst i.
  unfold device_protected in Hm. cbn [m_member] in Hm.
  repeat (apply elem_of_cons in Hm as [->|Hm]); [..|by apply not_elem_of_nil in Hm];
    dispatch_call; apply replied_refuses; refuse Hp.
Qed.

Lemma protected_manager_call connection m h :
  privileged m = false -> m_path m = "/org/freedesktop/Hal/Manager" -> m_interface m = Some MANAGER ->
  m_member m ∈ manager_protected ->
  exists name text, dispatch connection m false h = inr (Replied (ErrorReply name text), h, []).
Proof.
  intros Hp Hq Hi Hm. destruct m as [path i mem sender args]; simpl in Hi, Hq; subst i path.
  unfold manager_protected in Hm. cbn [m_member] in Hm.
  repeat (apply elem_of_cons in Hm as [->|Hm]); [..|by apply not_elem_of_nil in Hm];
    dispatch_call; rewrite bool_decide_eq_true_2 by done; cbn [negb];
    [apply replied_refuses; refuse Hp..|].
  do 2 eexists. reflexivity.
Qed.

(** C8 Only privileged clients and helpers change devices through the
    protected methods: a message over the system bus whose sender is neither
    root nor the user of the daemon, which calls a method that sets or removes
    properties, adds a capability, creates, removes or commits a device,
    rescans, reprobes, or is meant for helpers, is answered with an error, and
    the daemon neither changes nor sends anything else, whatever the arguments
    are and whether the device exists or not. *)
Theorem protected_methods_refuse connection m h :
  privileged m = false ->
  m_interface m = Some DEVICE /\ m_member m ∈ device_protected \/
  m_path m = "/org/freedesktop/Hal/Manager" /\ m_interface m = Some MANAGER /\ m_member m ∈ manager_protected ->
  exists name text, dispatch connection m false h = inr (Replied (ErrorReply name text), h, []).
Proof.
  intros Hp [[Hi Hm]|(Hq & Hi & Hm)]; [by apply protected_device_call | by apply protected_manager_call].
Qed.

(** ** Which methods there are *)
Notation device_method_of :=
  (device_method cfg ci_tracker_get_info geteuid connected initialising property_order
     osspec_device_rescan osspec_device_reprobe polkit_result).
Notation manager_method_of :=
  (manager_method ci_tracker_get_info geteuid connected initialising property_order
     hald_runner_start hald_runner_start_singleton stack rules depth udi_fuel tv_usec).

Ltac no_method l Hm :=
  repeat match goal with
  | |- context [dbus_message_is_method_call ?m ?i ?n] =>
      rewrite (other_member m i l n Hm) by (apply (bool_decide_unpack _); vm_compute; exact I)
  end; cbv iota beta match.

Lemma device_method_some connection m local :
  m_interface m = Some DEVICE -> is_Some (device_method_of connection m local) <-> m_member m ∈ device_methods.
Proof.
  intros Hi. destruct (decide (m_member m ∈ device_methods)) as [Hm|Hm].
  - split; [done|]. intros _. destruct m as [path i mem sender args]; simpl in Hi; subst i.
    unfold device_methods in Hm. cbn [m_member] in Hm.
    repeat (apply elem_of_cons in Hm as [->|Hm]); [..|by apply not_elem_of_nil in Hm];
      unfold device_method, existsb; which_method; cbv iota beta match; eexists; reflexivity.
  - split; [|done]. unfold device_method, existsb. no_method device_methods Hm. by intros [? ?].
Qed.

Lemma manager_method_some connection m local :
  m_path m = "/org/freedesktop/Hal/Manager" -> m_interface m = Some MANAGER ->
  is_Some (manager_method_of connection m local) <-> m_member m ∈ manager_methods.
Proof.
  intros Hp Hi. unfold manager_method. rewrite Hp, bool_decide_eq_true_2 by done. cbn [negb].
  destruct (decide (m_member m ∈ manager_methods)) as [Hm|Hm].
  - split; [done|]. intros _. destruct m as [path i mem sender args]; simpl in Hi, Hp; subst i path.
    unfold manager_methods in Hm. cbn [m_member] in Hm.
    repeat (apply elem_of_cons in Hm as [->|Hm]); [..|by apply not_elem_of_nil in Hm];
      which_method; cbv iota beta match; eexists; reflexivity.
  - split; [|done]. no_method manager_methods Hm. by intros [? ?].
Qed.

(** C29 The introspection data tell the truth about the methods, but for one:
    the dispatcher has a method for exactly the members that the data declare
    on a device and on the manager, except SetPropertyStringList, which is
    declared and does not exist. *)
Theorem introspection_declares_the_methods connection m local :
  (m_interface m = Some DEVICE ->
   is_Some (device_method_of connection m local) <->
   m_member m ∈ omap declared introspect_device /\ m_member m <> "SetPropertyStringList") /\
  "SetPropertyStringList" ∈ omap declared introspect_device /\
  (m_path m = "/org/freedesktop/Hal/Manager" -> m_interface m = Some MANAGER ->
   is_Some (manager_method_of connection m local) <-> m_member m ∈ omap declared introspect_manager).
Proof.
  split; [|split].
  - intros Hi. by rewrite device_method_some, declared_device.
  - apply (bool_decide_unpack _). vm_compute. exact I.
  - intros Hp Hi. by rewrite manager_method_some, declared_manager.
Qed.

(** ** String lists *)
Definition edit_list (do_prepend : bool) (value : string) (l : list string) : list string :=
  if do_prepend then value :: l else l ++ [value].

Definition strlist_at (d : HalDevice) (key : string) : option (list string) :=
  match props d !! key with
  | None => Some []
  | Some (PStrlist l) => Some l
  | Some _ => None
  end.

Lemma edit_list_result (do_prepend : bool) key value d l :
  strlist_at d key = Some l ->
  let r := (if do_prepend then hal_device_property_strlist_prepend key value
            else hal_device_property_strlist_append key value false) d in
  res r = true /\ dev_of r = set_props <[key := PStrlist (edit_list do_prepend value l)]> d.
Proof.
  unfold strlist_at. intros H. unfold hal_device_property_strlist_prepend,
    hal_device_property_strlist_append, hal_device_property_find, edit_list.
  destruct do_prepend; dev_cbn; destruct (props d !! key) as [[]|]; simplify_eq; done.
Qed.

Lemma string_list_run (do_prepend : bool) m h id d key value l :
  get_args_ss m = Some (key, value) -> find_by_udi (h_env h) (m_path m) = Some (id, d) ->
  strlist_at d key = Some l ->
  exists h' t, device_string_list_append_prepend connected initialising m do_prepend h =
      inr (MethodReturn [], h', t) /\
    find_by_udi (h_env h') (m_path m) =
      Some (id, set_props <[key := PStrlist (edit_list do_prepend value l)]> d).
Proof.
  intros Ha Hf Hl. destruct (edit_list_result do_prepend key value d l Hl) as [Hr Hd].
  destruct (found_op_run connected initialising _ h _ id d Hf (f_equal udi Hd)) as (h' & t & Hop & Hf' & _).
  rewrite Hd in Hf'. eexists _, _. split; [|exact Hf'].
  unfold device_string_list_append_prepend, find_device_object. rewrite hbind_get, Hf, Ha.
  eapply hbind_run; [exact Hop|]. rewrite Hr. reflexivity.
Qed.

(** C40 The methods on string lists check no privileges: any sender, also one
    that is refused by SetProperty, extends the list of any device under any
    key that is free or holds a list, "info.interfaces" and the lists of method
    names and programs included. *)
Theorem string_lists_need_no_privilege (do_prepend : bool) connection m h id d key value l :
  device_call (if do_prepend then "StringListPrepend" else "StringListAppend") m ->
  m_args m = [VString key; VString value] ->
  find_by_udi (h_env h) (m_path m) = Some (id, d) -> strlist_at d key = Some l ->
  exists h' t, dispatch connection m false h = inr (Replied (MethodReturn []), h', t) /\
    find_by_udi (h_env h') (m_path m) =
      Some (id, set_props <[key := PStrlist (edit_list do_prepend value l)]> d).
Proof.
  intros [Hi Hm] Ha Hf Hl.
  destruct (string_list_run do_prepend m h id d key value l) as (h' & t & Hr & Hf'); [|done..|].
  { unfold get_args_ss. by rewrite Ha. }
  exists h', t. split; [|done]. destruct m as [path i mem sender args]; simpl in Hi, Hm; subst i mem.
  destruct do_prepend; dispatch_call; by apply replied_run.
Qed.

(** The manager's searches return what they promise, in the order of the
    device lists, and change nothing: GetAllDevices every committed device,
    FindDeviceByCapability the committed devices whose "info.capabilities" has
    the capability, FindDeviceStringMatch the committed and the temporary devices
    with that string under the key.  (Temporary devices are to be left out, but
    only one named exactly ".../devices/temp" is.) *)
Lemma searches_return_the_devices connection m h c key value :
  let e := h_env h in
  (manager_call "GetAllDevices" m ->
   dispatch connection m false h = inr (Replied (MethodReturn [VStrings (udi <$> devices_in e (gdl e))]), h, [])) /\
  (manager_call "FindDeviceByCapability" m -> m_args m = [VString c] ->
   dispatch connection m false h =
     inr (Replied (MethodReturn [VStrings (udi <$> filter
       (fun d => c ∈ hal_device_property_get_strlist d "info.capabilities") (devices_in e (gdl e)))]), h, [])) /\
  (manager_call "FindDeviceStringMatch" m -> m_args m = [VString key; VString value] ->
   dispatch connection m false h =
     inr (Replied (MethodReturn [VStrings
       ((udi <$> filter (fun d => props d !! key = Some (PString value)) (devices_in e (gdl e))) ++
        (udi <$> filter (fun d => not_named_temp d /\ props d !! key = Some (PString value))
                   (devices_in e (tdl e))))]), h, [])).
Proof.
  intros e. destruct m as [path i mem sender args]. unfold manager_call. cbn [m_path m_interface m_member m_args].
  split; [|split]; intros (-> & -> & ->); try intros ->; dispatch_call;
    rewrite bool_decide_eq_true_2 by done; cbn [negb]; apply replied_run.
  - unfold manager_get_all_devices. rewrite hbind_get.
    rewrite (foreach_collects udi (fun _ => True)) by (intros; by rewrite decide_True).
    by rewrite filter_true.
  - unfold manager_find_device_by_capability. cbn [get_args_s m_args]. rewrite hbind_get.
    rewrite (foreach_collects udi (fun d => c ∈ hal_device_property_get_strlist d "info.capabilities")); [done|].
    intros d it. unfold foreach_device_by_capability. pose proof (has_capability_iff c d).
    destruct (hal_device_has_capability d c); case_decide; naive_solver.
  - unfold manager_find_device_string_match. cbn [get_args_ss m_args]. rewrite hbind_get.
    rewrite (foreach_collects udi (fun d => not_named_temp d /\ props d !! key = Some (PString value)));
      [rewrite (foreach_collects udi (fun d => props d !! key = Some (PString value))); [done|]|];
      intros d it; unfold foreach_device_match_get_udi_tdl, foreach_device_match_get_udi, not_named_temp;
      pose proof (matches_string_iff key value d); destruct (matches_string key value d);
      repeat case_bool_decide; repeat case_decide; naive_solver.
Qed.

(** ** Advisory locks *)

(** A device with the three properties of an advisory lock. *)
Definition lock_props (owner reason : string) (d : HalDevice) : HalDevice :=
  set_props (fun m => <["info.locked.dbus_name" := PString owner]>
                     (<["info.locked.reason" := PString reason]> (<["info.locked" := PBoolean true]> m))) d.
Definition not_locked (d : HalDevice) : Prop :=
  props d !! "info.locked" = None /\ props d !! "info.locked.reason" = None /\
  props d !! "info.locked.dbus_name" = None.

Lemma lock_props_read owner reason d :
  hal_device_property_get_bool (lock_props owner reason d) "info.locked" = true /\
  hal_device_property_get_string (lock_props owner reason d) "info.locked.reason" = Some reason /\
  hal_device_property_get_string (lock_props owner reason d) "info.locked.dbus_name" = Some owner.
Proof.
  unfold hal_device_property_get_bool, hal_device_property_get_string, hal_device_property_find.
  simpl. by simpl_map.
Qed.

Lemma lock_sets_props owner reason d :
  not_locked d -> g_utf8_validate owner = None -> g_utf8_validate reason = None ->
  dev_of ((hal_device_property_set_bool "info.locked" true ;;;
           hal_device_property_set_string "info.locked.reason" (Some reason) ;;;
           hal_device_property_set_string "info.locked.dbus_name" (Some owner)) d) = lock_props owner reason d.
Proof.
  intros (N1 & N2 & N3) Ho Hr.
  change (hal_device_property_set_bool ?k ?v) with (set_value k (PBoolean v)).
  change (hal_device_property_set_string ?k (Some ?v)) with (set_value k (PString v)).
  rewrite !dev_of_bind.
  rewrite (set_value_dev "info.locked") by by apply storable_fresh.
  rewrite (set_value_dev "info.locked.reason")
    by (apply storable_fresh; [simpl; by simpl_map | by apply stored_string]).
  rewrite (set_value_dev "info.locked.dbus_name")
    by (apply storable_fresh; [simpl; by simpl_map | by apply stored_string]).
  done.
Qed.

Lemma drop_lock_restores owner reason d :
  not_locked d -> dev_of (drop_lock_properties (lock_props owner reason d)) = d.
Proof.
  intros (N1 & N2 & N3). unfold drop_lock_properties. rewrite !dev_of_bind, dev_of_ret.
  rewrite (remove_run "info.locked" (PBoolean true)) by (simpl; by simpl_map).
  rewrite (remove_run "info.locked.reason" (PString reason)) by (simpl; by simpl_map).
  rewrite (remove_run "info.locked.dbus_name" (PString owner)) by (simpl; by simpl_map).
  destruct d as [u n r m]. unfold set_props, lock_props. simpl in *. f_equal.
  apply map_eq. intros k.
  destruct (decide (k = "info.locked")) as [->|]; [by simpl_map|].
  destruct (decide (k = "info.locked.reason")) as [->|]; [by simpl_map|].
  destruct (decide (k = "info.locked.dbus_name")) as [->|]; by simpl_map.
Qed.

Lemma add_lock_run sender id h :
  exists h' t, services_with_locks_add_lock sender id h = inr (tt, h', t) /\ h_env h' = h_env h.
Proof.
  unfold services_with_locks_add_lock, services_insert. rewrite !hbind_get, hbind_mod. eexists _, _. done.
Qed.

Lemma lock_run m h id d owner reason :
  m_sender m = Some owner -> get_args_s m = Some reason -> find_by_udi (h_env h) (m_path m) = Some (id, d) ->
  not_locked d -> g_utf8_validate owner = None -> g_utf8_validate reason = None ->
  exists h' t, device_lock connected initialising m h = inr (MethodReturn [], h', t) /\
    find_by_udi (h_env h') (m_path m) = Some (id, lock_props owner reason d).
Proof.
  intros Hs Ha Hf Hn Ho Hr. pose proof (lock_sets_props owner reason d Hn Ho Hr) as Hd.
  destruct (found_op_run connected initialising _ h _ id d Hf (f_equal udi Hd)) as (h1 & t1 & Hop & Hf1 & _).
  destruct (add_lock_run owner id h1) as (h2 & t2 & Hadd & He). rewrite Hd in Hf1.
  exists h2, (t1 ++ t2 ++ []). rewrite He. split; [|done].
  unfold device_lock, find_device_object. rewrite hbind_get, Hf.
  assert (hal_device_property_get_bool d "info.locked" = false) as ->.
  { unfold hal_device_property_get_bool, hal_device_property_find. by rewrite (proj1 Hn). }
  rewrite Ha, Hs. eapply hbind_run; [exact Hop|]. eapply hbind_run; [exact Hadd | done].
Qed.

Lemma locked_again m h id d owner reason :
  find_by_udi (h_env h) (m_path m) = Some (id, lock_props owner reason d) ->
  device_lock connected initialising m h =
    inr (ErrorReply "org.freedesktop.Hal.DeviceAlreadyLocked" reason, h, []).
Proof.
  intros Hf. unfold device_lock, find_device_object. rewrite hbind_get, Hf.
  destruct (lock_props_read owner reason d) as (-> & Hr & _).
  unfold raise_device_already_locked. by rewrite Hr.
Qed.

Lemma unlock_refused m h id d owner reason b :
  find_by_udi (h_env h) (m_path m) = Some (id, lock_props owner reason d) ->
  m_sender m = Some b -> b <> owner ->
  exists text, device_unlock connected initialising m h =
    inr (ErrorReply "org.freedesktop.Hal.PermissionDenied" text, h, []).
Proof.
  intros Hf Hs Hb. unfold device_unlock, find_device_object. rewrite hbind_get, Hf.
  destruct (lock_props_read owner reason d) as (-> & _ & ->). cbn [negb]. rewrite Hs, bool_decide_eq_false_2 by done. eexists. done.
Qed.

Lemma unlock_run m h id d owner reason :
  find_by_udi (h_env h) (m_path m) = Some (id, lock_props owner reason d) -> m_sender m = Some owner ->
  not_locked d ->
  exists h' t, device_unlock connected initialising m h = inr (MethodReturn [], h', t) /\
    find_by_udi (h_env h') (m_path m) = Some (id, d).
Proof.
  intros Hf Hs Hn. pose proof (drop_lock_restores owner reason d Hn) as Hd.
  assert (exists h1 t1, (match default [] (services_with_locks h !! owner) with
                         | [] => hret tt
                         | _ => services_with_locks_remove_lock owner id
                         end) h = inr (tt, h1, t1) /\ h_env h1 = h_env h) as (h1 & t1 & Hrem & He).
  { destruct (default _ _); [eexists _, _; done|]. unfold services_with_locks_remove_lock, services_insert.
    rewrite !hbind_get, hbind_mod. eexists _, _. done. }
  rewrite <- He in Hf. destruct (found_op_run connected initialising drop_lock_properties h1 _ id _ Hf)
    as (h2 & t2 & Hop & Hf2 & _); [by rewrite Hd|].
  exists h2, (t1 ++ t2 ++ []). rewrite Hd in Hf2. split; [|done].
  rewrite He in Hf. unfold device_unlock, find_device_object. rewrite hbind_get, Hf.
  destruct (lock_props_read owner reason d) as (-> & _ & ->). cbn [negb]. rewrite Hs, bool_decide_eq_true_2 by done. cbn [negb]. rewrite hbind_get.
  eapply hbind_run; [exact Hrem|]. eapply hbind_run; [exact Hop | done].
Qed.

(** Advisory locks: Lock on a device that is not locked enters the reason
    and the sender; then every further Lock by anybody is answered with that
    reason, every Unlock by somebody else is refused, both without any effect,
    and Unlock by the owner restores the device as it was before. *)
Lemma advisory_lock_excludes connection m h id d owner reason :
  device_call "Lock" m -> m_sender m = Some owner -> m_args m = [VString reason] ->
  find_by_udi (h_env h) (m_path m) = Some (id, d) -> not_locked d ->
  g_utf8_validate owner = None -> g_utf8_validate reason = None ->
  exists h1 t1, dispatch connection m false h = inr (Replied (MethodReturn []), h1, t1) /\
    find_by_udi (h_env h1) (m_path m) = Some (id, lock_props owner reason d) /\
    forall m2, m_path m2 = m_path m ->
      (device_call "Lock" m2 -> dispatch connection m2 false h1 =
         inr (Replied (ErrorReply "org.freedesktop.Hal.DeviceAlreadyLocked" reason), h1, [])) /\
      (forall other, device_call "Unlock" m2 -> m_sender m2 = Some other -> other <> owner ->
         exists text, dispatch connection m2 false h1 =
           inr (Replied (ErrorReply "org.freedesktop.Hal.PermissionDenied" text), h1, [])) /\
      (device_call "Unlock" m2 -> m_sender m2 = Some owner ->
         exists h2 t2, dispatch connection m2 false h1 = inr (Replied (MethodReturn []), h2, t2) /\
           find_by_udi (h_env h2) (m_path m) = Some (id, d)).
Proof.
  intros [Hi Hm] Hs Ha Hf Hn Ho Hr.
  destruct (lock_run m h id d owner reason) as (h1 & t1 & Hl & Hf1); [done| |done..|].
  { unfold get_args_s. by rewrite Ha. }
  exists h1, t1. split; [|split; [done|]].
  { by_dispatch m Hi Hm. }
  intros m2 Hp. rewrite <- Hp in *. split; [|split].
  - intros [Hi2 Hm2]. pose proof (locked_again m2 h1 id d owner reason Hf1) as H.
    by_dispatch m2 Hi2 Hm2.
  - intros other [Hi2 Hm2] Hs2 Hne. destruct (unlock_refused m2 h1 id d owner reason other Hf1 Hs2 Hne) as [text H].
    exists text. by_dispatch m2 Hi2 Hm2.
  - intros [Hi2 Hm2] Hs2. destruct (unlock_run m2 h1 id d owner reason Hf1 Hs2 Hn) as (h2 & t2 & H & Hf2).
    exists h2, t2. split; [|done]. by_dispatch m2 Hi2 Hm2.
Qed.
End Dispatcher.

(** ** Instances *)
Module Instances.
Import AsciiPlatform Example.

Lemma protected_methods_refuse_witness :
  exists name text, Example.dispatch 0 (call "SetProperty" ":1.7" [VString "volume.label"; VString "X"]) false start =
    inr (Replied (ErrorReply name text), start, []).
Proof.
  unfold Example.dispatch. apply protected_methods_refuse; [reflexivity|].
  left. split; [reflexivity|]. apply list_elem_of_here.
Defined.

Lemma introspection_declares_the_methods_witness :
  is_Some (device_method NoConsoleKit callers 0 true false order (fun _ => hret true) (fun _ => hret true)
    (fun _ _ _ => None) 0 (call "Lock" ":1.7" [VString "busy"]) false) <->
  "Lock" ∈ omap declared introspect_device /\ "Lock" <> "SetPropertyStringList".
Proof.
  apply (introspection_declares_the_methods NoConsoleKit callers 0 true false order
    (fun _ => hret true) (fun _ => hret true) (fun _ => true) (fun _ => true)
    [] no_rules 1 10 0 (fun _ _ _ => None) 0 (call "Lock" ":1.7" [VString "busy"]) false).
  reflexivity.
Defined.

Lemma string_lists_need_no_privilege_witness :
  exists h' t, Example.dispatch 0 (call "StringListAppend" ":1.7" [VString "info.capabilities"; VString "x"]) false start =
    inr (Replied (MethodReturn []), h', t) /\
    find_by_udi (h_env h') VOLUME =
      Some (1%nat, set_props <["info.capabilities" := PStrlist ["block"; "volume"; "x"]]> volume).
Proof.
  apply (string_lists_need_no_privilege _ _ _ _ _ _ _ _ _ _ _ _ _ _ _ _ _ _ _ _ _ false 0
    (call "StringListAppend" ":1.7" [VString "info.capabilities"; VString "x"]) start 1 volume
    "info.capabilities" "x" ["block"; "volume"]); done.
Defined.

Lemma searches_return_the_devices_witness :
  Example.dispatch 0 (mk_message "/org/freedesktop/Hal/Manager" (Some MANAGER) "FindDeviceByCapability" (Some ":1.7")
                        [VString "block"]) false start =
    inr (Replied (MethodReturn [VStrings [VOLUME]]), start, []).
Proof.
  refine (eq_trans (proj1 (proj2 (searches_return_the_devices _ _ _ _ _ _ _ _ _ _ _ _ _ _ _ _ _ _ _ _ _ 0
    (mk_message "/org/freedesktop/Hal/Manager" (Some MANAGER) "FindDeviceByCapability" (Some ":1.7") [VString "block"])
    start "block" "" "")) _ _) _); [done..|]. vm_compute. reflexivity.
Defined.

Lemma advisory_lock_excludes_witness :
  exists h1 t1, Example.dispatch 0 (call "Lock" ":1.7" [VString "busy"]) false start =
      inr (Replied (MethodReturn []), h1, t1) /\
    find_by_udi (h_env h1) VOLUME = Some (1%nat, lock_props ":1.7" "busy" volume).
Proof.
  destruct (advisory_lock_excludes NoConsoleKit callers 0 true false order
    (fun _ => hret true) (fun _ => hret true) (fun _ => hret NotHandled) (fun _ => true) (fun _ => true)
    [] no_rules 1 10 0 (fun _ => "") (fun s => s) (fun _ => 0) (fun _ => None) (fun _ _ _ => None)
    0 (call "Lock" ":1.7" [VString "busy"]) start 1 volume ":1.7" "busy") as (h1 & t1 & H1 & H2 & _);
    [done..|]. exists h1, t1. done.
Defined.
End Instances.
