(* ===== verification/DbusQueueClaims.v ===== *)
(** * Queued method calls and singleton add-ons ([hald/hald_dbus.c])

    The programs that implement methods run one at a time per device, in the
    order of the calls; a singleton add-on is told of each of its devices. *)

From Stdlib Require Import ZArith Lia Ascii SpecFloat.
From stdpp Require Import base list gmap strings option pretty fin_maps.
From S2P Require Import Prelude CStd Property Device DeviceTheory DeviceStore FdiRules FdiInterp Locks AccessCheck AccessClaims Bus BusClaims Util Dbus DbusManager DbusDispatch DbusTheory.

(** ** What happens to the queue of a device

    A call arrives, or the program of the call at the head of the queue ends:
    the runner then calls back with the message of that call. *)
Inductive method_event :=
  | Call (mi : MethodInvocation)
  | Done (success : bool) (return_code : Z) (error : option (string * string)).

Definition method_step (u : string) (ev : method_event) : hm unit :=
  match ev with
  | Call mi => hald_exec_method_enqueue mi
  | Done success return_code error =>
      let^ queue := hget (fun h => h_queue h !! u) in
      match queue with
      | Some (mi :: _) => hald_exec_method_cb u success return_code error (mi_connection mi) (mi_message mi)
      | _ => hret tt
      end
  end.

Fixpoint method_run (u : string) (evs : list method_event) : hm unit :=
  match evs with
  | [] => hret tt
  | ev :: rest => method_step u ev ;^ method_run u rest
  end.

Definition call_of (ev : method_event) : option MethodInvocation :=
  match ev with Call mi => Some mi | Done _ _ _ => None end.
Definition reply_of_done (ev : method_event) : option dbus_reply :=
  match ev with Call _ => None | Done s r e => Some (method_reply s r e) end.
Definition calls (evs : list method_event) : list MethodInvocation := omap call_of evs.
Definition dones (evs : list method_event) : list dbus_reply := omap reply_of_done evs.

(** No program ends that was not started: [n] calls wait or run. *)
Fixpoint balanced (n : nat) (evs : list method_event) : Prop :=
  match evs with
  | [] => True
  | Call _ :: rest => balanced (S n) rest
  | Done _ _ _ :: rest => match n with O => False | S n' => balanced n' rest end
  end.

(** The programs started and the answers sent, in order. *)
Definition run_of (a : action) : option (string * string * list string * string) :=
  match a with RunMethod u path e i => Some (u, path, e, i) | _ => None end.
Definition answer_of (a : action) : option (nat * DBusMessage * dbus_reply) :=
  match a with Answer c m r => Some (c, m, r) | _ => None end.
Definition program_of (mi : MethodInvocation) : string * string * list string * string :=
  (mi_udi mi, mi_execpath mi, mi_extra_env mi, mi_stdin mi).
Definition answered (mi : MethodInvocation) (r : dbus_reply) : nat * DBusMessage * dbus_reply :=
  (mi_connection mi, mi_message mi, r).

(** A queue in the table; no entry stands for an empty one. *)
Definition queue_entry (q : list MethodInvocation) : option (list MethodInvocation) :=
  match q with [] => None | _ => Some q end.

Lemma invocation_run mi h id d :
  find_by_udi (h_env h) (mi_udi mi) = Some (id, d) ->
  hald_exec_method_do_invocation mi h =
    inr (true, h, [RunMethod (mi_udi mi) (mi_execpath mi) (mi_extra_env mi) (mi_stdin mi)]).
Proof.
  intros Hf. unfold hald_exec_method_do_invocation, find_device_object. rewrite hbind_get, Hf.
  by rewrite (find_by_udi_name _ _ _ _ Hf).
Qed.

Lemma refresh_run mi h :
  exists t, refresh_mount_state mi h = inr (tt, h, t) /\ omap run_of t = [] /\ omap answer_of t = [].
Proof.
  unfold refresh_mount_state, find_device_object. destruct (_ && _); [|by exists []].
  rewrite hbind_get. destruct (find_by_udi _ _) as [[? ?]|]; [by eexists | by exists []].
Qed.

(** One event for a device with the queue [q]. *)
Lemma enqueue_run u id d mi q h :
  find_by_udi (h_env h) u = Some (id, d) -> mi_udi mi = u -> h_queue h !! u = queue_entry q ->
  exists h' t, hald_exec_method_enqueue mi h = inr (tt, h', t) /\ h_env h' = h_env h /\
    h_queue h' !! u = queue_entry (q ++ [mi]) /\ omap answer_of t = [] /\
    omap run_of t = match q with [] => [program_of mi] | _ => [] end.
Proof.
  intros Hf Hu Hq. unfold hald_exec_method_enqueue. rewrite hbind_get, Hu, Hq.
  destruct q as [|x q]; cbn [queue_entry].
  - rewrite hbind_mod. unfold hbind. erewrite invocation_run by (rewrite Hu; exact Hf).
    eexists _, _. split; [done|]. simpl. by simpl_map.
  - eexists _, _. split; [done|]. simpl. by simpl_map.
Qed.

Lemma done_run u id d mi q success return_code error h :
  find_by_udi (h_env h) u = Some (id, d) -> Forall (fun x => mi_udi x = u) q ->
  h_queue h !! u = Some (mi :: q) ->
  exists h' t, hald_exec_method_cb u success return_code error (mi_connection mi) (mi_message mi) h = inr (tt, h', t) /\
    h_env h' = h_env h /\ h_queue h' !! u = queue_entry q /\
    omap answer_of t = [answered mi (method_reply success return_code error)] /\
    omap run_of t = option_list (program_of <$> head q).
Proof.
  intros Hf Hq Hh. unfold hald_exec_method_cb, hald_exec_method_process_queue. autorewrite with hm. rewrite Hh.
  destruct q as [|next q]; cbn [process_queue].
  - autorewrite with hm. destruct (refresh_run mi (set_queue (delete u) h)) as (t & Hr & H1 & H2).
    unfold hbind. rewrite Hr. eexists _, _. split; [done|]. simpl. simpl_map.
    by rewrite !omap_app, H1, H2.
  - apply Forall_cons in Hq as [Hn _]. autorewrite with hm.
    destruct (refresh_run mi h) as (t & Hr & H1 & H2). unfold hbind. rewrite Hr. unfold hmod.
    erewrite invocation_run by (rewrite Hn; exact Hf).
    eexists _, _. split; [done|]. simpl. simpl_map. by rewrite !omap_app, H1, H2.
Qed.

Lemma method_run_spec u id d evs q h :
  find_by_udi (h_env h) u = Some (id, d) ->
  Forall (fun x => mi_udi x = u) q -> Forall (fun x => mi_udi x = u) (calls evs) ->
  h_queue h !! u = queue_entry q -> balanced (length q) evs ->
  exists h' t, method_run u evs h = inr (tt, h', t) /\ h_env h' = h_env h /\
    h_queue h' !! u = queue_entry (drop (length (dones evs)) (q ++ calls evs)) /\
    omap answer_of t = zip_with answered (q ++ calls evs) (dones evs) /\
    omap run_of t = program_of <$>
      drop (match q with [] => 0 | _ => 1 end) (take (S (length (dones evs))) (q ++ calls evs)).
Proof.
  revert q h. induction evs as [|[mi|s r e] evs IH]; intros q h Hf Hq Hc Hh Hb.
  - exists h, []. cbn. rewrite app_nil_r. repeat split; try done; destruct q; done.
  - cbn in Hc, Hb. apply Forall_cons in Hc as [Hu Hc].
    destruct (enqueue_run u id d mi q h Hf Hu Hh) as (h1 & t1 & Hr & He & Hh1 & Ha & Ht).
    destruct (IH (q ++ [mi]) h1) as (h2 & t2 & Hr2 & He2 & Hh2 & Ha2 & Ht2).
    { by rewrite He. } { by apply Forall_app_2, Forall_singleton. } { done. } { done. }
    { by rewrite length_app, Nat.add_comm. }
    rewrite <- app_assoc in *. exists h2, (t1 ++ t2). cbn [method_run method_step].
    split; [by eapply hbind_run|]. split; [congruence|]. rewrite !omap_app, Ha, Ha2, Ht, Ht2, Hh2.
    split; [done|]. split; [done|]. by destruct q.
  - destruct q as [|mi q]; [done|]. apply Forall_cons in Hq as [Hu Hq].
    destruct (done_run u id d mi q s r e h Hf Hq Hh) as (h1 & t1 & Hr & He & Hh1 & Ha & Ht).
    destruct (IH q h1) as (h2 & t2 & Hr2 & He2 & Hh2 & Ha2 & Ht2); [by rewrite He | done..|].
    exists h2, (t1 ++ t2). cbn [method_run method_step].
    split; [eapply hbind_run; [rewrite hbind_get, Hh; exact Hr | done]|]. split; [congruence|].
    rewrite !omap_app, Ha, Ha2, Ht, Ht2, Hh2. split; [done|]. split; [done|]. by destruct q.
Qed.

(** C24 Methods of a device are served one at a time and in order: for any
    sequence of calls and of programs that end, on a device that stays, the
    programs are started in the order of the calls, each when its predecessor
    has ended; the n-th program that ends answers the n-th call, and the calls
    that are not answered wait in the queue, of which the first is running. *)
Theorem methods_are_served_in_order u id d evs h :
  find_by_udi (h_env h) u = Some (id, d) -> h_queue h !! u = None ->
  Forall (fun x => mi_udi x = u) (calls evs) -> balanced 0 evs ->
  exists h' t, method_run u evs h = inr (tt, h', t) /\
    omap answer_of t = zip_with answered (calls evs) (dones evs) /\
    omap run_of t = program_of <$> take (S (length (dones evs))) (calls evs) /\
    h_queue h' !! u = queue_entry (drop (length (dones evs)) (calls evs)).
Proof.
  intros Hf Hh Hc Hb. destruct (method_run_spec u id d evs [] h) as (h' & t & Hr & _ & Hq & Ha & Ht); [done..|].
  exists h', t. by rewrite Ha, Ht, Hq.
Qed.

(** When the object of a device is gone while three of its methods are
    queued, the end of the first program reads freed memory: the error for the
    second call is sent, and the queue is then processed again under the UDI
    stored in that call, which is freed before the last use of the UDI. *)
Lemma vanished_device_reads_a_freed_udi u m1 m2 m3 rest success return_code error h :
  h_queue h !! u = Some (m1 :: m2 :: m3 :: rest) -> mi_udi m2 = u -> find_by_udi (h_env h) u = None ->
  hald_exec_method_cb u success return_code error (mi_connection m1) (mi_message m1) h = inl ReadAfterFree.
Proof.
  intros Hq Hu Hf. unfold hald_exec_method_cb, hald_exec_method_process_queue. autorewrite with hm. rewrite Hq.
  cbn [process_queue]. autorewrite with hm. destruct (refresh_run m1 h) as (t & Hr & _).
  unfold hbind at 1. rewrite Hr. autorewrite with hm.
  assert (forall h', h_env h' = h_env h -> hald_exec_method_do_invocation m2 h' =
    inr (false, h', [Answer (mi_connection m2) (mi_message m2) (raise_no_such_device u)])) as Hd.
  { intros h' He. unfold hald_exec_method_do_invocation, find_device_object. by rewrite hbind_get, Hu, He, Hf. }
  set (h' := set_queue _ h). unfold hbind at 1. rewrite (Hd h' eq_refl). cbn [process_queue].
  autorewrite with hm. destruct (refresh_run m2 h') as (t' & Hr' & _).
  unfold hbind. by rewrite Hr'.
Qed.

(** ** Singleton add-ons *)
Section Singleton.
Context (property_order : HalDevice -> list string) (hald_runner_start_singleton : string -> bool).
Context (command_line : string).

Fixpoint add_all (ids : list nat) : hm unit :=
  match ids with
  | [] => hret tt
  | id :: rest => hald_singleton_device_added property_order hald_runner_start_singleton command_line id ;^ add_all rest
  end.

(** What the add-on [connection] is told about the device [id]. *)
Definition told (e : env) (connection : nat) (id : nat) : option action :=
  d ← e_heap e !! id; Some (CallSingleton connection true (udi d) (all_properties property_order d)).

Definition known (e : env) (ids : list nat) : Prop := Forall (fun id => is_Some (e_heap e !! id)) ids.

Lemma singleton_signal_run connection id h :
  is_Some (e_heap (h_env h) !! id) ->
  singleton_signal_device_changed property_order connection id true h =
    inr (tt, h, option_list (told (h_env h) connection id)).
Proof.
  intros [d Hd]. unfold singleton_signal_device_changed, told. rewrite hbind_get, Hd. done.
Qed.

Lemma signal_devices_run connection ids h :
  known (h_env h) ids ->
  signal_devices property_order connection ids h = inr (tt, h, omap (told (h_env h) connection) ids).
Proof.
  induction 1 as [|id ids Hd Hk IH]; [done|]. cbn [signal_devices].
  rewrite (hbind_run _ _ _ _ _ _ _ _ _ (singleton_signal_run connection id h Hd) IH).
  simpl. by destruct (told _ _ id).
Qed.

(** An add-on that was started and has not reported: nothing is sent. *)
Lemma add_all_waiting ids devices h :
  singletons h !! command_line = Some (mk_singleton None devices) ->
  exists h', add_all ids h = inr (tt, h', []) /\ h_env h' = h_env h /\
    singletons h' !! command_line = Some (mk_singleton None (rev ids ++ devices)).
Proof.
  revert devices h. induction ids as [|id ids IH]; intros devices h Hs; [by exists h|]. cbn [add_all].
  unfold hald_singleton_device_added. autorewrite with hm. rewrite Hs. autorewrite with hm. cbn [si_connection si_devices].
  autorewrite with hm. destruct (IH (id :: devices) (set_singletons <[command_line := mk_singleton None (id :: devices)]> h))
    as (h' & Hr & He & Hs'); [simpl; by simpl_map|].
  exists h'. split; [exact Hr|]. split; [exact He|]. simpl. by rewrite <- app_assoc.
Qed.

(** An add-on that has reported is told at once. *)
Lemma add_all_connected connection ids devices h :
  singletons h !! command_line = Some (mk_singleton (Some connection) devices) -> known (h_env h) ids ->
  exists h', add_all ids h = inr (tt, h', omap (told (h_env h) connection) ids) /\ h_env h' = h_env h /\
    singletons h' !! command_line = Some (mk_singleton (Some connection) (rev ids ++ devices)).
Proof.
  revert devices h. induction ids as [|id ids IH]; intros devices h Hs Hk; [by exists h|]. cbn [add_all].
  apply Forall_cons in Hk as [Hd Hk].
  unfold hald_singleton_device_added. autorewrite with hm. rewrite Hs. autorewrite with hm. cbn [si_connection si_devices].
  set (h1 := set_singletons _ h).
  destruct (IH (id :: devices) h1) as (h' & Hr & He & Hs'); [simpl; by simpl_map | exact Hk|].
  exists h'. split; [|split; [exact He|]; simpl; by rewrite <- app_assoc].
  erewrite hbind_run; [|exact (singleton_signal_run connection id h1 Hd)|autorewrite with hm; exact Hr].
  simpl. by destruct (told _ _ id).
Qed.

(** The first device starts it. *)
Lemma add_all_first id ids h :
  singletons h !! command_line = None -> hald_runner_start_singleton command_line = true ->
  exists h', add_all (id :: ids) h = inr (tt, h', [StartSingleton command_line]) /\ h_env h' = h_env h /\
    singletons h' !! command_line = Some (mk_singleton None (rev (id :: ids))).
Proof.
  intros Hn Hs. set (h1 := set_singletons <[command_line := mk_singleton None [id]]> h).
  destruct (add_all_waiting ids [id] h1) as (h' & Hr & He & Hs'); [simpl; by simpl_map|].
  exists h'. split; [|done]. cbn [add_all]. unfold hald_singleton_device_added. autorewrite with hm.
  rewrite Hn, Hs. autorewrite with hm. unfold hbind at 1, hact. autorewrite with hm. fold h1. by rewrite Hr.
Qed.

Lemma addon_reports connection m devices h :
  singletons h !! command_line = Some (mk_singleton None devices) -> m_args m = [VString command_line] ->
  known (h_env h) devices ->
  exists h', singleton_addon_is_ready property_order connection m true h =
      inr (Some (MethodReturn []), h', omap (told (h_env h) connection) devices) /\ h_env h' = h_env h /\
    singletons h' !! command_line = Some (mk_singleton (Some connection) devices).
Proof.
  intros Hs Ha Hk. unfold singleton_addon_is_ready, get_args_s. rewrite Ha. cbn [negb]. rewrite hbind_get, Hs.
  rewrite hbind_mod. cbn [si_devices]. set (h1 := set_singletons _ h). exists h1.
  rewrite (hbind_run _ _ _ _ _ _ _ _ _ (signal_devices_run connection devices h1 Hk) eq_refl).
  rewrite app_nil_r. split; [done|]. split; [done|]. simpl. by simpl_map.
Qed.

(** C25 A singleton add-on is started once and told of each of its devices
    exactly once: of those that appear before it reports ready, when it
    reports (the latest first), and of those that appear later, at once. *)
Theorem singleton_hears_of_each_device_once id ids later connection m h :
  singletons h !! command_line = None -> hald_runner_start_singleton command_line = true ->
  known (h_env h) (id :: ids ++ later) -> m_args m = [VString command_line] ->
  exists h', (add_all (id :: ids) ;^
              let^ r := singleton_addon_is_ready property_order connection m true in
              add_all later ;^ hret r) h =
    inr (Some (MethodReturn []), h',
         StartSingleton command_line ::
           omap (told (h_env h) connection) (rev (id :: ids)) ++ omap (told (h_env h) connection) later) /\
    singletons h' !! command_line = Some (mk_singleton (Some connection) (rev later ++ rev (id :: ids))).
Proof.
  intros Hn Hs Hk Ha. apply (Forall_app _ (id :: ids)) in Hk as [Hk1 Hk2].
  destruct (add_all_first id ids h Hn Hs) as (h1 & R1 & E1 & S1).
  destruct (addon_reports connection m (rev (id :: ids)) h1 S1 Ha) as (h2 & R2 & E2 & S2).
  { rewrite E1. by apply Forall_rev. }
  destruct (add_all_connected connection later (rev (id :: ids)) h2 S2) as (h3 & R3 & E3 & S3).
  { by rewrite E2, E1. }
  exists h3. split; [|done]. rewrite E2, E1 in R3. rewrite E1 in R2.
  rewrite (hbind_run _ _ _ _ _ _ _ _ _ R1 (hbind_run _ _ _ _ _ _ _ _ _ R2
             (hbind_run _ (fun _ => hret (Some (MethodReturn []))) _ _ _ _ _ _ _ R3 eq_refl))).
  by rewrite app_nil_r.
Qed.
End Singleton.

(** ** Instances *)
Module Instances.
Import AsciiPlatform Example.

Definition eject (member : string) : MethodInvocation :=
  mk_invocation VOLUME ("hal-" +:+ member) ["HAL_METHOD_INVOKED_BY_UID=0"] "" member
    "org.freedesktop.Hal.Device.Volume" (call member ":1.0" []) 3.

Lemma methods_are_served_in_order_witness :
  exists h' t, method_run VOLUME [Call (eject "Unmount"); Call (eject "Eject"); Done true 0 None] start = inr (tt, h', t) /\
    omap answer_of t = [(3%nat, call "Unmount" ":1.0" [], MethodReturn [VInt32 0])] /\
    omap run_of t = [program_of (eject "Unmount"); program_of (eject "Eject")] /\
    h_queue h' !! VOLUME = Some [eject "Eject"].
Proof.
  apply (methods_are_served_in_order VOLUME 1 volume
           [Call (eject "Unmount"); Call (eject "Eject"); Done true 0 None] start); [done..| |done].
  by repeat constructor.
Defined.

Lemma vanished_device_reads_a_freed_udi_witness :
  hald_exec_method_cb "/gone" true 0 None 3 (call "Unmount" ":1.0" [])
    (set_queue <["/gone" := (fun n => mk_invocation "/gone" n [] "" n "i" (call n ":1.0" []) 3) <$>
                              ["Unmount"; "Eject"; "Mount"]]> start) = inl ReadAfterFree.
Proof.
  apply (vanished_device_reads_a_freed_udi "/gone"
    (mk_invocation "/gone" "Unmount" [] "" "Unmount" "i" (call "Unmount" ":1.0" []) 3)
    (mk_invocation "/gone" "Eject" [] "" "Eject" "i" (call "Eject" ":1.0" []) 3)
    (mk_invocation "/gone" "Mount" [] "" "Mount" "i" (call "Mount" ":1.0" []) 3) []); done.
Defined.

Lemma singleton_hears_of_each_device_once_witness :
  exists h', (add_all order (fun _ => true) "addon" [1%nat] ;^
              let^ r := singleton_addon_is_ready order 5 (call "SingletonAddonIsReady" "" [VString "addon"]) true in
              add_all order (fun _ => true) "addon" [0%nat] ;^ hret r) start =
    inr (Some (MethodReturn []), h',
         [StartSingleton "addon"; CallSingleton 5 true VOLUME (all_properties order volume);
          CallSingleton 5 true COMPUTER []]) /\
    singletons h' !! "addon" = Some (mk_singleton (Some 5%nat) [0; 1]%nat).
Proof.
  apply (singleton_hears_of_each_device_once order (fun _ => true) "addon" 1 [] [0%nat] 5
           (call "SingletonAddonIsReady" "" [VString "addon"]) start); [done..| |done].
  repeat constructor; eexists; reflexivity.
Defined.
End Instances.
