(* ===== verification/Libhal.v ===== *)
(** * The client library ([libhal/libhal.c])

    A client function builds a message, sends it and waits for the reply, and
    decodes it.  [send] stands for the connection; what it does to the daemon
    is a computation [hm], so that the daemon of [DbusDispatch] can be put at
    the other end.  The bus adds the sender to a message.

    A pointer argument that may be NULL is an [option]; a [DBusError] that was
    set is returned beside the result.  Memory is never exhausted.  Arrays that
    the library allocates are modelled with their size, and a write outside
    them is an error value. *)

From Stdlib Require Import ZArith Lia Ascii SpecFloat.
From stdpp Require Import base list gmap strings option pretty fin_maps sorting.
From S2P Require Import Prelude CStd Property Device Bus Dbus DbusDispatch.

(** ** Arrays of pointers

    A cell that was not written is [None]. *)
Notation array A := (list (option A)).
Definition array_malloc {A} (n : nat) : array A := replicate n None.
Definition array_realloc {A} (n : nat) (b : array A) : array A := take n b ++ replicate (n - length b) None.
(** [None]: a write behind the end. *)
Definition array_write {A} (i : nat) (v : A) (b : array A) : option (array A) :=
  if decide (i < length b)%nat then Some (<[i := Some v]> b) else None.

(** A [char **]: pointers to strings, up to a NULL. *)
Notation cell := (option string).

(** The elements before the NULL; [None] when an unwritten cell or the end is
    read first. *)
Fixpoint strv (b : array cell) : option (list string) :=
  match b with
  | Some (Some s) :: rest => l ← strv rest; Some (s :: l)
  | Some None :: _ => Some []
  | _ => None
  end.

Fixpoint fill_strings (values : list string) (count : nat) (buffer : array cell) : option (array cell * nat) :=
  match values with
  | [] => Some (buffer, count)
  | value :: rest =>
      let buffer := if bool_decide (count mod 8 = 0)%nat && negb (bool_decide (count = 0)%nat)
                    then array_realloc (count + 8) buffer else buffer in
      buffer ← array_write count (Some value) buffer;
      fill_strings rest (S count) buffer
  end.

(** The array and the number of its elements. *)
Definition libhal_get_string_array_from_iter (values : list string) : option (array cell * nat) :=
  buffer ← array_write 0 None (array_malloc 8);
  '(buffer, count) ← fill_strings values 0 buffer;
  let buffer := if bool_decide (count mod 8 = 0)%nat then array_realloc (count + 1) buffer else buffer in
  buffer ← array_write count None buffer;
  Some (buffer, count).

Fixpoint count_cells (b : array cell) (i : Z) : option Z :=
  match b with
  | Some (Some _) :: rest => count_cells rest (u32 (i + 1))
  | Some None :: _ => Some i
  | _ => None
  end.
Definition libhal_string_array_length (str_array : option (array cell)) : option Z :=
  match str_array with
  | None => Some 0
  | Some b => count_cells b 0
  end.

(** ** Property sets *)
Definition LIBHAL_PROPERTY_TYPE_INVALID : Z := 0.
Definition LIBHAL_PROPERTY_TYPE_INT32 : Z := 105.
Definition LIBHAL_PROPERTY_TYPE_UINT64 : Z := 116.
Definition LIBHAL_PROPERTY_TYPE_DOUBLE : Z := 100.
Definition LIBHAL_PROPERTY_TYPE_BOOLEAN : Z := 98.
Definition LIBHAL_PROPERTY_TYPE_STRING : Z := 115.
Definition LIBHAL_PROPERTY_TYPE_STRLIST : Z := Z.shiftl 115 8 + 108.
Definition DBUS_TYPE_ARRAY : Z := 97.

(** [dbus_message_iter_get_arg_type] *)
Definition arg_type (v : dbus_value) : Z :=
  match value_signature v with EmptyString => 0 | String c _ => char_code c end.

(** The union of a property: the member that was written. *)
Inductive property_union :=
  | str_value (s : string)
  | int_value (z : Z)
  | uint64_value (z : Z)
  | double_value (x : double)
  | bool_value (b : bool)
  | strlist_value (b : array cell)
  | no_value.

Record LibHalProperty := mk_property { p_type : Z; p_key : string; p_v : property_union }.

(** In the order of the application, which sorting changes. *)
Notation LibHalPropertySet := (list LibHalProperty).

(** [None] is FALSE.  A boolean is read into the low half of a double and
    written to [double_value]; [bool_value] reads it from there. *)
Definition libhal_property_fill_value_from_variant (key : string) (var_iter : dbus_value) : option LibHalProperty :=
  match var_iter with
  | VStrings l =>
      '(b, _) ← libhal_get_string_array_from_iter l;
      Some (mk_property LIBHAL_PROPERTY_TYPE_STRLIST key (strlist_value b))
  | VString s => Some (mk_property LIBHAL_PROPERTY_TYPE_STRING key (str_value s))
  | VInt32 z => Some (mk_property LIBHAL_PROPERTY_TYPE_INT32 key (int_value z))
  | VUint64 z => Some (mk_property LIBHAL_PROPERTY_TYPE_UINT64 key (uint64_value z))
  | VDouble x => Some (mk_property LIBHAL_PROPERTY_TYPE_DOUBLE key (double_value x))
  | VBoolean b => Some (mk_property LIBHAL_PROPERTY_TYPE_BOOLEAN key (bool_value b))
  | v => if arg_type v =? DBUS_TYPE_ARRAY then None else Some (mk_property (arg_type v) key no_value)
  end.

(** [HASH_ADD_KEYPTR]: at the end of the order of the application. *)
Fixpoint add_properties (entries : list (string * dbus_value)) (set : LibHalPropertySet) : option LibHalPropertySet :=
  match entries with
  | [] => Some set
  | (key, v) :: rest =>
      p ← libhal_property_fill_value_from_variant key v;
      add_properties rest (set ++ [p])
  end.

(** NULL unless the argument is an array; one of anything but entries of a
    dictionary gives an empty set. *)
Definition get_property_set (iter : option dbus_value) : option LibHalPropertySet :=
  match iter with
  | Some v => if is_array v then add_properties (dict_entries v) [] else None
  | None => None
  end.

(** *** [HASH_SORT] of [uthash.h]: bottom-up merging *)
Definition key_sort (a b : LibHalProperty) : Z := strcmp (p_key a) (p_key b).
Definition key_le (a b : LibHalProperty) : Prop := key_sort a b <= 0.
#[global] Instance key_le_dec : RelDecision key_le := fun a b => decide (key_sort a b <= 0).

(** One walk over the list: neighbouring runs of [insize] elements are merged;
    the number of merges. *)
Fixpoint merge_runs (fuel insize : nat) (l : LibHalPropertySet) : LibHalPropertySet * nat :=
  match fuel with
  | O => (l, O)
  | S fuel =>
      match l with
      | [] => ([], O)
      | _ =>
          let p := take insize l in
          let q := take insize (drop insize l) in
          let '(rest, nmerges) := merge_runs fuel insize (drop (insize + insize) l) in
          (list_merge key_le p q ++ rest, S nmerges)
      end
  end.

Fixpoint hash_sort (fuel insize : nat) (l : LibHalPropertySet) : option LibHalPropertySet :=
  match fuel with
  | O => None
  | S fuel =>
      let '(l', nmerges) := merge_runs (length l) insize l in
      if decide (nmerges <= 1)%nat then Some l' else hash_sort fuel (insize * 2) l'
  end.

(** Fuel: every walk halves the number of runs. *)
Definition libhal_property_set_sort (set : LibHalPropertySet) : option LibHalPropertySet :=
  match set with [] => Some [] | _ => hash_sort (length set) 1 set end.

Definition libhal_property_set_get_num_elems (set : option LibHalPropertySet) : Z :=
  match set with Some set => u32 (Z.of_nat (length set)) | None => 0 end.

(** [HASH_FIND_STR]: new entries stand at the head of their bucket. *)
Definition property_set_lookup (set : option LibHalPropertySet) (key : option string) : option LibHalProperty :=
  match set, key with
  | Some set, Some key => snd <$> list_find (fun p => p_key p = key) (reverse set)
  | _, _ => None
  end.

(** The checks for NULL return what a missing property gives. *)
Section Getters.
Context (set : option LibHalPropertySet) (key : option string).
Definition libhal_ps_get_type : Z :=
  match property_set_lookup set key with Some p => p_type p | None => LIBHAL_PROPERTY_TYPE_INVALID end.
(** Reading the union of a property of type [type]. *)
Definition ps_get {A} (type : Z) (member : property_union -> option A) (ret : A) : A :=
  match property_set_lookup set key with
  | Some p => if p_type p =? type then default ret (member (p_v p)) else ret
  | None => ret
  end.
End Getters.

Definition as_str (v : property_union) : option string := match v with str_value s => Some s | _ => None end.
Definition as_int (v : property_union) : option Z := match v with int_value z => Some z | _ => None end.
Definition as_uint64 (v : property_union) : option Z := match v with uint64_value z => Some z | _ => None end.
Definition as_double (v : property_union) : option double := match v with double_value x => Some x | _ => None end.
Definition as_bool (v : property_union) : option bool := match v with bool_value b => Some b | _ => None end.
Definition as_strlist (v : property_union) : option (array cell) :=
  match v with strlist_value b => Some b | _ => None end.

Definition libhal_ps_get_string (set : option LibHalPropertySet) (key : option string) : option string :=
  ps_get set key LIBHAL_PROPERTY_TYPE_STRING (fun v => Some <$> as_str v) None.
Definition libhal_ps_get_int32 (set : option LibHalPropertySet) (key : option string) : Z :=
  ps_get set key LIBHAL_PROPERTY_TYPE_INT32 as_int 0.
Definition libhal_ps_get_uint64 (set : option LibHalPropertySet) (key : option string) : Z :=
  ps_get set key LIBHAL_PROPERTY_TYPE_UINT64 as_uint64 0.
Definition libhal_ps_get_double (set : option LibHalPropertySet) (key : option string) : double :=
  ps_get set key LIBHAL_PROPERTY_TYPE_DOUBLE as_double (S754_zero false).
Definition libhal_ps_get_bool (set : option LibHalPropertySet) (key : option string) : bool :=
  ps_get set key LIBHAL_PROPERTY_TYPE_BOOLEAN as_bool false.
Definition libhal_ps_get_strlist (set : option LibHalPropertySet) (key : option string) : option (array cell) :=
  ps_get set key LIBHAL_PROPERTY_TYPE_STRLIST (fun v => Some <$> as_strlist v) None.

(** *** Iterators: the rest of the set; the values are read without a check,
    [None] when the union has another member or the iterator is at the end *)
Notation LibHalPropertySetIterator := (list LibHalProperty).
Definition libhal_psi_init (set : LibHalPropertySet) : LibHalPropertySetIterator := set.
Definition libhal_psi_has_more (iter : LibHalPropertySetIterator) : bool :=
  match iter with [] => false | _ => true end.
Definition libhal_psi_next (iter : LibHalPropertySetIterator) : option LibHalPropertySetIterator :=
  match iter with [] => None | _ :: rest => Some rest end.
Definition libhal_psi_get_type (iter : LibHalPropertySetIterator) : option Z := p_type <$> head iter.
Definition libhal_psi_get_key (iter : LibHalPropertySetIterator) : option string := p_key <$> head iter.
Definition libhal_psi_get_string (iter : LibHalPropertySetIterator) : option string := head iter ≫= as_str ∘ p_v.
Definition libhal_psi_get_int (iter : LibHalPropertySetIterator) : option Z := head iter ≫= as_int ∘ p_v.
Definition libhal_psi_get_uint64 (iter : LibHalPropertySetIterator) : option Z := head iter ≫= as_uint64 ∘ p_v.
Definition libhal_psi_get_double (iter : LibHalPropertySetIterator) : option double := head iter ≫= as_double ∘ p_v.
Definition libhal_psi_get_bool (iter : LibHalPropertySetIterator) : option bool := head iter ≫= as_bool ∘ p_v.
Definition libhal_psi_get_strlist (iter : LibHalPropertySetIterator) : option (array cell) :=
  head iter ≫= as_strlist ∘ p_v.

(** ** Contexts *)

(** The functions a client can register. *)
Inductive callback :=
  | device_added | device_removed | device_new_capability | device_lost_capability
  | device_property_modified | device_condition
  | global_interface_lock_acquired | global_interface_lock_released
  | interface_lock_acquired | interface_lock_released
  | singleton_device_added | singleton_device_removed.
#[global] Instance callback_eq_dec : EqDecision callback.
Proof. solve_decision. Defined.

Record LibHalContext := mk_ctx {
  connection : option nat;
  is_initialized : bool;
  is_shutdown : bool;
  cache_enabled : bool;
  is_direct : bool;
  callbacks : callback -> bool;       (** whether it is not NULL *)
  user_data : option nat;
}.

Definition libhal_ctx_new : LibHalContext := mk_ctx None false false false false (fun _ => false) None.

(** The setters return FALSE for a context that is NULL. *)
Definition with_ctx {A} (ctx : option LibHalContext) (ret : A) (k : LibHalContext -> A) : A :=
  match ctx with Some c => k c | None => ret end.
Definition set_ctx (ctx : option LibHalContext) (f : LibHalContext -> LibHalContext) : bool * option LibHalContext :=
  match ctx with Some c => (true, Some (f c)) | None => (false, None) end.

Definition libhal_ctx_set_user_data (ctx : option LibHalContext) (data : option nat) :=
  set_ctx ctx (fun c => mk_ctx (connection c) (is_initialized c) (is_shutdown c) (cache_enabled c) (is_direct c)
                               (callbacks c) data).
Definition libhal_ctx_get_user_data (ctx : option LibHalContext) : option nat := with_ctx ctx None user_data.
Definition libhal_ctx_set_cache (ctx : option LibHalContext) (use_cache : bool) :=
  set_ctx ctx (fun c => mk_ctx (connection c) (is_initialized c) (is_shutdown c) use_cache (is_direct c)
                               (callbacks c) (user_data c)).
Definition libhal_ctx_set_dbus_connection (ctx : option LibHalContext) (conn : option nat)
  : bool * option LibHalContext :=
  match conn with
  | None => (false, ctx)
  | Some _ => set_ctx ctx (fun c => mk_ctx conn (is_initialized c) (is_shutdown c) (cache_enabled c) (is_direct c)
                                           (callbacks c) (user_data c))
  end.
Definition libhal_ctx_get_dbus_connection (ctx : option LibHalContext) : option nat := with_ctx ctx None connection.

Definition set_callback (which : callback) (ctx : option LibHalContext) (given : bool) : bool * option LibHalContext :=
  set_ctx ctx (fun c => mk_ctx (connection c) (is_initialized c) (is_shutdown c) (cache_enabled c) (is_direct c)
                               (fun k => if decide (k = which) then given else callbacks c k) (user_data c)).
Definition libhal_ctx_set_device_added := set_callback device_added.
Definition libhal_ctx_set_device_removed := set_callback device_removed.
Definition libhal_ctx_set_device_new_capability := set_callback device_new_capability.
Definition libhal_ctx_set_device_lost_capability := set_callback device_lost_capability.
Definition libhal_ctx_set_device_property_modified := set_callback device_property_modified.
Definition libhal_ctx_set_device_condition := set_callback device_condition.
Definition libhal_ctx_set_singleton_device_added := set_callback singleton_device_added.
Definition libhal_ctx_set_singleton_device_removed := set_callback singleton_device_removed.
Definition libhal_ctx_set_global_interface_lock_acquired := set_callback global_interface_lock_acquired.
Definition libhal_ctx_set_global_interface_lock_released := set_callback global_interface_lock_released.
Definition libhal_ctx_set_interface_lock_acquired := set_callback interface_lock_acquired.
Definition libhal_ctx_set_interface_lock_released := set_callback interface_lock_released.

Definition initialized (b direct : bool) (c : LibHalContext) : LibHalContext :=
  mk_ctx (connection c) b (is_shutdown c) (cache_enabled c) direct (callbacks c) (user_data c).

(** What libdbus answers: whether the name has an owner, whether the filter
    could be added and the match rule was accepted; [Some] error otherwise. *)
Definition DBusError : Type := option (string * string).
Definition libhal_ctx_init (ctx : option LibHalContext) (name_has_owner : bool * DBusError) (add_filter : bool)
    (add_match : DBusError) : bool * DBusError * option LibHalContext :=
  match ctx with
  | None => (false, None, None)
  | Some c =>
      match connection c with
      | None => (false, None, ctx)
      | Some _ =>
          match name_has_owner with
          | (_, Some e) => (false, Some e, ctx)
          | (false, None) => (false, None, ctx)
          | (true, None) =>
              if negb add_filter then (false, None, ctx)
              else match add_match with
                   | Some e => (false, Some e, ctx)
                   | None => (true, None, Some (initialized true false c))
                   end
          end
      end
  end.

(** [open] is the connection or the error of [dbus_connection_open]. *)
Definition libhal_ctx_init_direct (hald_addr : option string) (open : string -> nat + (string * string))
    (add_filter : bool) : option LibHalContext * DBusError :=
  match hald_addr with
  | None => (None, None)
  | Some addr =>
      match open addr with
      | inr e => (None, Some e)
      | inl conn =>
          if negb add_filter then (None, None)
          else let c := libhal_ctx_new in
               (Some (mk_ctx (Some conn) true (is_shutdown c) (cache_enabled c) true (callbacks c) (user_data c)), None)
      end
  end.

Definition libhal_ctx_shutdown (ctx : option LibHalContext) : bool * option LibHalContext :=
  set_ctx ctx (fun c => initialized false (is_direct c) c).
