(* ===== verification/LibhalCalls.v ===== *)
(** * Calls of the client library ([libhal/libhal.c])

    The functions that send a message to the daemon, change sets, and the
    filter that hands signals to the client's callbacks.  Every function is
    called with an error object; an error reply sets it. *)

From Stdlib Require Import ZArith Lia Ascii SpecFloat.
From stdpp Require Import base list gmap strings option pretty fin_maps sorting.
From S2P Require Import Prelude CStd Property Device Bus Dbus DbusDispatch Libhal.

Section Calls.
(** The connection, and the value of a variable that was not written. *)
Context (send : LibHalContext -> DBusMessage -> hm dbus_reply) (uninitialised : Z).

Definition MANAGER_PATH : string := "/org/freedesktop/Hal/Manager".

(** ** Checks of the arguments *)
Definition result (A : Type) : Type := hm (A * DBusError).
Definition quit {A} (ret : A) : result A := hret (ret, None).

Definition LIBHAL_CHECK_LIBHALCONTEXT {A} (ctx : option LibHalContext) (ret : A) (k : LibHalContext -> result A)
  : result A := match ctx with Some c => k c | None => quit ret end.
Definition LIBHAL_CHECK_PARAM_VALID {A} (param : option string) (ret : A) (k : string -> result A) : result A :=
  match param with Some p => k p | None => quit ret end.
Definition LIBHAL_CHECK_UDI_VALID {A} (udi : option string) (ret : A) (k : string -> result A) : result A :=
  match udi with
  | None => quit ret
  | Some u => if negb (has_prefix u "/org/freedesktop/Hal/devices/") then quit ret else k u
  end.

(** ** Sending

    The message, the reply or the error, and what is made of the reply. *)
Definition call {A} (ctx : LibHalContext) (path interface member : string) (args : list dbus_value)
    (ret : A) (decode : list dbus_value -> A) : result A :=
  let^ reply := send ctx (mk_message path (Some interface) member None args) in
  match reply with
  | ErrorReply name text => hret (ret, Some (name, text))
  | MethodReturn values => hret (decode values, None)
  end.
Definition call_device {A} (ctx : LibHalContext) (udi member : string) (args : list dbus_value)
    (ret : A) (decode : list dbus_value -> A) : result A :=
  call ctx udi DEVICE member args ret decode.
Definition call_manager {A} (ctx : LibHalContext) (member : string) (args : list dbus_value)
    (ret : A) (decode : list dbus_value -> A) : result A :=
  call ctx MANAGER_PATH MANAGER member args ret decode.

(** ** Reading replies *)
Definition decode_done (values : list dbus_value) : bool := true.
Definition decode_string (values : list dbus_value) : option string :=
  match values with VString s :: _ => Some s | _ => None end.
Definition decode_int (values : list dbus_value) : Z := match values with VInt32 z :: _ => z | _ => -1 end.
Definition decode_uint64 (values : list dbus_value) : Z :=
  match values with VUint64 z :: _ => z | _ => u64 (-1) end.
Definition decode_double (values : list dbus_value) : double :=
  match values with VDouble x :: _ => x | _ => minus_one end.
Definition decode_bool (ret : bool) (values : list dbus_value) : bool :=
  match values with VBoolean b :: _ => b | _ => ret end.
(** No check of the type. *)
Definition decode_type (values : list dbus_value) : Z :=
  match values with VInt32 z :: _ => z | _ => uninitialised end.
(** The array and the number of its elements; NULL when the reply is no array. *)
Definition decode_array (values : list dbus_value) : option (array cell * nat) :=
  match values with
  | v :: _ => if is_array v then libhal_get_string_array_from_iter (string_elements v) else None
  | [] => None
  end.

(** ** Properties *)
Definition libhal_device_get_all_properties (ctx : option LibHalContext) (udi : option string)
  : result (option LibHalPropertySet) :=
  LIBHAL_CHECK_LIBHALCONTEXT ctx None (fun c => LIBHAL_CHECK_UDI_VALID udi None (fun u =>
    call_device c u "GetAllProperties" [] None (fun values => get_property_set (head values)))).

(** The common arguments of the functions on one property. *)
Definition on_property {A} (ctx : option LibHalContext) (udi key : option string) (ret : A)
    (k : LibHalContext -> string -> string -> result A) : result A :=
  LIBHAL_CHECK_LIBHALCONTEXT ctx ret (fun c => LIBHAL_CHECK_UDI_VALID udi ret (fun u =>
    LIBHAL_CHECK_PARAM_VALID key ret (fun key => k c u key))).

Definition libhal_device_get_property_type (ctx : option LibHalContext) (udi key : option string) : result Z :=
  on_property ctx udi key LIBHAL_PROPERTY_TYPE_INVALID (fun c u key =>
    call_device c u "GetPropertyType" [VString key] LIBHAL_PROPERTY_TYPE_INVALID decode_type).
Definition libhal_device_get_property_strlist (ctx : option LibHalContext) (udi key : option string)
  : result (option (array cell)) :=
  on_property ctx udi key None (fun c u key =>
    call_device c u "GetPropertyStringList" [VString key] None (fun values => fst <$> decode_array values)).
Definition libhal_device_get_property_string (ctx : option LibHalContext) (udi key : option string)
  : result (option string) :=
  on_property ctx udi key None (fun c u key =>
    call_device c u "GetPropertyString" [VString key] None decode_string).
Definition libhal_device_get_property_int (ctx : option LibHalContext) (udi key : option string) : result Z :=
  on_property ctx udi key (-1) (fun c u key =>
    call_device c u "GetPropertyInteger" [VString key] (-1) decode_int).
Definition libhal_device_get_property_uint64 (ctx : option LibHalContext) (udi key : option string) : result Z :=
  on_property ctx udi key (u64 (-1)) (fun c u key =>
    call_device c u "GetPropertyInteger" [VString key] (u64 (-1)) decode_uint64).
Definition libhal_device_get_property_double (ctx : option LibHalContext) (udi key : option string) : result double :=
  on_property ctx udi key minus_one (fun c u key =>
    call_device c u "GetPropertyDouble" [VString key] minus_one decode_double).
Definition libhal_device_get_property_bool (ctx : option LibHalContext) (udi key : option string) : result bool :=
  on_property ctx udi key false (fun c u key =>
    call_device c u "GetPropertyBoolean" [VString key] false (decode_bool false)).

(** The name of the method and the arguments behind the key, for the [type] of
    the value; for [DBUS_TYPE_INVALID] the property is removed. *)
Definition setter_method (type : Z) : string :=
  if type =? LIBHAL_PROPERTY_TYPE_INVALID then "RemoveProperty"
  else if type =? LIBHAL_PROPERTY_TYPE_STRING then "SetPropertyString"
  else if (type =? LIBHAL_PROPERTY_TYPE_INT32) || (type =? LIBHAL_PROPERTY_TYPE_UINT64) then "SetPropertyInteger"
  else if type =? LIBHAL_PROPERTY_TYPE_DOUBLE then "SetPropertyDouble"
  else "SetPropertyBoolean".
Definition setter_args (type : Z) (str : string) (int uint64 : Z) (dbl : double) (b : bool) : list dbus_value :=
  if type =? LIBHAL_PROPERTY_TYPE_STRING then [VString str]
  else if type =? LIBHAL_PROPERTY_TYPE_INT32 then [VInt32 int]
  else if type =? LIBHAL_PROPERTY_TYPE_UINT64 then [VUint64 uint64]
  else if type =? LIBHAL_PROPERTY_TYPE_DOUBLE then [VDouble dbl]
  else if type =? LIBHAL_PROPERTY_TYPE_BOOLEAN then [VBoolean b]
  else [].

Definition libhal_device_set_property_helper (ctx : option LibHalContext) (udi key : option string) (type : Z)
    (str : string) (int uint64 : Z) (dbl : double) (b : bool) : result bool :=
  on_property ctx udi key false (fun c u key =>
    call_device c u (setter_method type) (VString key :: setter_args type str int uint64 dbl b) false decode_done).

Definition zero : double := S754_zero false.
Definition libhal_device_set_property_string (ctx : option LibHalContext) (udi key value : option string) : result bool :=
  on_property ctx udi key false (fun _ _ _ => LIBHAL_CHECK_PARAM_VALID value false (fun v =>
    libhal_device_set_property_helper ctx udi key LIBHAL_PROPERTY_TYPE_STRING v 0 0 zero false)).
Definition libhal_device_set_property_int (ctx : option LibHalContext) (udi key : option string) (value : Z) :=
  libhal_device_set_property_helper ctx udi key LIBHAL_PROPERTY_TYPE_INT32 "" value 0 zero false.
Definition libhal_device_set_property_uint64 (ctx : option LibHalContext) (udi key : option string) (value : Z) :=
  libhal_device_set_property_helper ctx udi key LIBHAL_PROPERTY_TYPE_UINT64 "" 0 value zero false.
Definition libhal_device_set_property_double (ctx : option LibHalContext) (udi key : option string) (value : double) :=
  libhal_device_set_property_helper ctx udi key LIBHAL_PROPERTY_TYPE_DOUBLE "" 0 0 value false.
Definition libhal_device_set_property_bool (ctx : option LibHalContext) (udi key : option string) (value : bool) :=
  libhal_device_set_property_helper ctx udi key LIBHAL_PROPERTY_TYPE_BOOLEAN "" 0 0 zero value.
Definition libhal_device_remove_property (ctx : option LibHalContext) (udi key : option string) :=
  libhal_device_set_property_helper ctx udi key LIBHAL_PROPERTY_TYPE_INVALID "" 0 0 zero false.

Definition libhal_device_property_strlist_append (ctx : option LibHalContext) (udi key value : option string) : result bool :=
  on_property ctx udi key false (fun c u key => LIBHAL_CHECK_PARAM_VALID value false (fun v =>
    call_device c u "StringListAppend" [VString key; VString v] false decode_done)).
Definition libhal_device_property_strlist_prepend (ctx : option LibHalContext) (udi key value : option string) : result bool :=
  on_property ctx udi key false (fun c u key => LIBHAL_CHECK_PARAM_VALID value false (fun v =>
    call_device c u "StringListPrepend" [VString key; VString v] false decode_done)).
Definition libhal_device_property_strlist_remove_index (ctx : option LibHalContext) (udi key : option string) (idx : Z)
  : result bool :=
  on_property ctx udi key false (fun c u key =>
    call_device c u "StringListRemoveIndex" [VString key; VUint32 idx] false decode_done).
Definition libhal_device_property_strlist_remove (ctx : option LibHalContext) (udi key value : option string) : result bool :=
  on_property ctx udi key false (fun c u key => LIBHAL_CHECK_PARAM_VALID value false (fun v =>
    call_device c u "StringListRemove" [VString key; VString v] false decode_done)).
Definition libhal_device_property_exists (ctx : option LibHalContext) (udi key : option string) : result bool :=
  on_property ctx udi key false (fun c u key =>
    call_device c u "PropertyExists" [VString key] false (decode_bool false)).

(** ** Devices *)
Definition on_udi {A} (ctx : option LibHalContext) (udi : option string) (ret : A)
    (k : LibHalContext -> string -> result A) : result A :=
  LIBHAL_CHECK_LIBHALCONTEXT ctx ret (fun c => LIBHAL_CHECK_UDI_VALID udi ret (fun u => k c u)).

(** The reason why the device is locked is returned beside the result. *)
Definition libhal_device_lock (ctx : option LibHalContext) (udi : option string) (reason_to_lock : string)
  : result (bool * option string) :=
  on_udi ctx udi (false, None) (fun c u =>
    let^ reply := send c (mk_message u (Some DEVICE) "Lock" None [VString reason_to_lock]) in
    match reply with
    | ErrorReply name text =>
        hret ((false, if name =s? "org.freedesktop.Hal.DeviceAlreadyLocked" then Some text else None),
              Some (name, text))
    | MethodReturn _ => hret ((true, None), None)
    end).
Definition libhal_device_unlock (ctx : option LibHalContext) (udi : option string) : result bool :=
  on_udi ctx udi false (fun c u => call_device c u "Unlock" [] false decode_done).
Definition libhal_get_all_devices (ctx : option LibHalContext) : result (option (array cell * nat)) :=
  LIBHAL_CHECK_LIBHALCONTEXT ctx None (fun c => call_manager c "GetAllDevices" [] None decode_array).
Definition libhal_new_device (ctx : option LibHalContext) : result (option string) :=
  LIBHAL_CHECK_LIBHALCONTEXT ctx None (fun c => call_manager c "NewDevice" [] None decode_string).
Definition libhal_device_commit_to_gdl (ctx : option LibHalContext) (temp_udi udi : option string) : result bool :=
  on_udi ctx temp_udi false (fun c t => LIBHAL_CHECK_UDI_VALID udi false (fun u =>
    call_manager c "CommitToGdl" [VString t; VString u] false decode_done)).
Definition libhal_remove_device (ctx : option LibHalContext) (udi : option string) : result bool :=
  on_udi ctx udi false (fun c u => call_manager c "Remove" [VString u] false decode_done).
Definition libhal_device_exists (ctx : option LibHalContext) (udi : option string) : result bool :=
  on_udi ctx udi false (fun c u => call_manager c "DeviceExists" [VString u] false (decode_bool false)).
Definition libhal_merge_properties (ctx : option LibHalContext) (target_udi source_udi : option string) : result bool :=
  on_udi ctx target_udi false (fun c t => LIBHAL_CHECK_UDI_VALID source_udi false (fun s =>
    call_manager c "MergeProperties" [VString t; VString s] false decode_done)).
Definition libhal_manager_find_device_string_match (ctx : option LibHalContext) (key value : option string)
  : result (option (array cell * nat)) :=
  LIBHAL_CHECK_LIBHALCONTEXT ctx None (fun c => LIBHAL_CHECK_PARAM_VALID key None (fun key =>
    LIBHAL_CHECK_PARAM_VALID value None (fun value =>
      call_manager c "FindDeviceStringMatch" [VString key; VString value] None decode_array))).
Definition libhal_device_add_capability (ctx : option LibHalContext) (udi capability : option string) : result bool :=
  on_property ctx udi capability false (fun c u capability =>
    call_device c u "AddCapability" [VString capability] false decode_done).

(** The loop over the array; reading past its end does not happen. *)
Fixpoint in_array (capability : string) (caps : array cell) : bool :=
  match caps with
  | Some (Some c) :: rest => if c =s? capability then true else in_array capability rest
  | _ => false
  end.
Definition libhal_device_query_capability (ctx : option LibHalContext) (udi capability : option string) : result bool :=
  on_property ctx udi capability false (fun _ _ capability =>
    let^ r := libhal_device_get_property_strlist ctx udi (Some "info.capabilities") in
    match r with
    | (Some caps, e) => hret (in_array capability caps, e)
    | (None, e) => hret (false, e)
    end).
Definition libhal_find_device_by_capability (ctx : option LibHalContext) (capability : option string)
  : result (option (array cell * nat)) :=
  LIBHAL_CHECK_LIBHALCONTEXT ctx None (fun c => LIBHAL_CHECK_PARAM_VALID capability None (fun capability =>
    call_manager c "FindDeviceByCapability" [VString capability] None decode_array)).

Definition libhal_device_rescan (ctx : option LibHalContext) (udi : option string) : result bool :=
  on_udi ctx udi false (fun c u => call_device c u "Rescan" [] false (decode_bool false)).
Definition libhal_device_reprobe (ctx : option LibHalContext) (udi : option string) : result bool :=
  on_udi ctx udi false (fun c u => call_device c u "Reprobe" [] false (decode_bool false)).
Definition libhal_device_emit_condition (ctx : option LibHalContext) (udi condition_name condition_details : option string)
  : result bool :=
  on_property ctx udi condition_name false (fun c u name => LIBHAL_CHECK_PARAM_VALID condition_details false (fun details =>
    call_device c u "EmitCondition" [VString name; VString details] false (decode_bool false))).
Definition addon_is_ready (ctx : option LibHalContext) (identifier : option string) (singleton : bool) : result bool :=
  LIBHAL_CHECK_LIBHALCONTEXT ctx false (fun c => LIBHAL_CHECK_PARAM_VALID identifier false (fun i =>
    if singleton then call_manager c "SingletonAddonIsReady" [VString i] false decode_done
    else call_device c i "AddonIsReady" [VString i] false decode_done)).
Definition libhal_device_addon_is_ready (ctx : option LibHalContext) (udi : option string) : result bool :=
  on_udi ctx udi false (fun _ _ => addon_is_ready ctx udi false).
Definition libhal_device_singleton_addon_is_ready (ctx : option LibHalContext) (command_line : option string) : result bool :=
  LIBHAL_CHECK_LIBHALCONTEXT ctx false (fun _ => LIBHAL_CHECK_PARAM_VALID command_line false (fun _ =>
    addon_is_ready ctx command_line true)).
Definition libhal_device_claim_interface (ctx : option LibHalContext) (udi interface_name : option string)
    (introspection_xml : string) : result bool :=
  on_property ctx udi interface_name false (fun c u i =>
    call_device c u "ClaimInterface" [VString i; VString introspection_xml] false (decode_bool false)).

(** ** Interface locks *)
Definition libhal_device_acquire_interface_lock (ctx : option LibHalContext) (udi interface : option string)
    (exclusive : bool) : result bool :=
  on_property ctx udi interface false (fun c u i =>
    call_device c u "AcquireInterfaceLock" [VString i; VBoolean exclusive] false decode_done).
Definition libhal_device_release_interface_lock (ctx : option LibHalContext) (udi interface : option string) : result bool :=
  on_property ctx udi interface false (fun c u i =>
    call_device c u "ReleaseInterfaceLock" [VString i] false decode_done).
Definition libhal_acquire_global_interface_lock (ctx : option LibHalContext) (interface : option string)
    (exclusive : bool) : result bool :=
  LIBHAL_CHECK_LIBHALCONTEXT ctx false (fun c => LIBHAL_CHECK_PARAM_VALID interface false (fun i =>
    call_manager c "AcquireGlobalInterfaceLock" [VString i; VBoolean exclusive] false decode_done)).
Definition libhal_release_global_interface_lock (ctx : option LibHalContext) (interface : option string) : result bool :=
  LIBHAL_CHECK_LIBHALCONTEXT ctx false (fun c => LIBHAL_CHECK_PARAM_VALID interface false (fun i =>
    call_manager c "ReleaseGlobalInterfaceLock" [VString i] false decode_done)).
Definition libhal_device_is_caller_locked_out (ctx : option LibHalContext) (udi interface caller : option string)
  : result bool :=
  on_property ctx udi interface true (fun c u i => LIBHAL_CHECK_PARAM_VALID caller true (fun caller =>
    call_device c u "IsCallerLockedOut" [VString i; VString caller] true (decode_bool true))).
Definition libhal_device_is_locked_by_others (ctx : option LibHalContext) (udi interface : option string) : result bool :=
  on_property ctx udi interface true (fun c u i =>
    call_device c u "IsLockedByOthers" [VString i] true (decode_bool true)).
Definition libhal_device_is_caller_privileged (ctx : option LibHalContext) (udi action caller : option string)
  : result (option string) :=
  on_property ctx udi action None (fun c u action => LIBHAL_CHECK_PARAM_VALID caller None (fun caller =>
    call_device c u "IsCallerPrivileged" [VString action; VString caller] None decode_string)).

(** ** All devices with their properties

    Two arrays that grow by 32. *)
Fixpoint fill_devices (devices : list (string * list (string * dbus_value))) (count : nat)
    (udi_array : array cell) (prop_array : array (option LibHalPropertySet))
  : option (array cell * array (option LibHalPropertySet) * nat) :=
  match devices with
  | [] => Some (udi_array, prop_array, count)
  | (u, entries) :: rest =>
      let grow := bool_decide (count mod 32 = 0)%nat && bool_decide (0 < count)%nat in
      let udi_array := if grow then array_realloc (count + 32) udi_array else udi_array in
      let prop_array := if grow then array_realloc (count + 32) prop_array else prop_array in
      udi_array ← array_write count (Some u) udi_array;
      prop_array ← array_write count (get_property_set (Some (VDict entries))) prop_array;
      fill_devices rest (S count) udi_array prop_array
  end.

Definition decode_devices (v : dbus_value) : option (array cell * array (option LibHalPropertySet) * nat) :=
  '(udi_array, prop_array, count) ←
     fill_devices (match v with VDevices l => l | _ => [] end) 0 (array_malloc 32) (array_malloc 32);
  let grow := bool_decide (count mod 32 = 0)%nat && bool_decide (0 < count)%nat in
  let udi_array := if grow then array_realloc (count + 32) udi_array else udi_array in
  let prop_array := if grow then array_realloc (count + 32) prop_array else prop_array in
  udi_array ← array_write count None udi_array;
  prop_array ← array_write count None prop_array;
  Some (udi_array, prop_array, count).

Definition libhal_get_all_devices_with_properties (ctx : option LibHalContext)
  : result (option (array cell * array (option LibHalPropertySet) * nat)) :=
  LIBHAL_CHECK_LIBHALCONTEXT ctx None (fun c =>
    call_manager c "GetAllDevicesWithProperties" [] None
      (fun values => match values with
                     | v :: _ => if is_array v then decode_devices v else None
                     | [] => None
                     end)).

(** ** Change sets

    The elements in the order of the linked list. *)
Record LibHalChangeSet := mk_changeset { cs_udi : string; cs_elements : list (string * property_union) }.

Definition libhal_device_new_changeset (udi : option string) : option LibHalChangeSet :=
  match udi with
  | None => None
  | Some u => if negb (has_prefix u "/org/freedesktop/Hal/devices/") then None else Some (mk_changeset u [])
  end.
Definition libhal_changeset_append (cs : LibHalChangeSet) (elem : string * property_union) : LibHalChangeSet :=
  mk_changeset (cs_udi cs) (cs_elements cs ++ [elem]).

(** TRUE when the element could be made. *)
Definition changeset_set (cs : option LibHalChangeSet) (key : option string) (value : option property_union)
  : bool * option LibHalChangeSet :=
  match cs, key, value with
  | Some c, Some key, Some v => (true, Some (libhal_changeset_append c (key, v)))
  | _, _, _ => (false, cs)
  end.
Definition libhal_changeset_set_property_string (cs : option LibHalChangeSet) (key value : option string) :=
  changeset_set cs key (str_value <$> value).
Definition libhal_changeset_set_property_int (cs : option LibHalChangeSet) (key : option string) (value : Z) :=
  changeset_set cs key (Some (int_value value)).
Definition libhal_changeset_set_property_uint64 (cs : option LibHalChangeSet) (key : option string) (value : Z) :=
  changeset_set cs key (Some (uint64_value value)).
Definition libhal_changeset_set_property_double (cs : option LibHalChangeSet) (key : option string) (value : double) :=
  changeset_set cs key (Some (double_value value)).
Definition libhal_changeset_set_property_bool (cs : option LibHalChangeSet) (key : option string) (value : bool) :=
  changeset_set cs key (Some (bool_value value)).
(** The strings are counted and copied to an array with one cell more. *)
Fixpoint copy_strings (value : list string) (i : nat) (value_copy : array cell) : option (array cell * nat) :=
  match value with
  | [] => Some (value_copy, i)
  | s :: rest => value_copy ← array_write i (Some s) value_copy; copy_strings rest (S i) value_copy
  end.
Definition libhal_changeset_set_property_strlist (cs : option LibHalChangeSet) (key : option string)
    (value : list string) : option (bool * option LibHalChangeSet) :=
  '(copied, i) ← copy_strings value 0 (replicate (length value + 1) (Some None));
  value_copy ← array_write i None copied;
  Some (changeset_set cs key (Some (strlist_value value_copy))).

(** The variant for an element. *)
Definition element_value (v : property_union) : option dbus_value :=
  match v with
  | str_value s => Some (VString s)
  | int_value z => Some (VInt32 z)
  | uint64_value z => Some (VUint64 z)
  | double_value x => Some (VDouble x)
  | bool_value b => Some (VBoolean b)
  | strlist_value b => VStrings <$> strv b
  | no_value => None
  end.
Fixpoint changeset_entries (l : list (string * property_union)) : option (list (string * dbus_value)) :=
  match l with
  | [] => Some []
  | (key, v) :: rest => x ← element_value v; r ← changeset_entries rest; Some ((key, x) :: r)
  end.

(** [None]: an array without its NULL is read, or an element without a value. *)
Definition libhal_device_commit_changeset (ctx : option LibHalContext) (cs : LibHalChangeSet) : option (result bool) :=
  match ctx with
  | None => Some (quit false)
  | Some c =>
      if negb (has_prefix (cs_udi cs) "/org/freedesktop/Hal/devices/") then Some (quit false)
      else match cs_elements cs with
           | [] => Some (quit true)
           | elements =>
               entries ← changeset_entries elements;
               Some (call_device c (cs_udi cs) "SetMultipleProperties" [VDict entries] false decode_done)
           end
  end.
End Calls.

(** ** Signals

    How the daemon sends its signals ([hald/hald_dbus.c]). *)
Definition signal_message (m : bus_message) : DBusMessage :=
  let manager member args := mk_message "/org/freedesktop/Hal/Manager" (Some MANAGER) member None args in
  let device u member args := mk_message u (Some DEVICE) member None args in
  match m with
  | DeviceAdded u => manager "DeviceAdded" [VString u]
  | DeviceRemoved u => manager "DeviceRemoved" [VString u]
  | NewCapability u c => manager "NewCapability" [VString u; VString c]
  | GlobalInterfaceLockAcquired i s n => manager "GlobalInterfaceLockAcquired" [VString i; VString s; VInt32 n]
  | GlobalInterfaceLockReleased i s n => manager "GlobalInterfaceLockReleased" [VString i; VString s; VInt32 n]
  | InterfaceLockAcquired u i s n => device u "InterfaceLockAcquired" [VString i; VString s; VInt32 n]
  | InterfaceLockReleased u i s n => device u "InterfaceLockReleased" [VString i; VString s; VInt32 n]
  | PropertyModified u n changes => device u "PropertyModified" [VInt32 n; VChanges changes]
  | Condition u name details => device u "Condition" [VString name; VString details]
  end.

(** A call of a callback, with its arguments. *)
Inductive invocation :=
  | on_device_added (u : string)
  | on_device_removed (u : string)
  | on_device_new_capability (u capability : string)
  | on_global_interface_lock_acquired (lock_name lock_owner : string) (num_locks : Z)
  | on_global_interface_lock_released (lock_name lock_owner : string) (num_locks : Z)
  | on_device_condition (u condition_name condition_detail : string)
  | on_interface_lock_acquired (u lock_name lock_owner : string) (num_locks : Z)
  | on_interface_lock_released (u lock_name lock_owner : string) (num_locks : Z)
  | on_device_property_modified (u key : string) (removed added : bool)
  | on_singleton_device (added : bool) (u : string) (set : LibHalPropertySet)
  | null_callback.     (** a NULL function is called *)

Definition get_args_ssi (m : DBusMessage) : option (string * string * Z) :=
  match m_args m with VString a :: VString b :: VInt32 n :: _ => Some (a, b, n) | _ => None end.

Definition when {A} (given : bool) (args : option A) (k : A -> invocation) : list invocation :=
  match args with Some a => if given then [k a] else [] | None => [] end.

(** [num_modifications] structures are read from the array; [None] when it has
    fewer, or the arguments are not a number and such an array. *)
Definition property_modified (m : DBusMessage) : option (list invocation) :=
  match m_args m with
  | VInt32 n :: VChanges changes :: _ =>
      if n <=? Z.of_nat (length changes)
      then Some ((fun c => on_device_property_modified (m_path m) c.1.1 c.1.2 c.2) <$> take (Z.to_nat n) changes)
      else None
  | _ => None
  end.

(** Whether a reply is sent, and the call; the callback is not compared with
    NULL. *)
Definition singleton_device_changed (ctx : LibHalContext) (m : DBusMessage) (added : bool) : bool * list invocation :=
  match m_args m with
  | VString u :: rest =>
      match get_property_set (head rest) with
      | Some set =>
          (true, [if callbacks ctx (if added then singleton_device_added else singleton_device_removed)
                  then on_singleton_device added u set else null_callback])
      | None => (false, [])
      end
  | _ => (false, [])
  end.

(** [is_signal]: the type of the message.  The result is [true] when the
    message is handled; signals never are, other filters see them too. *)
Definition filter_func (ctx : LibHalContext) (is_signal : bool) (m : DBusMessage) : option (bool * list invocation) :=
  let signal interface member := is_signal && dbus_message_is_method_call m interface member in
  let method member := negb is_signal && dbus_message_is_method_call m "org.freedesktop.Hal.SingletonAddon" member &&
                       (m_path m =s? "/org/freedesktop/Hal/SingletonAddon") in
  if is_shutdown ctx then Some (false, [])
  else if signal MANAGER "DeviceAdded"
  then Some (false, when (callbacks ctx device_added) (get_args_s m) on_device_added)
  else if signal MANAGER "DeviceRemoved"
  then Some (false, when (callbacks ctx device_removed) (get_args_s m) on_device_removed)
  else if signal MANAGER "NewCapability"
  then Some (false, when (callbacks ctx device_new_capability) (get_args_ss m)
                         (fun a => on_device_new_capability a.1 a.2))
  else if signal MANAGER "GlobalInterfaceLockAcquired"
  then Some (false, when (callbacks ctx global_interface_lock_acquired) (get_args_ssi m)
                         (fun a => on_global_interface_lock_acquired a.1.1 a.1.2 a.2))
  else if signal MANAGER "GlobalInterfaceLockReleased"
  then Some (false, when (callbacks ctx global_interface_lock_released) (get_args_ssi m)
                         (fun a => on_global_interface_lock_released a.1.1 a.1.2 a.2))
  else if signal DEVICE "Condition"
  then Some (false, when (callbacks ctx device_condition) (get_args_ss m)
                         (fun a => on_device_condition (m_path m) a.1 a.2))
  else if signal DEVICE "InterfaceLockAcquired"
  then Some (false, when (callbacks ctx interface_lock_acquired) (get_args_ssi m)
                         (fun a => on_interface_lock_acquired (m_path m) a.1.1 a.1.2 a.2))
  else if signal DEVICE "InterfaceLockReleased"
  then Some (false, when (callbacks ctx interface_lock_released) (get_args_ssi m)
                         (fun a => on_interface_lock_released (m_path m) a.1.1 a.1.2 a.2))
  else if signal DEVICE "PropertyModified"
  then (if callbacks ctx device_property_modified then c ← property_modified m; Some (false, c)
        else Some (false, []))
  else if method "DeviceAdded" then Some (singleton_device_changed ctx m true)
  else if method "DeviceRemoved" then Some (singleton_device_changed ctx m false)
  else Some (false, []).

(** ** Match rules *)
Definition property_watch_rule (u : string) : string :=
  snprintf 512 ("type='signal',interface='org.freedesktop.Hal.Device',sender='org.freedesktop.Hal',path=" +:+ u).

(** The daemon at the other end of the connection: a message that no method
    handles is answered with an error by libdbus; [late] is the reply to a
    method that answers later. *)
Definition bus_send (dispatch : nat -> DBusMessage -> bool -> hm hresult) (name : nat -> string)
    (late : DBusMessage -> dbus_reply) (ctx : LibHalContext) (m : DBusMessage) : hm dbus_reply :=
  match connection ctx with
  | None => hcrash NullString
  | Some n =>
      let sender := if is_direct ctx then None else Some (name n) in
      let m := mk_message (m_path m) (m_interface m) (m_member m) sender (m_args m) in
      let^ r := dispatch n m (is_direct ctx) in
      hret (match r with
            | Replied x => x
            | NoReply => late m
            | NotHandled => ErrorReply "org.freedesktop.DBus.Error.UnknownMethod"
                              ("Method " +:+ m_member m +:+ " is not known")
            end)
  end.
