(* ===== verification/LibhalTheory.v ===== *)
(** * Arrays and property sets of the client library ([libhal/libhal.c]) *)

From Stdlib Require Import ZArith Lia Ascii SpecFloat.
From stdpp Require Import base list gmap strings option pretty fin_maps sorting.
From S2P Require Import Prelude CStd Property Device Bus Dbus DbusDispatch Libhal LibhalCalls.

(** ** Arrays *)

(** The cells before [length l] hold [l]. *)
Definition holds {A} (l : list A) (b : array A) : Prop := forall i x, l !! i = Some x -> b !! i = Some (Some x).

Lemma holds_write {A} (l : list A) (b : array A) x :
  holds l b -> (length l < length b)%nat ->
  exists b', array_write (length l) x b = Some b' /\ length b' = length b /\ holds (l ++ [x]) b'.
Proof.
  intros Hb Hl. unfold array_write. rewrite decide_True by done. eexists. split; [done|].
  split; [apply length_insert|]. intros i y Hi.
  destruct (decide (i = length l)) as [->|Hn].
  - rewrite list_lookup_middle in Hi by done. rewrite list_lookup_insert_eq by done. congruence.
  - rewrite list_lookup_insert_ne by done. apply Hb.
    apply lookup_snoc_Some in Hi as [[? ?]|[? ?]]; [done | congruence].
Qed.

Lemma holds_realloc {A} (l : list A) (b : array A) n :
  holds l b -> (length l <= n)%nat -> holds l (array_realloc n b).
Proof.
  intros Hb Hn i x Hi. pose proof (lookup_lt_Some _ _ _ Hi). pose proof (Hb _ _ Hi) as E.
  unfold array_realloc. rewrite lookup_app_l.
  - by rewrite lookup_take_lt by lia.
  - pose proof (lookup_lt_Some _ _ _ E). rewrite length_take. lia.
Qed.

Lemma length_realloc {A} (b : array A) n : length (array_realloc n b) = n.
Proof. unfold array_realloc. rewrite length_app, length_take, length_replicate. lia. Qed.

(** An array that grows by blocks of [k] cells and has [n] elements. *)
Definition blocks (k n c : nat) : Prop := (c mod k = 0 /\ n <= c /\ 0 < c)%nat.

Lemma blocks_grow k n : (0 < k)%nat -> (n mod k = 0)%nat -> blocks k n (n + k).
Proof.
  intros Hk Hn. split; [|lia]. rewrite <- Nat.Div0.add_mod_idemp_l, Hn.
  simpl. apply Nat.Div0.mod_same.
Qed.
Lemma blocks_room k n c : blocks k n c -> (n mod k <> 0)%nat -> (n < c)%nat.
Proof. intros (Hc & Hn & _) Hm. destruct (decide (n = c)) as [->|]; [done | lia]. Qed.
Lemma blocks_next k n c : blocks k n c -> (n < c)%nat -> blocks k (S n) c.
Proof. unfold blocks. lia. Qed.

(** One round of a loop that fills such an array. *)
Lemma blocks_step {A} k (l : list A) (b : array A) x (grow : bool) :
  (0 < k)%nat -> holds l b -> blocks k (length l) (length b) ->
  (grow = true <-> length l mod k = 0 /\ length l <> 0)%nat ->
  exists b', array_write (length l) x (if grow then array_realloc (length l + k) b else b) = Some b' /\
    holds (l ++ [x]) b' /\ blocks k (length (l ++ [x])) (length b').
Proof.
  intros Hk Hb Hc Hg.
  assert (holds l (if grow then array_realloc (length l + k) b else b) /\
          blocks k (length l) (length (if grow then array_realloc (length l + k) b else b)) /\
          length l < length (if grow then array_realloc (length l + k) b else b))%nat as (H1 & H2 & H3).
  { destruct grow.
    - destruct (proj1 Hg eq_refl). rewrite length_realloc. split; [apply holds_realloc; [done | lia]|].
      split; [by apply blocks_grow | lia].
    - split; [done|]. split; [done|]. destruct (decide (length l mod k = 0)%nat) as [E|E].
      + destruct (decide (length l = 0)%nat) as [E'|]; [destruct Hc; lia | naive_solver].
      + by eapply blocks_room. }
  destruct (holds_write l _ x H1 H3) as (b' & -> & Hl & Hh). exists b'. split; [done|]. split; [done|].
  rewrite length_app, Hl, Nat.add_1_r. by apply blocks_next.
Qed.

Lemma grow_true (k n : nat) :
  bool_decide (n mod k = 0)%nat && negb (bool_decide (n = 0)%nat) = true <-> (n mod k = 0 /\ n <> 0)%nat.
Proof. rewrite andb_true_iff, negb_true_iff, bool_decide_eq_true, bool_decide_eq_false. done. Qed.

Lemma fill_strings_run values done_ b :
  holds (Some <$> done_) b -> blocks 8 (length done_) (length b) ->
  exists b', fill_strings values (length done_) b = Some (b', length (done_ ++ values)) /\
    holds (Some <$> done_ ++ values) b' /\ blocks 8 (length (done_ ++ values)) (length b').
Proof.
  revert done_ b. induction values as [|v values IH]; intros d b Hb Hc; cbn [fill_strings].
  - rewrite app_nil_r. eauto.
  - destruct (blocks_step 8 (Some <$> d) b (Some v)
                (bool_decide (length d mod 8 = 0)%nat && negb (bool_decide (length d = 0)%nat)))
      as (b' & Hw & Hb' & Hc'); [lia | done | by rewrite length_fmap | rewrite length_fmap; apply grow_true|].
    rewrite length_fmap in Hw. cbv zeta. rewrite Hw. cbn [mbind option_bind]. replace (S (length d)) with (length (d ++ [v])) by (rewrite length_app; simpl; lia).
    assert (blocks 8 (length (d ++ [v])) (length b')) as Hc2
      by (rewrite length_app, length_fmap in Hc'; by rewrite length_app).
    change [Some v] with (Some <$> [v]) in Hb'.
    rewrite <- fmap_app in Hb'. destruct (IH (d ++ [v]) b' Hb' Hc2) as (b2 & -> & H1 & H2).
    rewrite <- app_assoc in H1, H2 |- *. eauto.
Qed.

Lemma strv_holds l b : holds ((Some <$> l) ++ [None]) b -> strv b = Some l.
Proof.
  revert b. induction l as [|s l IH]; intros b Hb.
  - pose proof (Hb 0%nat None eq_refl). by destruct b; simplify_eq/=.
  - pose proof (Hb 0%nat (Some s) eq_refl). destruct b as [|c b]; simplify_eq/=.
    rewrite (IH b); [done|]. intros i x Hi. exact (Hb (S i) x Hi).
Qed.

(** The array has the strings and the NULL; no write leaves it. *)
Lemma string_array_run l :
  exists b, libhal_get_string_array_from_iter l = Some (b, length l) /\ strv b = Some l /\
    holds ((Some <$> l) ++ [None]) b.
Proof.
  unfold libhal_get_string_array_from_iter.
  destruct (fill_strings_run l [] (<[0%nat := Some None]> (array_malloc 8))) as (b & Hr & Hb & Hc).
  { intros i x Hi. done. } { split; [done|]; cbn; lia. }
  change (array_write 0 None (array_malloc 8)) with (Some (<[0%nat := Some (None : cell)]> (array_malloc 8))).
  cbn [mbind option_bind]. simpl length in Hr. rewrite Hr. cbn [mbind option_bind]. simpl app in *.
  assert (exists b', array_write (length l) None
            (if bool_decide (length l mod 8 = 0)%nat then array_realloc (length l + 1) b else b) = Some b' /\
            holds ((Some <$> l) ++ [None]) b') as (b' & -> & Hb').
  { rewrite <- (length_fmap (Some : string -> cell) l). case_bool_decide as E.
    - destruct (holds_write (Some <$> l) (array_realloc (length (Some <$> l) + 1) b) None) as (b' & ? & _ & ?);
        [apply holds_realloc; [done | lia] | rewrite length_realloc; lia | eauto].
    - destruct (holds_write (Some <$> l) b None) as (b' & ? & _ & ?); [done | | eauto].
      rewrite length_fmap in E |- *. by eapply blocks_room. }
  exists b'. split; [done|]. split; [by apply strv_holds | done].
Qed.

(** *** All devices *)
Lemma grow_pos (k n : nat) :
  bool_decide (n mod k = 0)%nat && bool_decide (0 < n)%nat = true <-> (n mod k = 0 /\ n <> 0)%nat.
Proof. rewrite andb_true_iff, !bool_decide_eq_true. lia. Qed.

Definition udi_cells (l : list (string * list (string * dbus_value))) : list cell := (fun d => Some d.1) <$> l.
Definition set_cells (l : list (string * list (string * dbus_value))) : list (option LibHalPropertySet) :=
  (fun d => get_property_set (Some (VDict d.2))) <$> l.

Lemma fill_devices_run l d ub pb :
  holds (udi_cells d) ub -> holds (set_cells d) pb ->
  blocks 32 (length d) (length ub) -> blocks 32 (length d) (length pb) ->
  exists ub' pb', fill_devices l (length d) ub pb = Some (ub', pb', length (d ++ l)) /\
    holds (udi_cells (d ++ l)) ub' /\ holds (set_cells (d ++ l)) pb' /\
    blocks 32 (length (d ++ l)) (length ub') /\ blocks 32 (length (d ++ l)) (length pb').
Proof.
  revert d ub pb. induction l as [|[u entries] l IH]; intros d ub pb Hu Hp Hcu Hcp; cbn [fill_devices].
  - rewrite app_nil_r. eauto 10.
  - cbv zeta.
    set (g := bool_decide (length d mod 32 = 0)%nat && bool_decide (0 < length d)%nat).
    assert (length (udi_cells d) = length d /\ length (set_cells d) = length d) as [L1 L2]
      by (unfold udi_cells, set_cells; by rewrite !length_fmap).
    destruct (blocks_step 32 (udi_cells d) ub (Some u) g) as (ub1 & Wu & Hu1 & Hcu1);
      [lia | done | by rewrite L1 | rewrite L1; apply grow_pos|].
    destruct (blocks_step 32 (set_cells d) pb (get_property_set (Some (VDict entries))) g) as (pb1 & Wp & Hp1 & Hcp1);
      [lia | done | by rewrite L2 | rewrite L2; apply grow_pos|].
    rewrite L1 in Wu. rewrite L2 in Wp. rewrite Wu. cbn [mbind option_bind]. rewrite Wp. cbn [mbind option_bind].
    rewrite length_app in Hcu1, Hcp1. rewrite L1 in Hcu1. rewrite L2 in Hcp1.
    replace (S (length d)) with (length (d ++ [(u, entries)])) by (rewrite length_app; simpl; lia).
    destruct (IH (d ++ [(u, entries)]) ub1 pb1) as (ub2 & pb2 & -> & H1 & H2 & H3 & H4).
    { unfold udi_cells. by rewrite fmap_app. } { unfold set_cells. by rewrite fmap_app. }
    { by rewrite length_app. } { by rewrite length_app. }
    rewrite <- app_assoc in *. eauto 10.
Qed.

Lemma devices_run l :
  exists ub pb, decode_devices (VDevices l) = Some (ub, pb, length l) /\ strv ub = Some (l.*1) /\
    holds (set_cells l ++ [None]) pb.
Proof.
  destruct (fill_devices_run l [] (array_malloc 32) (array_malloc 32)) as (ub & pb & Hr & Hu & Hp & Hcu & Hcp);
    [by intros i x Hi | by intros i x Hi | split; [done | cbn; lia]..|].
  simpl app in *. unfold decode_devices. simpl length in Hr. rewrite Hr. cbn [mbind option_bind]. cbv zeta.
  set (g := bool_decide (length l mod 32 = 0)%nat && bool_decide (0 < length l)%nat).
  assert (length (udi_cells l) = length l /\ length (set_cells l) = length l) as [L1 L2]
    by (unfold udi_cells, set_cells; by rewrite !length_fmap).
  destruct (blocks_step 32 (udi_cells l) ub None g) as (ub1 & Wu & Hu1 & _);
    [lia | done | by rewrite L1 | rewrite L1; apply grow_pos|].
  destruct (blocks_step 32 (set_cells l) pb None g) as (pb1 & Wp & Hp1 & _);
    [lia | done | by rewrite L2 | rewrite L2; apply grow_pos|].
  rewrite L1 in Wu. rewrite L2 in Wp. rewrite Wu. cbn [mbind option_bind]. rewrite Wp. cbn [mbind option_bind].
  exists ub1, pb1. split; [done|]. split; [|done]. apply strv_holds.
  unfold udi_cells in Hu1. by rewrite <- list_fmap_compose.
Qed.

(** ** Sorting *)
#[global] Instance key_le_total : Total key_le.
Proof.
  intros a b. unfold key_le, key_sort, strcmp.
  pose proof (String.compare_antisym (p_key b) (p_key a)) as H.
  destruct (String.compare (p_key a) (p_key b)), (String.compare (p_key b) (p_key a)); simpl in H;
    try discriminate H; lia.
Qed.

(** Runs of [k] elements are sorted. *)
Inductive runs_sorted (k : nat) : list LibHalProperty -> Prop :=
  | runs_nil : runs_sorted k []
  | runs_more l : Sorted key_le (take k l) -> runs_sorted k (drop k l) -> runs_sorted k l.

Lemma runs_inv k l : runs_sorted k l -> Sorted key_le (take k l) /\ runs_sorted k (drop k l).
Proof. intros [|l' H1 H2]; [|done]. rewrite take_nil, drop_nil. split; constructor. Qed.

Lemma runs_one l : runs_sorted 1 l.
Proof.
  induction l as [|x l IH]; constructor; [|exact IH]. simpl. rewrite take_0. repeat constructor.
Qed.

Lemma merges_zero fuel k l : (length l <= fuel)%nat -> (merge_runs fuel k l).2 = 0%nat <-> l = [].
Proof.
  destruct fuel, l as [|x l]; simpl; try lia; try done.
  destruct (merge_runs fuel k _). simpl. done.
Qed.

Lemma length_list_merge (p q : list LibHalProperty) :
  length (list_merge key_le p q) = (length p + length q)%nat.
Proof. by rewrite (Permutation_length (merge_Permutation key_le p q)), length_app. Qed.

Lemma merge_runs_cons fuel k l :
  l <> [] -> merge_runs (S fuel) k l =
    (list_merge key_le (take k l) (take k (drop k l)) ++ (merge_runs fuel k (drop (k + k) l)).1,
     S (merge_runs fuel k (drop (k + k) l)).2).
Proof. intros Hn. destruct l as [|x l]; [done|]. cbn [merge_runs]. by destruct (merge_runs fuel k _). Qed.

(** One walk. *)
Lemma merge_runs_spec fuel k l :
  (0 < k)%nat -> (length l <= fuel)%nat -> runs_sorted k l ->
  let r := merge_runs fuel k l in
  r.1 ≡ₚ l /\ runs_sorted (k + k) r.1 /\ (r.2 <= 1 <-> length l <= k + k)%nat.
Proof.
  intros Hk. revert l. induction fuel as [|fuel IH]; intros l Hl Hs.
  { destruct l; simpl in *; [|lia]. split; [done|]. split; [constructor | lia]. }
  destruct (decide (l = [])) as [->|Hn]; [split; [done|]; split; [constructor | simpl; lia]|].
  cbv zeta. rewrite merge_runs_cons by done. cbn [fst snd].
  assert (length l <> 0)%nat by (by destruct l).
  assert (length (drop (k + k) l) <= fuel)%nat as Hd by (rewrite length_drop; lia).
  destruct (runs_inv k l Hs) as [S1 R1]. destruct (runs_inv k _ R1) as [S2 R2]. rewrite drop_drop in R2.
  destruct (IH _ Hd R2) as (P3 & S3 & _). pose proof (merges_zero fuel k _ Hd) as Hz.
  set (m := list_merge key_le (take k l) (take k (drop k l))) in *.
  assert (m ≡ₚ take (k + k) l) as Pm.
  { unfold m. rewrite merge_Permutation. by rewrite take_take_drop. }
  assert (Sorted key_le m) as Sm by (apply Sorted_list_merge; [apply _ | exact S1 | exact S2]).
  split; [|split].
  - rewrite P3, Pm. by rewrite take_drop.
  - assert (length m = k + k \/ (merge_runs fuel k (drop (k + k) l)).1 = [])%nat as [E|E].
    { rewrite (Permutation_length Pm), length_take. destruct (decide (k + k <= length l)%nat); [left; lia|].
      right. apply Permutation_nil_r. rewrite P3, drop_ge by lia. done. }
    + apply runs_more; [rewrite take_app_length' by done; exact Sm|].
      by rewrite drop_app_length' by done.
    + rewrite E, app_nil_r. assert (length m <= k + k)%nat by (rewrite (Permutation_length Pm), length_take; lia).
      apply runs_more; [rewrite take_ge by done; exact Sm|].
      rewrite drop_ge by done. constructor.
  - split; intros H2.
    + assert (drop (k + k) l = []) as E by (apply Hz; lia). apply (f_equal length) in E.
      rewrite length_drop in E. simpl in E. lia.
    + rewrite (proj2 Hz) by (apply drop_ge; lia). lia.
Qed.

(** The walks end with a sorted list. *)
Lemma hash_sort_spec fuel k l :
  (0 < k)%nat -> (length l <= k * 2 ^ fuel)%nat -> (0 < fuel)%nat -> runs_sorted k l ->
  exists l', hash_sort fuel k l = Some l' /\ l' ≡ₚ l /\ Sorted key_le l'.
Proof.
  revert k l. induction fuel as [|fuel IH]; intros k l Hk Hl Hf Hs; [lia|]. cbn [hash_sort].
  destruct (merge_runs_spec (length l) k l Hk (le_n _) Hs) as (P1 & S1 & Hn).
  destruct (merge_runs (length l) k l) as [l1 n]. cbn [fst snd] in *.
  destruct (decide (n <= 1)%nat) as [H1|H1].
  - exists l1. split; [done|]. split; [done|]. destruct (runs_inv _ _ S1) as [S2 _].
    rewrite take_ge in S2; [done|]. rewrite P1. by apply Hn.
  - destruct (IH (k * 2)%nat l1) as (l' & -> & P2 & S2); [lia | | | by replace (k * 2)%nat with (k + k)%nat by lia|].
    + rewrite P1. rewrite Nat.pow_succ_r' in Hl. lia.
    + destruct fuel; [|lia]. exfalso. apply H1, Hn. simpl in Hl. lia.
    + exists l'. split; [done|]. split; [by rewrite P2 | done].
Qed.

Lemma length_pow2 n : (n <= 2 ^ n)%nat.
Proof. pose proof (Nat.pow_gt_lin_r 2 n). lia. Qed.

Lemma property_set_sort_spec set :
  exists l, libhal_property_set_sort set = Some l /\ l ≡ₚ set /\ Sorted key_le l.
Proof.
  destruct set as [|p set]; [by exists []|].
  destruct (hash_sort_spec (length (p :: set)) 1 (p :: set)) as (l & Hr & H1 & H2);
    [lia | | simpl; lia | apply runs_one | by exists l].
  rewrite Nat.mul_1_l. apply length_pow2.
Qed.

(** ** Lookups in a property set *)
Definition keys_of (set : LibHalPropertySet) : list string := p_key <$> set.

Lemma lookup_in set key q :
  property_set_lookup (Some set) (Some key) = Some q -> q ∈ set /\ p_key q = key.
Proof.
  simpl. destruct (list_find _ _) as [[i x]|] eqn:E; simpl; [|done]. intros [= ->].
  apply list_find_Some in E as (Hi & Hk & _). split; [|done].
  apply list_elem_of_lookup_2 in Hi. by rewrite elem_of_reverse in Hi.
Qed.

Lemma lookup_none set key :
  property_set_lookup (Some set) (Some key) = None <-> key ∉ keys_of set.
Proof.
  simpl. rewrite fmap_None, list_find_None, Forall_forall. unfold keys_of. rewrite list_elem_of_fmap.
  split; [intros H (q & -> & Hq) | intros H q Hq <-; apply H].
  - by apply (H q); [apply elem_of_reverse|].
  - exists q. split; [done|]. by apply elem_of_reverse.
Qed.

Lemma unique_key set p q : NoDup (keys_of set) -> p ∈ set -> q ∈ set -> p_key p = p_key q -> p = q.
Proof.
  unfold keys_of. induction set as [|x set IH]; simpl; intros Hn Hp Hq He; [by apply not_elem_of_nil in Hp|].
  apply NoDup_cons in Hn as [Hx Hn].
  apply elem_of_cons in Hp as [->|Hp]; apply elem_of_cons in Hq as [->|Hq]; [done| | |by apply IH].
  - destruct Hx. rewrite He. by apply list_elem_of_fmap_2.
  - destruct Hx. rewrite <- He. by apply list_elem_of_fmap_2.
Qed.

Lemma lookup_unique set q :
  NoDup (keys_of set) -> q ∈ set -> property_set_lookup (Some set) (Some (p_key q)) = Some q.
Proof.
  intros Hn Hq. destruct (property_set_lookup (Some set) (Some (p_key q))) as [x|] eqn:E.
  - apply lookup_in in E as [Hx Hk]. f_equal. by apply (unique_key set).
  - apply lookup_none in E. destruct E. by apply list_elem_of_fmap_2.
Qed.

Lemma lookup_permuted set set' key :
  NoDup (keys_of set) -> set' ≡ₚ set ->
  property_set_lookup (Some set') (Some key) = property_set_lookup (Some set) (Some key).
Proof.
  intros Hn Hp. destruct (property_set_lookup (Some set) (Some key)) as [q|] eqn:E.
  - apply lookup_in in E as [Hq <-]. apply lookup_unique; [unfold keys_of in *; by rewrite Hp | by rewrite Hp].
  - apply lookup_none. apply lookup_none in E. unfold keys_of in *. by rewrite Hp.
Qed.

(** ** The property set of a device *)

(** A property of the set has the type and the value of a property of the
    device. *)
Definition represents (q : LibHalProperty) (p : HalProperty) : Prop :=
  p_type q = prop_type_code (hal_property_get_type p) /\
  match p, p_v q with
  | PString s, str_value s' => s' = s
  | PInt32 z, int_value z' => z' = z
  | PUint64 z, uint64_value z' => z' = z
  | PDouble x, double_value x' => x' = x
  | PBoolean b, bool_value b' => b' = b
  | PStrlist l, strlist_value a => strv a = Some l
  | _, _ => False
  end.

Lemma fill_run key p :
  exists q, libhal_property_fill_value_from_variant key (property_value p) = Some q /\ p_key q = key /\ represents q p.
Proof.
  destruct p as [ | | | | |l]; simpl; try (eexists; split; [done|]; split; done).
  destruct (string_array_run l) as (b & -> & Hb & _). eexists. split; [done|]. done.
Qed.

Lemma add_properties_run (kps : list (string * HalProperty)) set :
  exists qs, add_properties ((fun kp => (kp.1, property_value kp.2)) <$> kps) set = Some (set ++ qs) /\
    Forall2 (fun kp q => p_key q = kp.1 /\ represents q kp.2) kps qs.
Proof.
  revert set. induction kps as [|[k p] kps IH]; intros set; [exists []; by rewrite app_nil_r|].
  cbn [fmap list_fmap add_properties fst snd]. destruct (fill_run k p) as (q & -> & Hk & Hr). cbn [mbind option_bind].
  destruct (IH (set ++ [q])) as (qs & -> & Hq). exists (q :: qs). rewrite <- app_assoc. split; [done|].
  by constructor.
Qed.

Lemma all_properties_eq order d :
  all_properties order d =
  (fun kp => (kp.1, property_value kp.2)) <$> omap (fun k => (fun p => (k, p)) <$> props d !! k) (order d).
Proof.
  unfold all_properties. rewrite <- (app_nil_l (_ <$> _)). generalize (@nil (string * dbus_value)).
  induction (order d) as [|k ks IH]; intros iter; simpl; [by rewrite app_nil_r|].
  rewrite IH. unfold foreach_property_append, hal_device_property_find.
  destruct (props d !! k) as [p|]; simpl; [by rewrite <- app_assoc | done].
Qed.

(** The walk over the table of properties meets every key once. *)
Definition walks (order : HalDevice -> list string) (d : HalDevice) : Prop :=
  NoDup (order d) /\ forall k, k ∈ order d <-> is_Some (props d !! k).

Lemma property_set_of_device order d :
  walks order d ->
  exists set, get_property_set (Some (VDict (all_properties order d))) = Some set /\ NoDup (keys_of set) /\
    forall key, match props d !! key with
                | Some p => exists q, property_set_lookup (Some set) (Some key) = Some q /\ represents q p
                | None => property_set_lookup (Some set) (Some key) = None
                end.
Proof.
  intros [Hn Hw]. rewrite all_properties_eq. set (kps := omap _ (order d)).
  destruct (add_properties_run kps []) as (qs & Ha & Hf). exists qs. split; [exact Ha|].
  assert (keys_of qs = kps.*1) as Hk.
  { clear -Hf. induction Hf as [|? ? ? ? [E _] _ IH]; simpl; [done|]. unfold keys_of in *. simpl. by rewrite E, IH. }
  assert (kps.*1 = order d) as Ho.
  { unfold kps. assert (Forall (fun k => is_Some (props d !! k)) (order d)) as Hall
      by (apply Forall_forall; intros; by apply Hw).
    clear -Hall. induction Hall as [|k ks [p Hp] _ IH]; simpl; [done|]. rewrite Hp. simpl. f_equal. exact IH. }
  rewrite Hk, Ho. split; [done|]. intros key. destruct (props d !! key) as [p|] eqn:E.
  - assert ((key, p) ∈ kps) as Hin.
    { apply list_elem_of_omap. exists key. split; [apply Hw; eauto | by rewrite E]. }
    apply list_elem_of_lookup in Hin as [i Hi]. destruct (Forall2_lookup_l _ _ _ _ _ Hf Hi) as (q & Hq & Hkq & Hr).
    exists q. split; [|done]. simpl in Hkq. rewrite <- Hkq. apply lookup_unique; [by rewrite Hk, Ho|].
    by apply list_elem_of_lookup_2 in Hq.
  - apply lookup_none. rewrite Hk, Ho. intros Hin. apply Hw in Hin. rewrite E in Hin. by destruct Hin.
Qed.
