(* ===== verification/LibhalClaims.v ===== *)
(** * The client library and the daemon together ([libhal/libhal.c], [hald/hald_dbus.c])

    What a client reads and writes through the library is what the device
    objects of the daemon hold. *)

From Stdlib Require Import ZArith Lia Ascii SpecFloat.
From stdpp Require Import base list gmap strings option pretty fin_maps sorting.
From S2P Require Import Prelude CStd Property Device DeviceTheory DeviceStore FdiRules FdiInterp Locks AccessCheck AccessClaims Bus BusClaims Util Dbus DbusManager DbusDispatch DbusTheory Libhal LibhalCalls LibhalTheory.

(** C31 The arrays of strings the library builds are complete and no write
    leaves its block: for any reply, the array that grows by eight cells holds
    the strings of the reply and a NULL behind them, with their number; the two
    arrays of the devices with their properties, which grow by 32, hold the
    UDIs and a NULL, and one property set for each device. *)
Theorem arrays_hold_the_reply l devices :
  (exists b, libhal_get_string_array_from_iter l = Some (b, length l) /\ strv b = Some l) /\
  (exists ub pb, decode_devices (VDevices devices) = Some (ub, pb, length devices) /\
     strv ub = Some (devices.*1) /\
     forall i u entries, devices !! i = Some (u, entries) ->
       pb !! i = Some (Some (get_property_set (Some (VDict entries))))).
Proof.
  split; [destruct (string_array_run l) as (b & H1 & H2 & _); eauto|].
  destruct (devices_run devices) as (ub & pb & H1 & H2 & H3). exists ub, pb. split; [done|]. split; [done|].
  intros i u entries Hi. apply H3. rewrite lookup_app_l.
  - unfold set_cells. rewrite list_lookup_fmap, Hi. done.
  - unfold set_cells. rewrite length_fmap. by eapply lookup_lt_Some.
Qed.

(** Sorting a property set ends, with the same properties in the order of
    their keys; no lookup changes when the keys are distinct, as those of a
    device are. *)
Lemma sorting_orders_the_set set :
  exists sorted, libhal_property_set_sort set = Some sorted /\ sorted ≡ₚ set /\ Sorted key_le sorted /\
    (NoDup (keys_of set) ->
     forall key, property_set_lookup (Some sorted) (Some key) = property_set_lookup (Some set) (Some key)).
Proof.
  destruct (property_set_sort_spec set) as (l & H1 & H2 & H3). exists l. repeat split; [done..|].
  intros Hn key. by apply lookup_permuted.
Qed.

(** The messages the daemon sends count their changes. *)
Definition counted (m : bus_message) : Prop :=
  match m with PropertyModified _ n changes => n = Z.of_nat (length changes) | _ => True end.

(** What a client with all callbacks is told. *)
Definition heard (m : bus_message) : list invocation :=
  match m with
  | DeviceAdded u => [on_device_added u]
  | DeviceRemoved u => [on_device_removed u]
  | NewCapability u c => [on_device_new_capability u c]
  | GlobalInterfaceLockAcquired i s n => [on_global_interface_lock_acquired i s n]
  | GlobalInterfaceLockReleased i s n => [on_global_interface_lock_released i s n]
  | InterfaceLockAcquired u i s n => [on_interface_lock_acquired u i s n]
  | InterfaceLockReleased u i s n => [on_interface_lock_released u i s n]
  | PropertyModified u _ changes => (fun c => on_device_property_modified u c.1.1 c.1.2 c.2) <$> changes
  | Condition u name details => [on_device_condition u name details]
  end.

(** The callback a signal is meant for. *)
Definition callback_of (m : bus_message) : callback :=
  match m with
  | DeviceAdded _ => device_added
  | DeviceRemoved _ => device_removed
  | NewCapability _ _ => device_new_capability
  | GlobalInterfaceLockAcquired _ _ _ => global_interface_lock_acquired
  | GlobalInterfaceLockReleased _ _ _ => global_interface_lock_released
  | InterfaceLockAcquired _ _ _ _ => interface_lock_acquired
  | InterfaceLockReleased _ _ _ _ => interface_lock_released
  | PropertyModified _ _ _ => device_property_modified
  | Condition _ _ _ => device_condition
  end.

(** C28 Every signal the daemon sends (of the nine kinds; one that lists
    changes gives their number) reaches the callback it is meant for, and
    no other, with the arguments the daemon gave it; a PropertyModified signal
    causes one call for each of its changes, in the order of the message.  When the
    client has not set that callback, or its context is shut down, nothing is
    called.  In any case the signal is left to other filters. *)
Theorem signals_reach_their_callbacks ctx m :
  counted m ->
  filter_func ctx true (signal_message m) =
    Some (false, if is_shutdown ctx then [] else if callbacks ctx (callback_of m) then heard m else []).
Proof.
  intros Hm. unfold filter_func. destruct (is_shutdown ctx); [done|].
  destruct m; cbn [signal_message callback_of]; which_method; cbn [andb];
    destruct (callbacks ctx _) eqn:Hc; try done.
  unfold property_modified. cbn [m_args m_path]. simpl in Hm. subst.
  rewrite Z.leb_refl, Nat2Z.id. cbn [mbind option_bind]. rewrite take_ge by done. done.
Qed.

Section EndToEnd.
Context {P : Platform}.
Context (cfg : configuration) (ci_tracker_get_info : string -> option CICallerInfo) (geteuid : Z).
Context (connected initialising : bool) (property_order : HalDevice -> list string).
Context (osspec_device_rescan osspec_device_reprobe : nat -> hm bool).
Context (osspec_filter_function : DBusMessage -> hm hresult).
Context (hald_runner_start hald_runner_start_singleton : string -> bool).
Context (stack : list ascii) (rules : cache) (depth udi_fuel : nat) (tv_usec : Z).
Context (printf_g : double -> string) (g_basename : string -> string).
Context (ci_pid : string -> Z) (ci_selinux_context : string -> option string).
Context (polkit_result : HalDevice -> string -> string -> option string).
Context (name : nat -> string) (late : DBusMessage -> dbus_reply) (uninitialised : Z).

#[local] Notation dispatch :=
  (hald_dbus_filter_handle_methods cfg ci_tracker_get_info geteuid connected initialising property_order
     osspec_device_rescan osspec_device_reprobe osspec_filter_function hald_runner_start
     hald_runner_start_singleton stack rules depth udi_fuel tv_usec printf_g g_basename ci_pid
     ci_selinux_context polkit_result).
#[local] Notation send := (bus_send dispatch name late).

(** A client with a connection. *)
Definition sender_of (ctx : LibHalContext) (n : nat) : option string :=
  if is_direct ctx then None else Some (name n).
(** It may change devices: it is a helper, root, or the user of the daemon. *)
Definition trusted (ctx : LibHalContext) (n : nat) : Prop :=
  is_direct ctx = true \/ access_check_message_caller_is_root_or_hal ci_tracker_get_info geteuid (sender_of ctx n) = true.

(** What the library makes of a reply. *)
Definition outcome_of {A} (r : dbus_reply) (ret : A) (decode : list dbus_value -> A) : A * DBusError :=
  match r with ErrorReply a b => (ret, Some (a, b)) | MethodReturn l => (decode l, None) end.

Lemma call_run {A} ctx n path interface member args (ret : A) decode h r h' t :
  connection ctx = Some n ->
  dispatch n (mk_message path (Some interface) member (sender_of ctx n) args) (is_direct ctx) h =
    inr (Replied r, h', t) ->
  call send ctx path interface member args ret decode h = inr (outcome_of r ret decode, h', t).
Proof.
  intros Hn Hd. unfold call, bus_send. rewrite Hn. cbn [m_path m_interface m_member m_args].
  unfold hbind. fold (sender_of ctx n). rewrite Hd. unfold hret. destruct r; cbn; by rewrite !app_nil_r.
Qed.

(** ** Reading one property *)
Lemma get_property_run m h id d key :
  find_by_udi (h_env h) (m_path m) = Some (id, d) -> get_args_s m = Some key ->
  device_get_property m h =
    inr (match props d !! key with
         | Some p => MethodReturn [property_value p]
         | None => raise_no_such_property (m_path m) key
         end, h, []).
Proof.
  intros Hf Ha. unfold device_get_property, find_device_object. rewrite hbind_get, Hf, Ha.
  unfold hal_device_has_property, hal_device_property_get_type, hal_device_property_get_string,
    hal_device_property_get_int, hal_device_property_get_uint64, hal_device_property_get_bool,
    hal_device_property_get_double, hal_device_property_strlist_iter_init, hal_device_property_get_strlist,
    hal_device_property_find.
  destruct (props d !! key) as [[]|]; done.
Qed.

Definition getters : list string :=
  ["GetPropertyString"; "GetPropertyStringList"; "GetPropertyInteger"; "GetPropertyBoolean"; "GetPropertyDouble"].

Lemma get_property_call member n sender local u key h id d :
  find_by_udi (h_env h) u = Some (id, d) -> member ∈ getters ->
  dispatch n (mk_message u (Some DEVICE) member sender [VString key]) local h =
    inr (Replied (match props d !! key with
                  | Some p => MethodReturn [property_value p]
                  | None => raise_no_such_property u key
                  end), h, []).
Proof.
  intros Hf Hm. pose proof (get_property_run (mk_message u (Some DEVICE) member sender [VString key]) h id d key Hf eq_refl) as H.
  unfold getters in Hm. repeat (apply elem_of_cons in Hm as [->|Hm]); [..|by apply not_elem_of_nil in Hm];
    dispatch_call; by apply replied_run.
Qed.

(** The error a missing property gives. *)
Definition property_error (d : HalDevice) (u key : string) : DBusError :=
  match props d !! key, raise_no_such_property u key with
  | None, ErrorReply a b => Some (a, b)
  | _, _ => None
  end.

Lemma read_property {A} ctx n u key h id d member (ret : A) decode :
  connection ctx = Some n -> has_prefix u "/org/freedesktop/Hal/devices/" = true ->
  find_by_udi (h_env h) u = Some (id, d) -> member ∈ getters ->
  on_property (Some ctx) (Some u) (Some key) ret (fun c u key =>
    call_device send c u member [VString key] ret decode) h =
  inr ((match props d !! key with Some p => decode [property_value p] | None => ret end, property_error d u key), h, []).
Proof.
  intros Hn Hu Hf Hm. unfold on_property, LIBHAL_CHECK_LIBHALCONTEXT, LIBHAL_CHECK_UDI_VALID, LIBHAL_CHECK_PARAM_VALID.
  rewrite Hu. cbn [negb]. unfold call_device.
  rewrite (call_run ctx n _ _ _ _ _ _ _ _ _ _ Hn (get_property_call member n _ _ u key h id d Hf Hm)).
  unfold outcome_of, property_error. by destruct (props d !! key).
Qed.

(** The getters of the library read the device: through any connection and
    without changing anything, each returns the value of the property when it
    has the getter's type, and else the value that stands for an error (NULL,
    -1, FALSE); the error object is set exactly when there is no such
    property.  A list arrives as an array of its strings. *)
Lemma getters_read_the_device ctx n u key h id d :
  connection ctx = Some n -> has_prefix u "/org/freedesktop/Hal/devices/" = true ->
  find_by_udi (h_env h) u = Some (id, d) ->
  let e := property_error d u key in
  libhal_device_get_property_string send (Some ctx) (Some u) (Some key) h =
    inr ((match props d !! key with Some (PString s) => Some s | _ => None end, e), h, []) /\
  libhal_device_get_property_int send (Some ctx) (Some u) (Some key) h =
    inr ((match props d !! key with Some (PInt32 z) => z | _ => -1 end, e), h, []) /\
  libhal_device_get_property_uint64 send (Some ctx) (Some u) (Some key) h =
    inr ((match props d !! key with Some (PUint64 z) => z | _ => 2 ^ 64 - 1 end, e), h, []) /\
  libhal_device_get_property_double send (Some ctx) (Some u) (Some key) h =
    inr ((match props d !! key with Some (PDouble x) => x | _ => minus_one end, e), h, []) /\
  libhal_device_get_property_bool send (Some ctx) (Some u) (Some key) h =
    inr ((match props d !! key with Some (PBoolean b) => b | _ => false end, e), h, []) /\
  exists a, libhal_device_get_property_strlist send (Some ctx) (Some u) (Some key) h = inr ((a, e), h, []) /\
    match props d !! key with Some (PStrlist l) => a ≫= strv = Some l | _ => a = None end.
Proof.
  intros Hn Hu Hf e. unfold libhal_device_get_property_string, libhal_device_get_property_int,
    libhal_device_get_property_uint64, libhal_device_get_property_double, libhal_device_get_property_bool,
    libhal_device_get_property_strlist.
  rewrite !(read_property ctx n u key h id d) by (done || (unfold getters; set_solver)).
  unfold e. repeat split; try (by destruct (props d !! key) as [[]|]).
  eexists. split; [done|]. destruct (props d !! key) as [[| | | | |l]|]; try done.
  simpl. destruct (string_array_run l) as (b & -> & Hb & _). exact Hb.
Qed.

(** ** All properties at once *)
Lemma ps_get_represents {A} set key (type : Z) (member : property_union -> option A) ret p q :
  property_set_lookup set key = Some q -> represents q p ->
  ps_get set key type member ret =
    if prop_type_code (hal_property_get_type p) =? type then default ret (member (p_v q)) else ret.
Proof. intros Hl [Ht _]. unfold ps_get. by rewrite Hl, Ht. Qed.

Lemma ps_get_missing {A} set key (type : Z) (member : property_union -> option A) ret :
  property_set_lookup set key = None -> ps_get set key type member ret = ret.
Proof. intros Hl. unfold ps_get. by rewrite Hl. Qed.

Lemma get_all_properties_run ctx n u h id d :
  connection ctx = Some n -> has_prefix u "/org/freedesktop/Hal/devices/" = true ->
  find_by_udi (h_env h) u = Some (id, d) ->
  libhal_device_get_all_properties send (Some ctx) (Some u) h =
    inr ((get_property_set (Some (VDict (all_properties property_order d))), None), h, []).
Proof.
  intros Hn Hu Hf.
  unfold libhal_device_get_all_properties, LIBHAL_CHECK_LIBHALCONTEXT, LIBHAL_CHECK_UDI_VALID, call_device.
  rewrite Hu. cbn [negb].
  rewrite (call_run ctx n u DEVICE "GetAllProperties" [] None _ h
             (MethodReturn [VDict (all_properties property_order d)]) h [] Hn); [done|].
  dispatch_call. apply replied_run. unfold device_get_all_properties, find_device_object. rewrite hbind_get.
  cbn [m_path]. rewrite Hf. done.
Qed.

(** C5 The property set of a device is the device: libhal_device_get_all_properties
    returns a set in which every key has the type it has on the device (or none)
    and each getter of sets returns the value of the property when it has the
    getter's type, and a default otherwise; nothing in the daemon changes. *)
Theorem property_set_agrees_with_the_device ctx n u h id d :
  connection ctx = Some n -> has_prefix u "/org/freedesktop/Hal/devices/" = true ->
  find_by_udi (h_env h) u = Some (id, d) -> walks property_order d ->
  exists set, libhal_device_get_all_properties send (Some ctx) (Some u) h = inr ((Some set, None), h, []) /\
    forall key, let s := Some set in let k := Some key in
      libhal_ps_get_type s k = prop_type_code (hal_device_property_get_type d key) /\
      libhal_ps_get_string s k = match props d !! key with Some (PString v) => Some v | _ => None end /\
      libhal_ps_get_int32 s k = match props d !! key with Some (PInt32 z) => z | _ => 0 end /\
      libhal_ps_get_uint64 s k = match props d !! key with Some (PUint64 z) => z | _ => 0 end /\
      libhal_ps_get_double s k = match props d !! key with Some (PDouble x) => x | _ => S754_zero false end /\
      libhal_ps_get_bool s k = match props d !! key with Some (PBoolean b) => b | _ => false end /\
      libhal_ps_get_strlist s k ≫= strv = match props d !! key with Some (PStrlist l) => Some l | _ => None end.
Proof.
  intros Hn Hu Hf Hw. destruct (property_set_of_device _ d Hw) as (set & Hs & _ & Hk). exists set. split.
  - by rewrite (get_all_properties_run ctx n u h id d Hn Hu Hf), Hs.
  - intros key. specialize (Hk key). cbv zeta. unfold libhal_ps_get_type, libhal_ps_get_string, libhal_ps_get_int32,
      libhal_ps_get_uint64, libhal_ps_get_double, libhal_ps_get_bool, libhal_ps_get_strlist,
      hal_device_property_get_type, hal_device_property_find.
    destruct (props d !! key) as [p|].
    + destruct Hk as (q & Hq & Hr). rewrite !(ps_get_represents _ _ _ _ _ p q Hq Hr), Hq.
      destruct Hr as [Ht Hv]. rewrite Ht. destruct p, (p_v q); try done; subst; done.
    + rewrite !ps_get_missing by done. by rewrite Hk.
Qed.

(** ** Writing *)
Definition value_of (v : HalProperty) : dbus_value := property_value v.

(** The library's setter and its getter for the type of a value; a list has no
    setter. *)
Definition client_set (ctx : LibHalContext) (u key : string) (v : HalProperty) : result bool :=
  let c := Some ctx in let u := Some u in let k := Some key in
  match v with
  | PString s => libhal_device_set_property_string send c u k (Some s)
  | PInt32 z => libhal_device_set_property_int send c u k z
  | PUint64 z => libhal_device_set_property_uint64 send c u k z
  | PBoolean b => libhal_device_set_property_bool send c u k b
  | PDouble x => libhal_device_set_property_double send c u k x
  | PStrlist _ => quit false
  end.
Definition client_get (ctx : LibHalContext) (u key : string) (v : HalProperty) : hm (HalProperty * DBusError) :=
  let c := Some ctx in let u := Some u in let k := Some key in
  match v with
  | PString _ => let^ r := libhal_device_get_property_string send c u k in hret (PString (default "" r.1), r.2)
  | PInt32 _ => let^ r := libhal_device_get_property_int send c u k in hret (PInt32 r.1, r.2)
  | PUint64 _ => let^ r := libhal_device_get_property_uint64 send c u k in hret (PUint64 r.1, r.2)
  | PBoolean _ => let^ r := libhal_device_get_property_bool send c u k in hret (PBoolean r.1, r.2)
  | PDouble _ => let^ r := libhal_device_get_property_double send c u k in hret (PDouble r.1, r.2)
  | PStrlist _ => hret (v, None)
  end.
Definition is_list (v : HalProperty) : bool := match v with PStrlist _ => true | _ => false end.

Lemma set_property_run m (local : bool) h id d key v :
  m_args m = [VString key; property_value v] -> is_list v = false ->
  find_by_udi (h_env h) (m_path m) = Some (id, d) ->
  local = true \/ privileged ci_tracker_get_info geteuid m = true -> storable d key v ->
  exists h' t, device_set_property ci_tracker_get_info geteuid connected initialising m local h =
      inr (MethodReturn [], h', t) /\
    find_by_udi (h_env h') (m_path m) = Some (id, set_props <[key := v]> d).
Proof.
  intros Ha Hv Hf Hp Hs. destruct (set_value_run key v d Hs) as [Hr Hd].
  assert (set_from_value key (Some (property_value v)) = set_value key v) as Hsv by by destruct v.
  destruct (found_op_run connected initialising (set_value key v) h _ id d Hf) as (h' & t & Hop & Hf' & _);
    [by rewrite Hd|].
  exists h', (t ++ []). rewrite Hd in Hf'. split; [|done].
  unfold device_set_property. rewrite Ha. cbn [head]. rewrite Hsv.
  assert (negb local && negb (privileged ci_tracker_get_info geteuid m) = false) as ->
    by (destruct Hp as [->| ->]; [done | by rewrite andb_false_r]).
  unfold find_device_object. rewrite hbind_get, Hf. eapply hbind_run; [exact Hop|]. rewrite Hr. done.
Qed.

Definition setter_of (v : HalProperty) : string :=
  match v with
  | PString _ => "SetPropertyString"
  | PInt32 _ | PUint64 _ => "SetPropertyInteger"
  | PDouble _ => "SetPropertyDouble"
  | _ => "SetPropertyBoolean"
  end.

Lemma client_set_eq ctx u key v h :
  is_list v = false -> has_prefix u "/org/freedesktop/Hal/devices/" = true ->
  client_set ctx u key v h =
    call send ctx u DEVICE (setter_of v) [VString key; property_value v] false decode_done h.
Proof.
  intros Hv Hu. unfold client_set. destruct v; try done;
    unfold libhal_device_set_property_string, libhal_device_set_property_int, libhal_device_set_property_uint64,
      libhal_device_set_property_bool, libhal_device_set_property_double, libhal_device_set_property_helper,
      on_property, LIBHAL_CHECK_LIBHALCONTEXT, LIBHAL_CHECK_UDI_VALID, LIBHAL_CHECK_PARAM_VALID;
    rewrite ?Hu; reflexivity.
Qed.

Lemma client_get_run ctx n u key v h id d :
  connection ctx = Some n -> has_prefix u "/org/freedesktop/Hal/devices/" = true ->
  find_by_udi (h_env h) u = Some (id, d) -> is_list v = false -> props d !! key = Some v ->
  client_get ctx u key v h = inr ((v, None), h, []).
Proof.
  intros Hn Hu Hf Hv Hk.
  assert (property_error d u key = None) as He by (unfold property_error; by rewrite Hk).
  unfold client_get, libhal_device_get_property_string, libhal_device_get_property_int,
    libhal_device_get_property_uint64, libhal_device_get_property_double, libhal_device_get_property_bool.
  destruct v; try done; unfold hbind;
    rewrite (read_property ctx n u key h id d) by (done || (unfold getters; set_solver)); by rewrite Hk, He.
Qed.

(** C6 What a trusted client sets it reads back: when the key is free or holds
    a property of the same type, the library's setter returns TRUE, the device
    has the value and is otherwise unchanged, and the getter returns it.
    (Strings are valid UTF-8; for doubles the key is free, since an equal
    number is not written again.) *)
Theorem client_reads_what_it_set ctx n u key v h id d :
  connection ctx = Some n -> trusted ctx n -> has_prefix u "/org/freedesktop/Hal/devices/" = true ->
  find_by_udi (h_env h) u = Some (id, d) -> is_list v = false -> storable d key v ->
  exists h' t, client_set ctx u key v h = inr ((true, None), h', t) /\
    find_by_udi (h_env h') u = Some (id, set_props <[key := v]> d) /\
    client_get ctx u key v h' = inr ((v, None), h', []).
Proof.
  intros Hn Ht Hu Hf Hv Hs.
  destruct (set_property_run (mk_message u (Some DEVICE) (setter_of v) (sender_of ctx n) [VString key; property_value v])
              (is_direct ctx) h id d key v eq_refl Hv Hf Ht Hs) as (h' & t & Hr & Hf').
  exists h', t. split; [|split; [done|]].
  - rewrite client_set_eq by done.
    rewrite (call_run ctx n u DEVICE (setter_of v) _ false _ h (MethodReturn []) h' t Hn); [done|].
    destruct v; try done; cbn [setter_of] in Hr |- *; dispatch_call; by apply replied_run.
  - apply (client_get_run ctx n u key v h' id (set_props <[key := v]> d)); [done..|]. simpl. by simpl_map.
Qed.
End EndToEnd.
