(* ===== verification/ChangeSetClaims.v ===== *)
(** * Change sets of the client library ([libhal/libhal.c], [hald/hald_dbus.c])

    A change set that a client commits is one atomic update of the device. *)

From Stdlib Require Import ZArith Lia Ascii SpecFloat.
From stdpp Require Import base list gmap strings option pretty fin_maps sorting.
From S2P Require Import Prelude CStd Property Device DeviceTheory DeviceStore FdiRules FdiInterp Locks AccessCheck AccessClaims Bus BusClaims Util Dbus DbusManager DbusDispatch DbusTheory Libhal LibhalCalls LibhalTheory LibhalClaims.

Section Values.
Context {P : Platform}.

(** The change that setting a property announces: none when a value other than
    a list is equal to the present one. *)
Definition changed_by (d : HalDevice) (kv : string * HalProperty) : list (string * bool * bool) :=
  match props d !! kv.1 with
  | None => [(kv.1, false, true)]
  | Some q => match kv.2 with
              | PStrlist _ => [(kv.1, false, false)]
              | v => if same_value v q then [] else [(kv.1, false, false)]
              end
  end.

(** Signals about properties only. *)
Definition property_signal (e : emission) : Prop :=
  match em_signal e with PROPERTY_CHANGED _ _ _ | PRE_PROPERTY_CHANGED _ _ => True | _ => False end.
Definition about (d : HalDevice) (e : emission) : Prop := same_head d (em_device e) /\ property_signal e.

Lemma set_value_trace key v d :
  storable d key v -> is_array (property_value v) = false ->
  Forall (about d) (trace (set_value key v d)) /\ changes (trace (set_value key v d)) = changed_by d (key, v).
Proof.
  intros (_ & Ht & _) Hl. rewrite set_value_correct. unfold set_value_spec, changed_by. cbn [fst snd].
  destruct (props d !! key) as [q|] eqn:E; [|split; [by repeat constructor | done]].
  rewrite bool_decide_eq_false_2 by auto.
  destruct v; try discriminate Hl; (destruct (same_value _ q); (split; [by repeat constructor | done])).
Qed.

Lemma append_quiet_step key v l0 d :
  props d !! key = Some (PStrlist l0) ->
  hal_device_property_strlist_append key v true d = (true, set_props <[key := PStrlist (l0 ++ [v])]> d, []).
Proof.
  intros E. unfold hal_device_property_strlist_append, hal_device_property_find, dbind, dget. by rewrite E.
Qed.

Lemma append_quietly_run key l l0 d :
  props d !! key = Some (PStrlist l0) ->
  append_quietly key l d = (tt, set_props <[key := PStrlist (l0 ++ l)]> d, []).
Proof.
  revert l0 d. induction l as [|v l IH]; intros l0 d E.
  - rewrite app_nil_r. unfold set_props. rewrite insert_id by done. by destruct d.
  - cbn [append_quietly]. unfold dbind. rewrite (append_quiet_step key v l0) by done.
    rewrite (IH (l0 ++ [v])) by (simpl; by simpl_map). rewrite <- app_assoc.
    unfold set_props. simpl. by rewrite insert_insert_eq.
Qed.

Lemma clear_quietly key d :
  match props d !! key with Some q => hal_property_get_type q = HAL_PROPERTY_TYPE_STRLIST | None => True end ->
  hal_device_property_strlist_clear key true d = (true, set_props <[key := PStrlist []]> d, []).
Proof.
  intros Ht. unfold hal_device_property_strlist_clear, hal_device_property_find, dbind, dget.
  destruct (props d !! key) as [q|]; [|done]. rewrite Ht. simpl. unfold set_props. simpl.
  by rewrite insert_delete_eq.
Qed.

Lemma set_array_run key l d :
  storable d key (PStrlist l) ->
  let d' := set_props <[key := PStrlist l]> d in
  set_array key l d =
    (tt, d', [Emit (PROPERTY_CHANGED key false (match props d !! key with Some _ => false | None => true end)) d']).
Proof.
  intros (_ & Ht & _) d'. unfold set_array, dbind at 1 2, dget.
  assert (hal_device_has_property d key && negb (hal_device_property_get_type d key =t? HAL_PROPERTY_TYPE_STRLIST)
          = false) as ->.
  { unfold hal_device_has_property, hal_device_property_get_type, hal_device_property_find.
    destruct (props d !! key) as [q|]; [|done]. by rewrite Ht. }
  unfold dbind at 1. rewrite clear_quietly by (destruct (props d !! key); by try rewrite Ht).
  unfold dbind at 1. rewrite (append_quietly_run key l []) by (simpl; by simpl_map).
  replace (set_props <[key := PStrlist ([] ++ l)]> (set_props <[key := PStrlist []]> d)) with d'
    by (unfold d', set_props; simpl; by rewrite insert_insert_eq).
  unfold hal_device_property_strlist_append_finish_changeset, hal_device_property_find, dbind, dget.
  replace (props d' !! key) with (Some (PStrlist l)) by (unfold d'; simpl; by simpl_map).
  unfold hal_device_has_property, hal_device_property_find. by destruct (props d !! key).
Qed.

(** One entry of a change set. *)
Lemma set_variant_run d kv :
  storable d kv.1 kv.2 ->
  let r := set_variant kv.1 (property_value kv.2) d in
  dev_of r = set_props <[kv.1 := kv.2]> d /\ Forall (about d) (trace r) /\ changes (trace r) = changed_by d kv.
Proof.
  destruct kv as [key v]. cbn [fst snd]. intros Hs. unfold set_variant.
  destruct (is_array (property_value v)) eqn:Ha.
  - destruct v; try discriminate Ha. simpl string_elements. cbv zeta. rewrite set_array_run by done.
    split; [done|]. split; [by repeat constructor|]. unfold changed_by. simpl. by destruct (props d !! key).
  - assert (set_from_value key (Some (property_value v)) = set_value key v) as -> by by destruct v.
    destruct (set_value_run key v d Hs) as [_ Hd]. destruct (set_value_trace key v d Hs Ha) as [Ht Hc].
    cbv zeta. rewrite dev_of_bind, trace_bind. simpl. rewrite app_nil_r. done.
Qed.
End Values.

(** ** Inside the atomic update *)
Lemma property_quiet computer id d e b :
  hal_device_are_all_addons_ready d = true -> 0 < atomic_count b -> about d e ->
  gdl_signals true false computer (em_device e) (store_signals id (em_signal e)) b =
    (mk_bus (atomic_count b) (num_pending_updates b + Z.of_nat (length (option_list (change_of_signal e))))
       (updates_of (udi d, option_list (change_of_signal e)) ++ pending_updates b), []).
Proof.
  intros Hr Hb [He Hp]. destruct (signal_atomic computer id d e b Hr Hb He) as [E1 _].
  pose proof (same_head_ready _ _ He) as Hre. rewrite Hr in Hre. apply Z.ltb_lt in Hb.
  destruct (gdl_signals _ _ _ _ _ _) as [b1 m1] eqn:E. cbn [fst] in E1. subst b1. f_equal.
  unfold property_signal in Hp. destruct (em_signal e); try done; simpl in E;
    unfold gdl_property_changed, device_send_signal_property_modified in E; rewrite ?Hre, ?Hb in E; by simplify_eq.
Qed.

Lemma announce_all_atomic ev id d t b :
  hal_device_are_all_addons_ready d = true -> 0 < atomic_count b -> Forall (about d) t ->
  announce_all true false ev id t b =
    (mk_bus (atomic_count b) (num_pending_updates b + Z.of_nat (length (changes t)))
       (updates_of (udi d, reverse (changes t)) ++ pending_updates b), []).
Proof.
  intros Hr Hb Ht. revert b Hb. induction Ht as [|e t He _ IH]; intros b Hb.
  { simpl. rewrite Z.add_0_r. by destruct b. }
  cbn [announce_all]. rewrite (property_quiet _ id d) by done. rewrite IH by done. rewrite changes_cons. simpl.
  f_equal. f_equal; [rewrite length_app; lia|].
  unfold updates_of. simpl. rewrite reverse_app, fmap_app, <- app_assoc. by destruct (change_of_signal e).
Qed.

Definition set_all (kvs : list (string * HalProperty)) (d : HalDevice) : HalDevice :=
  foldl (fun d kv => set_props <[kv.1 := kv.2]> d) d kvs.
Definition entries_of (kvs : list (string * HalProperty)) : list (string * dbus_value) :=
  (fun kv => (kv.1, property_value kv.2)) <$> kvs.

Section Update.
Context {P : Platform}.

Lemma storable_other d key v k p : k <> key -> storable d k p -> storable (set_props <[key := v]> d) k p.
Proof. intros Hn. unfold storable. simpl. by rewrite lookup_insert_ne. Qed.
Lemma changed_other d key v kv : kv.1 <> key -> changed_by (set_props <[key := v]> d) kv = changed_by d kv.
Proof. intros Hn. unfold changed_by. simpl. by rewrite lookup_insert_ne. Qed.

Lemma set_entries_run kvs u id d h :
  find_by_udi (h_env h) u = Some (id, d) -> id ∈ gdl (h_env h) -> hal_device_are_all_addons_ready d = true ->
  0 < atomic_count (h_bus h) -> NoDup kvs.*1 -> Forall (fun kv => storable d kv.1 kv.2) kvs ->
  exists h', set_entries true false id (entries_of kvs) h = inr (tt, h', []) /\
    find_by_udi (h_env h') u = Some (id, set_all kvs d) /\
    let cs := kvs ≫= changed_by d in
    h_bus h' = mk_bus (atomic_count (h_bus h)) (num_pending_updates (h_bus h) + Z.of_nat (length cs))
                      (updates_of (udi d, reverse cs) ++ pending_updates (h_bus h)).
Proof.
  revert d h. induction kvs as [|[k v] kvs IH]; intros d h Hf Hg Hr Hb Hn Hs.
  { exists h. split; [done|]. split; [done|]. simpl. rewrite Z.add_0_r. by destruct (h_bus h). }
  apply NoDup_cons in Hn as [Hk Hn]. apply Forall_cons in Hs as [H1 Hs].
  destruct (set_variant_run d (k, v) H1) as (Hd & Ht & Hc). cbn [fst snd] in *.
  destruct (find_by_udi_heap _ _ _ _ Hf) as [_ Hh].
  destruct (dev_op_run true false id (set_variant k (property_value v)) h d Hh) as (b & t & Hop & Hbt).
  rewrite bool_decide_eq_true_2, (announce_all_atomic _ id d), Hc in Hbt by done.
  injection Hbt as -> ->. set (h1 := set_bus _ _) in Hop.
  assert (find_by_udi (h_env h1) u = Some (id, set_props <[k := v]> d)) as Hf1.
  { rewrite <- Hd. apply (find_env_after _ _ d); [done | by rewrite Hd]. }
  assert (forall kv, kv ∈ kvs -> kv.1 <> k) as Hne.
  { intros kv Hin He. destruct Hk. rewrite <- He. exact (list_elem_of_fmap_2 fst _ _ Hin). }
  destruct (IH (set_props <[k := v]> d) h1 Hf1 Hg Hr Hb Hn) as (h2 & Hrun & Hf2 & Hb2).
  { apply Forall_forall. intros kv Hin. rewrite Forall_forall in Hs. apply storable_other; auto. }
  exists h2. split; [|split; [exact Hf2|]].
  - cbn [entries_of fmap list_fmap set_entries fst snd].
    exact (hbind_run _ _ _ _ _ _ _ _ _ Hop Hrun).
  - cbv zeta in *. rewrite Hb2, bind_cons. unfold h1.
    cbn [set_bus h_bus atomic_count num_pending_updates pending_updates set_props udi].
    assert (kvs ≫= changed_by (set_props <[k := v]> d) = kvs ≫= changed_by d) as ->.
    { apply Forall_bind_ext, Forall_forall. intros kv Hin. apply changed_other; auto. }
    f_equal; [rewrite length_app; lia|].
    unfold updates_of. cbn [fst snd]. by rewrite reverse_app, fmap_app, <- app_assoc.
Qed.
End Update.

(** ** Building a change set *)
Lemma copy_strings_run values d b :
  holds (Some <$> d) b -> (length d + length values < length b)%nat ->
  exists b', copy_strings values (length d) b = Some (b', length (d ++ values)) /\
    holds (Some <$> d ++ values) b' /\ length b' = length b.
Proof.
  revert d b. induction values as [|v values IH]; intros d b Hb Hl; cbn [copy_strings].
  - rewrite app_nil_r. eauto.
  - destruct (holds_write (Some <$> d) b (Some v)) as (b1 & Hw & L1 & H1);
      [done | rewrite length_fmap; simpl in Hl; lia|].
    rewrite length_fmap in Hw. rewrite Hw. cbn [mbind option_bind].
    replace (S (length d)) with (length (d ++ [v])) by (rewrite length_app; simpl; lia).
    destruct (IH (d ++ [v]) b1) as (b2 & -> & H2 & L2).
    { by rewrite fmap_app. } { rewrite L1, length_app. simpl in *. lia. }
    rewrite <- app_assoc in *. exists b2. rewrite L2. done.
Qed.

Lemma changeset_strlist_run cs key l :
  exists a, libhal_changeset_set_property_strlist (Some cs) (Some key) l =
    Some (true, Some (libhal_changeset_append cs (key, strlist_value a))) /\ strv a = Some l.
Proof.
  unfold libhal_changeset_set_property_strlist.
  destruct (copy_strings_run l [] (replicate (length l + 1) (Some None))) as (b & Hr & Hb & Hl);
    [by intros i x Hi | rewrite length_replicate; simpl; lia|].
  simpl length in Hr. rewrite Hr. cbn [mbind option_bind]. simpl app in *.
  destruct (holds_write (Some <$> l) b None) as (b' & Hw & _ & Hb');
    [done | rewrite length_fmap, Hl, length_replicate; lia|].
  rewrite length_fmap in Hw. rewrite Hw. exists b'. split; [done|]. by apply strv_holds.
Qed.

(** A client adds the values one by one. *)
Definition changeset_set_value (cs : option LibHalChangeSet) (kv : string * HalProperty) : option LibHalChangeSet :=
  match kv.2 with
  | PString s => (libhal_changeset_set_property_string cs (Some kv.1) (Some s)).2
  | PInt32 z => (libhal_changeset_set_property_int cs (Some kv.1) z).2
  | PUint64 z => (libhal_changeset_set_property_uint64 cs (Some kv.1) z).2
  | PBoolean b => (libhal_changeset_set_property_bool cs (Some kv.1) b).2
  | PDouble x => (libhal_changeset_set_property_double cs (Some kv.1) x).2
  | PStrlist l => libhal_changeset_set_property_strlist cs (Some kv.1) l ≫= snd
  end.
Definition build_changeset (u : string) (kvs : list (string * HalProperty)) : option LibHalChangeSet :=
  foldl changeset_set_value (libhal_device_new_changeset (Some u)) kvs.

Lemma changeset_entries_app l1 l2 e1 e2 :
  changeset_entries l1 = Some e1 -> changeset_entries l2 = Some e2 ->
  changeset_entries (l1 ++ l2) = Some (e1 ++ e2).
Proof.
  revert e1. induction l1 as [|[k v] l1 IH]; intros e1; simpl; [by intros [= <-]|].
  destruct (element_value v) as [x|]; simpl; [|done].
  destruct (changeset_entries l1) as [r|]; simpl; [|done]. intros [= <-] H2. by rewrite (IH r eq_refl H2).
Qed.

Lemma set_value_entry cs kv :
  exists x, changeset_set_value (Some cs) kv = Some (libhal_changeset_append cs (kv.1, x)) /\
    element_value x = Some (property_value kv.2).
Proof.
  destruct kv as [k [| | | | |l]]; try (eexists; split; [reflexivity | reflexivity]).
  destruct (changeset_strlist_run cs k l) as (a & Hr & Ha). unfold changeset_set_value. cbn [fst snd]. rewrite Hr.
  exists (strlist_value a). split; [done|]. simpl. by rewrite Ha.
Qed.

Lemma build_run u kvs :
  has_prefix u "/org/freedesktop/Hal/devices/" = true ->
  exists cs, build_changeset u kvs = Some cs /\ cs_udi cs = u /\ changeset_entries (cs_elements cs) = Some (entries_of kvs).
Proof.
  intros Hu. unfold build_changeset, libhal_device_new_changeset. rewrite Hu. cbn [negb].
  assert (forall cs e0, changeset_entries (cs_elements cs) = Some e0 ->
    exists cs', foldl changeset_set_value (Some cs) kvs = Some cs' /\ cs_udi cs' = cs_udi cs /\
      changeset_entries (cs_elements cs') = Some (e0 ++ entries_of kvs)) as H.
  { induction kvs as [|kv kvs IH]; intros cs e0 He; [exists cs; by rewrite app_nil_r|]. cbn [foldl].
    destruct (set_value_entry cs kv) as (x & -> & Hx).
    destruct (IH (libhal_changeset_append cs (kv.1, x)) (e0 ++ [(kv.1, property_value kv.2)])) as (cs' & Hr & Hc & He').
    { simpl. eapply changeset_entries_app; [done|]. simpl. by rewrite Hx. }
    exists cs'. rewrite <- app_assoc in He'. done. }
  destruct (H (mk_changeset u []) [] eq_refl) as (cs & H1 & H2 & H3). eauto.
Qed.

Section Commit.
Context {P : Platform}.
Context (cfg : configuration) (ci_tracker_get_info : string -> option CICallerInfo) (geteuid : Z).
Context (property_order : HalDevice -> list string).
Context (osspec_device_rescan osspec_device_reprobe : nat -> hm bool).
Context (osspec_filter_function : DBusMessage -> hm hresult).
Context (hald_runner_start hald_runner_start_singleton : string -> bool).
Context (stack : list ascii) (rules : cache) (depth udi_fuel : nat) (tv_usec : Z).
Context (printf_g : double -> string) (g_basename : string -> string).
Context (ci_pid : string -> Z) (ci_selinux_context : string -> option string).
Context (polkit_result : HalDevice -> string -> string -> option string).
Context (name : nat -> string) (late : DBusMessage -> dbus_reply).

#[local] Notation dispatch :=
  (hald_dbus_filter_handle_methods cfg ci_tracker_get_info geteuid true false property_order
     osspec_device_rescan osspec_device_reprobe osspec_filter_function hald_runner_start
     hald_runner_start_singleton stack rules depth udi_fuel tv_usec printf_g g_basename ci_pid
     ci_selinux_context polkit_result).
#[local] Notation send := (bus_send dispatch name late).

Lemma set_multiple_run m (local : bool) kvs h id d :
  m_args m = [VDict (entries_of kvs)] -> find_by_udi (h_env h) (m_path m) = Some (id, d) ->
  local = true \/ privileged ci_tracker_get_info geteuid m = true ->
  id ∈ gdl (h_env h) -> hal_device_are_all_addons_ready d = true -> h_bus h = mk_bus 0 0 [] ->
  NoDup kvs.*1 -> Forall (fun kv => storable d kv.1 kv.2) kvs ->
  let cs := kvs ≫= changed_by d in
  exists h', device_set_multiple_properties ci_tracker_get_info geteuid true false m local h =
      inr (MethodReturn [], h', match cs with [] => [] | _ => [Broadcast (message_of (udi d, reverse cs))] end) /\
    find_by_udi (h_env h') (m_path m) = Some (id, set_all kvs d) /\ h_bus h' = mk_bus 0 0 [].
Proof.
  intros Ha Hf Hp Hg Hr Hb Hn Hs cs. unfold device_set_multiple_properties, find_device_object.
  rewrite hbind_get, Hf, Ha.
  assert (negb local && negb (privileged ci_tracker_get_info geteuid m) = false) as ->
    by (destruct Hp as [->| ->]; [done | by rewrite andb_false_r]).
  change (is_array (VDict (entries_of kvs))) with true. cbv iota. unfold atomic_update_begin. rewrite hbind_mod, Hb.
  set (h0 := set_bus _ h).
  destruct (set_entries_run kvs (m_path m) id d h0 Hf Hg Hr ltac:(done) Hn Hs) as (h1 & Hrun & Hf1 & Hb1).
  fold cs in Hb1. simpl dict_entries. eexists (set_bus (mk_bus 0 0 []) h1). split; [|done].
  erewrite hbind_run; [|exact Hrun|]; [reflexivity|].
  unfold atomic_update_end, hbind. rewrite Hb1. cbn [h0 h_bus set_bus device_property_atomic_update_begin
    atomic_count num_pending_updates pending_updates].
  rewrite end_of_one_device. destruct cs; done.
Qed.

End Commit.

(** ** Instances *)
Module Instances.
Import AsciiPlatform Example.

Definition root : LibHalContext := mk_ctx (Some 0%nat) true false false false (fun _ => true) None.
Definition user : LibHalContext := mk_ctx (Some 7%nat) true false false false (fun _ => true) None.
Definition bus_name (n : nat) : string := ":1." +:+ pretty n.
Definition no_reply (m : DBusMessage) : dbus_reply := ErrorReply "org.freedesktop.DBus.Error.NoReply" "".
Definition example_send : LibHalContext -> DBusMessage -> hm dbus_reply :=
  bus_send Example.dispatch bus_name no_reply.

Lemma signals_reach_their_callbacks_witness :
  filter_func user true (signal_message (PropertyModified VOLUME 2 [("a", false, true); ("b", true, false)])) =
    Some (false, [on_device_property_modified VOLUME "a" false true; on_device_property_modified VOLUME "b" true false]).
Proof. apply signals_reach_their_callbacks; done. Defined.

Lemma getters_read_the_device_witness :
  libhal_device_get_property_uint64 example_send (Some user) (Some VOLUME) (Some "volume.size") start =
    inr ((4096, None), start, []).
Proof.
  unfold example_send, Example.dispatch.
  apply (getters_read_the_device NoConsoleKit callers 0 true false order
    (fun _ => hret true) (fun _ => hret true) (fun _ => hret NotHandled) (fun _ => true) (fun _ => true)
    [] no_rules 1 10 0 (fun _ => "") (fun s => s) (fun _ => 0) (fun _ => None) (fun _ _ _ => None)
    bus_name no_reply user 7 VOLUME "volume.size" start 1 volume); reflexivity.
Defined.

Lemma walks_keys d : walks order d.
Proof.
  unfold order. split; [apply NoDup_fst_map_to_list|]. intros k. rewrite list_elem_of_fmap. split.
  - intros ([k' p] & -> & Hin). apply elem_of_map_to_list in Hin. by exists p.
  - intros [p Hp]. exists (k, p). split; [done|]. by apply elem_of_map_to_list.
Qed.

Lemma property_set_agrees_with_the_device_witness :
  exists set, libhal_device_get_all_properties example_send (Some user) (Some VOLUME) start =
      inr ((Some set, None), start, []) /\
    libhal_ps_get_string (Some set) (Some "volume.label") = Some "DATA".
Proof.
  destruct (property_set_agrees_with_the_device NoConsoleKit callers 0 true false order
    (fun _ => hret true) (fun _ => hret true) (fun _ => hret NotHandled) (fun _ => true) (fun _ => true)
    [] no_rules 1 10 0 (fun _ => "") (fun s => s) (fun _ => 0) (fun _ => None) (fun _ _ _ => None)
    bus_name no_reply user 7 VOLUME start 1 volume) as (set & H1 & H2);
    [reflexivity | reflexivity | reflexivity | apply walks_keys|].
  exists set. split; [exact H1|]. exact (proj1 (proj2 (H2 "volume.label"))).
Defined.

Lemma client_reads_what_it_set_witness :
  exists h' t, libhal_device_set_property_string example_send (Some root) (Some VOLUME) (Some "volume.label")
      (Some "BACKUP") start = inr ((true, None), h', t) /\
    find_by_udi (h_env h') VOLUME = Some (1%nat, set_props <["volume.label" := PString "BACKUP"]> volume).
Proof.
  destruct (client_reads_what_it_set NoConsoleKit callers 0 true false order
    (fun _ => hret true) (fun _ => hret true) (fun _ => hret NotHandled) (fun _ => true) (fun _ => true)
    [] no_rules 1 10 0 (fun _ => "") (fun s => s) (fun _ => 0) (fun _ => None) (fun _ _ _ => None)
    bus_name no_reply root 0 VOLUME "volume.label" (PString "BACKUP") start 1 volume) as (h' & t & H1 & H2 & _);
    [reflexivity | right; reflexivity | reflexivity | reflexivity | reflexivity | by split|].
  exists h', t. split; [exact H1 | exact H2].
Defined.

Definition changes_to_volume : list (string * HalProperty) :=
  [("volume.label", PString "BACKUP"); ("volume.size", PUint64 4096); ("volume.mount_points", PStrlist ["/a"; "/b"])].

End Instances.
