(* ===== verification/Power.v ===== *)
(** * Battery properties ([hald/util_pm.c], [hald/device_pm.c])

    The back ends report what the hardware says under [battery.reporting.*];
    these functions derive charge levels in one unit, a percentage and the time
    that remains.  Arithmetic on [int] wraps around, as in [CStd]; the
    computations with [double] are those of IEEE binary64.

    Rates that the hardware does not report are estimated from the levels of
    earlier calls, kept in a table by UDI.  The table keeps the pointer to the
    UDI and not a copy: the model is that of devices that are not destroyed. *)

From Stdlib Require Import ZArith Lia Ascii SpecFloat.
From stdpp Require Import base list gmap strings option.
From S2P Require Import Prelude CStd Property Device DeviceStore FdiRules.

(** ** Conversions *)

(** [(int) x]: toward zero; out of range the x86-64 conversion yields the
    smallest integer. *)
Definition trunc_int (x : double) : Z :=
  match x with
  | S754_finite sg m e =>
      let a := if 0 <=? e then Z.pos m * 2 ^ e else Z.pos m / 2 ^ (- e) in
      let z := if sg then - a else a in
      if (- 2 ^ 31 <=? z) && (z <? 2 ^ 31) then z else - 2 ^ 31
  | S754_zero _ => 0
  | _ => - 2 ^ 31
  end.

(** ** [util_pm.c] *)
Definition util_get_battery_technology (type : option string) : string :=
  match type with
  | None => "unknown"
  | Some type =>
      if (strcasecmp type "li-ion" =? 0) || (strcasecmp type "lion" =? 0) then "lithium-ion"
      else if (strcasecmp type "pb" =? 0) || (strcasecmp type "pbac" =? 0) then "lead-acid"
      else if (strcasecmp type "lip" =? 0) || (strcasecmp type "lipo" =? 0) then "lithium-polymer"
      else if (strcasecmp type "nimh" =? 0) then "nickel-metal-hydride"
      else if (strcasecmp type "lifo" =? 0) then "lithium-iron-phosphate"
      else "unknown"
  end.

Record batteryInfo := mk_battery {
  last_level : Z;
  last_chargeRate : Z;
  high_time_warn_count : Z;
  last_time : Z;
}.
Notation saved_battery_info := (gmap string batteryInfo).

(** [None]: the first call for this battery. *)
Definition guess_rate (cur_time : Z) (id : string) (chargeLevel : Z) (saved : saved_battery_info)
  : option Z * saved_battery_info :=
  match saved !! id with
  | Some info =>
      if (cur_time =? last_time info) || (chargeLevel =? last_level info)
      then (Some (last_chargeRate info), saved)
      else
        let rate := s32 (Z.quot (s32 (s32 (s32 (chargeLevel - last_level info) * 60) * 60))
                                (s64 (cur_time - last_time info))) in
        let rate := if 0 <? rate then rate else s32 (- rate) in
        (Some rate, <[id := mk_battery chargeLevel rate (high_time_warn_count info) cur_time]> saved)
  | None => (None, <[id := mk_battery chargeLevel 0 0 cur_time]> saved)
  end.

(** [((double) level / (double) rate) * 60 * 60] as an [int]. *)
Definition seconds (level rate : Z) : Z :=
  trunc_int (dbl_mul (dbl_mul (dbl_div (dbl_of_int level) (dbl_of_int rate)) (dbl_of_int 60)) (dbl_of_int 60)).

(** The warning about a time that is too long is counted. *)
Definition count_warning (id : string) (saved : saved_battery_info) : saved_battery_info :=
  let info := default (mk_battery (-1) (-1) 0 (-1)) (saved !! id) in
  let n := high_time_warn_count info in
  <[id := if (n <? 10) || (Z.rem n 100 =? 0)
          then mk_battery (last_level info) (last_chargeRate info) (n + 1) (last_time info) else info]> saved.

Definition checked_time (id : string) (remaining_time : Z) (saved : saved_battery_info)
  : Z * saved_battery_info :=
  if remaining_time <? 0 then (-1, saved)
  else if 60 * 60 * 60 <? remaining_time then (-1, count_warning id saved)
  else (remaining_time, saved).

Definition util_compute_time_remaining (cur_time : Z) (id : string) (chargeRate chargeLevel chargeLastFull : Z)
    (isDischarging isCharging guessChargeRate : bool) (saved : saved_battery_info) : Z * saved_battery_info :=
  if (chargeRate <? 0) || (chargeLevel <? 0) || (chargeLastFull <? 0) then (-1, saved)
  else if isDischarging && isCharging then (-1, saved)
  else
    let '(rate, saved) :=
      if (chargeRate =? 0) || guessChargeRate then guess_rate cur_time id chargeLevel saved
      else (Some chargeRate, saved) in
    match rate with
    | None => (-1, saved)
    | Some rate =>
        if rate =? 0 then (-1, saved)
        else if isDischarging then checked_time id (seconds chargeLevel rate) saved
        else if isCharging then
          if chargeLastFull <? chargeLevel then (-1, saved)
          else checked_time id (seconds (s32 (chargeLastFull - chargeLevel)) rate) saved
        else checked_time id 0 saved
    end.

(** ** [device_pm.c] *)
Record charge := mk_charge { current : Z; last_full : Z; design : Z; rate : Z }.

Definition reporting (d : HalDevice) : charge :=
  let get key := hal_device_property_get_int d ("battery.reporting." +:+ key) in
  let r := get "rate" in
  mk_charge (get "current") (get "last_full") (get "design") (if r =? 65535 then 0 else r).

(** The voltage by which [mAh] are converted. *)
Definition used_voltage (d : HalDevice) : Z :=
  let design_voltage := hal_device_property_get_int d "battery.voltage.design" in
  let voltage := hal_device_property_get_int d "battery.voltage.current" in
  let design_voltage := if design_voltage <=? 0 then 1000 else design_voltage in
  if (voltage <? Z.quot design_voltage 2) || (design_voltage <? voltage) then design_voltage else voltage.

Definition to_mWh (voltage x : Z) : Z := Z.quot (s32 (x * voltage)) 1000.
Definition not_negative (x : Z) : Z := if x <? 0 then 0 else x.

Definition map_charge (f : Z -> Z) (c : charge) : charge :=
  mk_charge (f (current c)) (f (last_full c)) (f (design c)) (f (rate c)).

Definition is_primary (d : HalDevice) : bool :=
  match hal_device_property_get_string d "battery.type" with
  | Some bat_type => has_prefix bat_type "primary"
  | None => false
  end.

(** [hal_device_store_match_multiple_key_value_string] on the global list. *)
Definition in_category (e : env) (category : string) : list HalDevice :=
  omap (fun id => e_heap e !! id) (collect (has_string "info.category" category) (e_heap e) (gdl e) []).

Definition on_ac (e : env) : bool :=
  existsb (fun a => hal_device_has_property a "linux.acpi_type" &&
                    hal_device_property_get_bool a "ac_adapter.present") (in_category e "ac_adapter").

Definition other_discharging (e : env) (d : HalDevice) : bool :=
  existsb (fun b => hal_device_has_property b "linux.acpi_type" && is_primary b &&
                    negb (udi d =s? udi b) &&
                    hal_device_property_get_bool b "battery.rechargeable.is_discharging")
          (in_category e "battery").

(** The rate of a battery that is neither charged nor discharged. *)
Definition idle_rate (e : env) (d : HalDevice) (r : Z) : Z :=
  if is_primary d then if on_ac e then 0 else if other_discharging e d then 0 else r
  else 0.

Definition normalised (e : env) (d : HalDevice) : charge :=
  let c := reporting d in
  let c := match hal_device_property_get_string d "battery.reporting.unit" with
           | Some unit => if unit =s? "mAh" then map_charge (to_mWh (used_voltage d)) c else c
           | None => c
           end in
  let c := map_charge not_negative c in
  let charging := hal_device_property_get_bool d "battery.rechargeable.is_charging" in
  let discharging := hal_device_property_get_bool d "battery.rechargeable.is_discharging" in
  let r := if negb charging && negb discharging then idle_rate e d (rate c) else rate c in
  let cur := if last_full c <? current c then last_full c else current c in
  mk_charge cur (last_full c) (design c) r.

Definition device_pm_abstract_props (e : env) : dev unit :=
  let* c := dget (normalised e) in
  hal_device_property_set_int "battery.charge_level.current" (current c) ;;;
  hal_device_property_set_int "battery.charge_level.last_full" (last_full c) ;;;
  hal_device_property_set_int "battery.charge_level.design" (design c) ;;;
  hal_device_property_set_int "battery.charge_level.rate" (rate c) ;;;
  dret tt.

Definition percentage_of (current lastfull : Z) : Z :=
  if current <? 0 then -1
  else if current =? 0 then 0
  else if lastfull <=? 0 then -1
  else
    let p := trunc_int (dbl_mul (dbl_div (dbl_of_int current) (dbl_of_int lastfull)) (dbl_of_int 100)) in
    if 100 <? p then 100 else if p <? 0 then 1 else p.

Definition device_pm_calculate_percentage : dev unit :=
  let* percentage := dget (fun d => percentage_of (hal_device_property_get_int d "battery.charge_level.current")
                                                  (hal_device_property_get_int d "battery.charge_level.last_full")) in
  if percentage <? 0 then hal_device_property_remove "battery.charge_level.percentage" ;;; dret tt
  else hal_device_property_set_int "battery.charge_level.percentage" percentage ;;; dret tt.

(** The reported rate of charging is above 50 W. *)
Definition suspicious_rate (d : HalDevice) : bool :=
  hal_device_property_get_bool d "battery.rechargeable.is_charging" &&
  bool_decide (hal_device_property_get_string d "battery.type" = Some "primary") &&
  bool_decide (hal_device_property_get_string d "battery.charge_level.unit" = Some "mWh") &&
  (50000 <? hal_device_property_get_int d "battery.charge_level.rate").

Definition device_pm_calculate_time (cur_time : Z) (saved : saved_battery_info) : dev saved_battery_info :=
  let* per_time := dget (fun d => hal_device_property_get_bool d "battery.remaining_time.calculate_per_time") in
  let* suspicious := dget suspicious_rate in
  let* calculate_per_time :=
    (if negb per_time && suspicious
     then hal_device_property_set_bool "battery.remaining_time.calculate_per_time" true ;;; dret true
     else dret per_time) in
  let* computed := dget (fun d =>
    util_compute_time_remaining cur_time (udi d)
      (hal_device_property_get_int d "battery.charge_level.rate")
      (hal_device_property_get_int d "battery.charge_level.current")
      (hal_device_property_get_int d "battery.charge_level.last_full")
      (hal_device_property_get_bool d "battery.rechargeable.is_discharging")
      (hal_device_property_get_bool d "battery.rechargeable.is_charging")
      calculate_per_time saved) in
  (if 0 <? computed.1 then hal_device_property_set_int "battery.remaining_time" computed.1
   else hal_device_property_remove "battery.remaining_time") ;;;
  dret computed.2.

Definition optional_keys : list string :=
  ["battery.is_rechargeable"; "battery.rechargeable.is_charging"; "battery.rechargeable.is_discharging";
   "battery.vendor"; "battery.model"; "battery.serial"; "battery.reporting.technology";
   "battery.technology"; "battery.vendor"; "battery.charge_level.unit"; "battery.charge_level.current";
   "battery.charge_level.percentage"; "battery.charge_level.last_full"; "battery.charge_level.design";
   "battery.charge_level.capacity_state"; "battery.charge_level.warning"; "battery.charge_level.low";
   "battery.charge_level.granularity_1"; "battery.charge_level.granularity_2"; "battery.charge_level.rate";
   "battery.voltage.unit"; "battery.voltage.design"; "battery.voltage.current"; "battery.alarm.unit";
   "battery.alarm.design"; "battery.reporting.current"; "battery.reporting.last_full";
   "battery.reporting.design"; "battery.reporting.rate"; "battery.reporting.warning";
   "battery.reporting.low"; "battery.reporting.granularity_1"; "battery.reporting.granularity_2";
   "battery.reporting.unit"; "battery.remaining_time"].

Fixpoint remove_each (keys : list string) : dev unit :=
  match keys with
  | [] => dret tt
  | key :: rest => hal_device_property_remove key ;;; remove_each rest
  end.
Definition device_pm_remove_optional_props : dev unit := remove_each optional_keys.
