(* ===== verification/PowerClaims.v ===== *)
(** * What a battery reports

    The derived properties of a battery are consistent with each other whatever
    the hardware says, and a missing rate is estimated from two levels. *)

From Stdlib Require Import ZArith Lia Ascii SpecFloat.
From stdpp Require Import base list gmap strings option pretty fin_maps.
From S2P Require Import Prelude CStd Property Device DeviceTheory DeviceMerge DeviceStore FdiRules Power.

(** ** Integer properties *)
Definition int_or_absent (d : HalDevice) (key : string) : Prop :=
  match props d !! key with Some q => hal_property_get_type q = HAL_PROPERTY_TYPE_INT32 | None => True end.

Section Power.
Context {P : Platform}.

Lemma set_int_run key z d :
  int_or_absent d key ->
  dev_of (hal_device_property_set_int key z d) = set_props <[key := PInt32 z]> d.
Proof. intros H. by apply (set_value_dev key (PInt32 z)). Qed.

Lemma int_or_absent_insert d key k z : int_or_absent d key -> int_or_absent (set_props <[k := PInt32 z]> d) key.
Proof.
  unfold int_or_absent. simpl. destruct (decide (k = key)) as [->|Hne];
    [by rewrite lookup_insert_eq | by rewrite lookup_insert_ne].
Qed.

Lemma get_int_insert key z d : hal_device_property_get_int (set_props <[key := PInt32 z]> d) key = z.
Proof. unfold hal_device_property_get_int, hal_device_property_find. simpl. by rewrite lookup_insert_eq. Qed.

Lemma get_int_other key k p d :
  k <> key -> hal_device_property_get_int (set_props <[k := p]> d) key = hal_device_property_get_int d key.
Proof.
  intros H. unfold hal_device_property_get_int, hal_device_property_find. simpl. by rewrite lookup_insert_ne.
Qed.

Definition level_keys : list string :=
  ["battery.charge_level.current"; "battery.charge_level.last_full"; "battery.charge_level.design";
   "battery.charge_level.rate"; "battery.charge_level.percentage"; "battery.remaining_time"].

(** The properties of a device with the levels [c]. *)
Definition with_levels (c : charge) (d : HalDevice) : HalDevice :=
  set_props <["battery.charge_level.rate" := PInt32 (rate c)]>
    (set_props <["battery.charge_level.design" := PInt32 (design c)]>
       (set_props <["battery.charge_level.last_full" := PInt32 (last_full c)]>
          (set_props <["battery.charge_level.current" := PInt32 (current c)]> d))).

Lemma abstract_props_run e d :
  Forall (int_or_absent d) level_keys ->
  dev_of (device_pm_abstract_props e d) = with_levels (normalised e d) d.
Proof.
  intros H. unfold level_keys in H. rewrite !Forall_cons_iff in H. destruct H as (H1 & H2 & H3 & H4 & _).
  unfold device_pm_abstract_props. autorewrite with dev.
  rewrite (set_int_run "battery.charge_level.current" _ d) by done.
  rewrite (set_int_run "battery.charge_level.last_full") by by apply int_or_absent_insert.
  rewrite (set_int_run "battery.charge_level.design") by by do 2 apply int_or_absent_insert.
  rewrite set_int_run by by do 3 apply int_or_absent_insert. done.
Qed.

Lemma normalised_ok e d (c := normalised e d) :
  0 <= current c <= last_full c /\ 0 <= design c /\ 0 <= rate c.
Proof.
  subst c. unfold normalised. cbv zeta. set (c := match _ with Some _ => _ | None => _ end).
  assert (Hn : forall x, 0 <= not_negative x) by (intros x; unfold not_negative; destruct (x <? 0) eqn:?; lia).
  unfold map_charge. simpl. pose proof (Hn (current c)). pose proof (Hn (last_full c)).
  pose proof (Hn (design c)). pose proof (Hn (rate c)).
  repeat split; [destruct (_ <? _) eqn:?; lia.. | done |].
  destruct (negb _ && negb _); [|done]. unfold idle_rate.
  by destruct (is_primary d), (on_ac e), (other_discharging e d).
Qed.

Lemma percentage_range cur full : 0 <= cur <= full -> 0 <= percentage_of cur full <= 100.
Proof.
  intros H. unfold percentage_of. destruct (cur <? 0) eqn:E1; [lia|]. destruct (cur =? 0) eqn:E2; [lia|].
  destruct (full <=? 0) eqn:E3; [lia|]. cbv zeta. set (p := trunc_int _).
  destruct (100 <? p) eqn:?; [lia|]. destruct (p <? 0) eqn:?; lia.
Qed.

Lemma time_range now id r l f dis ch g saved :
  -1 <= (util_compute_time_remaining now id r l f dis ch g saved).1 <= 216000.
Proof.
  assert (Hc : forall t s, -1 <= (checked_time id t s).1 <= 216000).
  { intros t s. unfold checked_time. destruct (t <? 0) eqn:?; [simpl; lia|].
    destruct (60 * 60 * 60 <? t) eqn:?; simpl; lia. }
  unfold util_compute_time_remaining. destruct (_ || _ || _); [simpl; lia|].
  destruct (dis && ch); [simpl; lia|].
  destruct ((r =? 0) || g); [destruct (guess_rate now id l saved) as [[x|] s']|];
    [|simpl; lia|]; (destruct (_ =? 0); [simpl; lia|]); (destruct dis; [apply Hc|]);
    (destruct ch; [destruct (f <? l); [simpl; lia | apply Hc] | apply Hc]).
Qed.

(** [key] holds an integer that [Q] accepts. *)
Definition reads_int (d : HalDevice) (key : string) (Q : Z -> Prop) : Prop :=
  exists z, props d !! key = Some (PInt32 z) /\ Q z.

Lemma percentage_run c d :
  0 <= current c <= last_full c -> int_or_absent d "battery.charge_level.percentage" ->
  dev_of (device_pm_calculate_percentage (with_levels c d)) =
    set_props <["battery.charge_level.percentage" := PInt32 (percentage_of (current c) (last_full c))]>
      (with_levels c d).
Proof.
  intros Hc Hp. unfold device_pm_calculate_percentage. autorewrite with dev. unfold with_levels.
  rewrite !(get_int_other "battery.charge_level.last_full"), !(get_int_other "battery.charge_level.current") by done.
  rewrite !get_int_insert. pose proof (percentage_range _ _ Hc).
  destruct (_ <? 0) eqn:?; [lia|]. autorewrite with dev.
  rewrite set_int_run by (repeat apply int_or_absent_insert; done). done.
Qed.

(** What calculating the time changes. *)
Lemma time_run now saved d :
  int_or_absent d "battery.remaining_time" ->
  let d' := dev_of (device_pm_calculate_time now saved d) in
  (forall key, key <> "battery.remaining_time" -> key <> "battery.remaining_time.calculate_per_time" ->
               props d' !! key = props d !! key) /\
  (props d' !! "battery.remaining_time" = None \/
   reads_int d' "battery.remaining_time" (fun t => 0 < t <= 216000)).
Proof.
  intros Hd d'. subst d'. unfold device_pm_calculate_time. autorewrite with dev.
  set (per := hal_device_property_get_bool _ _).
  set (flag := if negb per && suspicious_rate d then _ else _). set (d1 := dev_of (flag d)).
  assert (H1 : forall key, key <> "battery.remaining_time.calculate_per_time" -> props d1 !! key = props d !! key).
  { intros key Hk. subst d1 flag. destruct (negb per && suspicious_rate d); [|done]. autorewrite with dev.
    destruct (set_bool_keeps "battery.remaining_time.calculate_per_time" true d) as [Hw _].
    apply write_frame in Hw as (_ & _ & _ & Hw). by apply Hw. }
  assert (Hi : int_or_absent d1 "battery.remaining_time") by (unfold int_or_absent; by rewrite H1).
  set (computed := util_compute_time_remaining _ _ _ _ _ _ _ _ _).
  assert (Ht : computed.1 <= 216000) by apply time_range.
  destruct (0 <? computed.1) eqn:E.
  - rewrite set_int_run by done. simpl. split.
    + intros key ? ?. rewrite lookup_insert_ne by done. by apply H1.
    + right. exists computed.1. simpl. rewrite lookup_insert_eq. split; [done | lia].
  - rewrite remove_props. split; [|left; apply lookup_delete_eq].
    intros key ? ?. rewrite lookup_delete_ne by done. by apply H1.
Qed.

(** ** What is derived from the reports *)
Definition reported (d : HalDevice) (key : string) : Z :=
  hal_device_property_get_int d ("battery.reporting." +:+ key).

(** A rate of 65535 stands for an unknown one. *)
Definition reported_rate (d : HalDevice) : Z :=
  if reported d "rate" =? 65535 then 0 else reported d "rate".
Definition busy (d : HalDevice) : Prop :=
  hal_device_property_get_bool d "battery.rechargeable.is_charging" = true \/
  hal_device_property_get_bool d "battery.rechargeable.is_discharging" = true.

Lemma not_negative_max x : not_negative x = Z.max 0 x.
Proof. unfold not_negative. destruct (x <? 0) eqn:?; lia. Qed.
Lemma clamped c f : (if f <? c then f else c) = Z.min f c.
Proof. destruct (f <? c) eqn:?; lia. Qed.

Lemma busy_rate d r0 r : busy d ->
  (if negb (hal_device_property_get_bool d "battery.rechargeable.is_charging") &&
      negb (hal_device_property_get_bool d "battery.rechargeable.is_discharging") then r0 else r) = r :> Z.
Proof. intros [-> | ->]; [done | by rewrite andb_false_r]. Qed.

Lemma plain_levels e d :
  hal_device_property_get_string d "battery.reporting.unit" <> Some "mAh" ->
  last_full (normalised e d) = Z.max 0 (reported d "last_full") /\
  current (normalised e d) = Z.min (last_full (normalised e d)) (Z.max 0 (reported d "current")) /\
  design (normalised e d) = Z.max 0 (reported d "design") /\
  (busy d -> rate (normalised e d) = Z.max 0 (reported_rate d)).
Proof.
  intros Hu. unfold normalised. cbv zeta.
  assert (E : (match hal_device_property_get_string d "battery.reporting.unit" with
               | Some unit => if unit =s? "mAh" then map_charge (to_mWh (used_voltage d)) (reporting d) else reporting d
               | None => reporting d end) = reporting d).
  { destruct (hal_device_property_get_string d _) as [u|]; [|done].
    by assert ((u =s? "mAh") = false) as -> by (apply bool_decide_eq_false; congruence). }
  rewrite E. cbn [map_charge reporting current last_full design rate]. rewrite !not_negative_max, clamped.
  split_and!; try done. intros B. by rewrite busy_rate.
Qed.

(** Ampere hours are multiplied by a voltage between half the design voltage
    (1 V, if it is not known) and the design voltage. *)
Definition design_voltage (d : HalDevice) : Z :=
  let V := hal_device_property_get_int d "battery.voltage.design" in if V <=? 0 then 1000 else V.
Definition convertible (d : HalDevice) (x : Z) : Prop := 0 <= x /\ x * design_voltage d < 2 ^ 31.

Lemma used_voltage_range d : 0 < design_voltage d /\ design_voltage d / 2 <= used_voltage d <= design_voltage d.
Proof.
  unfold used_voltage, design_voltage. cbv zeta. set (V := if _ <=? 0 then _ else _).
  assert (0 < V) by (subst V; destruct (_ <=? 0) eqn:?; lia). split; [done|].
  rewrite Z.quot_div_nonneg by lia. pose proof (Z.div_le_upper_bound V 2 V ltac:(lia) ltac:(lia)).
  destruct ((_ <? _) || (_ <? _)) eqn:E; [lia|]. apply orb_false_iff in E as [? ?]. lia.
Qed.

Lemma convert d x : convertible d x -> not_negative (to_mWh (used_voltage d) x) = x * used_voltage d / 1000.
Proof.
  intros [H0 Hb]. destruct (used_voltage_range d) as [HV Hv]. set (V := design_voltage d) in *. set (v := used_voltage d) in *.
  pose proof (Z.div_pos V 2 ltac:(lia) ltac:(lia)).
  assert (0 <= x * v < 2 ^ 31).
  { split; [apply Z.mul_nonneg_nonneg; lia|].
    apply Z.le_lt_trans with (x * V); [apply Z.mul_le_mono_nonneg_l; lia | done]. }
  unfold to_mWh. rewrite wrap_s_id by (unfold in_s; lia). rewrite Z.quot_div_nonneg by lia.
  pose proof (Z.div_pos (x * v) 1000 ltac:(lia) ltac:(lia)). rewrite not_negative_max. lia.
Qed.

Lemma converted_levels e d :
  hal_device_property_get_string d "battery.reporting.unit" = Some "mAh" ->
  let v := used_voltage d in
  (convertible d (reported d "last_full") -> last_full (normalised e d) = reported d "last_full" * v / 1000) /\
  (convertible d (reported d "current") ->
     current (normalised e d) = Z.min (last_full (normalised e d)) (reported d "current" * v / 1000)) /\
  (convertible d (reported d "design") -> design (normalised e d) = reported d "design" * v / 1000) /\
  (convertible d (reported_rate d) -> busy d -> rate (normalised e d) = reported_rate d * v / 1000).
Proof.
  intros Hu v. unfold normalised. cbv zeta. rewrite Hu. change ("mAh" =s? "mAh") with true. cbv iota.
  cbn [map_charge reporting current last_full design rate]. rewrite clamped.
  fold (reported d "last_full") (reported d "current") (reported d "design") (reported d "rate") (reported_rate d).
  split_and!; [apply convert | | apply convert |].
  - intros Hc. by rewrite (convert d (reported d "current") Hc).
  - intros Hc B. by rewrite busy_rate, convert.
Qed.

Lemma idle_on_ac e d :
  hal_device_property_get_bool d "battery.rechargeable.is_charging" = false ->
  hal_device_property_get_bool d "battery.rechargeable.is_discharging" = false ->
  on_ac e = true -> rate (normalised e d) = 0.
Proof.
  intros H1 H2 H3. unfold normalised. cbv zeta. rewrite H1, H2. cbn [rate negb andb]. unfold idle_rate.
  rewrite H3. by destruct (is_primary d).
Qed.

(** C36 A battery whose level properties are integers or absent has,
    after [device_pm_abstract_props],
    [device_pm_calculate_percentage] and [device_pm_calculate_time], whatever the hardware reports (a product that
    exceeds 32 bits wraps around),
    a charge between 0 and the last full charge, a design charge and a rate that are not negative, a
    percentage between 0 and 100 (0 when it is empty), and either no remaining
    time or one of more than 0 and at most 60 hours.  Charges reported in another unit than ampere hours are
    taken as they are, cut to this range, and so is the rate of a battery that is charged or discharged, but for
    65535, which counts as 0.  Charges reported in ampere hours, and such a rate, are multiplied
    by one voltage between half the design voltage and the design voltage (1 V where that is not known), as far as
    each is not negative and its product with the design voltage is below 2^31 (beyond, the code overflows).  A
    battery that is neither charged nor discharged on AC has rate 0. *)
Theorem battery_report_is_consistent e d now saved :
  Forall (int_or_absent d) level_keys ->
  let d1 := dev_of (device_pm_abstract_props e d) in
  let d2 := dev_of (device_pm_calculate_percentage d1) in
  let d3 := dev_of (device_pm_calculate_time now saved d2) in
  exists cur full des r pct,
    props d3 !! "battery.charge_level.current" = Some (PInt32 cur) /\
    props d3 !! "battery.charge_level.last_full" = Some (PInt32 full) /\
    props d3 !! "battery.charge_level.design" = Some (PInt32 des) /\
    props d3 !! "battery.charge_level.rate" = Some (PInt32 r) /\
    props d3 !! "battery.charge_level.percentage" = Some (PInt32 pct) /\
    0 <= cur <= full /\ 0 <= des /\ 0 <= r /\ 0 <= pct <= 100 /\ (cur = 0 -> pct = 0) /\
    (props d3 !! "battery.remaining_time" = None \/
     reads_int d3 "battery.remaining_time" (fun t => 0 < t <= 60 * 60 * 60)) /\
    (hal_device_property_get_string d "battery.reporting.unit" <> Some "mAh" ->
     full = Z.max 0 (reported d "last_full") /\ cur = Z.min full (Z.max 0 (reported d "current")) /\
     des = Z.max 0 (reported d "design") /\ (busy d -> r = Z.max 0 (reported_rate d))) /\
    (hal_device_property_get_string d "battery.reporting.unit" = Some "mAh" ->
     exists v, design_voltage d / 2 <= v <= design_voltage d /\
       (convertible d (reported d "last_full") -> full = reported d "last_full" * v / 1000) /\
       (convertible d (reported d "current") -> cur = Z.min full (reported d "current" * v / 1000)) /\
       (convertible d (reported d "design") -> des = reported d "design" * v / 1000) /\
       (convertible d (reported_rate d) -> busy d -> r = reported_rate d * v / 1000)) /\
    (hal_device_property_get_bool d "battery.rechargeable.is_charging" = false ->
     hal_device_property_get_bool d "battery.rechargeable.is_discharging" = false ->
     on_ac e = true -> r = 0).
Proof.
  intros H d1 d2 d3. pose proof (normalised_ok e d) as (Hc & Hg & Hr).
  assert (Hk := H). unfold level_keys in Hk. rewrite !Forall_cons_iff in Hk.
  destruct Hk as (_ & _ & _ & _ & Hp & Ht & _).
  assert (E2 : d2 = set_props <["battery.charge_level.percentage" :=
                 PInt32 (percentage_of (current (normalised e d)) (last_full (normalised e d)))]>
                 (with_levels (normalised e d) d)).
  { subst d2 d1. rewrite abstract_props_run by done. by apply percentage_run. }
  destruct (time_run now saved d2) as [Hf Htime].
  { rewrite E2. unfold with_levels. by repeat apply int_or_absent_insert. }
  fold d3 in Hf, Htime.
  exists (current (normalised e d)), (last_full (normalised e d)), (design (normalised e d)), (rate (normalised e d)),
    (percentage_of (current (normalised e d)) (last_full (normalised e d))).
  rewrite !Hf by done. rewrite E2.
  unfold with_levels, set_props. cbn [props].
  split_and!; try done; try apply Hc; try (by apply percentage_range);
    try (by rewrite !lookup_insert_ne, lookup_insert_eq by done); [by rewrite lookup_insert_eq|..].
  - by intros ->.
  - apply plain_levels.
  - intros Hu. exists (used_voltage d). split; [apply used_voltage_range | by apply converted_levels].
  - apply idle_on_ac.
Qed.
End Power.

(** ** Estimated rates *)
Lemma guess_other now id id' l saved :
  id' <> id -> (guess_rate now id l saved).2 !! id' = saved !! id'.
Proof.
  intros H. unfold guess_rate. destruct (saved !! id) as [info|].
  - destruct (_ || _); [done|]. cbn [snd]. by rewrite lookup_insert_ne.
  - cbn [snd]. by rewrite lookup_insert_ne.
Qed.

Lemma checked_other id id' t saved : id' <> id -> (checked_time id t saved).2 !! id' = saved !! id'.
Proof.
  intros H. unfold checked_time, count_warning. repeat destruct (_ <? _); simpl; try done;
    by rewrite lookup_insert_ne.
Qed.

Lemma compute_other now id id' r l f dis ch g saved :
  id' <> id -> (util_compute_time_remaining now id r l f dis ch g saved).2 !! id' = saved !! id'.
Proof.
  intros H. unfold util_compute_time_remaining. destruct (_ || _ || _); [done|].
  destruct (dis && ch); [done|]. pose proof (guess_other now id id' l saved H) as Hg.
  destruct ((r =? 0) || g); [destruct (guess_rate now id l saved) as [[x|] s']; cbn [snd] in Hg; [|done]|];
    (destruct (_ =? 0); [done|]); (destruct dis; [by rewrite checked_other|]);
    (destruct ch; [destruct (f <? l); [done|]|]; by rewrite checked_other).
Qed.

Lemma rate_estimated t0 t1 l0 l1 (r := Z.abs (l1 - l0) * 3600 / (t1 - t0)) :
  0 <= t0 < t1 -> t1 < 2 ^ 62 -> Z.abs (l1 - l0) * 3600 < 2 ^ 31 ->
  let q := s32 (Z.quot (s32 (s32 (s32 (l1 - l0) * 60) * 60)) (s64 (t1 - t0))) in
  (if 0 <? q then q else s32 (- q)) = r.
Proof.
  intros Ht Ht1 Hl q. subst q r.
  rewrite (wrap_s_id 64 (t1 - t0)) by (unfold in_s; lia).
  rewrite (wrap_s_id 32 (l1 - l0)) by (unfold in_s; lia).
  rewrite (wrap_s_id 32 ((l1 - l0) * 60)) by (unfold in_s; lia).
  rewrite (wrap_s_id 32 (_ * 60 * 60)) by (unfold in_s; lia).
  set (n := t1 - t0). assert (Hn : 0 < n) by lia. set (k := l1 - l0) in *.
  assert (Hd : 0 <= Z.abs k * 3600 / n < 2 ^ 31).
  { split; [apply Z.div_pos; lia|]. apply Z.le_lt_trans with (Z.abs k * 3600); [|done].
    apply Z.div_le_upper_bound; nia. }
  assert (Hq : Z.quot (k * 60 * 60) n = Z.sgn k * (Z.abs k * 3600 / n)).
  { rewrite <- Z.quot_div_nonneg by lia.
    destruct (Z.sgn_spec k) as [[? ->] | [[? ->] | [? ->]]].
    - replace (k * 60 * 60) with (Z.abs k * 3600) by lia. lia.
    - replace (k * 60 * 60) with 0 by lia. by rewrite Z.quot_0_l by lia.
    - replace (k * 60 * 60) with (- (Z.abs k * 3600)) by lia. rewrite Z.quot_opp_l by lia. lia. }
  rewrite Hq. set (x := Z.abs k * 3600 / n) in *.
  destruct (Z.sgn_spec k) as [[? ->] | [[? ->] | [? ->]]];
    rewrite (wrap_s_id 32 (_ * x)) by (unfold in_s; lia).
  - destruct (0 <? 1 * x) eqn:?; [lia|]. rewrite wrap_s_id by (unfold in_s; lia). lia.
  - assert (x = 0) as ->. { subst x. assert (k = 0) as -> by lia. apply Z.div_0_l. lia. } done.
  - destruct (0 <? _) eqn:?; [lia|]. rewrite wrap_s_id by (unfold in_s; lia). lia.
Qed.

Lemma guess_second t0 t1 l0 l1 id saved (r := Z.abs (l1 - l0) * 3600 / (t1 - t0)) :
  0 <= t0 < t1 -> t1 < 2 ^ 62 -> Z.abs (l1 - l0) * 3600 < 2 ^ 31 -> l1 <> l0 ->
  guess_rate t1 id l1 (<[id := mk_battery l0 0 0 t0]> saved) =
    (Some r, <[id := mk_battery l1 r 0 t1]> (<[id := mk_battery l0 0 0 t0]> saved)).
Proof.
  intros Ht Ht1 Hb Hl. unfold guess_rate. rewrite lookup_insert_eq.
  cbn [last_time last_level high_time_warn_count].
  rewrite (proj2 (Z.eqb_neq t1 t0)), (proj2 (Z.eqb_neq l1 l0)) by lia. cbn [orb].
  pose proof (rate_estimated t0 t1 l0 l1 Ht Ht1 Hb) as E. cbv zeta in E |- *. rewrite E. done.
Qed.

Lemma discharging_time now id l full g saved r saved' :
  0 <= l -> 0 <= full -> guess_rate now id l saved = (Some r, saved') ->
  util_compute_time_remaining now id 0 l full true false g saved =
    if r =? 0 then (-1, saved') else checked_time id (seconds l r) saved'.
Proof.
  intros Hl Hf Hg. unfold util_compute_time_remaining.
  rewrite (proj2 (Z.ltb_ge l 0)), (proj2 (Z.ltb_ge full 0)) by done. cbn [orb andb Z.ltb Z.eqb Z.compare].
  by rewrite Hg.
Qed.

(** A battery whose rate the hardware does not report: the first call only
    remembers the level; at the next one, when time has passed and the level has
    changed, the rate is the change per hour, and the time that remains is that
    of this rate.  Nothing is changed for other batteries. *)
Lemma missing_rate_is_estimated id full t0 t1 l0 l1 guess0 guess1 saved (r := Z.abs (l1 - l0) * 3600 / (t1 - t0)) :
  saved !! id = None -> 0 <= l0 -> 0 <= l1 -> 0 <= full -> l1 <> l0 ->
  0 <= t0 < t1 -> t1 < 2 ^ 62 -> Z.abs (l1 - l0) * 3600 < 2 ^ 31 ->
  let '(time0, saved0) := util_compute_time_remaining t0 id 0 l0 full true false guess0 saved in
  let '(time1, saved1) := util_compute_time_remaining t1 id 0 l1 full true false guess1 saved0 in
  time0 = -1 /\
  time1 = (if (r =? 0) || (seconds l1 r <? 0) || (60 * 60 * 60 <? seconds l1 r) then -1 else seconds l1 r) /\
  (exists n, saved1 !! id = Some (mk_battery l1 r n t1)) /\
  (forall id', id' <> id -> saved1 !! id' = saved !! id').
Proof.
  intros Hs H0 H1 Hf Hl Ht Ht1 Hb.
  destruct (util_compute_time_remaining t0 _ _ _ _ _ _ _ _) as [time0 saved0] eqn:E0.
  destruct (util_compute_time_remaining t1 _ _ _ _ _ _ _ _) as [time1 saved1] eqn:E1.
  assert (Ho : forall id', id' <> id -> saved1 !! id' = saved !! id').
  { intros id' Hne. replace saved1 with (util_compute_time_remaining t1 id 0 l1 full true false guess1 saved0).2 by by rewrite E1.
    rewrite compute_other by done. replace saved0 with (util_compute_time_remaining t0 id 0 l0 full true false guess0 saved).2
      by by rewrite E0. by apply compute_other. }
  assert (E0' : util_compute_time_remaining t0 id 0 l0 full true false guess0 saved =
                  (-1, <[id := mk_battery l0 0 0 t0]> saved)).
  { unfold util_compute_time_remaining, guess_rate. rewrite Hs.
    rewrite (proj2 (Z.ltb_ge l0 0)), (proj2 (Z.ltb_ge full 0)) by done. done. }
  rewrite E0' in E0. injection E0 as <- <-.
  rewrite (discharging_time _ _ _ _ _ _ _ _ H1 Hf (guess_second t0 t1 l0 l1 id saved Ht Ht1 Hb Hl)) in E1.
  fold r in E1. generalize dependent (seconds l1 r). intros t E1. split; [done|].
  assert (Hi : forall (s : saved_battery_info) n, exists k, <[id := mk_battery l1 r n t1]> s !! id = Some (mk_battery l1 r k t1))
    by (intros s n; exists n; apply lookup_insert_eq).
  destruct (r =? 0); [injection E1 as <- <-; by split_and!|]. unfold checked_time in E1. revert E1.
  destruct (t <? 0); [|destruct (_ <? t)]; intros [= <- <-]; (split_and!; [done| |done]); try apply Hi.
  unfold count_warning. rewrite !lookup_insert_eq. cbn [default from_option Datatypes.id last_level last_chargeRate last_time].
  destruct (_ || _); by eexists.
Qed.

(** Percentages are computed with doubles and cut: 29 of 100 are 28 percent. *)
Lemma percentage_loses_one : percentage_of 29 100 = 28.
Proof. reflexivity. Qed.

(** An idle battery drops the optional properties and no others. *)
Lemma optional_props_are_removed d key :
  props (dev_of (device_pm_remove_optional_props d)) !! key =
    if bool_decide (key ∈ optional_keys) then None else props d !! key.
Proof.
  unfold device_pm_remove_optional_props. generalize optional_keys. intros l. revert d.
  induction l as [|k l IH]; intros d; cbn [remove_each]; [done|].
  autorewrite with dev. rewrite IH, remove_props. destruct (decide (k = key)) as [->|Hne].
  - rewrite lookup_delete_eq. rewrite (bool_decide_eq_true_2 (key ∈ key :: l)) by apply list_elem_of_here.
    by destruct (bool_decide _).
  - rewrite lookup_delete_ne by done. erewrite (bool_decide_ext (key ∈ k :: l)); [done|].
    rewrite elem_of_cons. intuition congruence.
Qed.

(** ** Instances *)
Module Instances.
Import AsciiPlatform.

Definition battery : HalDevice :=
  mk_device "/org/freedesktop/Hal/devices/battery" 0 0
    (list_to_map
       [("battery.type", PString "primary"); ("battery.reporting.unit", PString "mAh");
        ("battery.voltage.design", PInt32 10800); ("battery.voltage.current", PInt32 11500);
        ("battery.reporting.last_full", PInt32 5000); ("battery.reporting.current", PInt32 6000);
        ("battery.reporting.rate", PInt32 65535); ("battery.rechargeable.is_charging", PBoolean true)]).
Definition empty_env : env := mk_env ∅ [] [] [] 0 [].

Lemma battery_report_is_consistent_witness :
  exists cur full r pct,
    props (dev_of (device_pm_calculate_time 0 ∅ (dev_of (device_pm_calculate_percentage
             (dev_of (device_pm_abstract_props empty_env battery)))))) !! "battery.charge_level.percentage" =
      Some (PInt32 pct) /\ 0 <= cur <= full /\ 0 <= r /\ 0 <= pct <= 100.
Proof.
  destruct (battery_report_is_consistent empty_env battery 0 ∅)
    as (cur & full & des & r & pct & _ & _ & _ & _ & Hp & H1 & _ & H2 & H3 & _); [repeat constructor|].
  exists cur, full, r, pct. split; [exact Hp|]. split; [exact H1|]. split; [exact H2 | exact H3].
Defined.

Lemma missing_rate_is_estimated_witness :
  (util_compute_time_remaining 60 "b" 0 990 2000 true false false
     (util_compute_time_remaining 0 "b" 0 1000 2000 true false false ∅).2).1 = 5940.
Proof.
  pose proof (missing_rate_is_estimated "b" 2000 0 60 1000 990 false false ∅ (lookup_empty _) ltac:(lia)
    ltac:(lia) ltac:(lia) ltac:(lia) ltac:(lia) ltac:(lia) ltac:(lia)) as H.
  vm_compute in H |- *. apply H.
Defined.
End Instances.
