(* ===== verification/Ids.v ===== *)
(** * Tables of identifiers ([hald/ids.c])

    Names of PCI and USB devices are looked up in [pci.ids] and [usb.ids], text
    files with a line per vendor, product (one tab) and subsystem (two tabs);
    names of PNP devices in a table of the program.

    The files are mapped to memory; the model has their text.  A line is copied
    to a static buffer of 512 bytes, of which some tests read more than the
    line: the buffer keeps what earlier lines left behind. *)

From Stdlib Require Import ZArith Lia Ascii.
From stdpp Require Import base list gmap strings option.
From S2P Require Import Prelude CStd Partutil Util.

(** ** Lines *)
Definition PCI_IDS_MAX_LINE_LEN : nat := 512.

(** At most [n] characters, up to a line feed; what follows. *)
Fixpoint take_line (n : nat) (rest : string) : string * string :=
  match n, rest with
  | S n', String c rest' =>
      if decide (c = "010"%char) then ("", rest)
      else let '(line, r) := take_line n' rest' in (String c line, r)
  | _, _ => ("", rest)
  end.

(** The line and the position behind it.  One character is skipped, also when
    it is not a line feed. *)
Definition pci_ids_line_iter_get_line (rest : string) : string * string :=
  let '(line, r) := take_line (PCI_IDS_MAX_LINE_LEN - 1) rest in (line, str_drop 1 r).
Definition pci_ids_line_iter_has_more (rest : string) : bool := negb (bool_decide (rest = "")).
Definition usb_ids_line_iter_get_line : string -> string * string := pci_ids_line_iter_get_line.
Definition usb_ids_line_iter_has_more : string -> bool := pci_ids_line_iter_has_more.

Definition NUL_char : ascii := "000".
(** The static buffer after a line was copied to it. *)
Definition put_line (line buf : string) : string :=
  line +:+ String NUL_char (str_drop (S (String.length line)) buf).

(** ["%04x"] of an [int] into 8 bytes. *)
Definition hex_digits (u : Z) : nat :=
  if u <? 65536 then 4 else if u <? 1048576 then 5 else if u <? 16777216 then 6
  else if u <? 268435456 then 7 else 8.
Definition printf_04x (id : Z) : string :=
  let u := u32 id in snprintf 8 (lower_hex (hex (hex_digits u) u)).

(** [memcmp (buf + off, rep, 4) == 0] *)
Definition id_at (buf : string) (off : nat) (rep : string) : bool :=
  str_take 4 (str_drop off buf) =s? str_take 4 rep.

(** The tabs a line begins with. *)
Definition num_tabs (line : string) : nat :=
  String.length (span (fun c => negb (bool_decide (c = "009"%char))) line).1.

(** The name behind an identifier that ends before [i]. *)
Definition name_from (buf : string) (line_len i : nat) : string :=
  let spaces := (span (fun c => negb (isspace c)) (str_take (line_len - i) (str_drop i buf))).1 in
  cut_nul (str_drop (i + String.length spaces) buf).

(** ** PCI *)
Record pci_names := mk_pci {
  vendor_matched : bool;
  product_matched : bool;
  vendor_name : option string;
  product_name : option string;
  subsys_vendor_name : option string;
  subsys_product_name : option string;
}.

Definition pci_vendor_line (vendor_id subsys_vendor_id : Z) (buf : string) (len : nat) (s : pci_names) : pci_names :=
  let svn := if bool_decide (subsys_vendor_name s = None) && negb (subsys_vendor_id =? 0) &&
                id_at buf 0 (printf_04x subsys_vendor_id)
             then Some (name_from buf len 4) else subsys_vendor_name s in
  if negb (vendor_id =? 0) && id_at buf 0 (printf_04x vendor_id)
  then mk_pci true (product_matched s) (Some (name_from buf len 4)) (product_name s) svn (subsys_product_name s)
  else mk_pci false (product_matched s) (vendor_name s) (product_name s) svn (subsys_product_name s).

Definition pci_product_line (product_id : Z) (buf : string) (len : nat) (s : pci_names) : pci_names :=
  if vendor_matched s && negb (product_id =? 0) && id_at buf 1 (printf_04x product_id)
  then mk_pci (vendor_matched s) true (vendor_name s) (Some (name_from buf len 5))
              (subsys_vendor_name s) (subsys_product_name s)
  else mk_pci (vendor_matched s) false (vendor_name s) (product_name s)
              (subsys_vendor_name s) (subsys_product_name s).

Definition pci_subsys_line (subsys_vendor_id subsys_product_id : Z) (buf : string) (len : nat) (s : pci_names)
  : pci_names :=
  if vendor_matched s && product_matched s && negb (subsys_vendor_id =? 0) && negb (subsys_product_id =? 0) &&
     id_at buf 2 (printf_04x subsys_vendor_id) && id_at buf 7 (printf_04x subsys_product_id)
  then mk_pci (vendor_matched s) (product_matched s) (vendor_name s) (product_name s)
              (subsys_vendor_name s) (Some (name_from buf len 11))
  else s.

(** Lines with no content, and comments. *)
Definition skipped (line : string) : bool :=
  bool_decide (String.length line < 4)%nat || has_prefix line "#".

Section Pci.
Context (vendor_id product_id subsys_vendor_id subsys_product_id : Z).

Definition pci_line (line buf : string) (s : pci_names) : pci_names :=
  if skipped line then s
  else
    let len := String.length line in
    match num_tabs line with
    | 0%nat => pci_vendor_line vendor_id subsys_vendor_id buf len s
    | 1%nat => pci_product_line product_id buf len s
    | 2%nat => pci_subsys_line subsys_vendor_id subsys_product_id buf len s
    | _ => s
    end.

Fixpoint pci_loop (fuel : nat) (rest buf : string) (s : pci_names) : pci_names :=
  match fuel with
  | O => s
  | S fuel =>
      if pci_ids_line_iter_has_more rest then
        let '(line, rest) := pci_ids_line_iter_get_line rest in
        let buf := put_line line buf in
        pci_loop fuel rest buf (pci_line line buf s)
      else s
  end.
End Pci.

Definition no_names : pci_names := mk_pci false false None None None None.

(** A line takes at least one character of the text. *)
Definition ids_find_pci (pci_ids buf : string) (vendor_id product_id subsys_vendor_id subsys_product_id : Z)
  : pci_names :=
  pci_loop vendor_id product_id subsys_vendor_id subsys_product_id (String.length pci_ids) pci_ids buf no_names.

(** ** USB *)
Record usb_names := mk_usb { usb_matched : bool; usb_vendor : option string; usb_product : option string }.

(** The new names, and whether the search is over. *)
Definition usb_line (vendor_id product_id : Z) (line buf : string) (s : usb_names) : usb_names * bool :=
  if skipped line then (s, false)
  else
    let len := String.length line in
    match num_tabs line with
    | 0%nat =>
        if negb (vendor_id =? 0) && id_at buf 0 (printf_04x vendor_id)
        then (mk_usb true (Some (name_from buf len 4)) (usb_product s), false)
        else (mk_usb false (usb_vendor s) (usb_product s), false)
    | 1%nat =>
        if usb_matched s && negb (product_id =? 0) && id_at buf 1 (printf_04x product_id)
        then (mk_usb (usb_matched s) (usb_vendor s) (Some (name_from buf len 5)), true)
        else (s, false)
    | _ => (s, false)
    end.

Fixpoint usb_loop (vendor_id product_id : Z) (fuel : nat) (rest buf : string) (s : usb_names) : usb_names :=
  match fuel with
  | O => s
  | S fuel =>
      if usb_ids_line_iter_has_more rest then
        let '(line, rest) := usb_ids_line_iter_get_line rest in
        let buf := put_line line buf in
        let '(s, done) := usb_line vendor_id product_id line buf s in
        if done then s else usb_loop vendor_id product_id fuel rest buf s
      else s
  end.

Definition ids_find_usb (usb_ids buf : string) (vendor_id product_id : Z) : usb_names :=
  usb_loop vendor_id product_id (String.length usb_ids) usb_ids buf (mk_usb false None None).

(** ** PNP *)
Record pnp_id := mk_pnp { pnp_name : string; desc : string }.

(** Crystal, IBM, FinePoint and Fujitsu devices, and those of the system. *)
Definition pnp_system_ids : list pnp_id :=
  [mk_pnp "CSC0000" "Crystal Semiconductor CS423x sound -- SB/WSS/OPL3 emulation";
   mk_pnp "CSC0001" "Crystal Semiconductor CS423x sound -- joystick";
   mk_pnp "CSC0003" "Crystal Semiconductor CS423x sound -- MPU401";
   mk_pnp "CSC0010" "Crystal Semiconductor CS423x sound -- control";
   mk_pnp "IBM0071" "IBM infrared communications device";
   mk_pnp "IBM3760" "IBM DSP";
   mk_pnp "IBM3780" "IBM pointing device";
   mk_pnp "FPI2004" "FinePoint Innovations Tablet";
   mk_pnp "FUJ02E5" "Wacom Serial Pen HID Tablet";
   mk_pnp "FUJ02E6" "Fujitsu Serial TouchScreen";
   mk_pnp "PNP0000" "AT Interrupt Controller";
   mk_pnp "PNP0001" "EISA Interrupt Controller";
   mk_pnp "PNP0002" "MCA Interrupt Controller";
   mk_pnp "PNP0003" "APIC";
   mk_pnp "PNP0004" "Cyrix SLiC MP interrupt controller";
   mk_pnp "PNP0100" "AT Timer";
   mk_pnp "PNP0101" "EISA Timer";
   mk_pnp "PNP0102" "MCA Timer";
   mk_pnp "PNP0200" "AT DMA Controller";
   mk_pnp "PNP0201" "EISA DMA Controller";
   mk_pnp "PNP0202" "MCA DMA Controller";
   mk_pnp "PNP0300" "IBM PC/XT keyboard controller (83-key)";
   mk_pnp "PNP0301" "IBM PC/AT keyboard controller (86-key)";
   mk_pnp "PNP0302" "IBM PC/XT keyboard controller (84-key)";
   mk_pnp "PNP0303" "IBM Enhanced (101/102-key, PS/2 mouse support)";
   mk_pnp "PNP0304" "Olivetti Keyboard (83-key)";
   mk_pnp "PNP0305" "Olivetti Keyboard (102-key)";
   mk_pnp "PNP0306" "Olivetti Keyboard (86-key)";
   mk_pnp "PNP0307" "Microsoft Windows(R) Keyboard";
   mk_pnp "PNP0308" "General Input Device Emulation Interface (GIDEI) legacy";
   mk_pnp "PNP0309" "Olivetti Keyboard (A101/102 key)";
   mk_pnp "PNP030A" "AT&T 302 keyboard";
   mk_pnp "PNP030B" "Reserved by Microsoft";
   mk_pnp "PNP0320" "Japanese 101-key keyboard";
   mk_pnp "PNP0321" "Japanese AX keyboard";
   mk_pnp "PNP0322" "Japanese 106-key keyboard A01";
   mk_pnp "PNP0323" "Japanese 106-key keyboard 002/003";
   mk_pnp "PNP0324" "Japanese 106-key keyboard 001";
   mk_pnp "PNP0325" "Japanese Toshiba Desktop keyboard";
   mk_pnp "PNP0326" "Japanese Toshiba Laptop keyboard";
   mk_pnp "PNP0327" "Japanese Toshiba Notebook keyboard";
   mk_pnp "PNP0340" "Korean 84-key keyboard";
   mk_pnp "PNP0341" "Korean 86-key keyboard";
   mk_pnp "PNP0342" "Korean Enhanced keyboard";
   mk_pnp "PNP0343" "Korean Enhanced keyboard 101b";
   mk_pnp "PNP0343" "Korean Enhanced keyboard 101c";
   mk_pnp "PNP0344" "Korean Enhanced keyboard 103";
   mk_pnp "PNP0400" "Standard LPT printer port";
   mk_pnp "PNP0401" "ECP printer port";
   mk_pnp "PNP0500" "Standard PC COM port";
   mk_pnp "PNP0501" "16550A-compatible COM port";
   mk_pnp "PNP0502" "Multiport serial device (non-intelligent 16550)";
   mk_pnp "PNP0510" "Generic IRDA-compatible device";
   mk_pnp "PNP0511" "Generic IRDA-compatible device";
   mk_pnp "PNP0600" "Generic ESDI/IDE/ATA compatible hard disk controller";
   mk_pnp "PNP0601" "Plus Hardcard II";
   mk_pnp "PNP0602" "Plus Hardcard IIXL/EZ";
   mk_pnp "PNP0603" "Generic IDE supporting Microsoft Device Bay Specification";
   mk_pnp "PNP0604" "PC standard floppy disk controller";
   mk_pnp "PNP0605" "HP Omnibook floppy disk controller";
   mk_pnp "PNP0680" "Bus Master E-IDE controller";
   mk_pnp "PNP0700" "PC standard floppy disk controller";
   mk_pnp "PNP0701" "Standard floppy controller supporting MS Device Bay Spec";
   mk_pnp "PNP0800" "AT-style speaker sound";
   mk_pnp "PNP0802" "Microsoft Sound System compatible device (obsolete, use PNPB0xx instead)";
   mk_pnp "PNP0900" "VGA Compatible";
   mk_pnp "PNP0901" "Video Seven VRAM/VRAM II/1024i";
   mk_pnp "PNP0902" "IBM 8514/A Compatible";
   mk_pnp "PNP0903" "Trident VGA";
   mk_pnp "PNP0904" "Cirrus Logic Laptop VGA";
   mk_pnp "PNP0905" "Cirrus Logic VGA";
   mk_pnp "PNP0906" "Tseng Labs ET4000";
   mk_pnp "PNP0907" "Western Digital VGA";
   mk_pnp "PNP0908" "Western Digital Laptop VGA";
   mk_pnp "PNP0909" "S3 Inc. 911/924";
   mk_pnp "PNP090A" "ATI Ultra Pro/Plus (Mach 32)";
   mk_pnp "PNP090B" "ATI Ultra (Mach 8)";
   mk_pnp "PNP090C" "IBM XGA Compatible";
   mk_pnp "PNP090D" "ATI VGA Wonder";
   mk_pnp "PNP090E" "Weitek P9000 Graphics Adapter";
   mk_pnp "PNP090F" "Oak Technology VGA";
   mk_pnp "PNP0910" "Compaq QVision";
   mk_pnp "PNP0911" "IBM XGA/2";
   mk_pnp "PNP0912" "Tseng Labs ET4000 W32/W32i/W32p";
   mk_pnp "PNP0913" "S3 Inc. 801/928/964";
   mk_pnp "PNP0914" "Cirrus Logic 5429/5434 (memory mapped)";
   mk_pnp "PNP0915" "Compaq Advanced VGA (AVGA)";
   mk_pnp "PNP0916" "ATI Ultra Pro Turbo (Mach64)";
   mk_pnp "PNP0917" "Reserved by Microsoft";
   mk_pnp "PNP0918" "Matrox MGA";
   mk_pnp "PNP0919" "Compaq QVision 2000";
   mk_pnp "PNP091A" "Tseng Labs W128";
   mk_pnp "PNP0930" "Chips & Technologies Super VGA";
   mk_pnp "PNP0931" "Chips & Technologies Accelerator";
   mk_pnp "PNP0940" "NCR 77c22e Super VGA";
   mk_pnp "PNP0941" "NCR 77c32blt";
   mk_pnp "PNP09FF" "Plug and Play Monitors (VESA DDC)";
   mk_pnp "PNP0A00" "ISA Bus";
   mk_pnp "PNP0A01" "EISA Bus";
   mk_pnp "PNP0A02" "MCA Bus";
   mk_pnp "PNP0A03" "PCI Bus";
   mk_pnp "PNP0A04" "VESA/VL Bus";
   mk_pnp "PNP0A05" "Generic ACPI Bus";
   mk_pnp "PNP0A06" "Generic ACPI Extended-IO Bus (EIO bus)";
   mk_pnp "PNP0B00" "AT Real-Time Clock";
   mk_pnp "PNP0C00" "Plug and Play BIOS (only created by the root enumerator)";
   mk_pnp "PNP0C01" "System Board";
   mk_pnp "PNP0C02" "General ID for reserving resources required by PnP motherboard registers. (Not device specific.)";
   mk_pnp "PNP0C03" "Plug and Play BIOS Event Notification Interrupt";
   mk_pnp "PNP0C04" "Math Coprocessor";
   mk_pnp "PNP0C05" "APM BIOS (Version independent)";
   mk_pnp "PNP0C06" "Reserved for identification of early Plug and Play BIOS implementation";
   mk_pnp "PNP0C07" "Reserved for identification of early Plug and Play BIOS implementation";
   mk_pnp "PNP0C08" "ACPI system board hardware";
   mk_pnp "PNP0C09" "ACPI Embedded Controller";
   mk_pnp "PNP0C0A" "ACPI Control Method Battery";
   mk_pnp "PNP0C0B" "ACPI Fan";
   mk_pnp "PNP0C0C" "ACPI power button device";
   mk_pnp "PNP0C0D" "ACPI lid device";
   mk_pnp "PNP0C0E" "ACPI sleep button device";
   mk_pnp "PNP0C0F" "PCI interrupt link device";
   mk_pnp "PNP0C10" "ACPI system indicator device";
   mk_pnp "PNP0C11" "ACPI thermal zone";
   mk_pnp "PNP0C12" "Device Bay Controller";
   mk_pnp "PNP0C13" "Plug and Play BIOS (used when ACPI mode cannot be used)";
   mk_pnp "PNP0CF0" "Compaq LTE Lite Support";
   mk_pnp "PNP0CF1" "Compaq LTE Elite Support";
   mk_pnp "PNP0E00" "Intel 82365-Compatible PCMCIA Controller";
   mk_pnp "PNP0E01" "Cirrus Logic CL-PD6720 PCMCIA Controller";
   mk_pnp "PNP0E02" "VLSI VL82C146 PCMCIA Controller";
   mk_pnp "PNP0E03" "Intel 82365-compatible CardBus controller";
   mk_pnp "PNP0F00" "Microsoft Bus Mouse";
   mk_pnp "PNP0F01" "Microsoft Serial Mouse";
   mk_pnp "PNP0F02" "Microsoft InPort Mouse";
   mk_pnp "PNP0F03" "Microsoft PS/2-style Mouse";
   mk_pnp "PNP0F04" "Mouse Systems Mouse";
   mk_pnp "PNP0F05" "Mouse Systems 3-Button Mouse (COM2)";
   mk_pnp "PNP0F06" "Genius Mouse (COM1)";
   mk_pnp "PNP0F07" "Genius Mouse (COM2)";
   mk_pnp "PNP0F08" "Logitech Serial Mouse";
   mk_pnp "PNP0F09" "Microsoft BallPoint Serial Mouse";
   mk_pnp "PNP0F0A" "Microsoft Plug and Play Mouse";
   mk_pnp "PNP0F0B" "Microsoft Plug and Play BallPoint Mouse";
   mk_pnp "PNP0F0C" "Microsoft-compatible Serial Mouse";
   mk_pnp "PNP0F0D" "Microsoft-compatible InPort-compatible Mouse";
   mk_pnp "PNP0F0E" "Microsoft-compatible PS/2-style Mouse";
   mk_pnp "PNP0F0F" "Microsoft-compatible Serial BallPoint-compatible Mouse";
   mk_pnp "PNP0F10" "Texas Instruments QuickPort Mouse";
   mk_pnp "PNP0F11" "Microsoft-compatible Bus Mouse";
   mk_pnp "PNP0F12" "Logitech PS/2-style Mouse";
   mk_pnp "PNP0F13" "PS/2 Port for PS/2-style Mice";
   mk_pnp "PNP0F14" "Microsoft Kids Mouse";
   mk_pnp "PNP0F15" "Logitech bus mouse";
   mk_pnp "PNP0F16" "Logitech SWIFT device";
   mk_pnp "PNP0F17" "Logitech-compatible serial mouse";
   mk_pnp "PNP0F18" "Logitech-compatible bus mouse";
   mk_pnp "PNP0F19" "Logitech-compatible PS/2-style Mouse";
   mk_pnp "PNP0F1A" "Logitech-compatible SWIFT Device";
   mk_pnp "PNP0F1B" "HP Omnibook Mouse";
   mk_pnp "PNP0F1C" "Compaq LTE Trackball PS/2-style Mouse";
   mk_pnp "PNP0F1D" "Compaq LTE Trackball Serial Mouse";
   mk_pnp "PNP0F1E" "Microsoft Kids Trackball Mouse";
   mk_pnp "PNP0F1F" "Reserved by Microsoft Input Device Group";
   mk_pnp "PNP0F20" "Reserved by Microsoft Input Device Group";
   mk_pnp "PNP0F21" "Reserved by Microsoft Input Device Group";
   mk_pnp "PNP0F22" "Reserved by Microsoft Input Device Group";
   mk_pnp "PNP0F23" "Reserved by Microsoft Input Device Group";
   mk_pnp "PNP0FFF" "Reserved by Microsoft Systems";
   mk_pnp "PNP0XXX" "Unknown System Device"].

(** Network cards. *)
Definition pnp_network_ids : list pnp_id :=
  [mk_pnp "PNP8000" "Network Adapter";
   mk_pnp "PNP8001" "Novell/Anthem NE3200";
   mk_pnp "PNP8004" "Compaq NE3200";
   mk_pnp "PNP8006" "Intel EtherExpress/32";
   mk_pnp "PNP8008" "HP EtherTwist EISA LAN Adapter/32 (HP27248A)";
   mk_pnp "PNP8065" "Ungermann-Bass NIUps or NIUps/EOTP";
   mk_pnp "PNP8072" "DEC (DE211) EtherWorks MC/TP";
   mk_pnp "PNP8073" "DEC (DE212) EtherWorks MC/TP_BNC";
   mk_pnp "PNP8074" "HP MC LAN Adapter/16 TP (PC27246)";
   mk_pnp "PNP8078" "DCA 10 Mb MCA";
   mk_pnp "PNP807F" "Racal NI9210";
   mk_pnp "PNP8081" "Pure Data Ethernet";
   mk_pnp "PNP8096" "Thomas-Conrad TC4046";
   mk_pnp "PNP80C9" "IBM Token Ring";
   mk_pnp "PNP80CA" "IBM Token Ring II";
   mk_pnp "PNP80CB" "IBM Token Ring II/Short";
   mk_pnp "PNP80CC" "IBM Token Ring 4/16Mbs";
   mk_pnp "PNP80D3" "Novell/Anthem NE1000";
   mk_pnp "PNP80D4" "Novell/Anthem NE2000";
   mk_pnp "PNP80D5" "NE1000 Compatible";
   mk_pnp "PNP80D6" "NE2000 Compatible";
   mk_pnp "PNP80D7" "Novell/Anthem NE1500T";
   mk_pnp "PNP80D8" "Novell/Anthem NE2100";
   mk_pnp "PNP80D9" "NE2000 Plus";
   mk_pnp "PNP80DD" "SMC ARCNETPC";
   mk_pnp "PNP80DE" "SMC ARCNET PC100, PC200";
   mk_pnp "PNP80DF" "SMC ARCNET PC110, PC210, PC250";
   mk_pnp "PNP80E0" "SMC ARCNET PC130/E";
   mk_pnp "PNP80E1" "SMC ARCNET PC120, PC220, PC260";
   mk_pnp "PNP80E2" "SMC ARCNET PC270/E";
   mk_pnp "PNP80E5" "SMC ARCNET PC600W, PC650W";
   mk_pnp "PNP80E7" "DEC DEPCA";
   mk_pnp "PNP80E8" "DEC (DE100) EtherWorks LC";
   mk_pnp "PNP80E9" "DEC (DE200) EtherWorks Turbo";
   mk_pnp "PNP80EA" "DEC (DE101) EtherWorks LC/TP";
   mk_pnp "PNP80EB" "DEC (DE201) EtherWorks Turbo/TP";
   mk_pnp "PNP80EC" "DEC (DE202) EtherWorks Turbo/TP_BNC";
   mk_pnp "PNP80ED" "DEC (DE102) EtherWorks LC/TP_BNC";
   mk_pnp "PNP80EE" "DEC EE101 (Built-In)";
   mk_pnp "PNP80EF" "DEC PC 433 WS (Built-In)";
   mk_pnp "PNP80F1" "3Com EtherLink Plus";
   mk_pnp "PNP80F3" "3Com EtherLink II or IITP (8 or 16-bit)";
   mk_pnp "PNP80F4" "3Com TokenLink";
   mk_pnp "PNP80F6" "3Com EtherLink 16";
   mk_pnp "PNP80F7" "3Com EtherLink III";
   mk_pnp "PNP80F8" "3Com Generic Etherlink Plug and Play Device";
   mk_pnp "PNP80FB" "Thomas Conrad TC6045";
   mk_pnp "PNP80FC" "Thomas Conrad TC6042";
   mk_pnp "PNP80FD" "Thomas Conrad TC6142";
   mk_pnp "PNP80FE" "Thomas Conrad TC6145";
   mk_pnp "PNP80FF" "Thomas Conrad TC6242";
   mk_pnp "PNP8100" "Thomas Conrad TC6245";
   mk_pnp "PNP8101" "Thomas-Conrad TC4045";
   mk_pnp "PNP8104" "Thomas-Conrad TC4035";
   mk_pnp "PNP8105" "DCA 10 MB";
   mk_pnp "PNP8106" "DCA 10 MB Fiber Optic";
   mk_pnp "PNP8107" "DCA 10 MB Twisted Pair";
   mk_pnp "PNP8113" "Racal NI6510";
   mk_pnp "PNP8114" "Racal NI5210/8 or NI5210/16";
   mk_pnp "PNP8119" "Ungermann-Bass pcNIU";
   mk_pnp "PNP811A" "Ungermann-Bass pcNIU/ex 128K";
   mk_pnp "PNP811B" "Ungermann-Bass pcNIU/ex 512K";
   mk_pnp "PNP811C" "Ungermann-Bass NIUpc";
   mk_pnp "PNP811D" "Ungermann-Bass NIUpc/3270";
   mk_pnp "PNP8120" "Ungermann-Bass NIUpc/EOTP";
   mk_pnp "PNP8123" "SMC StarCard PLUS (WD/8003S)";
   mk_pnp "PNP8124" "SMC StarCard PLUS With On Board Hub (WD/8003SH)";
   mk_pnp "PNP8125" "SMC EtherCard PLUS (WD/8003E)";
   mk_pnp "PNP8126" "SMC EtherCard PLUS With Boot ROM Socket (WD/8003EBT)";
   mk_pnp "PNP8127" "SMC EtherCard PLUS With Boot ROM Socket (WD/8003EB)";
   mk_pnp "PNP8128" "SMC EtherCard PLUS TP (WD/8003WT)";
   mk_pnp "PNP812A" "SMC EtherCard PLUS 16 With Boot ROM Socket (WD/8013EBT)";
   mk_pnp "PNP812D" "Intel EtherExpress 16 or 16TP";
   mk_pnp "PNP812F" "Intel TokenExpress 16/4";
   mk_pnp "PNP8130" "Intel TokenExpress MCA 16/4";
   mk_pnp "PNP8132" "Intel EtherExpress 16 (MCA)";
   mk_pnp "PNP8133" "Compaq Ethernet 16E";
   mk_pnp "PNP8137" "Artisoft AE-1";
   mk_pnp "PNP8138" "Artisoft AE-2 or AE-3";
   mk_pnp "PNP8141" "Amplicard AC 210/XT";
   mk_pnp "PNP8142" "Amplicard AC 210/AT";
   mk_pnp "PNP814B" "Everex SpeedLink /PC16 (EV2027)";
   mk_pnp "PNP8155" "HP PC LAN Adapter/8 TP (HP27245)";
   mk_pnp "PNP8156" "HP PC LAN Adapter/16 TP (HP27247A)";
   mk_pnp "PNP8157" "HP PC LAN Adapter/8 TL (HP27250)";
   mk_pnp "PNP8158" "HP PC LAN Adapter/16 TP Plus (HP27247B)";
   mk_pnp "PNP8159" "HP PC LAN Adapter/16 TL Plus (HP27252)";
   mk_pnp "PNP815F" "National Semiconductor Ethernode *16AT";
   mk_pnp "PNP8160" "National Semiconductor AT/LANTIC EtherNODE 16-AT3";
   mk_pnp "PNP8169" "NCR StarCard";
   mk_pnp "PNP816A" "NCR Token-Ring 4 Mbs ISA";
   mk_pnp "PNP816B" "NCR WaveLAN AT";
   mk_pnp "PNP816C" "NCR WaveLan MC";
   mk_pnp "PNP816D" "NCR Token-Ring 16/4 Mbs ISA";
   mk_pnp "PNP8191" "Olicom 16/4 Token-Ring Adapter";
   mk_pnp "PNP81A5" "Research Machines Ethernet";
   mk_pnp "PNP81B9" "ToshibaLAN (internal)";
   mk_pnp "PNP81C3" "SMC EtherCard PLUS Elite (WD/8003EP)";
   mk_pnp "PNP81C4" "SMC EtherCard PLUS 10T (WD/8003W)";
   mk_pnp "PNP81C5" "SMC EtherCard PLUS Elite 16 (WD/8013EP)";
   mk_pnp "PNP81C6" "SMC EtherCard PLUS Elite 16T (WD/8013W)";
   mk_pnp "PNP81C7" "SMC EtherCard PLUS Elite 16 Combo (WD/8013EW or 8013EWC)";
   mk_pnp "PNP81C8" "SMC EtherElite Ultra 16";
   mk_pnp "PNP81C9" "SMC TigerCard (8216L, 8216LC, 8216LT)";
   mk_pnp "PNP81CA" "SMC EtherEZ (8416)";
   mk_pnp "PNP81D7" "Madge Smart 16/4 PC Ringnode";
   mk_pnp "PNP81D8" "Madge Smart 16/4 Ringnode ISA";
   mk_pnp "PNP81E4" "Pure Data PDI9025-32 (Token Ring)";
   mk_pnp "PNP81E6" "Pure Data PDI508+ (ArcNet)";
   mk_pnp "PNP81E7" "Pure Data PDI516+ (ArcNet)";
   mk_pnp "PNP81EB" "Proteon Token Ring (P1390)";
   mk_pnp "PNP81EC" "Proteon Token Ring (P1392)";
   mk_pnp "PNP81ED" "Proteon Token Ring ISA (P1340)";
   mk_pnp "PNP81EE" "Proteon Token Ring ISA (P1342)";
   mk_pnp "PNP81EF" "Proteon Token Ring ISA (P1346)";
   mk_pnp "PNP81F0" "Proteon Token Ring ISA (P1347)";
   mk_pnp "PNP81FF" "Cabletron E2000 Series DNI";
   mk_pnp "PNP8200" "Cabletron E2100 Series DNI";
   mk_pnp "PNP8201" "Cabletron T2015 4/16 Mbit/s DNI";
   mk_pnp "PNP8209" "Zenith Data Systems Z-Note";
   mk_pnp "PNP820A" "Zenith Data Systems NE2000-Compatible";
   mk_pnp "PNP8213" "Xircom Pocket Ethernet II";
   mk_pnp "PNP8214" "Xircom Pocket Ethernet I";
   mk_pnp "PNP8215" "Xircom Pocket Ethernet III Adapter";
   mk_pnp "PNP821D" "RadiSys EXM-10";
   mk_pnp "PNP8227" "SMC 3000 Series";
   mk_pnp "PNP8228" "SMC 91C2 controller";
   mk_pnp "PNP8231" "AMD AM2100/AM1500T";
   mk_pnp "PNP824F" "RCE 10Base-T (16 bit)";
   mk_pnp "PNP8250" "RCE 10Base-T (8 bit)";
   mk_pnp "PNP8263" "Tulip NCC-16";
   mk_pnp "PNP8277" "Exos 105";
   mk_pnp "PNP828A" "Intel '595 based Ethernet";
   mk_pnp "PNP828B" "TI2000-style Token Ring";
   mk_pnp "PNP828C" "AMD PCNet Family cards";
   mk_pnp "PNP828D" "AMD PCNet32 (VL version)";
   mk_pnp "PNP8294" "IrDA Infrared NDIS driver (Microsoft-supplied)";
   mk_pnp "PNP82BD" "IBM PCMCIA-NIC";
   mk_pnp "PNP82C0" "Eagle Technology NE200T";
   mk_pnp "PNP82C2" "Xircom CE10";
   mk_pnp "PNP82C3" "Xircom CEM2";
   mk_pnp "PNP82C4" "Xircom CE2";
   mk_pnp "PNP8321" "DEC Ethernet (All Types)";
   mk_pnp "PNP8323" "SMC EtherCard (All Types except 8013/A)";
   mk_pnp "PNP8324" "ARCNET Compatible";
   mk_pnp "PNP8325" "SMC TokenCard PLUS (8115T)";
   mk_pnp "PNP8326" "Thomas Conrad (All Arcnet Types)";
   mk_pnp "PNP8327" "IBM Token Ring (All Types)";
   mk_pnp "PNP8328" "Ungermann-Bass NIU";
   mk_pnp "PNP8329" "Proteon ProNET-4/16 ISA Token Ring (P1392+,P1392,1390)";
   mk_pnp "PNP8385" "Remote Network Access [RNA] Driver";
   mk_pnp "PNP8387" "Remote Network Access [RNA] PPP Driver";
   mk_pnp "PNP8388" "Reserved for Microsoft Networking components";
   mk_pnp "PNP8389" "Peer IrLAN infrared driver (Microsoft-supplied)";
   mk_pnp "PNP8390" "Generic network adapter";
   mk_pnp "PNP8XXX" "Unknown Network Adapter"].

(** Modems, drives, multimedia, and the devices of vendors behind them. *)
Definition pnp_other_ids : list pnp_id :=
  [mk_pnp "PNP9000" "Modem";
   mk_pnp "PNPA000" "Adaptec 154x compatible SCSI controller";
   mk_pnp "PNPA001" "Adaptec 174x compatible SCSI controller";
   mk_pnp "PNPA002" "Future Domain 16-700 compatible controller";
   mk_pnp "PNPA003" "Mitsumi CD-ROM adapter (Panasonic spec., used on SBPro/SB16)";
   mk_pnp "PNPA01B" "Trantor 128 SCSI Controller";
   mk_pnp "PNPA01D" "Trantor T160 SCSI Controller";
   mk_pnp "PNPA01E" "Trantor T338 Parallel SCSI controller";
   mk_pnp "PNPA01F" "Trantor T348 Parallel SCSI controller";
   mk_pnp "PNPA020" "Trantor Media Vision SCSI controller";
   mk_pnp "PNPA022" "Always IN-2000 SCSI controller";
   mk_pnp "PNPA02B" "Sony proprietary CD-ROM controller";
   mk_pnp "PNPA02D" "Trantor T13b 8-bit SCSI controller";
   mk_pnp "PNPA02F" "Trantor T358 Parallel SCSI controller";
   mk_pnp "PNPA030" "Mitsumi LU-005 Single Speed CD-ROM controller + drive";
   mk_pnp "PNPA031" "Mitsumi FX-001 Single Speed CD-ROM controller + drive";
   mk_pnp "PNPA032" "Mitsumi FX-001 Double Speed CD-ROM controller + drive";
   mk_pnp "PNPAXXX" "Unknown SCSI, Proprietary CD Adapter";
   mk_pnp "PNPB000" "Creative Labs Sound Blaster 1.5 (or compatible sound device)";
   mk_pnp "PNPB001" "Creative Labs Sound Blaster 2.0 (or compatible sound device)";
   mk_pnp "PNPB002" "Creative Labs Sound Blaster Pro (or compatible sound device)";
   mk_pnp "PNPB003" "Creative Labs Sound Blaster 16 (or compatible sound device)";
   mk_pnp "PNPB004" "MediaVision Thunderboard (or compatible sound device)";
   mk_pnp "PNPB005" "Adlib-compatible FM synthesizer device";
   mk_pnp "PNPB006" "MPU401 compatible";
   mk_pnp "PNPB007" "Microsoft Windows Sound System-compatible sound device";
   mk_pnp "PNPB008" "Compaq Business Audio";
   mk_pnp "PNPB009" "Plug and Play Microsoft Windows Sound System Device";
   mk_pnp "PNPB00A" "MediaVision Pro Audio Spectrum (Trantor SCSI enabled, Thunder Chip Disabled)";
   mk_pnp "PNPB00B" "MediaVision Pro Audio 3D";
   mk_pnp "PNPB00C" "MusicQuest MQX-32M";
   mk_pnp "PNPB00D" "MediaVision Pro Audio Spectrum Basic (No Trantor SCSI, Thunder Chip Enabled)";
   mk_pnp "PNPB00E" "MediaVision Pro Audio Spectrum (Trantor SCSI enabled, Thunder Chip Disabled)";
   mk_pnp "PNPB00F" "MediaVision Jazz-16 chipset (OEM Versions)";
   mk_pnp "PNPB010" "Orchid Videola - Auravision VxP500 chipset";
   mk_pnp "PNPB018" "MediaVision Pro Audio Spectrum 8-bit";
   mk_pnp "PNPB019" "MediaVision Pro Audio Spectrum Basic (No Trantor SCSI, Thunder Chip Enabled)";
   mk_pnp "PNPB020" "Yamaha OPL3-compatible FM synthesizer device";
   mk_pnp "PNPB02F" "Joystick/Game port";
   mk_pnp "PNPB077" "OAK Mozart Sound System";
   mk_pnp "PNPB078" "OAK Mozart Sound System MPU-401";
   mk_pnp "PNPBXXX" "Unknown Multimedia Device";
   mk_pnp "PNPC000" "Compaq 14400 Modem (TBD)";
   mk_pnp "PNPC001" "Compaq 2400/9600 Modem (TBD)";
   mk_pnp "PNPCXXX" "Unknown Modem";
   mk_pnp "PNPD300" "SK-NET TR4/16+ Token-Ring";
   mk_pnp "PNPE000" "SK-NET G16, G16/TP Ethernet";
   mk_pnp "PNPF000" "SK-NET FDDI-FI FDDI LAN";
   mk_pnp "TOS6200" "Toshiba Notebook Extra HCI driver";
   mk_pnp "TOS6202" "Toshiba Notebook Extra HCI driver";
   mk_pnp "TOS6207" "Toshiba Notebook Extra HCI driver";
   mk_pnp "TOS7400" "Toshiba AcuPoint";
   mk_pnp "WACf004" "Wacom Serial Tablet PC Pen Tablet/Digitizer";
   mk_pnp "WACf005" "Wacom Serial Tablet PC Pen Tablet/Digitizer";
   mk_pnp "WACf006" "Wacom Serial Tablet PC Pen Tablet/Digitizer"].

Definition pnp_ids_list : list pnp_id := pnp_system_ids ++ pnp_network_ids ++ pnp_other_ids.

Definition ids_comp_pnp (id1 : string) (id2 : pnp_id) : Z := strcasecmp id1 (pnp_name id2).

(** [bsearch] as in the C library of GNU: between [l] and [u]. *)
Fixpoint bsearch_loop {A} (fuel : nat) (compar : A -> Z) (base : list A) (l u : nat) : option A :=
  match fuel with
  | O => None
  | S fuel =>
      if decide (l < u)%nat then
        let idx := Nat.div2 (l + u) in
        match base !! idx with
        | None => None
        | Some p =>
            let comparison := compar p in
            if comparison <? 0 then bsearch_loop fuel compar base l idx
            else if 0 <? comparison then bsearch_loop fuel compar base (S idx) u
            else Some p
        end
      else None
  end.
Definition bsearch {A} (compar : A -> Z) (base : list A) : option A :=
  bsearch_loop (S (length base)) compar base 0 (length base).

Definition ids_find_pnp (id : string) : option string := desc <$> bsearch (ids_comp_pnp id) pnp_ids_list.
