(* ===== verification/IdsClaims.v ===== *)
(** * Looking up identifiers

    A database of PCI devices, printed the way [pci.ids] is written, is read
    back by [ids_find_pci].  The table of PNP devices is searched by bisection
    although it is not sorted: the lookup agrees with a scan except for four
    identifiers. *)

From Stdlib Require Import ZArith Lia Ascii.
From stdpp Require Import base list gmap strings option pretty fin_maps.
From S2P Require Import Prelude CStd Partutil Util UtilClaims Ids.

(** ** Searching the PNP table *)
Lemma bsearch_sound {A} (compar : A -> Z) base fuel l u x :
  bsearch_loop fuel compar base l u = Some x -> x ∈ base /\ compar x = 0.
Proof.
  revert l u. induction fuel as [|fuel IH]; intros l u; simpl; [done|].
  destruct (decide _); [|done]. destruct (base !! _) as [p|] eqn:E; [|done].
  destruct (compar p <? 0) eqn:E1; [apply IH|]. destruct (0 <? compar p) eqn:E2; [apply IH|].
  intros [= ->]. split; [by eapply list_elem_of_lookup_2 | lia].
Qed.

Definition lost_ids : list string := ["IBM3780"; "FPI2004"; "FUJ02E5"; "FUJ02E6"].

(** The first entry with the identifier, in any case. *)
Definition scan_pnp (id : string) (l : list pnp_id) : option string :=
  desc <$> List.find (fun e => strcasecmp id (pnp_name e) =? 0) l.

Definition without (lost : list string) (base : list pnp_id) : list pnp_id :=
  List.filter (fun e => negb (bool_decide (pnp_name e ∈ lost))) base.

Definition agrees (lost : list string) (base : list pnp_id) (id : string) : bool :=
  bool_decide (desc <$> bsearch (ids_comp_pnp id) base = scan_pnp id (without lost base)).

Lemma table_agrees : forallb (fun e => agrees lost_ids pnp_ids_list (pnp_name e)) pnp_ids_list = true.
Proof. vm_compute. reflexivity. Qed.

Lemma lost_are_lost :
  forallb (fun id => bool_decide (scan_pnp id pnp_ids_list <> None /\ ids_find_pnp id = None)) lost_ids = true.
Proof. vm_compute. reflexivity. Qed.

Lemma strcasecmp_lower a b c : strcasecmp a b = 0 -> strcasecmp a c = strcasecmp b c.
Proof. unfold strcasecmp. intros H%strcmp_eq. by rewrite H. Qed.

Lemma bsearch_ext {A} (f g : A -> Z) base fuel l u :
  (forall x, f x = g x) -> bsearch_loop fuel f base l u = bsearch_loop fuel g base l u.
Proof.
  intros H. revert l u. induction fuel as [|fuel IH]; intros l u; simpl; [done|].
  destruct (decide _); [|done]. destruct (base !! _); [|done]. rewrite H.
  destruct (_ <? 0); [apply IH|]. destruct (0 <? _); [apply IH | done].
Qed.

Lemma find_ext {A} (f g : A -> bool) l : (forall x, f x = g x) -> List.find f l = List.find g l.
Proof. intros H. induction l as [|x l IH]; simpl; [done|]. rewrite H, IH. done. Qed.

Lemma find_none_iff {A} (f : A -> bool) l : (forall x, x ∈ l -> f x = false) -> List.find f l = None.
Proof.
  induction l as [|x l IH]; simpl; intros H; [done|].
  rewrite H by apply list_elem_of_here. apply IH. intros y Hy. apply H. by apply list_elem_of_further.
Qed.

(** A search that agrees with a scan on the identifiers of the table does on
    all. *)
Lemma search_agrees lost base id :
  forallb (fun e => agrees lost base (pnp_name e)) base = true ->
  desc <$> bsearch (ids_comp_pnp id) base = scan_pnp id (without lost base).
Proof.
  intros Ht. destruct (List.find (fun e => strcasecmp id (pnp_name e) =? 0) base) as [e|] eqn:E.
  - apply List.find_some in E as [Hin Heq%Z.eqb_eq].
    rewrite forallb_forall in Ht. specialize (Ht e Hin). apply bool_decide_eq_true in Ht.
    assert (Hc : forall x, strcasecmp id x = strcasecmp (pnp_name e) x) by (intros; by apply strcasecmp_lower).
    unfold bsearch, scan_pnp in *.
    rewrite (bsearch_ext _ (ids_comp_pnp (pnp_name e))), Ht by (intros; apply Hc).
    f_equal. apply find_ext. intros x. by rewrite Hc.
  - assert (Hn : forall x, x ∈ base -> strcasecmp id (pnp_name x) <> 0).
    { intros x Hx%list_elem_of_In. apply (List.find_none _ _ E) in Hx. lia. }
    unfold scan_pnp. rewrite find_none_iff.
    + destruct (bsearch _ _) as [p|] eqn:Ep; [|done].
      apply bsearch_sound in Ep as [Hp H0]. by apply Hn in Hp.
    + intros x Hx. apply Z.eqb_neq, Hn. apply list_elem_of_In in Hx. unfold without in Hx.
      apply filter_In in Hx as [Hx _]. by apply list_elem_of_In.
Qed.

(** Looking up a PNP identifier agrees with scanning the table, in any case
    of letters and for identifiers that are not in it, except for the four
    identifiers of [lost_ids]: they are in the table, but bisection does not find
    them since the table is not sorted. *)
Lemma pnp_lookup_is_a_scan_but_for_four id :
  ids_find_pnp id = scan_pnp id (without lost_ids pnp_ids_list) /\
  Forall (fun lost => scan_pnp lost pnp_ids_list <> None /\ ids_find_pnp lost = None) lost_ids.
Proof.
  split; [exact (search_agrees lost_ids pnp_ids_list id table_agrees)|].
  apply Forall_forall. intros x Hx%list_elem_of_In.
  exact (bool_decide_eq_true_1 _ (proj1 (forallb_forall _ _) lost_are_lost x Hx)).
Qed.

(** ** Four hexadecimal digits *)
Definition lower_digit (d : Z) : ascii :=
  let c := hex_digit d in
  if decide (65 <= nat_of_ascii c)%nat then ascii_of_nat (nat_of_ascii c + 32) else c.

Fixpoint digits (n : nat) (z : Z) : string :=
  match n with O => "" | S n' => digits n' (z / 16) +:+ String (lower_digit (z mod 16)) "" end.

Lemma lower_hex_app a b : lower_hex (a +:+ b) = lower_hex a +:+ lower_hex b.
Proof.
  unfold lower_hex. induction a as [|c a IH]; [done|].
  change (String c a +:+ b) with (String c (a +:+ b)). simpl. rewrite IH. done.
Qed.

Lemma lower_hex_digits n z : lower_hex (hex n z) = digits n z.
Proof. revert z. induction n as [|n IH]; intros z; simpl; [done|]. rewrite lower_hex_app, IH. done. Qed.

Lemma digits_length n z : String.length (digits n z) = n.
Proof. revert z. induction n as [|n IH]; intros z; simpl; [done|]. rewrite string_length_app, IH. simpl. lia. Qed.

Definition is_hex (c : ascii) : bool := bool_decide (c ∈ String.list_ascii_of_string "0123456789abcdef").

Lemma lower_digit_cases d : 0 <= d < 16 ->
  d = 0 \/ d = 1 \/ d = 2 \/ d = 3 \/ d = 4 \/ d = 5 \/ d = 6 \/ d = 7 \/ d = 8 \/ d = 9 \/ d = 10 \/
  d = 11 \/ d = 12 \/ d = 13 \/ d = 14 \/ d = 15.
Proof. lia. Qed.

Lemma lower_digit_hex d : 0 <= d < 16 -> is_hex (lower_digit d) = true.
Proof. intros H%lower_digit_cases. repeat destruct H as [->|H]; try subst; reflexivity. Qed.

Definition undigit (c : ascii) : Z :=
  let n := Z.of_nat (nat_of_ascii c) in if n <? 65 then n - 48 else n - 87.

Lemma undigit_digit d : 0 <= d < 16 -> undigit (lower_digit d) = d.
Proof. intros H%lower_digit_cases. repeat destruct H as [->|H]; try subst; reflexivity. Qed.

Lemma digits_inj n x y :
  0 <= x < 16 ^ Z.of_nat n -> 0 <= y < 16 ^ Z.of_nat n -> digits n x = digits n y -> x = y.
Proof.
  revert x y. induction n as [|n IH]; intros x y Hx Hy; simpl digits; [lia|].
  rewrite Nat2Z.inj_succ, Z.pow_succ_r in Hx, Hy by lia.
  intros H. apply string_app_inv in H as [H1 H2]; [|by rewrite !digits_length].
  injection H2 as H2. apply (f_equal undigit) in H2.
  rewrite !undigit_digit in H2 by (apply Z.mod_pos_bound; lia).
  apply IH in H1; [|split; [apply Z.div_pos; lia | apply Z.div_lt_upper_bound; lia]..].
  rewrite (Z.div_mod x 16), (Z.div_mod y 16) by lia. lia.
Qed.

Definition id_range (id : Z) : Prop := 0 <= id < 65536.

Lemma printf_digits id : id_range id -> printf_04x id = digits 4 id.
Proof.
  unfold id_range. intros H. unfold printf_04x. rewrite wrap_u_id by (unfold in_u; lia).
  unfold hex_digits. rewrite (proj2 (Z.ltb_lt id 65536)) by lia. rewrite lower_hex_digits.
  apply snprintf_fits. rewrite digits_length. lia.
Qed.

Lemma printf_inj x y : id_range x -> id_range y -> printf_04x x = printf_04x y -> x = y.
Proof. intros Hx Hy. rewrite !printf_digits by done. by apply digits_inj. Qed.

(** ** Lines of a database *)
Definition name_char (c : ascii) : bool := negb (bool_decide (c = "010"%char)) && negb (bool_decide (c = "000"%char)).
(** A name as it is written to a file: no line feed, no zero byte, no space in
    front, and short enough. *)
Definition plain_name (name : string) : Prop :=
  all_chars name_char name = true /\
  match name with String c _ => isspace c = false | EmptyString => True end /\
  (String.length name < 480)%nat.

Definition written (pre name : string) : string := pre +:+ "  " +:+ name.

Lemma cut_nul_name name x : all_chars name_char name = true -> cut_nul (name +:+ String NUL_char x) = name.
Proof.
  induction name as [|c name IH]; intros H; [done|]. apply andb_true_iff in H as [Hc H].
  change (String c name +:+ String NUL_char x) with (String c (name +:+ String NUL_char x)). cbn [cut_nul].
  apply andb_true_iff in Hc as [_ Hc]. apply negb_true_iff, bool_decide_eq_false in Hc.
  destruct (decide _); [done|]. by rewrite IH.
Qed.

Lemma put_line_eq line buf : exists x, put_line line buf = line +:+ String NUL_char x.
Proof. by eexists. Qed.

Lemma spaces_before name :
  plain_name name -> (span (fun c => negb (isspace c)) ("  " +:+ name)).1 = "  ".
Proof.
  intros (_ & Hn & _). change ("  " +:+ name) with (String " " (String " " name)). simpl.
  destruct name as [|c name]; [done|]. simpl. by rewrite Hn.
Qed.

Lemma name_read pre name buf (line := written pre name) :
  plain_name name -> name_from (put_line line buf) (String.length line) (String.length pre) = name.
Proof.
  intros Hn. destruct (put_line_eq line buf) as [x ->]. unfold name_from. subst line. unfold written.
  rewrite <- !string_app_assoc, str_drop_app, string_length_app.
  replace (String.length pre + _ - String.length pre)%nat with (String.length ("  " +:+ name)) by lia.
  rewrite (string_app_assoc "  " name), str_take_app, spaces_before by done.
  change (String.length "  ") with 2%nat.
  replace (String.length pre + 2)%nat with (String.length (pre +:+ "  ")) by (rewrite string_length_app; done).
  rewrite <- (string_app_assoc "  " name), (string_app_assoc pre "  "), str_drop_app.
  apply cut_nul_name, Hn.
Qed.

Lemma id_read a id rest rep buf (line := a +:+ id +:+ rest) :
  String.length id = 4%nat -> String.length rep = 4%nat ->
  id_at (put_line line buf) (String.length a) rep = bool_decide (id = rep).
Proof.
  intros Hi Hr. destruct (put_line_eq line buf) as [x ->]. unfold id_at. subst line.
  rewrite <- !string_app_assoc, str_drop_app.
  pose proof (str_take_app id (rest +:+ String NUL_char x)) as Ht. rewrite Hi in Ht. rewrite Ht.
  rewrite str_take_all by lia. done.
Qed.

Lemma take_line_read n line rest :
  all_chars (fun c => negb (bool_decide (c = "010"%char))) line = true -> (String.length line <= n)%nat ->
  take_line n (line +:+ String "010" rest) = (line, String "010" rest).
Proof.
  revert n. induction line as [|c line IH]; intros n H Hl; simpl in *.
  - change ("" +:+ String "010" rest) with (String "010" rest). by destruct n.
  - destruct n as [|n]; [lia|]. apply andb_true_iff in H as [Hc H].
    change (String c line +:+ String "010" rest) with (String c (line +:+ String "010" rest)). cbn [take_line].
    apply negb_true_iff, bool_decide_eq_false in Hc. destruct (decide _); [done|].
    rewrite IH by (try done; lia). done.
Qed.

(** A line that fits the buffer. *)
Definition fits (line : string) : Prop :=
  all_chars (fun c => negb (bool_decide (c = "010"%char))) line = true /\ (String.length line <= 511)%nat.

Fixpoint text_of (lines : list string) : string :=
  match lines with [] => "" | l :: rest => l +:+ String "010" (text_of rest) end.

Lemma get_line_read line rest : fits line -> pci_ids_line_iter_get_line (line +:+ String "010" rest) = (line, rest).
Proof.
  intros [H1 H2]. unfold pci_ids_line_iter_get_line. rewrite take_line_read by done.
  f_equal. exact (str_drop_app (String "010" "") rest).
Qed.

Lemma has_more_read line rest : pci_ids_line_iter_has_more (line +:+ String "010" rest) = true.
Proof. unfold pci_ids_line_iter_has_more. by destruct line. Qed.

(** ** A database of PCI devices *)
Record subsystem := mk_subsystem { ss_vendor : Z; ss_product : Z; ss_name : string }.
Record product := mk_product { pr_id : Z; pr_name : string; pr_subsystems : list subsystem }.
Record vendor := mk_vendor { ve_id : Z; ve_name : string; ve_products : list product }.

Definition TAB_text : string := String "009" "".
Definition subsystem_line (s : subsystem) : string :=
  written (TAB_text +:+ TAB_text +:+ digits 4 (ss_vendor s) +:+ " " +:+ digits 4 (ss_product s)) (ss_name s).
Definition product_line (p : product) : string := written (TAB_text +:+ digits 4 (pr_id p)) (pr_name p).
Definition vendor_line (v : vendor) : string := written (digits 4 (ve_id v)) (ve_name v).

Definition product_lines (p : product) : list string := product_line p :: map subsystem_line (pr_subsystems p).
Definition vendor_lines (v : vendor) : list string := vendor_line v :: flat_map product_lines (ve_products v).
(** The text of [pci.ids] for a database. *)
Definition print_ids (db : list vendor) : string := text_of (flat_map vendor_lines db).

Definition subsystem_ok (s : subsystem) : Prop :=
  id_range (ss_vendor s) /\ id_range (ss_product s) /\ plain_name (ss_name s).
Definition product_ok (p : product) : Prop :=
  id_range (pr_id p) /\ plain_name (pr_name p) /\ Forall subsystem_ok (pr_subsystems p) /\
  NoDup (map (fun s => (ss_vendor s, ss_product s)) (pr_subsystems p)).
Definition vendor_ok (v : vendor) : Prop :=
  id_range (ve_id v) /\ plain_name (ve_name v) /\ Forall product_ok (ve_products v) /\
  NoDup (map pr_id (ve_products v)).
Definition database_ok (db : list vendor) : Prop := Forall vendor_ok db /\ NoDup (map ve_id db).

(** An identifier of 0 is unknown. *)
Definition hit (query id : Z) : bool := negb (query =? 0) && (query =? id).

(** *** The effect of a line on the names *)
Section Steps.
Context (vi pi svi spi : Z).

Definition vendor_step (s : pci_names) (v : vendor) : pci_names :=
  let svn := if bool_decide (subsys_vendor_name s = None) && hit svi (ve_id v)
             then Some (ve_name v) else subsys_vendor_name s in
  if hit vi (ve_id v)
  then mk_pci true (product_matched s) (Some (ve_name v)) (product_name s) svn (subsys_product_name s)
  else mk_pci false (product_matched s) (vendor_name s) (product_name s) svn (subsys_product_name s).
Definition product_step (s : pci_names) (p : product) : pci_names :=
  if vendor_matched s && hit pi (pr_id p)
  then mk_pci (vendor_matched s) true (vendor_name s) (Some (pr_name p)) (subsys_vendor_name s) (subsys_product_name s)
  else mk_pci (vendor_matched s) false (vendor_name s) (product_name s) (subsys_vendor_name s) (subsys_product_name s).
Definition sub_hit (x : subsystem) : bool := hit svi (ss_vendor x) && hit spi (ss_product x).
Definition subsystem_step (s : pci_names) (x : subsystem) : pci_names :=
  if vendor_matched s && product_matched s && sub_hit x
  then mk_pci (vendor_matched s) (product_matched s) (vendor_name s) (product_name s) (subsys_vendor_name s)
              (Some (ss_name x))
  else s.

Context (Hv : id_range vi) (Hp : id_range pi) (Hsv : id_range svi) (Hsp : id_range spi).

Lemma digits_hit q x : id_range q -> id_range x -> (digits 4 x =s? printf_04x q) = (q =? x).
Proof.
  intros Hq Hx. rewrite <- (printf_digits x) by done. case_bool_decide as H.
  - apply printf_inj in H; [|done..]. subst. by rewrite Z.eqb_refl.
  - symmetry. apply Z.eqb_neq. by intros ->.
Qed.

Lemma printf_length q : id_range q -> String.length (printf_04x q) = 4%nat.
Proof. intros H. rewrite printf_digits by done. apply digits_length. Qed.

(** The first digit of an identifier. *)
Lemma digits_first z : exists c rest, digits 4 z = String c rest /\ is_hex c = true.
Proof.
  cbn [digits]. change ("" +:+ ?a) with a. eexists _, _. split; [reflexivity|].
  apply lower_digit_hex, Z.mod_pos_bound. lia.
Qed.

Lemma app_cons c a b : String c a +:+ b = String c (a +:+ b).
Proof. done. Qed.

Lemma hex_not c x : is_hex c = true -> is_hex x = false -> c <> x.
Proof. intros H1 H2 ->. congruence. Qed.

Lemma tab_line t z rest :
  t = "" \/ t = TAB_text \/ t = TAB_text +:+ TAB_text ->
  num_tabs (t +:+ digits 4 z +:+ rest) = String.length t /\ skipped (t +:+ digits 4 z +:+ rest) = false.
Proof.
  intros Ht. pose proof (digits_length 4 z) as Hl. destruct (digits_first z) as (c & r & E & Hc).
  rewrite E in *.
  pose proof (hex_not c "009" Hc eq_refl). pose proof (hex_not c "#" Hc eq_refl).
  assert (Hs : forall u, (String.length (u +:+ String c r +:+ rest) < 4)%nat -> False).
  { intros u. rewrite !string_length_app. lia. }
  split.
  - unfold num_tabs. destruct Ht as [-> | [-> | ->]]; unfold TAB_text; rewrite ?app_cons; simpl;
      by rewrite (bool_decide_eq_false_2 (c = "009"%char)).
  - unfold skipped. apply orb_false_iff. split; [apply bool_decide_eq_false; intros Hx; by apply Hs in Hx|].
    destruct Ht as [-> | [-> | ->]]; unfold TAB_text; rewrite ?app_cons; cbn; [|done..].
    change (has_prefix (String c (r +:+ rest)) "#" = false). unfold has_prefix. cbn [String.prefix].
    destruct (ascii_dec "#" c); [congruence | done].
Qed.

Lemma vendor_line_run v buf s :
  vendor_ok v -> pci_line vi pi svi spi (vendor_line v) (put_line (vendor_line v) buf) s = vendor_step s v.
Proof.
  intros (Hi & Hn & _). unfold pci_line, vendor_line, written.
  destruct (tab_line "" (ve_id v) ("  " +:+ ve_name v)) as [Ht Hs]; [by left|].
  change ("" +:+ ?a) with a in Ht, Hs. rewrite Hs, Ht. cbn [String.length]. unfold pci_vendor_line, vendor_step, hit.
  pose proof (name_read (digits 4 (ve_id v)) (ve_name v) buf Hn) as Hname.
  unfold written in Hname. rewrite digits_length in Hname. rewrite Hname.
  pose proof (fun q Hq => id_read "" (digits 4 (ve_id v)) ("  " +:+ ve_name v) (printf_04x q) buf
                (digits_length 4 _) (printf_length q Hq)) as Hid.
  change ("" +:+ ?a) with a in Hid. cbn [String.length] in Hid.
  rewrite !Hid, !digits_hit by done. by rewrite andb_assoc.
Qed.

Lemma product_line_run p buf s :
  product_ok p -> pci_line vi pi svi spi (product_line p) (put_line (product_line p) buf) s = product_step s p.
Proof.
  intros (Hi & Hn & _). unfold pci_line, product_line, written. rewrite <- string_app_assoc.
  destruct (tab_line TAB_text (pr_id p) ("  " +:+ pr_name p)) as [Ht Hs]; [by right; left|].
  rewrite Hs, Ht. cbn [String.length TAB_text]. unfold pci_product_line, product_step, hit.
  pose proof (name_read (TAB_text +:+ digits 4 (pr_id p)) (pr_name p) buf Hn) as Hname.
  assert (Hl : String.length (TAB_text +:+ digits 4 (pr_id p)) = 5%nat)
    by (rewrite string_length_app, digits_length; done).
  unfold written in Hname. rewrite Hl, <- string_app_assoc in Hname. rewrite Hname.
  pose proof (id_read TAB_text (digits 4 (pr_id p)) ("  " +:+ pr_name p) (printf_04x pi) buf
                (digits_length 4 _) (printf_length pi Hp)) as Hid.
  cbn [String.length TAB_text] in Hid. rewrite Hid, digits_hit by done. by rewrite andb_assoc.
Qed.

Lemma subsystem_line_run x buf s :
  subsystem_ok x ->
  pci_line vi pi svi spi (subsystem_line x) (put_line (subsystem_line x) buf) s = subsystem_step s x.
Proof.
  intros (Hi & Hj & Hn). unfold pci_line, subsystem_line, written.
  set (tail := "  " +:+ ss_name x).
  set (pre := TAB_text +:+ TAB_text +:+ digits 4 (ss_vendor x) +:+ " " +:+ digits 4 (ss_product x)).
  assert (E1 : pre +:+ tail = (TAB_text +:+ TAB_text) +:+ digits 4 (ss_vendor x) +:+ (" " +:+ digits 4 (ss_product x) +:+ tail))
    by (subst pre; by rewrite !string_app_assoc).
  assert (E2 : pre +:+ tail = (TAB_text +:+ TAB_text +:+ digits 4 (ss_vendor x) +:+ " ") +:+ digits 4 (ss_product x) +:+ tail)
    by (subst pre; by rewrite !string_app_assoc).
  destruct (tab_line (TAB_text +:+ TAB_text) (ss_vendor x) (" " +:+ digits 4 (ss_product x) +:+ tail)) as [Ht Hs];
    [by right; right|].
  rewrite <- E1 in Ht, Hs. rewrite Hs, Ht. cbn [String.length]. unfold pci_subsys_line, subsystem_step, sub_hit, hit.
  assert (Hl : String.length pre = 11%nat)
    by (subst pre; rewrite !string_length_app, !digits_length; done).
  pose proof (name_read pre (ss_name x) buf Hn) as Hname. unfold written in Hname. fold tail in Hname.
  rewrite Hl in Hname. rewrite Hname.
  pose proof (id_read (TAB_text +:+ TAB_text) (digits 4 (ss_vendor x)) (" " +:+ digits 4 (ss_product x) +:+ tail)
                (printf_04x svi) buf (digits_length 4 _) (printf_length svi Hsv)) as Hid1.
  pose proof (id_read (TAB_text +:+ TAB_text +:+ digits 4 (ss_vendor x) +:+ " ") (digits 4 (ss_product x)) tail
                (printf_04x spi) buf (digits_length 4 _) (printf_length spi Hsp)) as Hid2.
  assert (L2 : String.length (TAB_text +:+ TAB_text +:+ digits 4 (ss_vendor x) +:+ " ") = 7%nat)
    by (rewrite !string_length_app, digits_length; done).
  rewrite <- E1 in Hid1. rewrite <- E2, L2 in Hid2. change (String.length (TAB_text +:+ TAB_text)) with 2%nat in Hid1.
  rewrite Hid1, Hid2, !digits_hit by done.
  destruct (vendor_matched s), (product_matched s), (negb (svi =? 0)), (negb (spi =? 0)), (svi =? ss_vendor x),
    (spi =? ss_product x); done.
Qed.

(** *** The loop over the text

    Reading [lines] has the effect [f]. *)
Definition runs (lines : list string) (f : pci_names -> pci_names) : Prop :=
  forall rest buf s fuel, (String.length (text_of lines +:+ rest) <= fuel)%nat ->
  exists buf' fuel', (String.length rest <= fuel')%nat /\
    pci_loop vi pi svi spi fuel (text_of lines +:+ rest) buf s = pci_loop vi pi svi spi fuel' rest buf' (f s).

Lemma runs_nil : runs [] id.
Proof. intros rest buf s fuel H. by exists buf, fuel. Qed.

Lemma runs_line line f :
  fits line -> (forall buf s, pci_line vi pi svi spi line (put_line line buf) s = f s) -> runs [line] f.
Proof.
  intros Hl Hf rest buf s fuel. cbn [text_of]. rewrite <- string_app_assoc, app_cons. change ("" +:+ rest) with rest.
  rewrite string_length_app. cbn [String.length]. intros H. destruct fuel as [|fuel]; [lia|]. cbn [pci_loop].
  rewrite has_more_read, get_line_read by done. rewrite Hf. exists (put_line line buf), fuel. split; [lia | done].
Qed.

Lemma text_of_app a b : text_of (a ++ b) = text_of a +:+ text_of b.
Proof.
  induction a as [|l a IH]; [done|]. cbn [app text_of]. by rewrite IH, <- string_app_assoc, app_cons.
Qed.

Lemma runs_app a b f g : runs a f -> runs b g -> runs (a ++ b) (fun s => g (f s)).
Proof.
  intros Ha Hb rest buf s fuel. rewrite text_of_app, <- string_app_assoc. intros H.
  destruct (Ha _ buf s fuel H) as (buf1 & fuel1 & H1 & ->).
  destruct (Hb _ buf1 (f s) fuel1 H1) as (buf2 & fuel2 & H2 & ->). by exists buf2, fuel2.
Qed.

Lemma runs_flat_map {A} (lines : A -> list string) (step : pci_names -> A -> pci_names) l :
  Forall (fun x => runs (lines x) (fun s => step s x)) l -> runs (flat_map lines l) (fun s => foldl step s l).
Proof.
  induction 1 as [|x l Hx Hl IH]; [apply runs_nil|].
  exact (runs_app _ _ _ _ Hx IH).
Qed.

Lemma all_digits n z f : (forall c, is_hex c = true -> f c = true) -> all_chars f (digits n z) = true.
Proof.
  intros Hf. revert z. induction n as [|n IH]; intros z; [done|]. cbn [digits].
  rewrite all_chars_app, IH. simpl. rewrite Hf; [done|]. apply lower_digit_hex, Z.mod_pos_bound. lia.
Qed.

Lemma written_fits pre name :
  all_chars (fun c => negb (bool_decide (c = "010"%char))) pre = true -> (String.length pre <= 20)%nat ->
  plain_name name -> fits (written pre name).
Proof.
  intros H1 H2 (H3 & _ & H4). unfold written. split.
  - rewrite !all_chars_app, H1. simpl. eapply all_chars_impl; [|exact H3].
    intros c Hc. by apply andb_true_iff in Hc as [? _].
  - rewrite !string_length_app. change (String.length "  ") with 2%nat. lia.
Qed.

Lemma hex_no_newline c : is_hex c = true -> negb (bool_decide (c = "010"%char)) = true.
Proof. intros H. apply negb_true_iff, bool_decide_eq_false. by apply hex_not. Qed.

Definition product_block (s : pci_names) (p : product) : pci_names :=
  foldl subsystem_step (product_step s p) (pr_subsystems p).
Definition vendor_block (s : pci_names) (v : vendor) : pci_names :=
  foldl product_block (vendor_step s v) (ve_products v).

Lemma subsystem_runs x : subsystem_ok x -> runs [subsystem_line x] (fun s => subsystem_step s x).
Proof.
  intros H. apply runs_line; [|intros; by apply subsystem_line_run].
  apply written_fits; [|rewrite !string_length_app, !digits_length; simpl; lia | apply H].
  rewrite !all_chars_app, !all_digits by apply hex_no_newline. done.
Qed.

Lemma product_runs p : product_ok p -> runs (product_lines p) (fun s => product_block s p).
Proof.
  intros H. apply (runs_app [product_line p] _ (fun s => product_step s p) (fun s => foldl subsystem_step s _)).
  - apply runs_line; [|intros; by apply product_line_run].
    apply written_fits; [|rewrite !string_length_app, !digits_length; simpl; lia | apply H].
    rewrite !all_chars_app, !all_digits by apply hex_no_newline. done.
  - destruct H as (_ & _ & Hs & _).
    replace (map subsystem_line (pr_subsystems p)) with (flat_map (fun x => [subsystem_line x]) (pr_subsystems p))
      by (clear Hs; induction (pr_subsystems p); simpl; congruence).
    apply runs_flat_map. eapply List.Forall_impl; [apply subsystem_runs | exact Hs].
Qed.

Lemma vendor_runs v : vendor_ok v -> runs (vendor_lines v) (fun s => vendor_block s v).
Proof.
  intros H. apply (runs_app [vendor_line v] _ (fun s => vendor_step s v) (fun s => foldl product_block s _)).
  - apply runs_line; [|intros; by apply vendor_line_run].
    apply written_fits; [|rewrite digits_length; simpl; lia | apply H].
    apply all_digits, hex_no_newline.
  - apply runs_flat_map. eapply List.Forall_impl; [apply product_runs | apply H].
Qed.

Lemma find_pci_run db buf :
  Forall vendor_ok db -> ids_find_pci (print_ids db) buf vi pi svi spi = foldl vendor_block no_names db.
Proof.
  intros H. unfold ids_find_pci, print_ids.
  destruct (runs_flat_map vendor_lines vendor_block db (List.Forall_impl _ vendor_runs H) "" buf no_names
              (String.length (text_of (flat_map vendor_lines db)))) as (buf' & fuel' & _ & E);
    rewrite string_app_nil_r in *; [done|]. rewrite E. by destruct fuel'.
Qed.

(** *** What the lines of a database find *)
Lemma hit_eq q a b : hit q a = true -> hit q b = true -> a = b.
Proof. unfold hit. intros [_ ?]%andb_true_iff [_ ?]%andb_true_iff. lia. Qed.

Lemma unique_hit {A K} (key : A -> K) (f : A -> bool) x l :
  (forall a b, f a = true -> f b = true -> key a = key b) -> NoDup (map key (x :: l)) -> f x = true ->
  List.find f l = None.
Proof.
  intros Hf Hn Hx. cbn [map] in Hn. apply NoDup_cons in Hn as [Hn _]. apply find_none_iff.
  intros y Hy. destruct (f y) eqn:E; [|done]. destruct Hn. rewrite (Hf x y Hx E).
  apply list_elem_of_In, in_map. by apply list_elem_of_In.
Qed.

Definition orelse {A} (a b : option A) : option A := match a with Some _ => a | None => b end.

Definition with_spn (x : option string) (s : pci_names) : pci_names :=
  mk_pci (vendor_matched s) (product_matched s) (vendor_name s) (product_name s) (subsys_vendor_name s) x.

Lemma subsystems_fold s l :
  NoDup (map (fun x => (ss_vendor x, ss_product x)) l) ->
  foldl subsystem_step s l =
    if vendor_matched s && product_matched s
    then with_spn (orelse (ss_name <$> List.find sub_hit l) (subsys_product_name s)) s else s.
Proof.
  revert s. induction l as [|x l IH]; intros s Hn; cbn [foldl].
  { destruct (_ && _); by destruct s. }
  rewrite IH by (cbn [map] in Hn; by apply NoDup_cons in Hn as [_ ?]).
  destruct s as [[] [] vn pn svn spn]; unfold subsystem_step; cbn; try done.
  destruct (sub_hit x) eqn:E; cbn; [|done].
  rewrite (unique_hit (fun x => (ss_vendor x, ss_product x)) sub_hit x l); [done| |done..].
  unfold sub_hit. intros a b [Ha1 Ha2]%andb_true_iff [Hb1 Hb2]%andb_true_iff.
  f_equal; by eapply hit_eq.
Qed.

(** The names of [s], without the marks of the loop. *)
Definition names (s : pci_names) : list (option string) :=
  [vendor_name s; product_name s; subsys_vendor_name s; subsys_product_name s].

Definition product_hit (p : product) : bool := hit pi (pr_id p).
Definition vendor_hit (v : vendor) : bool := hit vi (ve_id v).

Lemma products_unmatched s l :
  vendor_matched s = false ->
  names (foldl product_block s l) = names s /\ vendor_matched (foldl product_block s l) = false.
Proof.
  revert s. induction l as [|p l IH]; intros s H; cbn [foldl]; [done|].
  assert (Hb : forall l s, vendor_matched s = false -> foldl subsystem_step s l = s).
  { clear. induction l as [|x l IH]; intros s H; cbn [foldl]; [done|].
    unfold subsystem_step at 2. rewrite H. by apply IH. }
  assert (E : names (product_block s p) = names s /\ vendor_matched (product_block s p) = false).
  { unfold product_block, product_step. rewrite H. cbn [andb]. rewrite Hb by done. done. }
  destruct (IH _ (proj2 E)) as [-> ->]. by destruct E as [-> _].
Qed.

(** The subsystem found below a product. *)
Definition found_subsystem (p : product) : option string := ss_name <$> List.find sub_hit (pr_subsystems p).

Lemma product_block_matched s p :
  vendor_matched s = true -> product_ok p ->
  names (product_block s p) =
    (if product_hit p
     then [vendor_name s; Some (pr_name p); subsys_vendor_name s; orelse (found_subsystem p) (subsys_product_name s)]
     else names s) /\ vendor_matched (product_block s p) = true.
Proof.
  intros H (_ & _ & _ & Hn). unfold product_block, product_step, product_hit. rewrite H. cbn [andb].
  rewrite subsystems_fold by done. by destruct (hit pi (pr_id p)); cbn; rewrite ?H.
Qed.

Lemma products_fold s l :
  vendor_matched s = true -> Forall product_ok l -> NoDup (map pr_id l) ->
  names (foldl product_block s l) =
    match List.find product_hit l with
    | Some p => [vendor_name s; Some (pr_name p); subsys_vendor_name s;
                 orelse (found_subsystem p) (subsys_product_name s)]
    | None => names s
    end.
Proof.
  revert s. induction l as [|p l IH]; intros s H Hok Hn; cbn [foldl]; [done|].
  apply Forall_cons_iff in Hok as [Hpk Hok].
  destruct (product_block_matched s p H Hpk) as [E1 E2].
  rewrite IH; [|done..|cbn [map] in Hn; by apply NoDup_cons in Hn as [_ ?]].
  cbn [List.find]. destruct (product_hit p) eqn:E.
  - rewrite (unique_hit pr_id product_hit p l); [done| |done..]. intros a b. apply hit_eq.
  - unfold names in E1 |- *. injection E1 as Ev Ep Es Esp.
    destruct (List.find _ _); by rewrite ?Ev, ?Ep, ?Es, ?Esp.
Qed.

(** The vendor, product and subsystem that a query names. *)
Definition find_vendor (q : Z) (db : list vendor) : option vendor := List.find (fun v => hit q (ve_id v)) db.
Definition find_product (v : vendor) : option product := List.find product_hit (ve_products v).

Definition expected (s : pci_names) (db : list vendor) : list (option string) :=
  let v := find_vendor vi db in
  let p := v ≫= find_product in
  [orelse (ve_name <$> v) (vendor_name s); orelse (pr_name <$> p) (product_name s);
   orelse (subsys_vendor_name s) (ve_name <$> find_vendor svi db);
   orelse (p ≫= found_subsystem) (subsys_product_name s)].

Lemma vendor_block_names s v :
  vendor_ok v -> names (vendor_block s v) = expected s [v].
Proof.
  intros (_ & _ & Hp' & Hn). unfold vendor_block. set (s1 := vendor_step s v).
  unfold expected, find_vendor. cbn [List.find].
  assert (Hsv' : subsys_vendor_name s1 =
            orelse (subsys_vendor_name s) (ve_name <$> (if hit svi (ve_id v) then Some v else None))).
  { subst s1. unfold vendor_step. destruct (subsys_vendor_name s) eqn:E, (hit vi _), (hit svi _); cbn; by rewrite ?E. }
  destruct (hit vi (ve_id v)) eqn:E.
  - rewrite products_fold; [|subst s1; unfold vendor_step; by rewrite E | done..]. cbn. unfold find_product.
    rewrite <- Hsv'. subst s1. unfold vendor_step. rewrite E.
    by destruct (List.find product_hit (ve_products v)).
  - destruct (products_unmatched s1 (ve_products v)) as [-> _]; [subst s1; unfold vendor_step; by rewrite E|].
    unfold names. rewrite Hsv'. subst s1. unfold vendor_step. by rewrite E.
Qed.

Lemma expected_cons s s' v db :
  names s' = expected s [v] -> NoDup (map ve_id (v :: db)) -> expected s' db = expected s (v :: db).
Proof.
  intros E Hn. unfold names, expected, find_vendor in *. cbn [List.find] in *. injection E as -> -> -> ->.
  pose proof (fun q => unique_hit ve_id (fun v => hit q (ve_id v)) v db (fun a b => hit_eq q _ _) Hn) as Hu.
  destruct (hit vi (ve_id v)) eqn:E1, (hit svi (ve_id v)) eqn:E2;
    rewrite ?(Hu vi E1), ?(Hu svi E2); cbn; destruct (subsys_vendor_name s); try done;
    by destruct (find_product v) as [p|]; cbn; [destruct (found_subsystem p)|].
Qed.

Lemma vendors_fold s db :
  Forall vendor_ok db -> NoDup (map ve_id db) -> names (foldl vendor_block s db) = expected s db.
Proof.
  revert s. induction db as [|v db IH]; intros s Hok Hn; cbn [foldl].
  { unfold expected, names. cbn. by destruct (subsys_vendor_name s). }
  apply Forall_cons_iff in Hok as [Hv' Hok].
  rewrite IH by (try done; cbn [map] in Hn; by apply NoDup_cons in Hn as [_ ?]).
  apply expected_cons; [by apply vendor_block_names | done].
Qed.
End Steps.

(** C37 A database of PCI devices, written in the format of [pci.ids], is read
    back: [ids_find_pci] finds exactly the names of the vendor, of its product, of
    the subsystem's vendor and of the subsystem that the database has under the
    four numbers, and no name for a number that is missing or 0; whatever the
    line buffer held before. *)
Theorem pci_names_round_trip db buf vi pi svi spi (r := ids_find_pci (print_ids db) buf vi pi svi spi) :
  database_ok db -> id_range vi -> id_range pi -> id_range svi -> id_range spi ->
  let v := find_vendor vi db in
  let p := v ≫= find_product pi in
  vendor_name r = ve_name <$> v /\ product_name r = pr_name <$> p /\
  subsys_vendor_name r = ve_name <$> find_vendor svi db /\
  subsys_product_name r = p ≫= found_subsystem svi spi.
Proof.
  intros [Hok Hn] Hv Hp Hsv Hsp v p. subst r. rewrite find_pci_run by done.
  pose proof (vendors_fold vi pi svi spi no_names db Hok Hn) as E.
  assert (Ho : forall A (o : option A), orelse o None = o) by (by intros A []).
  unfold expected, names in E. cbn in E. rewrite !Ho in E. by injection E as -> -> -> ->.
Qed.

(** ** Instances *)
Module Instances.
Definition acme : list vendor :=
  [mk_vendor 4660 "Acme" [mk_product 1 "Anvil" [mk_subsystem 4660 2 "Heavy anvil"]; mk_product 2 "Rocket" []];
   mk_vendor 43981 "Bolt" []].

Lemma acme_ok : database_ok acme.
Proof.
  repeat (split || constructor); try done; cbn; try lia; rewrite ?elem_of_cons, ?elem_of_nil; try naive_solver lia.
Qed.

Lemma pci_names_round_trip_witness :
  subsys_product_name (ids_find_pci (print_ids acme) "" 4660 1 4660 2) = Some "Heavy anvil".
Proof.
  destruct (pci_names_round_trip acme "" 4660 1 4660 2 acme_ok) as (_ & _ & _ & H);
    [split; lia..|]. exact H.
Defined.
End Instances.
