(* ===== verification/CallerTracker.v ===== *)
(** * What is known of callers ([hald/ci-tracker.c])

    The daemon asks the bus and ConsoleKit once who is behind a connection, and
    keeps the answer until the name goes away; changes of the active session
    are followed.  The answers of the bus and of ConsoleKit are a parameter. *)

From Stdlib Require Import ZArith Lia Ascii.
From stdpp Require Import base list gmap strings option pretty fin_maps.
From S2P Require Import Prelude CStd Property Device Util FdiRules AccessCheck.

(** ** Names on the bus *)
Definition VALID_INITIAL_BUS_NAME_CHARACTER (c : ascii) : bool :=
  in_range c 65 90 || in_range c 97 122 || bool_decide (c = "_"%char) || bool_decide (c = "-"%char).
Definition VALID_BUS_NAME_CHARACTER (c : ascii) : bool :=
  in_range c 48 57 || in_range c 65 90 || in_range c 97 122 || bool_decide (c = "_"%char) ||
  bool_decide (c = "-"%char).

(** The loop over the rest of a name; [valid] accepts the character behind a
    dot. *)
Fixpoint bus_name_loop (valid : ascii -> bool) (s : string) (last_dot : bool) : bool :=
  match s with
  | EmptyString => last_dot
  | String c s' =>
      if decide (c = "."%char) then
        match s' with
        | EmptyString => false
        | String x s'' => if negb (valid x) then false else bus_name_loop valid s'' true
        end
      else if negb (VALID_BUS_NAME_CHARACTER c) then false
      else bus_name_loop valid s' last_dot
  end.

Definition validate_bus_name (name : string) : bool :=
  match name with
  | EmptyString => false
  | String c s =>
      if decide (c = ":"%char) then bus_name_loop VALID_BUS_NAME_CHARACTER s true
      else if decide (c = "."%char) then false
      else if negb (VALID_INITIAL_BUS_NAME_CHARACTER c) then false
      else bus_name_loop VALID_INITIAL_BUS_NAME_CHARACTER s false
  end.

(** ** The cache *)
Record caller_info := mk_caller_info {
  uid : Z;
  pid : Z;
  in_active_session : bool;
  is_local : bool;
  session_objpath : option string;
  selinux_context : option string;
}.
#[global] Instance caller_info_eq_dec : EqDecision caller_info.
Proof. solve_decision. Defined.

(** What the access checks see. *)
Definition caller_view (ci : caller_info) : CICallerInfo :=
  mk_caller (uid ci) (session_objpath ci) (is_local ci) (in_active_session ci).

(** The reply to GetConnectionSELinuxSecurityContext: an error that says there
    is none, another error, or the context, which may be empty. *)
Inductive selinux_reply := SELinuxUnknown | SELinuxError | SELinuxContext (str : option string).

(** The answers of the bus daemon and of ConsoleKit; [None] is an error. *)
Record answers := mk_answers {
  unix_user : string -> option Z;
  process_id : string -> option Z;
  selinux : string -> selinux_reply;
  session_for_process : Z -> option string;
  session_active : string -> option bool;
  session_local : string -> option bool;
}.

Notation caller_cache := (gmap string caller_info).

Section Tracker.
Context (have_conkit : bool).

(** What is asked for a connection that is not in the cache. *)
Definition ask_caller (a : answers) (name : string) : option caller_info :=
  uid ← unix_user a name;
  if uid =? 2 ^ 64 - 1 then None
  else if negb have_conkit then Some (mk_caller_info uid 0 false false None None)
  else
    pid ← process_id a name;
    context ← (match selinux a name with
               | SELinuxUnknown => Some None
               | SELinuxError => None
               | SELinuxContext str => Some str
               end);
    match session_for_process a pid with
    | None => Some (mk_caller_info uid pid false false None context)
    | Some session =>
        active ← session_active a session;
        local ← session_local a session;
        Some (mk_caller_info uid pid active local (Some session) context)
    end.

Definition ci_tracker_get_info (a : answers) (name : option string) (cache : caller_cache)
  : option caller_info * caller_cache :=
  match name with
  | None => (None, cache)
  | Some name =>
      if negb (validate_bus_name name) then (None, cache)
      else match cache !! name with
           | Some ci => (Some ci, cache)
           | None =>
               match ask_caller a name with
               | Some ci => (Some ci, <[name := ci]> cache)
               | None => (None, cache)
               end
           end
  end.

Definition ci_tracker_name_owner_changed (name old_service_name new_service_name : string) (cache : caller_cache)
  : caller_cache :=
  if bool_decide (0 < String.length old_service_name)%nat then delete old_service_name cache else cache.

Definition set_session_active (objpath : string) (active : bool) (ci : caller_info) : caller_info :=
  if bool_decide (session_objpath ci = Some objpath)
  then mk_caller_info (uid ci) (pid ci) active (is_local ci) (session_objpath ci) (selinux_context ci)
  else ci.
Definition ci_tracker_set_active (objpath : string) (ci : caller_info) : caller_info :=
  set_session_active objpath true ci.
Definition ci_tracker_clear_active (objpath : string) (ci : caller_info) : caller_info :=
  set_session_active objpath false ci.

Definition ci_tracker_active_changed (objpath : string) (is_active : bool) (cache : caller_cache) : caller_cache :=
  if is_active then ci_tracker_set_active objpath <$> cache else ci_tracker_clear_active objpath <$> cache.
End Tracker.
