(* ===== verification/CallerClaims.v ===== *)
(** * Callers are known as they are

    The cache of callers cannot be told from asking anew, for unique names: whatever connects,
    disconnects or becomes active in between. *)

From Stdlib Require Import ZArith Lia Ascii.
From stdpp Require Import base list gmap strings option pretty fin_maps.
From S2P Require Import Prelude CStd Property Device Util FdiRules AccessCheck CallerTracker.

(** ** The bus and ConsoleKit *)
Record connection := mk_connection { c_uid : Z; c_pid : Z; c_context : selinux_reply }.

(** Connections by unique name, the owners of well-known names, the session of a
    process, and whether a session is active and local. *)
Record bus_world := mk_bus_world {
  connections : gmap string connection;
  owners : gmap string string;
  process_session : Z -> option string;
  session_state : gmap string (bool * bool);
}.
Definition is_unique (n : string) : bool := has_prefix n ":".
Definition owner (w : bus_world) (n : string) : option string := if is_unique n then Some n else owners w !! n.
(** Whom the bus answers for: a well-known name stands for its owner. *)
Definition behind_name (w : bus_world) (n : string) : option connection := u ← owner w n; connections w !! u.

Definition answers_of (w : bus_world) : answers :=
  mk_answers (fun n => c_uid <$> behind_name w n) (fun n => c_pid <$> behind_name w n)
    (fun n => match behind_name w n with Some c => c_context c | None => SELinuxError end)
    (process_session w) (fun s => fst <$> session_state w !! s) (fun s => snd <$> session_state w !! s).

Definition set_connections (f : gmap string connection -> gmap string connection) (w : bus_world) : bus_world :=
  mk_bus_world (f (connections w)) (owners w) (process_session w) (session_state w).
Definition set_owner (name : string) (new : option string) (w : bus_world) : bus_world :=
  mk_bus_world (connections w) (partial_alter (fun _ => new) name (owners w)) (process_session w) (session_state w).
Definition set_session (s : string) (state : bool * bool) (w : bus_world) : bus_world :=
  mk_bus_world (connections w) (owners w) (process_session w) (<[s := state]> (session_state w)).

(** What happens, with the signals that the daemon handles: a client connects
    or leaves (after its names have passed on), a well-known name gets another
    owner or loses it, a session opens or
    becomes active or inactive, and the daemon asks for a caller, by any name. *)
Inductive step (have_conkit : bool) : bus_world * caller_cache -> bus_world * caller_cache -> Prop :=
  | Connects w cache n c :
      is_unique n = true -> connections w !! n = None ->
      step have_conkit (w, cache) (set_connections <[n := c]> w, cache)
  | Leaves w cache n :
      is_unique n = true -> (forall name, owners w !! name <> Some n) ->
      step have_conkit (w, cache) (set_connections (delete n) w, ci_tracker_name_owner_changed n n "" cache)
  | NameMoves w cache name new :
      is_unique name = false -> (forall u, new = Some u -> is_Some (connections w !! u)) ->
      step have_conkit (w, cache)
        (set_owner name new w, ci_tracker_name_owner_changed name (default "" (owners w !! name)) (default "" new) cache)
  | SessionOpens w cache s state :
      session_state w !! s = None ->
      step have_conkit (w, cache) (set_session s state w, cache)
  | ActiveChanges w cache s active local b :
      have_conkit = true -> session_state w !! s = Some (active, local) ->
      step have_conkit (w, cache) (set_session s (b, local) w, ci_tracker_active_changed s b cache)
  | Asks w cache n :
      step have_conkit (w, cache) (w, (ci_tracker_get_info have_conkit (answers_of w) n cache).2).

Section Coherence.
Context (have_conkit : bool).

(** What is cached for a name is what would be answered now. *)
Definition coherent (n : string) (s : bus_world * caller_cache) : Prop :=
  forall ci, s.2 !! n = Some ci -> ask_caller have_conkit (answers_of s.1) n = Some ci.

(** The answer depends on the connection behind the name and on the sessions. *)
Lemma ask_same w w' n :
  behind_name w' n = behind_name w n -> process_session w' = process_session w -> session_state w' = session_state w ->
  ask_caller have_conkit (answers_of w') n = ask_caller have_conkit (answers_of w) n.
Proof. intros H1 H2 H3. unfold ask_caller, answers_of. simpl. by rewrite H1, H2, H3. Qed.

Lemma ask_connected w n ci : ask_caller have_conkit (answers_of w) n = Some ci -> is_Some (behind_name w n).
Proof. unfold ask_caller, answers_of. simpl. destruct (behind_name w n); [done|]. by intros. Qed.

Lemma behind_other w f n u :
  owner w n = Some u -> (f (connections w)) !! u = connections w !! u -> behind_name (set_connections f w) n = behind_name w n.
Proof.
  intros Ho Hf. unfold behind_name. change (owner (set_connections f w) n) with (owner w n). rewrite Ho. simpl. done.
Qed.

Lemma ask_opened w s state n ci :
  session_state w !! s = None -> ask_caller have_conkit (answers_of w) n = Some ci ->
  ask_caller have_conkit (answers_of (set_session s state w)) n = Some ci.
Proof.
  intros Hs. unfold ask_caller, answers_of. simpl. change (behind_name (set_session s state w) n) with (behind_name w n).
  destruct (behind_name w n) as [c|]; [|done]. simpl.
  destruct (c_uid c =? _); [done|]. destruct (negb have_conkit); [done|].
  destruct (c_context c); simpl; try done;
    (destruct (process_session w (c_pid c)) as [s'|]; [|done]; destruct (decide (s' = s)) as [->|Hne];
     [by rewrite Hs | by rewrite lookup_insert_ne]).
Qed.

Lemma ask_changed w s active local b n ci :
  session_state w !! s = Some (active, local) -> ask_caller have_conkit (answers_of w) n = Some ci ->
  ask_caller have_conkit (answers_of (set_session s (b, local) w)) n = Some (set_session_active s b ci).
Proof.
  intros Hs. unfold ask_caller, answers_of. simpl. change (behind_name (set_session s (b, local) w) n) with (behind_name w n).
  destruct (behind_name w n) as [c|]; [|done]. simpl.
  destruct (c_uid c =? _); [done|]. destruct (negb have_conkit); [by intros [= <-]|].
  destruct (c_context c); simpl; try done;
    (destruct (process_session w (c_pid c)) as [s'|]; [|by intros [= <-]];
     destruct (decide (s' = s)) as [->|Hne];
     [rewrite Hs, lookup_insert_eq; simpl; intros [= <-]; unfold set_session_active;
      by rewrite bool_decide_eq_true_2
     | rewrite lookup_insert_ne by done; destruct (session_state w !! s') as [[a l]|]; simpl; [|done];
       intros [= <-]; unfold set_session_active; rewrite bool_decide_eq_false_2 by (simpl; congruence); done]).
Qed.

Lemma connects_coherent w cache n c m :
  connections w !! n = None -> coherent m (w, cache) -> coherent m (set_connections <[n := c]> w, cache).
Proof.
  intros Hn Hc ci Hm. apply Hc in Hm. cbn [fst snd] in *. rewrite <- Hm. apply ask_same; [|done|done].
  destruct (ask_connected _ _ _ Hm) as [x Hx]. unfold behind_name in Hx.
  destruct (owner w m) as [u|] eqn:Eu; simpl in Hx; [|done].
  apply (behind_other _ _ _ u Eu). apply lookup_insert_ne. congruence.
Qed.

Lemma leaves_coherent w cache n m :
  is_unique n = true -> (forall name, owners w !! name <> Some n) -> coherent m (w, cache) ->
  coherent m (set_connections (delete n) w, ci_tracker_name_owner_changed n n "" cache).
Proof.
  intros Hn Ho Hc ci Hm. cbn [fst snd] in *. unfold ci_tracker_name_owner_changed in Hm.
  rewrite bool_decide_eq_true_2 in Hm by (destruct n; simpl; [done | lia]).
  apply lookup_delete_Some in Hm as [Hne Hm]. apply Hc in Hm. cbn [fst] in Hm. rewrite <- Hm. apply ask_same; [|done|done].
  destruct (ask_connected _ _ _ Hm) as [x Hx]. unfold behind_name in Hx.
  destruct (owner w m) as [u|] eqn:Eu; simpl in Hx; [|done].
  apply (behind_other _ _ _ u Eu). apply lookup_delete_ne. intros <-. unfold owner in Eu.
  destruct (is_unique m); [congruence | by apply Ho in Eu].
Qed.

Lemma moves_coherent w cache name new m old new' :
  owner (set_owner name new w) m = owner w m -> coherent m (w, cache) ->
  coherent m (set_owner name new w, ci_tracker_name_owner_changed name old new' cache).
Proof.
  intros Ho Hc ci Hm. cbn [fst snd] in *. rewrite (ask_same w); [|by unfold behind_name; rewrite Ho|done|done].
  unfold ci_tracker_name_owner_changed in Hm. case_bool_decide; [apply lookup_delete_Some in Hm as [_ Hm]|]; by apply Hc in Hm.
Qed.

(** A step that leaves a name with its owner. *)
Definition step_keeping (n : string) (s s' : bus_world * caller_cache) : Prop :=
  step have_conkit s s' /\ owner s'.1 n = owner s.1 n.

Lemma step_coherent m s s' : step_keeping m s s' -> coherent m s -> coherent m s'.
Proof.
  intros [[w cache n c Hu Hn | w cache n Hu Hn | w cache name new Hu Hn | w cache t state Ht
         | w cache t active local b Hk Ht | w cache n] Ho] Hc.
  - by apply connects_coherent.
  - by apply leaves_coherent.
  - by apply moves_coherent.
  - intros ci Hm. apply Hc in Hm. by apply ask_opened.
  - unfold ci_tracker_active_changed. intros ci Hm. cbn [fst snd] in *.
    assert (exists ci0, cache !! m = Some ci0 /\ ci = set_session_active t b ci0) as (ci0 & H0 & ->).
    { destruct b; rewrite lookup_fmap in Hm; destruct (cache !! m) as [ci0|]; simplify_eq/=; eauto. }
    apply Hc in H0. by eapply ask_changed.
  - intros ci. cbn [fst snd]. unfold ci_tracker_get_info. destruct n as [n|]; [|apply Hc]. destruct (negb _); [apply Hc|].
    destruct (cache !! n) eqn:E; [apply Hc|]. destruct (ask_caller _ _ n) as [x|] eqn:Ea; [|apply Hc]. simpl.
    destruct (decide (n = m)) as [->|Hne]; [rewrite lookup_insert_eq; by intros [= <-]|].
    rewrite lookup_insert_ne by done. apply Hc.
Qed.

Lemma steps_coherent m s s' : rtc (step_keeping m) s s' -> coherent m s -> coherent m s'.
Proof. induction 1; [done|]. intros. eauto using step_coherent. Qed.

(** Every step leaves a unique name with its owner. *)
Lemma unique_steps m s s' : is_unique m = true -> rtc (step have_conkit) s s' -> rtc (step_keeping m) s s'.
Proof.
  intros Hm. induction 1 as [|x y z H _ IH]; [apply rtc_refl|]. eapply rtc_l; [|exact IH]. split; [done|].
  unfold owner. by rewrite Hm.
Qed.

Lemma coherent_current w cache n :
  coherent n (w, cache) ->
  (ci_tracker_get_info have_conkit (answers_of w) (Some n) cache).1 =
  (ci_tracker_get_info have_conkit (answers_of w) (Some n) ∅).1.
Proof.
  intros Hc. unfold ci_tracker_get_info. destruct (negb _); [done|].
  rewrite lookup_empty. destruct (cache !! n) as [ci|] eqn:E; [|by destruct (ask_caller _ _ n)].
  apply Hc in E. cbn [fst] in E. by rewrite E.
Qed.
End Coherence.

(** C35 What the daemon knows of a caller is what the bus and ConsoleKit would
    answer now, for unique bus names, which is what senders have: after any sequence of
    connections and departures, moves of well-known names,
    new sessions, changes of the active session and earlier questions, the
    cached answer for a unique name equals the one asked for anew.  The same
    holds for a well-known name (which a client may pass to IsCallerPrivileged and the like) as
    long as its owner does not change; when it does, the code evicts what it knows of
    the old owner and not of the name, and the answer may be out of date. *)
Theorem cached_callers_are_current have_conkit w0 w cache name :
  rtc (step have_conkit) (w0, ∅) (w, cache) ->
  is_unique name = true \/ rtc (step_keeping have_conkit name) (w0, ∅) (w, cache) ->
  (ci_tracker_get_info have_conkit (answers_of w) (Some name) cache).1 =
  (ci_tracker_get_info have_conkit (answers_of w) (Some name) ∅).1.
Proof.
  intros Hr Hk. apply coherent_current.
  assert (rtc (step_keeping have_conkit name) (w0, ∅) (w, cache)) as H by (destruct Hk; [by apply unique_steps | done]).
  eapply steps_coherent; [exact H|]. intros ci. cbn [snd]. by rewrite lookup_empty.
Qed.

(** ** Instances *)
Module Instances.
Definition SESSION : string := "/org/freedesktop/ConsoleKit/Session1".
Definition world0 : bus_world :=
  mk_bus_world ∅ ∅ (fun p => if p =? 42 then Some SESSION else None) (<[SESSION := (true, true)]> ∅).
Definition user : connection := mk_connection 1000 42 SELinuxUnknown.
Definition world1 : bus_world := set_connections <[":1.7" := user]> world0.

Lemma cached_callers_are_current_witness :
  (ci_tracker_get_info true (answers_of world1) (Some ":1.7")
     (ci_tracker_get_info true (answers_of world1) (Some ":1.7") ∅).2).1 =
  Some (mk_caller_info 1000 42 true true (Some SESSION) None).
Proof.
  rewrite (cached_callers_are_current true world0 world1
             (ci_tracker_get_info true (answers_of world1) (Some ":1.7") ∅).2 ":1.7").
  - vm_compute. reflexivity.
  - eapply rtc_l; [apply (Connects true world0 ∅ ":1.7" user); reflexivity|].
    apply rtc_once, (Asks true world1 ∅ (Some ":1.7")).
  - left. reflexivity.
Defined.

(** A well-known name passes from root to a user: what is known of the name is
    still that it stands for root. *)
Definition NAME : string := "org.example.Player".
Definition two_clients : bus_world :=
  mk_bus_world (<[":1.3" := mk_connection 0 7 SELinuxUnknown]> (<[":1.7" := user]> ∅)) (<[NAME := ":1.3"]> ∅)
    (process_session world0) (session_state world0).
Definition asked : caller_cache := (ci_tracker_get_info true (answers_of two_clients) (Some NAME) ∅).2.
Definition moved : bus_world := set_owner NAME (Some ":1.7") two_clients.
Definition kept : caller_cache := ci_tracker_name_owner_changed NAME ":1.3" ":1.7" asked.

Lemma moved_name_is_stale :
  step true (two_clients, asked) (moved, kept) /\
  uid <$> (ci_tracker_get_info true (answers_of moved) (Some NAME) kept).1 = Some 0 /\
  uid <$> (ci_tracker_get_info true (answers_of moved) (Some NAME) ∅).1 = Some 1000.
Proof.
  split; [|split; vm_compute; reflexivity].
  apply (NameMoves true two_clients asked NAME (Some ":1.7")); [reflexivity|]. intros u [= <-]. by exists user.
Qed.
End Instances.
