(* ===== verification/SessionTracker.v ===== *)
(** * Seats and sessions ([hald/ck-tracker.c])

    The daemon mirrors the seats and sessions of ConsoleKit.  Objects are
    counted: a session is referenced by the list of the tracker and by the seat
    it is attached to.  An operation is [None] when it reads an object that was
    freed.  The answers of ConsoleKit are a parameter; the callbacks are the
    events that a message leads to, with what they can read of the object. *)

From Stdlib Require Import ZArith Lia Ascii.
From stdpp Require Import base list gmap strings option pretty fin_maps.
From S2P Require Import Prelude CStd DeviceStore Dbus.

Record CKSeat := mk_seat { seat_refcount : Z; seat_objpath : string; seat_sessions : list nat }.

(** What a session is, apart from its count and seat. *)
Record session_data := mk_session_data {
  session_path : string;
  session_is_active : bool;
  session_user : Z;
  session_is_local : bool;
  session_hostname : option string;
}.
Record CKSession := mk_session { session_refcount : Z; session_seat : option nat; data : session_data }.

(** [next_object]: the next address. *)
Record CKTracker := mk_tracker {
  seat_heap : gmap nat CKSeat;
  session_heap : gmap nat CKSession;
  seats : list nat;
  sessions : list nat;
  next_object : nat;
  tracker_refcount : Z;
}.
Definition ck_tracker_new : CKTracker := mk_tracker ∅ ∅ [] [] 0 1.

(** The replies of ConsoleKit; [None] is an error or a reply of another type. *)
Record consolekit := mk_consolekit {
  ck_is_active : string -> option bool;
  ck_is_local : string -> option bool;
  ck_remote_host_name : string -> option string;
  ck_unix_user : string -> option Z;
  ck_seats : option (list string);
  ck_sessions : string -> option (list string);
}.

Definition ckm (A : Type) : Type := CKTracker -> option (A * CKTracker).
Definition ck_ret {A} (a : A) : ckm A := fun k => Some (a, k).
Definition ck_bind {A B} (m : ckm A) (f : A -> ckm B) : ckm B := fun k =>
  match m k with Some (a, k') => f a k' | None => None end.
Notation "'let+' x := m 'in' k" := (ck_bind m (fun x => k))
  (at level 10, x name, m at level 100, k at level 200) : hal_scope.
Notation "m >>; n" := (ck_bind m (fun _ => n)) (at level 199, right associativity) : hal_scope.

Definition get_session (id : nat) : ckm CKSession := fun k =>
  match session_heap k !! id with Some s => Some (s, k) | None => None end.
Definition put_session (id : nat) (s : CKSession) : ckm unit := fun k =>
  Some (tt, mk_tracker (seat_heap k) (<[id := s]> (session_heap k)) (seats k) (sessions k) (next_object k) (tracker_refcount k)).
Definition free_session (id : nat) : ckm unit := fun k =>
  Some (tt, mk_tracker (seat_heap k) (delete id (session_heap k)) (seats k) (sessions k) (next_object k) (tracker_refcount k)).
Definition get_seat (id : nat) : ckm CKSeat := fun k =>
  match seat_heap k !! id with Some s => Some (s, k) | None => None end.
Definition put_seat (id : nat) (s : CKSeat) : ckm unit := fun k =>
  Some (tt, mk_tracker (<[id := s]> (seat_heap k)) (session_heap k) (seats k) (sessions k) (next_object k) (tracker_refcount k)).
Definition free_seat (id : nat) : ckm unit := fun k =>
  Some (tt, mk_tracker (delete id (seat_heap k)) (session_heap k) (seats k) (sessions k) (next_object k) (tracker_refcount k)).
Definition get_lists : ckm (list nat * list nat) := fun k => Some ((seats k, sessions k), k).
Definition put_seats (l : list nat) : ckm unit := fun k =>
  Some (tt, mk_tracker (seat_heap k) (session_heap k) l (sessions k) (next_object k) (tracker_refcount k)).
Definition put_sessions (l : list nat) : ckm unit := fun k =>
  Some (tt, mk_tracker (seat_heap k) (session_heap k) (seats k) l (next_object k) (tracker_refcount k)).
Definition allocate : ckm nat := fun k =>
  Some (next_object k, mk_tracker (seat_heap k) (session_heap k) (seats k) (sessions k) (S (next_object k)) (tracker_refcount k)).

(** ** Objects *)
Definition ck_session_new (session_objpath : string) : ckm nat :=
  let+ id := allocate in
  put_session id (mk_session 1 None (mk_session_data session_objpath false 0 false None)) >>;
  ck_ret id.

Definition ck_session_unref (id : nat) : ckm unit :=
  let+ s := get_session id in
  let n := session_refcount s - 1 in
  put_session id (mk_session n (session_seat s) (data s)) >>;
  if n =? 0 then free_session id else ck_ret tt.

Definition ck_session_ref (id : nat) : ckm unit :=
  let+ s := get_session id in
  put_session id (mk_session (session_refcount s + 1) (session_seat s) (data s)).

Definition set_session_seat (id : nat) (seat : option nat) : ckm unit :=
  let+ s := get_session id in put_session id (mk_session (session_refcount s) seat (data s)).

Definition ck_seat_new (objpath : string) : ckm nat :=
  let+ id := allocate in put_seat id (mk_seat 1 objpath []) >>; ck_ret id.

Definition ck_seat_attach_session (seat session : nat) : ckm unit :=
  ck_session_ref session >>;
  set_session_seat session (Some seat) >>;
  let+ t := get_seat seat in
  put_seat seat (mk_seat (seat_refcount t) (seat_objpath t) (seat_sessions t ++ [session])).

Definition ck_seat_detach_session (seat session : nat) : ckm unit :=
  let+ t := get_seat seat in
  put_seat seat (mk_seat (seat_refcount t) (seat_objpath t) (slist_remove session (seat_sessions t))) >>;
  set_session_seat session None >>;
  ck_session_unref session.

Fixpoint detach_each (l : list nat) : ckm unit :=
  match l with
  | [] => ck_ret tt
  | id :: rest => set_session_seat id None >>; ck_session_unref id >>; detach_each rest
  end.

Definition ck_seat_unref (seat : nat) : ckm unit :=
  let+ t := get_seat seat in
  let n := seat_refcount t - 1 in
  put_seat seat (mk_seat n (seat_objpath t) (seat_sessions t)) >>;
  if n =? 0 then detach_each (seat_sessions t) >>; free_seat seat else ck_ret tt.

(** ** Asking ConsoleKit *)
Section Tracker.
Context (ck : consolekit).

Definition with_active (b : bool) (d : session_data) : session_data :=
  mk_session_data (session_path d) b (session_user d) (session_is_local d) (session_hostname d).

(** The fields are set one after the other; FALSE at the first error. *)
Definition asked_data (p : string) (d : session_data) : session_data * bool :=
  match ck_is_active ck p with
  | None => (d, false)
  | Some a =>
      let d := with_active a d in
      match ck_is_local ck p with
      | None => (d, false)
      | Some l =>
          let d := mk_session_data (session_path d) (session_is_active d) (session_user d) l (session_hostname d) in
          match ck_remote_host_name ck p with
          | None => (d, false)
          | Some h =>
              let d := mk_session_data (session_path d) (session_is_active d) (session_user d)
                                       (session_is_local d) (Some h) in
              match ck_unix_user ck p with
              | None => (d, false)
              | Some u => (mk_session_data (session_path d) (session_is_active d) u (session_is_local d)
                                           (session_hostname d), true)
              end
          end
      end
  end.

Definition ck_session_get_info (id : nat) : ckm bool :=
  let+ s := get_session id in
  let '(d, ok) := asked_data (session_path (data s)) (data s) in
  put_session id (mk_session (session_refcount s) (session_seat s) d) >>;
  ck_ret ok.

(** A session that ConsoleKit has on a seat; FALSE when it cannot be asked. *)
Definition add_session (seat : nat) (p : string) : ckm (option nat) :=
  let+ session := ck_session_new p in
  let+ ok := ck_session_get_info session in
  if ok then
    ck_seat_attach_session seat session >>;
    let+ lists := get_lists in
    put_sessions (session :: lists.2) >>;
    ck_ret (Some session)
  else ck_ret None.

Fixpoint get_sessions_loop (seat : nat) (paths : list string) : ckm bool :=
  match paths with
  | [] => ck_ret true
  | p :: rest =>
      let+ added := add_session seat p in
      match added with Some _ => get_sessions_loop seat rest | None => ck_ret false end
  end.

Definition ck_tracker_init_get_sessions_for_seat (seat : nat) : ckm bool :=
  let+ t := get_seat seat in
  match ck_sessions ck (seat_objpath t) with
  | None => ck_ret false
  | Some paths => get_sessions_loop seat paths
  end.

Fixpoint get_seats_loop (paths : list string) : ckm bool :=
  match paths with
  | [] => ck_ret true
  | p :: rest =>
      let+ seat := ck_seat_new p in
      let+ ok := ck_tracker_init_get_sessions_for_seat seat in
      if ok then
        let+ lists := get_lists in
        put_seats (seat :: lists.1) >>; get_seats_loop rest
      else ck_ret false
  end.

Definition ck_tracker_init_get_seats_and_sessions : ckm bool :=
  match ck_seats ck with None => ck_ret false | Some paths => get_seats_loop paths end.
Definition ck_tracker_init : ckm bool := ck_tracker_init_get_seats_and_sessions.

Fixpoint unref_sessions (l : list nat) : ckm unit :=
  match l with [] => ck_ret tt | id :: rest => ck_session_unref id >>; unref_sessions rest end.
Fixpoint unref_seats (l : list nat) : ckm unit :=
  match l with [] => ck_ret tt | id :: rest => ck_seat_unref id >>; unref_seats rest end.

Definition ck_tracker_remove_all_seats_and_sessions : ckm unit :=
  let+ lists := get_lists in
  unref_sessions lists.2 >>; put_sessions [] >>;
  unref_seats lists.1 >>; put_seats [].

Definition ck_tracker_ref : ckm unit := fun k =>
  Some (tt, mk_tracker (seat_heap k) (session_heap k) (seats k) (sessions k) (next_object k) (tracker_refcount k + 1)).
(** The tracker itself is not freed. *)
Definition ck_tracker_unref : ckm unit := fun k =>
  let n := tracker_refcount k - 1 in
  let k := mk_tracker (seat_heap k) (session_heap k) (seats k) (sessions k) (next_object k) n in
  if n =? 0 then ck_tracker_remove_all_seats_and_sessions k else Some (tt, k).

(** ** Signals *)
Inductive ck_event :=
  | seat_added_cb (objpath : string)
  | seat_removed_cb (objpath : string)
  | session_added_cb (s : session_data)
  | session_removed_cb (s : session_data)
  | session_active_changed_cb (s : session_data)
  | service_disappeared_cb
  | service_appeared_cb.

(** The first seat, or session, with the path. *)
Fixpoint find_seat (p : string) (l : list nat) : ckm (option nat) :=
  match l with
  | [] => ck_ret None
  | id :: rest => let+ t := get_seat id in if seat_objpath t =s? p then ck_ret (Some id) else find_seat p rest
  end.
Fixpoint find_session (p : string) (l : list nat) : ckm (option nat) :=
  match l with
  | [] => ck_ret None
  | id :: rest =>
      let+ s := get_session id in if session_path (data s) =s? p then ck_ret (Some id) else find_session p rest
  end.

Definition seat_added (p : string) : ckm (list ck_event) :=
  let+ seat := ck_seat_new p in
  let+ lists := get_lists in
  put_seats (seat :: lists.1) >>;
  ck_ret [seat_added_cb p].

Definition seat_removed (p : string) : ckm (list ck_event) :=
  let+ lists := get_lists in
  let+ found := find_seat p lists.1 in
  match found with
  | Some seat =>
      put_seats (slist_remove seat lists.1) >>;
      ck_seat_unref seat >>;
      ck_ret [seat_removed_cb p]
  | None => ck_ret []
  end.

Definition session_added (seat_path p : string) : ckm (list ck_event) :=
  let+ lists := get_lists in
  let+ found := find_seat seat_path lists.1 in
  match found with
  | Some seat =>
      let+ added := add_session seat p in
      match added with
      | Some session => let+ s := get_session session in ck_ret [session_added_cb (data s)]
      | None => ck_ret []
      end
  | None => ck_ret []
  end.

Definition session_removed (p : string) : ckm (list ck_event) :=
  let+ lists := get_lists in
  let+ found := find_session p lists.2 in
  match found with
  | Some session =>
      let+ s := get_session session in
      (match session_seat s with
       | None => ck_ret tt
       | Some seat => ck_seat_detach_session seat session
       end) >>;
      put_sessions (slist_remove session lists.2) >>;
      ck_session_unref session >>;
      ck_ret [session_removed_cb (data s)]
  | None => ck_ret []
  end.

Definition active_changed (p : string) (active : bool) : ckm (list ck_event) :=
  let+ lists := get_lists in
  let+ found := find_session p lists.2 in
  match found with
  | Some session =>
      let+ s := get_session session in
      let d := with_active active (data s) in
      put_session session (mk_session (session_refcount s) (session_seat s) d) >>;
      ck_ret [session_active_changed_cb d]
  | None => ck_ret []
  end.

Definition name_owner_changed (name old_service_name new_service_name : string) : ckm (list ck_event) :=
  let ours := name =s? "org.freedesktop.ConsoleKit" in
  let+ gone := (if (new_service_name =s? "") && ours
              then ck_tracker_remove_all_seats_and_sessions >>; ck_ret [service_disappeared_cb]
              else ck_ret []) in
  let+ appeared := (if (old_service_name =s? "") && ours
                  then ck_tracker_init >>; ck_ret [service_appeared_cb]
                  else ck_ret []) in
  ck_ret (gone ++ appeared).

Definition get_args_sss (m : DBusMessage) : option (string * string * string) :=
  match m_args m with VString a :: VString b :: VString c :: _ => Some (a, b, c) | _ => None end.
Definition get_args_b (m : DBusMessage) : option bool :=
  match m_args m with VBoolean b :: _ => Some b | _ => None end.

(** Object paths are strings here. *)
Definition ck_tracker_process_system_bus_message (is_signal : bool) (m : DBusMessage) : ckm (list ck_event) :=
  let signal i n := is_signal && dbus_message_is_method_call m i n in
  let on {A} (args : option A) (f : A -> ckm (list ck_event)) :=
    match args with Some a => f a | None => ck_ret [] end in
  if signal "org.freedesktop.ConsoleKit.Manager" "SeatAdded" then on (get_args_s m) seat_added
  else if signal "org.freedesktop.ConsoleKit.Manager" "SeatRemoved" then on (get_args_s m) seat_removed
  else if signal "org.freedesktop.ConsoleKit.Seat" "SessionAdded"
  then on (get_args_s m) (session_added (m_path m))
  else if signal "org.freedesktop.ConsoleKit.Seat" "SessionRemoved" then on (get_args_s m) session_removed
  else if signal "org.freedesktop.ConsoleKit.Session" "ActiveChanged"
  then on (get_args_b m) (active_changed (m_path m))
  else if signal "org.freedesktop.DBus" "NameOwnerChanged"
  then on (get_args_sss m) (fun '(name, old, new) => name_owner_changed name old new)
  else ck_ret [].
End Tracker.

(** ** What clients of the tracker read *)
Definition ck_seat_get_sessions (seat : nat) : ckm (list nat) := let+ t := get_seat seat in ck_ret (seat_sessions t).
Definition ck_session_get_seat (id : nat) : ckm (option nat) := let+ s := get_session id in ck_ret (session_seat s).
Definition ck_session_is_active (id : nat) : ckm bool := let+ s := get_session id in ck_ret (session_is_active (data s)).
Definition ck_session_is_local (id : nat) : ckm bool := let+ s := get_session id in ck_ret (session_is_local (data s)).
Definition ck_session_get_user (id : nat) : ckm Z := let+ s := get_session id in ck_ret (session_user (data s)).
Definition ck_session_get_hostname (id : nat) : ckm (option string) :=
  let+ s := get_session id in ck_ret (session_hostname (data s)).

Definition ck_tracker_find_session (p : string) : ckm (option nat) :=
  let+ lists := get_lists in find_session p lists.2.
