(* ===== verification/SessionClaims.v ===== *)
(** * Seats and sessions are mirrored

    The objects of [hald/ck-tracker.c] are shared and counted.  Whatever signals
    arrive, and whatever ConsoleKit answers, no freed object is read, and what a
    client of the tracker can see is a plain list of seats and of sessions. *)

From Stdlib Require Import ZArith Lia Ascii.
From stdpp Require Import base list gmap strings option pretty fin_maps.
From S2P Require Import Prelude CStd DeviceStore StoreTheory Dbus SessionTracker.

(** ** The abstract tracker *)
Record tracked := mk_tracked { t_seats : list string; t_sessions : list session_data }.

Inductive ck_signal :=
  | SeatAdded (p : string)
  | SeatRemoved (p : string)
  | SessionAdded (seat p : string)
  | SessionRemoved (p : string)
  | ActiveChanged (p : string) (active : bool)
  | NameOwnerChanged (name old new : string).

Definition the_signal (is_signal : bool) (m : DBusMessage) : option ck_signal :=
  let named i n := bool_decide ((i, n) = (default "" (m_interface m), m_member m)) in
  if negb is_signal then None
  else if named "org.freedesktop.ConsoleKit.Manager" "SeatAdded" then SeatAdded <$> get_args_s m
  else if named "org.freedesktop.ConsoleKit.Manager" "SeatRemoved" then SeatRemoved <$> get_args_s m
  else if named "org.freedesktop.ConsoleKit.Seat" "SessionAdded" then SessionAdded (m_path m) <$> get_args_s m
  else if named "org.freedesktop.ConsoleKit.Seat" "SessionRemoved" then SessionRemoved <$> get_args_s m
  else if named "org.freedesktop.ConsoleKit.Session" "ActiveChanged"
  then ActiveChanged (m_path m) <$> get_args_b m
  else if named "org.freedesktop.DBus" "NameOwnerChanged"
  then (fun '(a, b, c) => NameOwnerChanged a b c) <$> get_args_sss m
  else None.

Fixpoint remove_first {A} (f : A -> bool) (l : list A) : list A :=
  match l with [] => [] | x :: rest => if f x then rest else x :: remove_first f rest end.
Fixpoint update_first {A} (f : A -> bool) (g : A -> A) (l : list A) : list A :=
  match l with [] => [] | x :: rest => if f x then g x :: rest else x :: update_first f g rest end.

Definition has_path (p : string) (d : session_data) : bool := session_path d =s? p.

Section Spec.
Context (ck : consolekit).

(** A session is known when ConsoleKit answers all four questions. *)
Definition known (p : string) : option session_data :=
  a ← ck_is_active ck p; l ← ck_is_local ck p; h ← ck_remote_host_name ck p; u ← ck_unix_user ck p;
  Some (mk_session_data p a u l (Some h)).

Fixpoint spec_sessions (paths : list string) (l : list session_data) : list session_data * bool :=
  match paths with
  | [] => (l, true)
  | p :: rest => match known p with Some d => spec_sessions rest (d :: l) | None => (l, false) end
  end.

(** The seat at which ConsoleKit failed is not tracked, and no later one. *)
Fixpoint spec_seats (paths : list string) (a : tracked) : tracked :=
  match paths with
  | [] => a
  | p :: rest =>
      match ck_sessions ck p with
      | None => a
      | Some l =>
          let '(L, ok) := spec_sessions l (t_sessions a) in
          if ok then spec_seats rest (mk_tracked (p :: t_seats a) L) else mk_tracked (t_seats a) L
      end
  end.

Definition spec_signal (s : ck_signal) (a : tracked) : list ck_event * tracked :=
  match s with
  | SeatAdded p => ([seat_added_cb p], mk_tracked (p :: t_seats a) (t_sessions a))
  | SeatRemoved p =>
      if decide (p ∈ t_seats a)
      then ([seat_removed_cb p], mk_tracked (remove_first (fun q => q =s? p) (t_seats a)) (t_sessions a))
      else ([], a)
  | SessionAdded seat p =>
      if decide (seat ∈ t_seats a) then
        match known p with
        | Some d => ([session_added_cb d], mk_tracked (t_seats a) (d :: t_sessions a))
        | None => ([], a)
        end
      else ([], a)
  | SessionRemoved p =>
      match find (has_path p) (t_sessions a) with
      | Some d => ([session_removed_cb d], mk_tracked (t_seats a) (remove_first (has_path p) (t_sessions a)))
      | None => ([], a)
      end
  | ActiveChanged p b =>
      match find (has_path p) (t_sessions a) with
      | Some d => ([session_active_changed_cb (with_active b d)],
                   mk_tracked (t_seats a) (update_first (has_path p) (with_active b) (t_sessions a)))
      | None => ([], a)
      end
  | NameOwnerChanged name old new =>
      if decide (name = "org.freedesktop.ConsoleKit") then
        let '(gone, a) := if decide (new = "") then ([service_disappeared_cb], mk_tracked [] []) else ([], a) in
        let '(back, a) := if decide (old = "")
                          then ([service_appeared_cb], match ck_seats ck with Some l => spec_seats l a | None => a end)
                          else ([], a) in
        (gone ++ back, a)
      else ([], a)
  end.
End Spec.

(** A history: each message with the answers ConsoleKit gives meanwhile. *)
Fixpoint spec_run (h : list (consolekit * bool * DBusMessage)) (a : tracked) : list ck_event * tracked :=
  match h with
  | [] => ([], a)
  | (ck, sig, m) :: rest =>
      let '(e, a) := match the_signal sig m with Some s => spec_signal ck s a | None => ([], a) end in
      let '(es, a) := spec_run rest a in (e ++ es, a)
  end.

Fixpoint ck_run (h : list (consolekit * bool * DBusMessage)) : ckm (list ck_event) :=
  match h with
  | [] => ck_ret []
  | (ck, sig, m) :: rest =>
      let+ e := ck_tracker_process_system_bus_message ck sig m in
      let+ es := ck_run rest in
      ck_ret (e ++ es)
  end.

(** What can be seen of a tracker. *)
Definition view (k : CKTracker) : tracked :=
  mk_tracked (omap (fun i => seat_objpath <$> seat_heap k !! i) (seats k))
             (omap (fun i => data <$> session_heap k !! i) (sessions k)).

(** ** The invariant

    Objects that are lost: the seats, and the sessions, about which ConsoleKit
    gave no answer; they were never listed and are never released. *)
Notation lost_objects := (gset nat * gset nat)%type.
Definition lost_count (O : lost_objects) : nat := (size O.1 + size O.2)%nat.
Definition lose_seat (i : nat) (O : lost_objects) : lost_objects := ({[i]} ∪ O.1, O.2).
Definition lose_session (j : nat) (O : lost_objects) : lost_objects := (O.1, {[j]} ∪ O.2).

(** One count for the list of the tracker, one for the seat, and one for the
    variable that was the last to know a lost session. *)
Definition owed (O : lost_objects) (L : list nat) (j : nat) (s : CKSession) : Z :=
  (if decide (j ∈ L) then 1 else 0) + (if decide (session_seat s = None) then 0 else 1) +
  (if decide (j ∈ O.2) then 1 else 0).

(** Over the lists of the tracker and the two heaps.  What is alive is in a
    list, or lost, and its count says in how many places it is. *)
Record counted (O : lost_objects) (T L : list nat) (H : gmap nat CKSeat) (S : gmap nat CKSession) (n : nat) : Prop := mk_counted {
  cnt_seats : NoDup T;
  cnt_sessions : NoDup L;
  cnt_seats_alive i : i ∈ T -> is_Some (H !! i);
  cnt_sessions_alive j : j ∈ L -> is_Some (S !! j);
  cnt_seat i t : H !! i = Some t -> seat_refcount t = 1 /\ (i < n)%nat /\ NoDup (seat_sessions t) /\ (i ∈ T \/ i ∈ O.1);
  cnt_session j s : S !! j = Some s -> (j < n)%nat /\ session_refcount s = owed O L j s /\ 0 < session_refcount s;
  cnt_attached i t j : H !! i = Some t -> j ∈ seat_sessions t <-> exists s, S !! j = Some s /\ session_seat s = Some i;
  cnt_seat_of j s i : S !! j = Some s -> session_seat s = Some i -> is_Some (H !! i);
  cnt_lost_seats i : i ∈ O.1 -> i ∉ T /\ is_Some (H !! i);
  cnt_lost_sessions j : j ∈ O.2 -> j ∉ L /\ exists s, S !! j = Some s /\ session_seat s = None;
}.
Definition ck_counts (O : lost_objects) (k : CKTracker) : Prop :=
  counted O (seats k) (sessions k) (seat_heap k) (session_heap k) (next_object k).
Definition ck_inv (k : CKTracker) : Prop := exists O, ck_counts O k.

(** ** Runs of the operations *)
Definition set_sessions (h : gmap nat CKSession) (k : CKTracker) : CKTracker :=
  mk_tracker (seat_heap k) h (seats k) (sessions k) (next_object k) (tracker_refcount k).
Definition set_seats (h : gmap nat CKSeat) (k : CKTracker) : CKTracker :=
  mk_tracker h (session_heap k) (seats k) (sessions k) (next_object k) (tracker_refcount k).

Definition released (s : CKSession) : option CKSession :=
  if session_refcount s =? 1 then None
  else Some (mk_session (session_refcount s - 1) (session_seat s) (data s)).
Definition without_seat (s : CKSession) : CKSession := mk_session (session_refcount s) None (data s).

(** [h'] is [h] with every session of [l] released. *)
Definition all_released (f : CKSession -> option CKSession) (l : list nat) (h h' : gmap nat CKSession) : Prop :=
  forall j, h' !! j = if decide (j ∈ l) then h !! j ≫= f else h !! j.

Lemma ck_bind_run {A B} (m : ckm A) (f : A -> ckm B) k a k' : m k = Some (a, k') -> ck_bind m f k = f a k'.
Proof. unfold ck_bind. by intros ->. Qed.

Lemma ck_then_run {B} (a b c : ckm unit) (d : ckm B) k k' :
  (a >>; b >>; c)%hal k = Some (tt, k') -> (a >>; b >>; c >>; d)%hal k = d k'.
Proof.
  unfold ck_bind. destruct (a k) as [[? k1]|]; [|done]. destruct (b k1) as [[? k2]|]; [|done]. by intros ->.
Qed.

Lemma set_sessions_twice h h' k : set_sessions h (set_sessions h' k) = set_sessions h k.
Proof. done. Qed.

Lemma unref_run j s k :
  session_heap k !! j = Some s ->
  ck_session_unref j k = Some (tt, set_sessions (partial_alter (fun o => o ≫= released) j (session_heap k)) k).
Proof.
  intros E. unfold ck_session_unref, ck_bind, get_session, put_session, free_session, ck_ret. rewrite E.
  destruct (session_refcount s - 1 =? 0) eqn:R; do 2 f_equal; unfold set_sessions; simpl; f_equal; apply map_eq;
    intros i; destruct (decide (i = j)) as [->|Hi];
    rewrite ?lookup_partial_alter, ?lookup_partial_alter_ne, ?lookup_delete, ?lookup_delete_ne, ?lookup_insert,
      ?lookup_insert_ne by done; rewrite ?E; simpl; unfold released; repeat case_decide; try done.
  - replace (session_refcount s =? 1) with true by lia. done.
  - replace (session_refcount s =? 1) with false by lia. done.
Qed.

Lemma detach_run j s k :
  session_heap k !! j = Some s ->
  ck_bind (set_session_seat j None) (fun _ => ck_session_unref j) k =
  Some (tt, set_sessions (partial_alter (fun o => o ≫= (fun s => released (without_seat s))) j (session_heap k)) k).
Proof.
  intros E. erewrite ck_bind_run; [|unfold set_session_seat, ck_bind, get_session, put_session; by rewrite E].
  erewrite unref_run; simpl; [|apply lookup_insert_eq]. do 2 f_equal. unfold set_sessions. simpl. f_equal.
  apply map_eq. intros i. destruct (decide (i = j)) as [->|Hi].
  - rewrite !lookup_partial_alter_eq, lookup_insert_eq, E. done.
  - by rewrite !lookup_partial_alter_ne, lookup_insert_ne by done.
Qed.

Lemma all_released_cons f j l h h' :
  j ∉ l -> all_released f l (partial_alter (fun o => o ≫= f) j h) h' -> all_released f (j :: l) h h'.
Proof.
  intros Hj R i. rewrite R. destruct (decide (i = j)) as [->|Hi].
  - rewrite decide_False, decide_True by set_solver. by rewrite lookup_partial_alter_eq.
  - rewrite lookup_partial_alter_ne by done. destruct (decide (i ∈ l)), (decide (i ∈ j :: l)); try done; set_solver.
Qed.

Lemma unref_sessions_run l k :
  NoDup l -> (forall j, j ∈ l -> is_Some (session_heap k !! j)) ->
  exists h, unref_sessions l k = Some (tt, set_sessions h k) /\ all_released released l (session_heap k) h.
Proof.
  intros N. revert k. induction N as [|j l Hj N IH]; intros k A.
  - exists (session_heap k). split; [by destruct k|]. intros j. by rewrite decide_False by apply not_elem_of_nil.
  - destruct (A j) as [s E]; [set_solver|]. simpl. erewrite ck_bind_run by (by eapply unref_run).
    destruct (IH (set_sessions (partial_alter (fun o => o ≫= released) j (session_heap k)) k)) as (h & R & D).
    + intros i Hi. simpl. rewrite lookup_partial_alter_ne by set_solver. apply A. set_solver.
    + exists h. split; [done|]. by apply all_released_cons.
Qed.

Lemma detach_each_run l k :
  NoDup l -> (forall j, j ∈ l -> is_Some (session_heap k !! j)) ->
  exists h, detach_each l k = Some (tt, set_sessions h k) /\
    all_released (fun s => released (without_seat s)) l (session_heap k) h.
Proof.
  intros N. revert k. induction N as [|j l Hj N IH]; intros k A.
  - exists (session_heap k). split; [by destruct k|]. intros j. by rewrite decide_False by apply not_elem_of_nil.
  - destruct (A j) as [s E]; [set_solver|]. pose proof (detach_run _ _ _ E) as R. simpl.
    set (h1 := partial_alter _ j _) in R.
    destruct (IH (set_sessions h1 k)) as (h & Rh & D).
    + intros i Hi. unfold h1. simpl. rewrite lookup_partial_alter_ne by set_solver. apply A. set_solver.
    + exists h. split; [|by apply all_released_cons]. change (set_sessions h k) with (set_sessions h (set_sessions h1 k)). rewrite <- Rh.
      revert R. unfold ck_bind.
      destruct (set_session_seat j None k) as [[a k1]|]; [|done]. intros ->. done.
Qed.

(** Sessions that [l] loses one count of keep their data when the list [L] has
    them. *)
Lemma detached_lookup O L (H : gmap nat CKSeat) S n T i t h j s' :
  counted O T L H S n -> H !! i = Some t ->
  all_released (fun s => released (without_seat s)) (seat_sessions t) S h ->
  h !! j = Some s' ->
  exists s, S !! j = Some s /\ data s' = data s /\ session_refcount s' = owed O L j s' /\ 0 < session_refcount s' /\
    (session_seat s = Some i /\ session_seat s' = None \/ session_seat s <> Some i /\ s' = s).
Proof.
  intros C Ht R E. rewrite R in E. case_decide as Hj.
  - apply (cnt_attached _ _ _ _ _ _ C _ _ _ Ht) in Hj as (s & Es & Eseat). rewrite Es in E. simpl in E.
    exists s. unfold released in E. simpl in E. pose proof (cnt_session _ _ _ _ _ _ C _ _ Es) as (_ & Rs & Ps).
    destruct (session_refcount s =? 1) eqn:R1; simplify_eq/=. split_and!; [done|done| |lia|by left].
    revert Rs. unfold owed. rewrite Eseat. simpl. repeat case_decide; lia || done.
  - exists s'. pose proof (cnt_session _ _ _ _ _ _ C _ _ E) as (_ & Rs & Ps). split_and!; try done. right.
    split; [|done]. intros Es. apply Hj. apply (cnt_attached _ _ _ _ _ _ C _ _ _ Ht). by exists s'.
Qed.

Lemma detached_alive O L (H : gmap nat CKSeat) S n T i t h j s :
  counted O T L H S n -> H !! i = Some t ->
  all_released (fun s => released (without_seat s)) (seat_sessions t) S h ->
  S !! j = Some s -> j ∈ L \/ session_seat s <> Some i -> exists s', h !! j = Some s' /\ data s' = data s.
Proof.
  intros C Ht R E K. rewrite R. case_decide as Hj; [|by exists s].
  apply (cnt_attached _ _ _ _ _ _ C _ _ _ Ht) in Hj as (s1 & Es & Eseat). simplify_eq. rewrite E. simpl.
  destruct K as [K|]; [|done]. pose proof (cnt_session _ _ _ _ _ _ C _ _ E) as (_ & Rs & _).
  unfold released. simpl. unfold owed in Rs. rewrite decide_True, Eseat in Rs by done. simpl in Rs.
  replace (session_refcount s =? 1) with false by (repeat case_decide; lia). by eexists.
Qed.

Lemma seat_dropped O T L H S n i t h :
  counted O T L H S n -> H !! i = Some t -> i ∈ T ->
  all_released (fun s => released (without_seat s)) (seat_sessions t) S h ->
  counted O (slist_remove i T) L (delete i H) h n.
Proof.
  intros C Ht Hin R. pose proof C as [C1 C2 C3 C4 C5 C6 C7 C8 C9 C10].
  assert (K : forall j s, S !! j = Some s -> j ∈ L \/ session_seat s <> Some i -> exists s', h !! j = Some s' /\ data s' = data s)
    by (intros; eapply detached_alive; eauto).
  assert (M : forall j s', h !! j = Some s' -> exists s, S !! j = Some s /\ data s' = data s /\
    session_refcount s' = owed O L j s' /\ 0 < session_refcount s' /\
    (session_seat s = Some i /\ session_seat s' = None \/ session_seat s <> Some i /\ s' = s))
    by (intros; eapply detached_lookup; eauto).
  split.
  - by apply slist_remove_nodup.
  - done.
  - intros a [Ha Hi]%slist_remove_elem; [|done]. rewrite lookup_delete_ne by done. by apply C3.
  - intros j Hj. destruct (C4 j Hj) as [s E]. destruct (K j s E) as (s' & -> & _); [by left | by eexists].
  - intros a u [Ha Hu]%lookup_delete_Some. destruct (C5 _ _ Hu) as (? & ? & ? & [?|?]); split_and!; try done;
      [left; rewrite slist_remove_elem by done; done | by right].
  - intros j s' E. destruct (M j s' E) as (s & Es & _ & Rs & Ps & _). split_and!; [by apply (C6 _ _ Es) | done..].
  - intros a u j [Ha Hu]%lookup_delete_Some. rewrite (C7 _ _ _ Hu). split.
    + intros (s & E & Es). destruct (K j s E) as (s' & E' & _); [right; congruence|].
      exists s'. split; [done|]. destruct (M j s' E') as (s1 & E1 & _ & _ & _ & X).
      simplify_eq. destruct X as [[K1 K2]|[K1 ->]]; congruence.
    + intros (s' & E' & Es'). destruct (M j s' E') as (s1 & E1 & _ & _ & _ & X).
      exists s1. destruct X as [[K1 K2]|[K1 ->]]; [congruence|done].
  - intros j s' a E' Es'. destruct (M j s' E') as (s1 & E1 & _ & _ & _ & X).
    destruct X as [[K1 K2]|[K1 ->]]; [congruence|]. rewrite lookup_delete_ne by congruence. by eapply C8.
  - intros a Ha. destruct (C9 a Ha) as [Hn Hs]. rewrite lookup_delete_ne by congruence.
    split; [|done]. rewrite slist_remove_elem by done. tauto.
  - intros j Hj. destruct (C10 j Hj) as (Hn & s & E & Es). split; [done|].
    destruct (K j s E) as (s' & E' & _); [right; congruence|]. exists s'. split; [done|].
    destruct (M j s' E') as (s1 & E1 & _ & _ & _ & [[_ X]|[_ ->]]); [done | congruence].
Qed.

Lemma seat_unref_run O T L i k :
  counted O T L (seat_heap k) (session_heap k) (next_object k) -> i ∈ T ->
  exists h, ck_seat_unref i k = Some (tt, set_seats (delete i (seat_heap k)) (set_sessions h k)) /\
    counted O (slist_remove i T) L (delete i (seat_heap k)) h (next_object k) /\
    (forall j, j ∈ L -> data <$> h !! j = data <$> session_heap k !! j).
Proof.
  intros C Hi. destruct (cnt_seats_alive _ _ _ _ _ _ C i Hi) as [t Ht].
  destruct (cnt_seat _ _ _ _ _ _ C i t Ht) as (R1 & _ & N & _).
  destruct (detach_each_run (seat_sessions t) (set_seats (<[i := mk_seat 0 (seat_objpath t) (seat_sessions t)]> (seat_heap k)) k))
    as (h & R & D); [done| |].
  - intros j Hj. simpl. apply (cnt_attached _ _ _ _ _ _ C _ _ _ Ht) in Hj as (s & E & _). by eexists.
  - exists h. split_and!.
    + unfold ck_seat_unref, ck_bind, get_seat. rewrite Ht, R1. simpl. unfold set_seats in R. simpl in R. change (1 - 1) with 0. rewrite R.
      unfold free_seat, set_seats, set_sessions. simpl. do 3 f_equal. apply delete_insert_eq.
    + by eapply seat_dropped.
    + intros j Hj. destruct (cnt_sessions_alive _ _ _ _ _ _ C j Hj) as [s E].
      destruct (detached_alive _ _ _ _ _ _ _ _ _ _ _ C Ht D E) as (s' & -> & Ed); [by left|].
      rewrite E. simpl. by rewrite Ed.
Qed.

Lemma released_owed O T L H S n h j s' :
  counted O T L H S n -> all_released released L S h -> h !! j = Some s' ->
  exists s, S !! j = Some s /\ session_seat s' = session_seat s /\ session_refcount s' = owed O [] j s' /\
    0 < session_refcount s'.
Proof.
  intros C R E. rewrite R in E. case_decide as Hj.
  - destruct (S !! j) as [s|] eqn:Es; [|done]. simpl in E. exists s. unfold released in E.
    destruct (cnt_session _ _ _ _ _ _ C _ _ Es) as (_ & Rs & Ps).
    destruct (session_refcount s =? 1) eqn:R1; simplify_eq/=. split_and!; try done; [|lia].
    unfold owed in Rs |- *. rewrite decide_True in Rs by done. cbn [session_seat].
    rewrite (decide_False (P := j ∈ [])) by apply not_elem_of_nil. cbn [session_seat] in Rs. lia.
  - exists s'. destruct (cnt_session _ _ _ _ _ _ C _ _ E) as (_ & Rs & Ps). split_and!; try done.
    unfold owed in Rs |- *. rewrite decide_False in Rs by done. by rewrite (decide_False (P := j ∈ [])) by apply not_elem_of_nil.
Qed.

Lemma released_alive O T L H S n h j s i :
  counted O T L H S n -> all_released released L S h -> S !! j = Some s -> session_seat s = Some i ->
  exists s', h !! j = Some s' /\ session_seat s' = Some i.
Proof.
  intros C R E Es. rewrite R. case_decide as Hj; [|by exists s]. rewrite E. simpl. unfold released.
  destruct (cnt_session _ _ _ _ _ _ C _ _ E) as (_ & Rs & _). unfold owed in Rs.
  rewrite decide_True, Es in Rs by done. simpl in Rs.
  replace (session_refcount s =? 1) with false by (repeat case_decide; lia). by eexists.
Qed.

Lemma sessions_dropped O T L H S n h :
  counted O T L H S n -> all_released released L S h -> counted O T [] H h n.
Proof.
  intros C R. pose proof C as [C1 C2 C3 C4 C5 C6 C7 C8 C9 C10].
  assert (M : forall j s', h !! j = Some s' -> exists s, S !! j = Some s /\ session_seat s' = session_seat s /\
    session_refcount s' = owed O [] j s' /\ 0 < session_refcount s') by (intros; eapply released_owed; eauto).
  split; try done.
  - constructor.
  - set_solver.
  - intros j s' E. destruct (M j s' E) as (s & Es & _ & Rs). split; [by apply (C6 _ _ Es) | done].
  - intros i t j Ht. rewrite (C7 _ _ _ Ht). split.
    + intros (s & E & Es). by apply (released_alive _ _ _ _ _ _ _ _ _ _ C R E).
    + intros (s' & E & Es). destruct (M j s' E) as (s & E' & Eq & _). exists s. by rewrite <- Eq.
  - intros j s' i E Es'. destruct (M j s' E) as (s & E' & Eq & _). apply (C8 j s i); congruence.
  - intros j Hj. destruct (C10 j Hj) as (Hn & s & E & Es). split; [apply not_elem_of_nil|]. exists s.
    split; [|done]. rewrite R. by rewrite decide_False.
Qed.

Lemma unref_seats_run O T k :
  counted O T [] (seat_heap k) (session_heap k) (next_object k) ->
  exists H h, unref_seats T k = Some (tt, set_seats H (set_sessions h k)) /\ counted O [] [] H h (next_object k).
Proof.
  revert k. induction T as [|i T IH]; intros k C; simpl.
  - exists (seat_heap k), (session_heap k). split; [by destruct k | done].
  - destruct (seat_unref_run _ _ _ i k C) as (h & R & C' & _); [set_solver|].
    erewrite ck_bind_run by exact R. simpl in C'. rewrite decide_True in C' by done.
    destruct (IH (set_seats (delete i (seat_heap k)) (set_sessions h k))) as (H' & h' & R' & D); [done|].
    exists H', h'. by rewrite R'.
Qed.

Lemma remove_all_run O k :
  ck_counts O k -> exists k', ck_tracker_remove_all_seats_and_sessions k = Some (tt, k') /\ ck_counts O k' /\
    view k' = mk_tracked [] [].
Proof.
  intros C. destruct (unref_sessions_run (sessions k) k) as (h & R & D); [apply C | apply C |].
  pose proof (sessions_dropped _ _ _ _ _ _ _ C D) as C'.
  destruct (unref_seats_run O (seats k)
    (mk_tracker (seat_heap k) h (seats k) [] (next_object k) (tracker_refcount k))) as (H' & h' & R' & C''); [done|].
  exists (mk_tracker H' h' [] [] (next_object k) (tracker_refcount k)). split_and!; [|done|done].
  unfold ck_tracker_remove_all_seats_and_sessions, ck_bind, get_lists. simpl. rewrite R. simpl. by rewrite R'.
Qed.

(** ** New objects *)
Definition keeps_paths (k k' : CKTracker) : Prop :=
  seats k' = seats k /\ forall a, seat_objpath <$> seat_heap k' !! a = seat_objpath <$> seat_heap k !! a.

Section New.
Context (ck : consolekit).

Lemma asked_known p d :
  session_path d = p -> session_hostname d = None ->
  session_path (asked_data ck p d).1 = p /\
  match known ck p with
  | Some d' => asked_data ck p d = (d', true)
  | None => (asked_data ck p d).2 = false
  end.
Proof.
  intros <- N. unfold asked_data, known.
  destruct (ck_is_active ck _); simpl; [|done]. destruct (ck_is_local ck _); simpl; [|done].
  destruct (ck_remote_host_name ck _); simpl; [|done]. by destruct (ck_unix_user ck _).
Qed.

Lemma fresh_object O k : ck_counts O k ->
  seat_heap k !! next_object k = None /\ session_heap k !! next_object k = None /\
  next_object k ∉ sessions k /\ next_object k ∉ seats k /\ next_object k ∉ O.1 /\ next_object k ∉ O.2.
Proof.
  intros C. assert (A : seat_heap k !! next_object k = None).
  { destruct (seat_heap k !! _) as [t|] eqn:E; [|done]. apply C in E. lia. }
  assert (B : session_heap k !! next_object k = None).
  { destruct (session_heap k !! _) as [t|] eqn:E; [|done]. apply C in E. lia. }
  split_and!; try done; intros Hin.
  - apply (cnt_sessions_alive _ _ _ _ _ _ C) in Hin as [? ?]. congruence.
  - apply (cnt_seats_alive _ _ _ _ _ _ C) in Hin as [? ?]. congruence.
  - apply (cnt_lost_seats _ _ _ _ _ _ C) in Hin as [_ [? ?]]. congruence.
  - apply (cnt_lost_sessions _ _ _ _ _ _ C) in Hin as (_ & ? & ? & _). congruence.
Qed.

(** The object of a session that could not be asked about stays in the heap. *)
Definition with_orphan (s : session_data) (k : CKTracker) : CKTracker :=
  mk_tracker (seat_heap k) (<[next_object k := mk_session 1 None s]> (session_heap k)) (seats k) (sessions k)
    (S (next_object k)) (tracker_refcount k).
Definition with_session (i : nat) (t : CKSeat) (s : session_data) (k : CKTracker) : CKTracker :=
  mk_tracker (<[i := mk_seat (seat_refcount t) (seat_objpath t) (seat_sessions t ++ [next_object k])]> (seat_heap k))
    (<[next_object k := mk_session 2 (Some i) s]> (session_heap k)) (seats k) (next_object k :: sessions k)
    (S (next_object k)) (tracker_refcount k).

Lemma add_session_run i t p k :
  seat_heap k !! i = Some t ->
  match known ck p with
  | Some d => add_session ck i p k = Some (Some (next_object k), with_session i t d k)
  | None => exists d, add_session ck i p k = Some (None, with_orphan d k)
  end.
Proof.
  intros Ht. destruct (asked_known p (mk_session_data p false 0 false None)) as [_ A]; [done..|].
  unfold add_session, ck_session_new, ck_session_get_info, ck_bind, allocate, put_session, get_session, ck_ret. simpl.
  rewrite lookup_insert_eq. simpl.
  destruct (known ck p) as [d|]; [rewrite A | destruct (asked_data ck p _) as [d ok]; simpl in A; subst; exists d].
  - unfold ck_seat_attach_session, ck_session_ref, set_session_seat, ck_bind, get_session, put_session, get_seat, put_seat.
    do 3 (simpl; rewrite ?lookup_insert_eq). simpl. rewrite Ht. simpl. by rewrite !insert_insert_eq.
  - simpl. by rewrite insert_insert_eq.
Qed.

Lemma orphan_inv O d k : ck_counts O k -> ck_counts (lose_session (next_object k) O) (with_orphan d k).
Proof.
  intros C. destruct (fresh_object O k C) as (F1 & F2 & F3 & F4 & F5 & F6). destruct C as [C1 C2 C3 C4 C5 C6 C7 C8 C9 C10].
  unfold ck_counts, with_orphan. simpl. split; try done; simpl.
  - intros j Hj. rewrite lookup_insert_ne by set_solver. by apply C4.
  - intros a u Hu. destruct (C5 _ _ Hu) as (? & ? & ? & ?). split_and!; [done|lia|done|done].
  - intros j s E. destruct (decide (j = next_object k)) as [->|Hj].
    + rewrite lookup_insert_eq in E. simplify_eq/=. split; [lia|]. unfold owed. cbn [session_seat lose_session snd].
      rewrite decide_False, (decide_True (P := None = None)), (decide_True (P := _ ∈ {[_]} ∪ _)) by set_solver. done.
    + rewrite lookup_insert_ne in E by done. destruct (C6 _ _ E) as (? & Rs & ?). split_and!; [lia| |done].
      rewrite Rs. unfold owed. cbn [lose_session snd]. f_equal. apply decide_ext. set_solver.
  - intros a u j Hu. rewrite (C7 _ _ _ Hu). split; intros (s & E & Es); exists s; split; try done.
    + rewrite lookup_insert_ne; [done|congruence].
    + destruct (decide (j = next_object k)) as [->|Hj]; [|by rewrite lookup_insert_ne in E].
      rewrite lookup_insert_eq in E. by simplify_eq.
  - intros j s a E Es. apply (C8 j s a); [|done]. destruct (decide (j = next_object k)) as [->|Hj].
    + rewrite lookup_insert_eq in E. by simplify_eq.
    + by rewrite lookup_insert_ne in E.
  - intros j [->%elem_of_singleton|Hj]%elem_of_union.
    + split; [done|]. rewrite lookup_insert_eq. by eexists.
    + destruct (C10 j Hj) as (Hn & s & E & Es). split; [done|]. exists s. rewrite lookup_insert_ne by congruence. done.
Qed.

Lemma session_inv O i t d k : ck_counts O k -> seat_heap k !! i = Some t -> ck_counts O (with_session i t d k).
Proof.
  intros C Ht. destruct (fresh_object O k C) as (F1 & F2 & F3 & F4 & F5 & F6). destruct C as [C1 C2 C3 C4 C5 C6 C7 C8 C9 C10].
  assert (Hfresh : next_object k ∉ seat_sessions t).
  { rewrite (C7 _ _ _ Ht). intros (s & E & _). congruence. }
  assert (A : forall a, is_Some (seat_heap k !! a) -> is_Some (seat_heap (with_session i t d k) !! a)).
  { intros a Ha. simpl. rewrite lookup_insert_is_Some. destruct (decide (i = a)); [by left | by right]. }
  unfold ck_counts. split.
  - done.
  - by apply NoDup_cons.
  - intros a Ha. by apply A, C3.
  - intros j Hj. simpl in *. destruct (decide (j = next_object k)) as [->|Hn]; [rewrite lookup_insert_eq; by eexists|].
    rewrite lookup_insert_ne by done. apply C4. set_solver.
  - simpl. intros a u Hu. destruct (decide (a = i)) as [->|Hi].
    + rewrite lookup_insert_eq in Hu. simplify_eq/=. destruct (C5 _ _ Ht) as (? & ? & ? & ?). split_and!; [done|lia| |done].
      apply NoDup_app. split_and!; [done| |apply NoDup_singleton]. set_solver.
    + rewrite lookup_insert_ne in Hu by done. destruct (C5 _ _ Hu) as (? & ? & ? & ?). split_and!; [done|lia|done|done].
  - simpl. intros j s E. destruct (decide (j = next_object k)) as [->|Hj].
    + rewrite lookup_insert_eq in E. simplify_eq/=. split; [lia|]. unfold owed. cbn [session_seat].
      rewrite decide_True, (decide_False (P := Some i = None)), (decide_False (P := _ ∈ O.2)) by set_solver. done.
    + rewrite lookup_insert_ne in E by done. destruct (C6 _ _ E) as (? & Rs & ?). split_and!; [lia| |done].
      rewrite Rs. unfold owed. do 2 f_equal. apply decide_ext. set_solver.
  - simpl. intros a u j Hu. destruct (decide (j = next_object k)) as [->|Hj].
    + rewrite lookup_insert_eq. destruct (decide (a = i)) as [->|Hi].
      * rewrite lookup_insert_eq in Hu. simplify_eq/=. split; [intros _; by eexists | set_solver].
      * rewrite lookup_insert_ne in Hu by done. rewrite (C7 _ _ _ Hu).
        split; intros (s & E & Es); [congruence|]. simplify_eq/=.
    + rewrite lookup_insert_ne by done. destruct (decide (a = i)) as [->|Hi].
      * rewrite lookup_insert_eq in Hu. simplify_eq/=. rewrite <- (C7 _ _ _ Ht). set_solver.
      * rewrite lookup_insert_ne in Hu by done. by rewrite (C7 _ _ _ Hu).
  - intros j s a E Es. apply A. simpl in E. destruct (decide (j = next_object k)) as [->|Hj].
    + rewrite lookup_insert_eq in E. simplify_eq/=. by eexists.
    + rewrite lookup_insert_ne in E by done. by eapply C8.
  - intros a Ha. destruct (C9 a Ha) as [? ?]. split; [done | by apply A].
  - intros j Hj. destruct (C10 j Hj) as (Hn & s & E & Es). assert (j <> next_object k) by congruence. split; [set_solver|].
    exists s. simpl. by rewrite lookup_insert_ne.
Qed.
End New.

(** ** What can be seen *)
Lemma omap_agree {A B} (f g : A -> option B) (l : list A) : (forall x, x ∈ l -> f x = g x) -> omap f l = omap g l.
Proof.
  induction l as [|x l IH]; intros Hfg; [done|]. csimpl. rewrite Hfg, IH by set_solver. done.
Qed.

Definition seat_names (H : gmap nat CKSeat) (T : list nat) : list string := omap (fun i => seat_objpath <$> H !! i) T.
Definition session_datas (S : gmap nat CKSession) (L : list nat) : list session_data := omap (fun j => data <$> S !! j) L.

Lemma view_split k : view k = mk_tracked (seat_names (seat_heap k) (seats k)) (session_datas (session_heap k) (sessions k)).
Proof. done. Qed.

Lemma seat_names_insert H T i t : (i ∈ T -> seat_objpath <$> H !! i = Some (seat_objpath t)) ->
  seat_names (<[i := t]> H) T = seat_names H T.
Proof.
  intros E. apply omap_agree. intros a Ha. destruct (decide (a = i)) as [->|Hi].
  - by rewrite lookup_insert_eq, E.
  - by rewrite lookup_insert_ne.
Qed.

Lemma session_datas_insert S L j s : j ∉ L -> session_datas (<[j := s]> S) L = session_datas S L.
Proof. intros Hj. apply omap_agree. intros a Ha. rewrite lookup_insert_ne; [done|set_solver]. Qed.

Lemma view_orphan O d k : ck_counts O k -> view (with_orphan d k) = view k.
Proof.
  intros C. destruct (fresh_object O k C) as (_ & _ & F & _). rewrite !view_split. csimpl.
  by rewrite session_datas_insert.
Qed.

Lemma view_session O i t d k : ck_counts O k -> seat_heap k !! i = Some t ->
  view (with_session i t d k) = mk_tracked (t_seats (view k)) (d :: t_sessions (view k)).
Proof.
  intros C Ht. destruct (fresh_object O k C) as (_ & _ & F & _). rewrite !view_split. csimpl. f_equal.
  - apply seat_names_insert. by rewrite Ht.
  - unfold session_datas at 1. csimpl. rewrite lookup_insert_eq. csimpl. f_equal. by apply session_datas_insert.
Qed.

Lemma find_seat_run p l k :
  NoDup l -> (forall i, i ∈ l -> is_Some (seat_heap k !! i)) ->
  exists r, find_seat p l k = Some (r, k) /\
    match r with
    | None => p ∉ seat_names (seat_heap k) l
    | Some i => i ∈ l /\ p ∈ seat_names (seat_heap k) l /\
        seat_names (seat_heap k) (slist_remove i l) = remove_first (fun q => q =s? p) (seat_names (seat_heap k) l)
    end.
Proof.
  induction 1 as [|i l Hi _ IH]; intros A; csimpl.
  - exists None. split; [done|]. set_solver.
  - destruct (A i) as [t Ht]; [set_solver|]. unfold ck_bind, get_seat. rewrite Ht.
    unfold seat_names. csimpl. rewrite ?Ht. csimpl. case_bool_decide as E.
    + exists (Some i). split; [done|]. rewrite decide_True by done. set_solver.
    + destruct IH as (r & R & D); [set_solver|]. exists r. split; [done|]. destruct r as [a|]; [|set_solver].
      destruct D as (D1 & D2 & D3). split_and!; [set_solver|set_solver|]. rewrite decide_False by set_solver.
      csimpl. rewrite Ht. csimpl. by f_equal.
Qed.

Lemma find_session_run p l k :
  NoDup l -> (forall j, j ∈ l -> is_Some (session_heap k !! j)) ->
  exists r, find_session p l k = Some (r, k) /\
    match r with
    | None => find (has_path p) (session_datas (session_heap k) l) = None
    | Some j => exists s, session_heap k !! j = Some s /\ j ∈ l /\
        find (has_path p) (session_datas (session_heap k) l) = Some (data s) /\
        session_datas (session_heap k) (slist_remove j l) =
          remove_first (has_path p) (session_datas (session_heap k) l) /\
        forall s' g, data s' = g (data s) ->
          session_datas (<[j := s']> (session_heap k)) l =
          update_first (has_path p) g (session_datas (session_heap k) l)
    end.
Proof.
  induction 1 as [|j l Hj _ IH]; intros A; csimpl.
  - by exists None.
  - destruct (A j) as [s Es]; [set_solver|]. unfold ck_bind, get_session. rewrite Es.
    unfold session_datas. csimpl. rewrite ?Es. csimpl. change (session_path (data s) =s? p) with (has_path p (data s)).
    destruct (has_path p (data s)) eqn:E.
    + exists (Some j). split; [done|]. exists s. rewrite decide_True by done. split_and!; [done|set_solver|done|done|].
      intros s' g Eg. rewrite lookup_insert_eq. csimpl. rewrite Eg. f_equal. by apply session_datas_insert.
    + destruct IH as (r & R & D); [set_solver|]. exists r. split; [done|]. destruct r as [a|]; [|done].
      destruct D as (s1 & D0 & D1 & D2 & D3 & D4). exists s1. rewrite decide_False by set_solver.
      split_and!; [done|set_solver|done|csimpl; rewrite Es; csimpl; by f_equal|].
      intros s' g Eg. rewrite lookup_insert_ne by set_solver. rewrite Es. csimpl. f_equal. by apply D4.
Qed.

(** ** A session that goes *)
Definition forget_in (j : nat) (t : CKSeat) : CKSeat :=
  mk_seat (seat_refcount t) (seat_objpath t) (slist_remove j (seat_sessions t)).
Definition seats_without (j : nat) (s : CKSession) (H : gmap nat CKSeat) : gmap nat CKSeat :=
  match session_seat s with None => H | Some i => alter (forget_in j) i H end.

Lemma seats_without_lookup j s H i t' : seats_without j s H !! i = Some t' ->
  exists t, H !! i = Some t /\ seat_refcount t' = seat_refcount t /\ seat_objpath t' = seat_objpath t /\
    seat_sessions t' = if decide (session_seat s = Some i) then slist_remove j (seat_sessions t) else seat_sessions t.
Proof.
  unfold seats_without. destruct (session_seat s) as [a|]; intros E.
  - destruct (decide (a = i)) as [->|Hi].
    + rewrite lookup_alter_eq in E. destruct (H !! i) as [t|]; simplify_eq/=. exists t. by rewrite decide_True.
    + rewrite lookup_alter_ne in E by done. exists t'. rewrite decide_False by congruence. done.
  - by exists t'.
Qed.

Lemma seats_without_alive j s H i : is_Some (H !! i) -> is_Some (seats_without j s H !! i).
Proof.
  unfold seats_without. destruct (session_seat s) as [a|]; [|done]. rewrite lookup_alter. case_decide; [|done].
  subst. by intros [t ->].
Qed.

Lemma session_gone O T L H S n j s :
  counted O T L H S n -> j ∈ L -> S !! j = Some s ->
  counted O T (slist_remove j L) (seats_without j s H) (delete j S) n.
Proof.
  intros [C1 C2 C3 C4 C5 C6 C7 C8 C9 C10] Hj Es. split.
  - done.
  - by apply slist_remove_nodup.
  - intros i Hi. by apply seats_without_alive, C3.
  - intros a [Ha Hn]%slist_remove_elem; [|done]. rewrite lookup_delete_ne by done. by apply C4.
  - intros i t' (t & Ht & -> & _ & El)%seats_without_lookup. destruct (C5 _ _ Ht) as (? & ? & N & ?).
    split_and!; [done|done| |done]. rewrite El. case_decide; [by apply slist_remove_nodup | done].
  - intros a u [Ha Hu]%lookup_delete_Some. destruct (C6 _ _ Hu) as (? & -> & ?). split_and!; [done| |lia]. unfold owed.
    do 2 f_equal. apply decide_ext. rewrite slist_remove_elem by done. naive_solver.
  - intros i t' a (t & Ht & _ & _ & ->)%seats_without_lookup. destruct (C5 _ _ Ht) as (_ & _ & N & _).
    destruct (decide (a = j)) as [->|Ha].
    + rewrite lookup_delete_eq. split; [|by intros (? & ? & _)]. case_decide as Ed.
      * intros [_ K]%slist_remove_elem; done.
      * intros (u & Eu & Es')%(C7 _ _ _ Ht). congruence.
    + rewrite lookup_delete_ne by done. rewrite <- (C7 _ _ _ Ht). case_decide; [|done].
      rewrite slist_remove_elem by done. tauto.
  - intros a u i [Ha Hu]%lookup_delete_Some Eu. by eapply seats_without_alive, C8.
  - intros a Ha. destruct (C9 a Ha) as [? ?]. split; [done | by apply seats_without_alive].
  - intros a Ha. destruct (C10 a Ha) as (Hn & u & E & Eu). rewrite slist_remove_elem by done. split; [tauto|].
    exists u. rewrite lookup_delete_ne by congruence. done.
Qed.

Lemma seats_without_names j s H T : seat_names (seats_without j s H) T = seat_names H T.
Proof.
  apply omap_agree. intros i _. unfold seats_without. destruct (session_seat s) as [a|]; [|done].
  rewrite lookup_alter. case_decide; [|done]. subst. by destruct (H !! i).
Qed.

(** The last reference of the tracker, after the one of the seat. *)
Lemma forget_run O j s k :
  ck_counts O k -> j ∈ sessions k -> session_heap k !! j = Some s ->
  ((match session_seat s with
    | None => ck_ret tt
    | Some seat => ck_seat_detach_session seat j
    end) >>; put_sessions (slist_remove j (sessions k)) >>; ck_session_unref j)%hal k =
  Some (tt, mk_tracker (seats_without j s (seat_heap k)) (delete j (session_heap k)) (seats k)
              (slist_remove j (sessions k)) (next_object k) (tracker_refcount k)).
Proof.
  intros C Hj Es. destruct (cnt_session _ _ _ _ _ _ C _ _ Es) as (_ & R & _). unfold owed in R.
  assert (j ∉ O.2) by (intros X; by destruct (cnt_lost_sessions _ _ _ _ _ _ C j X)).
  rewrite decide_True, (decide_False (P := j ∈ O.2)) in R by done. unfold seats_without. destruct (session_seat s) as [i|] eqn:Ei; simpl in R.
  - destruct (cnt_seat_of _ _ _ _ _ _ C _ _ _ Es Ei) as [t Ht].
    unfold ck_seat_detach_session. unfold ck_bind at 1. unfold ck_bind at 1. unfold get_seat. rewrite Ht.
    unfold put_seat. unfold ck_bind at 1.
    erewrite detach_run by done. simpl. unfold put_sessions, ck_bind. erewrite unref_run.
    2: { simpl. rewrite lookup_partial_alter_eq, Es. simpl. unfold released. simpl.
         replace (session_refcount s =? 1) with false by lia. done. }
    simpl. do 2 f_equal. unfold set_sessions. simpl. f_equal.
    + apply map_eq. intros a. rewrite lookup_alter. destruct (decide (a = i)) as [->|Ha].
      * by rewrite lookup_insert_eq, decide_True, Ht.
      * by rewrite lookup_insert_ne, decide_False.
    + apply map_eq. intros a. destruct (decide (a = j)) as [->|Ha].
      * rewrite !lookup_partial_alter_eq, lookup_delete_eq, Es. simpl. unfold released. simpl.
        replace (session_refcount s =? 1) with false by lia. simpl.
        by replace (session_refcount s - 1 =? 1) with true by lia.
      * by rewrite !lookup_partial_alter_ne, lookup_delete_ne.
  - unfold ck_ret, put_sessions, ck_bind. erewrite unref_run by done. simpl. do 2 f_equal. unfold set_sessions.
    simpl. f_equal. apply map_eq. intros a. destruct (decide (a = j)) as [->|Ha].
    + rewrite lookup_partial_alter_eq, lookup_delete_eq, Es. simpl. unfold released.
      by replace (session_refcount s =? 1) with true by lia.
    + by rewrite lookup_partial_alter_ne, lookup_delete_ne.
Qed.

(** ** Everything ConsoleKit has *)
Lemma keeps_paths_view k k' : keeps_paths k k' -> t_seats (view k') = t_seats (view k).
Proof. intros [E P]. unfold view. simpl. rewrite E. apply omap_agree. intros i _. apply P. Qed.

Lemma keeps_paths_session i t d k : seat_heap k !! i = Some t -> keeps_paths k (with_session i t d k).
Proof.
  intros Ht. split; [done|]. intros a. simpl. destruct (decide (a = i)) as [->|Ha].
  - by rewrite lookup_insert_eq, Ht.
  - by rewrite lookup_insert_ne.
Qed.

Section Init.
Context (ck : consolekit).

Lemma get_sessions_run O i paths k :
  ck_counts O k -> is_Some (seat_heap k !! i) ->
  exists ok k' lost, get_sessions_loop ck i paths k = Some (ok, k') /\ ck_counts (O.1, lost) k' /\ keeps_paths k k' /\
    spec_sessions ck paths (t_sessions (view k)) = (t_sessions (view k'), ok) /\
    size lost = (size O.2 + if ok then 0 else 1)%nat.
Proof.
  revert k. induction paths as [|p paths IH]; intros k C [t Ht]; cbn [get_sessions_loop spec_sessions].
  - exists true, k, O.2. rewrite Nat.add_0_r. destruct O. by split_and!.
  - pose proof (add_session_run ck i t p k Ht) as A. destruct (known ck p) as [d|].
    + unfold ck_bind. rewrite A.
      destruct (IH (with_session i t d k)) as (ok & k' & lost & R & C' & K & D & N).
      * by apply session_inv.
      * simpl. rewrite lookup_insert_eq. by eexists.
      * exists ok, k', lost. rewrite (view_session O) in D by done. split_and!; try done.
        pose proof (keeps_paths_session i t d k Ht) as [K1 K2]. destruct K as [K3 K4].
        split; [by rewrite K3 | intros a; by rewrite K4].
    + destruct A as [d A]. unfold ck_bind. rewrite A. exists false, (with_orphan d k), (lose_session (next_object k) O).2.
      rewrite (view_orphan O) by done. split_and!; try done; [by apply orphan_inv|].
      destruct (fresh_object O k C) as (_ & _ & _ & _ & _ & F). cbn [lose_session snd].
      rewrite size_union, size_singleton by set_solver. lia.
Qed.

Definition with_seat (p : string) (k : CKTracker) : CKTracker :=
  mk_tracker (<[next_object k := mk_seat 1 p []]> (seat_heap k)) (session_heap k) (seats k) (sessions k)
    (S (next_object k)) (tracker_refcount k).
Definition list_seat (i : nat) (k : CKTracker) : CKTracker :=
  mk_tracker (seat_heap k) (session_heap k) (i :: seats k) (sessions k) (next_object k) (tracker_refcount k).

Lemma with_seat_inv O p k : ck_counts O k -> ck_counts (lose_seat (next_object k) O) (with_seat p k).
Proof.
  intros C. destruct (fresh_object O k C) as (F1 & F2 & F3 & F4 & F5 & F6). destruct C as [C1 C2 C3 C4 C5 C6 C7 C8 C9 C10].
  unfold ck_counts, with_seat. simpl. split; try done; simpl.
  - intros i Hi. rewrite lookup_insert_ne by (intros <-; done). by apply C3.
  - intros i t Ht. destruct (decide (i = next_object k)) as [->|Hi].
    + rewrite lookup_insert_eq in Ht. simplify_eq/=. split_and!; [done|lia|constructor|right; set_solver].
    + rewrite lookup_insert_ne in Ht by done. destruct (C5 _ _ Ht) as (? & ? & ? & ?). split_and!; [done|lia|done|set_solver].
  - intros j s E. destruct (C6 _ _ E) as (? & ? & ?). split_and!; [lia|done|done].
  - intros i t j Ht. destruct (decide (i = next_object k)) as [->|Hi].
    + rewrite lookup_insert_eq in Ht. simplify_eq/=. split; [by intros ?%not_elem_of_nil|].
      intros (s & E & Es). destruct (C8 _ _ _ E Es). congruence.
    + rewrite lookup_insert_ne in Ht by done. by apply C7.
  - intros j s i E Es. rewrite lookup_insert_is_Some. destruct (decide (next_object k = i)); [by left|right].
    split; [done|]. by eapply C8.
  - intros i [->%elem_of_singleton|Hi]%elem_of_union.
    + rewrite lookup_insert_eq. split; [done | by eexists].
    + destruct (C9 i Hi) as [? ?]. rewrite lookup_insert_ne by (intros <-; done). done.
Qed.

(** A seat is lost until it is listed. *)
Lemma list_seat_inv O i k : ck_counts O k -> i ∈ O.1 -> ck_counts (O.1 ∖ {[i]}, O.2) (list_seat i k).
Proof.
  intros [C1 C2 C3 C4 C5 C6 C7 C8 C9 C10] Hi. destruct (C9 i Hi) as [Hn A]. split; try done; simpl.
  - by apply NoDup_cons.
  - intros a [->|Ha]%elem_of_cons; [done | by apply C3].
  - intros a t Ha. destruct (C5 a t Ha) as (? & ? & ? & ?). split_and!; try done.
    destruct (decide (a = i)); [left; set_solver | set_solver].
  - intros a [Ha Ne]%elem_of_difference. destruct (C9 a Ha). split; [set_solver | done].
Qed.

Lemma view_with_seat O p k : ck_counts O k -> view (with_seat p k) = view k.
Proof.
  intros C. destruct (fresh_object O k C) as (_ & _ & _ & F & _). rewrite !view_split. simpl. f_equal.
  by apply seat_names_insert.
Qed.

Lemma view_list_seat i t k : seat_heap k !! i = Some t ->
  view (list_seat i k) = mk_tracked (seat_objpath t :: t_seats (view k)) (t_sessions (view k)).
Proof. intros Ht. unfold view. csimpl. by rewrite Ht. Qed.

Lemma seat_new_run p k : ck_seat_new p k = Some (next_object k, with_seat p k).
Proof. done. Qed.

(** How many objects are lost when the seats of ConsoleKit are asked for. *)
Fixpoint lost_seats (paths : list string) : nat :=
  match paths with
  | [] => 0
  | p :: rest =>
      match ck_sessions ck p with
      | None => 1
      | Some l => if (spec_sessions ck l []).2 then lost_seats rest else 2
      end
  end.

Lemma spec_sessions_ok l L : (spec_sessions ck l L).2 = (spec_sessions ck l []).2.
Proof.
  generalize (@nil session_data) as L'. revert L. induction l as [|p l IH]; intros L L'; simpl; [done|].
  by destruct (known ck p).
Qed.

Lemma get_seats_run O paths k :
  ck_counts O k ->
  exists ok k' O', get_seats_loop ck paths k = Some (ok, k') /\ ck_counts O' k' /\ view k' = spec_seats ck paths (view k) /\
    lost_count O' = (lost_count O + lost_seats paths)%nat.
Proof.
  revert O k. induction paths as [|p paths IH]; intros O k C; cbn [get_seats_loop spec_seats lost_seats].
  - exists true, k, O. rewrite Nat.add_0_r. by split_and!.
  - erewrite ck_bind_run by apply seat_new_run. pose proof (with_seat_inv O p k C) as C1.
    pose proof (view_with_seat O p k C) as V1. destruct (fresh_object O k C) as (_ & _ & _ & F4 & F5 & _).
    assert (Hsize : size ({[next_object k]} ∪ O.1) = S (size O.1)) by (rewrite size_union, size_singleton by set_solver; lia).
    unfold ck_tracker_init_get_sessions_for_seat, ck_bind, get_seat. cbn [with_seat seat_heap].
    rewrite lookup_insert_eq. cbn [seat_objpath]. destruct (ck_sessions ck p) as [l|].
    2: { exists false, (with_seat p k), (lose_seat (next_object k) O). split_and!; try done.
         unfold lost_count, lose_seat. cbn [fst snd]. lia. }
    destruct (get_sessions_run (lose_seat (next_object k) O) (next_object k) l (with_seat p k))
      as (ok & k2 & lost & R & C2 & K & D & N); [done| |].
    { simpl. rewrite lookup_insert_eq. by eexists. }
    rewrite R. rewrite V1 in D. pose proof (spec_sessions_ok l (t_sessions (view k))) as Eok. rewrite D in Eok. cbn [snd] in Eok.
    rewrite D, <- Eok. pose proof (keeps_paths_view _ _ K) as V2. rewrite V1 in V2. cbn [lose_seat fst snd] in C2, N.
    destruct ok.
    + assert (A : exists t, seat_heap k2 !! next_object k = Some t /\ seat_objpath t = p).
      { destruct K as [_ K]. specialize (K (next_object k)). simpl in K. rewrite lookup_insert_eq in K. simpl in K.
        destruct (seat_heap k2 !! next_object k) as [t|]; simplify_eq/=. by exists t. }
      destruct A as (t & Ht & Ep).
      destruct (IH _ _ (list_seat_inv _ (next_object k) k2 C2 ltac:(simpl; set_solver))) as (ok & k' & O' & R' & C' & V' & N').
      exists ok, k', O'. rewrite V', (view_list_seat _ t), V2, Ep by done. split_and!; try done.
      rewrite N'. unfold lost_count. cbn [fst snd]. replace (({[next_object k]} ∪ O.1) ∖ {[next_object k]}) with O.1 by set_solver. lia.
    + exists false, k2, ({[next_object k]} ∪ O.1, lost). split_and!; [done|done|by rewrite <- V2|].
      unfold lost_count. cbn [fst snd]. lia.
Qed.

(** ** Each signal *)
(** How many objects a signal loses: those about which ConsoleKit is asked and does not answer. *)
Definition lost_by (s : ck_signal) (a : tracked) : nat :=
  match s with
  | SessionAdded seat p =>
      if decide (seat ∈ t_seats a) then match known ck p with Some _ => 0 | None => 1 end else 0
  | NameOwnerChanged name old _ =>
      if decide (name = "org.freedesktop.ConsoleKit") then
        if decide (old = "") then match ck_seats ck with Some l => lost_seats l | None => 0 end else 0
      else 0
  | _ => 0
  end%nat.

Definition does (m : ckm (list ck_event)) (f : tracked -> list ck_event * tracked) (lost : tracked -> nat) : Prop :=
  forall O k, ck_counts O k -> exists k' O', m k = Some ((f (view k)).1, k') /\ ck_counts O' k' /\ view k' = (f (view k)).2 /\
    lost_count O' = (lost_count O + lost (view k))%nat.

(** No object is lost. *)
Lemma does_keeping m f lost :
  (forall a, lost a = 0%nat) ->
  (forall O k, ck_counts O k -> exists k', m k = Some ((f (view k)).1, k') /\ ck_counts O k' /\ view k' = (f (view k)).2) ->
  does m f lost.
Proof. intros Hl H O k C. destruct (H O k C) as (k' & R & C' & V). exists k', O. rewrite Hl, Nat.add_0_r. done. Qed.

Lemma seat_added_does p : does (seat_added p) (spec_signal ck (SeatAdded p)) (lost_by (SeatAdded p)).
Proof.
  apply does_keeping; [done|]. intros O k C. exists (list_seat (next_object k) (with_seat p k)).
  assert (A : seat_heap (with_seat p k) !! next_object k = Some (mk_seat 1 p [])) by apply lookup_insert_eq.
  split_and!; [done| |].
  - destruct (fresh_object O k C) as (_ & _ & _ & _ & F & _).
    pose proof (list_seat_inv _ (next_object k) _ (with_seat_inv O p k C) ltac:(simpl; set_solver)) as C'. cbn [lose_seat fst snd] in C'.
    replace (({[next_object k]} ∪ O.1) ∖ {[next_object k]}) with O.1 in C' by set_solver. by destruct O.
  - by rewrite (view_list_seat _ _ _ A), (view_with_seat O).
Qed.

Lemma seat_removed_does p : does (seat_removed p) (spec_signal ck (SeatRemoved p)) (lost_by (SeatRemoved p)).
Proof.
  apply does_keeping; [done|]. intros O k C. destruct (find_seat_run p (seats k) k) as (r & R & D); [apply C | apply C |].
  unfold seat_removed. erewrite ck_bind_run by done. cbn [fst]. erewrite ck_bind_run by done.
  cbn [spec_signal]. change (t_seats (view k)) with (seat_names (seat_heap k) (seats k)). destruct r as [i|].
  - destruct D as (D1 & D2 & D3). rewrite decide_True by done.
    destruct (seat_unref_run O (seats k) (sessions k) i
      (mk_tracker (seat_heap k) (session_heap k) (slist_remove i (seats k)) (sessions k) (next_object k) (tracker_refcount k)))
      as (h & Rh & C' & V); [done|done|].
    unfold put_seats, ck_bind. rewrite Rh. eexists. split_and!; [done|done|].
    rewrite view_split. cbn. f_equal.
    + rewrite <- D3. apply omap_agree. intros a [_ Ha]%slist_remove_elem; [|apply C]. by rewrite lookup_delete_ne.
    + apply omap_agree. intros j Hj. by apply V.
  - rewrite decide_False by done. by exists k.
Qed.

Lemma session_added_does seat p : does (session_added ck seat p) (spec_signal ck (SessionAdded seat p)) (lost_by (SessionAdded seat p)).
Proof.
  intros O k C. destruct (find_seat_run seat (seats k) k) as (r & R & D); [apply C | apply C |].
  unfold session_added. erewrite ck_bind_run by done. cbn [fst]. erewrite ck_bind_run by done.
  cbn [spec_signal lost_by]. change (t_seats (view k)) with (seat_names (seat_heap k) (seats k)). destruct r as [i|].
  - destruct D as (D1 & D2 & _). rewrite !decide_True by done.
    destruct (cnt_seats_alive _ _ _ _ _ _ C _ D1) as [t Ht].
    pose proof (add_session_run ck i t p k Ht) as A. destruct (known ck p) as [d|].
    + erewrite ck_bind_run by done. unfold ck_bind, get_session, with_session at 1. cbn [session_heap].
      rewrite lookup_insert_eq. eexists _, O. rewrite Nat.add_0_r. split_and!; [done|by apply session_inv|by apply (view_session O)|done].
    + destruct A as [d A]. erewrite ck_bind_run by done. exists (with_orphan d k), (lose_session (next_object k) O).
      split_and!; [done|by apply orphan_inv|by apply (view_orphan O)|].
      destruct (fresh_object O k C) as (_ & _ & _ & _ & _ & F). unfold lost_count, lose_session. cbn [fst snd].
      rewrite size_union, size_singleton by set_solver. lia.
  - rewrite !decide_False by done. exists k, O. by rewrite Nat.add_0_r.
Qed.

Lemma session_removed_does p : does (session_removed p) (spec_signal ck (SessionRemoved p)) (lost_by (SessionRemoved p)).
Proof.
  apply does_keeping; [done|]. intros O k C. destruct (find_session_run p (sessions k) k) as (r & R & D); [apply C | apply C |].
  unfold session_removed. erewrite ck_bind_run by done. cbn [snd]. erewrite ck_bind_run by done.
  cbn [spec_signal]. change (t_sessions (view k)) with (session_datas (session_heap k) (sessions k)).
  destruct r as [j|].
  - destruct D as (s & Es & Hj & -> & D & _). unfold ck_bind at 1, get_session. rewrite Es.
    pose proof (forget_run O j s k C Hj Es) as F. eexists. split_and!.
    + erewrite ck_then_run by exact F. done.
    + by apply session_gone.
    + rewrite view_split. cbn. f_equal; [apply seats_without_names|]. rewrite <- D. apply omap_agree.
      intros a [_ Ha]%slist_remove_elem; [|apply C]. by rewrite lookup_delete_ne.
  - rewrite D. by exists k.
Qed.

Lemma active_changed_does p b : does (active_changed p b) (spec_signal ck (ActiveChanged p b)) (lost_by (ActiveChanged p b)).
Proof.
  apply does_keeping; [done|]. intros O k C. destruct (find_session_run p (sessions k) k) as (r & R & D); [apply C | apply C |].
  unfold active_changed. erewrite ck_bind_run by done. cbn [snd]. erewrite ck_bind_run by done.
  cbn [spec_signal]. change (t_sessions (view k)) with (session_datas (session_heap k) (sessions k)).
  destruct r as [j|]; [|rewrite D; by exists k].
  destruct D as (s & Es & Hj & -> & _ & D). unfold ck_bind, get_session, put_session. rewrite Es.
  eexists. split_and!; [done| |rewrite view_split; cbn; f_equal; by apply D].
  destruct C as [C1 C2 C3 C4 C5 C6 C7 C8 C9 C10]. split; try done; cbn.
  - intros a Ha. rewrite lookup_insert_is_Some. destruct (decide (j = a)); [by left|right; split; [done|by apply C4]].
  - intros a u E. destruct (decide (a = j)) as [->|Ha].
    + rewrite lookup_insert_eq in E. simplify_eq/=. by apply C6 in Es.
    + rewrite lookup_insert_ne in E by done. by apply C6.
  - intros i t a Ht. rewrite (C7 _ _ _ Ht). destruct (decide (a = j)) as [->|Ha].
    + rewrite lookup_insert_eq. split; intros (u & E & Eu); simplify_eq/=; by eexists.
    + by rewrite lookup_insert_ne.
  - intros a u i E Eu. destruct (decide (a = j)) as [->|Ha].
    + rewrite lookup_insert_eq in E. simplify_eq/=. by eapply C8.
    + rewrite lookup_insert_ne in E by done. by eapply C8.
  - intros a Ha. destruct (C10 a Ha) as (Hn & u & E & Eu). split; [done|]. exists u. by rewrite lookup_insert_ne by (intros <-; done).
Qed.

Lemma name_owner_changed_does n o w : does (name_owner_changed ck n o w) (spec_signal ck (NameOwnerChanged n o w)) (lost_by (NameOwnerChanged n o w)).
Proof.
  intros O k C. unfold name_owner_changed. cbn [spec_signal lost_by].
  destruct (decide (n = "org.freedesktop.ConsoleKit")) as [->|Hn].
  2: { rewrite (bool_decide_eq_false_2 (n = _)) by done. rewrite !andb_false_r. exists k, O. by rewrite Nat.add_0_r. }
  rewrite (bool_decide_eq_true_2 ("org.freedesktop.ConsoleKit" = _)) by done. rewrite !andb_true_r.
  assert (G : exists k1, (if w =s? "" then ck_tracker_remove_all_seats_and_sessions >>; ck_ret [service_disappeared_cb]
                          else ck_ret [])%hal k = Some (if decide (w = "") then [service_disappeared_cb] else [], k1) /\
              ck_counts O k1 /\ view k1 = if decide (w = "") then mk_tracked [] [] else view k).
  { case_bool_decide; destruct (decide (w = "")); try done; [|by exists k].
    destruct (remove_all_run O k C) as (k1 & R & C1 & V). exists k1. erewrite ck_bind_run by done. done. }
  destruct G as (k1 & R1 & C1 & V1). erewrite ck_bind_run by done.
  assert (G : exists k2 O2, (if o =s? "" then ck_tracker_init ck >>; ck_ret [service_appeared_cb] else ck_ret [])%hal k1 =
                Some (if decide (o = "") then [service_appeared_cb] else [], k2) /\ ck_counts O2 k2 /\
              (view k2 = if decide (o = "") then match ck_seats ck with Some l => spec_seats ck l (view k1) | None => view k1 end
                        else view k1) /\
              lost_count O2 = (lost_count O + if decide (o = "") then match ck_seats ck with Some l => lost_seats l | None => 0 end
                                              else 0)%nat).
  { clear R1 V1. case_bool_decide; destruct (decide (o = "")); try done; [|exists k1, O; by rewrite Nat.add_0_r].
    unfold ck_tracker_init, ck_tracker_init_get_seats_and_sessions.
    destruct (ck_seats ck) as [l|]; [|exists k1, O; by rewrite Nat.add_0_r].
    destruct (get_seats_run O l k1 C1) as (ok & k2 & O2 & R & C2 & V & N). exists k2, O2. erewrite ck_bind_run by done. done. }
  destruct G as (k2 & O2 & R2 & C2 & V2 & N). erewrite ck_bind_run by done. exists k2, O2. rewrite V2, V1, N.
  by destruct (decide (w = "")), (decide (o = "")).
Qed.

Definition handle (s : ck_signal) : ckm (list ck_event) :=
  match s with
  | SeatAdded p => seat_added p
  | SeatRemoved p => seat_removed p
  | SessionAdded seat p => session_added ck seat p
  | SessionRemoved p => session_removed p
  | ActiveChanged p b => active_changed p b
  | NameOwnerChanged n o w => name_owner_changed ck n o w
  end.

Lemma handle_counts s : does (handle s) (spec_signal ck s) (lost_by s).
Proof.
  destruct s; [apply seat_added_does | apply seat_removed_does | apply session_added_does |
    apply session_removed_does | apply active_changed_does | apply name_owner_changed_does].
Qed.

Lemma handle_does s k : ck_inv k -> exists k', handle s k = Some ((spec_signal ck s (view k)).1, k') /\ ck_inv k' /\
  view k' = (spec_signal ck s (view k)).2.
Proof. intros [O C]. destruct (handle_counts s O k C) as (k' & O' & R & C' & V & _). exists k'. split_and!; try done. by exists O'. Qed.

Lemma process_handles sig m :
  ck_tracker_process_system_bus_message ck sig m =
  match the_signal sig m with Some s => handle s | None => ck_ret [] end.
Proof.
  unfold ck_tracker_process_system_bus_message, the_signal. destruct sig; [|done]. cbn [andb negb].
  assert (E : forall i n, i <> "" -> dbus_message_is_method_call m i n =
                          bool_decide ((i, n) = (default "" (m_interface m), m_member m))).
  { intros i n Hi. unfold dbus_message_is_method_call. destruct (m_interface m) as [i'|]; cbn [default].
    - apply eq_bool_prop_intro. rewrite andb_True, !bool_decide_spec. cbn; naive_solver.
    - rewrite bool_decide_eq_false_2; [done|]. cbn. congruence. }
  rewrite !E by done. repeat (case_bool_decide; [by repeat case_match; simplify_eq/= | ]).
  done.
Qed.
End Init.

Lemma ck_counts_new : ck_counts (∅, ∅) ck_tracker_new.
Proof. unfold ck_counts. cbn. split; try constructor; set_solver || (intros; simplify_map_eq). Qed.
Lemma ck_inv_new : ck_inv ck_tracker_new.
Proof. eexists. apply ck_counts_new. Qed.

(** The objects lost in a history. *)
Fixpoint lost_run (h : list (consolekit * bool * DBusMessage)) (a : tracked) : nat :=
  match h with
  | [] => 0
  | (ck, sig, m) :: rest =>
      match the_signal sig m with
      | Some s => lost_by ck s a + lost_run rest (spec_signal ck s a).2
      | None => lost_run rest a
      end
  end%nat.

(** C34 The seats and sessions of the tracker are those of ConsoleKit.  Whatever
    sequence of bus messages arrives, and whatever ConsoleKit answers or fails to
    answer in between, the tracker never reads a session or a seat that was freed,
    and the
    seats, the sessions and the callbacks are those of two plain lists: a signal
    adds in front, removes the first entry with its path, or changes it; when
    ConsoleKit leaves both become empty, and when it comes back they hold what it
    answers up to the first failure.  Every reference count is exact: that of a
    session is the number of lists that hold it, of the tracker and of its seat, and that of a seat is one; an object in no list is
    freed.  The exception is what the code loses when
    ConsoleKit does not answer: the session it was asked about, and the seat whose sessions were asked for, stay allocated with a count
    of one; their number is exactly that of these failures (so none, if ConsoleKit always answers). *)
Theorem tracker_mirrors_consolekit (h : list (consolekit * bool * DBusMessage)) :
  let spec := spec_run h (mk_tracked [] []) in
  exists k O, ck_run h ck_tracker_new = Some (spec.1, k) /\ view k = spec.2 /\ ck_counts O k /\
    lost_count O = lost_run h (mk_tracked [] []).
Proof.
  cbv zeta. change (mk_tracked [] []) with (view ck_tracker_new).
  enough (G : forall O k, ck_counts O k -> exists k' O', ck_run h k = Some ((spec_run h (view k)).1, k') /\
    view k' = (spec_run h (view k)).2 /\ ck_counts O' k' /\ lost_count O' = (lost_count O + lost_run h (view k))%nat)
    by exact (G _ _ ck_counts_new).
  induction h as [|[[ck sig] m] h IH]; intros O k C; cbn [ck_run spec_run lost_run].
  { exists k, O. by rewrite Nat.add_0_r. }
  rewrite process_handles. unfold ck_bind. destruct (the_signal sig m) as [s|].
  - destruct (handle_counts ck s O k C) as (k1 & O1 & -> & C1 & V & N). destruct (spec_signal ck s (view k)) as [e a].
    cbn [fst snd] in V |- *. subst a. destruct (IH O1 k1 C1) as (k2 & O2 & -> & V2 & C2 & N2).
    destruct (spec_run h (view k1)) as [es a]. exists k2, O2. split_and!; try done. lia.
  - cbn. destruct (IH O k C) as (k2 & O2 & -> & V2 & C2 & N2). destruct (spec_run h (view k)) as [es a]. by exists k2, O2.
Qed.
