(* ===== verification/Storage.v ===== *)
(** * The client library for storage ([libhal-storage/libhal-storage.c])

    Drives and volumes as a client sees them: structures filled from the
    property set of a device, the texts and icons a desktop shows for them, and
    the options a volume is mounted with.

    The members of a structure are grouped by their type, with an enumeration
    of the members of each type.  Memory is never exhausted; texts are those of
    a build without translations.  The extraction macros compare the key and
    the type of a property with each entry of a table in turn. *)

From Stdlib Require Import ZArith Lia Ascii SpecFloat.
From stdpp Require Import base list gmap strings option pretty fin_maps.
From S2P Require Import Prelude CStd Property Device AccessCheck Dbus DbusDispatch Libhal LibhalCalls.

(** ** Icons: a list of mappings, the newest first *)
Notation LibHalStoragePolicy := (list (Z * string)).
Definition libhal_storage_policy_new : LibHalStoragePolicy := [].

Fixpoint replace_icon (icon : Z) (path : string) (l : LibHalStoragePolicy) : option LibHalStoragePolicy :=
  match l with
  | [] => None
  | (i, p) :: rest =>
      if i =? icon then Some ((i, path) :: rest)
      else r ← replace_icon icon path rest; Some ((i, p) :: r)
  end.
Definition libhal_storage_policy_set_icon_path (policy : LibHalStoragePolicy) (icon : Z) (path : string)
  : LibHalStoragePolicy :=
  match replace_icon icon path policy with Some p => p | None => (icon, path) :: policy end.

(** Up to the pair with the icon 0; [None] when there is none. *)
Fixpoint libhal_storage_policy_set_icon_mapping (policy : LibHalStoragePolicy) (pairs : list (Z * string))
  : option LibHalStoragePolicy :=
  match pairs with
  | [] => None
  | (icon, path) :: rest =>
      if icon =? 0 then Some policy
      else libhal_storage_policy_set_icon_mapping (libhal_storage_policy_set_icon_path policy icon path) rest
  end.

Fixpoint libhal_storage_policy_lookup_icon (policy : LibHalStoragePolicy) (icon : Z) : option string :=
  match policy with
  | [] => None
  | (i, path) :: rest => if i =? icon then Some path else libhal_storage_policy_lookup_icon rest icon
  end.

(** ** Enumerations *)
Definition LIBHAL_DRIVE_BUS_UNKNOWN : Z := 0.
Definition LIBHAL_DRIVE_BUS_IDE : Z := 1.
Definition LIBHAL_DRIVE_BUS_SCSI : Z := 2.
Definition LIBHAL_DRIVE_BUS_USB : Z := 3.
Definition LIBHAL_DRIVE_BUS_IEEE1394 : Z := 4.
Definition LIBHAL_DRIVE_BUS_CCW : Z := 5.

Definition LIBHAL_DRIVE_TYPE_REMOVABLE_DISK : Z := 0.
Definition LIBHAL_DRIVE_TYPE_DISK : Z := 1.
Definition LIBHAL_DRIVE_TYPE_CDROM : Z := 2.
Definition LIBHAL_DRIVE_TYPE_FLOPPY : Z := 3.
Definition LIBHAL_DRIVE_TYPE_TAPE : Z := 4.
Definition LIBHAL_DRIVE_TYPE_COMPACT_FLASH : Z := 5.
Definition LIBHAL_DRIVE_TYPE_MEMORY_STICK : Z := 6.
Definition LIBHAL_DRIVE_TYPE_SMART_MEDIA : Z := 7.
Definition LIBHAL_DRIVE_TYPE_SD_MMC : Z := 8.
Definition LIBHAL_DRIVE_TYPE_CAMERA : Z := 9.
Definition LIBHAL_DRIVE_TYPE_PORTABLE_AUDIO_PLAYER : Z := 10.
Definition LIBHAL_DRIVE_TYPE_ZIP : Z := 11.
Definition LIBHAL_DRIVE_TYPE_JAZ : Z := 12.
Definition LIBHAL_DRIVE_TYPE_FLASHKEY : Z := 13.
Definition LIBHAL_DRIVE_TYPE_MO : Z := 14.

(** The bits of [LibHalDriveCdromCaps]. *)
Inductive cdrom_cap :=
  | CDROM | CDR | CDRW | DVDRAM | DVDROM | DVDR | DVDRW | DVDPLUSR | DVDPLUSRW | DVDPLUSRDL | DVDPLUSRWDL
  | BDROM | BDR | BDRE | HDDVDROM | HDDVDR | HDDVDRW | MRW | MRWW | CAP_MO.
Definition LibHalDriveCdromCaps (c : cdrom_cap) : Z :=
  match c with
  | CDROM => 0x00001 | CDR => 0x00002 | CDRW => 0x00004 | DVDRAM => 0x00008 | DVDROM => 0x00010
  | DVDR => 0x00020 | DVDRW => 0x00040 | DVDPLUSR => 0x00080 | DVDPLUSRW => 0x00100
  | DVDPLUSRDL => 0x00200 | DVDPLUSRWDL => 0x00400 | BDROM => 0x00800 | BDR => 0x01000 | BDRE => 0x02000
  | HDDVDROM => 0x04000 | HDDVDR => 0x08000 | HDDVDRW => 0x10000 | MRW => 0x20000 | MRWW => 0x40000
  | CAP_MO => 0x80000
  end.

Inductive LibHalVolumeUsage :=
  | LIBHAL_VOLUME_USAGE_MOUNTABLE_FILESYSTEM | LIBHAL_VOLUME_USAGE_PARTITION_TABLE
  | LIBHAL_VOLUME_USAGE_RAID_MEMBER | LIBHAL_VOLUME_USAGE_CRYPTO | LIBHAL_VOLUME_USAGE_UNKNOWN
  | LIBHAL_VOLUME_USAGE_OTHER.
#[global] Instance usage_eq_dec : EqDecision LibHalVolumeUsage.
Proof. solve_decision. Defined.

(** ** The structures *)
Inductive drive_int := drive_device_minor | drive_device_major.
Inductive drive_str :=
  | drive_device_file | drive_vendor | drive_model | drive_type_textual | drive_dedicated_icon_drive
  | drive_dedicated_icon_volume | drive_partition_scheme | drive_physical_device | drive_firmware_version
  | drive_serial | drive_desired_mount_point | drive_mount_filesystem
  | drive_bus_textual.        (** a variable of [libhal_drive_from_udi] *)
Inductive drive_u64 := drive_size | drive_media_size.
Inductive drive_bool :=
  | drive_is_hotpluggable | drive_is_removable | drive_is_media_detected | drive_is_media_detection_automatic
  | drive_requires_eject | drive_should_mount | drive_no_partitions.
#[global] Instance drive_int_eq_dec : EqDecision drive_int.
Proof. solve_decision. Defined.
#[global] Instance drive_str_eq_dec : EqDecision drive_str.
Proof. solve_decision. Defined.
#[global] Instance drive_u64_eq_dec : EqDecision drive_u64.
Proof. solve_decision. Defined.
#[global] Instance drive_bool_eq_dec : EqDecision drive_bool.
Proof. solve_decision. Defined.

Inductive volume_int :=
  | vol_partition_number | vol_msdos_part_table_type | vol_device_minor | vol_device_major | vol_block_size
  | vol_num_blocks.
Inductive volume_str :=
  | vol_partition_scheme | vol_partition_type | vol_partition_label | vol_partition_uuid | vol_device_file
  | vol_storage_device | vol_crypto_backing_volume | vol_label | vol_mount_point | vol_fstype | vol_fsversion
  | vol_uuid | vol_desired_mount_point | vol_mount_filesystem
  | vol_fsusage_textual | vol_disc_type_textual.      (** variables of [libhal_volume_from_udi] *)
Inductive volume_u64 :=
  | vol_partition_start_offset | vol_partition_media_size | vol_msdos_part_table_start | vol_msdos_part_table_size
  | vol_size | vol_disc_capacity.
Inductive volume_bool :=
  | vol_is_partition | vol_is_mounted | vol_is_mounted_read_only | vol_ignore | vol_is_disc | vol_disc_has_audio
  | vol_disc_has_data | vol_disc_is_appendable | vol_disc_is_blank | vol_disc_is_rewritable | vol_should_mount.
#[global] Instance volume_int_eq_dec : EqDecision volume_int.
Proof. solve_decision. Defined.
#[global] Instance volume_str_eq_dec : EqDecision volume_str.
Proof. solve_decision. Defined.
#[global] Instance volume_u64_eq_dec : EqDecision volume_u64.
Proof. solve_decision. Defined.
#[global] Instance volume_bool_eq_dec : EqDecision volume_bool.
Proof. solve_decision. Defined.

(** The members that are filled from properties: zero, NULL and FALSE at first
    ([memset]).  [f_bits] is a member with one bit per property, [f_list] a
    list of strings. *)
Record members (I S U B : Type) := mk_members {
  f_int : I -> Z; f_str : S -> option string; f_u64 : U -> Z; f_bool : B -> bool;
  f_bits : Z; f_list : option (list string);
}.
Arguments mk_members {I S U B}.
Arguments f_int {I S U B}.
Arguments f_str {I S U B}.
Arguments f_u64 {I S U B}.
Arguments f_bool {I S U B}.
Arguments f_bits {I S U B}.
Arguments f_list {I S U B}.
Definition no_members {I S U B} : members I S U B :=
  mk_members (fun _ => 0) (fun _ => None) (fun _ => 0) (fun _ => false) 0 None.

Definition MOUNT_OPTIONS_SIZE : nat := 256.
Record LibHalDrive := mk_drive {
  drive_udi : string;
  drive_members : members drive_int drive_str drive_u64 drive_bool;   (** bits: the capabilities of an optical drive *)
  drive_bus : Z;
  drive_type : Z;
  drive_ctx : LibHalContext;
  drive_mount_options : string;
}.
Record LibHalVolume := mk_volume {
  vol_udi : string;
  vol_members : members volume_int volume_str volume_u64 volume_bool;
  vol_fsusage : LibHalVolumeUsage;
  vol_disc_type : Z;
  vol_mount_options : string;
}.

(** ** Extraction *)
Inductive member (I S U B : Type) :=
  | MInt (f : I) | MStr (f : S) | MU64 (f : U) | MBool (f : B)
  | MBit (bit : Z)            (** [LIBHAL_PROP_EXTRACT_BOOL_BITFIELD] *)
  | MList.
Arguments MInt {I S U B}.
Arguments MStr {I S U B}.
Arguments MU64 {I S U B}.
Arguments MBool {I S U B}.
Arguments MBit {I S U B}.
Arguments MList {I S U B}.

Section Extract.
Context {I S U B : Type} `{EqDecision I, EqDecision S, EqDecision U, EqDecision B}.

Definition member_type (m : member I S U B) : Z :=
  match m with
  | MInt _ => LIBHAL_PROPERTY_TYPE_INT32
  | MStr _ => LIBHAL_PROPERTY_TYPE_STRING
  | MU64 _ => LIBHAL_PROPERTY_TYPE_UINT64
  | MBool _ | MBit _ => LIBHAL_PROPERTY_TYPE_BOOLEAN
  | MList => LIBHAL_PROPERTY_TYPE_STRLIST
  end.

Definition write {A V} `{EqDecision A} (a : A) (v : V) (f : A -> V) : A -> V :=
  fun x => if decide (x = a) then v else f x.

(** The empty string is stored as NULL.  [None]: the union has another member. *)
Definition store_member (m : member I S U B) (v : property_union) (x : members I S U B) : option (members I S U B) :=
  match m, v with
  | MInt f, int_value z => Some (mk_members (write f z (f_int x)) (f_str x) (f_u64 x) (f_bool x) (f_bits x) (f_list x))
  | MStr f, str_value s =>
      let s := if 0 <? Z.of_nat (String.length s) then Some s else None in
      Some (mk_members (f_int x) (write f s (f_str x)) (f_u64 x) (f_bool x) (f_bits x) (f_list x))
  | MU64 f, uint64_value z =>
      Some (mk_members (f_int x) (f_str x) (write f z (f_u64 x)) (f_bool x) (f_bits x) (f_list x))
  | MBool f, bool_value b =>
      Some (mk_members (f_int x) (f_str x) (f_u64 x) (write f b (f_bool x)) (f_bits x) (f_list x))
  | MBit bit, bool_value b =>
      Some (mk_members (f_int x) (f_str x) (f_u64 x) (f_bool x) (Z.lor (f_bits x) (if b then bit else 0)) (f_list x))
  | MList, strlist_value a =>
      l ← strv a; Some (mk_members (f_int x) (f_str x) (f_u64 x) (f_bool x) (f_bits x) (Some l))
  | _, _ => None
  end.

Fixpoint extract (table : list (string * member I S U B)) (p : LibHalProperty) (x : members I S U B)
  : option (members I S U B) :=
  match table with
  | [] => Some x
  | (key, m) :: rest =>
      if (p_key p =s? key) && (p_type p =? member_type m) then store_member m (p_v p) x else extract rest p x
  end.

Fixpoint extract_all (table : list (string * member I S U B)) (set : LibHalPropertySet) (x : members I S U B)
  : option (members I S U B) :=
  match set with
  | [] => Some x
  | p :: rest => x ← extract table p x; extract_all table rest x
  end.
End Extract.

Definition bit (c : cdrom_cap) : member drive_int drive_str drive_u64 drive_bool := MBit (LibHalDriveCdromCaps c).
Definition drive_table : list (string * member drive_int drive_str drive_u64 drive_bool) :=
  [("block.minor", MInt drive_device_minor);
   ("block.major", MInt drive_device_major);
   ("block.device", MStr drive_device_file);
   ("storage.bus", MStr drive_bus_textual);
   ("storage.vendor", MStr drive_vendor);
   ("storage.model", MStr drive_model);
   ("storage.drive_type", MStr drive_type_textual);
   ("storage.size", MU64 drive_size);
   ("storage.icon.drive", MStr drive_dedicated_icon_drive);
   ("storage.icon.volume", MStr drive_dedicated_icon_volume);
   ("storage.hotpluggable", MBool drive_is_hotpluggable);
   ("storage.removable", MBool drive_is_removable);
   ("storage.removable.media_available", MBool drive_is_media_detected);
   ("storage.media_check_enabled", MBool drive_is_media_detection_automatic);
   ("storage.removable.media_size", MU64 drive_media_size);
   ("storage.requires_eject", MBool drive_requires_eject);
   ("storage.partitioning_scheme", MStr drive_partition_scheme);
   ("storage.originating_device", MStr drive_physical_device);
   ("storage.firmware_version", MStr drive_firmware_version);
   ("storage.serial", MStr drive_serial);
   ("storage.cdrom.cdr", bit CDR);
   ("storage.cdrom.cdrw", bit CDRW);
   ("storage.cdrom.dvd", bit DVDROM);
   ("storage.cdrom.dvdplusr", bit DVDPLUSR);
   ("storage.cdrom.dvdplusrw", bit DVDPLUSRW);
   ("storage.cdrom.dvdplusrwdl", bit DVDPLUSRWDL);
   ("storage.cdrom.dvdplusrdl", bit DVDPLUSRDL);
   ("storage.cdrom.dvdr", bit DVDR);
   ("storage.cdrom.dvdrw", bit DVDRW);
   ("storage.cdrom.dvdram", bit DVDRAM);
   ("storage.cdrom.bd", bit BDROM);
   ("storage.cdrom.bdr", bit BDR);
   ("storage.cdrom.bdre", bit BDRE);
   ("storage.cdrom.hddvd", bit HDDVDROM);
   ("storage.cdrom.hddvdr", bit HDDVDR);
   ("storage.cdrom.hddvdrw", bit HDDVDRW);
   ("storage.cdrom.mo", bit CAP_MO);
   ("storage.cdrom.mrw", bit MRW);
   ("storage.cdrom.mrw_w", bit MRWW);
   ("storage.policy.should_mount", MBool drive_should_mount);
   ("storage.policy.desired_mount_point", MStr drive_desired_mount_point);
   ("storage.policy.mount_filesystem", MStr drive_mount_filesystem);
   ("storage.no_partitions_hint", MBool drive_no_partitions);
   ("info.capabilities", MList)].

Definition volume_table : list (string * member volume_int volume_str volume_u64 volume_bool) :=
  [("volume.is_partition", MBool vol_is_partition);
   ("volume.partition.number", MInt vol_partition_number);
   ("volume.partition.scheme", MStr vol_partition_scheme);
   ("volume.partition.type", MStr vol_partition_type);
   ("volume.partition.label", MStr vol_partition_label);
   ("volume.partition.uuid", MStr vol_partition_uuid);
   ("volume.partition.flags", MList);
   ("volume.partition.start", MU64 vol_partition_start_offset);
   ("volume.partition.media_size", MU64 vol_partition_media_size);
   ("volume.partition.msdos_part_table_type", MInt vol_msdos_part_table_type);
   ("volume.partition.msdos_part_table_start", MU64 vol_msdos_part_table_start);
   ("volume.partition.msdos_part_table_size", MU64 vol_msdos_part_table_size);
   ("block.minor", MInt vol_device_minor);
   ("block.major", MInt vol_device_major);
   ("block.device", MStr vol_device_file);
   ("block.storage_device", MStr vol_storage_device);
   ("volume.crypto_luks.clear.backing_volume", MStr vol_crypto_backing_volume);
   ("volume.block_size", MInt vol_block_size);
   ("volume.num_blocks", MInt vol_num_blocks);
   ("volume.size", MU64 vol_size);
   ("volume.label", MStr vol_label);
   ("volume.mount_point", MStr vol_mount_point);
   ("volume.fstype", MStr vol_fstype);
   ("volume.fsversion", MStr vol_fsversion);
   ("volume.is_mounted", MBool vol_is_mounted);
   ("volume.is_mounted_read_only", MBool vol_is_mounted_read_only);
   ("volume.fsusage", MStr vol_fsusage_textual);
   ("volume.uuid", MStr vol_uuid);
   ("volume.ignore", MBool vol_ignore);
   ("volume.is_disc", MBool vol_is_disc);
   ("volume.disc.type", MStr vol_disc_type_textual);
   ("volume.disc.has_audio", MBool vol_disc_has_audio);
   ("volume.disc.has_data", MBool vol_disc_has_data);
   ("volume.disc.is_appendable", MBool vol_disc_is_appendable);
   ("volume.disc.is_blank", MBool vol_disc_is_blank);
   ("volume.disc.is_rewritable", MBool vol_disc_is_rewritable);
   ("volume.disc.capacity", MU64 vol_disc_capacity);
   ("volume.policy.should_mount", MBool vol_should_mount);
   ("volume.policy.desired_mount_point", MStr vol_desired_mount_point);
   ("volume.policy.mount_filesystem", MStr vol_mount_filesystem)].

(** ** Names of types *)
Definition named {A} (table : list (string * A)) (s : string) : option A :=
  snd <$> find (fun e => s =s? e.1) table.

Definition drive_types : list (string * Z) :=
  [("cdrom", LIBHAL_DRIVE_TYPE_CDROM); ("optical", LIBHAL_DRIVE_TYPE_MO); ("floppy", LIBHAL_DRIVE_TYPE_FLOPPY);
   ("tape", LIBHAL_DRIVE_TYPE_TAPE); ("compact_flash", LIBHAL_DRIVE_TYPE_COMPACT_FLASH);
   ("memory_stick", LIBHAL_DRIVE_TYPE_MEMORY_STICK); ("smart_media", LIBHAL_DRIVE_TYPE_SMART_MEDIA);
   ("sd_mmc", LIBHAL_DRIVE_TYPE_SD_MMC); ("zip", LIBHAL_DRIVE_TYPE_ZIP); ("jaz", LIBHAL_DRIVE_TYPE_JAZ);
   ("flashkey", LIBHAL_DRIVE_TYPE_FLASHKEY)].
(** The type of [drive->type_textual]; without one the member stays zero. *)
Definition type_of_text (text : option string) (removable : bool) : Z :=
  match text with
  | None => LIBHAL_DRIVE_TYPE_REMOVABLE_DISK
  | Some t =>
      if t =s? "disk" then (if removable then LIBHAL_DRIVE_TYPE_REMOVABLE_DISK else LIBHAL_DRIVE_TYPE_DISK)
      else default LIBHAL_DRIVE_TYPE_DISK (named drive_types t)
  end.
Fixpoint type_of_capabilities (caps : list string) (type : Z) : Z :=
  match caps with
  | [] => type
  | c :: rest =>
      if c =s? "portable_audio_player" then LIBHAL_DRIVE_TYPE_PORTABLE_AUDIO_PLAYER
      else if c =s? "camera" then LIBHAL_DRIVE_TYPE_CAMERA
      else type_of_capabilities rest type
  end.
Definition drive_buses : list (string * Z) :=
  [("usb", LIBHAL_DRIVE_BUS_USB); ("ieee1394", LIBHAL_DRIVE_BUS_IEEE1394); ("ide", LIBHAL_DRIVE_BUS_IDE);
   ("scsi", LIBHAL_DRIVE_BUS_SCSI); ("ccw", LIBHAL_DRIVE_BUS_CCW)].

(** [LibHalVolumeDiscType] by name. *)
Definition disc_types : list (string * Z) :=
  [("cd_rom", 0x00); ("cd_r", 0x01); ("cd_rw", 0x02); ("dvd_rom", 0x03); ("dvd_ram", 0x04); ("dvd_r", 0x05);
   ("dvd_rw", 0x06); ("dvd_r_dl", 0x11); ("dvd_plus_r", 0x07); ("dvd_plus_rw", 0x08); ("dvd_plus_r_dl", 0x09);
   ("bd_rom", 0x0a); ("bd_r", 0x0b); ("bd_re", 0x0c); ("hddvd_rom", 0x0d); ("hddvd_r", 0x0e); ("hddvd_rw", 0x0f);
   ("mo", 0x10)].
Definition LIBHAL_VOLUME_DISC_TYPE_MO : Z := 0x10.
Definition usages : list (string * LibHalVolumeUsage) :=
  [("filesystem", LIBHAL_VOLUME_USAGE_MOUNTABLE_FILESYSTEM); ("partitiontable", LIBHAL_VOLUME_USAGE_PARTITION_TABLE);
   ("raid", LIBHAL_VOLUME_USAGE_RAID_MEMBER); ("crypto", LIBHAL_VOLUME_USAGE_CRYPTO);
   ("other", LIBHAL_VOLUME_USAGE_OTHER)].

Definition drive_of (ctx : LibHalContext) (udi : string) (x : members drive_int drive_str drive_u64 drive_bool)
  : LibHalDrive :=
  let text := f_str x drive_type_textual in
  let caps := if bool_decide (text = Some "cdrom") then Z.lor (f_bits x) (LibHalDriveCdromCaps CDROM) else f_bits x in
  let x' := mk_members (f_int x) (f_str x) (f_u64 x) (f_bool x) caps (f_list x) in
  let type := type_of_text text (f_bool x drive_is_removable) in
  let type := match f_list x with Some l => type_of_capabilities l type | None => type end in
  let bus := match f_str x drive_bus_textual with
             | Some b => default LIBHAL_DRIVE_BUS_UNKNOWN (named drive_buses b)
             | None => LIBHAL_DRIVE_BUS_UNKNOWN
             end in
  mk_drive udi x' bus type ctx "".

Definition volume_of (udi : string) (x : members volume_int volume_str volume_u64 volume_bool) : LibHalVolume :=
  let disc := match f_str x vol_disc_type_textual with Some t => default 0 (named disc_types t) | None => 0 end in
  let usage := match f_str x vol_fsusage_textual with
               | Some t => default LIBHAL_VOLUME_USAGE_UNKNOWN (named usages t)
               | None => LIBHAL_VOLUME_USAGE_UNKNOWN
               end in
  mk_volume udi x usage disc "".

(** ** Reading the structures *)
Definition d_str (f : drive_str) (drive : LibHalDrive) : option string := f_str (drive_members drive) f.
Definition d_bool (f : drive_bool) (drive : LibHalDrive) : bool := f_bool (drive_members drive) f.
Definition v_str (f : volume_str) (volume : LibHalVolume) : option string := f_str (vol_members volume) f.
Definition v_bool (f : volume_bool) (volume : LibHalVolume) : bool := f_bool (vol_members volume) f.
Definition v_u64 (f : volume_u64) (volume : LibHalVolume) : Z := f_u64 (vol_members volume) f.

Definition libhal_drive_is_hotpluggable := d_bool drive_is_hotpluggable.
Definition libhal_drive_uses_removable_media := d_bool drive_is_removable.
Definition libhal_drive_is_media_detected := d_bool drive_is_media_detected.
Definition libhal_drive_is_media_detection_automatic := d_bool drive_is_media_detection_automatic.
Definition libhal_drive_requires_eject := d_bool drive_requires_eject.
Definition libhal_drive_no_partitions_hint := d_bool drive_no_partitions.
Definition libhal_drive_get_size (drive : LibHalDrive) : Z := f_u64 (drive_members drive) drive_size.
Definition libhal_drive_get_media_size (drive : LibHalDrive) : Z := f_u64 (drive_members drive) drive_media_size.
Definition libhal_drive_get_partition_scheme := d_str drive_partition_scheme.
Definition libhal_drive_get_type : LibHalDrive -> Z := drive_type.
Definition libhal_drive_get_bus : LibHalDrive -> Z := drive_bus.
Definition libhal_drive_get_cdrom_caps (drive : LibHalDrive) : Z := f_bits (drive_members drive).
Definition libhal_drive_get_device_major (drive : LibHalDrive) : Z := u32 (f_int (drive_members drive) drive_device_major).
Definition libhal_drive_get_device_minor (drive : LibHalDrive) : Z := u32 (f_int (drive_members drive) drive_device_minor).
Definition libhal_drive_get_type_textual := d_str drive_type_textual.
Definition libhal_drive_get_device_file := d_str drive_device_file.
Definition libhal_drive_get_udi : LibHalDrive -> string := drive_udi.
Definition libhal_drive_get_serial := d_str drive_serial.
Definition libhal_drive_get_firmware_version := d_str drive_firmware_version.
Definition libhal_drive_get_model := d_str drive_model.
Definition libhal_drive_get_vendor := d_str drive_vendor.
Definition libhal_drive_get_physical_device_udi := d_str drive_physical_device.
Definition libhal_drive_get_dedicated_icon_drive := d_str drive_dedicated_icon_drive.
Definition libhal_drive_get_dedicated_icon_volume := d_str drive_dedicated_icon_volume.

Definition libhal_volume_get_udi : LibHalVolume -> string := vol_udi.
Definition libhal_volume_get_device_file := v_str vol_device_file.
Definition libhal_volume_get_device_major (volume : LibHalVolume) : Z := u32 (f_int (vol_members volume) vol_device_major).
Definition libhal_volume_get_device_minor (volume : LibHalVolume) : Z := u32 (f_int (vol_members volume) vol_device_minor).
Definition libhal_volume_get_fstype := v_str vol_fstype.
Definition libhal_volume_get_fsversion := v_str vol_fsversion.
Definition libhal_volume_get_fsusage : LibHalVolume -> LibHalVolumeUsage := vol_fsusage.
Definition libhal_volume_is_mounted := v_bool vol_is_mounted.
Definition libhal_volume_is_mounted_read_only := v_bool vol_is_mounted_read_only.
Definition libhal_volume_is_partition := v_bool vol_is_partition.
Definition libhal_volume_is_disc := v_bool vol_is_disc.
Definition libhal_volume_get_partition_number (volume : LibHalVolume) : Z :=
  u32 (f_int (vol_members volume) vol_partition_number).
Definition libhal_volume_get_partition_scheme := v_str vol_partition_scheme.
Definition libhal_volume_get_partition_type := v_str vol_partition_type.
Definition libhal_volume_get_partition_label := v_str vol_partition_label.
Definition libhal_volume_get_partition_uuid := v_str vol_partition_uuid.
Definition libhal_volume_get_partition_flags (volume : LibHalVolume) : option (list string) := f_list (vol_members volume).
Definition libhal_volume_get_partition_start_offset := v_u64 vol_partition_start_offset.
Definition libhal_volume_get_partition_media_size := v_u64 vol_partition_media_size.
Definition libhal_volume_get_msdos_part_table_type (volume : LibHalVolume) : Z :=
  f_int (vol_members volume) vol_msdos_part_table_type.
Definition libhal_volume_get_msdos_part_table_start := v_u64 vol_msdos_part_table_start.
Definition libhal_volume_get_msdos_part_table_size := v_u64 vol_msdos_part_table_size.
Definition libhal_volume_get_label := v_str vol_label.
Definition libhal_volume_get_mount_point := v_str vol_mount_point.
Definition libhal_volume_get_uuid := v_str vol_uuid.
Definition libhal_volume_get_storage_device_udi := v_str vol_storage_device.
Definition libhal_volume_disc_has_audio := v_bool vol_disc_has_audio.
Definition libhal_volume_disc_has_data := v_bool vol_disc_has_data.
Definition libhal_volume_disc_is_blank := v_bool vol_disc_is_blank.
Definition libhal_volume_disc_is_rewritable := v_bool vol_disc_is_rewritable.
Definition libhal_volume_disc_is_appendable := v_bool vol_disc_is_appendable.
Definition libhal_volume_get_disc_type : LibHalVolume -> Z := vol_disc_type.
Definition libhal_volume_should_ignore := v_bool vol_ignore.
Definition libhal_volume_get_disc_capacity := v_u64 vol_disc_capacity.
Definition libhal_volume_crypto_get_backing_volume_udi := v_str vol_crypto_backing_volume.

(** The members are [unsigned int]; the product is of 64 bits. *)
Definition libhal_volume_get_size (volume : LibHalVolume) : Z :=
  if 0 <? v_u64 vol_size volume then v_u64 vol_size volume
  else u64 (u32 (f_int (vol_members volume) vol_block_size) * u32 (f_int (vol_members volume) vol_num_blocks)).

(** ** Sizes as text *)

(** [%.01f] for a number that is not negative: the nearest tenth, ties to even. *)
Definition tenths (x : double) : Z :=
  match x with
  | S754_finite _ m e =>
      if 0 <=? e then 10 * Z.pos m * 2 ^ e
      else let den := 2 ^ (- e) in
           let q := 10 * Z.pos m / den in
           let r := 10 * Z.pos m mod den in
           if (2 * r <? den) || (2 * r =? den) && Z.even q then q else q + 1
  | _ => 0
  end.
Definition printf_1f (x : double) : string := pretty (tenths x / 10) +:+ "." +:+ pretty (tenths x mod 10).

Definition MAX_STRING_SZ : nat := 256.
Definition sizes_str : list string := ["K"; "M"; "G"; "T"].
Fixpoint size_loop (size cur : Z) (units : list string) : string :=
  let base := 10 in
  let step := 10 * 10 * 10 in
  match units with
  | [] => ""
  | unit :: rest =>
      if bool_decide (rest = []) || (size <? u64 (cur * step)) then
        if size <? u64 (cur * base)
        then snprintf MAX_STRING_SZ (printf_1f (dbl_div (dbl_of_int size) (dbl_of_int cur)) +:+ unit)
        else snprintf MAX_STRING_SZ (pretty (size / cur) +:+ unit)
      else size_loop size (u64 (cur * step)) rest
  end.
Definition libhal_volume_policy_compute_size_as_string (volume : LibHalVolume) : string :=
  size_loop (libhal_volume_get_size volume) 1000 sizes_str.

(** ** Names *)
Definition vendor_model (vendor model : option string) : string :=
  match vendor, model with
  | (None | Some ""), (None | Some "") => ""
  | (None | Some ""), Some model => model
  | Some vendor, (None | Some "") => vendor
  | Some vendor, Some model => snprintf MAX_STRING_SZ (vendor +:+ " " +:+ model)
  end.

Definition has_cap (caps : Z) (c : cdrom_cap) : bool := negb (Z.land caps (LibHalDriveCdromCaps c) =? 0).
Definition optical_first (caps : Z) : string :=
  let first := "CD-ROM" in
  let first := if has_cap caps CDR then "CD-R" else first in
  if has_cap caps CDRW then "CD-RW" else first.
Definition optical_second (caps : Z) : string :=
  let second := "" in
  let second := if has_cap caps DVDROM then "/DVD-ROM" else second in
  let second := if has_cap caps DVDPLUSR then "/DVD+R" else second in
  let second := if has_cap caps DVDPLUSRW then "/DVD+RW" else second in
  let second := if has_cap caps DVDR then "/DVD-R" else second in
  let second := if has_cap caps DVDRW then "/DVD-RW" else second in
  let second := if has_cap caps DVDRAM then "/DVD-RAM" else second in
  let second := if has_cap caps DVDR && has_cap caps DVDPLUSR
                then (if has_cap caps DVDPLUSRDL then "/DVD±R DL" else "/DVD±R") else second in
  let second := if has_cap caps DVDRW && has_cap caps DVDPLUSRW
                then (if has_cap caps DVDPLUSRDL || has_cap caps DVDPLUSRWDL then "/DVD±RW DL" else "/DVD±RW")
                else second in
  let second := if has_cap caps BDROM then "/BD-ROM" else second in
  let second := if has_cap caps BDR then "/BD-R" else second in
  let second := if has_cap caps BDRE then "/BD-RE" else second in
  let second := if has_cap caps HDDVDROM then "/HD DVD-ROM" else second in
  let second := if has_cap caps HDDVDR then "/HD DVD-R" else second in
  let second := if has_cap caps HDDVDRW then "/HD DVD-RW" else second in
  let second := if has_cap caps MRW then "/MRW" else second in
  if has_cap caps MRWW then "/MRW-W" else second.

Definition libhal_drive_policy_compute_display_name (drive : LibHalDrive) (volume : option LibHalVolume) : string :=
  let size_str := libhal_volume_policy_compute_size_as_string <$> volume in
  let vendormodel_str := vendor_model (libhal_drive_get_vendor drive) (libhal_drive_get_model drive) in
  let type := libhal_drive_get_type drive in
  let external := libhal_drive_is_hotpluggable drive in
  if type =? LIBHAL_DRIVE_TYPE_CDROM then
    let caps := libhal_drive_get_cdrom_caps drive in
    let both := optical_first caps +:+ optical_second caps in
    snprintf MAX_STRING_SZ ((if external then "External " else "") +:+ both +:+ " Drive")
  else if type =? LIBHAL_DRIVE_TYPE_MO then
    if external then "External Magneto Optical Drive" else "Magneto Optical Drive"
  else if type =? LIBHAL_DRIVE_TYPE_FLOPPY then
    if external then "External Floppy Drive" else "Floppy Drive"
  else if (type =? LIBHAL_DRIVE_TYPE_DISK) && negb (libhal_drive_uses_removable_media drive) then
    match size_str with
    | Some s => snprintf MAX_STRING_SZ (s +:+ (if external then " External Hard Drive" else " Hard Drive"))
    | None => if external then "External Hard Drive" else "Hard Drive"
    end
  else if vendormodel_str =s? "" then "Drive" else vendormodel_str.

(** The names of the discs by type; those behind [true] have a blank form. *)
Definition disc_names : list (Z * (bool * string)) :=
  [(0x01, (true, "CD-R")); (0x02, (true, "CD-RW")); (0x03, (false, "DVD-ROM")); (0x04, (true, "DVD-RAM"));
   (0x05, (true, "DVD-R")); (0x11, (true, "DVD-R Dual-Layer")); (0x06, (true, "DVD-RW")); (0x07, (true, "DVD+R"));
   (0x08, (true, "DVD+RW")); (0x09, (true, "DVD+R Dual-Layer")); (0x0a, (false, "BD-ROM")); (0x0b, (true, "BD-R"));
   (0x0c, (true, "BD-RE")); (0x0d, (false, "HD DVD-ROM")); (0x0e, (true, "HD DVD-R")); (0x0f, (true, "HD DVD-RW"))].
Definition disc_name (volume : LibHalVolume) : string :=
  match find (fun e => e.1 =? libhal_volume_get_disc_type volume) disc_names with
  | Some (_, (has_blank, name)) => if has_blank && libhal_volume_disc_is_blank volume then "Blank " +:+ name else name
  | None => "CD-ROM "
  end.

(** [None]: the pointer that is returned was never set. *)
Definition libhal_volume_policy_compute_display_name (drive : LibHalDrive) (volume : LibHalVolume) : option string :=
  let size_str := libhal_volume_policy_compute_size_as_string volume in
  match libhal_volume_get_label volume with
  | Some label => Some label
  | None =>
      if libhal_drive_get_type drive =? LIBHAL_DRIVE_TYPE_CDROM then
        Some (if libhal_volume_disc_has_audio volume && negb (libhal_volume_disc_has_data volume)
              then "Audio CD" else disc_name volume)
      else if libhal_drive_get_type drive =? LIBHAL_DRIVE_TYPE_MO then
        if libhal_volume_get_disc_type volume =? LIBHAL_VOLUME_DISC_TYPE_MO
        then Some (if libhal_volume_disc_is_blank volume then "Blank Magneto Optical" else "Magneto Optical")
        else None
      else if libhal_drive_uses_removable_media drive
      then Some (snprintf MAX_STRING_SZ (size_str +:+ " Removable Media"))
      else Some (snprintf MAX_STRING_SZ (size_str +:+ " Media"))
  end.

(** ** Icons of drives and volumes *)
Definition LIBHAL_STORAGE_ICON_VOLUME_REMOVABLE_DISK : Z := 0x20000.
(** The types whose icons differ by bus. *)
Definition icon_of (range : Z) (drive : LibHalDrive) : Z :=
  let type := libhal_drive_get_type drive in
  if bool_decide (type ∈ [LIBHAL_DRIVE_TYPE_REMOVABLE_DISK; LIBHAL_DRIVE_TYPE_DISK; LIBHAL_DRIVE_TYPE_CDROM;
                          LIBHAL_DRIVE_TYPE_MO; LIBHAL_DRIVE_TYPE_FLOPPY])
  then range + type * 0x100 + libhal_drive_get_bus drive
  else range + type * 0x100.
Definition libhal_drive_policy_compute_icon_name (drive : LibHalDrive) (policy : LibHalStoragePolicy) : option string :=
  libhal_storage_policy_lookup_icon policy (icon_of 0x10000 drive).
Definition libhal_volume_policy_compute_icon_name (drive : option LibHalDrive) (volume : LibHalVolume)
    (policy : LibHalStoragePolicy) : option string :=
  if libhal_volume_is_disc volume
  then libhal_storage_policy_lookup_icon policy (0x30000 + libhal_volume_get_disc_type volume)
  else match drive with
       | None => libhal_storage_policy_lookup_icon policy LIBHAL_STORAGE_ICON_VOLUME_REMOVABLE_DISK
       | Some drive => libhal_storage_policy_lookup_icon policy (icon_of 0x20000 drive)
       end.

(** ** Visibility *)
Definition fhs23_toplevel_mount_points : list string :=
  ["/"; "/bin"; "/boot"; "/dev"; "/etc"; "/home"; "/lib"; "/lib64"; "/media"; "/mnt"; "/opt"; "/root"; "/sbin";
   "/srv"; "/tmp"; "/usr"; "/var"; "/proc"; "/sbin"].
Definition libhal_volume_policy_should_be_visible (volume : LibHalVolume) (target_mount_point : option string) : bool :=
  if negb (bool_decide (libhal_volume_get_fsusage volume = LIBHAL_VOLUME_USAGE_MOUNTABLE_FILESYSTEM)) then false
  else
    let mount_point := match libhal_volume_get_mount_point volume with Some m => Some m | None => target_mount_point end in
    match libhal_volume_get_fstype volume with
    | None => false
    | Some fstype =>
        if match mount_point with
           | Some m => existsb (fun p => m =s? p) fhs23_toplevel_mount_points
           | None => false
           end then false
        else if match libhal_volume_get_label volume with
                | Some label => (label =s? "bootstrap") && (fstype =s? "hfs")
                | None => false
                end then false
        else true
    end.

(** ** Policies *)
Definition libhal_drive_policy_is_mountable (drive : LibHalDrive) : bool :=
  d_bool drive_should_mount drive && d_bool drive_no_partitions drive.
Definition libhal_drive_policy_get_desired_mount_point := d_str drive_desired_mount_point.
Definition libhal_drive_policy_get_mount_fs := d_str drive_mount_filesystem.
Definition libhal_volume_policy_is_mountable (drive : LibHalDrive) (volume : LibHalVolume) : bool :=
  d_bool drive_should_mount drive && v_bool vol_should_mount volume.
Definition libhal_volume_policy_get_desired_mount_point := v_str vol_desired_mount_point.
Definition libhal_volume_policy_get_mount_fs := v_str vol_mount_filesystem.

(** ** Asking the daemon *)
Section Calls.
Context (send : LibHalContext -> DBusMessage -> hm dbus_reply).

(** [LIBHAL_CHECK_LIBHALCONTEXT] in functions without an error object. *)
Definition with_context {A} (ctx : option LibHalContext) (ret : A) (k : LibHalContext -> hm A) : hm A :=
  match ctx with Some c => k c | None => hret ret end.

(** A property set that was read wrongly is [None] behind [Some]. *)
Definition libhal_drive_from_udi (hal_ctx : option LibHalContext) (udi : option string) : hm (option LibHalDrive) :=
  with_context hal_ctx None (fun c =>
    let^ r := libhal_device_query_capability send hal_ctx udi (Some "storage") in
    if negb r.1 then hret None
    else
      let^ r := libhal_device_get_all_properties send hal_ctx udi in
      hret (properties ← r.1; u ← udi; x ← extract_all drive_table properties no_members; Some (drive_of c u x))).

Definition libhal_volume_from_udi (hal_ctx : option LibHalContext) (udi : option string) : hm (option LibHalVolume) :=
  with_context hal_ctx None (fun c =>
    let^ r := libhal_device_query_capability send hal_ctx udi (Some "volume") in
    if negb r.1 then hret None
    else
      let^ r := libhal_device_get_all_properties send hal_ctx udi in
      hret (properties ← r.1; u ← udi; x ← extract_all volume_table properties no_members; Some (volume_of u x))).

(** The first [n] elements; [None] when one was not written. *)
Definition array_read (b : array cell) (n : nat) : option (list string) := mapM (fun c => c ≫= id) (take n b).

(** The drive of the first volume, or else the last drive, with the file. *)
Fixpoint drive_of_devices (hal_ctx : option LibHalContext) (udis : list string) (found_udi : option string)
  : hm (option string) :=
  match udis with
  | [] => hret found_udi
  | udi :: rest =>
      let^ volume := libhal_device_query_capability send hal_ctx (Some udi) (Some "volume") in
      if volume.1 then
        let^ storage_udi := libhal_device_get_property_string send hal_ctx (Some udi) (Some "block.storage_device") in
        match storage_udi.1 with
        | None => drive_of_devices hal_ctx rest found_udi
        | Some s => hret (Some s)
        end
      else
        let^ storage := libhal_device_query_capability send hal_ctx (Some udi) (Some "storage") in
        drive_of_devices hal_ctx rest (if storage.1 then Some udi else found_udi)
  end.
(** The result of [libhal_manager_find_device_string_match]: NULL, or the UDIs. *)
Definition find_udis (hal_ctx : option LibHalContext) (key : string) (value : option string) : hm (option (list string)) :=
  let^ r := libhal_manager_find_device_string_match send hal_ctx (Some key) value in
  hret (match r.1 with Some (b, n) => array_read b n | None => None end).

Definition libhal_drive_from_device_file (hal_ctx : option LibHalContext) (device_file : option string)
  : hm (option LibHalDrive) :=
  with_context hal_ctx None (fun _ =>
    let^ udis := find_udis hal_ctx "block.device" device_file in
    match udis with
    | None => hret None
    | Some udis =>
        let^ found_udi := drive_of_devices hal_ctx udis None in
        match found_udi with
        | Some u => libhal_drive_from_udi hal_ctx (Some u)
        | None => hret None
        end
    end).

Fixpoint first_volume (hal_ctx : option LibHalContext) (udis : list string) : hm (option string) :=
  match udis with
  | [] => hret None
  | udi :: rest =>
      let^ volume := libhal_device_query_capability send hal_ctx (Some udi) (Some "volume") in
      if volume.1 then hret (Some udi) else first_volume hal_ctx rest
  end.
Definition volume_from (key : string) (hal_ctx : option LibHalContext) (value : option string)
  : hm (option LibHalVolume) :=
  with_context hal_ctx None (fun _ =>
    let^ udis := find_udis hal_ctx key value in
    match udis with
    | None => hret None
    | Some udis =>
        let^ found_udi := first_volume hal_ctx udis in
        match found_udi with
        | Some u => libhal_volume_from_udi hal_ctx (Some u)
        | None => hret None
        end
    end).
Definition libhal_volume_from_mount_point := volume_from "volume.mount_point".
Definition libhal_volume_from_device_file := volume_from "block.device".

(** *** The volumes of a drive *)
Fixpoint copy_others (drive_udi : string) (udis : list string) (num_volumes : nat) (result : array cell)
  : option (array cell * nat) :=
  match udis with
  | [] => Some (result, num_volumes)
  | u :: rest =>
      if u =s? drive_udi then copy_others drive_udi rest num_volumes result
      else result ← array_write num_volumes (Some u) result; copy_others drive_udi rest (S num_volumes) result
  end.
(** The array has one cell per UDI; [None] is a write behind its end. *)
Definition volumes_among (drive_udi : string) (udis : list string) : option (array cell * nat) :=
  '(result, n) ← copy_others drive_udi udis 0 (array_malloc (length udis));
  result ← array_write n None result;
  Some (result, n).
Definition libhal_drive_find_all_volumes (hal_ctx : option LibHalContext) (drive : LibHalDrive)
  : hm (option (option (array cell) * nat)) :=
  with_context hal_ctx (Some (None, O)) (fun _ =>
    let^ udis := find_udis hal_ctx "block.storage_device" (Some (libhal_drive_get_udi drive)) in
    hret (match udis with
          | None => Some (None, O)
          | Some udis => '(b, n) ← volumes_among (libhal_drive_get_udi drive) udis; Some (Some b, n)
          end)).

Definition libhal_volume_crypto_get_clear_volume_udi (hal_ctx : option LibHalContext) (volume : LibHalVolume)
  : hm (option string) :=
  with_context hal_ctx None (fun _ =>
    let^ clear_devices := find_udis hal_ctx "volume.crypto_luks.clear.backing_volume" (Some (vol_udi volume)) in
    hret (clear_devices ≫= head)).

(** *** Defaults of the computer *)
Definition computer_string (key : string) (hal_ctx : option LibHalContext) : hm (option string) :=
  with_context hal_ctx None (fun _ =>
    let^ r := libhal_device_get_property_string send hal_ctx (Some COMPUTER) (Some key) in hret r.1).
Definition libhal_drive_policy_default_get_mount_root := computer_string "storage.policy.default.mount_root".
Definition libhal_drive_policy_default_use_managed_keyword (hal_ctx : option LibHalContext) : hm bool :=
  with_context hal_ctx false (fun _ =>
    let^ r := libhal_device_get_property_bool send hal_ctx (Some COMPUTER)
                (Some "storage.policy.default.use_managed_keyword") in hret r.1).
Definition libhal_drive_policy_default_get_managed_keyword_primary :=
  computer_string "storage.policy.default.managed_keyword.primary".
Definition libhal_drive_policy_default_get_managed_keyword_secondary :=
  computer_string "storage.policy.default.managed_keyword.secondary".

(** *** Mount options *)
(** [dst] has a terminator within its [dstmaxlen] bytes. *)
Definition strcat_len (dst src : string) (dstmaxlen : nat) : string :=
  dst +:+ str_take (dstmaxlen - String.length dst - 1) src.

Definition implies_options (option : string) : bool :=
  existsb (fun o => option =s? o) ["user"; "users"; "defaults"; "pamconsole"].
Definition add_option (option options : string) (max : nat) : string :=
  if strstr options option then options
  else
    let options := if 0 <? Z.of_nat (String.length options) then strcat_len options "," max else options in
    strcat_len options option max.
(** Up to and with the next comma, or to the end. *)
Definition remove_option (option options : string) : string :=
  match split_at_first options option with
  | None => options
  | Some (before, location) =>
      match split_at_first location "," with
      | None => before
      | Some (_, rest) => before +:+ str_drop 1 rest
      end
  end.
Definition collect_option (namespace : string) (max : nat) (only_collect_imply_opts : bool) (p : LibHalProperty)
    (options : string) : option string :=
  if (p_type p =? LIBHAL_PROPERTY_TYPE_BOOLEAN) && has_prefix (p_key p) namespace then
    let option := str_drop (String.length namespace) (p_key p) in
    if Bool.eqb only_collect_imply_opts (implies_options option) then
      b ← as_bool (p_v p);
      Some (if b : bool then add_option option options max else remove_option option options)
    else Some options
  else Some options.
Fixpoint collect_options (namespace : string) (max : nat) (only_collect_imply_opts : bool) (set : LibHalPropertySet)
    (options : string) : option string :=
  match set with
  | [] => Some options
  | p :: rest =>
      options ← collect_option namespace max only_collect_imply_opts p options;
      collect_options namespace max only_collect_imply_opts rest options
  end.
(** [None]: the union of a property was read wrongly. *)
Definition mopts_collect (hal_ctx : LibHalContext) (namespace udi options : string) (max : nat)
    (only_collect_imply_opts : bool) : hm (option string) :=
  let^ r := libhal_device_get_all_properties send (Some hal_ctx) (Some udi) in
  hret (match r.1 with
        | None => Some options
        | Some set => collect_options namespace max only_collect_imply_opts set options
        end).

Definition then_collect (hal_ctx : LibHalContext) (namespace udi : string) (only_collect_imply_opts : bool)
    (options : option string) : hm (option string) :=
  match options with
  | None => hret None
  | Some o => mopts_collect hal_ctx namespace udi o MOUNT_OPTIONS_SIZE only_collect_imply_opts
  end.
Definition DEFAULT_OPTION : string := "storage.policy.default.mount_option.".
Definition mount_options_of (hal_ctx : LibHalContext) (namespace udi : string) : hm (option string) :=
  let^ o := then_collect hal_ctx DEFAULT_OPTION COMPUTER true (Some "") in
  let^ o := then_collect hal_ctx namespace udi true o in
  let^ o := then_collect hal_ctx DEFAULT_OPTION COMPUTER false o in
  then_collect hal_ctx namespace udi false o.

(** The options are kept in the structure. *)
Definition libhal_drive_policy_get_mount_options (drive : LibHalDrive) : hm (option (string * LibHalDrive)) :=
  let^ o := mount_options_of (drive_ctx drive) "storage.policy.mount_option." (drive_udi drive) in
  hret (o ← o; Some (o, mk_drive (drive_udi drive) (drive_members drive) (drive_bus drive) (drive_type drive)
                                 (drive_ctx drive) o)).
Definition libhal_volume_policy_get_mount_options (drive : LibHalDrive) (volume : LibHalVolume)
  : hm (option (string * LibHalVolume)) :=
  let^ o := mount_options_of (drive_ctx drive) "volume.policy.mount_option." (vol_udi volume) in
  hret (o ← o; Some (o, mk_volume (vol_udi volume) (vol_members volume) (vol_fsusage volume) (vol_disc_type volume) o)).
End Calls.
