(* ===== verification/StorageClaims.v ===== *)
(** * Drives and volumes as clients see them

    The structures of [libhal-storage] agree with the device in the daemon, and
    the mount options are those of the device, or else those of the computer. *)

From Stdlib Require Import ZArith Lia Ascii SpecFloat.
From stdpp Require Import base list gmap strings option pretty fin_maps.
From S2P Require Import Prelude CStd Property Device DeviceTheory DeviceStore FdiRules FdiInterp Locks AccessCheck AccessClaims Bus BusClaims Util Dbus DbusManager DbusDispatch DbusTheory Libhal LibhalCalls LibhalTheory LibhalClaims ChangeSetClaims Storage.

Ltac in_table := cbv [drive_table volume_table]; repeat (apply list_elem_of_here || apply list_elem_of_further).

(** ** The extraction of a property set *)
Section Extraction.
Context {I S U B : Type} `{EqDecision I, EqDecision S, EqDecision U, EqDecision B}.
#[local] Notation mem := (member I S U B).

(** What a member holds; NULL counts as the empty string, or list. *)
Definition member_value (m : mem) (x : members I S U B) : HalProperty :=
  match m with
  | MInt f => PInt32 (f_int x f)
  | MStr f => PString (default "" (f_str x f))
  | MU64 f => PUint64 (f_u64 x f)
  | MBool f => PBoolean (f_bool x f)
  | MBit b => PBoolean (negb (Z.land (f_bits x) b =? 0))
  | MList => PStrlist (default [] (f_list x))
  end.

Definition zero_value (m : mem) : HalProperty :=
  match m with
  | MInt _ => PInt32 0
  | MStr _ => PString ""
  | MU64 _ => PUint64 0
  | MBool _ | MBit _ => PBoolean false
  | MList => PStrlist []
  end.
(** The property of the device when it has the type of the member, and else
    zero, FALSE or empty. *)
Definition device_value (d : HalDevice) (key : string) (m : mem) : HalProperty :=
  match props d !! key with
  | Some p => if prop_type_code (hal_property_get_type p) =? member_type m then p else zero_value m
  | None => zero_value m
  end.

(** Writing one does not change the other. *)
Definition independent (m1 m2 : mem) : bool :=
  match m1, m2 with
  | MInt f, MInt g => negb (bool_decide (f = g))
  | MStr f, MStr g => negb (bool_decide (f = g))
  | MU64 f, MU64 g => negb (bool_decide (f = g))
  | MBool f, MBool g => negb (bool_decide (f = g))
  | MBit a, MBit b => Z.land a b =? 0
  | MList, MList => false
  | _, _ => true
  end.
Definition proper_member (m : mem) : bool := match m with MBit b => negb (b =? 0) | _ => true end.

Fixpoint table_ok (table : list (string * mem)) : bool :=
  match table with
  | [] => true
  | (k, m) :: rest =>
      proper_member m && forallb (fun e => negb (k =s? e.1) && independent m e.2 && independent e.2 m) rest && table_ok rest
  end.

Lemma table_ok_spec table k1 m1 k2 m2 :
  table_ok table = true -> (k1, m1) ∈ table -> (k2, m2) ∈ table ->
  proper_member m1 = true /\ (k1 = k2 /\ m1 = m2 \/ k1 <> k2 /\ independent m1 m2 = true).
Proof.
  revert k1 m1 k2 m2. induction table as [|[k m] table IH]; intros k1 m1 k2 m2 T; [by intros ?%not_elem_of_nil|]. simpl in T.
  apply andb_prop in T as [T T3]. apply andb_prop in T as [T1 T2]. rewrite forallb_forall in T2.
  assert (R : forall k' m', (k', m') ∈ table -> k <> k' /\ independent m m' = true /\ independent m' m = true).
  { intros k' m' Hin. specialize (T2 (k', m') (proj1 (list_elem_of_In _ _) Hin)). simpl in T2.
    apply andb_prop in T2 as [T2 ?]. apply andb_prop in T2 as [T2 ?].
    split_and!; try done. by apply negb_true_iff, bool_decide_eq_false in T2. }
  intros [E1|H1]%elem_of_cons [E2|H2]%elem_of_cons; simplify_eq.
  - split; [done | by left].
  - destruct (R _ _ H2) as (? & ? & ?). split; [done | by right].
  - destruct (R _ _ H1) as (? & ? & ?). split; [by apply (IH k1 m1 k1 m1) | right; by split; [apply not_eq_sym|]].
  - by apply IH.
Qed.

(** [q] is stored in [m]. *)
Lemma store_run m q p x :
  represents q p -> p_type q = member_type m -> proper_member m = true ->
  member_value m x = zero_value m ->
  exists x', store_member m (p_v q) x = Some x' /\ member_value m x' = p.
Proof.
  intros [Ht Hv] Hm Hp Z. rewrite Ht in Hm.
  destruct m as [f|f|f|f|b|], p as [s|z|z|b'|r|l]; try discriminate Hm; simpl in Hv; destruct (p_v q); try done; subst; simpl.
  - eexists. split; [done|]. simpl. unfold write. by rewrite decide_True.
  - eexists. split; [done|]. simpl. unfold write. rewrite decide_True by done. by destruct s.
  - eexists. split; [done|]. simpl. unfold write. by rewrite decide_True.
  - eexists. split; [done|]. simpl. unfold write. by rewrite decide_True.
  - eexists. split; [done|]. simpl. simpl in Z. injection Z as Z. apply negb_false_iff, Z.eqb_eq in Z. f_equal.
    rewrite Z.land_lor_distr_l, Z, Z.lor_0_l. destruct b'; [by rewrite Z.land_diag | by rewrite Z.land_0_l].
  - rewrite Hv. simpl. by eexists.
Qed.

Lemma store_other m m' v x x' :
  store_member m v x = Some x' -> independent m m' = true -> member_value m' x' = member_value m' x.
Proof.
  intros St Ind. destruct m as [f|f|f|f|b|], v; simpl in St; try discriminate St;
    try (destruct (strv _); simpl in St; [|discriminate St]); simplify_eq; destruct m' as [g|g|g|g|c|]; simpl in *; try done;
    try (apply negb_true_iff, bool_decide_eq_false in Ind; unfold write; by rewrite decide_False).
  apply Z.eqb_eq in Ind. destruct b0; [|by rewrite Z.lor_0_r].
  by rewrite Z.land_lor_distr_l, Ind, Z.lor_0_r.
Qed.

(** The type of a property is that of one member only. *)
Lemma extract_run table q p x :
  table_ok table = true -> represents q p ->
  (forall k m, (k, m) ∈ table -> k = p_key q -> member_value m x = zero_value m) ->
  exists x', extract table q x = Some x' /\
    forall k m, (k, m) ∈ table ->
      member_value m x' = if decide (k = p_key q /\ p_type q = member_type m) then p else member_value m x.
Proof.
  intros T Hr Z.
  assert (G : forall sub, (forall e, e ∈ sub -> e ∈ table) ->
    (exists k m x', (k, m) ∈ table /\ k = p_key q /\ p_type q = member_type m /\ extract sub q x = Some x' /\
       store_member m (p_v q) x = Some x' /\ member_value m x' = p) \/
    extract sub q x = Some x /\ forall k m, (k, m) ∈ sub -> ~ (k = p_key q /\ p_type q = member_type m)).
  { induction sub as [|[k m] sub IH]; intros Hs; simpl; [right; split; [done|]; by intros ? ? ?%not_elem_of_nil|].
    destruct ((p_key q =s? k) && (p_type q =? member_type m)) eqn:E.
    - apply andb_prop in E as [E1 E2]. apply bool_decide_eq_true in E1. apply Z.eqb_eq in E2.
      assert (Hin : (k, m) ∈ table) by (apply Hs, list_elem_of_here).
      destruct (table_ok_spec _ _ _ _ _ T Hin Hin) as [Hp _].
      destruct (store_run m q p x Hr E2 Hp) as (x' & Hst & Hv); [by apply (Z k)|].
      left. exists k, m, x'. by split_and!.
    - destruct IH as [(k' & m' & x' & ?)|[IH1 IH2]]; [intros; apply Hs; by apply list_elem_of_further | |].
      + left. by exists k', m', x'.
      + right. split; [done|]. intros k' m' [?|Hin]%elem_of_cons; [|by apply IH2]. simplify_eq.
        intros [-> E2]. rewrite E2, Z.eqb_refl, andb_true_r, bool_decide_eq_true_2 in E by done. done. }
  destruct (G table ltac:(done)) as [(k & m & x' & Hin & Hk & Ht & He & Hs & Hv)|[He Hn]].
  - exists x'. split; [done|]. intros k' m' Hin'. case_decide as Hd.
    + destruct (table_ok_spec _ _ _ _ _ T Hin Hin') as [_ [[_ ->]|[]]]; [done|]. destruct Hd. congruence.
    + destruct (table_ok_spec _ _ _ _ _ T Hin Hin') as [_ [[<- <-]|[_ Hi]]]; [by destruct Hd|].
      by eapply store_other.
  - exists x. split; [done|]. intros k' m' Hin'. rewrite decide_False; [done | by apply Hn].
Qed.

Lemma extract_all_run table set (P : string -> HalProperty) x :
  table_ok table = true -> NoDup (keys_of set) -> (forall q, q ∈ set -> represents q (P (p_key q))) ->
  (forall k m, (k, m) ∈ table -> k ∈ keys_of set -> member_value m x = zero_value m) ->
  exists x', extract_all table set x = Some x' /\
    forall k m, (k, m) ∈ table ->
      member_value m x' = if decide (k ∈ keys_of set /\ prop_type_code (hal_property_get_type (P k)) = member_type m)
                          then P k else member_value m x.
Proof.
  intros T. revert x. induction set as [|q set IH]; intros x N R Z; cbn [extract_all].
  - exists x. split; [done|]. intros k m _. rewrite decide_False; [done|]. by intros [?%not_elem_of_nil _].
  - unfold keys_of in N. simpl in N. apply NoDup_cons in N as [Nq N].
    assert (Rq : represents q (P (p_key q))) by (apply R, list_elem_of_here).
    destruct (extract_run table q (P (p_key q)) x T Rq) as (x1 & -> & V1).
    { intros k m Hin ->. by apply (Z _ _ Hin), list_elem_of_here. }
    destruct (IH x1 N) as (x2 & E2 & V2).
    { intros q' Hq'. by apply R, list_elem_of_further. }
    { intros k m Hin Hk. rewrite (V1 k m Hin), decide_False; [by apply (Z k); [|apply list_elem_of_further]|].
      intros [-> _]. by apply Nq. }
    exists x2. split; [done|]. intros k m Hin. rewrite (V2 k m Hin), (V1 k m Hin). destruct Rq as [Tq _].
    rewrite Tq. destruct (decide (k = p_key q)) as [->|Hk].
    + rewrite (decide_False (P := p_key q ∈ keys_of set /\ _)) by (intros [? _]; by apply Nq).
      apply decide_ext. split; [intros [_ ?] | intros [_ ?]]; split; try done. apply list_elem_of_here.
    + rewrite (decide_False (P := k = p_key q /\ _)) by (by intros [? _]). apply decide_ext.
      unfold keys_of. simpl. rewrite elem_of_cons. naive_solver.
Qed.

(** The members that a table fills from the property set of a device. *)
Lemma members_of_device table order d :
  table_ok table = true -> walks order d ->
  exists set x, get_property_set (Some (VDict (all_properties order d))) = Some set /\
    extract_all table set no_members = Some x /\
    forall k m, (k, m) ∈ table -> member_value m x = device_value d k m.
Proof.
  intros T W. destruct (property_set_of_device _ d W) as (set & Hs & Hn & Hk).
  set (P := fun k => default (PInt32 0) (props d !! k)).
  assert (R : forall q, q ∈ set -> is_Some (props d !! p_key q) /\ represents q (P (p_key q))).
  { intros q Hq. pose proof (lookup_unique set q Hn Hq) as L. specialize (Hk (p_key q)). unfold P.
    destruct (props d !! p_key q) as [p|]; [|congruence]. destruct Hk as (q' & L' & Hr).
    rewrite L in L'. simplify_eq. by split. }
  assert (M : forall m : mem, member_value m no_members = zero_value m) by (intros []; done).
  destruct (extract_all_run table set P no_members T Hn) as (x & Hx & V); [intros; by apply R | intros; apply M |].
  exists set, x. split_and!; [done..|]. intros k m Hin. rewrite (V k m Hin), M. unfold device_value, P.
  specialize (Hk k). destruct (props d !! k) as [p|] eqn:E; simpl.
  - destruct Hk as (q & [Hq <-]%lookup_in & _). case_decide as D.
    + destruct D as [_ ->]. by rewrite Z.eqb_refl.
    + destruct (_ =? _) eqn:Q; [|done]. apply Z.eqb_eq in Q. destruct D. split; [|done]. by apply list_elem_of_fmap_2.
  - rewrite decide_False; [done|]. intros [Hin' _]. by apply lookup_none in Hk.
Qed.

(** NULL and not the empty string. *)
Lemma store_no_empty (m : mem) v x x' :
  store_member m v x = Some x' -> (forall f, f_str x f <> Some "") -> forall f, f_str x' f <> Some "".
Proof.
  intros St N f. destruct m, v; simpl in St; try discriminate St;
    try (destruct (strv _); simpl in St; [|discriminate St]); simplify_eq; simpl; try done.
  unfold write. case_decide; [|done]. by destruct s.
Qed.

Lemma extract_no_empty (table : list (string * mem)) set x x' :
  extract_all table set x = Some x' -> (forall f, f_str x f <> Some "") -> forall f, f_str x' f <> Some "".
Proof.
  revert x. induction set as [|q set IH]; intros x; simpl; [by intros [= ->]|].
  destruct (extract table q x) as [x1|] eqn:E; simpl; [|done]. intros Ha N. apply (IH x1 Ha). clear Ha IH.
  induction table as [|[k m] table IH]; simpl in E; [by simplify_eq|].
  case_match; [by eapply store_no_empty | by apply IH].
Qed.
End Extraction.

Lemma drive_table_ok : table_ok drive_table = true.
Proof. vm_compute. reflexivity. Qed.
Lemma volume_table_ok : table_ok volume_table = true.
Proof. vm_compute. reflexivity. Qed.

(** The members of a structure hold the properties of the device, and no string
    is empty. *)
Definition mirrors {I S U B} `{EqDecision I, EqDecision S, EqDecision U, EqDecision B}
    (table : list (string * member I S U B)) (x : members I S U B) (d : HalDevice) : Prop :=
  (forall k m, (k, m) ∈ table -> member_value m x = device_value d k m) /\ (forall f, f_str x f <> Some "").

Lemma drive_of_mirrors ctx u x d : mirrors drive_table x d -> mirrors drive_table (drive_members (drive_of ctx u x)) d.
Proof.
  intros [M N]. split; [|exact N]. intros k m Hin. rewrite <- (M k m Hin). destruct m as [f|f|f|f|b|]; try done.
  unfold drive_of. cbn [drive_members]. case_bool_decide; [|done]. cbn [member_value f_bits].
  assert (B : forallb (fun e => match e.2 with MBit b => Z.land (LibHalDriveCdromCaps CDROM) b =? 0 | _ => true end)
                drive_table = true) by (vm_compute; reflexivity).
  rewrite forallb_forall in B. specialize (B _ (proj1 (list_elem_of_In _ _) Hin)). simpl in B. apply Z.eqb_eq in B.
  rewrite Z.land_lor_distr_l. simpl LibHalDriveCdromCaps. by rewrite B, Z.lor_0_r.
Qed.

(** A text member and the property it was filled from. *)
Lemma mirrored_string {I S U B} `{EqDecision I, EqDecision S, EqDecision U, EqDecision B}
    (table : list (string * member I S U B)) x d k f s :
  mirrors table x d -> (k, MStr f) ∈ table -> s <> "" -> f_str x f = Some s <-> props d !! k = Some (PString s).
Proof.
  intros [M N] Hin Hs. specialize (M _ _ Hin). specialize (N f). cbn [member_value device_value] in M.
  unfold device_value in M. destruct (props d !! k) as [[s'|z|z|b|r|l]|]; simpl in M; simplify_eq/=;
    destruct (f_str x f) as [t|]; simplify_eq/=; naive_solver.
Qed.

(** ** With the daemon at the other end *)
Section Daemon.
Context {P : Platform}.
Context (cfg : configuration) (ci_tracker_get_info : string -> option CICallerInfo) (geteuid : Z).
Context (connected initialising : bool) (property_order : HalDevice -> list string).
Context (osspec_device_rescan osspec_device_reprobe : nat -> hm bool).
Context (osspec_filter_function : DBusMessage -> hm hresult).
Context (hald_runner_start hald_runner_start_singleton : string -> bool).
Context (stack : list ascii) (rules : cache) (depth udi_fuel : nat) (tv_usec : Z).
Context (printf_g : double -> string) (g_basename : string -> string).
Context (ci_pid : string -> Z) (ci_selinux_context : string -> option string).
Context (polkit_result : HalDevice -> string -> string -> option string).
Context (name : nat -> string) (late : DBusMessage -> dbus_reply).

#[local] Notation dispatch :=
  (hald_dbus_filter_handle_methods cfg ci_tracker_get_info geteuid connected initialising property_order
     osspec_device_rescan osspec_device_reprobe osspec_filter_function hald_runner_start
     hald_runner_start_singleton stack rules depth udi_fuel tv_usec printf_g g_basename ci_pid
     ci_selinux_context polkit_result).
#[local] Notation send := (bus_send dispatch name late).

(** The capabilities of a device. *)
Definition capabilities (d : HalDevice) : list string :=
  match props d !! "info.capabilities" with Some (PStrlist l) => l | _ => [] end.

Lemma in_array_strv c b l : strv b = Some l -> in_array c b = bool_decide (c ∈ l).
Proof.
  revert l. induction b as [|[[s|]|] b IH]; intros l; simpl; [done| |intros [= <-]; done|done].
  destruct (strv b) as [l'|]; simpl; [|done]. intros [= <-]. rewrite (IH l') by done.
  destruct (decide (s = c)) as [->|Hc].
  - rewrite !bool_decide_eq_true_2; [done | apply list_elem_of_here | done].
  - rewrite (bool_decide_eq_false_2 (s = c)) by done. apply bool_decide_ext. rewrite elem_of_cons. naive_solver.
Qed.

Lemma query_capability_run ctx n u h id d cap :
  connection ctx = Some n -> has_prefix u "/org/freedesktop/Hal/devices/" = true ->
  find_by_udi (h_env h) u = Some (id, d) ->
  exists e, libhal_device_query_capability send (Some ctx) (Some u) (Some cap) h =
    inr ((bool_decide (cap ∈ capabilities d), e), h, []).
Proof.
  intros Hn Hu Hf. unfold libhal_device_query_capability.
  unfold on_property at 1, LIBHAL_CHECK_LIBHALCONTEXT, LIBHAL_CHECK_UDI_VALID, LIBHAL_CHECK_PARAM_VALID.
  rewrite Hu. cbn [negb]. unfold libhal_device_get_property_strlist.
  unfold hbind. rewrite (read_property cfg ci_tracker_get_info geteuid connected initialising property_order
    osspec_device_rescan osspec_device_reprobe osspec_filter_function hald_runner_start hald_runner_start_singleton
    stack rules depth udi_fuel tv_usec printf_g g_basename ci_pid ci_selinux_context polkit_result name late
    ctx n u "info.capabilities" h id d) by (done || (unfold getters; set_solver)).
  unfold capabilities. eexists.
  destruct (props d !! "info.capabilities") as [[| | | | |l]|]; try done.
  simpl. destruct (string_array_run l) as (b & -> & Hb & _). simpl. by rewrite (in_array_strv _ _ l Hb).
Qed.

Lemma type_of_capabilities_cdrom l t :
  type_of_capabilities l t = LIBHAL_DRIVE_TYPE_CDROM <->
  t = LIBHAL_DRIVE_TYPE_CDROM /\ "camera" ∉ l /\ "portable_audio_player" ∉ l.
Proof.
  induction l as [|c l IH]; simpl; [set_solver|]. rewrite !not_elem_of_cons.
  repeat case_bool_decide; [split; [done|]; naive_solver..|]. rewrite IH. naive_solver.
Qed.

Lemma type_of_text_cdrom text removable :
  type_of_text text removable = LIBHAL_DRIVE_TYPE_CDROM <-> text = Some "cdrom".
Proof.
  destruct text as [t|]; simpl; [|done]. case_bool_decide; [subst; by destruct removable|].
  unfold named, drive_types. cbn [find fst].
  repeat (case_bool_decide; [subst; by split; intros; simplify_eq/=|]). split; intros; simplify_eq/=.
Qed.

Lemma drive_is_cdrom ctx u x d :
  mirrors drive_table x d ->
  libhal_drive_get_type (drive_of ctx u x) = LIBHAL_DRIVE_TYPE_CDROM <->
  props d !! "storage.drive_type" = Some (PString "cdrom") /\
  "camera" ∉ capabilities d /\ "portable_audio_player" ∉ capabilities d.
Proof.
  intros M. rewrite <- (mirrored_string drive_table x d "storage.drive_type" drive_type_textual "cdrom" M);
    [|in_table|done].
  assert (L : default [] (f_list x) = capabilities d).
  { destruct M as [M _]. specialize (M "info.capabilities" MList ltac:(in_table)). unfold device_value in M.
    unfold capabilities. destruct (props d !! "info.capabilities") as [[]|]; simpl in M; by simplify_eq/=. }
  rewrite <- L. unfold libhal_drive_get_type, drive_of. cbn [drive_type].
  destruct (f_list x) as [l|]; cbn [default from_option id]; [rewrite type_of_capabilities_cdrom|];
    rewrite type_of_text_cdrom; set_solver.
Qed.

Lemma structure_run {X} ctx n u h id d cap {I S U B} `{EqDecision I, EqDecision S, EqDecision U, EqDecision B}
    (table : list (string * member I S U B)) (build : string -> members I S U B -> X) :
  connection ctx = Some n -> has_prefix u "/org/freedesktop/Hal/devices/" = true ->
  find_by_udi (h_env h) u = Some (id, d) -> walks property_order d -> table_ok table = true ->
  exists r, (let^ r := libhal_device_query_capability send (Some ctx) (Some u) (Some cap) in
             if negb r.1 then hret None
             else let^ r := libhal_device_get_all_properties send (Some ctx) (Some u) in
                  hret (properties ← r.1; u ← Some u; x ← extract_all table properties no_members; Some (build u x)))%hal h =
      inr (r, h, []) /\
    match r with
    | Some y => cap ∈ capabilities d /\ exists x, y = build u x /\ mirrors table x d
    | None => cap ∉ capabilities d
    end.
Proof.
  intros Hn Hu Hf Hw T. destruct (query_capability_run ctx n u h id d cap Hn Hu Hf) as (e & Hq).
  unfold hbind at 1. rewrite Hq. cbn [fst]. case_bool_decide as Hc; cbn [negb]; [|by exists None].
  destruct (members_of_device table _ d T Hw) as (set & x & Hs & Hx & M).
  unfold hbind. rewrite (get_all_properties_run cfg ci_tracker_get_info geteuid connected initialising property_order
    osspec_device_rescan osspec_device_reprobe osspec_filter_function hald_runner_start hald_runner_start_singleton
    stack rules depth udi_fuel tv_usec printf_g g_basename ci_pid ci_selinux_context polkit_result name late
    ctx n u h id d Hn Hu Hf), Hs. cbn. rewrite Hx. cbn. exists (Some (build u x)). split; [done|]. split; [done|].
  exists x. split; [done|]. split; [exact M|]. by eapply extract_no_empty.
Qed.

(** What the accessors of a volume return that are documented otherwise. *)
Lemma volume_accessors volume d :
  mirrors volume_table (vol_members volume) d ->
  (props d !! "volume.partition.msdos_part_table_type" = None -> libhal_volume_get_msdos_part_table_type volume = 0) /\
  (props d !! "volume.partition.msdos_part_table_start" = None -> libhal_volume_get_msdos_part_table_start volume = 0) /\
  (props d !! "volume.partition.msdos_part_table_size" = None -> libhal_volume_get_msdos_part_table_size volume = 0) /\
  (forall m, m <> "" -> libhal_volume_get_mount_point volume = Some m <-> props d !! "volume.mount_point" = Some (PString m)).
Proof.
  intros M. split_and!.
  4: { intros m Hm. apply (mirrored_string volume_table _ d _ vol_mount_point m M); [in_table | done]. }
  all: intros H.
  - assert (Hin : ("volume.partition.msdos_part_table_type", MInt vol_msdos_part_table_type) ∈ volume_table) by in_table.
    pose proof (proj1 M _ _ Hin) as E. unfold device_value in E. rewrite H in E. by injection E.
  - assert (Hin : ("volume.partition.msdos_part_table_start", MU64 vol_msdos_part_table_start) ∈ volume_table) by in_table.
    pose proof (proj1 M _ _ Hin) as E. unfold device_value in E. rewrite H in E. by injection E.
  - assert (Hin : ("volume.partition.msdos_part_table_size", MU64 vol_msdos_part_table_size) ∈ volume_table) by in_table.
    pose proof (proj1 M _ _ Hin) as E. unfold device_value in E. rewrite H in E. by injection E.
Qed.

End Daemon.

(** ** Icons *)
(** A policy is a map from icons to paths; the mappings of a list are entered
    one after the other. *)
Lemma lookup_icon_set policy icon path icon' :
  libhal_storage_policy_lookup_icon (libhal_storage_policy_set_icon_path policy icon path) icon' =
    if icon =? icon' then Some path else libhal_storage_policy_lookup_icon policy icon'.
Proof.
  unfold libhal_storage_policy_set_icon_path.
  destruct (replace_icon icon path policy) as [l|] eqn:E; [|done].
  revert l E. induction policy as [|[i p] policy IH]; intros l E; simpl in E; [done|].
  destruct (i =? icon) eqn:Ei.
  - simplify_eq. simpl. apply Z.eqb_eq in Ei as ->. by destruct (icon =? icon').
  - destruct (replace_icon icon path policy) as [l'|]; simpl in E; [|done]. simplify_eq. simpl. rewrite (IH l') by done.
    destruct (i =? icon') eqn:E1, (icon =? icon') eqn:E2; try done. lia.
Qed.

(** The icon of a magneto-optical disc and of a two-layer DVD-R are those of
    the discs that follow in the enumeration of the icons: MRW (0x30010) and
    MRW-W (0x30011). *)
Lemma disc_icons_disagree policy volume :
  libhal_volume_is_disc volume = true ->
  (libhal_volume_get_disc_type volume = LIBHAL_VOLUME_DISC_TYPE_MO ->
   libhal_volume_policy_compute_icon_name None volume policy = libhal_storage_policy_lookup_icon policy 0x30010) /\
  (libhal_volume_get_disc_type volume = 0x11 ->
   libhal_volume_policy_compute_icon_name None volume policy = libhal_storage_policy_lookup_icon policy 0x30011).
Proof. intros D. unfold libhal_volume_policy_compute_icon_name. rewrite D. by split; intros ->. Qed.

(** ** The volumes of a drive *)
Lemma copy_others_run u udis result n :
  (n + length (filter (fun x => x <> u) udis) <= length result)%nat ->
  exists b, copy_others u udis n result = Some (b, (n + length (filter (fun x => x <> u) udis))%nat) /\
    length b = length result /\ take n b = take n result /\
    take (length (filter (fun x => x <> u) udis)) (drop n b) = (fun x => Some (Some x)) <$> filter (fun x => x <> u) udis.
Proof.
  revert n result. induction udis as [|x udis IH]; intros n result L.
  - exists result. rewrite filter_nil. simpl. rewrite Nat.add_0_r. split_and!; done.
  - cbn [copy_others]. rewrite filter_cons in L |- *. destruct (decide (x <> u)) as [Hx|Hx].
    + rewrite bool_decide_eq_false_2 by done. simpl in L. unfold array_write. rewrite decide_True by lia. cbn [mbind option_bind].
      destruct (IH (S n) (<[n := Some (Some x)]> result)) as (b & E & Lb & T & D); [rewrite length_insert; lia|].
      rewrite length_insert in Lb. assert (Hn : b !! n = Some (Some (Some x))).
      { rewrite <- (lookup_take_lt b (S n)) by lia. rewrite T, lookup_take_lt by lia. apply list_lookup_insert_eq. lia. }
      exists b. split; [rewrite E; do 2 f_equal; simpl; lia|]. split; [done|]. split.
      * apply (f_equal (take n)) in T. rewrite !take_take, Nat.min_l in T by lia. rewrite T. apply take_insert_ge. lia.
      * rewrite (drop_S b (Some (Some x)) n Hn). simpl. by rewrite D.
    + rewrite bool_decide_eq_true_2 by (by apply dec_stable). by apply IH.
Qed.

(** The array of the volumes has room for one UDI less than were found: all is
    well exactly when the drive itself is among them, and else the terminator is
    written behind the array. *)
Lemma volumes_of_a_drive u udis :
  match volumes_among u udis with
  | Some (b, n) => u ∈ udis /\ strv b = Some (filter (fun x => x <> u) udis) /\
                   n = length (filter (fun x => x <> u) udis)
  | None => u ∉ udis
  end.
Proof.
  unfold volumes_among. pose proof (length_filter (fun x => x <> u) udis) as L.
  destruct (copy_others_run u udis (array_malloc (length udis)) 0) as (b & E & Lb & _ & D).
  { unfold array_malloc. rewrite length_replicate. simpl. lia. }
  rewrite E. cbn [mbind option_bind]. unfold array_malloc in Lb. rewrite length_replicate in Lb. simpl in *.
  set (vs := filter (fun x => x <> u) udis) in *.
  assert (Hu : (length vs < length udis)%nat <-> u ∈ udis).
  { unfold vs. clear. induction udis as [|x udis IH]; [simpl; split; [lia | by intros ?%not_elem_of_nil]|].
    rewrite filter_cons, elem_of_cons. pose proof (length_filter (fun x => x <> u) udis). case_decide as Hx; simpl.
    - rewrite <- Nat.succ_lt_mono, IH. split; [by right | intros [->|]; done].
    - split; [by left | lia]. }
  unfold array_write. case_decide as Hlt; rewrite Lb in Hlt; cbn [mbind option_bind]; [|by rewrite <- Hu].
  split_and!; [by apply Hu| |done]. clear E Hu L. revert D Hlt Lb. rewrite drop_0. generalize vs. clear.
  intros vs D Hlt Lb. assert (Hb : <[length vs := Some None]> b = ((fun x => Some (Some x)) <$> vs) ++ Some None :: drop (S (length vs)) b).
  { rewrite <- D. by rewrite insert_take_drop by lia. }
  rewrite Hb. generalize (drop (S (length vs)) b). clear. intros r. induction vs as [|v vs IH]; [done|]. csimpl. cbn [strv]. by rewrite IH.
Qed.

(** ** Visibility *)
Lemma visible_volumes volume target :
  libhal_volume_policy_should_be_visible volume target = true <->
  libhal_volume_get_fsusage volume = LIBHAL_VOLUME_USAGE_MOUNTABLE_FILESYSTEM /\
  (exists fstype, libhal_volume_get_fstype volume = Some fstype /\
     ~ (libhal_volume_get_label volume = Some "bootstrap" /\ fstype = "hfs")) /\
  forall m, (libhal_volume_get_mount_point volume = Some m \/
             libhal_volume_get_mount_point volume = None /\ target = Some m) -> m ∉ fhs23_toplevel_mount_points.
Proof.
  unfold libhal_volume_policy_should_be_visible. case_bool_decide as U; cbn [negb]; [|naive_solver].
  destruct (libhal_volume_get_fstype volume) as [t|]; [|naive_solver].
  set (mp := match libhal_volume_get_mount_point volume with Some m => Some m | None => target end).
  assert (M : match mp with Some m => existsb (fun p => m =s? p) fhs23_toplevel_mount_points | None => false end = false <->
    forall m, (libhal_volume_get_mount_point volume = Some m \/
               libhal_volume_get_mount_point volume = None /\ target = Some m) -> m ∉ fhs23_toplevel_mount_points).
  { assert (X : forall m, existsb (fun p => m =s? p) fhs23_toplevel_mount_points = false <-> m ∉ fhs23_toplevel_mount_points).
    { intros m. rewrite <- not_true_iff_false, existsb_exists. setoid_rewrite bool_decide_eq_true.
      setoid_rewrite <- list_elem_of_In. naive_solver. }
    unfold mp. destruct (libhal_volume_get_mount_point volume) as [m|]; [rewrite X; naive_solver|].
    destruct target as [m|]; [rewrite X|]; naive_solver. }
  destruct (match mp with Some m => _ | None => false end) eqn:E.
  - split; [done|]. intros (_ & _ & K). apply M in K. done.
  - destruct (libhal_volume_get_label volume) as [l|]; [|naive_solver].
    destruct (l =s? "bootstrap") eqn:E1, (t =s? "hfs") eqn:E2; cbn [andb];
      try apply bool_decide_eq_true in E1; try apply bool_decide_eq_true in E2;
      try apply bool_decide_eq_false in E1; try apply bool_decide_eq_false in E2; naive_solver.
Qed.

(** A disc of another kind in a magneto-optical drive: the name that is returned
    was never set. *)
Lemma name_never_set drive volume :
  libhal_volume_get_label volume = None -> libhal_drive_get_type drive = LIBHAL_DRIVE_TYPE_MO ->
  libhal_volume_policy_compute_display_name drive volume = None <->
  libhal_volume_get_disc_type volume <> LIBHAL_VOLUME_DISC_TYPE_MO.
Proof.
  intros L D. unfold libhal_volume_policy_compute_display_name. rewrite L, D. cbn.
  destruct (_ =? _) eqn:E; [apply Z.eqb_eq in E; naive_solver | apply Z.eqb_neq in E; naive_solver].
Qed.

Module Instances.
Import AsciiPlatform Example ChangeSetClaims.Instances.

End Instances.
