(* ===== verification/MountClaims.v ===== *)
(** * Mount options

    [mopts_collect] edits a text of options, with searches for substrings and a
    bounded buffer.  When no option is part of another one and all fit into the
    buffer, the text is the list of the options that are switched on: by the
    drive or volume itself or, where that says nothing, by the computer. *)

From Stdlib Require Import ZArith Lia Ascii SpecFloat.
From stdpp Require Import base list gmap strings option pretty fin_maps.
From S2P Require Import Prelude CStd Property Device DeviceTheory DeviceMerge DeviceStore FdiRules FdiInterp Locks AccessCheck AccessClaims Bus BusClaims Util Dbus DbusManager DbusDispatch DbusTheory Libhal LibhalCalls LibhalTheory LibhalClaims ChangeSetClaims Storage StorageClaims.

(** ** Texts with commas *)
Definition comma : ascii := ",".
Definition comma_free (s : string) : Prop := strchr s comma = false.

(** Every element behind a comma; the list with commas between. *)
Fixpoint after_commas (l : list string) : string :=
  match l with [] => "" | s :: rest => String comma (s +:+ after_commas rest) end.
Definition joined (l : list string) : string :=
  match l with [] => "" | s :: rest => s +:+ after_commas rest end.
(** Every element before a comma. *)
Fixpoint with_commas (l : list string) : string :=
  match l with [] => "" | s :: rest => s +:+ String comma (with_commas rest) end.

Lemma string_app_cons (s : string) c t u : (s +:+ String c t) +:+ u = s +:+ String c (t +:+ u).
Proof. by rewrite <- string_app_assoc. Qed.

Lemma joined_split pre s post : joined (pre ++ s :: post) = with_commas pre +:+ s +:+ after_commas post.
Proof.
  assert (A : forall pre p, p +:+ after_commas (pre ++ s :: post) =
    (p +:+ String comma (with_commas pre)) +:+ s +:+ after_commas post).
  { clear pre. induction pre as [|q pre IH]; intros p; simpl.
    - by rewrite string_app_cons.
    - rewrite string_app_cons. f_equal. simpl. f_equal. by rewrite IH. }
  destruct pre as [|p pre]; [done|]. simpl. by rewrite A.
Qed.

Lemma joined_with_commas pre post : post <> [] -> joined (pre ++ post) = with_commas pre +:+ joined post.
Proof. destruct post as [|s post]; [done|]. intros _. rewrite joined_split. done. Qed.

Lemma split_none hay needle : split_at_first hay needle = None <-> strstr hay needle = false.
Proof.
  induction hay as [|c h IH]; cbn [split_at_first strstr]; unfold has_prefix.
  - destruct (String.prefix needle ""); by split.
  - destruct (String.prefix needle (String c h)); [by split|]. cbn [orb]. rewrite <- IH.
    destruct (split_at_first h needle) as [[]|]; by split.
Qed.

(** A needle without a comma is found within one element. *)
Lemma prefix_before_comma a s t :
  comma_free a -> has_prefix (s +:+ String comma t) a = true -> has_prefix s a = true.
Proof.
  unfold has_prefix, comma_free. revert s. induction a as [|x a IH]; intros s Hc Hp; [by destruct s|].
  simpl in Hc. apply orb_false_iff in Hc as [Hx Hc]. apply bool_decide_eq_false in Hx.
  destruct s as [|y s]; simpl in Hp |- *.
  - case_match; [|done]. subst. done.
  - case_match; [|done]. by apply IH.
Qed.

Lemma split_element a s t :
  comma_free a -> strstr s a = false ->
  split_at_first (s +:+ String comma t) a =
    '(b, l) ← split_at_first t a; Some (s +:+ String comma b, l).
Proof.
  intros Hc. induction s as [|y s IH]; intros Hs; cbn [strstr] in Hs.
  - apply orb_false_iff in Hs as [Hp _]. fold (has_prefix "" a) in Hp.
    change ("" +:+ String comma t) with (String comma t). cbn [split_at_first].
    destruct (has_prefix (String comma t) a) eqn:Hp'; [|done].
    pose proof (prefix_before_comma a "" t Hc Hp'). congruence.
  - apply orb_false_iff in Hs as [Hp Hs]. fold (has_prefix (String y s) a) in Hp.
    change (String y s +:+ String comma t) with (String y (s +:+ String comma t)). cbn [split_at_first].
    destruct (has_prefix (String y (s +:+ String comma t)) a) eqn:Hp'.
    + pose proof (prefix_before_comma a (String y s) t Hc Hp'). congruence.
    + rewrite (IH Hs). destruct (split_at_first t a) as [[]|]; done.
Qed.

Lemma split_elements a pre t :
  comma_free a -> Forall (fun s => strstr s a = false) pre ->
  split_at_first (with_commas pre +:+ t) a = '(b, l) ← split_at_first t a; Some (with_commas pre +:+ b, l).
Proof.
  intros Hc. induction 1 as [|s pre Hs _ IH]; simpl.
  - change ("" +:+ t) with t. by destruct (split_at_first t a) as [[]|].
  - rewrite string_app_cons, (split_element a s) by done. rewrite IH. destruct (split_at_first t a) as [[]|]; simpl; [|done].
    by rewrite string_app_cons.
Qed.

Lemma split_here a t : split_at_first (a +:+ t) a = Some ("", a +:+ t).
Proof. destruct (a +:+ t) eqn:E; cbn [split_at_first]; by rewrite <- E, has_prefix_app. Qed.

(** Where an option of the list is, and that another one is nowhere. *)
Lemma split_joined a pre post :
  comma_free a -> Forall (fun s => strstr s a = false) pre ->
  split_at_first (joined (pre ++ a :: post)) a = Some (with_commas pre, a +:+ after_commas post).
Proof.
  intros Hc Hp. rewrite joined_split, (split_elements a pre) by done. rewrite split_here. simpl.
  by rewrite string_app_nil_r.
Qed.

Lemma strstr_joined a l :
  comma_free a -> a <> "" -> Forall (fun s => strstr s a = false) l -> strstr (joined l) a = false.
Proof.
  intros Hc Hn Hl. destruct (decide (l = [])) as [->|Hl'].
  - by destruct a.
  - destruct (exists_last Hl') as (pre & s & ->). apply Forall_app in Hl as [Hp Hs]. apply Forall_inv in Hs.
    rewrite joined_split. cbn [after_commas]. rewrite string_app_nil_r. apply split_none.
    rewrite (split_elements a pre) by done. apply split_none in Hs. by rewrite Hs.
Qed.

Lemma split_at_comma a post : comma_free a ->
  split_at_first (a +:+ after_commas post) "," =
    match post with [] => None | _ => Some (a, after_commas post) end.
Proof.
  intros Hc. induction a as [|c a IH].
  - destruct post as [|s post]; [reflexivity|]. exact (split_here "," (s +:+ after_commas post)).
  - unfold comma_free in Hc. simpl in Hc. apply orb_false_iff in Hc as [Hx Hc]. apply bool_decide_eq_false in Hx.
    change (String c a +:+ after_commas post) with (String c (a +:+ after_commas post)). cbn [split_at_first].
    assert (has_prefix (String c (a +:+ after_commas post)) "," = false) as ->.
    { unfold has_prefix. cbn [String.prefix]. destruct (ascii_dec "," c) as [<-|]; [by destruct Hx | done]. }
    rewrite (IH Hc). by destruct post.
Qed.

(** ** One option *)
(** Names that can be told apart in a text. *)
Record separate (F : list string) : Prop := mk_separate {
  sep_nonempty a : a ∈ F -> a <> "";
  sep_comma a : a ∈ F -> comma_free a;
  sep_part a b : a ∈ F -> b ∈ F -> strstr b a = true -> a = b;
}.

(** The elements of a text: options, each once, and empty ones that a removal
    at the end left. *)
Record option_list (F l : list string) : Prop := mk_option_list {
  ol_known s : s ∈ l -> s = "" \/ s ∈ F;
  ol_nodup : NoDup (filter (fun s => s <> "") l);
  ol_start : l <> [""];
}.

Lemma ol_once F l pre s post : option_list F l -> l = pre ++ s :: post -> s <> "" -> s ∉ pre /\ s ∉ post.
Proof.
  intros [_ N _] -> Hs. rewrite filter_app, filter_cons_True in N by done. apply NoDup_app in N as (_ & N1 & N2).
  apply NoDup_cons in N2 as [N2 _]. split; intros Hin.
  - apply (N1 s); [by apply list_elem_of_filter | apply list_elem_of_here].
  - apply N2. by apply list_elem_of_filter.
Qed.

Lemma others_lack F l a :
  separate F -> (forall s, s ∈ l -> s = "" \/ s ∈ F) -> a ∈ F -> a ∉ l -> Forall (fun s => strstr s a = false) l.
Proof.
  intros [S1 S2 S3] L Ha Hl. apply Forall_forall. intros s Hs. destruct (strstr s a) eqn:E; [|done].
  destruct (L s Hs) as [->|Hs']; [|by rewrite (S3 a s Ha Hs' E) in Hl].
  apply strstr_spec in E as (x & y & E). apply (f_equal String.length) in E. rewrite !string_length_app in E.
  destruct a; [by apply (S1 "") in Ha | simpl in E; lia].
Qed.

Definition add_to (a : string) (l : list string) : list string := if decide (a ∈ l) then l else l ++ [a].
(** Behind the last element the comma stays. *)
Fixpoint without (a : string) (l : list string) : list string :=
  match l with
  | [] => []
  | s :: rest => if decide (s = a) then match rest with [] => [""] | _ => rest end else s :: without a rest
  end.
Definition remove_from (a : string) (l : list string) : list string :=
  if decide (without a l = [""]) then [] else without a l.

Lemma strcat_fits dst src max :
  (String.length dst + String.length src < max)%nat -> strcat_len dst src max = dst +:+ src.
Proof. intros H. unfold strcat_len. rewrite str_take_all; [done|lia]. Qed.

Lemma joined_empty F l : separate F -> option_list F l -> joined l = "" -> l = [].
Proof.
  intros [S1 _ _] [L1 _ L3] E. destruct l as [|s [|t l]]; [done| |].
  - simpl in E. rewrite string_app_nil_r in E. by subst.
  - simpl in E. apply (f_equal String.length) in E. rewrite string_length_app in E. simpl in E. lia.
Qed.

Lemma joined_snoc l a : l <> [] -> joined (l ++ [a]) = joined l +:+ "," +:+ a.
Proof.
  destruct l as [|s l]; [done|]. intros _. simpl. rewrite <- string_app_assoc. f_equal.
  induction l as [|t l IH]; simpl; [by rewrite string_app_nil_r|]. f_equal. rewrite IH. by rewrite string_app_assoc.
Qed.

Lemma add_option_run F l a max :
  separate F -> option_list F l -> a ∈ F -> (String.length (joined l) + String.length a + 1 < max)%nat ->
  add_option a (joined l) max = joined (add_to a l).
Proof.
  intros S L Ha Hmax. unfold add_option, add_to. case_decide as Hl.
  - assert (strstr (joined l) a = true) as ->; [|done]. apply list_elem_of_split in Hl as (pre & post & ->).
    rewrite joined_split. apply strstr_spec. by eexists _, _.
  - rewrite strstr_joined; [|by apply S|by apply S|by apply (others_lack F); [|apply L| |]].
    destruct (decide (l = [])) as [->|Hne].
    + simpl joined. cbn [String.length]. change (0 <? Z.of_nat 0) with false. cbv iota.
      rewrite strcat_fits by (simpl in *; lia). by rewrite string_app_nil_r.
    + assert (joined l <> "") as Hj by (intros E; by apply Hne, (joined_empty F)).
      replace (0 <? Z.of_nat (String.length (joined l))) with true by (symmetry; apply Z.ltb_lt; destruct (joined l); [done | simpl; lia]).
      cbv iota. rewrite (strcat_fits (joined l)) by (simpl; lia).
      rewrite strcat_fits by (rewrite string_length_app; simpl; lia). rewrite joined_snoc by done.
      by rewrite string_app_assoc.
Qed.

Lemma without_split a pre post :
  a ∉ pre -> without a (pre ++ a :: post) = pre ++ match post with [] => [""] | _ => post end.
Proof.
  intros Hp. induction pre as [|s pre IH]; simpl; [by rewrite decide_True by done|].
  rewrite decide_False by set_solver. by rewrite IH by set_solver.
Qed.
Lemma without_absent a l : a ∉ l -> without a l = l.
Proof.
  induction l as [|s l IH]; intros Ha; [done|]. simpl. rewrite decide_False by set_solver. by rewrite IH by set_solver.
Qed.

Lemma remove_option_run F l a :
  separate F -> option_list F l -> a ∈ F -> remove_option a (joined l) = joined (remove_from a l).
Proof.
  intros S L Ha. unfold remove_option, remove_from. destruct (decide (a ∈ l)) as [Hl|Hl].
  - apply list_elem_of_split in Hl as (pre & post & ->).
    destruct (ol_once _ _ pre a post L eq_refl) as [Hpre Hpost]; [by apply S|].
    assert (Hp : Forall (fun s => strstr s a = false) pre).
    { apply (others_lack F); [done| |done|done]. intros s Hs. apply L. set_solver. }
    rewrite split_joined by (done || by apply S). rewrite split_at_comma by (by apply S). rewrite without_split by done.
    destruct post as [|t post].
    + case_decide as E.
      * by destruct pre as [|? []].
      * rewrite joined_split. simpl. by rewrite !string_app_nil_r.
    + change (str_drop 1 (after_commas (t :: post))) with (str_drop (String.length ",") ("," +:+ joined (t :: post))).
      rewrite str_drop_app, <- joined_with_commas by done. case_decide as E; [|done].
      destruct pre as [|? []]; [|done..]. simpl in E. by rewrite E.
  - rewrite (proj2 (split_none _ _)); [|apply strstr_joined; [by apply S|by apply S|by apply (others_lack F); [|apply L| |]]].
    rewrite without_absent by done. rewrite decide_False by apply L. done.
Qed.

Lemma without_filter a l :
  filter (fun s => s <> "") (without a l) `sublist_of` filter (fun s => s <> "") l.
Proof.
  induction l as [|s l IH]; cbn [without]; [done|]. case_decide as E.
  - destruct l as [|t l]; [rewrite filter_cons_False by auto; apply sublist_nil_l|].
    rewrite (filter_cons _ s). case_decide; [by apply sublist_cons | done].
  - rewrite !(filter_cons _ s). case_decide; [by apply sublist_skip | done].
Qed.

Lemma without_elem F a l o :
  option_list F l -> o <> "" -> a <> "" -> o ∈ without a l <-> o ∈ l /\ o <> a.
Proof.
  intros L Ho Ha. destruct (decide (a ∈ l)) as [Hl|Hl]; [|rewrite without_absent by done; set_solver].
  apply list_elem_of_split in Hl as (pre & post & ->).
  destruct (ol_once _ _ pre a post L eq_refl Ha) as [Hp Hq]. rewrite without_split by done.
  rewrite !elem_of_app, elem_of_cons. destruct post; set_solver.
Qed.

Lemma remove_elem F a l o :
  option_list F l -> o <> "" -> a <> "" -> o ∈ remove_from a l <-> o ∈ l /\ o <> a.
Proof.
  intros L Ho Ha. rewrite <- (without_elem F a l o L Ho Ha). unfold remove_from. case_decide as E; [|done].
  rewrite E. set_solver.
Qed.

Lemma add_elem a l o : o ∈ add_to a l <-> o ∈ l \/ o = a.
Proof. unfold add_to. case_decide; set_solver. Qed.

Lemma add_list F a l : separate F -> option_list F l -> a ∈ F -> option_list F (add_to a l).
Proof.
  intros S [L1 L2 L3] Ha. unfold add_to. case_decide as Hl; [done|]. split.
  - intros s [Hs|Hs]%elem_of_app; [by apply L1|]. apply list_elem_of_singleton in Hs as ->. by right.
  - rewrite filter_app, NoDup_app. split_and!; [done| |].
    + intros x [_ Hx]%list_elem_of_filter [_ Hx']%list_elem_of_filter. apply list_elem_of_singleton in Hx' as ->. done.
    + apply NoDup_filter, NoDup_singleton.
  - intros E. destruct l as [|? []]; simplify_eq/=. by apply (sep_nonempty _ S "") in Ha.
Qed.

Lemma without_known a l s : s ∈ without a l -> s = "" \/ s ∈ l.
Proof.
  induction l as [|t l IH]; cbn [without]; [by intros ?%not_elem_of_nil|]. case_decide as E.
  - destruct l; set_solver.
  - intros [->|Hs]%elem_of_cons; set_solver.
Qed.

Lemma remove_list F a l : option_list F l -> option_list F (remove_from a l).
Proof.
  intros [L1 L2 L3]. unfold remove_from. case_decide as E; [by split; [set_solver | constructor | done]|]. split.
  - intros s [->|Hs]%without_known; [by left | by apply L1].
  - eapply sublist_NoDup; [exact L2 | apply without_filter].
  - done.
Qed.

(** ** Sequences of settings *)
Notation setting := (string * bool)%type.
Definition edit (max : nat) (text : string) (op : setting) : string :=
  if op.2 then add_option op.1 text max else remove_option op.1 text.
Definition apply_setting (l : list string) (op : setting) : list string :=
  if op.2 then add_to op.1 l else remove_from op.1 l.
Fixpoint total_length (ops : list setting) : nat :=
  match ops with [] => 0 | op :: rest => S (String.length op.1) + total_length rest end.
(** The last setting of an option. *)
Fixpoint last_setting (o : string) (ops : list setting) : option bool :=
  match ops with
  | [] => None
  | op :: rest => match last_setting o rest with Some b => Some b | None => if decide (op.1 = o) then Some op.2 else None end
  end.

Lemma split_at_first_app h n a b : split_at_first h n = Some (a, b) -> h = a +:+ b.
Proof.
  revert a. induction h as [|c h IH]; intros a; cbn [split_at_first].
  - destruct (has_prefix "" n); [by intros [= <- <-] | done].
  - destruct (has_prefix (String c h) n); [by intros [= <- <-]|].
    destruct (split_at_first h n) as [[x y]|]; simpl; [|done]. intros [= <- <-].
    change (String c h = String c (x +:+ y)). f_equal. by apply IH.
Qed.

Lemma remove_option_length a t : (String.length (remove_option a t) <= String.length t)%nat.
Proof.
  unfold remove_option. destruct (split_at_first t a) as [[x y]|] eqn:E; [|done].
  apply split_at_first_app in E as ->. destruct (split_at_first y ",") as [[u v]|] eqn:E'; rewrite !string_length_app; [|lia].
  apply split_at_first_app in E' as ->. rewrite str_drop_length, string_length_app. lia.
Qed.

Lemma add_option_length a t max : (String.length (add_option a t max) <= String.length t + S (String.length a))%nat.
Proof.
  unfold add_option, strcat_len. destruct (strstr t a); [lia|].
  destruct (_ <? _); rewrite !string_length_app, !str_take_length; simpl String.length; lia.
Qed.

Lemma edits_run F ops l max :
  separate F -> option_list F l -> Forall (fun op => op.1 ∈ F) ops ->
  (String.length (joined l) + total_length ops < max)%nat ->
  foldl (edit max) (joined l) ops = joined (foldl apply_setting l ops) /\ option_list F (foldl apply_setting l ops).
Proof.
  intros S L Hf. revert l L. induction Hf as [|[a b] ops Ha _ IH]; intros l L Hm; [done|]. simpl in Ha |- *.
  cbn [total_length fst] in Hm. unfold edit at 2, apply_setting at 2 4. cbn [fst snd].
  destruct b.
  - rewrite (add_option_run F l a max) by (done || lia).
    apply IH; [by apply add_list|]. rewrite <- (add_option_run F l a max) by (done || lia).
    pose proof (add_option_length a (joined l) max). lia.
  - rewrite (remove_option_run F l a) by done. apply IH; [by apply remove_list|].
    rewrite <- (remove_option_run F l a) by done. pose proof (remove_option_length a (joined l)). lia.
Qed.

Lemma settings_elem F ops l o :
  separate F -> option_list F l -> Forall (fun op => op.1 ∈ F) ops -> o <> "" ->
  o ∈ foldl apply_setting l ops <-> match last_setting o ops with Some b => b = true | None => o ∈ l end.
Proof.
  intros S L Hf Ho. revert l L. induction Hf as [|[a b] ops Ha _ IH]; intros l L; [done|]. simpl in Ha |- *.
  unfold apply_setting at 2. cbn [fst snd]. assert (a <> "") as Hne by (by apply S).
  rewrite IH; [|by destruct b; [apply add_list | apply remove_list]].
  destruct (last_setting o ops) as [b'|]; [done|]. destruct b.
  - rewrite add_elem. case_decide; naive_solver.
  - rewrite (remove_elem F) by done. case_decide; naive_solver.
Qed.

(** *** Options that imply others come first *)
Definition ordered (l : list string) : Prop :=
  exists first rest, l = first ++ rest /\ (forall s, s ∈ first -> s = "" \/ implies_options s = true) /\
    (forall s, s ∈ rest -> s = "" \/ implies_options s = false).

Lemma without_app a l l' : a ∉ l -> a ∈ l' -> without a (l ++ l') = l ++ without a l'.
Proof.
  intros Hl Hl'. induction l as [|s l IH]; [done|]. simpl. rewrite decide_False by set_solver. by rewrite IH by set_solver.
Qed.

Lemma implied_settings ops l :
  Forall (fun op => implies_options op.1 = true) ops -> (forall s, s ∈ l -> s = "" \/ implies_options s = true) ->
  forall s, s ∈ foldl apply_setting l ops -> s = "" \/ implies_options s = true.
Proof.
  intros Hf. revert l. induction Hf as [|[a b] ops Ha _ IH]; intros l Hl; [done|]. simpl. apply IH.
  intros s. unfold apply_setting. cbn [fst snd] in *. destruct b.
  - rewrite add_elem. naive_solver.
  - unfold remove_from. case_decide; [by intros ?%not_elem_of_nil|]. intros [?|Hs]%without_known; naive_solver.
Qed.

Lemma other_settings ops l :
  Forall (fun op => op.1 <> "" /\ implies_options op.1 = false) ops -> ordered l -> ordered (foldl apply_setting l ops).
Proof.
  intros Hf. revert l. induction Hf as [|[a b] ops [Hne Ha] _ IH]; intros l Hl; [done|]. simpl. apply IH.
  destruct Hl as (first & rest & -> & H1 & H2). unfold apply_setting. cbn [fst snd] in *.
  assert (Hn : a ∉ first) by (intros Hin; destruct (H1 a Hin); congruence). destruct b.
  - unfold add_to. case_decide; [by exists first, rest|]. exists first, (rest ++ [a]). rewrite app_assoc. split_and!; [done..|].
    intros s [Hs|Hs]%elem_of_app; [by apply H2|]. apply list_elem_of_singleton in Hs as ->. by right.
  - unfold remove_from. case_decide; [exists [], []; set_solver|].
    destruct (decide (a ∈ rest)) as [Hr|Hr].
    + exists first, (without a rest). rewrite without_app by done. split_and!; [done..|].
      intros s [?|Hs]%without_known; [by left | by apply H2].
    + rewrite without_absent by set_solver. by exists first, rest.
Qed.

(** ** The settings of a device *)
Definition settings (ns : string) (order : HalDevice -> list string) (d : HalDevice) : list setting :=
  omap (fun k => if has_prefix k ns
                 then match props d !! k with Some (PBoolean b) => Some (str_drop (String.length ns) k, b) | _ => None end
                 else None) (order d).
Definition option_setting (ns : string) (d : HalDevice) (o : string) : option bool :=
  match props d !! (ns +:+ o) with Some (PBoolean b) => Some b | _ => None end.

Lemma set_in_order order d :
  walks order d ->
  exists set, get_property_set (Some (VDict (all_properties order d))) = Some set /\
    Forall2 (fun k q => p_key q = k /\ exists p, props d !! k = Some p /\ represents q p) (order d) set.
Proof.
  intros [Hn Hw]. rewrite all_properties_eq. set (kps := omap _ (order d)).
  destruct (add_properties_run kps []) as (qs & Ha & Hf). exists qs. split; [exact Ha|].
  assert (Hall : Forall (fun k => is_Some (props d !! k)) (order d)) by (apply Forall_forall; intros; by apply Hw).
  unfold kps in Hf. clear -Hf Hall. revert qs Hf. induction Hall as [|k ks [p Hp] _ IH]; intros qs Hf; csimpl in Hf.
  - inversion Hf. constructor.
  - rewrite Hp in Hf. csimpl in Hf. inversion Hf as [|? q ? qs' [Hk Hr] Hf']; subst. constructor; [|by apply IH].
    split; [done|]. by exists p.
Qed.

Lemma collect_run ns max only order d set text :
  Forall2 (fun k q => p_key q = k /\ exists p, props d !! k = Some p /\ represents q p) (order d) set ->
  collect_options ns max only set text =
    Some (foldl (edit max) text (filter (fun op => implies_options op.1 = only) (settings ns order d))).
Proof.
  unfold settings. intros Hf. revert text. induction Hf as [|k q ks set [Hk (p & Hp & Ht & Hv)] _ IH]; intros text; [done|].
  cbn [collect_options]. unfold collect_option at 1. rewrite Hk, Ht. csimpl. rewrite Hp.
  destruct (has_prefix k ns); [|rewrite andb_false_r; csimpl; by rewrite IH]. rewrite andb_true_r.
  destruct p as [s|z|z|b|x|l];
    try (change (_ =? LIBHAL_PROPERTY_TYPE_BOOLEAN) with false; exact (IH text)). simpl in Hv. destruct (p_v q); try done. subst.
  change (prop_type_code (hal_property_get_type (PBoolean b)) =? LIBHAL_PROPERTY_TYPE_BOOLEAN) with true. cbv iota.
  rewrite filter_cons. cbn [fst]. set (o := str_drop (String.length ns) (p_key q)). cbn [as_bool].
  destruct (decide (implies_options o = only)) as [<-|Hi].
  - rewrite eqb_reflx. csimpl. rewrite IH. destruct b; done.
  - rewrite (proj2 (eqb_false_iff _ _)) by congruence. csimpl. by rewrite IH.
Qed.

Lemma last_setting_elem o ops b : last_setting o ops = Some b -> (o, b) ∈ ops.
Proof.
  induction ops as [|[a c] ops IH]; simpl; [done|]. destruct (last_setting o ops) as [b'|].
  - intros [= ->]. apply list_elem_of_further. by apply IH.
  - case_decide; [|done]. subst. intros [= ->]. apply list_elem_of_here.
Qed.
Lemma last_setting_none o ops b : last_setting o ops = None -> (o, b) ∉ ops.
Proof.
  induction ops as [|[a c] ops IH]; simpl; [intros _; apply not_elem_of_nil|].
  destruct (last_setting o ops) as [b'|]; [done|]. case_decide; [done|].
  intros _ [?|Hin]%elem_of_cons; [by simplify_eq | by apply IH].
Qed.

Lemma settings_lookup ns order d o : walks order d -> last_setting o (settings ns order d) = option_setting ns d o.
Proof.
  intros [_ Hw].
  assert (E : forall b, (o, b) ∈ settings ns order d <-> props d !! (ns +:+ o) = Some (PBoolean b)).
  { intros b. unfold settings. rewrite list_elem_of_omap. split.
    - intros (k & _ & Hk). destruct (has_prefix k ns) eqn:Hp; [|done]. apply has_prefix_spec in Hp as [r ->].
      rewrite str_drop_app in Hk. destruct (props d !! _) as [[]|] eqn:Ed; simplify_eq/=. done.
    - intros Hp. exists (ns +:+ o). rewrite Hp, has_prefix_app, str_drop_app. split; [apply Hw; by eexists | done]. }
  unfold option_setting. destruct (last_setting o _) as [b|] eqn:L.
  - apply last_setting_elem, E in L. by rewrite L.
  - destruct (props d !! (ns +:+ o)) as [[| | |b| |]|]; try done. destruct (last_setting_none _ _ b L). by apply E.
Qed.

Lemma last_setting_app o a b :
  last_setting o (a ++ b) = match last_setting o b with Some x => Some x | None => last_setting o a end.
Proof. induction a as [|op a IH]; simpl; [by destruct (last_setting o b)|]. rewrite IH. by destruct (last_setting o b). Qed.

Lemma last_setting_filter o only ops :
  last_setting o (filter (fun op => implies_options op.1 = only) ops) =
    if decide (implies_options o = only) then last_setting o ops else None.
Proof.
  induction ops as [|[a b] ops IH]; [by case_decide|]. rewrite filter_cons. cbn [fst].
  destruct (decide (implies_options a = only)) as [Ha|Ha]; cbn [last_setting fst snd]; rewrite IH;
    destruct (decide (implies_options o = only)) as [Ho|Ho]; try done; rewrite decide_False by congruence; [done|].
  by destruct (last_setting o ops).
Qed.

Lemma total_length_app a b : total_length (a ++ b) = (total_length a + total_length b)%nat.
Proof. induction a as [|op a IH]; simpl; [done|]. rewrite IH. lia. Qed.
Lemma total_length_filter only ops :
  (total_length (filter (fun op => implies_options op.1 = only) ops) +
   total_length (filter (fun op => implies_options op.1 = negb only) ops) <= total_length ops)%nat.
Proof.
  induction ops as [|[a b] ops IH]; [done|]. rewrite !filter_cons. cbn [fst].
  destruct (implies_options a), only; simpl in *; lia.
Qed.

(** ** With the daemon at the other end *)
Section Daemon.
Context {P : Platform}.
Context (cfg : configuration) (ci_tracker_get_info : string -> option CICallerInfo) (geteuid : Z).
Context (connected initialising : bool) (property_order : HalDevice -> list string).
Context (osspec_device_rescan osspec_device_reprobe : nat -> hm bool).
Context (osspec_filter_function : DBusMessage -> hm hresult).
Context (hald_runner_start hald_runner_start_singleton : string -> bool).
Context (stack : list ascii) (rules : cache) (depth udi_fuel : nat) (tv_usec : Z).
Context (printf_g : double -> string) (g_basename : string -> string).
Context (ci_pid : string -> Z) (ci_selinux_context : string -> option string).
Context (polkit_result : HalDevice -> string -> string -> option string).
Context (name : nat -> string) (late : DBusMessage -> dbus_reply).

#[local] Notation dispatch :=
  (hald_dbus_filter_handle_methods cfg ci_tracker_get_info geteuid connected initialising property_order
     osspec_device_rescan osspec_device_reprobe osspec_filter_function hald_runner_start
     hald_runner_start_singleton stack rules depth udi_fuel tv_usec printf_g g_basename ci_pid
     ci_selinux_context polkit_result).
#[local] Notation send := (bus_send dispatch name late).


(** The four walks over two property sets. *)
Definition collected (ns : string) (d computer : HalDevice) : list setting :=
  let only imply l := filter (fun op : setting => implies_options op.1 = imply) l in
  let theirs := settings DEFAULT_OPTION property_order computer in
  let ours := settings ns property_order d in
  only true theirs ++ only true ours ++ only false theirs ++ only false ours.

Lemma mopts_run ctx n u h id d ns text max only :
  connection ctx = Some n -> has_prefix u "/org/freedesktop/Hal/devices/" = true ->
  find_by_udi (h_env h) u = Some (id, d) -> walks property_order d ->
  mopts_collect send ctx ns u text max only h =
    inr (Some (foldl (edit max) text (filter (fun op => implies_options op.1 = only) (settings ns property_order d))), h, []).
Proof.
  intros Hn Hu Hf Hw. destruct (set_in_order _ d Hw) as (set & Hs & Hset). unfold mopts_collect, hbind.
  rewrite (get_all_properties_run cfg ci_tracker_get_info geteuid connected initialising property_order
    osspec_device_rescan osspec_device_reprobe osspec_filter_function hald_runner_start hald_runner_start_singleton
    stack rules depth udi_fuel tv_usec printf_g g_basename ci_pid ci_selinux_context polkit_result name late
    ctx n u h id d Hn Hu Hf), Hs. cbn [fst]. by rewrite (collect_run ns max only property_order d set text Hset).
Qed.

Lemma mount_options_run ctx n u h id d idc computer ns :
  connection ctx = Some n -> has_prefix u "/org/freedesktop/Hal/devices/" = true ->
  find_by_udi (h_env h) u = Some (id, d) -> walks property_order d ->
  find_by_udi (h_env h) COMPUTER = Some (idc, computer) -> walks property_order computer ->
  mount_options_of send ctx ns u h = inr (Some (foldl (edit MOUNT_OPTIONS_SIZE) "" (collected ns d computer)), h, []).
Proof.
  intros Hn Hu Hf Hw Hfc Hwc. unfold mount_options_of, then_collect.
  unfold hbind. rewrite (mopts_run ctx n COMPUTER h idc computer) by done.
  rewrite (mopts_run ctx n u h id d) by done. rewrite (mopts_run ctx n COMPUTER h idc computer) by done.
  rewrite (mopts_run ctx n u h id d) by done. unfold collected. by rewrite !foldl_app.
Qed.

(** The option is on: the device says so or, if it says nothing, the computer. *)
Definition option_on (ns : string) (d computer : HalDevice) (o : string) : Prop :=
  default (default false (option_setting DEFAULT_OPTION computer o)) (option_setting ns d o) = true.

Lemma collected_options ns d computer :
  walks property_order d -> walks property_order computer ->
  let all := settings DEFAULT_OPTION property_order computer ++ settings ns property_order d in
  separate (all.*1) -> (total_length all < MOUNT_OPTIONS_SIZE)%nat ->
  exists l, foldl (edit MOUNT_OPTIONS_SIZE) "" (collected ns d computer) = joined l /\ option_list (all.*1) l /\ ordered l /\
    forall o, o <> "" -> o ∈ l <-> option_on ns d computer o.
Proof.
  intros Hw Hwc all S T. set (F := all.*1) in *.
  assert (Hin : Forall (fun op => op.1 ∈ F) (collected ns d computer)).
  { apply Forall_forall. intros op. unfold collected. rewrite !elem_of_app, !list_elem_of_filter. unfold F, all.
    intros Hop. apply list_elem_of_fmap_2. rewrite elem_of_app. tauto. }
  assert (L0 : option_list F []) by (split; [set_solver | constructor | done]).
  assert (Hlen : (total_length (collected ns d computer) <= total_length all)%nat).
  { unfold collected, all. rewrite !total_length_app.
    pose proof (total_length_filter true (settings DEFAULT_OPTION property_order computer)).
    pose proof (total_length_filter true (settings ns property_order d)). simpl negb in *. lia. }
  destruct (edits_run F (collected ns d computer) [] MOUNT_OPTIONS_SIZE S L0 Hin) as [E L]; [simpl; lia|].
  eexists. split; [exact E|]. split; [done|]. split.
  - unfold collected. rewrite (app_assoc (filter _ _)), foldl_app. apply other_settings.
    + apply Forall_forall. intros op. rewrite elem_of_app, !list_elem_of_filter. intros Hop.
      split; [|naive_solver]. apply S. unfold F, all. apply list_elem_of_fmap_2. rewrite elem_of_app. tauto.
    + eexists _, []. rewrite app_nil_r. split_and!; [done| |set_solver].
      apply implied_settings; [|set_solver]. apply Forall_forall. intros op. rewrite elem_of_app, !list_elem_of_filter. naive_solver.
  - intros o Ho. rewrite (settings_elem F) by done. unfold collected. rewrite !last_setting_app, !last_setting_filter.
    rewrite !settings_lookup by done. unfold option_on.
    destruct (implies_options o); cbn; destruct (option_setting ns d o) as [[]|], (option_setting DEFAULT_OPTION computer o) as [[]|];
      cbn; split; try done; by intros ?%not_elem_of_nil.
Qed.

(** Mount options: when the options that a volume and the computer mention
    can be told apart in a text (none is part of another one, none has a comma
    or is empty) and fit together into the buffer, the text that
    libhal_volume_policy_get_mount_options returns is a list, separated by
    commas, of exactly the options that are switched on by the volume or, where
    it says nothing, by the computer, each once; those that imply others ("user"
    and the like) come first.  (A removed option at the end may leave an empty
    element.)  The daemon does not change. *)
Lemma mount_options_are_those_switched_on ctx n drive volume h id d idc computer :
  let ns := "volume.policy.mount_option." in
  let all := settings DEFAULT_OPTION property_order computer ++ settings ns property_order d in
  drive_ctx drive = ctx -> connection ctx = Some n ->
  has_prefix (libhal_volume_get_udi volume) "/org/freedesktop/Hal/devices/" = true ->
  find_by_udi (h_env h) (libhal_volume_get_udi volume) = Some (id, d) -> walks property_order d ->
  find_by_udi (h_env h) COMPUTER = Some (idc, computer) -> walks property_order computer ->
  separate (all.*1) -> (total_length all < MOUNT_OPTIONS_SIZE)%nat ->
  exists text volume', libhal_volume_policy_get_mount_options send drive volume h = inr (Some (text, volume'), h, []) /\
    vol_mount_options volume' = text /\
    exists l, text = joined l /\ option_list (all.*1) l /\ ordered l /\
      forall o, o <> "" -> o ∈ l <-> option_on ns d computer o.
Proof.
  intros ns all Hd Hn Hu Hf Hw Hfc Hwc S T. destruct (collected_options ns d computer Hw Hwc S T) as (l & E & L).
  unfold libhal_volume_get_udi in *. unfold libhal_volume_policy_get_mount_options, hbind. rewrite Hd.
  rewrite (mount_options_run ctx n _ h id d idc computer "volume.policy.mount_option." Hn Hu Hf Hw Hfc Hwc).
  fold ns. rewrite E. cbn.
  eexists _, _. split; [done|]. split; [done|]. by exists l.
Qed.
End Daemon.

(** ** Instances *)
Module Instances.
Import AsciiPlatform Example ChangeSetClaims.Instances.

Definition separateb (F : list string) : bool :=
  forallb (fun a => negb (a =s? "") && negb (strchr a comma) &&
                    forallb (fun b => negb (strstr b a) || (a =s? b)) F) F.
Lemma separateb_ok F : separateb F = true -> separate F.
Proof.
  unfold separateb. rewrite forallb_forall. intros H.
  assert (G : forall a, a ∈ F -> a <> "" /\ comma_free a /\ forall b, b ∈ F -> strstr b a = true -> a = b).
  { intros a Ha. specialize (H a (proj1 (list_elem_of_In _ _) Ha)).
    apply andb_prop in H as [H H3]. apply andb_prop in H as [H1 H2]. rewrite forallb_forall in H3.
    apply negb_true_iff in H1, H2. apply bool_decide_eq_false in H1. split_and!; [done..|].
    intros b Hb E. specialize (H3 b (proj1 (list_elem_of_In _ _) Hb)). rewrite E in H3. simpl in H3.
    by apply bool_decide_eq_true in H3. }
  split; intros; by eapply G.
Qed.

(** The computer switches "user" and "exec" on; the volume switches "exec" off
    and "noatime" on. *)
Definition options_computer : HalDevice :=
  mk_device COMPUTER 0 0
    (<[DEFAULT_OPTION +:+ "user" := PBoolean true]> (<[DEFAULT_OPTION +:+ "exec" := PBoolean true]> ∅)).
Definition options_volume : HalDevice :=
  mk_device VOLUME 0 0
    (<["volume.policy.mount_option.exec" := PBoolean false]> (<["volume.policy.mount_option.noatime" := PBoolean true]> ∅)).
Definition options_start : hald :=
  mk_hald (mk_daemon (mk_env {[ 0%nat := options_computer; 1%nat := options_volume ]} [1; 0]%nat [] [] 0 []) [])
          (mk_bus 0 0 []) ∅ [] ∅ ∅.
Definition a_drive : LibHalDrive := drive_of user "/org/freedesktop/Hal/devices/drive" no_members.
Definition a_volume : LibHalVolume := volume_of VOLUME no_members.

Lemma mount_options_are_those_switched_on_witness :
  exists text volume' l,
    libhal_volume_policy_get_mount_options example_send a_drive a_volume options_start =
      inr (Some (text, volume'), options_start, []) /\
    text = joined l /\ "user" ∈ l /\ "noatime" ∈ l /\ "exec" ∉ l.
Proof.
  destruct (mount_options_are_those_switched_on NoConsoleKit callers 0 true false order
    (fun _ => hret true) (fun _ => hret true) (fun _ => hret NotHandled) (fun _ => true) (fun _ => true)
    [] no_rules 1 10 0 (fun _ => "") (fun s => s) (fun _ => 0) (fun _ => None) (fun _ _ _ => None)
    bus_name no_reply user 7 a_drive a_volume options_start 1 options_volume 0 options_computer)
    as (text & v & R & _ & l & E & _ & _ & M);
    [reflexivity | reflexivity | reflexivity | reflexivity | apply walks_keys | reflexivity | apply walks_keys
    | apply separateb_ok; vm_compute; reflexivity | apply Nat.ltb_lt; vm_compute; reflexivity |].
  exists text, v, l. split; [exact R|]. split; [exact E|]. rewrite !M by done. split_and!.
  - vm_compute. reflexivity.
  - vm_compute. reflexivity.
  - vm_compute. discriminate.
Defined.

(** A removal at the end leaves a comma, and an option that is part of another
    one is lost. *)
Lemma text_shortcomings :
  remove_option "noatime" "user,noatime" = "user," /\
  add_option "exec" "user," 256 = "user,,exec" /\
  add_option "sync" "async" 256 = "async" /\
  remove_option "sync" "async,user" = "auser".
Proof. vm_compute. done. Qed.
End Instances.
