(* ===== verification/DbusSession.v ===== *)
(** * Messages from the system bus ([hald/hald_dbus.c])

    The filter for messages of the bus and the handler for messages of helpers:
    names that change their owner, sessions of ConsoleKit, and calls of methods.
    Here the parts meet: the daemon of [Dbus], the cache of callers, the mirror of
    ConsoleKit, and the queue of the callouts for sessions.

    A computation of type [sm] threads all of them.  What the bus and ConsoleKit
    answer is a parameter. *)

From Stdlib Require Import ZArith Lia Ascii SpecFloat.
From stdpp Require Import base list gmap strings option pretty fin_maps.
From S2P Require Import Prelude CStd Property Device DeviceStore FdiRules FdiInterp Locks AccessCheck Bus Util Dbus DbusManager DbusDispatch CallerTracker SessionTracker.

(** [s_connected]: whether [dbus_connection] is set. *)
Record system := mk_system {
  s_hald : hald;
  s_connected : bool;
  s_callers : caller_cache;
  s_tracker : CKTracker;
  s_changes : session_queue;
}.

Inductive saction :=
  | Act (a : action)
  | SessionCallouts (entry : SessionChangesEntry)     (** [hal_callout_device] *)
  | RunForDevice (u command_line : string)            (** [hald_runner_run] *)
  | SendToBus (m : DBusMessage)
  | Reconnect (milliseconds : Z).

Definition sm (A : Type) : Type := system -> crash + (A * system * list saction).
Definition sret {A} (a : A) : sm A := fun s => inr (a, s, []).
Definition sbind {A B} (m : sm A) (k : A -> sm B) : sm B := fun s =>
  match m s with
  | inl c => inl c
  | inr (a, s1, t1) =>
      match k a s1 with
      | inl c => inl c
      | inr (b, s2, t2) => inr (b, s2, t1 ++ t2)
      end
  end.
Notation "'let%' x := m 'in' k" := (sbind m (fun x => k))
  (at level 10, x name, m at level 100, k at level 200) : hal_scope.
Notation "m ;% k" := (sbind m (fun _ => k)) (at level 199, right associativity) : hal_scope.

Definition set_hald (h : hald) (s : system) : system :=
  mk_system h (s_connected s) (s_callers s) (s_tracker s) (s_changes s).
Definition set_callers (c : caller_cache) (s : system) : system :=
  mk_system (s_hald s) (s_connected s) c (s_tracker s) (s_changes s).
Definition set_tracker (k : CKTracker) (s : system) : system :=
  mk_system (s_hald s) (s_connected s) (s_callers s) k (s_changes s).
Definition set_changes (q : session_queue) (s : system) : system :=
  mk_system (s_hald s) (s_connected s) (s_callers s) (s_tracker s) q.
Definition set_connected (b : bool) (s : system) : system :=
  mk_system (s_hald s) b (s_callers s) (s_tracker s) (s_changes s).

Definition sget {A} (f : system -> A) : sm A := fun s => inr (f s, s, []).
Definition smod (f : system -> system) : sm unit := fun s => inr (tt, f s, []).
Definition sact (l : list saction) : sm unit := fun s => inr (tt, s, l).
Definition scrash {A} (c : crash) : sm A := fun _ => inl c.
(** A method of the daemon; it may depend on whether there is a bus. *)
Definition of_hald {A} (m : bool -> hm A) : sm A := fun s =>
  match m (s_connected s) (s_hald s) with
  | inl c => inl c
  | inr (a, h, t) => inr (a, set_hald h s, Act <$> t)
  end.
Definition of_tracker {A} (m : ckm A) : sm A := fun s =>
  match m (s_tracker s) with
  | None => inl ReadAfterFree
  | Some (a, k) => inr (a, set_tracker k s, [])
  end.

Definition has_conkit (cfg : configuration) : bool := match cfg with NoConsoleKit => false | _ => true end.

Section Session.
Context {P : Platform}.
Context (cfg : configuration) (geteuid : Z) (initialising have_aclmgmt : bool).
Context (a : answers) (ck : consolekit).
Context (property_order : HalDevice -> list string).
Context (osspec_device_rescan osspec_device_reprobe : nat -> hm bool).
Context (osspec_filter_function : DBusMessage -> hm hresult).
Context (hald_runner_start hald_runner_start_singleton : string -> bool).
Context (stack : list ascii) (rules : cache) (depth udi_fuel : nat) (tv_usec : Z).
Context (printf_g : double -> string) (g_basename : string -> string).
Context (polkit_result : HalDevice -> string -> string -> option string).
(** The callers that a method asks about. *)
Context (asked : hald -> DBusMessage -> list string).

(** ** Locks of callers that lost their access *)
Definition ask (name : string) : sm (option CICallerInfo) := fun s =>
  let '(ci, cache) := ci_tracker_get_info (has_conkit cfg) a (Some name) (s_callers s) in
  inr (caller_view <$> ci, set_callers cache s, []).

Definition with_device {A} (id : nat) (k : HalDevice -> sm A) : sm A :=
  let% d := sget (fun s => e_heap (h_env (s_hald s)) !! id) in
  match d with None => scrash NoDevice | Some d => k d end.

Definition have_access (device : HalDevice) (caller : string) : sm bool :=
  let% ci := ask caller in
  sret (access_check_caller_have_access_to_device cfg (fun _ => ci) geteuid device "org.freedesktop.hal.lock" caller).

Definition release (id : nat) (lock_name holder : string) : sm unit :=
  of_hald (fun connected =>
    core_op connected initialising
      (fun w => (Return, (lock_step id (hal_device_release_lock lock_name holder) w).2))) ;%
  sret tt.

Fixpoint validate_holders (id : nat) (lock_name : string) (holders : list string) : sm unit :=
  match holders with
  | [] => sret tt
  | h :: rest =>
      let% access := with_device id (fun d => have_access d h) in
      (if access : bool then sret tt else release id lock_name h) ;%
      validate_holders id lock_name rest
  end.

Fixpoint validate_interfaces (id : nat) (locked_interfaces : list string) : sm unit :=
  match locked_interfaces with
  | [] => sret tt
  | n :: rest =>
      let% holders := with_device id (fun d => sret (hal_device_get_lock_holders d n)) in
      (match holders with None => sret tt | Some l => validate_holders id n l end) ;%
      validate_interfaces id rest
  end.

Definition validate_lock_for_device (id : nat) : sm unit :=
  with_device id (fun d =>
    match hal_device_property_dup_strlist_as_strv d "info.named_locks" with
    | None => sret tt
    | Some locked_interfaces => validate_interfaces id locked_interfaces
    end).

Fixpoint validate_each (ids : list nat) : sm unit :=
  match ids with
  | [] => sret tt
  | id :: rest => validate_lock_for_device id ;% validate_each rest
  end.

Definition validate_locks : sm unit :=
  let% l := sget (fun s => tdl (h_env (s_hald s))) in
  validate_each l ;%
  let% l := sget (fun s => gdl (h_env (s_hald s))) in
  validate_each l.

Definition reconfigure_acl : sm unit :=
  if have_aclmgmt then
    let% computer := sget (fun s => find_by_udi (h_env (s_hald s)) COMPUTER) in
    match computer with
    | None => sret tt
    | Some (_, d) => sact [RunForDevice (udi d) "hal-acl-tool --reconfigure"]
    end
  else sret tt.

Definition reconfigure_all_policy : sm unit := validate_locks ;% reconfigure_acl.

(** ** Callouts for sessions *)
Definition push (entry : SessionChangesEntry) : sm unit := fun s =>
  let '(started, q) := session_changes_push entry (s_changes s) in
  inr (tt, set_changes q s, SessionCallouts <$> option_list started).

(** The callouts of an entry ended. *)
Definition session_callouts_done : sm unit := fun s =>
  let '(started, q) := session_changes_done_cb (s_changes s) in
  inr (tt, set_changes q s, SessionCallouts <$> option_list started).

Definition session_callouts (key : string) (env : list string) : sm unit :=
  let% computer := sget (fun s => find_by_udi (h_env (s_hald s)) COMPUTER) in
  match computer with
  | None => sret tt
  | Some (id, d) =>
      match hal_device_property_dup_strlist_as_strv d key with
      | None => sret tt
      | Some programs => push (mk_session_change id programs env)
      end
  end.

Definition ck_session_get_id (session : session_data) : string := g_basename (session_path session).
Definition true_false (b : bool) : string := if b then "true" else "false".

Definition hald_dbus_session_active_changed (session : session_data) : sm unit :=
  validate_locks ;%
  session_callouts
    (if session_is_active session then "info.callouts.session_active" else "info.callouts.session_inactive")
    ["HALD_ACTION=session_active_changed";
     "HALD_SESSION_ACTIVE_CHANGED_SESSION_ID=" +:+ ck_session_get_id session;
     "HALD_SESSION_ACTIVE_CHANGED_SESSION_UID=" +:+ pretty (u32 (session_user session));
     "HALD_SESSION_ACTIVE_CHANGED_SESSION_IS_ACTIVE=" +:+ true_false (session_is_active session)].

Definition hald_dbus_session_added (session : session_data) : sm unit :=
  session_callouts "info.callouts.session_add"
    ["HALD_ACTION=session_add";
     "HALD_SESSION_ADD_SESSION_ID=" +:+ ck_session_get_id session;
     "HALD_SESSION_ADD_SESSION_UID=" +:+ pretty (u32 (session_user session));
     "HALD_SESSION_ADD_SESSION_IS_ACTIVE=" +:+ true_false (session_is_active session)].

Definition hald_dbus_session_removed (session : session_data) : sm unit :=
  session_callouts "info.callouts.session_remove"
    ["HALD_ACTION=session_remove";
     "HALD_SESSION_REMOVE_SESSION_ID=" +:+ ck_session_get_id session;
     "HALD_SESSION_REMOVE_SESSION_UID=" +:+ pretty (s32 (session_user session));
     "HALD_SESSION_REMOVE_SESSION_IS_ACTIVE=" +:+ true_false (session_is_active session)].

Definition hald_dbus_ck_disappeared : sm unit := reconfigure_acl.
Definition hald_dbus_ck_appeared : sm unit := reconfigure_acl.

(** The callbacks that [hald_dbus_init_preprobe] registers. *)
Definition callback (e : ck_event) : sm unit :=
  match e with
  | seat_added_cb _ | seat_removed_cb _ => sret tt
  | session_added_cb s => hald_dbus_session_added s
  | session_removed_cb s => hald_dbus_session_removed s
  | session_active_changed_cb s => hald_dbus_session_active_changed s
  | service_disappeared_cb => hald_dbus_ck_disappeared
  | service_appeared_cb => hald_dbus_ck_appeared
  end.
Fixpoint callbacks (l : list ck_event) : sm unit :=
  match l with [] => sret tt | e :: rest => callback e ;% callbacks rest end.

Definition to_tracker (is_signal : bool) (m : DBusMessage) : sm unit :=
  if has_conkit cfg then
    let% events := of_tracker (ck_tracker_process_system_bus_message ck is_signal m) in callbacks events
  else sret tt.

(** ** A client leaves the bus *)
Fixpoint release_all (id : nat) (locks : list string) (sender : string) : sm unit :=
  match locks with
  | [] => sret tt
  | lock_name :: rest => release id lock_name sender ;% release_all id rest sender
  end.

(** [hal_device_client_disconnected]; [links] are the links of the list of locked
    devices from the current one on. *)
Fixpoint client_disconnected (links : list nat) (sender : string) : sm unit :=
  match links with
  | [] => sret tt
  | id :: rest =>
      with_device id (fun d =>
        match hal_device_property_dup_strlist_as_strv d "info.named_locks" with
        | None => sret tt
        | Some locks => release_all id locks sender
        end) ;%
      let% locked := sget (fun s => d_locked (h_core (s_hald s))) in
      if decide (id ∈ locked) then client_disconnected rest sender else scrash ReadAfterFree
  end.

Definition client_leaves (old_service_name : string) : sm unit :=
  of_hald (fun connected => services_with_locks_remove_lockowner connected initialising old_service_name) ;%
  if bool_decide (0 < String.length old_service_name)%nat then
    let% links := sget (fun s => d_locked (h_core (s_hald s))) in client_disconnected links old_service_name
  else sret tt.

(** ** The filter *)
Definition about (s : system) (name : string) : option caller_info :=
  (ci_tracker_get_info (has_conkit cfg) a (Some name) (s_callers s)).1.

(** A method call; the callers it asks about are cached. *)
Definition dispatch (connection : nat) (m : DBusMessage) (local_interface : bool) : sm hresult := fun s =>
  match hald_dbus_filter_handle_methods cfg (fun n => caller_view <$> about s n) geteuid (s_connected s) initialising
          property_order osspec_device_rescan osspec_device_reprobe osspec_filter_function hald_runner_start
          hald_runner_start_singleton stack rules depth udi_fuel tv_usec printf_g g_basename
          (fun n => default 0 (pid <$> about s n)) (fun n => about s n ≫= selinux_context) polkit_result
          connection m local_interface (s_hald s) with
  | inl c => inl c
  | inr (r, h, t) =>
      let cache := foldl (fun cache n => (ci_tracker_get_info (has_conkit cfg) a (Some n) cache).2) (s_callers s)
                     (asked (s_hald s) m) in
      inr (r, set_callers cache (set_hald h s), Act <$> t)
  end.

Definition dbus_message_is_signal (is_signal : bool) (m : DBusMessage) (interface name : string) : bool :=
  is_signal && dbus_message_is_method_call m interface name.

Definition is_disconnected (is_signal : bool) (m : DBusMessage) : bool :=
  dbus_message_is_signal is_signal m "org.freedesktop.DBus.Local" "Disconnected" &&
  (m_path m =s? "/org/freedesktop/DBus/Local").

Definition hald_dbus_filter_function (connection : nat) (is_signal : bool) (m : DBusMessage) : sm hresult :=
  let signal := dbus_message_is_signal is_signal m in
  let out := to_tracker is_signal m ;% sret NoReply in
  if is_disconnected is_signal m then
    smod (set_connected false) ;% sact [Reconnect 3000] ;% out
  else if signal "org.freedesktop.DBus" "NameAcquired" then sret NoReply
  else if signal "org.freedesktop.DBus" "NameOwnerChanged" then
    match get_args_sss m with
    | None => out
    | Some (name, old_service_name, new_service_name) =>
        smod (fun s => set_callers (ci_tracker_name_owner_changed name old_service_name new_service_name (s_callers s)) s) ;%
        client_leaves old_service_name ;%
        out
    end
  else if has_conkit cfg && signal "org.freedesktop.ConsoleKit.Session" "ActiveChanged" then
    match get_args_b m with
    | None => out
    | Some is_active =>
        smod (fun s => set_callers (ci_tracker_active_changed (m_path m) is_active (s_callers s)) s) ;%
        out
    end
  else to_tracker is_signal m ;% dispatch connection m false.

(** ** Messages of helpers *)
Definition local_server_message_handler (connection : nat) (is_signal : bool) (m : DBusMessage) : sm hresult :=
  if negb is_signal && dbus_message_is_method_call m "org.freedesktop.DBus" "AddMatch" then sret (Replied (MethodReturn []))
  else if is_disconnected is_signal m then
    of_hald (fun _ => local_server_disconnected connection) ;% sret NoReply
  else if is_signal then
    let% connected := sget s_connected in
    sact (if connected : bool then [SendToBus m] else []) ;% sret NoReply
  else dispatch connection m true.

(** ** Connecting to the bus *)

(** New trackers; FALSE when there is no bus.  An error of ConsoleKit is only
    reported. *)
Definition hald_dbus_init_preprobe (bus_is_there : bool) : sm bool :=
  if negb bus_is_there then sret false
  else
    smod (set_connected true) ;%
    (if has_conkit cfg then smod (set_tracker ck_tracker_new) ;% of_tracker (ck_tracker_init ck) ;% sret tt else sret tt) ;%
    smod (set_callers ∅) ;%
    sret true.

Definition hald_dbus_init (got_name : bool) : sm bool :=
  let% connected := sget s_connected in
  sret (if negb connected then false else got_name).

(** Whether to try again. *)
Definition reinit_dbus (bus_is_there got_name : bool) : sm bool :=
  let% connected := sget s_connected in
  (if connected : bool then sret true else hald_dbus_init_preprobe bus_is_there) ;%
  let% ok := hald_dbus_init got_name in
  sret (negb ok).
End Session.
