(* ===== verification/SystemClaims.v ===== *)
(** * Who leaves, and who loses access

    The filter for messages of the bus brings the parts of the daemon together:
    when a session becomes active or inactive every lock is checked again with
    what is then known of its holders, and a client that leaves is forgotten. *)

From Stdlib Require Import ZArith Lia Ascii SpecFloat.
From stdpp Require Import base list gmap strings option pretty fin_maps.
From S2P Require Import Prelude CStd Property Device DeviceTheory DeviceMerge DeviceStore StoreTheory FdiRules FdiInterp Locks LockTheory LockClaims AccessCheck AccessClaims Bus Util Dbus DbusManager DbusDispatch DbusTheory CallerTracker SessionTracker SessionClaims DbusSession.

Lemma filter_agree {A} (P Q : A -> Prop) `{forall x, Decision (P x), forall x, Decision (Q x)} (l : list A) :
  (forall x, x ∈ l -> P x <-> Q x) -> filter P l = filter Q l.
Proof.
  induction l as [|x l IH]; intros E; [done|]. rewrite !filter_cons, IH by set_solver.
  pose proof (E x (list_elem_of_here x l)). repeat case_decide; naive_solver.
Qed.
Lemma filter_everything {A} (P : A -> Prop) `{forall x, Decision (P x)} (l : list A) : (forall x, x ∈ l -> P x) -> filter P l = l.
Proof. induction l as [|x l IH]; intros E; [done|]. rewrite filter_cons_True, IH by set_solver. done. Qed.

(** ** Holders with access *)
Definition keep_holders (f : string -> bool) (x : bool * list string) : option (bool * list string) :=
  let hs := filter (fun h => f h = true) x.2 in
  if decide (hs = []) then None else Some (x.1, hs).
Definition keep (f : string -> bool) (t : lock_table) : lock_table := omap (keep_holders f) t.

Lemma keep_lookup f t n : keep f t !! n = t !! n ≫= keep_holders f.
Proof. apply lookup_omap. Qed.

(** Dropping, one after the other, those of [l] that [f] refuses. *)
Definition drop_refused (f : string -> bool) (l : list string) (o : option (bool * list string)) :=
  foldl (fun o h => if f h then o else drop_holder h o) o l.

Lemma drop_refused_ext f g l o : (forall x, f x = g x) -> drop_refused f l o = drop_refused g l o.
Proof. intros E. revert o. induction l as [|h l IH]; intros o; [done|]. cbn. rewrite E. apply IH. Qed.

Lemma drop_refused_None f l : drop_refused f l None = None.
Proof. induction l as [|h l IH]; [done|]. cbn. by destruct (f h). Qed.

Lemma drop_refused_Some f l e hs :
  hs <> [] ->
  drop_refused f l (Some (e, hs)) =
  let hs' := filter (fun h => ~ (h ∈ l /\ f h = false)) hs in
  if decide (hs' = []) then None else Some (e, hs').
Proof.
  cbv zeta. revert hs. induction l as [|x l IH]; intros hs Hne.
  - replace (filter _ hs) with hs; [by rewrite decide_False|].
    symmetry. apply filter_everything. intros. set_solver.
  - cbn [drop_refused foldl]. destruct (f x) eqn:Ex.
    + fold (drop_refused f l (Some (e, hs))). rewrite IH by done.
      assert (E : filter (fun h => ~ (h ∈ l /\ f h = false)) hs = filter (fun h => ~ (h ∈ x :: l /\ f h = false)) hs)
        by (apply list_filter_iff; intros y; rewrite elem_of_cons; naive_solver congruence).
      by rewrite E.
    + cbn [drop_holder].
      assert (E : filter (fun h => ~ (h ∈ x :: l /\ f h = false)) hs =
                  filter (fun h => ~ (h ∈ l /\ f h = false)) (filter (fun h => h <> x) hs)).
      { rewrite list_filter_filter. apply list_filter_iff. intros y. rewrite elem_of_cons. naive_solver congruence. }
      rewrite E. case_decide as Hd.
      * rewrite Hd. fold (drop_refused f l None). rewrite drop_refused_None. by rewrite decide_True.
      * fold (drop_refused f l (Some (e, filter (fun h => h <> x) hs))). by rewrite IH.
Qed.

Lemma drop_refused_own f e hs : hs <> [] -> drop_refused f hs (Some (e, hs)) = keep_holders f (e, hs).
Proof.
  intros H. rewrite drop_refused_Some by done. unfold keep_holders. cbn [fst snd].
  assert (E : filter (fun h => ~ (h ∈ hs /\ f h = false)) hs = filter (fun h => f h = true) hs); [|by rewrite E].
  apply filter_agree. intros x Hx. destruct (f x); naive_solver.
Qed.

Lemma keep_holders_idem f x : keep_holders f x ≫= keep_holders f = keep_holders f x.
Proof.
  unfold keep_holders at 2 3. case_decide as Hd; [done|]. cbn [mbind option_bind]. unfold keep_holders. cbn [fst snd].
  rewrite filter_everything by (intros y [? _]%list_elem_of_filter; done). by rewrite decide_False.
Qed.
Lemma keep_idem f t : keep f (keep f t) = keep f t.
Proof.
  apply map_eq. intros n. rewrite !keep_lookup. destruct (t !! n) as [x|]; [|done]. apply keep_holders_idem.
Qed.

(** ** What a step leaves alone *)
Definition world_of (s : system) : lock_world :=
  mk_lock_world (e_heap (h_env (s_hald s))) (d_locked (h_core (s_hald s))).

(** The properties of an advisory lock are not those of an interface lock. *)
Definition advisory : list string := ["info.locked"; "info.locked.reason"; "info.locked.dbus_name"].
Definition no_advisory (h : hald) (id : nat) : Prop :=
  forall d k, e_heap (h_env h) !! id = Some d -> k ∈ advisory -> props d !! k = None.

Lemma not_advisory n s : lock_buf n s ∉ advisory /\ "info.named_locks" ∉ advisory.
Proof. unfold advisory. rewrite !not_elem_of_cons. split; (split_and!; [discriminate.. | apply not_elem_of_nil]). Qed.

Definition spares {A} (m : dev A) : Prop := forall d k, k ∈ advisory -> props (dev_of (m d)) !! k = props d !! k.
Lemma spares_bind {A B} (m : dev A) (k : A -> dev B) : spares m -> (forall x, spares (k x)) -> spares (dbind m k).
Proof. intros Hm Hk d j Hj. rewrite dev_of_bind, Hk, Hm; done. Qed.
Lemma writes_spares {A} key (m : dev A) : writes key m -> key ∉ advisory -> spares m.
Proof. intros Hm Hk d k Hj. destruct (write_frame _ _ _ _ (Hm d)) as (_ & _ & _ & F). apply F. intros ->. done. Qed.

Lemma release_spares n h : spares (hal_device_release_lock n h).
Proof.
  unfold hal_device_release_lock. pose (P := AsciiPlatform.platform). pose proof (not_advisory n) as N.
  repeat match goal with
  | |- spares (dbind _ _) => apply spares_bind; [|intros]
  | |- spares (if ?b then _ else _) => destruct b
  | |- spares (dret _) => done
  | |- spares (dget _) => done
  | |- spares (g_signal_emit _) => done
  | |- spares _ => eapply writes_spares; [solve [eauto using keeps_writes with hal]|]; first [apply (N "") | apply N]
  end.
Qed.

Section System.
Context (cfg : configuration) (geteuid : Z) (initialising have_aclmgmt : bool).
Context (a : answers).

#[local] Notation about := (about cfg a).

(** Lists, trackers, queues and names of devices stay; callers look the same. *)
Record frame (s s' : system) : Prop := {
  fr_gdl : gdl (h_env (s_hald s')) = gdl (h_env (s_hald s));
  fr_tdl : tdl (h_env (s_hald s')) = tdl (h_env (s_hald s));
  fr_udi : forall id, udi <$> e_heap (h_env (s_hald s')) !! id = udi <$> e_heap (h_env (s_hald s)) !! id;
  fr_advisory : forall id, no_advisory (s_hald s) id -> no_advisory (s_hald s') id;
  fr_services : services_with_locks (s_hald s') = services_with_locks (s_hald s);
  fr_connected : s_connected s' = s_connected s;
  fr_tracker : s_tracker s' = s_tracker s;
  fr_changes : s_changes s' = s_changes s;
  fr_about : forall n, about s' n = about s n;
}.
#[local] Instance frame_refl : Reflexive frame.
Proof. by split. Qed.
#[local] Instance frame_trans : Transitive frame.
Proof. intros s1 s2 s3 [] []. split; try congruence; intros; eauto; etrans; eauto. Qed.

Lemma frame_devices s s' j :
  frame s s' -> is_Some (e_heap (h_env (s_hald s)) !! j) -> is_Some (e_heap (h_env (s_hald s')) !! j).
Proof. intros F [d Hd]. pose proof (fr_udi _ _ F j) as U. rewrite Hd in U. by destruct (e_heap (h_env (s_hald s')) !! j). Qed.

(** Whether a caller may lock a device, with what is known in a state. *)
Definition allowed (s : system) (d : HalDevice) (caller : string) : bool :=
  access_check_caller_have_access_to_device cfg (fun n => caller_view <$> about s n) geteuid d
    "org.freedesktop.hal.lock" caller.

Lemma allowed_frame s s' d d' c : frame s s' -> udi d' = udi d -> allowed s' d' c = allowed s d c.
Proof.
  intros F U. unfold allowed, access_check_caller_have_access_to_device. by rewrite (fr_about s s' F), U.
Qed.

Lemma about_asked n m s cache :
  (ci_tracker_get_info (has_conkit cfg) a (Some n) (s_callers s)).2 = cache ->
  about (set_callers cache s) m = about s m.
Proof.
  intros <-. unfold DbusSession.about, ci_tracker_get_info. simpl s_callers.
  destruct (negb (validate_bus_name n)) eqn:En; [done|]. destruct (s_callers s !! n) as [ci|] eqn:E; [done|].
  destruct (ask_caller (has_conkit cfg) a n) as [ci|] eqn:Ea; [|done]. cbn [snd].
  destruct (negb (validate_bus_name m)); [done|]. destruct (decide (n = m)) as [<-|Hne].
  - rewrite lookup_insert_eq, E, Ea. done.
  - rewrite lookup_insert_ne by done. destruct (s_callers s !! m); [done|]. by destruct (ask_caller _ _ m).
Qed.

Lemma have_access_run d c s :
  exists s', have_access cfg geteuid a d c s = inr (allowed s d c, s', []) /\ frame s s' /\ world_of s' = world_of s.
Proof.
  unfold have_access, sbind, ask, allowed, DbusSession.about.
  destruct (ci_tracker_get_info (has_conkit cfg) a (Some c) (s_callers s)) as [ci cache] eqn:E.
  exists (set_callers cache s). split; [|split; [|done]].
  - unfold access_check_caller_have_access_to_device. by rewrite E.
  - split; try done. intros m. apply (about_asked c). by rewrite E.
Qed.

(** ** Releasing a lock *)
Lemma release_run id n h s :
  exists s' t, release initialising id n h s = inr (tt, s', t) /\ frame s s' /\
    world_of s' = (world_release id n h (world_of s)).2.
Proof.
  unfold release, sbind, of_hald, core_op.
  set (w := (lock_step id (hal_device_release_lock n h) (h_core (s_hald s))).2).
  destruct (announce_log _ _ _ _ _) as [b msgs]. cbn. eexists _, _. split; [reflexivity|].
  assert (W : (e_heap (d_env w), d_locked w) =
              (lw_devices (world_release id n h (world_of s)).2, locked_devices (world_release id n h (world_of s)).2) /\
              gdl (d_env w) = gdl (h_env (s_hald s)) /\ tdl (d_env w) = tdl (h_env (s_hald s))).
  { unfold w, lock_step, on_device, world_release, world_lock_op, world_of, h_env. simpl.
    destruct (e_heap (d_env (h_core (s_hald s))) !! id) as [d|]; [|done]. simpl.
    destruct (res (hal_device_release_lock n h d)) as [x c]. done. }
  destruct W as (W & Hg & Ht). split.
  - assert (H : e_heap (d_env w) = match e_heap (h_env (s_hald s)) !! id with
                                   | Some d => <[id := dev_of (hal_device_release_lock n h d)]> (e_heap (h_env (s_hald s)))
                                   | None => e_heap (h_env (s_hald s))
                                   end).
    { apply (f_equal fst) in W. cbn [fst] in W. rewrite W. unfold world_release, world_lock_op. cbn [world_of lw_devices].
      by destruct (e_heap (h_env (s_hald s)) !! id). }
    destruct (e_heap (h_env (s_hald s)) !! id) as [d|] eqn:E.
    2: { split; try done; intros j; unfold no_advisory, h_env in *; cbn [s_hald set_hald set_bus set_core h_core d_env]; by rewrite H. }
    split; try done; intros j; unfold no_advisory, h_env in *; cbn [s_hald set_hald set_bus set_core h_core d_env]; rewrite H;
      (destruct (decide (j = id)) as [->|Hne]; [rewrite lookup_insert_eq | by rewrite lookup_insert_ne]).
    + rewrite E. cbn. f_equal. apply release_udi.
    + intros N d' k [= <-] Hk. rewrite release_spares by done. by apply (N d).
  - unfold world_of at 1, h_env. cbn. injection W as -> ->. by destruct (world_release _ _ _ _).2.
Qed.

Lemma sbind_run {A B} (m : sm A) (k : A -> sm B) s x s1 t1 y s2 t2 :
  m s = inr (x, s1, t1) -> k x s1 = inr (y, s2, t2) -> sbind m k s = inr (y, s2, t1 ++ t2).
Proof. intros E1 E2. unfold sbind. by rewrite E1, E2. Qed.

(** A computation that ends and takes the tables of the locks to others. *)
Definition turns (m : sm unit) (s : system) (T : gmap nat lock_table) : Prop :=
  exists s' t, m s = inr (tt, s', t) /\ frame s s' /\ world_rep (world_of s') T.

Lemma turns_seq m k s T T' :
  turns m s T -> (forall s', frame s s' -> world_rep (world_of s') T -> turns k s' T') -> turns (sbind m (fun _ => k)) s T'.
Proof.
  intros (s1 & t1 & E1 & F1 & W1) K. destruct (K s1 F1 W1) as (s2 & t2 & E2 & F2 & W2).
  exists s2, (t1 ++ t2). split; [by eapply sbind_run|]. split; [by etrans | done].
Qed.

Lemma turns_ret s T : world_rep (world_of s) T -> turns (sret tt) s T.
Proof. intros W. by exists s, []. Qed.

Lemma turns_device {A} (m : HalDevice -> sm A) (k : A -> sm unit) id d s T :
  e_heap (h_env (s_hald s)) !! id = Some d ->
  turns (sbind (m d) k) s T -> turns (sbind (with_device id m) k) s T.
Proof.
  intros Hd (s' & t & E & FW). exists s', t. split; [|done]. rewrite <- E.
  unfold sbind, with_device, sbind, sget. rewrite Hd. cbn [app]. destruct (m d s) as [c|[[x s1] t1]]; [done|].
  cbn [app]. done.
Qed.

Lemma turns_access s d c (k : bool -> sm unit) T :
  (forall s', frame s s' -> world_of s' = world_of s -> turns (k (allowed s d c)) s' T) ->
  turns (sbind (have_access cfg geteuid a d c) k) s T.
Proof.
  intros K. destruct (have_access_run d c s) as (s1 & E1 & F1 & W1). destruct (K s1 F1 W1) as (s2 & t2 & E2 & F2 & W2).
  exists s2, ([] ++ t2). split; [by eapply sbind_run|]. split; [by etrans | done].
Qed.

Lemma turns_release s T id t n h :
  world_rep (world_of s) T -> T !! id = Some t -> name_ok n ->
  turns (release initialising id n h) s (<[id := put_lock n (drop_holder h (t !! n)) t]> T).
Proof.
  intros W Ht Hn. destruct (release_run id n h s) as (s' & tr & E & F & Ew). exists s', tr. split; [done|]. split; [done|].
  rewrite Ew. destruct (wr_devices _ _ W id t Ht) as (d & _ & R). rewrite <- release_spec_drop by (by eapply rep_table_ok).
  by apply world_release_rep.
Qed.

Lemma put_lock_same n (t : lock_table) : put_lock n (t !! n) t = t.
Proof.
  apply map_eq. intros m. destruct (decide (m = n)) as [->|Hne]; [by rewrite lookup_put_lock | by rewrite lookup_put_lock_ne].
Qed.
Lemma put_lock_twice n o o' (t : lock_table) : put_lock n o (put_lock n o' t) = put_lock n o t.
Proof.
  apply map_eq. intros m. destruct (decide (m = n)) as [->|Hne]; [by rewrite !lookup_put_lock | by rewrite !lookup_put_lock_ne].
Qed.

(** The holders of one lock are checked. *)
Lemma turns_holders l s T id t n d :
  world_rep (world_of s) T -> T !! id = Some t -> name_ok n -> e_heap (h_env (s_hald s)) !! id = Some d ->
  turns (validate_holders cfg geteuid initialising a id n l) s
    (<[id := put_lock n (drop_refused (allowed s d) l (t !! n)) t]> T).
Proof.
  revert s T t d. induction l as [|h l IH]; intros s T t d W Ht Hn Hd; cbn [validate_holders].
  - apply turns_ret. cbn [drop_refused foldl]. by rewrite put_lock_same, insert_id.
  - apply (turns_device _ _ id d); [done|]. apply turns_access. intros s1 F1 W1. rewrite <- W1 in W.
    assert (Hd1 : e_heap (h_env (s_hald s1)) !! id = Some d) by (injection W1 as -> _; done).
    set (t1 := put_lock n (if allowed s d h then t !! n else drop_holder h (t !! n)) t).
    apply (turns_seq _ _ _ (<[id := t1]> T)).
    + unfold t1. destruct (allowed s d h); [|by apply turns_release].
      apply turns_ret. by rewrite put_lock_same, insert_id.
    + intros s2 F2 W2. destruct (wr_devices _ _ W2 id t1 (lookup_insert_eq _ _ _)) as (d2 & Hd2 & _).
      pose proof (IH s2 _ t1 d2 W2 (lookup_insert_eq _ _ _) Hn Hd2) as K.
      assert (U : udi d2 = udi d).
      { pose proof (fr_udi _ _ F2 id) as U. cbn in Hd2. rewrite Hd1, Hd2 in U. by injection U. }
      rewrite insert_insert_eq in K. unfold t1 in K. rewrite put_lock_twice in K.
      rewrite lookup_put_lock in K.
      replace (drop_refused (allowed s d) (h :: l) (t !! n)) with
        (drop_refused (allowed s2 d2) l (if allowed s d h then t !! n else drop_holder h (t !! n))); [done|].
      cbn [drop_refused foldl]. apply drop_refused_ext. intros x.
      by rewrite (allowed_frame s s2 d d2 x (transitivity F1 F2) U).
Qed.

(** The locks of the names [l] are checked. *)
Definition keep_named (f : string -> bool) (l : list string) (t : lock_table) : lock_table :=
  foldl (fun t n => put_lock n (t !! n ≫= keep_holders f) t) t l.

Lemma keep_named_ext f g l t : (forall x, f x = g x) -> keep_named f l t = keep_named g l t.
Proof.
  intros E. revert t. induction l as [|n l IH]; intros t; [done|]. cbn.
  assert (K : forall x, keep_holders f x = keep_holders g x); [|rewrite (option_bind_ext_fun _ _ _ K); apply IH].
  intros x. unfold keep_holders. rewrite (filter_agree (fun h => f h = true) (fun h => g h = true)); [done|]. intros h _. by rewrite E.
Qed.

Lemma turns_interfaces l s T id t d :
  world_rep (world_of s) T -> T !! id = Some t -> Forall name_ok l -> e_heap (h_env (s_hald s)) !! id = Some d ->
  turns (validate_interfaces cfg geteuid initialising a id l) s (<[id := keep_named (allowed s d) l t]> T).
Proof.
  revert s T t d. induction l as [|n l IH]; intros s T t d W Ht Hl Hd; cbn [validate_interfaces].
  - apply turns_ret. cbn. by rewrite insert_id.
  - apply Forall_cons in Hl as [Hn Hl]. destruct (wr_devices _ _ W id t Ht) as (d' & Hd' & R). cbn in Hd'.
    rewrite Hd in Hd'. injection Hd' as <-.
    apply (turns_device _ _ id d); [done|]. set (t1 := put_lock n (t !! n ≫= keep_holders (allowed s d)) t).
    assert (K : turns (match hal_device_get_lock_holders d n with
                       | None => sret tt
                       | Some hs => validate_holders cfg geteuid initialising a id n hs
                       end) s (<[id := t1]> T)).
    { rewrite (holders_of_rep d t n R Hn). unfold t1. destruct (t !! n) as [[e hs]|] eqn:Et; cbn [fmap option_fmap option_map snd].
      - cbn [mbind option_bind]. rewrite <- drop_refused_own by (by apply (rep_holders d t R n e hs)). rewrite <- Et.
        by apply turns_holders.
      - apply turns_ret. cbn [mbind option_bind]. by rewrite <- Et, put_lock_same, insert_id. }
    destruct K as (s1 & tr1 & E1 & F1 & W1).
    destruct (wr_devices _ _ W1 id t1 (lookup_insert_eq _ _ _)) as (d1 & Hd1 & _). cbn in Hd1.
    assert (U : udi d1 = udi d).
    { pose proof (fr_udi _ _ F1 id) as U. rewrite Hd, Hd1 in U. by injection U. }
    destruct (IH s1 _ t1 d1 W1 (lookup_insert_eq _ _ _) Hl Hd1) as (s2 & tr2 & E2 & F2 & W2).
    exists s2, ([] ++ tr1 ++ tr2). split; [|split; [by etrans|]].
    + eapply sbind_run; [reflexivity|]. cbv beta. by eapply sbind_run.
    + rewrite insert_insert_eq in W2. change (keep_named (allowed s d) (n :: l) t) with (keep_named (allowed s d) l t1).
      rewrite (keep_named_ext _ (allowed s1 d1)); [done|]. intros x. by rewrite (allowed_frame s s1 d d1 x F1 U).
Qed.

Lemma keep_named_lookup f l t n :
  NoDup l -> keep_named f l t !! n = if decide (n ∈ l) then t !! n ≫= keep_holders f else t !! n.
Proof.
  revert t. induction l as [|x l IH]; intros t Hnd; [done|]. apply NoDup_cons in Hnd as [Hx Hnd].
  change (keep_named f (x :: l) t) with (keep_named f l (put_lock x (t !! x ≫= keep_holders f) t)). rewrite IH by done.
  destruct (decide (n = x)) as [->|Hne].
  - rewrite decide_False by done. rewrite decide_True by set_solver. apply lookup_put_lock.
  - rewrite lookup_put_lock_ne by done. destruct (decide (n ∈ l)); [rewrite decide_True | rewrite decide_False]; set_solver.
Qed.

Lemma keep_ext f g t : (forall x, f x = g x) -> keep f t = keep g t.
Proof.
  intros E. apply map_eq. intros n. rewrite !keep_lookup. apply option_bind_ext_fun. intros x. unfold keep_holders.
  rewrite (filter_agree (fun h => f h = true) (fun h => g h = true)); [done|]. intros h _. by rewrite E.
Qed.

Lemma turns_lock_for_device s T id t d :
  world_rep (world_of s) T -> T !! id = Some t -> e_heap (h_env (s_hald s)) !! id = Some d ->
  turns (validate_lock_for_device cfg geteuid initialising a id) s (<[id := keep (allowed s d) t]> T).
Proof.
  intros W Ht Hd. destruct (wr_devices _ _ W id t Ht) as (d' & Hd' & R). cbn in Hd'. rewrite Hd in Hd'. injection Hd' as <-.
  assert (K : turns (match hal_device_property_dup_strlist_as_strv d "info.named_locks" with
                     | None => sret tt
                     | Some l => validate_interfaces cfg geteuid initialising a id l
                     end) s (<[id := keep (allowed s d) t]> T)).
  { unfold hal_device_property_dup_strlist_as_strv, hal_device_property_get_strlist, hal_device_property_find.
    destruct (rep_list_cases d t R) as [[-> ->] | (l & -> & Hlne & Hnd & Hl)].
    - apply turns_ret. replace (keep _ ∅) with (∅ : lock_table) by (apply map_eq; intros n; by rewrite keep_lookup).
      by rewrite insert_id.
    - cbn. destruct l as [|x l]; [done|]. replace (keep (allowed s d) t) with (keep_named (allowed s d) (x :: l) t).
      + apply turns_interfaces; try done. apply Forall_forall. intros n Hn. apply (rep_names d t R). by apply Hl.
      + apply map_eq. intros n. rewrite keep_named_lookup, keep_lookup by done. case_decide as Hn; [done|].
        destruct (t !! n) as [y|] eqn:E; [|done]. exfalso. apply Hn, Hl. by rewrite E. }
  destruct K as (s' & tr & E & FW). exists s', tr. split; [|done]. unfold validate_lock_for_device, with_device, sbind, sget.
  rewrite Hd, E. done.
Qed.

(** The tables after every device of [ids] was checked. *)
Definition revalidated (s : system) (ids : list nat) (T : gmap nat lock_table) : gmap nat lock_table :=
  map_imap (fun id t =>
    match e_heap (h_env (s_hald s)) !! id with
    | Some d => Some (if decide (id ∈ ids) then keep (allowed s d) t else t)
    | None => Some t
    end) T.

Lemma turns_each ids s T :
  world_rep (world_of s) T -> (forall id, id ∈ ids -> is_Some (T !! id)) ->
  turns (validate_each cfg geteuid initialising a ids) s (revalidated s ids T).
Proof.
  revert s T. induction ids as [|id ids IH]; intros s T W H; cbn [validate_each].
  - apply turns_ret. replace (revalidated s [] T) with T; [done|]. apply map_eq. intros j. unfold revalidated.
    rewrite map_lookup_imap. destruct (T !! j) as [t|]; [|done]. cbn. by destruct (e_heap _ !! j).
  - destruct (H id (list_elem_of_here _ _)) as [t Ht]. destruct (wr_devices _ _ W id t Ht) as (d & Hd & R). cbn in Hd.
    apply (turns_seq _ _ _ (<[id := keep (allowed s d) t]> T)); [by apply turns_lock_for_device|].
    intros s1 F1 W1. replace (revalidated s (id :: ids) T) with (revalidated s1 ids (<[id := keep (allowed s d) t]> T)).
    { apply IH; [done|]. intros j Hj. destruct (decide (j = id)) as [->|Hne]; [rewrite lookup_insert_eq; eauto|].
      rewrite lookup_insert_ne by done. apply H. by right. }
    apply map_eq. intros j. unfold revalidated. rewrite !map_lookup_imap. pose proof (fr_udi _ _ F1 j) as U.
    destruct (decide (j = id)) as [->|Hne].
    + rewrite lookup_insert_eq, Ht. cbn. rewrite Hd in U |- *. rewrite (decide_True (P := id ∈ id :: ids)) by set_solver.
      destruct (e_heap (h_env (s_hald s1)) !! id) as [d1|]; [|done]. cbn in U. injection U as U.
      case_decide; [|done]. rewrite (keep_ext _ (allowed s d)); [by rewrite keep_idem|].
      intros x. by apply allowed_frame.
    + rewrite lookup_insert_ne by done. destruct (T !! j) as [tj|] eqn:Ej; [|done]. cbn.
      destruct (wr_devices _ _ W j tj Ej) as (dj & Hj & _). cbn in Hj. rewrite Hj in U |- *.
      destruct (e_heap (h_env (s_hald s1)) !! j) as [d1|]; [|done]. cbn in U. injection U as U.
      destruct (decide (j ∈ ids)); [rewrite decide_True by set_solver | by rewrite decide_False by set_solver].
      f_equal. apply keep_ext. intros x. by apply allowed_frame.
Qed.

Lemma turns_locks s T :
  world_rep (world_of s) T -> (forall id, id ∈ tdl (h_env (s_hald s)) ++ gdl (h_env (s_hald s)) -> is_Some (T !! id)) ->
  turns (validate_locks cfg geteuid initialising a) s
    (revalidated s (tdl (h_env (s_hald s)) ++ gdl (h_env (s_hald s))) T).
Proof.
  intros W H. assert (S : forall ids1 ids2 s, validate_each cfg geteuid initialising a (ids1 ++ ids2) s =
    (validate_each cfg geteuid initialising a ids1 ;% validate_each cfg geteuid initialising a ids2)%hal s).
  { clear. intros ids1 ids2. induction ids1 as [|id ids1 IH]; intros s; cbn [validate_each app].
    - unfold sbind, sret. by destruct (validate_each _ _ _ _ ids2 s) as [|[[[] ?] ?]].
    - unfold sbind in *. destruct (validate_lock_for_device _ _ _ _ id s) as [|[[[] s1] t1]]; [done|]. rewrite IH.
      destruct (validate_each _ _ _ _ ids1 s1) as [|[[[] s2] t2]]; [done|].
      destruct (validate_each _ _ _ _ ids2 s2) as [|[[[] s3] t3]]; [done|]. by rewrite app_assoc. }
  destruct (turns_each _ s T W H) as (s' & tr & E & FW). exists s', tr. split; [|done]. rewrite <- E, S.
  unfold validate_locks, sbind, sget. cbn [app].
  destruct (validate_each _ _ _ _ (tdl _) s) as [|[[[] s1] t1]] eqn:E1; [done|].
  assert (G : gdl (h_env (s_hald s1)) = gdl (h_env (s_hald s))); [|rewrite G].
  { destruct (turns_each (tdl (h_env (s_hald s))) s T W) as (s1' & t1' & E1' & F1 & _); [set_solver|].
    rewrite E1 in E1'. simplify_eq. apply F1. }
  by destruct (validate_each _ _ _ _ (gdl _) s1) as [|[[[] s2] t2]].
Qed.

Lemma revalidated_frame s s' ids T : frame s s' -> revalidated s' ids T = revalidated s ids T.
Proof.
  intros F. apply map_eq. intros j. unfold revalidated. rewrite !map_lookup_imap. destruct (T !! j) as [t|]; [|done]. cbn.
  pose proof (fr_udi _ _ F j) as U.
  destruct (e_heap (h_env (s_hald s)) !! j) as [d|], (e_heap (h_env (s_hald s')) !! j) as [d'|]; cbn in U; try done.
  injection U as U. case_decide; [|done]. f_equal. apply keep_ext. intros x. by apply allowed_frame.
Qed.

Context {P : Platform} (ck : consolekit).
Context (property_order : HalDevice -> list string).
Context (osspec_device_rescan osspec_device_reprobe : nat -> hm bool).
Context (osspec_filter_function : DBusMessage -> hm hresult).
Context (hald_runner_start hald_runner_start_singleton : string -> bool).
Context (stack : list ascii) (rules : cache) (depth udi_fuel : nat) (tv_usec : Z).
Context (printf_g : double -> string) (g_basename : string -> string).
Context (polkit_result : HalDevice -> string -> string -> option string).
Context (asked : hald -> DBusMessage -> list string).

#[local] Notation filter_function :=
  (hald_dbus_filter_function cfg geteuid initialising have_aclmgmt a ck property_order osspec_device_rescan
     osspec_device_reprobe osspec_filter_function hald_runner_start hald_runner_start_singleton stack rules depth
     udi_fuel tv_usec printf_g g_basename polkit_result asked).

Lemma session_callouts_run key env s : exists q t, session_callouts key env s = inr (tt, set_changes q s, t).
Proof.
  destruct s as [h c cs k q]. unfold session_callouts, sbind, sget. cbn [s_hald].
  destruct (find_by_udi (h_env h) COMPUTER) as [[id d]|]; [|by eexists _, _].
  destruct (hal_device_property_dup_strlist_as_strv d key) as [l|]; [|by eexists _, _].
  unfold push. destruct (session_changes_push _ _) as [x q']. by eexists _, _.
Qed.

(** A lock table without refused holders. *)
Lemma revalidated_holders s ids T id d t n h :
  world_rep (world_of s) (revalidated s ids T) -> T !! id = Some t -> id ∈ ids ->
  e_heap (h_env (s_hald s)) !! id = Some d -> name_ok n -> h ∈ holders_on d n -> allowed s d h = true.
Proof.
  intros W Ht Hid Hd Hn Hh.
  assert (E : revalidated s ids T !! id = Some (keep (allowed s d) t)).
  { unfold revalidated. rewrite map_lookup_imap, Ht. cbn. by rewrite Hd, decide_True. }
  destruct (wr_devices _ _ W id _ E) as (d' & Hd' & R). cbn in Hd'. rewrite Hd in Hd'. injection Hd' as <-.
  unfold holders_on in Hh. rewrite (holders_of_rep d _ n R Hn), keep_lookup in Hh.
  destruct (t !! n) as [[e hs]|]; [|by apply not_elem_of_nil in Hh]. cbn in Hh. unfold keep_holders in Hh. cbn in Hh.
  case_decide; [by apply not_elem_of_nil in Hh|]. by apply list_elem_of_filter in Hh as [? _].
Qed.

(** C9 When ConsoleKit says that a session became active or inactive, locks follow
    the access of their holders.  The daemon is built with ConsoleKit, its
    tracker knows the session (for one it does not know nothing is
    revalidated), and the lock properties of every device of the global and the
    temporary list encode a lock table (names that fit).  Then the signal is handled
    without fault, the lists keep their devices, and on each of them the
    holders of each lock are then those of before that may access the device
    with what is now known of them, in their order; the lists of devices that are in neither stay.  So, in
    a daemon that asks ConsoleKit alone, when the session becomes inactive no caller
    known to belong to it holds a lock on any listed device, unless it is root
    or the user of the daemon.  This includes the global locks, on the computer
    object, and there the code disagrees with its documentation:
    hal-spec-locking.xml and the comment in access-check.c say that clients of
    inactive sessions can always lock interfaces of the computer. *)
Theorem locks_follow_the_session connection m active s T :
  has_conkit cfg = true ->
  m_interface m = Some "org.freedesktop.ConsoleKit.Session" -> m_member m = "ActiveChanged" ->
  get_args_b m = Some active ->
  ck_inv (s_tracker s) -> is_Some (find (has_path (m_path m)) (t_sessions (view (s_tracker s)))) ->
  world_rep (world_of s) T ->
  let ids := tdl (h_env (s_hald s)) ++ gdl (h_env (s_hald s)) in
  (forall id, id ∈ ids -> is_Some (T !! id)) ->
  exists s' t, filter_function connection true m s = inr (NoReply, s', t) /\
    tdl (h_env (s_hald s')) ++ gdl (h_env (s_hald s')) = ids /\
    world_rep (world_of s') (revalidated s' ids T) /\
    forall caller ci, cfg = ConsoleKit -> active = false -> s_callers s !! caller = Some ci ->
      session_objpath ci = Some (m_path m) -> uid ci <> 0 -> uid ci <> geteuid ->
      forall id d n, id ∈ ids -> e_heap (h_env (s_hald s')) !! id = Some d -> name_ok n -> caller ∉ holders_on d n.
Proof.
  intros Hk Hi Hm Hb C K W ids Hids. destruct K as [sd Hsd].
  set (s1 := set_callers (ci_tracker_active_changed (m_path m) active (s_callers s)) s).
  destruct (handle_does ck (ActiveChanged (m_path m) active) (s_tracker s) C) as (k2 & Ek & C2 & V2).
  cbn [spec_signal] in Ek. rewrite Hsd in Ek. cbn [fst] in Ek.
  set (s2 := set_tracker k2 s1).
  destruct (turns_locks s2 T) as (s3 & t3 & E3 & F3 & W3); [exact W | exact Hids|].
  destruct (session_callouts_run
    (if active then "info.callouts.session_active" else "info.callouts.session_inactive")
    ["HALD_ACTION=session_active_changed";
     "HALD_SESSION_ACTIVE_CHANGED_SESSION_ID=" +:+ ck_session_get_id g_basename (with_active active sd);
     "HALD_SESSION_ACTIVE_CHANGED_SESSION_UID=" +:+ pretty (u32 (session_user (with_active active sd)));
     "HALD_SESSION_ACTIVE_CHANGED_SESSION_IS_ACTIVE=" +:+ true_false (session_is_active (with_active active sd))] s3)
    as (q & t4 & E4).
  exists (set_changes q s3). eexists. split; [|split; [|split]].
  - unfold hald_dbus_filter_function, is_disconnected, dbus_message_is_signal, dbus_message_is_method_call.
    rewrite Hi, Hm, Hk, Hb.
    refine (sbind_run (smod (fun s => set_callers (ci_tracker_active_changed (m_path m) active (s_callers s)) s)) _
              s tt s1 [] _ _ _ eq_refl _).
    eapply sbind_run; [|reflexivity]. unfold to_tracker. rewrite Hk.
    eapply (sbind_run _ _ _ [session_active_changed_cb (with_active active sd)] s2 []).
    + unfold of_tracker. change (s_tracker s1) with (s_tracker s). rewrite process_handles.
      unfold the_signal. rewrite Hi, Hm, Hb. change (handle ck (ActiveChanged (m_path m) active) (s_tracker s)) with
        (active_changed (m_path m) active (s_tracker s)) in Ek.
      match goal with |- match ?x with _ => _ end = _ => change x with (active_changed (m_path m) active (s_tracker s)) end.
      by rewrite Ek.
    + cbn [callbacks callback]. eapply sbind_run; [|reflexivity].
      unfold hald_dbus_session_active_changed. eapply sbind_run; [exact E3 | exact E4].
  - cbn. rewrite (fr_gdl _ _ F3), (fr_tdl _ _ F3). done.
  - change (world_of (set_changes q s3)) with (world_of s3). change (revalidated (set_changes q s3)) with (revalidated s3).
    rewrite (revalidated_frame s2 s3) by done. exact W3.
  - intros caller ci Hc Ha Hca Hse Hu1 Hu2 id d n Hid Hd Hn Hh.
    assert (X : allowed s3 d caller = true).
    { destruct (Hids id Hid) as [t Ht].
      eapply (revalidated_holders s3 ids T id d t n caller); try done. by rewrite (revalidated_frame s2 s3). }
    unfold allowed, access_check_caller_have_access_to_device in X. rewrite (fr_about _ _ F3), Hc in X.
    unfold DbusSession.about, ci_tracker_get_info in X. cbn [s_callers s2 s1 set_tracker set_callers] in X.
    destruct (negb (validate_bus_name caller)); [done|]. subst active. cbn [ci_tracker_active_changed] in X.
    rewrite lookup_fmap, Hca in X. cbn in X. unfold ci_tracker_clear_active, set_session_active in X.
    rewrite bool_decide_eq_true_2 in X by done. cbn in X.
    rewrite (proj2 (Z.eqb_neq _ _) Hu1), (proj2 (Z.eqb_neq _ _) Hu2), Hse in X. cbn in X. by destruct (negb (is_local ci)).
Qed.

(** ** A client leaves *)
Lemma release_all_run id l sender s :
  exists s' t, release_all initialising id l sender s = inr (tt, s', t) /\ frame s s' /\
    world_of s' = release_each id l sender (world_of s).
Proof.
  revert s. induction l as [|n l IH]; intros s; cbn [release_all release_each]; [by exists s, []|].
  destruct (release_run id n sender s) as (s1 & t1 & E1 & F1 & W1).
  destruct (IH s1) as (s2 & t2 & E2 & F2 & W2). exists s2, (t1 ++ t2). split; [by eapply sbind_run|].
  split; [by etrans|]. by rewrite W2, W1.
Qed.

(** The loop over the locked devices is the one of the locks. *)
Lemma client_disconnected_run links sender s :
  (forall id, id ∈ links -> is_Some (e_heap (h_env (s_hald s)) !! id)) ->
  match disconnect_loop links sender (world_of s) with
  | Finished w => exists s' t, client_disconnected initialising links sender s = inr (tt, s', t) /\ frame s s' /\ world_of s' = w
  | UseAfterFree _ => client_disconnected initialising links sender s = inl ReadAfterFree
  end.
Proof.
  revert s. induction links as [|id links IH]; intros s H; cbn [disconnect_loop client_disconnected]; [by exists s, []|].
  destruct (H id (list_elem_of_here _ _)) as [d Hd].
  assert (K : exists s1 t1, with_device id (fun d =>
      match hal_device_property_dup_strlist_as_strv d "info.named_locks" with
      | None => sret tt
      | Some locks => release_all initialising id locks sender
      end) s = inr (tt, s1, t1) /\ frame s s1 /\ world_of s1 = disconnect_device id sender (world_of s)).
  { unfold with_device, sbind, sget, disconnect_device. cbn [world_of lw_devices]. rewrite Hd. cbn [app].
    destruct (hal_device_property_dup_strlist_as_strv d "info.named_locks") as [l|]; [|by exists s, []].
    destruct (release_all_run id l sender s) as (s1 & t1 & -> & F1 & W1). by exists s1, t1. }
  destruct K as (s1 & t1 & E1 & F1 & W1). rewrite <- W1. cbn [world_of locked_devices].
  unfold sbind. rewrite E1. cbn [sget app]. case_decide as Hl; [|done].
  specialize (IH s1). destruct (disconnect_loop links sender (world_of s1)) as [w|w].
  - destruct IH as (s2 & t2 & -> & F2 & W2).
    { intros j Hj. apply (frame_devices _ _ j F1), H. by right. }
    eexists _, _. split; [reflexivity|]. split; [by etrans|done].
  - rewrite IH; [done|]. intros j Hj. apply (frame_devices _ _ j F1), H. by right.
Qed.

Lemma dropped_props d k :
  props (dev_of (drop_lock_properties d)) !! k = if decide (k ∈ advisory) then None else props d !! k.
Proof.
  unfold drop_lock_properties. rewrite !dev_of_bind. cbn [dret dev_of fst snd]. rewrite !remove_props.
  unfold advisory. case_decide as Hk.
  - rewrite !elem_of_cons in Hk. destruct Hk as [->|[->|[->|Hk]]]; [by simpl_map.. | by apply not_elem_of_nil in Hk].
  - rewrite !not_elem_of_cons in Hk. destruct Hk as (? & ? & ? & _). by simpl_map.
Qed.

Lemma dropped_udi : keeps_udi drop_lock_properties.
Proof. unfold drop_lock_properties. keeps_udi. Qed.

(** Advisory locks and interface locks do not meet. *)
Lemma dropped_rep d t : lock_rep d t -> lock_rep (dev_of (drop_lock_properties d)) t.
Proof.
  assert (N : forall n s, name_ok n -> lock_suffix s -> lock_buf n s ∉ advisory).
  { intros n s Hn Hs. rewrite lock_buf_fits by auto using lock_suffix_length.
    unfold advisory. rewrite !not_elem_of_cons. split_and!; [discriminate.. | apply not_elem_of_nil]. }
  intros [R1 R2 R3 R4]. split; [done | done | |].
  - intros n Hn. destruct (R3 n Hn) as [P1 P2 P3].
    split; rewrite dropped_props, decide_False by (apply N; [done | constructor]); done.
  - rewrite dropped_props, decide_False; [done|]. unfold advisory. rewrite !not_elem_of_cons.
    split_and!; [discriminate.. | apply not_elem_of_nil].
Qed.

Definition locks_in (h : hald) : lock_world := mk_lock_world (e_heap (h_env h)) (d_locked (h_core h)).

(** One device of the list: its three properties go, and the locks of all devices stay. *)
Lemma drop_locks_step connected id ids h T :
  world_rep (locks_in h) T -> is_Some (T !! id) ->
  exists h1 tr, world_rep (locks_in h1) T /\ services_with_locks h1 = services_with_locks h /\
    d_locked (h_core h1) = d_locked (h_core h) /\
    (forall j, no_advisory h j \/ j = id -> no_advisory h1 j) /\
    drop_locks connected initialising (id :: ids) h =
      match drop_locks connected initialising ids h1 with
      | inl c => inl c
      | inr (x, h2, t2) => inr (x, h2, tr ++ t2)
      end.
Proof.
  intros W [t Ht]. destruct (wr_devices _ _ W id t Ht) as (d & Hd & R). cbn in Hd.
  destruct (dev_op_run connected initialising id drop_lock_properties h d Hd) as (b & tr & E & _).
  set (h1 := set_bus b (set_env (env_after (h_env h) id (drop_lock_properties d)) h)) in E.
  eexists h1, _. split_and!; [|done|done| |].
  - replace (locks_in h1) with (mk_lock_world (<[id := dev_of (drop_lock_properties d)]> (lw_devices (locks_in h)))
      (apply_change id LockedKeep (locked_devices (locks_in h)))) by done.
    rewrite <- (insert_id T id t Ht). by apply (world_rep_insert _ T id _ t); [| | apply dropped_rep |].
  - intros j Hj d' k Hd' Hk. cbn in Hd'. destruct (decide (j = id)) as [->|Hne].
    + rewrite lookup_insert_eq in Hd'. injection Hd' as <-. by rewrite dropped_props, decide_True.
    + rewrite lookup_insert_ne in Hd' by done. destruct Hj as [Hj|]; [|done]. by apply (Hj d').
  - cbn [drop_locks]. rewrite hbind_get, Hd. unfold hbind. rewrite E. by destruct (drop_locks _ _ ids h1) as [|[[? ?] ?]].
Qed.

Lemma drop_locks_run connected ids h T :
  world_rep (locks_in h) T -> (forall id, id ∈ ids -> is_Some (T !! id)) ->
  exists h' t, drop_locks connected initialising ids h = inr (tt, h', t) /\ world_rep (locks_in h') T /\
    services_with_locks h' = services_with_locks h /\ d_locked (h_core h') = d_locked (h_core h) /\
    (forall id, no_advisory h id \/ id ∈ ids -> no_advisory h' id).
Proof.
  revert h. induction ids as [|id ids IH]; intros h W H.
  - exists h, []. split_and!; try done. intros id [?|?]; [done | by apply not_elem_of_nil in H0].
  - destruct (drop_locks_step connected id ids h T W (H id (list_elem_of_here _ _))) as (h1 & tr & W1 & S1 & L1 & N1 & E1).
    destruct (IH h1 W1) as (h2 & t2 & E2 & W2 & S2 & L2 & N2); [intros; apply H; by right|].
    eexists h2, _. rewrite E1, E2. split_and!; [done|done|congruence|congruence|].
    intros j Hj. apply N2. destruct Hj as [Hj|[->|Hj]%elem_of_cons]; [left; apply N1; by left | left; apply N1; by right | by right].
Qed.

(** A device of the list that is gone: its memory is read. *)
Lemma drop_locks_gone connected ids h T id :
  world_rep (locks_in h) T -> id ∈ ids -> T !! id = None -> drop_locks connected initialising ids h = inl ReadAfterFree.
Proof.
  revert h. induction ids as [|j ids IH]; intros h W Hin Hn; [by apply not_elem_of_nil in Hin|].
  destruct (T !! j) as [t|] eqn:Ej.
  - destruct (drop_locks_step connected j ids h T W ltac:(by rewrite Ej)) as (h1 & tr & W1 & _ & _ & _ & E1).
    rewrite E1, (IH h1); [done|done| |done]. apply elem_of_cons in Hin as [->|]; [congruence|done].
  - cbn [drop_locks]. rewrite hbind_get. pose proof (wr_others _ _ W j Ej) as Hj. cbn in Hj. by rewrite Hj.
Qed.

Lemma reconfigure_acl_run s : exists t, reconfigure_acl have_aclmgmt s = inr (tt, s, t).
Proof.
  unfold reconfigure_acl, sbind, sget, sact. destruct have_aclmgmt; [|by eexists].
  destruct (find_by_udi (h_env (s_hald s)) COMPUTER) as [[id d]|]; by eexists.
Qed.

Lemma callbacks_of_service l s :
  (forall e, e ∈ l -> e = service_disappeared_cb \/ e = service_appeared_cb) ->
  exists t, callbacks cfg geteuid initialising have_aclmgmt a g_basename l s = inr (tt, s, t).
Proof.
  induction l as [|e l IH]; intros H; cbn [callbacks]; [by eexists|].
  destruct IH as [t2 E2]; [set_solver|]. destruct (reconfigure_acl_run s) as [t1 E1].
  exists (t1 ++ t2). destruct (H e (list_elem_of_here _ _)) as [-> | ->]; by eapply sbind_run.
Qed.

Lemma to_tracker_owner m x s :
  m_interface m = Some "org.freedesktop.DBus" -> m_member m = "NameOwnerChanged" -> get_args_sss m = Some x ->
  ck_inv (s_tracker s) ->
  exists k t, to_tracker cfg geteuid initialising have_aclmgmt a ck g_basename true m s = inr (tt, set_tracker k s, t) /\ ck_inv k.
Proof.
  intros Hi Hm Hx C. destruct x as [[name old] new]. unfold to_tracker. destruct (has_conkit cfg).
  2: { exists (s_tracker s), []. split; [by destruct s | done]. }
  destruct (handle_does ck (NameOwnerChanged name old new) (s_tracker s) C) as (k & E & Ck & _).
  set (events := (spec_signal ck (NameOwnerChanged name old new) (view (s_tracker s))).1) in E.
  destruct (callbacks_of_service events (set_tracker k s)) as [t Et].
  { unfold events. cbn [spec_signal]. intros e. repeat case_decide; cbn; set_solver. }
  exists k, ([] ++ t). split; [|done]. eapply sbind_run; [|exact Et]. unfold of_tracker. rewrite process_handles.
  unfold the_signal. rewrite Hi, Hm, Hx. change (handle ck (NameOwnerChanged name old new) (s_tracker s)) with
    (name_owner_changed ck name old new (s_tracker s)) in E.
  match goal with |- match ?x with _ => _ end = _ => change x with (name_owner_changed ck name old new (s_tracker s)) end.
  by rewrite E.
Qed.

Lemma remove_lockowner_run connected old h T :
  world_rep (locks_in h) T -> (forall id, id ∈ default [] (services_with_locks h !! old) -> is_Some (T !! id)) ->
  exists h' t, services_with_locks_remove_lockowner connected initialising old h = inr (tt, h', t) /\
    world_rep (locks_in h') T /\ services_with_locks h' !! old = None /\
    forall id, id ∈ default [] (services_with_locks h !! old) -> no_advisory h' id.
Proof.
  intros W H. unfold services_with_locks_remove_lockowner. rewrite hbind_get.
  destruct (drop_locks_run connected _ h T W H) as (h1 & t1 & E1 & W1 & S1 & L1 & N1).
  eexists _, _. split_and!; [eapply hbind_run; [exact E1|]; rewrite hbind_mod; reflexivity | exact W1 | cbn | ].
  - by rewrite lookup_delete_eq.
  - intros id Hid. apply N1. by right.
Qed.

Lemma owner_changed_run connection m name old new s :
  m_interface m = Some "org.freedesktop.DBus" -> m_member m = "NameOwnerChanged" -> get_args_sss m = Some (name, old, new) ->
  filter_function connection true m s =
    (client_leaves initialising old ;% (to_tracker cfg geteuid initialising have_aclmgmt a ck g_basename true m ;% sret NoReply))%hal
      (set_callers (ci_tracker_name_owner_changed name old new (s_callers s)) s).
Proof.
  intros Hi Hm Hx. unfold hald_dbus_filter_function, is_disconnected, dbus_message_is_signal, dbus_message_is_method_call.
  rewrite Hi, Hm, Hx.
  match goal with |- _ = ?r => change (match r with inl c => inl c | inr (b, s2, t2) => inr (b, s2, [] ++ t2) end = r) end.
  by destruct (sbind _ _ _) as [|[[? ?] ?]].
Qed.

Lemma advised_gone (T : gmap nat lock_table) (ids : list nat) :
  (exists id, id ∈ ids /\ T !! id = None) \/ forall id, id ∈ ids -> is_Some (T !! id).
Proof.
  destruct (decide (Exists (fun id => T !! id = None) ids)) as [H|H]; [left; by apply Exists_exists|right].
  intros id Hid. apply not_eq_None_Some. intros E. apply H, Exists_exists. by exists id.
Qed.

(** C10 A client that leaves the bus is forgotten.  Let the lock properties of the
    devices encode a lock table (names that fit).  After the signal that a name
    has lost the owner [old], [old] holds no interface lock on any device and no
    advisory lock on a device it had locked, the holders of all locks are otherwise as before, and what was
    known of the caller is asked anew; or freed memory was read, which happens
    in two cases only: a device on which [old] took an advisory lock, and which is
    still in its list, has been removed since (and then it always happens), or
    [old] held all locks of some device, so that the loop over the locked
    devices goes on from a link it has freed.
    Nothing of this depends on which name was lost. *)
Theorem leaving_client_is_forgotten connection m name old new s T :
  m_interface m = Some "org.freedesktop.DBus" -> m_member m = "NameOwnerChanged" ->
  get_args_sss m = Some (name, old, new) -> old <> "" ->
  ck_inv (s_tracker s) -> world_rep (world_of s) T ->
  let advised := default [] (services_with_locks (s_hald s) !! old) in
  match filter_function connection true m s with
  | inr (r, s', _) =>
      (forall id, id ∈ advised -> is_Some (T !! id)) /\
      r = NoReply /\ world_rep (world_of s') (drop_sender old <$> T) /\
      services_with_locks (s_hald s') !! old = None /\ (forall id, id ∈ advised -> no_advisory (s_hald s') id) /\
      about s' old = (ci_tracker_get_info (has_conkit cfg) a (Some old) ∅).1
  | inl c =>
      c = ReadAfterFree /\
      ((exists id, id ∈ advised /\ T !! id = None) \/ exists id t, T !! id = Some t /\ t <> ∅ /\ drop_sender old t = ∅)
  end.
Proof.
  intros Hi Hm Hx Hold C W advised.
  set (s1 := set_callers (ci_tracker_name_owner_changed name old new (s_callers s)) s).
  destruct (advised_gone T advised) as [(g & Hg & Hgone)|Hadv].
  { rewrite (owner_changed_run connection m name old new s Hi Hm Hx). fold s1. unfold sbind at 1.
    unfold client_leaves, sbind at 1, of_hald. change (s_hald s1) with (s_hald s).
    unfold services_with_locks_remove_lockowner. rewrite hbind_get. unfold hbind at 1.
    rewrite (drop_locks_gone _ _ _ T g); [|exact W|exact Hg|exact Hgone]. split; [done|]. left. by exists g. }
  destruct (remove_lockowner_run (s_connected s) old (s_hald s) T W Hadv) as (h2 & t2 & E2 & W2 & S2 & N2).
  set (s2 := set_hald h2 s1).
  assert (El : forall r, client_disconnected initialising (d_locked (h_core h2)) old s2 = r ->
               client_leaves initialising old s1 = match r with inl c => inl c | inr (x, s3, t3) => inr (x, s3, (Act <$> t2) ++ t3) end).
  { intros r <-. unfold client_leaves, sbind at 1, of_hald. change (s_hald s1) with (s_hald s).
    change (s_connected s1) with (s_connected s). rewrite E2. rewrite bool_decide_eq_true_2 by (destruct old; [done | cbn; lia]).
    unfold sbind, sget. fold s2. change (d_locked (h_core (s_hald s2))) with (d_locked (h_core h2)).
    by destruct (client_disconnected _ _ _ _) as [|[[? ?] ?]]. }
  pose proof (client_disconnected_run (d_locked (h_core h2)) old s2) as K.
  pose proof (disconnect_loop_rep (d_locked (h_core h2)) (world_of s2) T old W2 (wr_nodup _ _ W2) (fun id H => H)) as D.
  assert (Hdev : forall id, id ∈ d_locked (h_core h2) -> is_Some (e_heap (h_env (s_hald s2)) !! id)).
  { intros id Hid. apply (wr_locked _ _ W2) in Hid as (t & Ht & _). destruct (wr_devices _ _ W2 id t Ht) as (d & Hd & _). eauto. }
  specialize (K Hdev). rewrite (owner_changed_run connection m name old new s Hi Hm Hx). fold s1. destruct (disconnect_loop _ _ _) as [w|w].
  - destruct K as (s3 & t3 & E3 & F3 & W3). destruct D as [D _]. rewrite (drop_on_all old (world_of s2)) in D by done.
    destruct (to_tracker_owner m (name, old, new) s3 Hi Hm Hx) as (k & t4 & E4 & _).
    { by rewrite (fr_tracker _ _ F3). }
    erewrite sbind_run; [|rewrite (El _ E3); reflexivity|]; [|eapply sbind_run; [exact E4 | reflexivity]].
    split_and!; [done | done | | | |].
    + change (world_of (set_tracker k s3)) with (world_of s3). by rewrite W3.
    + cbn. by rewrite (fr_services _ _ F3).
    + intros id Hid. apply (fr_advisory _ _ F3). by apply N2.
    + change (about (set_tracker k s3) old) with (about s3 old). rewrite (fr_about _ _ F3).
      unfold DbusSession.about, ci_tracker_get_info. cbn [s2 s1 set_hald set_callers s_callers].
      unfold ci_tracker_name_owner_changed. rewrite bool_decide_eq_true_2 by (destruct old; [done | cbn; lia]).
      rewrite lookup_delete_eq, lookup_empty. destruct (negb _); [done|]. by destruct (ask_caller _ _ old).
  - unfold sbind at 1. rewrite (El _ K). split; [done|]. right. destruct D as (id & t & Hid & Ht & De). exists id, t.
    split_and!; [done | | done]. apply (wr_locked _ _ W2) in Hid as (t' & Ht' & Hne). by simplify_eq.
Qed.
(** The connection to the bus is lost and made again: the clients of the old bus
    are gone, and their names may belong to others, but their locks stay. *)
Lemma locks_survive_a_new_bus connection m s :
  is_disconnected true m = true ->
  exists s1 t1, filter_function connection true m s = inr (NoReply, s1, t1) /\
    s_hald s1 = s_hald s /\ s_connected s1 = false /\
    forall again got retry s2 t2, reinit_dbus cfg ck again got s1 = inr (retry, s2, t2) -> s_hald s2 = s_hald s.
Proof.
  intros D. assert (R : forall s1, s_connected s1 = false -> s_hald s1 = s_hald s ->
    forall again got retry s2 t2, reinit_dbus cfg ck again got s1 = inr (retry, s2, t2) -> s_hald s2 = s_hald s).
  { intros s1 C <- again got retry s2 t2. unfold reinit_dbus, hald_dbus_init, hald_dbus_init_preprobe, sbind, sget, smod, sret.
    rewrite C. destruct again; [|by intros [= _ <- _]]. cbn [negb].
    destruct (has_conkit cfg); [|by intros [= _ <- _]]. unfold of_tracker. cbn.
    destruct (ck_tracker_init ck ck_tracker_new) as [[b k]|]; [by intros [= _ <- _] | done]. }
  assert (E : to_tracker cfg geteuid initialising have_aclmgmt a ck g_basename true m (set_connected false s) =
              inr (tt, set_connected false s, [])).
  { unfold to_tracker. destruct (has_conkit cfg); [|done]. eapply (sbind_run _ _ _ [] (set_connected false s) []); [|done].
    unfold of_tracker. rewrite process_handles. unfold is_disconnected, dbus_message_is_signal, dbus_message_is_method_call in D.
    cbn [andb] in D. unfold the_signal. destruct (m_interface m) as [i|]; [|done]. apply andb_true_iff in D as [D _].
    apply andb_true_iff in D as [D1 D2]. apply bool_decide_eq_true in D1 as ->. apply bool_decide_eq_true in D2 as ->. reflexivity. }
  exists (set_connected false s), ([] ++ [Reconnect 3000] ++ [] ++ []). split_and!; [|done|done|by apply R].
  unfold hald_dbus_filter_function. rewrite D. eapply sbind_run; [reflexivity|]. eapply sbind_run; [reflexivity|].
  eapply sbind_run; [exact E | reflexivity].
Qed.

(** A lock on the computer that a caller of an inactive session took (which needs
    no access) does not survive the next change of a session: the check is not for
    the action that the exception for the computer names. *)
Lemma inactive_sessions_lose_global_locks s computer caller ci :
  cfg = ConsoleKit -> udi computer = COMPUTER -> about s caller = Some ci -> uid ci <> 0 -> uid ci <> geteuid ->
  in_active_session ci = false ->
  access cfg (fun n => caller_view <$> about s n) geteuid computer caller = true /\ allowed s computer caller = false.
Proof.
  intros Hc Hu Ha H1 H2 H3. unfold access, allowed, access_check_caller_have_access_to_device.
  rewrite Hc, Hu. rewrite Hc in Ha. rewrite Ha. cbn.
  rewrite (proj2 (Z.eqb_neq _ _) H1), (proj2 (Z.eqb_neq _ _) H2). cbn. split; [done|].
  destruct (session_objpath ci); [|done]. destruct (negb (is_local ci)); [done|]. by rewrite H3.
Qed.
End System.

(** ** Instances *)
Module Instances.
Import AsciiPlatform Example.

Definition SESSION : string := "/org/freedesktop/ConsoleKit/Session1".
Definition SEAT : string := "/org/freedesktop/ConsoleKit/Seat1".
Definition STORAGE : string := "org.freedesktop.Hal.Device.Storage".
Definition ck1 : consolekit :=
  mk_consolekit (fun _ => Some true) (fun _ => Some true) (fun _ => Some "") (fun _ => Some 1000) None (fun _ => None).
Definition nobody : answers :=
  mk_answers (fun _ => None) (fun _ => None) (fun _ => SELinuxUnknown) (fun _ => None) (fun _ => None) (fun _ => None).

(** A user in the session and root share a lock. *)
Definition lock_ops : list (nat * lock_op) := [(1%nat, Acquire STORAGE false ":1.7"); (1%nat, Acquire STORAGE false ":1.8")].
Definition no_one : lock_world := world_of (mk_system start true ∅ ck_tracker_new (mk_session_queue [] false)).
Definition shared : lock_world := run_world_ops lock_ops no_one.
Definition tables : gmap nat lock_table := spec_world_ops lock_ops ((fun _ => ∅) <$> lw_devices no_one).

Definition known_callers : caller_cache :=
  <[":1.7" := mk_caller_info 1000 42 true true (Some SESSION) None]>
    (<[":1.8" := mk_caller_info 0 43 false false None None]> ∅).
Definition seated : CKTracker :=
  match ck_bind (handle ck1 (SeatAdded SEAT)) (fun _ => handle ck1 (SessionAdded SEAT SESSION)) ck_tracker_new with
  | Some (_, k) => k
  | None => ck_tracker_new
  end.
Definition running : system :=
  mk_system
    (mk_hald (mk_daemon (mk_env (lw_devices shared) [1; 0]%nat [] [] 0 []) (locked_devices shared)) (mk_bus 0 0 []) ∅ [] ∅ ∅)
    true known_callers seated (mk_session_queue [] false).

Lemma seated_inv : ck_inv seated.
Proof.
  unfold seated, ck_bind. destruct (handle_does ck1 (SeatAdded SEAT) ck_tracker_new ck_inv_new) as (k1 & -> & C1 & _).
  destruct (handle_does ck1 (SessionAdded SEAT SESSION) k1 C1) as (k2 & -> & C2 & _). exact C2.
Qed.

Lemma shared_rep : world_rep (world_of running) tables.
Proof.
  change (world_of running) with (mk_lock_world (lw_devices shared) (locked_devices shared)).
  assert (W : world_rep shared tables); [|by destruct shared].
  apply run_world_ops_rep; [|repeat (apply Forall_cons_2; [unfold name_ok; simpl; lia|]); apply Forall_nil_2].
  apply fresh_world_rep. split; [|reflexivity]. apply (bool_decide_unpack _). vm_compute. exact I.
Qed.

Definition inactive : DBusMessage :=
  mk_message SESSION (Some "org.freedesktop.ConsoleKit.Session") "ActiveChanged" (Some ":1.3") [VBoolean false].

Lemma locks_follow_the_session_witness :
  exists s' t d, hald_dbus_filter_function ConsoleKit 99 false false nobody ck1 order
      (fun _ => hret true) (fun _ => hret true) (fun _ => hret NotHandled) (fun _ => true) (fun _ => true)
      [] no_rules 1 10 0 (fun _ => "") (fun s => s) (fun _ _ _ => None) (fun _ _ => []) 1 true inactive running
    = inr (NoReply, s', t) /\ e_heap (h_env (s_hald s')) !! 1%nat = Some d /\ ":1.7" ∉ holders_on d STORAGE.
Proof.
  destruct (locks_follow_the_session ConsoleKit 99 false false nobody ck1 order
    (fun _ => hret true) (fun _ => hret true) (fun _ => hret NotHandled) (fun _ => true) (fun _ => true)
    [] no_rules 1 10 0 (fun _ => "") (fun s => s) (fun _ _ _ => None) (fun _ _ => []) 1 inactive false running tables)
    as (s' & t & E & _ & W & H); try reflexivity.
  - apply seated_inv.
  - apply (bool_decide_unpack _). vm_compute. exact I.
  - apply shared_rep.
  - intros id Hid. apply (bool_decide_unpack _). cbn in Hid. rewrite !elem_of_cons, elem_of_nil in Hid.
    destruct Hid as [-> | [-> | []]]; vm_compute; exact I.
  - assert (Hd : is_Some (e_heap (h_env (s_hald s')) !! 1%nat)).
    { destruct (revalidated ConsoleKit 99 nobody s' (tdl (h_env (s_hald running)) ++ gdl (h_env (s_hald running))) tables !! 1%nat) as [x|] eqn:Ex.
      - destruct (wr_devices _ _ W 1%nat x Ex) as (d & Hd & _). by exists d.
      - exfalso. unfold revalidated in Ex. rewrite map_lookup_imap in Ex.
        assert (is_Some (tables !! 1%nat)) as [y Hy] by (apply (bool_decide_unpack _); vm_compute; exact I).
        rewrite Hy in Ex. simpl in Ex. by destruct (e_heap (h_env (s_hald s')) !! 1%nat). }
    destruct Hd as [d Hd]. exists s', t, d. split; [exact E|]. split; [exact Hd|].
    refine (H ":1.7" (mk_caller_info 1000 42 true true (Some SESSION) None) eq_refl eq_refl eq_refl eq_refl _ _
              1%nat d STORAGE _ Hd _); [discriminate | discriminate | left | unfold name_ok; simpl; lia].
Defined.

Definition leaves : DBusMessage :=
  mk_message "/org/freedesktop/DBus" (Some "org.freedesktop.DBus") "NameOwnerChanged" (Some "org.freedesktop.DBus")
    [VString "org.example.Player"; VString ":1.7"; VString ""].

(** The client gave up a name and is still there; its lock is gone all the same. *)
Lemma leaving_client_is_forgotten_witness :
  exists s' t, hald_dbus_filter_function ConsoleKit 99 false false nobody ck1 order
      (fun _ => hret true) (fun _ => hret true) (fun _ => hret NotHandled) (fun _ => true) (fun _ => true)
      [] no_rules 1 10 0 (fun _ => "") (fun s => s) (fun _ _ _ => None) (fun _ _ => []) 1 true leaves running
    = inr (NoReply, s', t) /\ world_rep (world_of s') (drop_sender ":1.7" <$> tables).
Proof.
  pose proof (leaving_client_is_forgotten ConsoleKit 99 false false nobody ck1 order
    (fun _ => hret true) (fun _ => hret true) (fun _ => hret NotHandled) (fun _ => true) (fun _ => true)
    [] no_rules 1 10 0 (fun _ => "") (fun s => s) (fun _ _ _ => None) (fun _ _ => []) 1 leaves
    "org.example.Player" ":1.7" "" running tables eq_refl eq_refl eq_refl ltac:(discriminate) seated_inv shared_rep) as H.
  cbv zeta in H. change (services_with_locks (s_hald running)) with (∅ : gmap string (list nat)) in H.
  rewrite lookup_empty in H.
  destruct (hald_dbus_filter_function _ _ _ _ _ _ _ _ _ _ _ _ _ _ _ _ _ _ _ _ _ 1 true leaves running) as [c|[[r s'] t]].
  - exfalso. destruct H as (_ & [(id & Hid & _)|(id & x & Hx & Hne & Hd)]); [by apply not_elem_of_nil in Hid|].
    assert (K : bool_decide (map_Forall (fun _ y => y <> ∅ -> drop_sender ":1.7" y <> ∅) tables) = true)
      by (vm_compute; reflexivity).
    apply bool_decide_eq_true in K. by apply (K id x).
  - destruct H as (_ & -> & W & _). by exists s', t.
Defined.
End Instances.
