(* ===== verification/Runner.v ===== *)
(** * The process that runs helpers ([hald-runner/])

    hald-runner starts programs for the daemon and tells it how they ended.  A
    request is an object on the heap that the watch of its process, its timer and
    the tables of the runner point to; an operation is [inl] when it reads a
    request that was freed, or when an assertion fails.

    What happens outside comes in as [input]: messages of the daemon, each with a
    serial number and with the result of starting the program, the end of a
    process, and a timer that runs out.  Sending a message, and a signal to a
    process, is [output]. *)

From Stdlib Require Import ZArith Lia Ascii.
From stdpp Require Import base list gmap strings option pretty fin_maps.
From S2P Require Import Prelude CStd Property Device DeviceStore Dbus.

Definition HALD_RUN_SUCCESS : Z := 0.
Definition HALD_RUN_TIMEOUT : Z := 1.
Definition HALD_RUN_FAILED : Z := 2.
Definition HALD_RUN_KILLED : Z := 4.

Record run_request := mk_request {
  r_udi : option string;
  r_environment : list string;
  r_argv : list string;
  r_input : option string;
  r_error_on_stderr : bool;
  r_is_singleton : bool;
  r_timeout : Z;
}.
Definition new_run_request : run_request := mk_request None [] [] None false false 0.

(** [rd_msg]: the serial number of the message to reply to. *)
Record run_data := mk_run_data {
  rd_r : run_request;
  rd_msg : option nat;
  rd_pid : Z;
  rd_timeout : bool;
  rd_sent_kill : bool;
  rd_emit_pid_exited : bool;
}.

(** [requests] has what is allocated; each has a watch for the end of its process. *)
Record runner := mk_runner {
  requests : gmap nat run_data;
  udi_hash : gmap string (list nat);
  singletons : list nat;
  next_request : nat;
}.
Definition run_init : runner := mk_runner ∅ ∅ [] 0.

Inductive output :=
  | RunReply (serial : nat) (exit_type return_code : Z) (error : list string)
  | StartReply (serial : nat) (pid : Z)
  | EmptyReply (serial : nat)
  | ErrorMessage (serial : nat) (name text : string)
  | StartedProcessExited (pid : Z)
  | Terminate (pid : Z)                     (** [kill (pid, SIGTERM)] *)
  | WriteStdin (pid : Z) (text : string)
  | Exit.

Inductive runner_fault := FreedRequest | AssertionFailed.
Definition rm (A : Type) : Type := runner -> runner_fault + (A * runner * list output).
Definition rret {A} (x : A) : rm A := fun st => inr (x, st, []).
Definition rbind {A B} (m : rm A) (k : A -> rm B) : rm B := fun st =>
  match m st with
  | inl f => inl f
  | inr (x, st1, o1) =>
      match k x st1 with
      | inl f => inl f
      | inr (y, st2, o2) => inr (y, st2, o1 ++ o2)
      end
  end.
Notation "'let~' x := m 'in' k" := (rbind m (fun x => k))
  (at level 10, x name, m at level 100, k at level 200) : hal_scope.
Notation "m ;~ k" := (rbind m (fun _ => k)) (at level 199, right associativity) : hal_scope.

Definition emit (l : list output) : rm unit := fun st => inr (tt, st, l).
Definition rfault {A} (f : runner_fault) : rm A := fun _ => inl f.
Definition get_request (id : nat) : rm run_data := fun st =>
  match requests st !! id with Some rd => inr (rd, st, []) | None => inl FreedRequest end.
Definition put_request (id : nat) (rd : run_data) : rm unit := fun st =>
  inr (tt, mk_runner (<[id := rd]> (requests st)) (udi_hash st) (singletons st) (next_request st), []).
Definition del_run_data (id : nat) : rm unit := fun st =>
  inr (tt, mk_runner (delete id (requests st)) (udi_hash st) (singletons st) (next_request st), []).
Definition set_udi_hash (f : gmap string (list nat) -> gmap string (list nat)) : rm unit := fun st =>
  inr (tt, mk_runner (requests st) (f (udi_hash st)) (singletons st) (next_request st), []).
Definition set_singletons (f : list nat -> list nat) : rm unit := fun st =>
  inr (tt, mk_runner (requests st) (udi_hash st) (f (singletons st)) (next_request st), []).
Definition new_request (rd : run_data) : rm nat := fun st =>
  inr (next_request st, mk_runner (<[next_request st := rd]> (requests st)) (udi_hash st) (singletons st)
                                  (S (next_request st)), []).
Definition rget {A} (f : runner -> A) : rm A := fun st => inr (f st, st, []).

(** ** Requests *)
Definition send_reply (msg : option nat) (exit_type return_code : Z) (error : list string) : rm unit :=
  match msg with
  | None => rret tt
  | Some serial => emit [RunReply serial exit_type return_code error]
  end.

(** The message of a [RunReply]. *)
Definition run_reply_message (exit_type return_code : Z) (error : list string) : dbus_reply :=
  MethodReturn (VUint32 exit_type :: VInt32 return_code :: (VString <$> error)).

(** A request that is no singleton has a UDI. *)
Definition hash_key (r : run_request) : string := default "" (r_udi r).

Definition remove_run_data (id : nat) (rd : run_data) : rm unit :=
  if r_is_singleton (rd_r rd) then set_singletons (slist_remove id)
  else set_udi_hash (fun h => <[hash_key (rd_r rd) := slist_remove id (default [] (h !! hash_key (rd_r rd)))]> h).

(** How a process ended. *)
Inductive exit_status := Exited (code : Z) | Signaled.

(** [lines]: what [get_string_array_from_fd] reads; it reads at most 128. *)
Definition run_exited (id : nat) (status : exit_status) (lines : list string) : rm unit :=
  let~ rd := get_request id in
  if rd_sent_kill rd then del_run_data id
  else
    (match status with
     | Signaled => send_reply (rd_msg rd) HALD_RUN_FAILED 0 []
     | Exited code =>
         send_reply (rd_msg rd) HALD_RUN_SUCCESS code (if r_error_on_stderr (rd_r rd) then take 128 lines else [])
     end) ;~
    remove_run_data id rd ;~
    emit (if rd_emit_pid_exited rd then [StartedProcessExited (rd_pid rd)] else []) ;~
    del_run_data id.

Definition killed (rd : run_data) : run_data :=
  mk_run_data (rd_r rd) (rd_msg rd) (rd_pid rd) false true (rd_emit_pid_exited rd).

Definition run_timedout (id : nat) : rm unit :=
  let~ rd := get_request id in
  emit [Terminate (rd_pid rd)] ;~
  put_request id (killed rd) ;~
  send_reply (rd_msg rd) HALD_RUN_TIMEOUT 0 [] ;~
  remove_run_data id rd.

Definition kill_rd (id : nat) : rm unit :=
  let~ rd := get_request id in
  emit [Terminate (rd_pid rd)] ;~
  put_request id (killed rd) ;~
  send_reply (rd_msg rd) HALD_RUN_KILLED 0 [].

Fixpoint kill_each (l : list nat) : rm unit :=
  match l with [] => rret tt | id :: rest => kill_rd id ;~ kill_each rest end.

Definition do_kill_udi (u : string) : rm unit :=
  let~ l := rget (fun st => default [] (udi_hash st !! u)) in kill_each l.

Definition run_kill_udi (u : string) : rm unit :=
  do_kill_udi u ;~ set_udi_hash (delete u).

(** [hash_kill_udi]: the entry is removed. *)
Fixpoint kill_udis (l : list string) : rm unit :=
  match l with [] => rret tt | u :: rest => do_kill_udi u ;~ set_udi_hash (delete u) ;~ kill_udis rest end.

Section Runner.
(** The order in which GLib walks the table, and its search for programs. *)
Context (udi_order : gmap string (list nat) -> list string).
Context (g_path_get_basename : string -> string) (g_find_program_in_path : string -> option string).
Context (PATH : string).

(** The list of singletons stays. *)
Definition run_kill_all : rm unit :=
  let~ order := rget (fun st => udi_order (udi_hash st)) in
  kill_udis order ;~
  let~ l := rget singletons in kill_each l.

Definition find_program (argv : list string) : option (list string) :=
  match argv with
  | [] => None
  | program :: args =>
      match g_find_program_in_path (g_path_get_basename program) with
      | None => None
      | Some path => Some (path :: args)
      end
  end.

Definition with_argv (argv : list string) (r : run_request) : run_request :=
  mk_request (r_udi r) (r_environment r) argv (r_input r) (r_error_on_stderr r) (r_is_singleton r) (r_timeout r).

(** [spawned]: the process, if it could be started.  [out_pid]: whether the caller
    asks for it. *)
Definition run_request_run (r : run_request) (msg : option nat) (out_pid : bool) (spawned : option Z)
  : rm (option Z) :=
  match find_program (r_argv r), spawned with
  | Some argv, Some pid =>
      emit (match r_input r with Some text => [WriteStdin pid text] | None => [] end) ;~
      let r := with_argv argv r in
      let~ id := new_request (mk_run_data r msg pid (bool_decide (0 < r_timeout r)) false out_pid) in
      (if r_is_singleton r then set_singletons (cons id)
       else set_udi_hash (fun h => <[hash_key r := id :: default [] (h !! hash_key r)]> h)) ;~
      rret (Some pid)
  | _, _ => send_reply msg HALD_RUN_FAILED 0 [] ;~ rret None
  end.

(** ** Messages *)
Definition get_string_array (v : dbus_value) (extra : option string) : list string :=
  (match v with VStrings l => l | _ => [] end) ++ option_list extra.

(** The request, and the arguments behind the current one. *)
Definition parse_udi (r : run_request) (args : list dbus_value) : option (run_request * list dbus_value) :=
  match args with
  | VString u :: ((_ :: _) as rest) =>
      Some (mk_request (Some u) (r_environment r) (r_argv r) (r_input r) (r_error_on_stderr r) (r_is_singleton r)
                       (r_timeout r), rest)
  | _ => None
  end.

Definition parse_environment (r : run_request) (args : list dbus_value) : option (run_request * list dbus_value) :=
  match args with
  | e :: v :: rest =>
      if is_array e && is_array v then
        Some (mk_request (r_udi r) (get_string_array e (Some ("PATH=/sbin:/usr/sbin:/bin:/usr/bin:" +:+ PATH)))
                (get_string_array v None) (r_input r) (r_error_on_stderr r) (r_is_singleton r) (r_timeout r), rest)
      else None
  | _ => None
  end.

Definition parse_run (args : list dbus_value) : option run_request :=
  '(r, args) ← parse_udi new_run_request args;
  '(r, args) ← parse_environment r args;
  match args with
  | VString input :: VBoolean error_on_stderr :: VUint32 timeout :: _ =>
      Some (mk_request (r_udi r) (r_environment r) (r_argv r) (Some input) error_on_stderr (r_is_singleton r) timeout)
  | _ => None
  end.

Definition parse_start (is_singleton : bool) (args : list dbus_value) : option run_request :=
  let r := mk_request None [] [] None false is_singleton 0 in
  '(r, args) ← (if is_singleton then Some (r, args) else parse_udi r args);
  '(r, _) ← parse_environment r args;
  Some r.

Definition handle_run (serial : nat) (m : DBusMessage) (spawned : option Z) : rm unit :=
  match m_args m with
  | [] => rfault AssertionFailed
  | args =>
      match parse_run args with
      | None => emit [ErrorMessage serial "org.freedesktop.HalRunner.Malformed" "Malformed run request"]
      | Some r => run_request_run r (Some serial) false spawned ;~ rret tt
      end
  end.

Definition handle_start (serial : nat) (m : DBusMessage) (is_singleton : bool) (spawned : option Z) : rm unit :=
  match m_args m with
  | [] => rfault AssertionFailed
  | args =>
      match parse_start is_singleton args with
      | None => emit [ErrorMessage serial "org.freedesktop.HalRunner.Malformed" "Malformed start request"]
      | Some r =>
          let~ pid := run_request_run r None true spawned in
          emit (match pid with
                | Some pid => [StartReply serial pid]
                | None => [ErrorMessage serial "org.freedesktop.HalRunner.Failed" "Start request failed"]
                end)
      end
  end.

Definition handle_kill (serial : nat) (m : DBusMessage) : rm unit :=
  match get_args_s m with
  | None => emit [ErrorMessage serial "org.freedesktop.HalRunner.Malformed" "Malformed kill message"]
  | Some u => run_kill_udi u ;~ emit [EmptyReply serial]
  end.

Definition RUNNER : string := "org.freedesktop.HalRunner".

(** EXITED: the call does not return. *)
Inductive filter_result := HANDLED | NOT_YET_HANDLED | EXITED.

Definition filter (serial : nat) (m : DBusMessage) (spawned : option Z) : rm filter_result :=
  let call := dbus_message_is_method_call m RUNNER in
  if call "Run" then handle_run serial m spawned ;~ rret HANDLED
  else if call "Start" then handle_start serial m false spawned ;~ rret HANDLED
  else if call "StartSingleton" then handle_start serial m true spawned ;~ rret HANDLED
  else if call "Kill" then handle_kill serial m ;~ rret HANDLED
  else if call "Shutdown" then run_kill_all ;~ emit [Exit] ;~ rret EXITED
  else if call "KillAll" then run_kill_all ;~ emit [EmptyReply serial] ;~ rret HANDLED
  else rret NOT_YET_HANDLED.

(** ** The main loop *)
Inductive input :=
  | Message (serial : nat) (m : DBusMessage) (spawned : option Z)
  | ProcessEnds (id : nat) (status : exit_status) (lines : list string)
  | TimerRunsOut (id : nat).

(** A process ends once, and a timer that was removed does not run out.  FALSE:
    the runner has exited. *)
Definition step (i : input) : rm bool :=
  match i with
  | Message serial m spawned =>
      let~ r := filter serial m spawned in rret (match r with EXITED => false | _ => true end)
  | ProcessEnds id status lines =>
      let~ watched := rget (fun st => requests st !! id) in
      (match watched with Some _ => run_exited id status lines | None => rret tt end) ;~ rret true
  | TimerRunsOut id =>
      let~ rd := rget (fun st => requests st !! id) in
      (match rd with
       | Some rd => if rd_timeout rd then run_timedout id else rret tt
       | None => rret tt
       end) ;~ rret true
  end.

Fixpoint run (l : list input) : rm unit :=
  match l with
  | [] => rret tt
  | i :: rest => let~ goes_on := step i in if goes_on then run rest else rret tt
  end.
End Runner.
