(* ===== verification/RunnerLink.v ===== *)
(** * The daemon's side of the helper runner ([hald/hald_runner.c])

    Requests to hald-runner are messages with the environment and the command
    line of a program; replies end in callbacks.  A callback is known by a value
    of the type [CB] (the function with its two data pointers); whether it is NULL
    matters.  References to devices are counted: taking and dropping one is an
    event.

    GLib's parser of command lines, the system's name, the environment of the
    daemon and the replies of the runner are parameters or inputs. *)

From Stdlib Require Import ZArith Lia Ascii SpecFloat.
From stdpp Require Import base list gmap strings option pretty fin_maps.
From S2P Require Import Prelude CStd Property Device DeviceStore FdiRules AccessCheck Bus Dbus SessionTracker Runner.

(** [g_ascii_strup], [g_ascii_strdown]. *)
Definition ascii_upper (c : ascii) : ascii :=
  let n := nat_of_ascii c in if (97 <=? n)%nat && (n <=? 122)%nat then ascii_of_nat (n - 32) else c.
Definition g_ascii_strup : string -> string := string_map ascii_upper.
Definition g_ascii_strdown : string -> string := string_map tolower.
Definition dots_to_underscores : string -> string :=
  string_map (fun c => if decide (c = "."%char) then "_"%char else c).

Section Link.
Context {P : Platform} {CB : Type}.

Record RunningProcess := mk_process {
  rp_pid : Z;
  rp_device : option nat;
  rp_cb : CB;
  rp_is_singleton : bool;
}.
Record HelperData := mk_helper_data { hd_d : option nat; hd_cb : option CB }.

(** [pending]: the calls of Run that were not answered yet, by serial number. *)
Record link := mk_link {
  running_processes : list RunningProcess;
  pending : gmap nat HelperData;
  method_run_notify : bool;
  next_serial : nat;
}.

Inductive event :=
  | SendCall (serial : nat) (m : DBusMessage)
  | Callback (cb : CB) (device : option nat) (exit_type return_code : Z) (error : option (list string))
  | RefDevice (id : nat)
  | UnrefDevice (id : nat)
  | MethodRunNotify
  | CloseServer.

(** [inl]: a callback that is NULL is called. *)
Definition lm (A : Type) : Type := link -> unit + (A * link * list event).

(** ** Environments *)
Definition add_property_to_msg (d : HalDevice) (key : string) (iter : list string) : list string :=
  iter ++ ["HAL_PROP_" +:+ dots_to_underscores (g_ascii_strup key) +:+ "=" +:+
           default "(null)" (hal_device_property_to_string d key)].

Definition add_env (key : string) (value : option string) (iter : list string) : list string :=
  match value with Some v => iter ++ [key +:+ "=" +:+ v] | None => iter end.

(** What the environment of a program depends on; [CK]: the seats with their
    sessions, in a build with ConsoleKit. *)
Record surroundings := mk_surroundings {
  is_verbose : bool;
  is_initialising : bool;
  use_syslog : bool;
  direct_addr : option string;
  getenv : string -> option string;
  have_polkit : bool;
  ck_seats_now : option (list (string * list session_data));
  uname_sysname : option string;
}.

Definition yes_no (b : bool) : string := if b then "true" else "false".

(** A word more in a list with tabs between the words. *)
Definition add_word (l w : string) : string :=
  if decide (0 < String.length l)%nat then l +:+ String (ascii_of_nat 9) w else w.

Context (g_basename : string -> string).

Fixpoint add_sessions (seat_id : string) (l : list session_data) (sessions_string : string) (iter : list string)
  : string * list string :=
  match l with
  | [] => (sessions_string, iter)
  | s :: rest =>
      let session_id := g_basename (session_path s) in
      let iter := add_env ("CK_SESSION_SEAT_" +:+ session_id) (Some seat_id) iter in
      let iter := add_env ("CK_SESSION_IS_ACTIVE_" +:+ session_id) (Some (yes_no (session_is_active s))) iter in
      let iter := add_env ("CK_SESSION_UID_" +:+ session_id) (Some (pretty (u32 (session_user s)))) iter in
      let iter := add_env ("CK_SESSION_IS_LOCAL_" +:+ session_id) (Some (yes_no (session_is_local s))) iter in
      let iter := match session_hostname s with
                  | Some q => if decide (0 < String.length q)%nat
                              then add_env ("CK_SESSION_HOSTNAME_" +:+ session_id) (Some q) iter else iter
                  | None => iter
                  end in
      add_sessions seat_id rest (add_word sessions_string session_id) iter
  end.

Fixpoint add_seats (l : list (string * list session_data)) (seats_string : string) (iter : list string)
  : string * list string :=
  match l with
  | [] => (seats_string, iter)
  | (path, sessions) :: rest =>
      let seat_id := g_basename path in
      let '(sessions_string, iter) := add_sessions seat_id sessions "" iter in
      let iter := add_env ("CK_SEAT_" +:+ seat_id) (Some sessions_string) iter in
      let iter := add_env ("CK_SEAT_NUM_SESSIONS_" +:+ seat_id) (Some (pretty (length sessions))) iter in
      add_seats rest (add_word seats_string seat_id) iter
  end.

Definition add_basic_env (w : surroundings) (u : option string) (iter : list string) : list string :=
  let iter := if is_verbose w then add_env "HALD_VERBOSE" (Some "1") iter else iter in
  let iter := if is_initialising w then add_env "HALD_STARTUP" (Some "1") iter else iter in
  let iter := if use_syslog w then add_env "HALD_USE_SYSLOG" (Some "1") iter else iter in
  let iter := match u with Some u => add_env "UDI" (Some u) iter | None => iter end in
  let iter := add_env "HALD_DIRECT_ADDR" (direct_addr w) iter in
  let iter := add_env "LD_LIBRARY_PATH" (getenv w "LD_LIBRARY_PATH") iter in
  let iter := if have_polkit w then
                add_env "POLKIT_DEBUG" (getenv w "POLKIT_DEBUG")
                  (add_env "POLKIT_POLICY_DIR" (getenv w "POLKIT_POLICY_DIR") (add_env "HAVE_POLKIT" (Some "1") iter))
              else iter in
  let iter := match ck_seats_now w with
              | None => iter
              | Some seats =>
                  let '(seats_string, iter) := add_seats seats "" iter in
                  let iter := add_env "CK_SEATS" (Some seats_string) iter in
                  let iter := add_env "CK_NUM_SESSIONS" (Some (pretty (length (seats ≫= snd)))) iter in
                  add_env "CK_NUM_SEATS" (Some (pretty (length seats))) iter
              end in
  add_env "HALD_UNAME_S" (g_ascii_strdown <$> uname_sysname w) iter.

Definition add_extra_env (env iter : list string) : list string := iter ++ env.

(** The seats and sessions that a tracker has, as far as they are allocated. *)
Definition tracked_seats (k : CKTracker) : option (list (string * list session_data)) :=
  mapM (fun id => t ← seat_heap k !! id; l ← mapM (fun j => data <$> session_heap k !! j) (seat_sessions t);
                  Some (seat_objpath t, l)) (seats k).

Context (property_order : HalDevice -> list string).
Context (g_shell_parse_argv : string -> option (list string)).
Context (w : surroundings).

Definition add_command (command_line : string) : option dbus_value := VStrings <$> g_shell_parse_argv command_line.

Definition add_udi (device : option HalDevice) : dbus_value :=
  VString (match device with Some d => udi d | None => "" end).

Definition environment_of (device : option HalDevice) (extra_env : list string) : list string :=
  let iter := match device with
              | Some d => foldl (fun iter key => add_property_to_msg d key iter) [] (property_order d)
              | None => []
              end in
  add_extra_env extra_env (add_basic_env w (udi <$> device) iter).

Definition add_environment (device : option HalDevice) (command_line : string) (extra_env : list string)
  : option (list dbus_value) :=
  v ← add_command command_line; Some [VStrings (environment_of device extra_env); v].

(** ** Running programs *)
Definition runner_message (member : string) (args : list dbus_value) : DBusMessage :=
  mk_message "/org/freedesktop/HalRunner" (Some RUNNER) member None args.

Definition set_processes (l : list RunningProcess) (k : link) : link :=
  mk_link l (pending k) (method_run_notify k) (next_serial k).

(** [device] with its number; [reply]: the answer of the runner, NULL when there is
    none or it is an error. *)
Definition runner_start (device : option (nat * HalDevice)) (command_line : string) (extra_env : list string)
    (singleton : bool) (cb : option CB) (reply : option (list dbus_value)) : lm bool := fun k =>
  match add_environment (snd <$> device) command_line extra_env with
  | None => inr (false, k, [])
  | Some args =>
      let args := if singleton then args else add_udi (snd <$> device) :: args in
      let serial := next_serial k in
      let k := mk_link (running_processes k) (pending k) (method_run_notify k) (S serial) in
      let sent := [SendCall serial (runner_message (if singleton then "StartSingleton" else "Start") args)] in
      match reply with
      | None => inr (false, k, sent)
      | Some (VInt64 pid :: _) =>
          match cb with
          | None => inr (true, k, sent)
          | Some cb =>
              let rp := mk_process (s32 pid) (if singleton then None else fst <$> device) cb singleton in
              inr (true, set_processes (rp :: running_processes k) k, sent)
          end
      | Some _ => inr (true, k, sent)
      end
  end.

Definition hald_runner_start (device : option (nat * HalDevice)) (command_line : string) (extra_env : list string)
    (cb : option CB) (reply : option (list dbus_value)) : lm bool :=
  runner_start device command_line extra_env false cb reply.
Definition hald_runner_start_singleton (command_line : string) (extra_env : list string) (cb : option CB)
    (reply : option (list dbus_value)) : lm bool :=
  runner_start None command_line extra_env true cb reply.

(** The strings at the front of the arguments. *)
Fixpoint leading_strings (l : list dbus_value) : list string :=
  match l with VString s :: rest => s :: leading_strings rest | _ => [] end.

Definition unref (d : option nat) : list event := match d with Some id => [UnrefDevice id] | None => [] end.
Definition call_back (cb : option CB) (d : option nat) (exit_type return_code : Z) (error : option (list string)) : list event :=
  match cb with Some f => [Callback f d exit_type return_code error] | None => [] end.

(** The values of a reply. *)
Definition reply_values (m : dbus_reply) : option (Z * Z * list string) :=
  match m with
  | MethodReturn (VUint32 exitt :: VInt32 return_code :: rest) => Some (exitt, return_code, leading_strings rest)
  | _ => None
  end.

Definition process_reply (m : dbus_reply) (hb : HelperData) : lm unit := fun k =>
  let notify := if method_run_notify k then [MethodRunNotify] else [] in
  match reply_values m with
  | Some (exitt, return_code, error) =>
      inr (tt, k, call_back (hd_cb hb) (hd_d hb) exitt return_code (Some error) ++ unref (hd_d hb) ++ notify)
  | None => inr (tt, k, call_back (hd_cb hb) (hd_d hb) HALD_RUN_FAILED 0 None ++ unref (hd_d hb) ++ notify)
  end.

(** The reply to a pending call arrives. *)
Definition call_notify (serial : nat) (m : dbus_reply) : lm unit := fun k =>
  match pending k !! serial with
  | None => inr (tt, k, [])
  | Some hb =>
      process_reply m hb (mk_link (running_processes k) (delete serial (pending k)) (method_run_notify k) (next_serial k))
  end.

Definition run_args (device : option HalDevice) (command_line : string) (extra_env : list string)
    (input : string) (error_on_stderr : bool) (timeout : Z) : option (list dbus_value) :=
  env ← add_environment device command_line extra_env;
  Some (add_udi device :: env ++ [VString input; VBoolean error_on_stderr; VUint32 timeout]).

(** The callback is called without a test for NULL. *)
Definition fail_run (device : option nat) (cb : option CB) : lm unit := fun k =>
  match cb with
  | None => inl tt
  | Some f => inr (tt, k, [Callback f device HALD_RUN_FAILED 0 None])
  end.

(** [connected]: whether the runner is connected. *)
Definition hald_runner_run_method (device : option (nat * HalDevice)) (command_line : string) (extra_env : list string)
    (input : string) (error_on_stderr : bool) (timeout : Z) (cb : option CB) (connected : bool) : lm unit := fun k =>
  match run_args (snd <$> device) command_line extra_env input error_on_stderr timeout with
  | None => fail_run (fst <$> device) cb k
  | Some args =>
      if negb connected then fail_run (fst <$> device) cb k
      else
        let serial := next_serial k in
        inr (tt, mk_link (running_processes k) (<[serial := mk_helper_data (fst <$> device) cb]> (pending k))
                         (method_run_notify k) (S serial),
             SendCall serial (runner_message "Run" args) ::
             match device with Some (id, _) => [RefDevice id] | None => [] end)
  end.

Definition hald_runner_run (device : option (nat * HalDevice)) (command_line : string) (extra_env : list string)
    (timeout : Z) (cb : option CB) (connected : bool) : lm unit :=
  hald_runner_run_method device command_line extra_env "" false timeout cb connected.

(** [reply] is NULL when there is an error. *)
Definition hald_runner_run_sync (device : option (nat * HalDevice)) (command_line : string) (extra_env : list string)
    (timeout : Z) (cb : option CB) (reply : option dbus_reply) : lm unit := fun k =>
  match run_args (snd <$> device) command_line extra_env "" false timeout with
  | None => fail_run (fst <$> device) cb k
  | Some args =>
      let serial := next_serial k in
      let k := mk_link (running_processes k) (pending k) (method_run_notify k) (S serial) in
      match (match reply with
             | None => fail_run (fst <$> device) cb k
             | Some m => process_reply m (mk_helper_data (fst <$> device) cb) k
             end) with
      | inl x => inl x
      | inr (x, k, t) => inr (x, k, SendCall serial (runner_message "Run" args) :: t)
      end
  end.

(** ** Programs that were started *)
Definition running_processes_remove_device (device : nat) (l : list RunningProcess) : list RunningProcess :=
  List.filter (fun rp => negb (bool_decide (rp_device rp = Some device))) l.

Definition runner_device_finalized (device : nat) : lm unit := fun k =>
  inr (tt, set_processes (running_processes_remove_device device (running_processes k)) k, []).

(** The first process with the number, and the others. *)
Fixpoint take_process (pid : Z) (l : list RunningProcess) : option (RunningProcess * list RunningProcess) :=
  match l with
  | [] => None
  | rp :: rest =>
      if rp_pid rp =? pid then Some (rp, rest)
      else '(x, rest) ← take_process pid rest; Some (x, rp :: rest)
  end.

(** The callback is taken not to change the list. *)
Definition runner_server_message_handler (is_signal : bool) (m : DBusMessage) : lm unit := fun k =>
  if is_signal && dbus_message_is_method_call m RUNNER "StartedProcessExited" then
    match m_args m with
    | VInt64 dpid :: _ =>
        match take_process (s32 dpid) (running_processes k) with
        | Some (rp, rest) => inr (tt, set_processes rest k, [Callback (rp_cb rp) (rp_device rp) 0 0 None])
        | None => inr (tt, k, [])
        end
    | _ => inr (tt, k, [])
    end
  else inr (tt, k, []).

Definition send_call (member : string) (args : list dbus_value) (k : link) : link * list event :=
  (mk_link (running_processes k) (pending k) (method_run_notify k) (S (next_serial k)),
   [SendCall (next_serial k) (runner_message member args)]).

Definition hald_runner_kill_device (device : nat * HalDevice) : lm unit := fun k =>
  let k := set_processes (running_processes_remove_device device.1 (running_processes k)) k in
  let '(k, t) := send_call "Kill" [VString (udi device.2)] k in inr (tt, k, t).

Definition hald_runner_kill_all : lm unit := fun k => let '(k, t) := send_call "KillAll" [] k in inr (tt, k, t).

Definition hald_runner_set_method_run_notify (cb : bool) : lm unit := fun k =>
  inr (tt, mk_link (running_processes k) (pending k) cb (next_serial k), []).

(** [has_server]: the runner was started. *)
Definition hald_runner_stop_runner (has_server : bool) : lm unit := fun k =>
  if has_server then
    let '(k, t) := send_call "Shutdown" [] (set_processes [] k) in inr (tt, k, t ++ [CloseServer])
  else inr (tt, k, []).
End Link.

Arguments RunningProcess : clear implicits.
Arguments HelperData : clear implicits.
Arguments link : clear implicits.
Arguments event : clear implicits.
