(* ===== verification/RunnerClaims.v ===== *)
(** * Helpers are run and answered for *)

From Stdlib Require Import ZArith Lia Ascii.
From stdpp Require Import base list gmap strings option pretty fin_maps.
From S2P Require Import Prelude CStd Property Device DeviceStore StoreTheory FdiRules AccessCheck Bus Dbus SessionTracker Runner RunnerLink.

(** ** Counting answers *)
Definition answer_to (k : nat) (x : output) : Z :=
  match x with
  | RunReply s _ _ _ | StartReply s _ | EmptyReply s | ErrorMessage s _ _ => if decide (s = k) then 1 else 0
  | _ => 0
  end.
Definition answers (k : nat) (o : list output) : Z := foldr (fun x n => answer_to k x + n) 0 o.

(** A request that is to be answered later. *)
Definition open_request (k : nat) (rd : run_data) : Z :=
  if decide (rd_msg rd = Some k) then if rd_sent_kill rd then 0 else 1 else 0.
Definition waiting_in (k : nat) (m : gmap nat run_data) : Z := map_fold (fun _ rd n => open_request k rd + n) 0 m.
Definition waiting (k : nat) (st : runner) : Z := waiting_in k (requests st).

Lemma answers_app k o o' : answers k (o ++ o') = answers k o + answers k o'.
Proof. induction o as [|x o IH]; [done|]. cbn [answers app foldr] in *. fold (answers k (o ++ o')). rewrite IH. unfold answers. lia. Qed.

Lemma waiting_new k m id rd : m !! id = None -> waiting_in k (<[id := rd]> m) = open_request k rd + waiting_in k m.
Proof. intros H. unfold waiting_in. rewrite map_fold_insert_L; [done| |done]. intros. lia. Qed.

Lemma waiting_delete k m id rd : m !! id = Some rd -> waiting_in k m = open_request k rd + waiting_in k (delete id m).
Proof. intros H. unfold waiting_in. rewrite (map_fold_delete_L _ _ id rd m); [done| |done]. intros. lia. Qed.

Lemma waiting_put k m id rd rd' :
  m !! id = Some rd -> waiting_in k (<[id := rd']> m) = open_request k rd' - open_request k rd + waiting_in k m.
Proof.
  intros H. rewrite (waiting_delete k m id rd H), <- insert_delete_eq, waiting_new by apply lookup_delete_eq. lia.
Qed.

(** ** Computations that keep the books *)

(** [m] ends, and answers and open requests together grow by [n]. *)
Definition books {A} (n : nat -> Z) (m : rm A) (st : runner) (Q : A -> runner -> Prop) : Prop :=
  exists x st' o, m st = inr (x, st', o) /\ (forall k, answers k o + waiting k st' = n k + waiting k st) /\ Q x st'.

Lemma books_bind {A B} n1 n2 n (m : rm A) (f : A -> rm B) st Q1 Q2 :
  books n1 m st Q1 -> (forall x st', Q1 x st' -> books n2 (f x) st' Q2) -> (forall k, n k = n1 k + n2 k) ->
  books n (rbind m f) st Q2.
Proof.
  intros (x & st1 & o1 & E1 & B1 & H1) K Hn. destruct (K x st1 H1) as (y & st2 & o2 & E2 & B2 & H2).
  exists y, st2, (o1 ++ o2). split; [unfold rbind; by rewrite E1, E2|]. split; [|done].
  intros k. rewrite answers_app, Hn. specialize (B1 k). specialize (B2 k). lia.
Qed.

Lemma books_seq {B} n1 n2 n (m : rm unit) (f : rm B) st st1 Q :
  books n1 m st (fun _ s => s = st1) -> books n2 f st1 Q -> (forall k, n k = n1 k + n2 k) ->
  books n (rbind m (fun _ => f)) st Q.
Proof. intros H1 H2 Hn. eapply books_bind; [exact H1 | | exact Hn]. by intros _ st' ->. Qed.

Lemma books_get {A B} (g : runner -> A) (f : A -> rm B) n st Q : books n (f (g st)) st Q -> books n (rbind (rget g) f) st Q.
Proof.
  intros (x & st' & o & E & BQ). exists x, st', o. split; [|done]. unfold rbind, rget. by rewrite E.
Qed.

Lemma books_ret {A} (x : A) st (Q : A -> runner -> Prop) : Q x st -> books (fun _ => 0) (rret x) st Q.
Proof. intros H. exists x, st, []. by split_and!. Qed.

Lemma books_weaken {A} n n' (m : rm A) st (Q Q' : A -> runner -> Prop) :
  books n m st Q -> (forall k, n k = n' k) -> (forall x st', Q x st' -> Q' x st') -> books n' m st Q'.
Proof. intros (x & st' & o & E & B & H) Hn HQ. exists x, st', o. split_and!; [done| |by apply HQ]. intros k. by rewrite B, Hn. Qed.

Definition to (msg : option nat) (k : nat) : Z := if decide (msg = Some k) then 1 else 0.

Lemma books_emit o st (Q : unit -> runner -> Prop) : Q tt st -> books (fun k => answers k o) (emit o) st Q.
Proof. intros H. exists tt, st, o. by split_and!. Qed.

Lemma books_reply msg e c l st (Q : unit -> runner -> Prop) : Q tt st -> books (to msg) (send_reply msg e c l) st Q.
Proof.
  intros H. destruct msg as [s|]; [|eapply books_weaken; [by apply books_ret | done | done]].
  eapply books_weaken; [by apply books_emit | | done]. intros k. cbn. unfold to. destruct (decide (s = k)); repeat case_decide; simplify_eq; lia.
Qed.

(** ** The invariant *)
Definition alive (u : string) (rd : run_data) : Prop :=
  rd_sent_kill rd = false /\ r_is_singleton (rd_r rd) = false /\ hash_key (rd_r rd) = u.
Definition alive_singleton (rd : run_data) : Prop := rd_sent_kill rd = false /\ r_is_singleton (rd_r rd) = true.

(** The table lists, for each UDI, the requests whose process was not told to
    end; so does the list of singletons, until everything is killed ([all]). *)
Record inv (all : bool) (st : runner) : Prop := {
  inv_fresh : forall id, is_Some (requests st !! id) \/ id ∈ singletons st -> (id < next_request st)%nat;
  inv_hash : forall u l, udi_hash st !! u = Some l ->
    NoDup l /\ forall id, id ∈ l -> exists rd, requests st !! id = Some rd /\ alive u rd;
  inv_listed : forall id rd u, requests st !! id = Some rd -> alive u rd -> id ∈ default [] (udi_hash st !! u);
  inv_singletons : all = false ->
    NoDup (singletons st) /\ forall id, id ∈ singletons st -> exists rd, requests st !! id = Some rd /\ alive_singleton rd;
  inv_timers : forall id rd, requests st !! id = Some rd -> rd_timeout rd = true -> rd_sent_kill rd = false;
}.

Lemma inv_init : inv false run_init.
Proof. split; cbn; [intros id [[]|[]%not_elem_of_nil]; done | done | done | | done]. intros _. split; [constructor | by intros ? ?%not_elem_of_nil]. Qed.

(** *** Killing a list of requests *)
Definition kill_in (l : list nat) (m : gmap nat run_data) : gmap nat run_data :=
  map_imap (fun id rd => Some (if decide (id ∈ l) then killed rd else rd)) m.
Lemma kill_in_lookup l m id : kill_in l m !! id = (fun rd => if decide (id ∈ l) then killed rd else rd) <$> m !! id.
Proof. unfold kill_in. rewrite map_lookup_imap. by destruct (m !! id). Qed.

Definition with_requests (m : gmap nat run_data) (st : runner) : runner :=
  mk_runner m (udi_hash st) (singletons st) (next_request st).

Lemma books_kill_rd id rd st (Q : unit -> runner -> Prop) :
  requests st !! id = Some rd -> rd_sent_kill rd = false ->
  Q tt (with_requests (<[id := killed rd]> (requests st)) st) -> books (fun _ => 0) (kill_rd id) st Q.
Proof.
  intros H Hk HQ. exists tt, (with_requests (<[id := killed rd]> (requests st)) st). eexists.
  split; [|split; [|exact HQ]].
  - cbv beta iota delta [kill_rd rbind get_request emit put_request]. rewrite H. cbv beta iota.
    instantiate (1 := [Terminate (rd_pid rd)] ++ match rd_msg rd with Some s => [RunReply s HALD_RUN_KILLED 0 []] | None => [] end).
    by destruct (rd_msg rd).
  - intros k. unfold waiting. cbn [requests with_requests]. rewrite (waiting_put k _ id rd) by done.
    unfold open_request. cbn [killed rd_msg rd_sent_kill]. rewrite Hk. destruct (rd_msg rd) as [s|]; cbn; repeat case_decide; simplify_eq; lia.
Qed.

Lemma books_kill_each l st (Q : unit -> runner -> Prop) :
  NoDup l -> (forall id, id ∈ l -> exists rd, requests st !! id = Some rd /\ rd_sent_kill rd = false) ->
  Q tt (with_requests (kill_in l (requests st)) st) -> books (fun _ => 0) (kill_each l) st Q.
Proof.
  revert st. induction l as [|id l IH]; intros st Hnd H HQ; cbn [kill_each].
  - apply books_ret. replace (kill_in [] (requests st)) with (requests st) in HQ; [by destruct st|].
    apply map_eq. intros j. rewrite kill_in_lookup. by destruct (requests st !! j).
  - apply NoDup_cons in Hnd as [Hid Hnd]. destruct (H id (list_elem_of_here _ _)) as (rd & Hr & Hk).
    eapply books_seq; [apply (books_kill_rd id rd); [done | done | exact eq_refl] | | done].
    apply IH; [done | |].
    + intros j Hj. cbn. rewrite lookup_insert_ne by set_solver. apply H. by right.
    + cbn. replace (kill_in l (<[id := killed rd]> (requests st))) with (kill_in (id :: l) (requests st)); [done|].
      apply map_eq. intros j. rewrite !kill_in_lookup. destruct (decide (j = id)) as [->|Hne].
      * rewrite lookup_insert_eq, Hr. cbn. rewrite decide_True by set_solver. by rewrite decide_False.
      * rewrite lookup_insert_ne by done. destruct (requests st !! j); [|done]. cbn.
        destruct (decide (j ∈ l)); [by rewrite decide_True by set_solver | by rewrite decide_False by set_solver].
Qed.

(** *** Killing the requests of a device *)
Definition killed_udi (u : string) (st : runner) : runner :=
  mk_runner (kill_in (default [] (udi_hash st !! u)) (requests st)) (delete u (udi_hash st)) (singletons st) (next_request st).

Lemma kill_udi_inv all u st : inv all st -> inv all (killed_udi u st).
Proof.
  intros [F H L S M]. set (l := default [] (udi_hash st !! u)).
  assert (Hl : forall id rd, id ∈ l -> requests st !! id = Some rd -> alive u rd).
  { intros id rd Hid Hr. unfold l in Hid. destruct (udi_hash st !! u) as [l'|] eqn:E; [|by apply not_elem_of_nil in Hid].
    destruct (proj2 (H u l' E) id Hid) as (rd' & Hr' & A). by simplify_eq. }
  split; cbn; fold l.
  - intros id [[x Hx]|Hid]; [|apply F; by right]. apply F. left. rewrite kill_in_lookup in Hx.
    destruct (requests st !! id); [eauto|done].
  - intros u' l' [Hne E]%lookup_delete_Some. destruct (H u' l' E) as [Hnd Hall]. split; [done|].
    intros id Hid. destruct (Hall id Hid) as (rd & Hr & A). exists rd. split; [|done]. rewrite kill_in_lookup, Hr. cbn.
    rewrite decide_False; [done|]. intros Hin. destruct (Hl id rd Hin Hr) as (_ & _ & K). destruct A as (_ & _ & K'). congruence.
  - intros id rd u' Hr A. rewrite kill_in_lookup in Hr. destruct (requests st !! id) as [rd0|] eqn:E; [|done]. cbn in Hr.
    injection Hr as <-. destruct (decide (id ∈ l)) as [|Hn]; [by destruct A as [A _]|].
    pose proof (L id rd0 u' E A) as K. destruct (decide (u' = u)) as [->|Hne]; [done|]. by rewrite lookup_delete_ne.
  - intros Ha. destruct (S Ha) as [Hnd Hall]. split; [done|]. intros id Hid. destruct (Hall id Hid) as (rd & Hr & A).
    exists rd. split; [|done]. rewrite kill_in_lookup, Hr. cbn. rewrite decide_False; [done|]. intros Hin.
    destruct (Hl id rd Hin Hr) as (_ & K & _). destruct A as [_ K']. congruence.
  - intros id rd Hr Ht. rewrite kill_in_lookup in Hr. destruct (requests st !! id) as [rd0|] eqn:E; [|done]. cbn in Hr.
    injection Hr as <-. destruct (decide (id ∈ l)); [done | by apply (M id)].
Qed.

Lemma books_kill_udi all u st (Q : unit -> runner -> Prop) :
  inv all st -> Q tt (killed_udi u st) -> books (fun _ => 0) (run_kill_udi u) st Q.
Proof.
  intros I HQ. unfold run_kill_udi, do_kill_udi. set (l := default [] (udi_hash st !! u)).
  assert (Hl : NoDup l /\ forall id, id ∈ l -> exists rd, requests st !! id = Some rd /\ rd_sent_kill rd = false).
  { unfold l. destruct (udi_hash st !! u) as [l'|] eqn:E; [|split; [constructor | by intros ? ?%not_elem_of_nil]].
    destruct (inv_hash _ _ I u l' E) as [Hnd Hall]. split; [done|]. intros id Hid. destruct (Hall id Hid) as (rd & ? & ? & _). eauto. }
  eapply (books_seq (fun _ => 0) (fun _ => 0));
    [apply books_get, books_kill_each; [apply Hl | apply Hl | exact eq_refl] | | done].
  exists tt. eexists _, _. split; [reflexivity|]. by split.
Qed.

Lemma books_kill_udis all l st (Q : unit -> runner -> Prop) :
  inv all st -> (forall st', inv all st' -> singletons st' = singletons st -> Q tt st') -> books (fun _ => 0) (kill_udis l) st Q.
Proof.
  revert st. induction l as [|u l IH]; intros st I HQ; cbn [kill_udis]; [apply books_ret; by apply HQ|].
  assert (E : forall st, (do_kill_udi u ;~ set_udi_hash (delete u) ;~ kill_udis l)%hal st =
                         (run_kill_udi u ;~ kill_udis l)%hal st).
  { clear. intros st. unfold run_kill_udi, rbind. destruct (do_kill_udi u st) as [|[[x s1] o1]]; [done|]. cbn.
    destruct (kill_udis l _) as [|[[y s2] o2]]; [done|]. by rewrite app_nil_r. }
  enough (books (fun _ => 0) (run_kill_udi u ;~ kill_udis l)%hal st Q) as (x & st' & o & Ex & R)
    by (exists x, st', o; by rewrite E).
  eapply books_seq; [apply (books_kill_udi all); [done | exact eq_refl] | | done].
  apply IH; [by apply kill_udi_inv|]. intros st' I' E'. by apply HQ.
Qed.

(** *** A request leaves the lists *)
Definition unlisted (id : nat) (rd : run_data) (m : gmap nat run_data) (st : runner) : runner :=
  if r_is_singleton (rd_r rd) then mk_runner m (udi_hash st) (slist_remove id (singletons st)) (next_request st)
  else mk_runner m (<[hash_key (rd_r rd) := slist_remove id (default [] (udi_hash st !! hash_key (rd_r rd)))]> (udi_hash st))
                 (singletons st) (next_request st).

Lemma slist_remove_subset id j l : j ∈ slist_remove id l -> j ∈ l.
Proof. induction l as [|x l IH]; cbn; [done|]. case_decide; set_solver. Qed.

Lemma unlisted_inv all id rd m st :
  inv all st -> requests st !! id = Some rd -> rd_sent_kill rd = false ->
  (forall j, j <> id -> m !! j = requests st !! j) ->
  (forall x, m !! id = Some x -> rd_sent_kill x = true /\ rd_timeout x = false) -> inv all (unlisted id rd m st).
Proof.
  intros [F H L S M] Hr Hk Hm Hid. set (u := hash_key (rd_r rd)).
  assert (Hf : forall j, is_Some (m !! j) -> is_Some (requests st !! j)).
  { intros j Hj. destruct (decide (j = id)) as [->|Hne]; [rewrite Hr; eauto | by rewrite <- Hm]. }
  assert (Hl : NoDup (default [] (udi_hash st !! u)) /\
               forall j, j ∈ default [] (udi_hash st !! u) -> exists x, requests st !! j = Some x /\ alive u x).
  { destruct (udi_hash st !! u) as [l|] eqn:E; [by apply H | split; [constructor | by intros ? ?%not_elem_of_nil]]. }
  destruct Hl as [Hlnd Hl]. unfold unlisted. fold u.
  assert (Halive : forall j x u', m !! j = Some x -> alive u' x -> j <> id /\ requests st !! j = Some x).
  { intros j x u' Hx A. destruct (decide (j = id)) as [->|Hne]; [|by rewrite <- Hm].
    destruct A as [A _]. rewrite (proj1 (Hid x Hx)) in A. done. }
  assert (Htimers : forall j x, m !! j = Some x -> rd_timeout x = true -> rd_sent_kill x = false).
  { intros j x Hx Ht. destruct (decide (j = id)) as [->|Hne]; [|apply (M j x); [by rewrite <- Hm | done]].
    destruct (Hid x Hx). congruence. }
  destruct (r_is_singleton (rd_r rd)) eqn:Es; split; cbn.
  - intros j [Hj|Hj]; apply F; [left; by apply Hf|]. right. by eapply slist_remove_subset.
  - intros u' l E. destruct (H u' l E) as [Hnd Hall]. split; [done|]. intros j Hj. destruct (Hall j Hj) as (x & Hx & A).
    exists x. split; [|done]. rewrite Hm; [done|]. intros ->. rewrite Hr in Hx. injection Hx as <-. destruct A as (_ & A & _). congruence.
  - intros j x u' Hx A. destruct (Halive j x u' Hx A) as [_ Hx']. by apply (L j x u').
  - intros Ha. destruct (S Ha) as [Hnd Hall]. split; [by apply slist_remove_nodup|]. intros j Hj.
    apply slist_remove_elem in Hj as [Hj Hne]; [|done]. destruct (Hall j Hj) as (x & Hx & A). exists x. by rewrite Hm.
  - apply Htimers.
  - intros j [Hj|Hj]; apply F; [left; by apply Hf | by right].
  - intros u' l. destruct (decide (u' = u)) as [->|Hne].
    + rewrite lookup_insert_eq. intros [= <-]. split; [by apply slist_remove_nodup|]. intros j Hj.
      apply slist_remove_elem in Hj as [Hj Hne]; [|done]. destruct (Hl j Hj) as (x & Hx & A). exists x. by rewrite Hm.
    + rewrite lookup_insert_ne by done. intros E. destruct (H u' l E) as [Hnd Hall]. split; [done|].
      intros j Hj. destruct (Hall j Hj) as (x & Hx & A). exists x. split; [|done]. rewrite Hm; [done|].
      intros ->. rewrite Hr in Hx. injection Hx as <-. destruct A as (_ & _ & A). done.
  - intros j x u' Hx A. destruct (Halive j x u' Hx A) as [Hne Hx']. pose proof (L j x u' Hx' A) as K.
    destruct (decide (u' = u)) as [->|Hn]; [|by rewrite lookup_insert_ne]. rewrite lookup_insert_eq. cbn.
    by apply slist_remove_elem.
  - intros Ha. destruct (S Ha) as [Hnd Hall]. split; [done|]. intros j Hj. destruct (Hall j Hj) as (x & Hx & A).
    exists x. split; [|done]. rewrite Hm; [done|]. intros ->. rewrite Hr in Hx. injection Hx as <-. destruct A as [_ A]. congruence.
  - apply Htimers.
Qed.

Lemma deleted_inv all id rd st :
  inv all st -> requests st !! id = Some rd -> rd_sent_kill rd = true -> inv all (with_requests (delete id (requests st)) st).
Proof.
  intros [F H L S M] Hr Hk. split; cbn.
  - intros j [[x Hx]|Hj]; apply F; [|by right]. left. apply lookup_delete_Some in Hx as [_ Hx]. eauto.
  - intros u l E. destruct (H u l E) as [Hnd Hall]. split; [done|]. intros j Hj. destruct (Hall j Hj) as (x & Hx & A).
    exists x. split; [|done]. rewrite lookup_delete_ne; [done|]. intros <-. rewrite Hr in Hx. injection Hx as <-.
    destruct A as [A _]. congruence.
  - intros j x u [_ Hx]%lookup_delete_Some A. by apply (L j x u).
  - intros Ha. destruct (S Ha) as [Hnd Hall]. split; [done|]. intros j Hj. destruct (Hall j Hj) as (x & Hx & A).
    exists x. split; [|done]. rewrite lookup_delete_ne; [done|]. intros <-. rewrite Hr in Hx. injection Hx as <-.
    destruct A as [A _]. congruence.
  - intros j x [_ Hx]%lookup_delete_Some. by apply (M j).
Qed.

Lemma books_exited all id rd status lines st :
  inv all st -> requests st !! id = Some rd ->
  books (fun _ => 0) (run_exited id status lines) st (fun _ s => inv all s).
Proof.
  intros I Hr. destruct (rd_sent_kill rd) eqn:Hk.
  - exists tt, (with_requests (delete id (requests st)) st), [].
    split; [cbv beta iota delta [run_exited rbind get_request]; rewrite Hr; cbv beta iota; by rewrite Hk|].
    split; [|by eapply deleted_inv]. intros k. unfold waiting. cbn [requests with_requests answers foldr].
    rewrite (waiting_delete k (requests st) id rd Hr). unfold open_request. rewrite Hk. case_decide; lia.
  - exists tt, (unlisted id rd (delete id (requests st)) st). eexists. split; [|split; [|apply unlisted_inv; try done]].
    + cbv beta iota delta [run_exited rbind get_request remove_run_data emit]. rewrite Hr. cbv beta iota. rewrite Hk.
      instantiate (1 := match rd_msg rd with
        | Some s => [match status with
                     | Signaled => RunReply s HALD_RUN_FAILED 0 []
                     | Exited code => RunReply s HALD_RUN_SUCCESS code (if r_error_on_stderr (rd_r rd) then take 128 lines else [])
                     end]
        | None => [] end ++ (if rd_emit_pid_exited rd then [StartedProcessExited (rd_pid rd)] else [])).
      unfold unlisted. destruct status, (rd_msg rd), (r_is_singleton (rd_r rd)), (rd_emit_pid_exited rd); reflexivity.
    + intros k. rewrite answers_app. replace (answers k (if rd_emit_pid_exited rd then _ else _)) with 0 by (by destruct (rd_emit_pid_exited rd)).
      unfold waiting. replace (requests (unlisted id rd (delete id (requests st)) st)) with (delete id (requests st))
        by (unfold unlisted; by destruct (r_is_singleton (rd_r rd))).
      rewrite (waiting_delete k (requests st) id rd Hr). unfold open_request. rewrite Hk.
      destruct (rd_msg rd) as [s|], status; cbn; repeat case_decide; simplify_eq; lia.
    + intros j Hj. by rewrite lookup_delete_ne.
    + intros x. by rewrite lookup_delete_eq.
Qed.

Lemma books_timedout all id rd st :
  inv all st -> requests st !! id = Some rd -> rd_sent_kill rd = false ->
  books (fun _ => 0) (run_timedout id) st (fun _ s => inv all s).
Proof.
  intros I Hr Hk. exists tt, (unlisted id rd (<[id := killed rd]> (requests st)) st). eexists.
  split; [|split; [|apply unlisted_inv; try done]].
  - cbv beta iota delta [run_timedout rbind get_request put_request remove_run_data emit]. rewrite Hr. cbv beta iota.
    instantiate (1 := [Terminate (rd_pid rd)] ++ match rd_msg rd with Some s => [RunReply s HALD_RUN_TIMEOUT 0 []] | None => [] end).
    unfold unlisted. destruct (rd_msg rd), (r_is_singleton (rd_r rd)); reflexivity.
  - intros k. unfold waiting. replace (requests (unlisted id rd _ st)) with (<[id := killed rd]> (requests st))
      by (unfold unlisted; by destruct (r_is_singleton (rd_r rd))).
    rewrite (waiting_put k _ id rd) by done. unfold open_request. cbn [killed rd_msg rd_sent_kill]. rewrite Hk.
    destruct (rd_msg rd) as [s|]; cbn; repeat case_decide; simplify_eq; lia.
  - intros j Hj. by rewrite lookup_insert_ne.
  - intros x. rewrite lookup_insert_eq. by intros [= <-].
Qed.

(** *** A request enters *)
Definition listed (rd : run_data) (st : runner) : runner :=
  let id := next_request st in
  let m := <[id := rd]> (requests st) in
  if r_is_singleton (rd_r rd) then mk_runner m (udi_hash st) (id :: singletons st) (S id)
  else mk_runner m (<[hash_key (rd_r rd) := id :: default [] (udi_hash st !! hash_key (rd_r rd))]> (udi_hash st))
                 (singletons st) (S id).

Lemma listed_inv all rd st : inv all st -> rd_sent_kill rd = false -> inv all (listed rd st).
Proof.
  intros [F H L S M] Hk. set (u := hash_key (rd_r rd)). set (id := next_request st).
  assert (Hid : requests st !! id = None).
  { destruct (requests st !! id) eqn:E; [|done]. pose proof (F id (or_introl (mk_is_Some _ _ E))). unfold id in *. lia. }
  assert (Hn : forall j x, requests st !! j = Some x -> j <> id) by (intros j x Hx ->; congruence).
  assert (Hl : NoDup (default [] (udi_hash st !! u)) /\
               forall j, j ∈ default [] (udi_hash st !! u) -> exists x, requests st !! j = Some x /\ alive u x).
  { destruct (udi_hash st !! u) as [l|] eqn:E; [by apply H | split; [constructor | by intros ? ?%not_elem_of_nil]]. }
  destruct Hl as [Hlnd Hl].
  assert (Hf : forall j, is_Some (<[id := rd]> (requests st) !! j) \/ j ∈ singletons st -> (j < Datatypes.S id)%nat).
  { intros j [[x Hx]|Hj]; [|pose proof (F j (or_intror Hj)); unfold id; lia].
    destruct (decide (j = id)) as [->|Hne]; [lia|]. rewrite lookup_insert_ne in Hx by done.
    pose proof (F j (or_introl (mk_is_Some _ _ Hx))). unfold id. lia. }
  unfold listed. fold u id. destruct (r_is_singleton (rd_r rd)) eqn:Es; split; cbn.
  - intros j [Hj|Hj]; [apply Hf; by left|]. apply elem_of_cons in Hj as [->|Hj]; [lia | apply Hf; by right].
  - intros u' l E. destruct (H u' l E) as [Hnd Hall]. split; [done|]. intros j Hj. destruct (Hall j Hj) as (x & Hx & A).
    exists x. rewrite lookup_insert_ne; [done|]. intros <-. by apply (Hn id x).
  - intros j x u' Hx A. destruct (decide (j = id)) as [->|Hne].
    + rewrite lookup_insert_eq in Hx. injection Hx as <-. destruct A as (_ & A & _). congruence.
    + rewrite lookup_insert_ne in Hx by done. by apply (L j x u').
  - intros Ha. destruct (S Ha) as [Hnd Hall]. split.
    + apply NoDup_cons. split; [|done]. intros Hj. destruct (Hall id Hj) as (x & Hx & _). congruence.
    + intros j [->|Hj]%elem_of_cons; [rewrite lookup_insert_eq; by exists rd|].
      destruct (Hall j Hj) as (x & Hx & A). exists x. rewrite lookup_insert_ne; [done|]. intros <-. by apply (Hn id x).
  - intros j x Hx. destruct (decide (j = id)) as [->|Hne]; [rewrite lookup_insert_eq in Hx; by injection Hx as <-|].
    rewrite lookup_insert_ne in Hx by done. by apply (M j).
  - apply Hf.
  - intros u' l. destruct (decide (u' = u)) as [->|Hne].
    + rewrite lookup_insert_eq. intros [= <-]. split.
      * apply NoDup_cons. split; [|done]. intros Hj. destruct (Hl id Hj) as (x & Hx & _). congruence.
      * intros j [->|Hj]%elem_of_cons; [rewrite lookup_insert_eq; by exists rd|].
        destruct (Hl j Hj) as (x & Hx & A). exists x. rewrite lookup_insert_ne; [done|]. intros <-. by apply (Hn id x).
    + rewrite lookup_insert_ne by done. intros E. destruct (H u' l E) as [Hnd Hall]. split; [done|].
      intros j Hj. destruct (Hall j Hj) as (x & Hx & A). exists x. rewrite lookup_insert_ne; [done|]. intros <-. by apply (Hn id x).
  - intros j x u' Hx A. destruct (decide (j = id)) as [->|Hne].
    + rewrite lookup_insert_eq in Hx. injection Hx as <-. destruct A as (_ & _ & <-). fold u. rewrite lookup_insert_eq. cbn. left.
    + rewrite lookup_insert_ne in Hx by done. pose proof (L j x u' Hx A) as K.
      destruct (decide (u' = u)) as [->|Hn']; [rewrite lookup_insert_eq; cbn; by right | by rewrite lookup_insert_ne].
  - intros Ha. destruct (S Ha) as [Hnd Hall]. split; [done|]. intros j Hj. destruct (Hall j Hj) as (x & Hx & A).
    exists x. rewrite lookup_insert_ne; [done|]. intros <-. by apply (Hn id x).
  - intros j x Hx. destruct (decide (j = id)) as [->|Hne]; [rewrite lookup_insert_eq in Hx; by injection Hx as <-|].
    rewrite lookup_insert_ne in Hx by done. by apply (M j).
Qed.

Section Claims.
Context (udi_order : gmap string (list nat) -> list string).
Context (g_path_get_basename : string -> string) (g_find_program_in_path : string -> option string).
Context (PATH : string).

#[local] Notation run_request_run := (run_request_run g_path_get_basename g_find_program_in_path).
#[local] Notation find_program := (find_program g_path_get_basename g_find_program_in_path).
#[local] Notation filter := (Runner.filter udi_order g_path_get_basename g_find_program_in_path PATH).
#[local] Notation step := (step udi_order g_path_get_basename g_find_program_in_path PATH).
#[local] Notation run := (run udi_order g_path_get_basename g_find_program_in_path PATH).

Lemma books_run_request all r msg out spawned st :
  inv all st -> books (to msg) (run_request_run r msg out spawned) st (fun _ s => inv all s).
Proof.
  intros I. unfold Runner.run_request_run. destruct (find_program (r_argv r)) as [argv|], spawned as [pid|].
  1: { set (rd := mk_run_data (with_argv argv r) msg pid (bool_decide (0 < r_timeout (with_argv argv r))) false out).
       assert (Hid : requests st !! next_request st = None).
       { destruct (requests st !! next_request st) eqn:E; [|done].
         pose proof (inv_fresh _ _ I _ (or_introl (mk_is_Some _ _ E))). lia. }
       exists (Some pid), (listed rd st). eexists. split; [|split; [|by apply listed_inv]].
       - unfold listed. cbv beta iota delta [rbind emit new_request set_singletons set_udi_hash rret]. cbn [rd_r rd with_argv r_is_singleton].
         instantiate (1 := match r_input r with Some text => [WriteStdin pid text] | None => [] end).
         destruct (r_input r), (r_is_singleton r); reflexivity.
       - intros k. unfold waiting. replace (requests (listed rd st)) with (<[next_request st := rd]> (requests st))
           by (unfold listed; by destruct (r_is_singleton (rd_r rd))).
         rewrite waiting_new by done. unfold open_request, to. cbn. destruct (r_input r); cbn; repeat case_decide; lia. }
  all: eapply (books_bind (to msg) (fun _ => 0));
    [apply (books_reply msg _ _ _ st (fun _ s => s = st)); done | intros _ s ->; by apply books_ret | intros k; lia].
Qed.

Lemma books_kill_all st : inv false st -> books (fun _ => 0) (run_kill_all udi_order) st (fun _ s => inv true s).
Proof.
  intros I. unfold run_kill_all. apply books_get.
  eapply (books_bind (fun _ => 0) (fun _ => 0) _ _ _ _ (fun _ s => inv false s)); [| | done].
  - apply (books_kill_udis false); [exact I|]. intros st' I' _. exact I'.
  - intros _ st1 I1. apply books_get. destruct (inv_singletons _ _ I1 eq_refl) as [Hnd Hall].
    apply books_kill_each; [done | intros id Hid; destruct (Hall id Hid) as (rd & ? & ? & _); eauto|].
    destruct I1 as [F H L S M]. split; cbn.
    + intros id [[x Hx]|Hid]; apply F; [left | by right]. rewrite kill_in_lookup in Hx. destruct (requests st1 !! id); [eauto|done].
    + intros u l E. destruct (H u l E) as [Hl1 Hl2]. split; [done|]. intros id Hid. destruct (Hl2 id Hid) as (rd & Hr & A).
      exists rd. split; [|done]. rewrite kill_in_lookup, Hr. cbn. rewrite decide_False; [done|]. intros Hin.
      destruct (Hall id Hin) as (rd' & Hr' & _ & A'). rewrite Hr in Hr'. injection Hr' as <-. destruct A as (_ & A & _). congruence.
    + intros id rd u Hr A. rewrite kill_in_lookup in Hr. destruct (requests st1 !! id) as [rd0|] eqn:E; [|done]. cbn in Hr.
      injection Hr as <-. destruct (decide (id ∈ singletons st1)); [by destruct A|]. by apply (L id rd0).
    + done.
    + intros id rd Hr Ht. rewrite kill_in_lookup in Hr. destruct (requests st1 !! id) as [rd0|] eqn:E; [|done]. cbn in Hr.
      injection Hr as <-. destruct (decide (id ∈ singletons st1)); [done | by apply (M id)].
Qed.

(** The methods, and those that kill everything. *)
Definition calls (m : DBusMessage) (l : list string) : bool := existsb (dbus_message_is_method_call m RUNNER) l.
Definition answerable (m : DBusMessage) : bool := calls m ["Run"; "Start"; "StartSingleton"; "Kill"; "KillAll"].
Definition starts (m : DBusMessage) : bool := calls m ["Run"; "Start"; "StartSingleton"].
Definition kills_all (m : DBusMessage) : bool := calls m ["Shutdown"; "KillAll"].
Definition shuts_down (m : DBusMessage) : bool := calls m ["Shutdown"].

Lemma calls_spec m l : calls m l = true <-> m_interface m = Some RUNNER /\ m_member m ∈ l.
Proof.
  unfold calls. rewrite existsb_exists. unfold dbus_message_is_method_call. split.
  - intros (n & Hn & E). destruct (m_interface m) as [i|]; [|done]. apply andb_true_iff in E as [E1 E2].
    apply bool_decide_eq_true in E1, E2. subst. by rewrite list_elem_of_In.
  - intros [-> Hn]. exists (m_member m). rewrite <- list_elem_of_In. split; [done|]. by rewrite !bool_decide_eq_true_2.
Qed.
Lemma call_spec m n : dbus_message_is_method_call m RUNNER n = bool_decide (m_interface m = Some RUNNER /\ m_member m = n).
Proof.
  unfold dbus_message_is_method_call. destruct (m_interface m) as [i|]; [|by rewrite bool_decide_eq_false_2 by naive_solver].
  apply eq_bool_prop_intro. rewrite andb_True, !bool_decide_spec. naive_solver.
Qed.

Lemma books_answer serial x st (Q : unit -> runner -> Prop) :
  (forall k, answer_to k x = to (Some serial) k) -> Q tt st -> books (to (Some serial)) (emit [x]) st Q.
Proof. intros Hx HQ. eapply books_weaken; [by apply books_emit | | done]. intros k. cbn. rewrite Hx. lia. Qed.

Lemma to_self s k : (if decide (s = k) then 1 else 0) = to (Some s) k.
Proof. unfold to. repeat case_decide; naive_solver. Qed.

Lemma books_then {A} all n (m : rm unit) (x : A) st (Q : A -> runner -> Prop) :
  books n m st (fun _ s => inv all s) -> (forall s, inv all s -> Q x s) -> books n (m ;~ rret x)%hal st Q.
Proof.
  intros H HQ. eapply (books_bind n (fun _ => 0)); [exact H | | intros k; lia]. intros ? s I. apply books_ret. by apply HQ.
Qed.

Lemma books_handle_run all serial m spawned st :
  inv all st -> m_args m <> [] ->
  books (to (Some serial)) (handle_run g_path_get_basename g_find_program_in_path PATH serial m spawned) st (fun _ s => inv all s).
Proof.
  intros I Ha. unfold handle_run. destruct (m_args m) as [|v args]; [done|].
  destruct (parse_run PATH (v :: args)) as [r|]; [|apply books_answer; [intros k; apply to_self | done]].
  eapply (books_bind (to (Some serial)) (fun _ => 0)); [by apply (books_run_request all) | | intros k; lia].
  intros ? s I'. by apply books_ret.
Qed.

Lemma books_handle_start all serial m single spawned st :
  inv all st -> m_args m <> [] ->
  books (to (Some serial)) (handle_start g_path_get_basename g_find_program_in_path PATH serial m single spawned) st
    (fun _ s => inv all s).
Proof.
  intros I Ha. unfold handle_start. destruct (m_args m) as [|v args]; [done|].
  destruct (parse_start PATH single (v :: args)) as [r|]; [|apply books_answer; [intros k; apply to_self | done]].
  eapply (books_bind (to None) (to (Some serial))); [by apply (books_run_request all) | | done].
  intros [pid|] s I'; (apply books_answer; [intros k; apply to_self | done]).
Qed.

Lemma books_filter all serial m spawned st :
  inv all st -> (starts m = true -> m_args m <> []) -> (kills_all m = true -> all = false) ->
  books (fun k => if answerable m then to (Some serial) k else 0) (filter serial m spawned) st
    (fun r s => inv (all || kills_all m) s /\ (r = EXITED <-> shuts_down m = true)).
Proof.
  intros I Ha Hall. unfold Runner.filter. rewrite !call_spec.
  destruct (decide (m_interface m = Some RUNNER)) as [Hi|Hi].
  2: { rewrite !bool_decide_eq_false_2 by naive_solver.
       assert (answerable m = false /\ kills_all m = false /\ shuts_down m = false) as (-> & -> & ->).
       { split_and!; apply not_true_iff_false; unfold answerable, kills_all, shuts_down; rewrite calls_spec; naive_solver. }
       rewrite orb_false_r. by apply books_ret. }
  assert (C : forall l, calls m l = bool_decide (m_member m ∈ l)).
  { intros l. apply eq_bool_prop_intro. rewrite bool_decide_spec, Is_true_true, calls_spec. naive_solver. }
  unfold answerable, kills_all, starts, shuts_down in *. rewrite !C in *. clear C. revert Hall Ha.
  repeat match goal with
  | |- context [if bool_decide (m_interface m = Some RUNNER /\ m_member m = ?n) then _ else _] =>
      destruct (decide (m_member m = n)) as [Hm|];
        [rewrite Hm; rewrite (bool_decide_eq_true_2 (_ /\ _)) by done
        |rewrite (bool_decide_eq_false_2 (_ /\ m_member m = n)) by naive_solver]
  end; intros Hall Ha;
  repeat match goal with |- context [bool_decide (?n ∈ ?l)] =>
    let b := eval vm_compute in (bool_decide (n ∈ l)) in
    lazymatch b with true => idtac | false => idtac end; change (bool_decide (n ∈ l)) with b in * end; rewrite ?orb_false_r.
  - by apply (books_then all); [apply books_handle_run; [|apply Ha] |].
  - by apply (books_then all); [apply books_handle_start; [|apply Ha] |].
  - by apply (books_then all); [apply books_handle_start; [|apply Ha] |].
  - apply (books_then all); [|done]. unfold handle_kill. destruct (get_args_s m) as [u|].
    + eapply books_seq; [apply (books_kill_udi all); [done | exact eq_refl] | | done].
      apply books_answer; [intros k; apply to_self|]. by apply kill_udi_inv.
    + apply books_answer; [intros k; apply to_self | done].
  - assert (all = false) as -> by (by apply Hall).
    eapply (books_bind (fun _ => 0) (fun _ => 0) _ _ _ _ (fun _ s => inv true s)); [by apply books_kill_all | | done].
    intros ? s I'. apply (books_then true); [|done].
    apply (books_weaken (fun k => answers k [Exit]) _ _ _ (fun _ s => inv true s)); [by apply books_emit | done | done].
  - assert (all = false) as -> by (by apply Hall).
    eapply (books_bind (fun _ => 0) (to (Some serial)) _ _ _ _ (fun _ s => inv true s)); [by apply books_kill_all | | done].
    intros ? s I'. apply (books_then true); [|done]. apply books_answer; [intros k; apply to_self | done].
  - rewrite !bool_decide_eq_false_2 by set_solver. rewrite orb_false_r. by apply books_ret.
Qed.

Definition input_kills_all (i : input) : bool := match i with Message _ m _ => kills_all m | _ => false end.
Definition input_shuts_down (i : input) : bool := match i with Message _ m _ => shuts_down m | _ => false end.
Definition arrives (k : nat) (i : input) : Z :=
  match i with Message serial m _ => if answerable m then to (Some serial) k else 0 | _ => 0 end.
Definition arrivals (k : nat) (l : list input) : Z := foldr (fun i n => arrives k i + n) 0 l.
Definition well_formed (i : input) : Prop := match i with Message _ m _ => starts m = true -> m_args m <> [] | _ => True end.

(** What happens until the runner exits. *)
Fixpoint heard (l : list input) : list input :=
  match l with [] => [] | i :: rest => i :: (if input_shuts_down i then [] else heard rest) end.

Lemma books_step all i st :
  inv all st -> well_formed i -> (input_kills_all i = true -> all = false) ->
  books (fun k => arrives k i) (step i) st
    (fun b s => inv (all || input_kills_all i) s /\ b = negb (input_shuts_down i)).
Proof.
  intros I Hw Hall. destruct i as [serial m spawned | id status lines | id]; cbn [Runner.step arrives input_kills_all input_shuts_down] in *.
  - eapply (books_bind _ (fun _ => 0)); [by apply books_filter | | intros k; cbv beta; by rewrite Z.add_0_r].
    intros r s [I' Hr]. apply books_ret. split; [done|]. destruct r, (shuts_down m); naive_solver.
  - rewrite orb_false_r. apply books_get. apply (books_then all); [|done].
    destruct (requests st !! id) as [rd|] eqn:E; [by apply (books_exited all id rd) | by apply books_ret].
  - rewrite orb_false_r. apply books_get. apply (books_then all); [|done].
    destruct (requests st !! id) as [rd|] eqn:E; [|by apply books_ret].
    destruct (rd_timeout rd) eqn:Et; [|by apply books_ret]. apply (books_timedout all id rd); [done | done|].
    by apply (inv_timers _ _ I id rd).
Qed.

(** KillAll and Shutdown arrive once at most. *)
Definition at_most_one_kill (l : list input) : Prop := (length (List.filter input_kills_all l) <= 1)%nat.

Lemma books_run l all st :
  inv all st -> Forall well_formed (heard l) -> at_most_one_kill (heard l) ->
  (all = true -> List.filter input_kills_all (heard l) = []) ->
  books (fun k => arrivals k (heard l)) (run l) st (fun _ s => exists b, inv b s).
Proof.
  revert all st. induction l as [|i l IH]; intros all st I Hw H1 Hall; cbn [Runner.run heard arrivals foldr] in *.
  - apply books_ret. by exists all.
  - apply Forall_cons in Hw as [Hi Hw]. unfold at_most_one_kill in *. cbn [List.filter] in *. fold (arrivals : nat -> list input -> Z).
    eapply (books_bind (fun k => arrives k i) (fun k => arrivals k (if input_shuts_down i then [] else heard l))); [| |done].
    + apply (books_step all); [done | done|]. intros E. rewrite E in Hall. destruct all; [by specialize (Hall eq_refl) | done].
    + intros b s [I' ->]. destruct (input_shuts_down i); cbn [negb]; [apply books_ret; by eexists|].
      apply (IH _ s I'); [done | |]; destruct (input_kills_all i).
      * cbn in H1. lia.
      * done.
      * intros _. cbn in H1. destruct (List.filter input_kills_all (heard l)); [done | cbn in H1; lia].
      * rewrite orb_false_r. apply Hall.
Qed.

Definition serials (l : list input) : list nat := omap (fun i => match i with Message serial _ _ => Some serial | _ => None end) l.

Lemma arrivals_none k l : k ∉ serials l -> arrivals k l = 0.
Proof.
  induction l as [|i l IH]; [done|]. intros Hn. cbn [arrivals foldr]. fold (arrivals k l). destruct i as [s m sp | |]; csimpl in Hn.
  - rewrite not_elem_of_cons in Hn. destruct Hn as [Hne Hn]. rewrite IH by done. cbn [arrives]. unfold to.
    rewrite decide_False by congruence. by destruct (answerable m).
  - by rewrite IH.
  - by rewrite IH.
Qed.

Lemma arrivals_one k m spawned l :
  NoDup (serials l) -> Message k m spawned ∈ l -> answerable m = true -> arrivals k l = 1.
Proof.
  intros Hnd Hin Ha. induction l as [|i l IH]; [by apply not_elem_of_nil in Hin|]. cbn [arrivals foldr]. fold (arrivals k l).
  apply elem_of_cons in Hin as [<-|Hin].
  - csimpl in Hnd. apply NoDup_cons in Hnd as [Hn _]. rewrite (arrivals_none k l Hn). cbn [arrives]. rewrite Ha. unfold to. by rewrite decide_True.
  - destruct i as [s m' sp | |]; csimpl in Hnd; [|by rewrite IH..]. apply NoDup_cons in Hnd as [Hn Hnd]. rewrite IH by done.
    cbn [arrives]. unfold to. rewrite decide_False; [by destruct (answerable m')|]. intros [= ->]. apply Hn.
    unfold serials. rewrite list_elem_of_omap. by exists (Message k m spawned).
Qed.

(** C26 Every request to the runner is answered once.  Whatever messages arrive
    before it is shut down (with distinct serial numbers, calls that start programs
    with arguments, and KillAll or Shutdown once at most), whatever programs can be
    started, and in whatever order processes end and timers run out, the runner
    never touches a request that it freed; and each call of Run, Start,
    StartSingleton, Kill and KillAll has been answered exactly once, unless it is a
    Run whose process was neither seen to end nor timed out nor killed, which has
    not been answered. *)
Theorem requests_are_answered_once l :
  NoDup (serials (heard l)) -> Forall well_formed (heard l) -> at_most_one_kill (heard l) ->
  exists st o, run l run_init = inr (tt, st, o) /\
    forall serial m spawned, Message serial m spawned ∈ heard l -> answerable m = true ->
      answers serial o + waiting serial st = 1.
Proof.
  intros Hnd Hw H1. destruct (books_run l false run_init inv_init Hw H1) as ([] & st & o & E & B & _); [done|].
  exists st, o. split; [done|]. intros serial m spawned Hin Ha. rewrite B. change (waiting serial run_init) with 0.
  rewrite Z.add_0_r. by apply (arrivals_one serial m spawned).
Qed.
End Claims.

(** ** From the daemon to the program and back *)
Section RoundTrip.
Context {P : Platform} {CB : Type}.
Context (udi_order : gmap string (list nat) -> list string).
Context (g_path_get_basename : string -> string) (g_find_program_in_path : string -> option string).
Context (PATH : string) (g_basename : string -> string) (property_order : HalDevice -> list string).
Context (g_shell_parse_argv : string -> option (list string)) (w : surroundings).

#[local] Notation filter := (Runner.filter udi_order g_path_get_basename g_find_program_in_path PATH).
#[local] Notation run_method := (hald_runner_run_method (CB := CB) g_basename property_order g_shell_parse_argv w).
#[local] Notation environment_of := (environment_of g_basename property_order w).

Lemma leading_strings_all l : leading_strings (VString <$> l) = l.
Proof. induction l as [|s l IH]; [done|]. csimpl. by rewrite IH. Qed.

Lemma add_env_keeps key v iter x : x ∈ iter -> x ∈ add_env key v iter.
Proof. destruct v; cbn; set_solver. Qed.

Lemma add_sessions_keeps seat l ss iter x : x ∈ iter -> x ∈ (add_sessions g_basename seat l ss iter).2.
Proof.
  revert ss iter. induction l as [|s l IH]; intros ss iter H; cbn [add_sessions]; [done|]. apply IH.
  destruct (session_hostname s); [case_decide|]; repeat apply add_env_keeps; done.
Qed.

Lemma add_seats_keeps l ss iter x : x ∈ iter -> x ∈ (add_seats g_basename l ss iter).2.
Proof.
  revert ss iter. induction l as [|[p s] l IH]; intros ss iter H; cbn [add_seats]; [done|].
  pose proof (add_sessions_keeps (g_basename p) s "" iter x H) as K. destruct (add_sessions _ _ _ _ _) as [z iter'].
  apply IH. by repeat apply add_env_keeps.
Qed.

Lemma add_basic_env_keeps u iter x : x ∈ iter -> x ∈ add_basic_env g_basename w u iter.
Proof.
  intros H. unfold add_basic_env. cbv zeta. apply add_env_keeps.
  destruct (ck_seats_now w) as [seats|];
    [match goal with |- context [add_seats _ seats "" ?i] =>
       pose proof (add_seats_keeps seats "" i x) as K; destruct (add_seats _ seats "" i); cbn [snd] in K end;
     do 3 apply add_env_keeps; apply K; clear K|];
  destruct u, (is_verbose w), (is_initialising w), (use_syslog w), (have_polkit w); by repeat apply add_env_keeps.
Qed.

Lemma property_exported d keys iter key v :
  key ∈ keys -> hal_device_property_to_string d key = Some v ->
  "HAL_PROP_" +:+ dots_to_underscores (g_ascii_strup key) +:+ "=" +:+ v ∈
    foldl (fun iter k => add_property_to_msg d k iter) iter keys.
Proof.
  intros Hin Hv. assert (K : forall keys iter x, x ∈ iter -> x ∈ foldl (fun iter k => add_property_to_msg d k iter) iter keys).
  { clear. induction keys as [|k keys IH]; intros iter x H; [done|]. cbn. apply IH. unfold add_property_to_msg. set_solver. }
  revert iter. induction keys as [|k keys IH]; intros iter; [by apply not_elem_of_nil in Hin|].
  apply elem_of_cons in Hin as [<-|Hin]; cbn; [|by apply IH]. apply K. unfold add_property_to_msg. rewrite Hv. set_solver.
Qed.

(** C27 A program runs as the daemon asked, and the daemon hears how it ended.
    The message that [hald_runner_run_method] sends makes the runner start the
    program with the arguments, the input, the time limit and the wish for the
    error output that were asked for, in an environment with every property of the
    device and the extra variables; and whatever reply the runner then sends for
    it leads to exactly one call of the callback, with the device and the exit
    type, the return code and the lines of the reply, after which the reference to
    the device is dropped and nothing is pending as before. *)
Theorem programs_run_as_asked id d command argv path extra input on_stderr timeout cb k st pid :
  g_shell_parse_argv command = Some argv -> find_program g_path_get_basename g_find_program_in_path argv = Some path ->
  pending k !! next_serial k = None ->
  let s := next_serial k in
  let r := mk_request (Some (udi d)) (environment_of (Some d) extra ++ ["PATH=/sbin:/usr/sbin:/bin:/usr/bin:" +:+ PATH])
             path (Some input) on_stderr false timeout in
  exists k1 m, run_method (Some (id, d)) command extra input on_stderr timeout (Some cb) true k =
      inr (tt, k1, [SendCall s m; RefDevice id]) /\
    (exists st1, filter s m (Some pid) st = inr (HANDLED, st1, [WriteStdin pid input]) /\
       requests st1 !! next_request st = Some (mk_run_data r (Some s) pid (bool_decide (0 < timeout)) false false)) /\
    (forall e c l, exists k2, call_notify s (run_reply_message e c l) k1 =
       inr (tt, k2, [Callback cb (Some id) e c (Some l); UnrefDevice id] ++
                    (if method_run_notify k then [MethodRunNotify] else [])) /\ pending k2 = pending k) /\
    (forall key v, key ∈ property_order d -> hal_device_property_to_string d key = Some v ->
       "HAL_PROP_" +:+ dots_to_underscores (g_ascii_strup key) +:+ "=" +:+ v ∈ r_environment r) /\
    (forall x, x ∈ extra -> x ∈ r_environment r).
Proof.
  intros Ha Hp Hs s r. unfold hald_runner_run_method, run_args, add_environment, add_command. cbn [fmap option_fmap option_map snd fst].
  rewrite Ha. cbn [fmap option_fmap option_map mbind option_bind negb app]. eexists _, _. split; [reflexivity|]. split_and!.
  - assert (F : forall env, filter s (runner_message "Run"
        [add_udi (Some d); VStrings env; VStrings argv; VString input; VBoolean on_stderr; VUint32 timeout]) (Some pid) st =
      (handle_run g_path_get_basename g_find_program_in_path PATH s (runner_message "Run"
        [add_udi (Some d); VStrings env; VStrings argv; VString input; VBoolean on_stderr; VUint32 timeout]) (Some pid) ;~ rret HANDLED)%hal st)
      by reflexivity.
    rewrite F. unfold handle_run. cbn [m_args runner_message].
    match goal with |- context [parse_run PATH ?args] =>
      change (parse_run PATH args) with (Some (mk_request (Some (udi d))
        (environment_of (Some d) extra ++ ["PATH=/sbin:/usr/sbin:/bin:/usr/bin:" +:+ PATH]) (argv ++ []) (Some input) on_stderr false timeout)) end.
    rewrite app_nil_r. unfold run_request_run. cbn [r_argv]. rewrite Hp. eexists. split; [reflexivity|]. cbn. apply lookup_insert_eq.
  - intros e c l. eexists. split; [|].
    + unfold call_notify. cbn [pending]. rewrite lookup_insert_eq. unfold process_reply, reply_values, run_reply_message.
      rewrite leading_strings_all. cbn. reflexivity.
    + cbn. by rewrite delete_insert_id.
  - intros key v Hk Hv. cbn [r_environment r]. apply elem_of_app. left. unfold RunnerLink.environment_of, add_extra_env.
    apply elem_of_app. left. apply add_basic_env_keeps. by apply property_exported.
  - intros x Hx. cbn [r_environment r]. apply elem_of_app. left. unfold RunnerLink.environment_of, add_extra_env.
    apply elem_of_app. by right.
Qed.
End RoundTrip.

(** ** Faults *)
Section Faults.
Context {P : Platform} {CB : Type}.
Context (g_basename : string -> string) (property_order : HalDevice -> list string).
Context (g_shell_parse_argv : string -> option (list string)) (w : surroundings).

(** [process_reply] drops the reference of the caller of [hald_runner_run_sync]. *)
Lemma run_sync_takes_no_reference id d command argv extra timeout cb m k x k' t :
  g_shell_parse_argv command = Some argv ->
  hald_runner_run_sync (CB := CB) g_basename property_order g_shell_parse_argv w (Some (id, d)) command extra timeout cb (Some m) k
    = inr (x, k', t) ->
  RefDevice id ∉ t /\ UnrefDevice id ∈ t.
Proof.
  intros Ha. unfold hald_runner_run_sync, run_args, add_environment, add_command. csimpl. rewrite Ha. csimpl.
  unfold process_reply. destruct (reply_values m) as [[[e c] l]|]; intros [= <- <- <-];
    destruct cb, (method_run_notify k); set_solver.
Qed.

(** Without a callback, a program that cannot be asked for is a crash. *)
Lemma no_callback_is_called device command extra input on_stderr timeout k :
  hald_runner_run_method (CB := CB) g_basename property_order g_shell_parse_argv w device command extra input on_stderr timeout
    None false k = inl tt.
Proof. unfold hald_runner_run_method. by destruct (run_args _ _ _ _ _ _ _ _). Qed.
End Faults.

(** ** Instances *)
Module Instances.
Import AsciiPlatform.

Definition order (h : gmap string (list nat)) : list string := (map_to_list h).*1.
Definition in_path (s : string) : option string := Some ("/usr/lib/hal/" +:+ s).
Definition run_message : DBusMessage :=
  runner_message "Run" [VString "/d/1"; VStrings ["A=1"]; VStrings ["probe"; "-v"]; VString ""; VBoolean true; VUint32 30].
Definition day : list input :=
  [Message 1 run_message (Some 42); Message 2 run_message None; Message 3 run_message (Some 43); TimerRunsOut 1;
   Message 4 (runner_message "Kill" [VString "/d/2"]) None; ProcessEnds 0 (Exited 3) ["oops"];
   Message 5 run_message (Some 44); Message 6 (runner_message "KillAll" []) None; ProcessEnds 1 Signaled [];
   Message 7 run_message (Some 45); ProcessEnds 2 Signaled []].

Lemma requests_are_answered_once_witness :
  exists st o, run order id in_path "/bin" day run_init = inr (tt, st, o) /\
    forall serial m spawned, Message serial m spawned ∈ heard day -> answerable m = true ->
      answers serial o + waiting serial st = 1.
Proof.
  apply requests_are_answered_once.
  - apply (bool_decide_unpack _). vm_compute. exact I.
  - repeat (apply Forall_cons_2; [by vm_compute|]); apply Forall_nil_2.
  - vm_compute. lia.
Defined.

(** A second KillAll finds the singleton that the first one killed in the list,
    and after its process was seen to end it is freed. *)
Lemma killed_singletons_stay :
  run order id in_path "/bin"
    [Message 1 (runner_message "StartSingleton" [VStrings []; VStrings ["addon"]]) (Some 42);
     Message 2 (runner_message "KillAll" []) None; ProcessEnds 0 Signaled [];
     Message 3 (runner_message "KillAll" []) None] run_init = inl FreedRequest.
Proof. vm_compute. reflexivity. Qed.

Definition around : surroundings := mk_surroundings true false false (Some "unix:path=/x") (fun _ => None) false None (Some "Linux").
Definition disk : HalDevice := mk_device "/d/1" 0 0 (<["block.major" := PInt32 8]> ∅).
Definition keys (d : HalDevice) : list string := (map_to_list (props d)).*1.
Definition split (s : string) : option (list string) := Some [s].

Lemma programs_run_as_asked_witness :
  exists k1 m st1, hald_runner_run_method (CB := nat) id keys split around (Some (7%nat, disk)) "probe" ["A=1"] "" true 30 (Some 5%nat)
      true (mk_link [] ∅ true 3) = inr (tt, k1, [SendCall 3 m; RefDevice 7]) /\
    Runner.filter order id in_path "/bin" 3 m (Some 42) run_init = inr (HANDLED, st1, [WriteStdin 42 ""]).
Proof.
  destruct (programs_run_as_asked order id in_path "/bin" id keys split around 7 disk "probe" ["probe"] ["/usr/lib/hal/probe"]
              ["A=1"] "" true 30 5%nat (mk_link [] ∅ true 3) run_init 42) as (k1 & m & H & (st1 & F & _) & _); [reflexivity..|].
  by exists k1, m, st1.
Defined.
End Instances.
