(* ===== verification/LinuxSysfs.v ===== *)
(** * Reading sysfs ([hald/linux/osspec.c], and what [hald/linux/device.c] uses of C)

    Files and links of the kernel are a parameter, the class [Sysfs]; a handler
    of an event reads them at one moment.  So are the identifier files, and what
    an [int] holds that was never written ([uninit], by the name of the
    variable).

    Here too: [sscanf] and the numbers of [printf], as far as the handlers use
    them, and the computation of a handler that builds a device. *)

From Stdlib Require Import ZArith Lia Ascii SpecFloat.
From stdpp Require Import base list gmap strings option pretty fin_maps.
From S2P Require Import Prelude CStd Property Device DeviceStore FdiRules Partutil Util Power.

Class Sysfs := {
  fopen : string -> option string;
  readlink : string -> option string;
  stat_ok : string -> bool;
  (** [stat] succeeds and [st_mode & S_IFDIR] *)
  is_dir : string -> bool;
  strtod : string -> double * bool;
  (** [ioctl (SIOCGIWNAME)] on an interface *)
  has_wireless_extensions : string -> bool;
  uninit : string -> Z;
  pci_ids_text : string;
  usb_ids_text : string;
  ids_line_buffer : string;
}.

(** ** [printf] *)
Definition or_null (s : option string) : string := default "(null)" s.

(** Digits in base 16, at least [n]. *)
Fixpoint hex_width (fuel : nat) (u : Z) : nat :=
  match fuel with
  | O => O
  | S fuel => if u <? 16 then 1 else S (hex_width fuel (u / 16))
  end.
Definition hex_padded (n : nat) (u : Z) : string := lower_hex (hex (Nat.max n (hex_width 16 u)) u).
Definition printf_x (z : Z) : string := hex_padded 1 (u32 z).
Definition printf_llx (z : Z) : string := hex_padded 1 (u64 z).
Definition unknown_04x (z : Z) : string := "Unknown (0x" +:+ hex_padded 4 (u32 z) +:+ ")".
Definition unknown_06x (z : Z) : string := "Unknown (0x" +:+ hex_padded 6 (u32 z) +:+ ")".

(** ** [sscanf] *)
Inductive directive := Lit (text : string) | Space | Dec | LongDec | Hex | LongHex | Char.

Definition in_base (base : Z) (c : ascii) : bool :=
  match digit_val c with Some d => d <? base | None => false end.

(** A number behind its sign: the value, and the rest. *)
Definition scan_digits (base : Z) (s : string) : option (Z * string) :=
  let '(ds, rest) := span (fun c => negb (in_base base c)) s in
  match ds with EmptyString => None | _ => Some (digits base 0 ds, rest) end.

Definition drop_0x (s : string) : string :=
  match s with
  | String "0" (String x (String h _ as r)) =>
      if (bool_decide (x = "x"%char) || bool_decide (x = "X"%char)) && is_hex h then r else s
  | _ => s
  end.

Definition scan_number (base : Z) (s : string) : option (Z * string) :=
  let '(neg, r) := sign_split (skip_space s) in
  '(m, rest) ← scan_digits base (if base =? 16 then drop_0x r else r);
  Some (if neg : bool then - m else m, rest).

Definition clamp_long (z : Z) : Z := Z.max (- 2 ^ 63) (Z.min (2 ^ 63 - 1) z).
Definition clamp_ulong (z : Z) : Z := if 2 ^ 64 <=? Z.abs z then 2 ^ 64 - 1 else u64 z.

(** The values stored until a directive fails; a character is its code. *)
Fixpoint sscanf (format : list directive) (s : string) : list Z :=
  match format with
  | [] => []
  | Lit text :: rest => if has_prefix s text then sscanf rest (str_drop (String.length text) s) else []
  | Space :: rest => sscanf rest (skip_space s)
  | Dec :: rest => match scan_number 10 s with Some (z, s) => s32 (clamp_long z) :: sscanf rest s | None => [] end
  | LongDec :: rest => match scan_number 10 s with Some (z, s) => clamp_long z :: sscanf rest s | None => [] end
  | Hex :: rest => match scan_number 16 s with Some (z, s) => u32 (clamp_ulong z) :: sscanf rest s | None => [] end
  | LongHex :: rest => match scan_number 16 s with Some (z, s) => clamp_ulong z :: sscanf rest s | None => [] end
  | Char :: rest => match s with EmptyString => [] | String c s => char_code c :: sscanf rest s end
  end.

(** [atoi] *)
Definition atoi (s : string) : Z := s32 (strtol 10 s).

Section Sysfs.
Context {P : Platform} {S : Sysfs}.

#[local] Notation get_int := (hal_util_get_int_from_file fopen).
#[local] Notation get_string := (hal_util_get_string_from_file fopen).

(** An [int] that is read from a file, or keeps what it had. *)
Definition int_or (variable directory file : string) (base : Z) : Z :=
  default (uninit variable) (get_int directory file base).

(** ** Drivers ([osspec.c]) *)
Definition hal_util_get_driver_name (sysfs_path : string) : option string :=
  let driver_path := snprintf HAL_PATH_MAX (sysfs_path +:+ "/driver") in
  if stat_ok driver_path then
    target ← readlink driver_path;
    let buf := str_take 255 target in
    if decide (buf = "") then None
    else Some (snprintf (String.length buf) (hal_util_get_last_element buf))
  else None.

Definition hal_util_set_driver (property_name : string) (sysfs_path : option string) : dev bool :=
  match sysfs_path ≫= hal_util_get_driver_name with
  | Some driver_name => hal_device_property_set_string property_name (Some driver_name) ;;; dret true
  | None => dret false
  end.

(** ** Parents ([osspec.c]) *)
Definition get_parent_device (path : string) : option string :=
  let '(ok, path) := hal_util_path_ascend path in
  if negb ok || has_suffix path "/class" || has_suffix path "/block" || has_suffix path "/devices" then None else Some path.

(** The nearest ancestor that [known] has; each step shortens the path. *)
Fixpoint nearest_known {A} (fuel : nat) (known : string -> option A) (path : string) : option (A * string) :=
  match fuel with
  | O => None
  | Datatypes.S fuel =>
      match get_parent_device path with
      | None => None
      | Some path => match known path with Some d => Some (d, path) | None => nearest_known fuel known path end
      end
  end.

(** [known]: the device of the global list with a sysfs path.  Another thread may
    change nothing: the rounds that repeat a search find what it found. *)
Definition hal_util_find_known_parent {A} (known : string -> option A) (sysfs_path : string) : option (A * string) :=
  match nearest_known (String.length sysfs_path) known sysfs_path with
  | Some x => Some x
  | None =>
      match readlink (snprintf HAL_PATH_MAX (sysfs_path +:+ "/device")) with
      | None => None
      | Some target =>
          path ← hal_util_get_normalized_path sysfs_path target; path ← path;
          match known path with
          | Some d => Some (d, path)
          | None => nearest_known (String.length path) known path
          end
      end
  end.
End Sysfs.

(** ** Building a device *)

(** The variables of [device.c] and of the modules it calls. *)
Record globals := mk_globals {
  have_sysfs_lid_button : bool;
  have_sysfs_power_button : bool;
  have_sysfs_sleep_button : bool;
  have_sysfs_power_supply : bool;
  battery_poll_running : bool;
  saved_batteries : saved_battery_info;
  grep_buffers : grep_state;
  interval_poll_round : Z;                     (** of [apm.c] *)
}.

(** What is done to devices other than the new one. *)
Inductive other_device := TheParent | TheComputer.

Record building := mk_building {
  b_dev : HalDevice;
  b_counter : Z;
  b_globals : globals;
  b_others : list (other_device * dev unit);
  b_timers : nat;                              (** battery polls that were started *)
}.

Inductive lx_fault := Overrun | NullPointer | NoFuel.

(** [None] among the values: the handler returns NULL. *)
Definition am (A : Type) : Type := building -> lx_fault + (option A * building).
Definition aret {A} (x : A) : am A := fun b => inr (Some x, b).
Definition anull {A} : am A := fun b => inr (None, b).
Definition afault {A} : am A := fun _ => inl Overrun.
Definition anull_read {A} : am A := fun _ => inl NullPointer.
Definition abind {A B} (m : am A) (k : A -> am B) : am B := fun b =>
  match m b with
  | inl f => inl f
  | inr (None, b) => inr (None, b)
  | inr (Some x, b) => k x b
  end.
Notation "'let&' x := m 'in' k" := (abind m (fun x => k))
  (at level 10, x name, m at level 100, k at level 200) : hal_scope.
Notation "m ;& k" := (abind m (fun _ => k)) (at level 199, right associativity) : hal_scope.

Definition set_dev (d : HalDevice) (b : building) : building :=
  mk_building d (b_counter b) (b_globals b) (b_others b) (b_timers b).
Definition on_new {A} (m : dev A) : am A := fun b =>
  let r := m (b_dev b) in inr (Some (res r), set_dev (dev_of r) b).
Definition new_device : am unit := fun b =>
  let '(d, c) := hal_device_new (b_counter b) in
  inr (Some tt, mk_building d c (b_globals b) (b_others b) (b_timers b)).
Definition get_globals : am globals := fun b => inr (Some (b_globals b), b).
Definition set_globals (f : globals -> globals) : am unit := fun b =>
  inr (Some tt, mk_building (b_dev b) (b_counter b) (f (b_globals b)) (b_others b) (b_timers b)).
Definition on_other (o : other_device) (m : dev unit) : am unit := fun b =>
  inr (Some tt, mk_building (b_dev b) (b_counter b) (b_globals b) (b_others b ++ [(o, m)]) (b_timers b)).
Definition start_poll : am unit := fun b =>
  inr (Some tt, mk_building (b_dev b) (b_counter b) (b_globals b) (b_others b) (Datatypes.S (b_timers b))).

(** NULL unless the condition holds. *)
Definition guard_null (b : bool) : am unit := if b then aret tt else anull.

Definition set_grep (st : grep_state) (g : globals) : globals :=
  mk_globals (have_sysfs_lid_button g) (have_sysfs_power_button g) (have_sysfs_sleep_button g)
             (have_sysfs_power_supply g) (battery_poll_running g) (saved_batteries g) st (interval_poll_round g).

(** A search in a file, with its buffers; [None]: a buffer was overrun. *)
Definition agrep {A} (f : grep_state -> option (A * grep_state)) : am A :=
  let& g := get_globals in
  match f (grep_buffers g) with
  | None => afault
  | Some (x, st) => set_globals (set_grep st) ;& aret x
  end.
