(* ===== verification/LinuxBuses.v ===== *)
(** * Devices of the kernel's buses ([hald/linux/device.c], first part)

    A handler of a subsystem has a function that builds the device for an event
    ([..._add]) and one for its UDI ([..._compute_udi]); some have a prober and a
    function that refreshes the device.  The subsystems are in the order of the
    source, up to [ppdev]. *)

From Stdlib Require Import ZArith Lia Ascii SpecFloat.
From stdpp Require Import base list gmap strings option pretty fin_maps.
From S2P Require Import Prelude CStd Property Device DeviceStore FdiRules Partutil Util Power Ids LinuxSysfs.

Definition COMPUTER : string := "/org/freedesktop/Hal/devices/computer".
Definition DEVICES : string := "/org/freedesktop/Hal/devices/".

Notation set_str k v := (hal_device_property_set_string k (Some v)).
Notation set_int := hal_device_property_set_int.
Notation set_bool := hal_device_property_set_bool.
Notation set_u64 := hal_device_property_set_uint64.
Notation add_cap := hal_device_add_capability.
Notation str_file := (hal_util_set_string_from_file fopen).
Notation int_file := (hal_util_set_int_from_file fopen).
Notation read_string := (hal_util_get_string_from_file fopen).
Notation read_int := (hal_util_get_int_from_file fopen).
Notation get_str d k := (hal_device_property_get_string d k).
Notation get_int d k := (hal_device_property_get_int d k).

Section Buses.
Context {P : Platform} {SF : Sysfs}.
(** The devices of the global list, then of the temporary one. *)
Context (find : string -> option HalDevice).

(** The UDI is computed from a text, which is [None] when a NULL pointer is read;
    [compute]: [hald_compute_udi] into 256 bytes. *)
Context (compute : string -> option string).
Definition udi_from (text : HalDevice -> option string) (d : HalDevice) : lx_fault + (bool * HalDevice) :=
  match text d with
  | None => inl NullPointer
  | Some text =>
      match compute text with
      | None => inl NoFuel
      | Some u => inr (true, dev_of (hal_device_set_udi u d))
      end
  end.

(** The value of a variable that [sscanf] may have stored. *)
Definition scanned (values : list Z) (i : nat) (variable : string) : Z := default (uninit variable) (values !! i).

Definition set_parent (parent_dev : option HalDevice) : dev bool :=
  set_str "info.parent" (match parent_dev with Some p => udi p | None => COMPUTER end).
Definition set_driver (sysfs_path : string) : dev bool := hal_util_set_driver "info.linux.driver" (Some sysfs_path).

(** [hal_util_get_last_element] of a pointer that may be NULL. *)
Definition last_element (s : option string) : option string := hal_util_get_last_element <$> s.

Definition parent_of (d : HalDevice) : string := or_null (get_str d "info.parent").

(** ** backlight *)
Definition backlight_add (sysfs_path : string) : am unit :=
  new_device ;&
  on_new (
    add_cap "laptop_panel" ;;;
    set_str "linux.sysfs_path" sysfs_path ;;;
    set_str "info.parent" COMPUTER ;;;
    set_str "info.category" "laptop_panel" ;;;
    set_str "info.product" "Generic Backlight Device" ;;;
    set_str "laptop_panel.access_method" "general" ;;;
    (if strstr (hal_util_get_last_element sysfs_path) "acpi_video" then
       set_bool "laptop_panel.brightness_in_hardware"
         (match read_string "/sys/module/video/parameters/" "brightness_switch_enabled" with
          | Some param => param =s? "Y"
          | None => false
          end)
     else dret true) ;;;
    set_int "laptop_panel.num_levels" (s32 (int_or "max_brightness" sysfs_path "max_brightness" 10 + 1)) ;;;
    dret tt).

Definition backlight_compute_udi := udi_from (fun d => Some (parent_of d +:+ "_backlight")).

(** ** bluetooth *)

(** The six numbers of an address; each is an [unsigned int]. *)
Definition scan_address (s : string) : option Z :=
  match sscanf [Hex; Lit ":"; Hex; Lit ":"; Hex; Lit ":"; Hex; Lit ":"; Hex; Lit ":"; Hex] s with
  | [a5; a4; a3; a2; a1; a0] =>
      Some (Z.lor (Z.lor (Z.lor (Z.lor (Z.lor (u64 (Z.shiftl a5 40)) (u64 (Z.shiftl a4 32))) (Z.shiftl a3 24))
                                (Z.shiftl a2 16)) (Z.shiftl a1 8)) a0)
  | _ => None
  end.

Definition bluetooth_add (sysfs_path : string) (parent_dev : option HalDevice) : am unit :=
  match parent_dev, read_string sysfs_path "address" ≫= scan_address, read_string sysfs_path "type" with
  | Some parent, Some address, Some type_entry =>
      new_device ;&
      on_new (
        set_str "linux.sysfs_path" sysfs_path ;;;
        set_str "info.parent" (udi parent) ;;;
        (if type_entry =s? "ACL" then
           set_str "info.category" "bluetooth_acl" ;;;
           add_cap "bluetooth_acl" ;;;
           set_u64 "bluetooth_acl.address" address ;;;
           set_str "info.product" "Bluetooth Asynchronous Connection-oriented Link" ;;;
           set_str "bluetooth_acl.originating_device" (udi parent)
         else if type_entry =s? "SCO" then
           set_str "info.category" "bluetooth_sco" ;;;
           add_cap "bluetooth_sco" ;;;
           set_u64 "bluetooth_sco.address" address ;;;
           set_str "info.product" "Bluetooth Synchronous Connection-oriented Link" ;;;
           set_str "bluetooth_sco.originating_device" (udi parent)
         else
           set_str "info.category" "bluetooth_hci" ;;;
           add_cap "bluetooth_hci" ;;;
           set_str "info.product" "Bluetooth Host Controller Interface" ;;;
           set_str "bluetooth_hci.originating_device" (udi parent) ;;;
           set_u64 "bluetooth_hci.address" address) ;;;
        dret tt)
  | _, _, _ => anull
  end.

(** The address of a link of the second kind is looked for under the name of the
    first. *)
Definition bluetooth_compute_udi := udi_from (fun d => Some (
  if hal_device_has_capability d "bluetooth_acl" || hal_device_has_capability d "bluetooth_sco"
  then DEVICES +:+ "bluetooth_acl_" +:+ printf_llx (hal_device_property_get_uint64 d "bluetooth_acl.address")
  else parent_of d +:+ "_bluetooth_hci_" +:+ printf_llx (hal_device_property_get_uint64 d "bluetooth_hci.address"))).

(** ** ccw *)
Definition ccw_add_dasd_properties (sysfs_path : string) : dev unit :=
  int_file "ccw.dasd.use_diag" sysfs_path "use_diag" 2 ;;;
  int_file "ccw.dasd.readonly" sysfs_path "readonly" 2 ;;;
  str_file "ccw.dasd.discipline" sysfs_path "discipline" ;;; dret tt.

(** The value of a file, and whether it says that the device is on line. *)
Definition is_online (sysfs_path : string) : bool :=
  match read_int sysfs_path "online" 2 with Some online => negb (online =? 0) | None => false end.

Definition ccw_add_zfcp_properties (sysfs_path : string) : dev unit :=
  if is_online sysfs_path then
    int_file "ccw.zfcp.in_recovery" sysfs_path "in_recovery" 2 ;;;
    int_file "ccw.zfcp.failed" sysfs_path "failed" 2 ;;; dret tt
  else dret tt.

(** [None]: the table of three texts is read outside. *)
Definition ccw_add_tape_properties (sysfs_path : string) : option (dev unit) :=
  let before := str_file "ccw.tape.state" sysfs_path "state" ;;; str_file "ccw.tape.operation" sysfs_path "operation" in
  if is_online sysfs_path then
    let before := before ;;; int_file "ccw.tape.blocksize" sysfs_path "blocksize" 10 in
    match read_int sysfs_path "medium_state" 10 with
    | None => Some (before ;;; dret tt)
    | Some medium_state =>
        if medium_state <? 0 then None
        else text ← ["unknown"; "loaded"; "no medium"] !! Z.to_nat medium_state;
             Some (before ;;; set_str "ccw.tape.medium_state" text ;;; dret tt)
    end
  else Some (before ;;; dret tt).

Definition ccw_add_3270_properties (sysfs_path : string) : dev unit :=
  int_file "ccw.3270.model" sysfs_path "model" 10 ;;;
  int_file "ccw.3270.rows" sysfs_path "rows" 10 ;;;
  int_file "ccw.3270.columns" sysfs_path "columns" 10 ;;; dret tt.

(** The identifiers up to the first that is zero; [i] of eight. *)
Fixpoint set_chpids (ids : list Z) (i : nat) : dev unit :=
  match ids with
  | [] => dret tt
  | chpid :: rest =>
      if chpid =? 0 then dret tt
      else set_int ("ccw.subchannel.chpid" +:+ printf_x (Z.of_nat i)) chpid ;;; set_chpids rest (S i)
  end.

Definition chpid_names : list string :=
  ["chpid[0]"; "chpid[1]"; "chpid[2]"; "chpid[3]"; "chpid[4]"; "chpid[5]"; "chpid[6]"; "chpid[7]"].

Definition when (b : bool) (m : dev unit) : dev unit := if b then m else dret tt.

Definition ccw_add (sysfs_path : string) (parent_dev : option HalDevice) : am unit :=
  new_device ;&
  on_new (
    set_str "linux.sysfs_path" sysfs_path ;;;
    set_parent parent_dev ;;;
    set_driver sysfs_path ;;;
    set_str "ccw.bus_id" (hal_util_get_last_element sysfs_path) ;;;
    int_file "ccw.online" sysfs_path "online" 2 ;;;
    str_file "ccw.availablity" sysfs_path "availability" ;;;
    int_file "ccw.cmb_enable" sysfs_path "cmb_enable" 2 ;;;
    str_file "ccw.cutype" sysfs_path "cutype" ;;;
    str_file "ccw.devtype" sysfs_path "devtype" ;;;
    (match read_string sysfs_path "../pimpampom" with
     | Some text =>
         let values := sscanf [Hex; Space; Hex; Space; Hex] text in
         set_int "ccw.subchannel.pim" (s32 (scanned values 0 "pim")) ;;;
         set_int "ccw.subchannel.pam" (s32 (scanned values 1 "pam")) ;;;
         set_int "ccw.subchannel.pom" (s32 (scanned values 2 "pom"))
     | None => dret true
     end) ;;;
    (match read_string sysfs_path "../chpids" with
     | Some text =>
         let values := sscanf [Hex; Space; Hex; Space; Hex; Space; Hex; Space; Hex; Space; Hex; Space; Hex; Space; Hex] text in
         set_chpids (imap (fun i name => s32 (scanned values i name)) chpid_names) 0
     | None => dret tt
     end)) ;&
  match hal_util_get_driver_name sysfs_path with
  | None => aret tt
  | Some driver_name =>
      on_new (when (has_prefix driver_name "dasd") (ccw_add_dasd_properties sysfs_path) ;;;
              when (has_prefix driver_name "zfcp") (ccw_add_zfcp_properties sysfs_path)) ;&
      (if has_prefix driver_name "tape_3" then
         match ccw_add_tape_properties sysfs_path with Some m => on_new m | None => afault end
       else aret tt) ;&
      on_new (when (has_prefix driver_name "3270") (ccw_add_3270_properties sysfs_path))
  end.

Definition ccw_compute_udi := udi_from (fun d => Some (DEVICES +:+ "ccw_" +:+ or_null (get_str d "ccw.bus_id"))).

(** ** ccwgroup *)
Definition ccwgroup_add_qeth_properties (sysfs_path : string) : dev unit :=
  let is_layer2 := int_or "is_layer2" sysfs_path "layer2" 2 in
  str_file "ccwgroup.qeth.large_send" sysfs_path "large_send" ;;;
  str_file "ccwgroup.qeth.card_type" sysfs_path "card_type" ;;;
  str_file "ccwgroup.qeth.checksumming" sysfs_path "checksumming" ;;;
  when (is_layer2 =? 0) (
    int_file "ccwgroup.qeth.canonical_macaddr" sysfs_path "canonical_macaddr" 2 ;;;
    str_file "ccwgroup.qeth.broadcast_mode" sysfs_path "broadcast_mode" ;;;
    int_file "ccwgroup.qeth.fake_broadcast" sysfs_path "fake_broadcast" 2 ;;;
    int_file "ccwgroup.qeth.fake_ll" sysfs_path "fake_ll" 2 ;;; dret tt) ;;;
  set_int "ccwgroup.qeth.layer2" is_layer2 ;;;
  str_file "ccwgroup.qeth.portname" sysfs_path "portname" ;;;
  int_file "ccwgroup.qeth.portno" sysfs_path "portno" 10 ;;;
  int_file "ccwgroup.qeth.buffer_count" sysfs_path "buffer_count" 10 ;;;
  int_file "ccwgroup.qeth.add_hhlen" sysfs_path "add_hhlen" 10 ;;;
  str_file "ccwgroup.qeth.priority_queueing" sysfs_path "priority_queueing" ;;;
  when (is_layer2 =? 0) (
    str_file "ccwgroup.qeth.route4" sysfs_path "route4" ;;;
    str_file "ccwgroup.qeth.route6" sysfs_path "route6" ;;; dret tt) ;;;
  str_file "ccwgroup.qeth.state" sysfs_path "state" ;;; dret tt.

Definition ccwgroup_add_ctc_properties (sysfs_path : string) : dev unit :=
  int_file "ccwgroup.ctc.protocol" sysfs_path "protocol" 2 ;;;
  str_file "ccwgroup.ctc.type" sysfs_path "type" ;;;
  int_file "ccwgroup.ctc.buffer" sysfs_path "buffer" 10 ;;; dret tt.

Definition ccwgroup_add_lcs_properties (sysfs_path : string) : dev unit :=
  int_file "ccwgroup.lcs.portnumber" sysfs_path "portno" 10 ;;;
  str_file "ccwgroup.lcs.type" sysfs_path "type" ;;;
  int_file "ccwgroup.lcs.lancmd_timeout" sysfs_path "lancmd_timeout" 10 ;;; dret tt.

Definition ccwgroup_add_claw_properties (sysfs_path : string) : dev unit :=
  str_file "ccwgroup.claw.api_type" sysfs_path "api_type" ;;;
  str_file "ccwgroup.claw.adapter_name" sysfs_path "adapter_name" ;;;
  str_file "ccwgroup.claw.host_name" sysfs_path "host_name" ;;;
  int_file "ccwgroup.claw.read_buffer" sysfs_path "read_buffer" 10 ;;;
  int_file "ccwgroup.claw.write_buffer" sysfs_path "write_buffer" 10 ;;; dret tt.

Definition ccwgroup_add (sysfs_path : string) (parent_dev : option HalDevice) : am unit :=
  new_device ;&
  on_new (
    set_str "linux.sysfs_path" sysfs_path ;;;
    set_parent parent_dev ;;;
    set_driver sysfs_path ;;;
    set_str "ccwgroup.bus_id" (hal_util_get_last_element sysfs_path) ;;;
    int_file "ccwgroup.online" sysfs_path "online" 2 ;;;
    match hal_util_get_driver_name sysfs_path with
    | None => dret tt
    | Some driver_name =>
        when (has_prefix driver_name "qeth") (ccwgroup_add_qeth_properties sysfs_path) ;;;
        when (has_prefix driver_name "ctc") (ccwgroup_add_ctc_properties sysfs_path) ;;;
        when (has_prefix driver_name "lcs") (ccwgroup_add_lcs_properties sysfs_path) ;;;
        when (has_prefix driver_name "claw") (ccwgroup_add_claw_properties sysfs_path)
    end).

Definition ccwgroup_compute_udi := udi_from (fun d => Some (DEVICES +:+ "ccwgroup_" +:+ or_null (get_str d "ccwgroup.bus_id"))).

(** ** drm *)
Definition drm_add (sysfs_path device_file : string) (parent_dev : option HalDevice) : am unit :=
  new_device ;&
  on_new (
    add_cap "drm" ;;;
    set_parent parent_dev ;;;
    (match parent_dev with Some p => hal_device_copy_property p "info.vendor" "info.vendor" | None => dret true end) ;;;
    set_str "info.product" "Direct Rendering Manager Device" ;;;
    set_str "info.category" "drm" ;;;
    set_str "linux.device_file" device_file ;;;
    set_str "linux.sysfs_path" sysfs_path ;;;
    set_driver sysfs_path ;;;
    str_file "drm.dri_library" sysfs_path "dri_library_name" ;;;
    str_file "drm.version" sysfs_path "../version" ;;; dret tt).

Definition drm_compute_udi := udi_from (fun d => Some (
  parent_of d +:+ "_drm_" +:+ or_null (get_str d "drm.dri_library") +:+ "_" +:+
  or_null (last_element (get_str d "linux.sysfs_path")))).

(** ** dvb *)

(** The properties that most devices of a class begin with. *)
Definition class_device (sysfs_path category product : string) (parent : HalDevice) : dev bool :=
  set_str "linux.sysfs_path" sysfs_path ;;;
  set_str "info.parent" (udi parent) ;;;
  set_str "info.category" category ;;;
  add_cap category ;;;
  set_str "info.product" product.

(** [parent_path] is NULL when there is no parent. *)
Definition dvb_add (sysfs_path device_file : string) (parent_dev : option HalDevice) : am unit :=
  match parent_dev with
  | None => anull
  | Some parent =>
      new_device ;&
      on_new (class_device sysfs_path "dvb" "DVB Device" parent ;;; set_str "dvb.device" device_file ;;; dret tt)
  end.

Definition dvb_compute_udi := udi_from (fun d => Some (parent_of d +:+ "_dvb")).

(** ** firewire *)
Definition firewire_add_device (sysfs_path device_file : string) (parent : HalDevice) : am unit :=
  guard_null (negb (device_file =s? "")) ;&
  new_device ;&
  on_new (
    set_str "linux.sysfs_path" sysfs_path ;;;
    set_str "info.subsystem" "ieee1394" ;;;
    set_str "info.parent" (udi parent) ;;;
    add_cap "ieee1394" ;;;
    set_str "ieee1394.device" device_file ;;;
    set_driver sysfs_path ;;;
    hal_util_set_uint64_from_file fopen "ieee1394.guid" sysfs_path "guid" 16 ;;;
    int_file "ieee1394.vendor_id" sysfs_path "vendor" 16 ;;;
    int_file "ieee1394.product_id" sysfs_path "model" 16 ;;;
    int_file "ieee1394.harware_version" sysfs_path "harware_version" 16 ;;;
    (let* ok := str_file "ieee1394.vendor" sysfs_path "vendor_name" in
     if ok then dret true
     else let* vendor_id := dget (fun d => get_int d "ieee1394.vendor_id") in
          set_str "ieee1394.vendor" (snprintf 64 (unknown_06x vendor_id))) ;;;
    str_file "ieee1394.product" sysfs_path "model_name" ;;; dret tt).

Definition firewire_add_unit (sysfs_path : string) (unit_id : Z) (parent : HalDevice) : am unit :=
  let specifier_id := int_or "specifier_id" sysfs_path "specifier_id" 16 in
  let version := int_or "version" sysfs_path "version" 16 in
  let has mask value := Z.land version mask =? value in
  new_device ;&
  on_new (
    set_str "linux.sysfs_path" sysfs_path ;;;
    set_str "info.subsystem" "ieee1394_unit" ;;;
    set_str "info.parent" (udi parent) ;;;
    set_str "ieee1394_unit.originating_device" (udi parent) ;;;
    set_int "ieee1394_unit.unit_index" unit_id ;;;
    add_cap "ieee1394_unit" ;;;
    set_driver sysfs_path ;;;
    int_file "ieee1394.vendor_id" sysfs_path "../vendor_id" 16 ;;;
    set_int "ieee1394_unit.specifier_id" specifier_id ;;;
    set_int "ieee1394_unit.version" version ;;;
    (if (specifier_id =? 0x00609e) && (version =? 0x010483) then add_cap "ieee1394_unit.sbp2"
     else if specifier_id =? 0x00a02d then
       when (has 0xffff00 0x000100) (add_cap "ieee1394_unit.iidc") ;;;
       when (has 0xff0001 0x010001) (add_cap "ieee1394_unit.avc") ;;;
       when (has 0xff0002 0x010002) (add_cap "ieee1394_unit.cal") ;;;
       when (has 0xff0004 0x010004) (add_cap "ieee1394_unit.ehs") ;;;
       when (has 0xff0004 0x010008) (add_cap "ieee1394_unit.havi")
     else when ((specifier_id =? 0x000b09d) && (version =? 0x800002)) (add_cap "ieee1394_unit.iidc"))).

Definition firewire_add (sysfs_path device_file : string) (parent_dev : option HalDevice) : am unit :=
  match parent_dev with
  | None => anull
  | Some parent =>
      let bus_id := hal_util_get_last_element sysfs_path in
      match sscanf [Lit "fw"; Dec; Lit "."; Dec] bus_id with
      | [_; unit_id] => firewire_add_unit sysfs_path unit_id parent
      | _ =>
          match sscanf [Lit "fw"; Dec] bus_id with
          | [_] => firewire_add_device sysfs_path device_file parent
          | _ => anull
          end
      end
  end.

Definition firewire_get_prober (d : HalDevice) : option string :=
  if hal_device_has_capability d "ieee1394_unit.avc" then Some "hald-probe-ieee1394-unit" else None.
Definition firewire_post_probing (d : HalDevice) : bool := true.

Definition firewire_compute_udi := udi_from (fun d => Some (
  if hal_device_has_capability d "ieee1394"
  then DEVICES +:+ "ieee1394_guid" +:+ printf_llx (hal_device_property_get_uint64 d "ieee1394.guid")
  else or_null (get_str d "ieee1394_unit.originating_device") +:+ "_unit" +:+ pretty (get_int d "ieee1394_unit.unit_index"))).

(** ** ide *)
Definition ide_add (sysfs_path : string) (parent_dev : option HalDevice) : am unit :=
  let values := sscanf [Dec; Lit "."; Dec] (hal_util_get_last_element sysfs_path) in
  let channel := scanned values 1 "channel" in
  new_device ;&
  on_new (
    set_str "linux.sysfs_path" sysfs_path ;;;
    set_parent parent_dev ;;;
    set_driver sysfs_path ;;;
    set_int "ide.host" (scanned values 0 "host") ;;;
    set_int "ide.channel" channel ;;;
    set_str "info.product" (if channel =? 0 then "IDE device (master)" else "IDE device (slave)") ;;; dret tt).

Definition ide_compute_udi := udi_from (fun d => Some (
  parent_of d +:+ "_ide_" +:+ pretty (get_int d "ide.host") +:+ "_" +:+ pretty (get_int d "ide.channel"))).

(** ** ieee1394 *)
Definition ieee1394_add (sysfs_path : string) (parent_dev : option HalDevice) : am unit :=
  let bus_id := hal_util_get_last_element sysfs_path in
  match parent_dev, sscanf [Lit "fw-host"; Dec] bus_id, sscanf [LongHex; Lit "-"; Dec] bus_id with
  | Some parent, [], [guid; _] =>
      guard_null (negb (strstr sysfs_path "/class/")) ;&
      new_device ;&
      on_new (
        set_str "linux.sysfs_path" sysfs_path ;;;
        set_str "info.parent" (udi parent) ;;;
        set_driver sysfs_path ;;;
        set_u64 "ieee1394.guid" guid ;;;
        int_file "ieee1394.vendor_id" sysfs_path "../vendor_id" 16 ;;;
        int_file "ieee1394.specifier_id" sysfs_path "specifier_id" 16 ;;;
        int_file "ieee1394.version" sysfs_path "version" 16 ;;;
        (let* ok := str_file "ieee1394.vendor" sysfs_path "../vendor_oui" in
         if ok then dret true
         else let* vendor_id := dget (fun d => get_int d "ieee1394.vendor_id") in
              set_str "ieee1394.vendor" (snprintf 64 (unknown_06x vendor_id))) ;;;
        (let* ok := int_file "ieee1394.product_id" sysfs_path "model_id" 16 in
         if ok then
           let* named := str_file "ieee1394.product" sysfs_path "model_name_kv" in
           if named then dret true
           else let* product_id := dget (fun d => get_int d "ieee1394.product_id") in
                set_str "ieee1394.product" (snprintf 64 (unknown_06x product_id))
         else
           set_int "ieee1394.product_id" 0 ;;;
           let* vendor := dget (fun d => get_str d "ieee1394.vendor") in
           hal_device_property_set_string "ieee1394.product" vendor) ;;;
        (let* vendor := dget (fun d => get_str d "ieee1394.vendor") in hal_device_property_set_string "info.vendor" vendor) ;;;
        (let* product := dget (fun d => get_str d "ieee1394.product") in hal_device_property_set_string "info.product" product) ;;;
        dret tt)
  | _, _, _ => anull
  end.

Definition ieee1394_compute_udi := udi_from (fun d => Some (
  DEVICES +:+ "ieee1394_guid_" +:+ printf_llx (hal_device_property_get_uint64 d "ieee1394.guid"))).
End Buses.
