(* ===== verification/LinuxInput.v ===== *)
(** * Input devices ([hald/linux/device.c]: the handler for [input])

    What a device can report is a row of words in hexadecimal; the bits of it
    say whether it is a keyboard, a mouse, a tablet, a switch.  An array of
    [long] is a list of words, and a bit behind its end is no bit of it. *)

From Stdlib Require Import ZArith Lia Ascii SpecFloat.
From stdpp Require Import base list gmap strings option pretty fin_maps.
From S2P Require Import Prelude CStd Property Device DeviceStore FdiRules Partutil Util Power LinuxSysfs LinuxBuses.

Definition KEY_RESERVED : Z := 0.
Definition KEY_Q : Z := 16.
Definition KEY_P : Z := 25.
Definition KEY_KP7 : Z := 71.
Definition KEY_KPDOT : Z := 83.
Definition KEY_POWER : Z := 116.
Definition KEY_SLEEP : Z := 142.
Definition KEY_SUSPEND : Z := 205.
Definition KEY_MAX : Z := 0x1ff.
Definition BTN_MISC : Z := 0x100.
Definition BTN_1 : Z := 0x101.
Definition BTN_MOUSE : Z := 0x110.
Definition BTN_TRIGGER : Z := 0x120.
Definition BTN_A : Z := 0x130.
Definition BTN_TOUCH : Z := 0x14a.
Definition BTN_STYLUS : Z := 0x14b.
Definition REL_X : Z := 0.
Definition REL_Y : Z := 1.
Definition REL_MAX : Z := 0x0f.
Definition ABS_X : Z := 0.
Definition ABS_Y : Z := 1.
Definition ABS_PRESSURE : Z := 0x18.
Definition ABS_MAX : Z := 0x3f.
Definition SW_LID : Z := 0.
Definition SW_TABLET_MODE : Z := 1.
Definition SW_HEADPHONE_INSERT : Z := 2.
Definition SW_RFKILL_ALL : Z := 3.
Definition SW_MICROPHONE_INSERT : Z := 4.
Definition SW_LINEOUT_INSERT : Z := 6.
Definition SW_JACK_PHYSICAL_INSERT : Z := 7.
Definition SW_VIDEOOUT_INSERT : Z := 8.
Definition SW_MAX : Z := 0x0f.

Definition BITS_PER_LONG : Z := 64.
Definition NBITS (x : Z) : nat := Z.to_nat ((x - 1) / BITS_PER_LONG + 1).
Definition test_bit (bit : Z) (bitmask : list Z) : bool :=
  Z.testbit (nth (Z.to_nat (bit / BITS_PER_LONG)) bitmask 0) (bit mod BITS_PER_LONG).

(** [strtoul (s, NULL, 16)] *)
Definition strtoul16 (s : string) : Z :=
  let '(neg, r) := sign_split (skip_space s) in
  let m := digits 16 0 (drop_0x r) in
  if 2 ^ 64 <=? m then 2 ^ 64 - 1 else u64 (if neg : bool then - m else m).

(** The lowest bit that is set is cleared until none is. *)
Fixpoint count_bits (fuel : nat) (val : Z) : Z :=
  match fuel with
  | O => 0
  | S fuel => if val =? 0 then 0 else 1 + count_bits fuel (Z.land val (val - 1))
  end.

Section Input.
Context {P : Platform} {SF : Sysfs}.

(** The array has [words] words of eight bytes, and as many parts of the text as
    it has bytes are read; [None]: a word is stored behind its end. *)
Definition input_str_to_bitmask (s : string) (words : nat) : option (Z * list Z) :=
  let v := strtoul16 <$> g_strsplit s " " (8 * Z.of_nat words) in
  if decide (words < length v)%nat then None
  else Some (foldr (fun val n => count_bits 64 val + n) 0 v, reverse v ++ replicate (words - length v) 0).

(** A file of capabilities, if there is one. *)
Definition with_bitmask (sysfs_path file : string) (words : nat) (k : Z -> list Z -> am unit) : am unit :=
  match read_string sysfs_path file with
  | None => aret tt
  | Some s => match input_str_to_bitmask s words with None => afault | Some (n, bitmask) => k n bitmask end
  end.

Definition input_test_rel (sysfs_path : string) : am unit :=
  with_bitmask sysfs_path "capabilities/rel" (NBITS REL_MAX) (fun _ bitmask =>
    on_new (when (test_bit REL_X bitmask && test_bit REL_Y bitmask) (add_cap "input.mouse"))).

Definition all_bits (first last : Z) (bitmask : list Z) : bool :=
  forallb (fun i => test_bit i bitmask) (seqZ first (last - first + 1)).
Definition input_test_keyboard : list Z -> bool := all_bits KEY_Q KEY_P.
Definition input_test_keypad : list Z -> bool := all_bits KEY_KP7 KEY_KPDOT.
Definition input_test_keys (bitmask : list Z) : bool :=
  existsb (fun i => test_bit i bitmask) (seqZ (KEY_RESERVED + 1) (BTN_MISC - (KEY_RESERVED + 1))).

Definition saw_power_button (g : globals) : globals :=
  mk_globals (have_sysfs_lid_button g) true (have_sysfs_sleep_button g) (have_sysfs_power_supply g)
             (battery_poll_running g) (saved_batteries g) (grep_buffers g) (interval_poll_round g).
Definition saw_sleep_button (g : globals) : globals :=
  mk_globals (have_sysfs_lid_button g) (have_sysfs_power_button g) true (have_sysfs_power_supply g)
             (battery_poll_running g) (saved_batteries g) (grep_buffers g) (interval_poll_round g).
Definition saw_lid_button (g : globals) : globals :=
  mk_globals true (have_sysfs_power_button g) (have_sysfs_sleep_button g) (have_sysfs_power_supply g)
             (battery_poll_running g) (saved_batteries g) (grep_buffers g) (interval_poll_round g).

Definition set_button_type (t : string) : am unit := on_new (set_str "button.type" t ;;; dret tt).

Definition input_test_key (sysfs_path : string) : am unit :=
  with_bitmask sysfs_path "capabilities/key" (NBITS KEY_MAX) (fun num_bits bitmask =>
    if num_bits =? 1 then
      on_new (add_cap "button" ;;; set_bool "button.has_state" false) ;&
      (if test_bit KEY_POWER bitmask then set_button_type "power" ;& set_globals saw_power_button
       else if test_bit KEY_SLEEP bitmask then set_button_type "sleep" ;& set_globals saw_sleep_button
       else if test_bit KEY_SUSPEND bitmask then set_button_type "hibernate"
       else aret tt)
    else
      let is_keyboard := input_test_keyboard bitmask in
      let is_keypad := input_test_keypad bitmask in
      on_new (
        when is_keyboard (add_cap "input.keyboard") ;;;
        when is_keypad (add_cap "input.keypad") ;;;
        when (is_keyboard || is_keypad || input_test_keys bitmask) (add_cap "input.keys"))).

Definition jack_switches : list Z :=
  [SW_HEADPHONE_INSERT; SW_MICROPHONE_INSERT; SW_LINEOUT_INSERT; SW_VIDEOOUT_INSERT; SW_JACK_PHYSICAL_INSERT].
Definition input_count_jack_switches (bitmask : list Z) : Z :=
  Z.of_nat (length (List.filter (fun sw => test_bit sw bitmask) jack_switches)).

Definition input_test_switch (sysfs_path : string) : am unit :=
  with_bitmask sysfs_path "capabilities/sw" (NBITS SW_MAX) (fun num_bits bitmask =>
    if num_bits <=? 0 then aret tt
    else
      on_new (add_cap "input.switch") ;&
      (if (num_bits =? 1) || (num_bits =? input_count_jack_switches bitmask) then
         on_new (
           add_cap "button" ;;;
           set_bool "button.has_state" true ;;;
           set_bool "button.state.value" false) ;&
         (if test_bit SW_LID bitmask then set_button_type "lid" ;& set_globals saw_lid_button
          else if test_bit SW_TABLET_MODE bitmask then set_button_type "tablet_mode"
          else if test_bit SW_RFKILL_ALL bitmask then set_button_type "radio"
          else aret tt) ;&
         on_new (
           when (test_bit SW_HEADPHONE_INSERT bitmask) (add_cap "input.jack.headphone") ;;;
           when (test_bit SW_MICROPHONE_INSERT bitmask) (add_cap "input.jack.microphone") ;;;
           when (test_bit SW_LINEOUT_INSERT bitmask) (add_cap "input.jack.lineout") ;;;
           when (test_bit SW_VIDEOOUT_INSERT bitmask) (add_cap "input.jack.videoout") ;;;
           when (existsb (fun sw => test_bit sw bitmask) jack_switches) (
             add_cap "input.jack" ;;;
             hal_device_property_set_strlist "input.jack.type" [] ;;;
             set_str "button.type" "jack_insert" ;;; dret tt))
       else aret tt)).

(** [NULL] for the file of keys: no test on keys is made. *)
Definition input_test_abs (sysfs_path : string) : am unit :=
  with_bitmask sysfs_path "capabilities/abs" (NBITS ABS_MAX) (fun _ bitmask_abs =>
    let test_pressure := on_new (when (test_bit ABS_PRESSURE bitmask_abs) (add_cap "input.touchpad")) in
    if test_bit ABS_X bitmask_abs && test_bit ABS_Y bitmask_abs then
      match read_string sysfs_path "capabilities/key" with
      | None => test_pressure
      | Some s =>
          match input_str_to_bitmask s (NBITS KEY_MAX) with
          | None => afault
          | Some (_, bitmask_key) =>
              if test_bit BTN_STYLUS bitmask_key then on_new (add_cap "input.tablet")
              else if test_bit BTN_TOUCH bitmask_key then on_new (add_cap "input.touchpad")
              else if test_bit BTN_TRIGGER bitmask_key || test_bit BTN_A bitmask_key || test_bit BTN_1 bitmask_key
              then on_new (add_cap "input.joystick")
              else if test_bit BTN_MOUSE bitmask_key then on_new (add_cap "input.mouse")
              else test_pressure
          end
      end
    else aret tt).

(** Where the attributes of an event device are. *)
Definition attr_sysfs_path (sysfs_path : string) : option string :=
  if stat_ok (sysfs_path +:+ "/../capabilities") then Some (sysfs_path +:+ "/../")
  else if stat_ok (sysfs_path +:+ "/device/capabilities") then Some (sysfs_path +:+ "/device/")
  else None.

Definition input_add (sysfs_path device_file : string) (parent_dev : option HalDevice) : am unit :=
  guard_null (negb (device_file =s? "")) ;&
  match sscanf [Lit "event"; Dec] (hal_util_get_last_element sysfs_path), attr_sysfs_path sysfs_path with
  | [_], Some attr =>
      new_device ;&
      on_new (
        set_str "linux.sysfs_path" sysfs_path ;;;
        (match parent_dev with Some p => set_str "input.originating_device" (udi p) | None => dret true end) ;;;
        set_parent parent_dev ;;;
        set_str "info.category" "input" ;;;
        add_cap "input" ;;;
        set_str "input.device" device_file ;;;
        str_file "info.product" attr "name" ;;;
        str_file "input.product" attr "name") ;&
      input_test_key attr ;&
      input_test_rel attr ;&
      input_test_abs attr ;&
      input_test_switch attr
  | _, _ => anull
  end.

Definition input_get_prober (d : HalDevice) : option string :=
  if hal_device_property_get_bool d "button.has_state" then Some "hald-probe-input" else None.
Definition input_post_probing (d : HalDevice) : bool := true.
Definition input_compute_udi (compute : string -> option string) :=
  udi_from compute (fun d => Some (parent_of d +:+ "_logicaldev_input")).
End Input.
