(* ===== verification/LinuxCards.v ===== *)
(** * Cards, interfaces and ports ([hald/linux/device.c], from [iucv] to [ppdev]) *)

From Stdlib Require Import ZArith Lia Ascii SpecFloat.
From stdpp Require Import base list gmap strings option pretty fin_maps.
From S2P Require Import Prelude CStd Property Device DeviceStore FdiRules Partutil Util Power Ids LinuxSysfs LinuxBuses.

Section Cards.
Context {P : Platform} {G : GText} {SF : Sysfs}.
(** A device by its UDI, in the global list or else in the temporary one. *)
Context (find : string -> option HalDevice).
Context (compute : string -> option string).

#[local] Notation udi_from := (udi_from compute).

(** ** iucv *)
Definition iucv_add_netiucv_properties (sysfs_path : string) : dev unit :=
  str_file "iucv.netiucv.user" sysfs_path "user" ;;;
  int_file "iucv.netiucv.buffer" sysfs_path "buffer" 10 ;;; dret tt.

Definition iucv_add (sysfs_path : string) (parent_dev : option HalDevice) : am unit :=
  new_device ;&
  on_new (
    set_str "linux.sysfs_path" sysfs_path ;;;
    set_parent parent_dev ;;;
    set_driver sysfs_path ;;;
    set_str "iucv.bus_id" (hal_util_get_last_element sysfs_path) ;;;
    match hal_util_get_driver_name sysfs_path with
    | Some driver_name => when (has_prefix driver_name "netiucv") (iucv_add_netiucv_properties sysfs_path)
    | None => dret tt
    end).

Definition iucv_compute_udi := udi_from (fun d => Some (DEVICES +:+ "iucv_" +:+ or_null (get_str d "iucv.bus_id"))).

(** ** leds *)
Definition set_unless_empty (key value : string) : dev unit := when (negb (value =s? "")) (set_str key value ;;; dret tt).

Definition leds_add (sysfs_path : string) (parent_dev : option HalDevice) : am unit :=
  new_device ;&
  on_new (
    set_parent parent_dev ;;;
    set_str "linux.sysfs_path" sysfs_path ;;;
    set_driver sysfs_path ;;;
    set_str "info.category" "leds" ;;;
    add_cap "leds" ;;;
    match g_strsplit_set (hal_util_get_last_element sysfs_path) ":" with
    | [] => dret tt
    | name :: rest =>
        set_unless_empty "leds.device_name" name ;;;
        match rest with
        | [] => dret tt
        | colour :: rest =>
            set_unless_empty "leds.colour" colour ;;;
            match rest with [] => dret tt | function :: _ => set_unless_empty "leds.function" function end
        end
    end).

Definition leds_compute_udi := udi_from (fun d => Some (DEVICES +:+ "leds_" +:+
  match get_str d "leds.device_name", get_str d "leds.function", get_str d "leds.colour" with
  | Some name, Some function, Some colour => name +:+ "_" +:+ function +:+ "_" +:+ colour
  | Some name, Some function, None => name +:+ "_" +:+ function
  | Some name, None, _ => name
  | None, _, _ => "unknown"
  end)).

(** ** memstick *)
Definition memstick_add (sysfs_path : string) (parent_dev : option HalDevice) : am unit :=
  match parent_dev with
  | None => anull
  | Some parent =>
      new_device ;&
      on_new (
        set_str "linux.sysfs_path" sysfs_path ;;;
        set_str "info.parent" (udi parent) ;;;
        set_driver sysfs_path ;;;
        str_file "info.product" sysfs_path "attr_modelname" ;;; dret tt)
  end.

(** Not looked up among the devices, unlike those of the others. *)
Definition plain_udi_from (text : HalDevice -> string) (d : HalDevice) : lx_fault + (bool * HalDevice) :=
  let u := hal_util_compute_udi 256 (text d) in
  inr (true, dev_of ((hal_device_set_udi u ;;; set_str "info.udi" u) d)).

Definition memstick_compute_udi := plain_udi_from (fun d => parent_of d +:+ "_memstick_card").

Definition memstick_host_add (sysfs_path : string) (parent_dev : option HalDevice) : am unit :=
  match parent_dev with
  | None => anull
  | Some parent =>
      let values := sscanf [Lit "memstick"; Dec] (hal_util_get_last_element sysfs_path) in
      new_device ;&
      on_new (
        class_device sysfs_path "memstick_host" "Memory Stick Host Adapter" parent ;;;
        set_int "memstick_host.host" (scanned values 0 "host_num") ;;; dret tt)
  end.

Definition memstick_host_compute_udi := plain_udi_from (fun d => parent_of d +:+ "_memstick_host").

(** ** mmc *)

(** [hal_util_get_string_from_file] returns a pointer to its only buffer: what is
    there after a call for another file. *)
Definition reread (buf directory file : string) : string :=
  match fopen (file_path directory file) with
  | None => buf
  | Some content => match fgets 256 content with Some buf => strip_trailing buf | None => "" end
  end.

Definition mmc_add (sysfs_path : string) (parent_dev : option HalDevice) : am unit :=
  match parent_dev with
  | None => anull
  | Some parent =>
      let values := sscanf [Lit "mmc"; Dec; Lit ":"; Hex] (hal_util_get_last_element sysfs_path) in
      let type := read_string sysfs_path "type" in
      let scr := read_string sysfs_path "scr" in
      let type_later := (fun t => reread (reread t sysfs_path "scr") sysfs_path "name") <$> type in
      new_device ;&
      on_new (
        set_str "linux.sysfs_path" sysfs_path ;;;
        set_str "info.parent" (udi parent) ;;;
        set_driver sysfs_path ;;;
        set_int "mmc.rca" (s32 (scanned values 1 "rca")) ;;;
        str_file "mmc.cid" sysfs_path "cid" ;;;
        str_file "mmc.csd" sysfs_path "csd" ;;;
        (match type with Some t => set_str "mmc.type" t | None => dret true end) ;;;
        (match scr with
         | Some text => if text =s? "0000000000000000" then dret true else set_str "mmc.scr" text
         | None => dret true
         end) ;;;
        (let* ok := str_file "info.product" sysfs_path "name" in
         if ok then dret true
         else match type_later, scr with
              | Some t, _ =>
                  let buf := snprintf 64 (t +:+ " Card") in
                  set_str "info.product" buf ;;; set_str "mmc.product" buf
              | None, Some text =>
                  if text =s? "0000000000000000" then set_str "mmc.product" "MMC Card"
                  else set_str "info.product" "SD Card" ;;; set_str "mmc.product" "SD Card"
              | None, None => set_str "mmc.product" "MMC Card"
              end) ;;;
        (match read_int sysfs_path "manfid" 16 with
         | Some manfid =>
             let vendor := "Unknown (" +:+ pretty manfid +:+ ")" in
             set_str "info.vendor" vendor ;;; set_str "mmc.vendor" vendor
         | None => dret true
         end) ;;;
        (match read_int sysfs_path "oemid" 16 with
         | Some oemid => set_str "mmc.oem" ("Unknown (" +:+ pretty oemid +:+ ")")
         | None => dret true
         end) ;;;
        str_file "mmc.date" sysfs_path "date" ;;;
        int_file "mmc.hwrev" sysfs_path "hwrev" 16 ;;;
        int_file "mmc.fwrev" sysfs_path "fwrev" 16 ;;;
        int_file "mmc.serial" sysfs_path "serial" 16 ;;; dret tt)
  end.

Definition mmc_compute_udi := udi_from (fun d => Some (
  parent_of d +:+ "_mmc_card_rca" +:+ pretty (get_int d "mmc.rca"))).

(** The text after "slot:", if it is one of two. *)
Definition slot_name (text : string) : string :=
  let name := if has_prefix text "slot:" then str_drop 5 text else text in
  if (name =s? "internal") || (name =s? "external") then name else "unknown".

Definition mmc_host_add (sysfs_path : string) (parent_dev : option HalDevice) : am unit :=
  match parent_dev with
  | None => anull
  | Some parent =>
      let values := sscanf [Lit "mmc"; Dec] (hal_util_get_last_element sysfs_path) in
      new_device ;&
      on_new (
        class_device sysfs_path "mmc_host" "MMC/SD Host Adapter" parent ;;;
        set_int "mmc_host.host" (scanned values 0 "host_num") ;;;
        (match read_string sysfs_path "slot_name" with
         | Some text => set_str "mmc_host.slot_name" (slot_name text)
         | None => dret true
         end) ;;;
        (match read_string sysfs_path "/cover_switch" with
         | Some _ =>
             add_cap "button" ;;;
             set_str "button.type" "cover" ;;;
             set_bool "button.has_state" false
         | None => dret true
         end) ;;; dret tt)
  end.

Definition mmc_host_compute_udi := udi_from (fun d => Some (parent_of d +:+ "_mmc_host")).

(** ** net *)
Definition ARPHRD_ETHER : Z := 1.
Definition ARPHRD_LOOPBACK : Z := 772.
Definition ARPHRD_IRDA : Z := 783.
Definition ARPHRD_IEEE80211 : Z := 801.
Definition ARPHRD_IEEE80211_PRISM : Z := 802.
Definition ARPHRD_IEEE80211_RADIOTAP : Z := 803.
Definition IFNAMSIZ : nat := 16.

(** The kind of an Ethernet interface, by its parent, the driver and sysfs. *)
Definition ether_kind (sysfs_path ifname : string) (parent : HalDevice) : string * string :=
  if bool_decide (get_str parent "info.subsystem" = Some "bluetooth") then ("Bluetooth Interface", "net.bluetooth")
  else if has_wireless_extensions (str_take IFNAMSIZ ifname) ||
          is_dir (snprintf HAL_PATH_MAX (sysfs_path +:+ "/phy80211")) then ("WLAN Interface", "net.80211")
  else if is_dir (snprintf HAL_PATH_MAX (sysfs_path +:+ "/bridge")) then ("Bridge Interface", "net.bridge")
  else ("Networking Interface", "net.80203").

Definition set_kind (product category : string) : dev unit :=
  set_str "info.product" product ;;;
  set_str "info.category" category ;;;
  add_cap category.

Definition set_media_type (sysfs_path ifname : string) (parent : HalDevice) (media_type : Z) : dev unit :=
  if media_type =? ARPHRD_ETHER then
    let* addr := dget (fun d => get_str d "net.address") in
    let mac_address := default 0 (addr ≫= scan_address) in
    let '(product, category) := ether_kind sysfs_path ifname parent in
    set_kind product category ;;;
    set_u64 (category +:+ ".mac_address") mac_address ;;; dret tt
  else if media_type =? ARPHRD_IRDA then set_kind "Networking Interface" "net.irda"
  else if media_type =? ARPHRD_LOOPBACK then set_kind "Loopback device Interface" "net.loopback"
  else when ((media_type =? ARPHRD_IEEE80211) || (media_type =? ARPHRD_IEEE80211_PRISM) ||
             (media_type =? ARPHRD_IEEE80211_RADIOTAP))
            (set_kind "Networking Wireless Control Interface" "net.80211control").

Definition or_fail (m : dev bool) : am unit := let& ok := on_new m in guard_null ok.

Definition net_add (sysfs_path : string) (parent_dev : option HalDevice) : am unit :=
  new_device ;&
  match (match parent_dev with Some p => Some p | None => find COMPUTER end) with
  | None => anull
  | Some parent =>
      let ifname := hal_util_get_last_element sysfs_path in
      let addr_len := int_or "addr_len" sysfs_path "addr_len" 0 in
      on_new (
        set_str "info.parent" (udi parent) ;;;
        set_str "net.originating_device" (udi parent) ;;;
        set_str "info.category" "net" ;;;
        add_cap "net" ;;;
        set_str "linux.sysfs_path" sysfs_path ;;;
        set_str "net.interface" ifname ;;;
        (let* ok := (if addr_len =? 0 then dret false else str_file "net.address" sysfs_path "address") in
         if ok then dret true else set_str "net.address" "00:00:00:00:00:00")) ;&
      or_fail (int_file "net.linux.ifindex" sysfs_path "ifindex" 10) ;&
      or_fail (int_file "net.arp_proto_hw_id" sysfs_path "type" 10) ;&
      guard_null (bool_decide (is_Some (read_int sysfs_path "flags" 16))) ;&
      on_new (let* media_type := dget (fun d => get_int d "net.arp_proto_hw_id") in
              set_media_type sysfs_path ifname parent (u32 media_type))
  end.

Definition net_refresh (d : HalDevice) : dev bool :=
  hal_device_property_set_string "net.interface" (last_element (get_str d "linux.sysfs_path")) ;;; dret true.

Definition net_get_prober (d : HalDevice) : option string :=
  if hal_device_has_capability d "net.bluetooth" then Some "hald-probe-net-bluetooth" else None.
Definition net_post_probing (d : HalDevice) : bool := true.

(** The word behind "net." in the category. *)
Definition net_type (d : HalDevice) : option string :=
  cat ← get_str d "info.category";
  if has_prefix cat "net." then
    let '(word, _) := span isspace (skip_space (str_drop 4 cat)) in
    if decide (word = "") then None else Some word
  else None.

Definition net_compute_udi := udi_from (fun d =>
  let numbered id := Some (DEVICES +:+ "net_" +:+ id) in
  let fall_back :=
    origin ← get_str d "net.originating_device";
    let id := hal_util_get_last_element origin in
    match (if id =s? "computer" then net_type d else None) with
    | Some type => numbered (id +:+ "_" +:+ type)
    | None => numbered id
    end in
  match get_str d "net.address" with
  | Some id => if id =s? "00:00:00:00:00:00" then fall_back else numbered id
  | None => fall_back
  end).

(** ** of_platform, platform, and other buses with a name per device *)

(** A device known by the last part of its path. *)
Definition named_device (sysfs_path : string) (parent_dev : option HalDevice) (id_key kind : string) : dev bool :=
  let dev_id := hal_util_get_last_element sysfs_path in
  set_str "linux.sysfs_path" sysfs_path ;;;
  set_parent parent_dev ;;;
  set_driver sysfs_path ;;;
  set_str id_key dev_id ;;;
  let* id := dget (fun d => get_str d id_key) in
  set_str "info.product" (snprintf 64 (kind +:+ " (" +:+ or_null id +:+ ")")).

Definition of_platform_add (sysfs_path : string) (parent_dev : option HalDevice) : am unit :=
  new_device ;&
  on_new (named_device sysfs_path parent_dev "of_platform.id" "OpenFirmware Platform Device" ;;; dret tt).

Definition of_platform_compute_udi := udi_from (fun d => Some (
  DEVICES +:+ "of_platform_" +:+ or_null (get_str d "of_platform.id"))).

(** ** pci *)
Definition set_name (keys : list string) (name : option string) (otherwise : dev unit) : dev unit :=
  match name with
  | Some name => foldr (fun key m => set_str key name ;;; m) (dret tt) keys
  | None => otherwise
  end.

Definition pci_add (sysfs_path : string) (parent_dev : option HalDevice) : am unit :=
  new_device ;&
  on_new (
    set_str "linux.sysfs_path" sysfs_path ;;;
    set_parent parent_dev ;;;
    set_str "pci.linux.sysfs_path" sysfs_path ;;;
    set_driver sysfs_path) ;&
  or_fail (int_file "pci.product_id" sysfs_path "device" 16) ;&
  or_fail (int_file "pci.vendor_id" sysfs_path "vendor" 16) ;&
  on_new (
    int_file "pci.subsys_product_id" sysfs_path "subsystem_device" 16 ;;;
    int_file "pci.subsys_vendor_id" sysfs_path "subsystem_vendor" 16 ;;;
    (match read_int sysfs_path "class" 16 with
     | Some device_class =>
         set_int "pci.device_class" (Z.land (Z.shiftr device_class 16) 0xff) ;;;
         set_int "pci.device_subclass" (Z.land (Z.shiftr device_class 8) 0xff) ;;;
         set_int "pci.device_protocol" (Z.land device_class 0xff)
     | None => dret true
     end) ;;;
    let* d := dget (fun d => d) in
    let names := ids_find_pci pci_ids_text ids_line_buffer (get_int d "pci.vendor_id") (get_int d "pci.product_id")
                   (get_int d "pci.subsys_vendor_id") (get_int d "pci.subsys_product_id") in
    set_name ["pci.vendor"; "info.vendor"] (vendor_name names)
      (set_str "info.vendor" (snprintf 64 (unknown_04x (get_int d "pci.vendor_id"))) ;;; dret tt) ;;;
    set_name ["pci.product"; "info.product"] (product_name names)
      (set_str "info.product" (snprintf 64 (unknown_04x (get_int d "pci.product_id"))) ;;; dret tt) ;;;
    set_name ["pci.subsys_vendor"] (subsys_vendor_name names) (dret tt) ;;;
    set_name ["pci.subsys_product"] (subsys_product_name names) (dret tt)).

Definition pci_compute_udi := udi_from (fun d => Some (
  DEVICES +:+ "pci_" +:+ printf_x (get_int d "pci.vendor_id") +:+ "_" +:+ printf_x (get_int d "pci.product_id"))).

(** ** pcmcia *)
Definition pcmcia_add (sysfs_path : string) (parent_dev : option HalDevice) : am unit :=
  let values := sscanf [Dec; Lit "."; Dec] (hal_util_get_last_element sysfs_path) in
  new_device ;&
  on_new (
    set_str "linux.sysfs_path" sysfs_path ;;;
    set_parent parent_dev ;;;
    set_driver sysfs_path ;;;
    set_int "pcmcia.socket_number" (scanned values 0 "socket") ;;;
    str_file "pcmcia.prod_id1" sysfs_path "prod_id1" ;;;
    str_file "pcmcia.prod_id2" sysfs_path "prod_id2" ;;;
    str_file "pcmcia.prod_id3" sysfs_path "prod_id3" ;;;
    str_file "pcmcia.prod_id4" sysfs_path "prod_id4" ;;;
    int_file "pcmcia.manf_id" sysfs_path "manf_id" 16 ;;;
    int_file "pcmcia.card_id" sysfs_path "card_id" 16 ;;;
    int_file "pcmcia.func_id" sysfs_path "func_id" 16 ;;;
    let* prod_id1 := dget (fun d => get_str d "pcmcia.prod_id1") in
    let* prod_id2 := dget (fun d => get_str d "pcmcia.prod_id2") in
    set_name ["pcmcia.vendor"; "info.vendor"] prod_id1
      (let* manf_id := dget (fun d => get_int d "pcmcia.manf_id") in
       set_str "info.vendor" (snprintf 50 (unknown_04x manf_id)) ;;; dret tt) ;;;
    match prod_id2 with
    | Some name =>
        hal_device_property_set_string "pcmcia.product" prod_id1 ;;;
        set_str "info.product" name ;;; dret tt
    | None =>
        let* card_id := dget (fun d => get_int d "pcmcia.card_id") in
        set_str "info.product" (snprintf 50 (unknown_04x card_id)) ;;; dret tt
    end).

Definition pcmcia_compute_udi := udi_from (fun d => Some (
  DEVICES +:+ "pcmcia_" +:+ pretty (get_int d "pcmcia.manfid1") +:+ "_" +:+ pretty (get_int d "pcmcia.manfid2"))).

(** ** platform *)
Definition platform_add (sysfs_path : string) (parent_dev : option HalDevice) : am unit :=
  new_device ;&
  on_new (
    named_device sysfs_path parent_dev "platform.id" "Platform Device" ;;;
    when (has_prefix (hal_util_get_last_element sysfs_path) "dock")
      (set_bool "info.docked" (negb (int_or "docked" sysfs_path "docked" 0 =? 0)) ;;; dret tt)).

Definition platform_compute_udi := udi_from (fun d => Some (
  DEVICES +:+ "platform_" +:+ or_null (get_str d "platform.id"))).

(** TRUE: the poll goes on. *)
Definition platform_refresh_undock (d : HalDevice) : dev bool :=
  let sysfs_path := or_null (get_str d "linux.sysfs_path") in
  if negb (int_or "flags" sysfs_path "flags" 0 =? 0) then dret true
  else set_bool "info.docked" (negb (int_or "docked" sysfs_path "docked" 0 =? 0)) ;;; dret false.

(** With TRUE, [platform_refresh_undock] is called later; a station that does not
    tell whether it is docked leaves the variable as it was. *)
Definition platform_refresh (d : HalDevice) : lx_fault + (dev bool * bool) :=
  match get_str d "platform.id" with
  | None => inl NullPointer
  | Some id =>
      if negb (has_prefix id "dock") then inr (dret true, false)
      else
        let sysfs_path := or_null (get_str d "linux.sysfs_path") in
        let docked := int_or "docked" sysfs_path "docked" 0 in
        if (docked =? 1) && (int_or "flags" sysfs_path "flags" 0 =? 2) then inr (dret true, true)
        else inr (set_bool "info.docked" (negb (docked =? 0)) ;;; dret true, false)
  end.

(** ** pnp *)

(** [strtok (s, "-")] *)
Fixpoint skip_dashes (s : string) : string :=
  match s with String "-" s => skip_dashes s | _ => s end.
Definition first_token (s : string) : option string :=
  match skip_dashes s with
  | EmptyString => None
  | s => Some (span (fun c => bool_decide (c = "-"%char)) s).1
  end.

(** [strtok] writes into the property's own string, which is then set to its first
    token. *)
Definition pnp_set_serial_info (sysfs_path : string) : am unit :=
  let& set_irq := agrep (hal_util_set_int_elem_from_file fopen "pnp.serial.irq" sysfs_path (Some "resources") "irq" 0 10 true) in
  on_new set_irq ;&
  let& set_port := agrep (hal_util_set_string_elem_from_file fopen "pnp.serial.port" sysfs_path (Some "resources") "io" 0 true) in
  let& ok := on_new set_port in
  if ok : bool then
    on_new (let* port := dget (fun d => get_str d "pnp.serial.port") in
            match port ≫= first_token with
            | Some port => set_str "pnp.serial.port" port ;;; dret tt
            | None => dret tt
            end)
  else aret tt.

Definition is_tablet (pnp_id : string) : bool :=
  has_prefix pnp_id "WACf00" || (pnp_id =s? "FUJ02e5") || (pnp_id =s? "FUJ02e6") || (pnp_id =s? "FPI2004").

Definition pnp_add (sysfs_path : string) (parent_dev : option HalDevice) : am unit :=
  new_device ;&
  on_new (
    set_str "linux.sysfs_path" sysfs_path ;;;
    set_parent parent_dev ;;;
    set_driver sysfs_path ;;;
    str_file "pnp.id" sysfs_path "id") ;&
  let& pnp_id := on_new (dget (fun d => get_str d "pnp.id")) in
  (match pnp_id with
   | None => aret tt
   | Some pnp_id =>
       on_new (set_name ["pnp.description"; "info.product"] (ids_find_pnp pnp_id) (dret tt)) ;&
       if is_tablet pnp_id && bool_decide (is_Some (find COMPUTER)) then
         on_other TheComputer (
           set_str "system.formfactor" "laptop" ;;;
           set_str "system.formfactor.subtype" "tabletpc" ;;; dret tt) ;&
         pnp_set_serial_info sysfs_path
       else aret tt
   end) ;&
  on_new (
    let* d := dget (fun d => d) in
    when (negb (hal_device_has_property d "info.product"))
      (set_str "info.product" (snprintf 64 ("PnP Device (" +:+ or_null (get_str d "pnp.id") +:+ ")")) ;;; dret tt)).

Definition pnp_compute_udi := udi_from (fun d => Some (DEVICES +:+ "pnp_" +:+ or_null (get_str d "pnp.id"))).

(** ** ppdev *)
Definition ppdev_add (sysfs_path : string) (parent_dev : option HalDevice) : am unit :=
  new_device ;&
  on_new (
    set_parent parent_dev ;;;
    set_str "linux.sysfs_path" sysfs_path ;;;
    set_driver sysfs_path ;;;
    add_cap "ppdev" ;;;
    set_str "info.category" "ppdev" ;;;
    set_str "info.product" "Parallel Port Device" ;;; dret tt).

Definition ppdev_compute_udi := udi_from (fun d => Some (
  match last_element (get_str d "linux.device_file") with
  | Some name => DEVICES +:+ "ppdev_" +:+ name
  | None => DEVICES +:+ "ppdev"
  end)).
End Cards.
