(* ===== verification/LinuxPower.v ===== *)
(** * Power supplies ([hald/linux/device.c]: the handler for [power_supply])

    Batteries and mains adapters.  A battery is refreshed from the files of the
    kernel, which report in micro-units, then its charge is made uniform by
    [device_pm.c]; the levels that were seen before are passed along. *)

From Stdlib Require Import ZArith Lia Ascii SpecFloat.
From stdpp Require Import base list gmap strings option pretty fin_maps.
From S2P Require Import Prelude CStd Property Device DeviceStore FdiRules Partutil Util Power LinuxSysfs LinuxBuses.

Section PowerSupply.
Context {P : Platform} {SF : Sysfs}.
(** The devices, and the time. *)
Context (e : env) (cur_time : Z).
Context (compute : string -> option string).

Definition refresh_ac_adapter : dev unit :=
  let* path := dget (fun d => get_str d "linux.sysfs_path") in
  match path with
  | None => dret tt
  | Some path =>
      set_bool "ac_adapter.present" (default true (hal_util_get_bool_from_file fopen path "online" "1")) ;;; dret tt
  end.

(** The first of some files that has a number. *)
Fixpoint first_int (path : string) (files : list string) : option Z :=
  match files with
  | [] => None
  | file :: rest => match read_int path file 10 with Some z => Some z | None => first_int path rest end
  end.

(** A value in micro-units, stored in milli-units. *)
Definition set_milli (key : string) (value : option Z) : dev unit :=
  match value with Some z => set_int key (Z.quot z 1000) ;;; dret tt | None => dret tt end.

Definition battery_status (path : string) : dev (bool * bool) :=
  match read_string path "status" with
  | None => dret (false, false)
  | Some status =>
      let is_charging := strcasecmp status "charging" =? 0 in
      let is_discharging := negb is_charging && (strcasecmp status "discharging" =? 0) in
      set_bool "battery.is_rechargeable" true ;;;
      set_bool "battery.rechargeable.is_charging" is_charging ;;;
      set_bool "battery.rechargeable.is_discharging" is_discharging ;;;
      dret (is_charging, is_discharging)
  end.

(** The charge under one of two names; TRUE when any of it was found. *)
Definition read_charge (path kind : string) : dev bool :=
  let now := first_int path [kind +:+ "_avg"; kind +:+ "_now"] in
  let full := first_int path [kind +:+ "_full"] in
  set_milli "battery.reporting.current" now ;;;
  set_milli "battery.reporting.last_full" full ;;;
  dret (bool_decide (is_Some now) || bool_decide (is_Some full)).

Definition unit_is (unit : option string) (name : string) : bool :=
  match unit with Some u => strcasecmp u name =? 0 | None => false end.

Definition battery_charge (path : string) : dev unit :=
  let* reporting_unit := dget (fun d => get_str d "battery.reporting.unit") in
  let is_mah := unit_is reporting_unit "mah" in
  let is_mwh := negb is_mah && unit_is reporting_unit "mwh" in
  let unknown_unit := negb is_mah && negb is_mwh in
  let* energy := (if unknown_unit || is_mwh then read_charge path "energy" else dret false) in
  let is_mwh := is_mwh || energy in
  let* charge := (if (unknown_unit && negb is_mwh) || is_mah then read_charge path "charge" else dret false) in
  let is_mah := is_mah || charge in
  if unknown_unit then
    if is_mwh then set_str "battery.reporting.unit" "mWh" ;;; dret tt
    else if is_mah then set_str "battery.reporting.unit" "mAh" ;;; dret tt
    else dret tt
  else dret tt.

Definition refresh_battery_fast (saved : saved_battery_info) : dev saved_battery_info :=
  let* path := dget (fun d => get_str d "linux.sysfs_path") in
  match path with
  | None => dret saved
  | Some path =>
      let present := hal_util_get_bool_from_file fopen path "present" "1" in
      (match present with Some b => set_bool "battery.present" b ;;; dret tt | None => dret tt end) ;;;
      if negb (default false present) then device_pm_remove_optional_props ;;; dret saved
      else
        let percentage := first_int path ["capacity"] in
        set_milli "battery.voltage.current" (first_int path ["voltage_avg"; "voltage_now"]) ;;;
        set_milli "battery.reporting.rate" (first_int path ["current_avg"; "current_now"]) ;;;
        let* status := battery_status path in
        let time := if status.1 : bool then first_int path ["time_to_full_avg"; "time_to_full_now"]
                    else if status.2 : bool then first_int path ["time_to_empty_avg"; "time_to_empty_now"]
                    else None in
        battery_charge path ;;;
        device_pm_abstract_props e ;;;
        (match percentage with
         | Some z => if (0 <=? z) && (z <=? 100)
                     then set_int "battery.charge_level.percentage" z ;;; dret tt
                     else device_pm_calculate_percentage
         | None => device_pm_calculate_percentage
         end) ;;;
        match time with
        | Some t =>
            (if 0 <? t then set_int "battery.remaining_time" t else hal_device_property_remove "battery.remaining_time") ;;;
            dret saved
        | None => device_pm_calculate_time cur_time saved
        end
  end.

(** A file that is copied to a property under another name. *)
Definition set_if (keys : list string) (value : option string) : dev unit :=
  match value with Some v => foldr (fun key m => set_str key v ;;; m) (dret tt) keys | None => dret tt end.

Definition refresh_battery_slow (saved : saved_battery_info) : dev saved_battery_info :=
  let* path := dget (fun d => get_str d "linux.sysfs_path") in
  match path with
  | None => dret saved
  | Some path =>
      let technology_raw := read_string path "technology" in
      set_if ["battery.reporting.technology"] technology_raw ;;;
      set_str "battery.technology" (util_get_battery_technology technology_raw) ;;;
      (match read_string path "model_name" with
       | Some model_name => set_str "battery.model" model_name ;;; set_str "info.product" model_name
       | None => set_str "info.product" "Generic Battery Device"
       end) ;;;
      set_if ["battery.vendor"] (read_string path "manufacturer") ;;;
      (match first_int path ["voltage_max_design"; "voltage_min_design"] with
       | Some voltage_design =>
           set_int "battery.voltage.design" (Z.quot voltage_design 1000) ;;;
           set_str "battery.voltage.unit" "mV"
       | None => dret true
       end) ;;;
      (match first_int path ["energy_full_design"], first_int path ["charge_full_design"] with
       | Some z, _ =>
           set_int "battery.reporting.design" (Z.quot z 1000) ;;; set_str "battery.reporting.unit" "mWh"
       | None, Some z =>
           set_int "battery.reporting.design" (Z.quot z 1000) ;;; set_str "battery.reporting.unit" "mAh"
       | None, None => dret true
       end) ;;;
      set_if ["battery.serial"] (read_string path "serial_number") ;;;
      refresh_battery_fast saved
  end.

(** [None]: FALSE is returned.  The changes of the device are one atomic update. *)
Definition power_supply_refresh (d : HalDevice) (saved : saved_battery_info) : option (dev saved_battery_info) :=
  type ← get_str d "info.category";
  if type =s? "ac_adapter" then Some (refresh_ac_adapter ;;; dret saved)
  else if type =s? "battery" then Some (refresh_battery_fast saved)
  else None.

(** The batteries that a poll refreshes, each in an atomic update of its own; the
    poll goes on while there are any. *)
Definition polled (d : HalDevice) : bool :=
  negb (hal_device_property_get_bool d "battery.quirk.do_not_poll") &&
  bool_decide (get_str d "info.subsystem" = Some "power_supply").
Definition polled_batteries : list nat :=
  List.filter (fun id => match e_heap e !! id with Some d => polled d | None => false end)
    (collect (has_string "battery.type" "primary") (e_heap e) (gdl e) []).

(** The kind of a supply: the type of a battery, or [None] for the mains. *)
Definition supply_kind (type : string) : option (option string) :=
  if strcasecmp type "battery" =? 0 then Some (Some "primary")
  else if strcasecmp type "ups" =? 0 then Some (Some "ups")
  else if strcasecmp type "usb" =? 0 then Some (Some "usb")
  else if strcasecmp type "mains" =? 0 then Some None
  else None.

Definition set_saved (saved : saved_battery_info) (g : globals) : globals :=
  mk_globals (have_sysfs_lid_button g) (have_sysfs_power_button g) (have_sysfs_sleep_button g)
             (have_sysfs_power_supply g) (battery_poll_running g) saved (grep_buffers g) (interval_poll_round g).
Definition set_polling (b : bool) (g : globals) : globals :=
  mk_globals (have_sysfs_lid_button g) (have_sysfs_power_button g) (have_sysfs_sleep_button g)
             (have_sysfs_power_supply g) b (saved_batteries g) (grep_buffers g) (interval_poll_round g).
Definition saw_power_supply (g : globals) : globals :=
  mk_globals (have_sysfs_lid_button g) (have_sysfs_power_button g) (have_sysfs_sleep_button g)
             true (battery_poll_running g) (saved_batteries g) (grep_buffers g) (interval_poll_round g).

Definition power_supply_add (sysfs_path : string) : am unit :=
  match read_string sysfs_path "type" ≫= supply_kind with
  | None => anull
  | Some kind =>
      new_device ;&
      on_new (set_str "linux.sysfs_path" sysfs_path ;;; set_str "info.parent" COMPUTER) ;&
      (match kind with
       | Some battery_type =>
           let& g := get_globals in
           let& saved := on_new (
             set_str "info.category" "battery" ;;;
             set_str "battery.type" battery_type ;;;
             refresh_battery_slow (saved_batteries g)) in
           set_globals (set_saved saved) ;&
           on_new (add_cap "battery") ;&
           (if battery_poll_running g then aret tt else start_poll ;& set_globals (set_polling true))
       | None =>
           on_new (
             set_str "info.category" "ac_adapter" ;;;
             set_str "info.product" "Generic AC Adapter Device" ;;;
             refresh_ac_adapter ;;;
             add_cap "ac_adapter")
       end) ;&
      set_globals saw_power_supply
  end.

Definition power_supply_compute_udi := udi_from compute (fun d => Some (
  parent_of d +:+ "_power_supply_" +:+ or_null (get_str d "info.category") +:+
  match last_element (get_str d "linux.sysfs_path") with Some name => "_" +:+ name | None => "" end)).
End PowerSupply.
