(* ===== verification/LinuxClasses.v ===== *)
(** * Controllers and classes of devices ([hald/linux/device.c], from [ps3_system_bus]
    to [xen]; the sound devices are in [LinuxSound]) *)

From Stdlib Require Import ZArith Lia Ascii SpecFloat.
From stdpp Require Import base list gmap strings option pretty fin_maps.
From S2P Require Import Prelude CStd Property Device DeviceStore FdiRules Partutil Util Power Ids LinuxSysfs LinuxBuses LinuxCards.

Section Classes.
Context {P : Platform} {SF : Sysfs}.
(** A device of the global list by its UDI. *)
Context (find_global : string -> option HalDevice).
(** The order in which the properties of a device are walked. *)
Context (property_order : HalDevice -> list string).
Context (compute : string -> option string).

#[local] Notation udi_from := (udi_from compute).

(** ** ps3_system_bus, pseudo *)
Definition ps3_system_bus_add (sysfs_path : string) (parent_dev : option HalDevice) : am unit :=
  new_device ;& on_new (named_device sysfs_path parent_dev "ps3_system_bus.id" "PS3 Device" ;;; dret tt).
Definition ps3_system_bus_compute_udi := udi_from (fun d => Some (
  DEVICES +:+ "ps3_system_bus_" +:+ or_null (get_str d "ps3_system_bus.id"))).

Definition pseudo_add (sysfs_path : string) (parent_dev : option HalDevice) : am unit :=
  new_device ;& on_new (named_device sysfs_path parent_dev "pseudo.id" "SCSI Debug Device" ;;; dret tt).
Definition pseudo_compute_udi := udi_from (fun _ => Some (DEVICES +:+ "pseudo")).

(** ** rfkill *)
Definition rfkill_add (sysfs_path : string) (parent_dev : option HalDevice) : am unit :=
  let type := default "unknown" (read_string sysfs_path "type") in
  new_device ;&
  on_new (
    add_cap "killswitch" ;;;
    set_str "info.category" "killswitch" ;;;
    set_str "linux.sysfs_path" sysfs_path ;;;
    set_parent parent_dev ;;;
    (match parent_dev with Some p => hal_device_copy_property p "info.vendor" "info.vendor" | None => dret true end) ;;;
    set_str "killswitch.type" (if strcasecmp type "wimax" =? 0 then "wwan" else type) ;;;
    int_file "killswitch.state" sysfs_path "state" 10 ;;;
    set_str "killswitch.access_method" "rfkill" ;;;
    str_file "killswitch.name" sysfs_path "name" ;;;
    let* name := dget (fun d => get_str d "killswitch.name") in
    let* type := dget (fun d => get_str d "killswitch.type") in
    set_str "info.product" (snprintf 64 (or_null name +:+ " " +:+ or_null type +:+ " Killswitch")) ;;; dret tt).

Definition rfkill_refresh (d : HalDevice) : dev bool :=
  match get_str d "linux.sysfs_path" with
  | Some sysfs_path => int_file "killswitch.state" sysfs_path "state" 10 ;;; dret true
  | None => dret true
  end.

Definition rfkill_compute_udi := udi_from (fun d => Some (
  parent_of d +:+ "_rfkill_" +:+ or_null (get_str d "killswitch.name") +:+ "_" +:+ or_null (get_str d "killswitch.type"))).

(** ** scsi *)
Definition scsi_type (type : Z) : string :=
  if (type =? 0) || (type =? 7) || (type =? 14) then "disk"
  else if type =? 1 then "tape"
  else if type =? 2 then "printer"
  else if type =? 3 then "processor"
  else if (type =? 4) || (type =? 5) then "cdrom"
  else if type =? 6 then "scanner"
  else if type =? 8 then "medium_changer"
  else if type =? 9 then "comm"
  else if type =? 12 then "raid"
  else "unknown".

Definition scan_scsi (s : string) : list Z := sscanf [Dec; Lit ":"; Dec; Lit ":"; Dec; Lit ":"; Dec] s.

Definition scsi_add (sysfs_path : string) (parent_dev : option HalDevice) : am unit :=
  match parent_dev, scan_scsi (hal_util_get_last_element sysfs_path) with
  | Some parent, [host_num; bus_num; target_num; lun_num] =>
      new_device ;&
      on_new (
        set_str "linux.sysfs_path" sysfs_path ;;;
        set_str "info.parent" (udi parent) ;;;
        set_int "scsi.host" host_num ;;;
        set_int "scsi.bus" bus_num ;;;
        set_int "scsi.target" target_num ;;;
        set_int "scsi.lun" lun_num ;;;
        set_driver sysfs_path ;;;
        set_str "info.product" "SCSI Device" ;;;
        str_file "scsi.model" sysfs_path "model" ;;;
        str_file "scsi.vendor" sysfs_path "vendor" ;;;
        set_str "scsi.type" (scsi_type (int_or "type" sysfs_path "type" 0)) ;;; dret tt)
  | _, _ => anull
  end.
Definition scsi_compute_udi := udi_from (fun d => Some (
  parent_of d +:+ "_scsi_device_lun" +:+ pretty (get_int d "scsi.lun"))).

Definition scsi_generic_add (sysfs_path device_file : string) (parent_dev : option HalDevice) : am unit :=
  match parent_dev with
  | None => anull
  | Some parent =>
      new_device ;&
      on_new (class_device sysfs_path "scsi_generic" "SCSI Generic Interface" parent ;;;
              set_str "scsi_generic.device" device_file ;;; dret tt)
  end.
Definition scsi_generic_compute_udi := udi_from (fun d => Some (parent_of d +:+ "_scsi_generic")).

Definition scsi_host_add (sysfs_path : string) (parent_dev : option HalDevice) : am unit :=
  guard_null (negb (strstr sysfs_path "class/scsi_host")) ;&
  match sscanf [Lit "host"; Dec] (hal_util_get_last_element sysfs_path) with
  | [host_num] =>
      new_device ;&
      on_new (
        set_str "linux.sysfs_path" sysfs_path ;;;
        set_int "scsi_host.host" host_num ;;;
        set_parent parent_dev ;;;
        set_str "info.category" "scsi_host" ;;;
        add_cap "scsi_host" ;;;
        set_str "info.product" "SCSI Host Adapter" ;;; dret tt)
  | _ => anull
  end.
Definition scsi_host_compute_udi := udi_from (fun d => Some (parent_of d +:+ "_scsi_host")).

(** ** sdio *)
Definition sdio_add (sysfs_path : string) (parent_dev : option HalDevice) : am unit :=
  match parent_dev with
  | None => anull
  | Some parent =>
      let values := sscanf [Lit "mmc"; Dec; Lit ":"; Hex; Lit ":"; Dec] (hal_util_get_last_element sysfs_path) in
      new_device ;&
      on_new (
        set_str "linux.sysfs_path" sysfs_path ;;;
        set_str "info.parent" (udi parent) ;;;
        set_driver sysfs_path ;;;
        set_int "sdio.rca" (s32 (scanned values 1 "rca")) ;;;
        set_int "sdio.card_id" (scanned values 2 "card_id") ;;;
        int_file "sdio.vendor_id" sysfs_path "vendor" 16 ;;;
        int_file "sdio.product_id" sysfs_path "device" 16 ;;;
        int_file "sdio.class_id" sysfs_path "class" 16 ;;;
        (let* vendor_id := dget (fun d => get_int d "sdio.vendor_id") in
         set_str "info.vendor" (unknown_04x vendor_id) ;;; set_str "sdio.vendor" (unknown_04x vendor_id)) ;;;
        (let* product_id := dget (fun d => get_int d "sdio.product_id") in
         set_str "info.product" (unknown_04x product_id) ;;; set_str "sdio.product" (unknown_04x product_id)) ;;;
        dret tt)
  end.
Definition sdio_compute_udi := udi_from (fun d => Some (parent_of d +:+ "_sdio" +:+ pretty (get_int d "sdio.card_id"))).

(** ** serial ([tty]) *)

(** The number at the end of a name, or 0. *)
Definition trailing_number (s : string) : Z :=
  let n := String.length (span (fun c => negb (in_base 10 c)) (String.rev s)).1 in
  if decide (n = 0%nat) then 0 else atoi (str_drop (String.length s - n) s).

Definition serial_add (sysfs_path device_file : string) (parent_dev : option HalDevice) : am unit :=
  guard_null (negb (device_file =s? "")) ;&
  match parent_dev with
  | None => anull
  | Some parent =>
      let last_elem := hal_util_get_last_element sysfs_path in
      new_device ;&
      on_new (
        set_str "linux.sysfs_path" sysfs_path ;;;
        set_str "info.parent" (udi parent) ;;;
        set_str "info.category" "serial" ;;;
        add_cap "serial" ;;;
        set_str "serial.originating_device" (udi parent) ;;;
        set_str "serial.device" device_file) ;&
      match sscanf [Lit "ttyS"; Dec] last_elem, sscanf [Lit "ttyUSB"; Dec] last_elem with
      | [portnum], _ =>
          on_new (
            set_int "serial.port" portnum ;;;
            set_str "serial.type" "platform" ;;;
            hal_device_property_set_string "info.product" (get_str parent "info.product") ;;; dret tt)
      | _, [portnum] =>
          on_new (
            set_int "serial.port" (default portnum (read_int sysfs_path "device/port_number" 10)) ;;;
            set_str "serial.type" "usb") ;&
          match get_str parent "info.parent" with
          | None => anull_read
          | Some u =>
              on_new (
                match find_global u with
                | Some usbdev => hal_device_property_set_string "info.product" (get_str usbdev "info.product") ;;; dret tt
                | None => set_str "info.product" "USB Serial Port" ;;; dret tt
                end)
          end
      | _, _ =>
          on_new (
            set_int "serial.port" (trailing_number last_elem) ;;;
            set_str "serial.type" "unknown" ;;;
            set_str "info.product" "Serial Port" ;;; dret tt)
      end
  end.

Definition serial_get_prober (d : HalDevice) : option string :=
  match get_str d "linux.device_file" with
  | Some dev => if has_prefix dev "/dev/ttyS" then Some "hald-probe-serial" else None
  | None => None
  end.
Definition serial_compute_udi := udi_from (fun d => Some (
  parent_of d +:+ "_serial_" +:+ or_null (get_str d "serial.type") +:+ "_" +:+ pretty (get_int d "serial.port"))).

(** ** serio *)
Definition serio_add (sysfs_path : string) (parent_dev : option HalDevice) : am unit :=
  new_device ;&
  on_new (
    set_str "linux.sysfs_path" sysfs_path ;;;
    set_parent parent_dev ;;;
    set_driver sysfs_path ;;;
    set_str "serio.id" (hal_util_get_last_element sysfs_path) ;;;
    (let* ok := str_file "serio.description" sysfs_path "description" in
     if ok then dret true
     else let* id := dget (fun d => get_str d "serio.id") in hal_device_property_set_string "serio.description" id) ;;;
    let* description := dget (fun d => get_str d "serio.description") in
    hal_device_property_set_string "info.product" description ;;; dret tt).
Definition serio_compute_udi := udi_from (fun d => Some (parent_of d +:+ "_" +:+ or_null (get_str d "serio.description"))).

(** ** tape *)

(** The numbers are stored when they could not be read. *)
Definition tape_add (sysfs_path : string) (parent_dev : option HalDevice) : am unit :=
  match parent_dev with
  | None => anull
  | Some parent =>
      new_device ;&
      on_new (
        set_str "linux.sysfs_path" sysfs_path ;;;
        set_str "info.parent" (udi parent) ;;;
        set_str "info.category" "tape" ;;;
        add_cap "tape") ;&
      on_other TheParent (add_cap "tape") ;&
      on_new (
        match read_string sysfs_path "dev" with
        | None => dret tt
        | Some dev_entry =>
            let values := sscanf [Dec; Lit ":"; Dec] dev_entry in
            when (negb (bool_decide (length values = 2%nat))) (
              set_int "tape.major" (scanned values 0 "major") ;;;
              set_int "tape.minor" (scanned values 1 "minor") ;;; dret tt)
        end)
  end.

(** FALSE without a path. *)
Definition tape_compute_udi (d : HalDevice) : lx_fault + (bool * HalDevice) :=
  match last_element (get_str d "linux.sysfs_path") with
  | None => inr (false, d)
  | Some sysfs_name => udi_from (fun _ => Some (DEVICES +:+ "tape_" +:+ sysfs_name)) d
  end.

(** ** video4linux, usbraw *)
Definition usbraw_add (sysfs_path device_file : string) (parent_dev : option HalDevice) : am unit :=
  match parent_dev with
  | None => anull
  | Some parent =>
      new_device ;&
      on_new (class_device sysfs_path "usbraw" "USB Raw Device Access" parent ;;;
              set_str "usbraw.device" device_file ;;; dret tt)
  end.
Definition usbraw_compute_udi := udi_from (fun d => Some (parent_of d +:+ "_usbraw")).

Definition video4linux_add (sysfs_path device_file : string) (parent_dev : option HalDevice) : am unit :=
  match parent_dev with
  | None => anull
  | Some parent =>
      new_device ;&
      on_new (class_device sysfs_path "video4linux" "Multimedia Device" parent ;;;
              set_str "video4linux.device" device_file ;;; dret tt)
  end.
Definition video4linux_get_prober (d : HalDevice) : option string :=
  if hal_device_has_capability d "video4linux" then Some "hald-probe-video4linux" else None.
Definition video4linux_compute_udi := udi_from (fun d => Some (parent_of d +:+ "_video4linux")).
End Classes.
