(* ===== verification/LinuxUsb.v ===== *)
(** * USB and virtual buses ([hald/linux/device.c]: [usb], [usbclass], [vio], [virtio],
    [vmbus], [xen]) *)

From Stdlib Require Import ZArith Lia Ascii SpecFloat.
From stdpp Require Import base list gmap strings option pretty fin_maps.
From S2P Require Import Prelude CStd Property Device DeviceStore FdiRules Partutil Util Power Ids LinuxSysfs LinuxBuses LinuxCards.

Section Usb.
Context {P : Platform} {SF : Sysfs}.
(** The order in which the properties of a device are walked. *)
Context (property_order : HalDevice -> list string).
Context (compute : string -> option string).

#[local] Notation udi_from := (udi_from compute).

Definition usb_interface_name (ifclass : Z) : string :=
  if ifclass =? 0x01 then "USB Audio Interface"
  else if ifclass =? 0x02 then "USB Communications Interface"
  else if ifclass =? 0x03 then "USB HID Interface"
  else if ifclass =? 0x06 then "USB Imaging Interface"
  else if ifclass =? 0x07 then "USB Printer Interface"
  else if ifclass =? 0x08 then "USB Mass Storage Interface"
  else if ifclass =? 0x09 then "USB Hub Interface"
  else if ifclass =? 0x0a then "USB Data Interface"
  else if ifclass =? 0x0b then "USB Chip/Smartcard Interface"
  else if ifclass =? 0x0d then "USB Content Security Interface"
  else if ifclass =? 0x0e then "USB Video Interface"
  else if ifclass =? 0xdc then "USB Diagnostic Interface"
  else if ifclass =? 0xe0 then "USB Wireless Interface"
  else if ifclass =? 0xef then "USB Miscelleneous Interface"
  else if ifclass =? 0xfe then "USB Application Specific Interface"
  else if ifclass =? 0xff then "USB Vendor Specific Interface"
  else "USB Interface".

Definition usbif_set_name (ifclass : Z) : dev unit :=
  set_str "usb.product" (usb_interface_name ifclass) ;;;
  set_str "info.product" (usb_interface_name ifclass) ;;; dret tt.

(** The name of a vendor or a product: from the table, from the device, or its
    number. *)
Definition usb_name (name : option string) (key info_key id_key sysfs_path file : string) : dev unit :=
  match name with
  | Some name => set_str key name ;;; set_str info_key name ;;; dret tt
  | None =>
      let* ok := str_file key sysfs_path file in
      if ok then
        let* name := dget (fun d => get_str d key) in
        hal_device_property_set_string info_key name ;;; dret tt
      else
        let* id := dget (fun d => get_int d id_key) in
        set_str info_key (snprintf 64 (unknown_04x id)) ;;; dret tt
  end.

Definition usb_device_properties (sysfs_path bus_id : string) : dev unit :=
  let bmAttributes := int_or "bmAttributes" sysfs_path "bmAttributes" 16 in
  set_str "info.subsystem" "usb_device" ;;;
  set_driver sysfs_path ;;;
  set_str "usb_device.linux.sysfs_path" sysfs_path ;;;
  str_file "usb_device.configuration" sysfs_path "configuration" ;;;
  int_file "usb_device.configuration_value" sysfs_path "bConfigurationValue" 10 ;;;
  int_file "usb_device.num_configurations" sysfs_path "bNumConfigurations" 10 ;;;
  int_file "usb_device.num_interfaces" sysfs_path "bNumInterfaces" 10 ;;;
  int_file "usb_device.device_class" sysfs_path "bDeviceClass" 16 ;;;
  int_file "usb_device.device_subclass" sysfs_path "bDeviceSubClass" 16 ;;;
  int_file "usb_device.device_protocol" sysfs_path "bDeviceProtocol" 16 ;;;
  int_file "usb_device.vendor_id" sysfs_path "idVendor" 16 ;;;
  int_file "usb_device.product_id" sysfs_path "idProduct" 16 ;;;
  (let* d := dget (fun d => d) in
   let names := ids_find_usb usb_ids_text ids_line_buffer (get_int d "usb_device.vendor_id") (get_int d "usb_device.product_id") in
   usb_name (usb_vendor names) "usb_device.vendor" "info.vendor" "usb_device.vendor_id" sysfs_path "manufacturer" ;;;
   usb_name (usb_product names) "usb_device.product" "info.product" "usb_device.product_id" sysfs_path "product") ;;;
  int_file "usb_device.device_revision_bcd" sysfs_path "bcdDevice" 16 ;;;
  int_file "usb_device.max_power" sysfs_path "bMaxPower" 10 ;;;
  int_file "usb_device.num_ports" sysfs_path "maxchild" 10 ;;;
  int_file "usb_device.linux.device_number" sysfs_path "devnum" 10 ;;;
  str_file "usb_device.serial" sysfs_path "serial" ;;;
  hal_util_set_double_from_file fopen strtod "usb_device.speed" sysfs_path "speed" ;;;
  hal_util_set_double_from_file fopen strtod "usb_device.version" sysfs_path "version" ;;;
  set_bool "usb_device.is_self_powered" (negb (Z.land bmAttributes 0x40 =? 0)) ;;;
  set_bool "usb_device.can_wake_up" (negb (Z.land bmAttributes 0x20 =? 0)) ;;;
  set_int "usb_device.bus_number" (atoi (if has_prefix bus_id "usb" then str_drop 3 bus_id else bus_id)) ;;;
  (match read_string sysfs_path "../mode" with
   | Some _ =>
       add_cap "button" ;;;
       set_str "button.type" "usb.cable" ;;;
       set_bool "button.has_state" false
   | None => dret true
   end) ;;; dret tt.

Definition usb_interface_properties (sysfs_path : string) (parent_dev : option HalDevice) : dev unit :=
  set_str "info.subsystem" "usb" ;;;
  (match parent_dev with
   | Some p => hal_device_merge_with_rewrite (property_order p) p "usb." "usb_device."
   | None => dret tt
   end) ;;;
  set_driver sysfs_path ;;;
  set_str "usb.linux.sysfs_path" sysfs_path ;;;
  int_file "usb.interface.number" sysfs_path "bInterfaceNumber" 10 ;;;
  int_file "usb.interface.class" sysfs_path "bInterfaceClass" 16 ;;;
  int_file "usb.interface.subclass" sysfs_path "bInterfaceSubClass" 16 ;;;
  int_file "usb.interface.protocol" sysfs_path "bInterfaceProtocol" 16 ;;;
  str_file "usb.interface.description" sysfs_path "interface" ;;;
  let* ifclass := dget (fun d => get_int d "usb.interface.class") in
  usbif_set_name ifclass.

(** Only interfaces have a colon in their name. *)
Definition usb_add (sysfs_path : string) (parent_dev : option HalDevice) : am unit :=
  let bus_id := hal_util_get_last_element sysfs_path in
  new_device ;&
  on_new (
    set_str "linux.sysfs_path" sysfs_path ;;;
    (match parent_dev with Some p => set_str "info.parent" (udi p) | None => dret true end) ;;;
    if strchr bus_id ":" then usb_interface_properties sysfs_path parent_dev
    else usb_device_properties sysfs_path bus_id).

Definition usb_compute_udi := udi_from (fun d => Some (
  if hal_device_has_property d "usb.interface.number"
  then parent_of d +:+ "_if" +:+ pretty (get_int d "usb.interface.number")
  else DEVICES +:+ "usb_device_" +:+ printf_x (get_int d "usb_device.vendor_id") +:+ "_" +:+
       printf_x (get_int d "usb_device.product_id") +:+ "_" +:+
       (if hal_device_has_property d "usb_device.serial" then or_null (get_str d "usb_device.serial") else "noserial"))).

(** ** usbclass *)
Definition usbclass_add (sysfs_path device_file : string) (parent_dev : option HalDevice) : am unit :=
  guard_null (negb (device_file =s? "")) ;&
  match parent_dev with
  | None => anull
  | Some parent =>
      let last_elem := hal_util_get_last_element sysfs_path in
      match sscanf [Lit "hiddev"; Dec] last_elem, sscanf [Lit "lp"; Dec] last_elem with
      | [_], _ =>
          new_device ;&
          on_new (class_device sysfs_path "hiddev" "USB HID Device" parent ;;;
                  set_str "hiddev.device" device_file ;;; dret tt)
      | _, [_] =>
          new_device ;&
          on_new (class_device sysfs_path "printer" "Printer" parent ;;;
                  set_str "printer.device" device_file ;;;
                  set_str "printer.originating_device" (udi parent) ;;; dret tt)
      | _, _ => anull
      end
  end.

Definition usbclass_get_prober (d : HalDevice) : option string :=
  if hal_device_has_capability d "hiddev" then Some "hald-probe-hiddev"
  else if hal_device_has_capability d "printer" then Some "hald-probe-printer"
  else None.

Definition usbclass_compute_udi (d : HalDevice) : lx_fault + (bool * HalDevice) :=
  if hal_device_has_capability d "hiddev" then udi_from (fun d => Some (parent_of d +:+ "_hiddev")) d
  else if hal_device_has_capability d "printer" then
    udi_from (fun d => Some (parent_of d +:+ "_printer_" +:+ default "noserial" (get_str d "printer.serial"))) d
  else inr (true, d).

(** ** vio, virtio *)
Definition vio_add (sysfs_path : string) (parent_dev : option HalDevice) : am unit :=
  let dev_id := hal_util_get_last_element sysfs_path in
  new_device ;&
  on_new (
    set_str "linux.sysfs_path" sysfs_path ;;;
    set_parent parent_dev ;;;
    set_driver sysfs_path ;;;
    set_str "vio.id" dev_id ;;;
    match read_string sysfs_path "name" with
    | Some dev_type =>
        set_str "vio.type" dev_type ;;;
        set_str "info.product" (snprintf 64 ("Vio " +:+ dev_type +:+ " Device (" +:+ dev_id +:+ ")")) ;;; dret tt
    | None => set_str "info.product" "Vio Device (unknown)" ;;; dret tt
    end).
Definition vio_compute_udi := udi_from (fun d => Some (DEVICES +:+ "vio_" +:+
  match get_str d "vio.type" with
  | Some type => type +:+ "_" +:+ or_null (get_str d "vio.id")
  | None => or_null (get_str d "vio.id")
  end)).

Definition virtio_add (sysfs_path : string) (parent_dev : option HalDevice) : am unit :=
  new_device ;& on_new (named_device sysfs_path parent_dev "virtio.id" "VirtIO Device" ;;; dret tt).
Definition virtio_compute_udi := udi_from (fun d => Some (DEVICES +:+ "virtio_" +:+ or_null (get_str d "virtio.id"))).

(** ** vmbus *)
Definition vmbus_product (class_id : option string) : option string :=
  id ← class_id;
  if id =s? "{f8615163-df3e-46c5-913ff2d2f965ed0e}" then Some "Network Virtualization Service Client Device"
  else if id =s? "{ba6163d9-04a1-4d29-b60572e2ffb1dc7f}" then Some "Storage Virtualization Service Client Device"
  else if id =s? "{c5295816-f63a-4d5f-8d1a4daf999ca185}" then Some "Vmbus Device"
  else None.

Definition vmbus_add (sysfs_path : string) (parent_dev : option HalDevice) : am unit :=
  let bus_id := hal_util_get_last_element sysfs_path in
  let class_id := read_string sysfs_path "class_id" in
  new_device ;&
  on_new (
    set_str "linux.sysfs_path" sysfs_path ;;;
    set_str "info.vendor" "Microsoft/Citrix" ;;;
    set_driver sysfs_path ;;;
    set_parent parent_dev ;;;
    set_str "vmbus.bus_id" bus_id ;;;
    (match sscanf [Lit "vmbus_"; Dec; Lit "_"; Dec] bus_id with
     | [busnum; devicenum] => set_int "vmbus.bus_number" busnum ;;; set_int "vmbus.device_number" devicenum
     | _ => dret true
     end) ;;;
    hal_device_property_set_string "vmbus.device_id" (read_string sysfs_path "device_id") ;;;
    hal_device_property_set_string "vmbus.class_id" class_id ;;;
    set_name ["info.product"] (vmbus_product class_id) (dret tt) ;;;
    let* named := dget (fun d => hal_device_has_property d "info.product") in
    when (negb named)
      (set_str "info.product" (snprintf 64 ("Virtualization Service Client Device (" +:+ bus_id +:+ ")")) ;;; dret tt)).
Definition vmbus_compute_udi := udi_from (fun d => Some (DEVICES +:+ "_" +:+ or_null (get_str d "vmbus.bus_id"))).

(** ** xen *)
Definition xen_product (devtype : option string) : string :=
  match devtype with
  | None => "Xen Device (unknown)"
  | Some t =>
      if t =s? "pci" then "Xen PCI Device"
      else if t =s? "vbd" then "Xen Virtual Block Device"
      else if t =s? "vif" then "Xen Virtual Network Device"
      else if t =s? "vtpm" then "Xen Virtual Trusted Platform Module"
      else snprintf 64 ("Xen Device (" +:+ t +:+ ")")
  end.

Definition xen_add (sysfs_path : string) (parent_dev : option HalDevice) : am unit :=
  let devtype := read_string sysfs_path "devtype" in
  new_device ;&
  on_new (
    set_str "linux.sysfs_path" sysfs_path ;;;
    set_parent parent_dev ;;;
    set_driver sysfs_path ;;;
    set_str "xen.bus_id" (hal_util_get_last_element sysfs_path) ;;;
    str_file "xen.path" sysfs_path "nodename" ;;;
    (match devtype with Some t => set_str "xen.type" t | None => dret true end) ;;;
    set_str "info.product" (xen_product devtype) ;;; dret tt).
Definition xen_compute_udi := udi_from (fun d => Some (DEVICES +:+ "xen_" +:+ or_null (get_str d "xen.bus_id"))).
End Usb.
