(* ===== verification/LinuxSound.v ===== *)
(** * Sound devices ([hald/linux/device.c]: the handler for [sound])

    Cards, the devices of ALSA and those of OSS, by the last part of their path. *)

From Stdlib Require Import ZArith Lia Ascii SpecFloat.
From stdpp Require Import base list gmap strings option pretty fin_maps.
From S2P Require Import Prelude CStd Property Device DeviceStore FdiRules Partutil Util Power LinuxSysfs LinuxBuses LinuxCards.

Section Sound.
Context {P : Platform} {SF : Sysfs}.
Context (compute : string -> option string).

(** ["%2d ["] *)
Definition card_line (cardnum : Z) : string :=
  let n := pretty cardnum in (if decide (String.length n < 2)%nat then " " +:+ n else n) +:+ " [".

(** [g_strstrip] *)
Definition g_strstrip (s : string) : string := strip_trailing (skip_space s).

(** The text in front of " at ", without the space around it. *)
Definition alsa_name (line : string) : string :=
  g_strstrip (match split_at_first line " at " with Some (name, _) => name | None => line end).

Definition asound_card_id_set (cardnum : Z) (propertyname : string) : am unit :=
  let& alsaname := agrep (hal_util_grep_file_next_line fopen "/proc/asound" (Some "cards") (snprintf 5 (card_line cardnum)) false) in
  match alsaname with
  | None => aret tt
  | Some line => on_new (set_str propertyname (alsa_name line) ;;; dret tt)
  end.

(** A card without a file. *)
Definition sound_card (device : string) (parent : HalDevice) : am unit :=
  on_new (
    set_str "info.category" "sound" ;;;
    add_cap "sound" ;;;
    set_str "sound.originating_device" (udi parent) ;;;
    set_str "info.parent" (udi parent)) ;&
  match sscanf [Lit "card"; Dec] device with
  | [cardnum] =>
      on_new (set_int "sound.card" cardnum) ;&
      asound_card_id_set cardnum "sound.card_id" ;&
      on_new (let* id := dget (fun d => get_str d "sound.card_id") in
              set_str "info.product" (snprintf 256 (or_null id +:+ " Sound Card")) ;;; dret tt)
  | _ => aret tt
  end.

(** A device of one of the two systems, without a card. *)
Definition global_device (system type product device_file : string) : dev unit :=
  set_str "info.category" system ;;;
  add_cap system ;;;
  set_str (system +:+ ".type") type ;;;
  set_str "info.product" product ;;;
  set_str (system +:+ ".device_file") device_file ;;; dret tt.

Definition sound_global (device device_file : string) : am unit :=
  on_new (set_str "info.parent" COMPUTER) ;&
  if has_prefix device "timer" then on_new (global_device "alsa" "timer" "ALSA Timer Device" device_file)
  else if has_prefix device "sequencer" then on_new (global_device "oss" "sequencer" "OSS Sequencer Device" device_file)
  else if device =s? "seq" then on_new (global_device "alsa" "sequencer" "ALSA Sequencer Device" device_file)
  else anull.

(** What the devices of a card have in common. *)
Definition card_device (system device_file : string) (parent : HalDevice) (cardnum : Z) : dev bool :=
  set_str "info.category" system ;;;
  add_cap system ;;;
  set_str (system +:+ ".device_file") device_file ;;;
  set_str "info.parent" (udi parent) ;;;
  set_str (system +:+ ".originating_device") (udi parent) ;;;
  set_int (system +:+ ".card") cardnum.

Definition product_of_card (key text : string) : am unit :=
  on_new (let* id := dget (fun d => get_str d key) in
          set_str "info.product" (snprintf 256 (or_null id +:+ text)) ;;; dret tt).

Definition alsa_control (device_file : string) (parent : HalDevice) (cardnum : Z) : am unit :=
  on_new (card_device "alsa" device_file parent cardnum ;;; set_str "alsa.type" "control") ;&
  asound_card_id_set cardnum "alsa.card_id" ;&
  product_of_card "alsa.card_id" " ALSA Control Device".

(** The name in the file "info" of a stream of a card. *)
Definition stream_name (directory : string) : am (option string) :=
  agrep (hal_util_grep_file fopen (snprintf 256 directory) (Some "info") "name: " false).

Definition alsa_pcm (sysfs_path device_file : string) (parent : HalDevice) (cardnum devicenum type : Z) : am unit :=
  on_new (card_device "alsa" device_file parent cardnum ;;; set_int "alsa.device" devicenum) ;&
  asound_card_id_set cardnum "alsa.card_id" ;&
  on_new (let* ok := str_file "alsa.pcm_class" sysfs_path "pcm_class" in
          if ok then dret true else set_str "alsa.pcm_class" "unknown") ;&
  let& device_id := stream_name ("/proc/asound/card" +:+ pretty cardnum +:+ "/pcm" +:+ pretty devicenum +:+
                                 String (ascii_of_nat (Z.to_nat type)) "") in
  on_new (
    (match device_id with Some id => set_str "alsa.device_id" id | None => dret true end) ;;;
    let '(kind, text) := if type =? char_code "p" then ("playback", "ALSA Playback Device")
                         else if type =? char_code "c" then ("capture", "ALSA Capture Device")
                         else ("unknown", "ALSA Device") in
    set_str "alsa.type" kind ;;;
    set_str "info.product" (match device_id with Some id => snprintf 256 (id +:+ " " +:+ text) | None => text end) ;;;
    dret tt).

Definition alsa_hw_or_midi (device device_file : string) (parent : HalDevice) (cardnum devicenum : Z) : am unit :=
  on_new (card_device "alsa" device_file parent cardnum ;;; set_int "alsa.device" devicenum) ;&
  asound_card_id_set cardnum "alsa.card_id" ;&
  if has_prefix device "hwC" then
    on_new (set_str "alsa.type" "hw_specific") ;& product_of_card "alsa.card_id" " ALSA hardware specific Device"
  else
    on_new (set_str "alsa.type" "midi") ;& product_of_card "alsa.card_id" " ALSA MIDI Device".

Inductive ClassDevOSSDeviceTypes :=
  | OSS_DEVICE_TYPE_DSP | OSS_DEVICE_TYPE_ADSP | OSS_DEVICE_TYPE_MIDI | OSS_DEVICE_TYPE_AMIDI
  | OSS_DEVICE_TYPE_AUDIO | OSS_DEVICE_TYPE_MIXER.

(** The kind of an OSS device, and the number of its card. *)
Definition oss_kind (device : string) : option (ClassDevOSSDeviceTypes * Z) :=
  let with_number name type :=
    Some (type, match sscanf [Lit name; Dec] device with [n] => n | _ => 0 end) in
  if has_prefix device "dsp" then with_number "dsp" OSS_DEVICE_TYPE_DSP
  else if has_prefix device "adsp" then with_number "adsp" OSS_DEVICE_TYPE_ADSP
  else if has_prefix device "midi" then with_number "midi" OSS_DEVICE_TYPE_MIDI
  else if has_prefix device "amidi" then with_number "amidi" OSS_DEVICE_TYPE_AMIDI
  else if has_prefix device "audio" then with_number "audio" OSS_DEVICE_TYPE_AUDIO
  else if has_prefix device "mixer" then with_number "mixer" OSS_DEVICE_TYPE_MIXER
  else None.

(** The type, the text for the product, and the number of the device. *)
Definition oss_texts (t : ClassDevOSSDeviceTypes) : string * string * option Z :=
  match t with
  | OSS_DEVICE_TYPE_MIXER => ("mixer", " OSS Control Device", None)
  | OSS_DEVICE_TYPE_DSP | OSS_DEVICE_TYPE_AUDIO => ("pcm", " OSS PCM Device", Some 0)
  | OSS_DEVICE_TYPE_ADSP => ("pcm", " OSS PCM Device", Some 1)
  | OSS_DEVICE_TYPE_MIDI => ("midi", " OSS MIDI Device", Some 0)
  | OSS_DEVICE_TYPE_AMIDI => ("midi", " OSS MIDI Device", Some 1)
  end.

Definition oss_device (device_file : string) (parent : HalDevice) (type : ClassDevOSSDeviceTypes) (cardnum : Z) : am unit :=
  let '(oss_type, text, number) := oss_texts type in
  on_new (card_device "oss" device_file parent cardnum) ;&
  asound_card_id_set cardnum "oss.card_id" ;&
  let& device_id := stream_name ("/proc/asound/card" +:+ pretty cardnum +:+ "/pcm0p") in
  on_new (
    (match device_id with Some id => set_str "oss.device_id" id | None => dret true end) ;;;
    (match number with Some n => set_int "oss.device" n | None => dret true end) ;;;
    set_str "oss.type" oss_type ;;;
    let* card_id := dget (fun d => get_str d "oss.card_id") in
    set_str "info.product" (snprintf 256 (match device_id with Some id => id | None => or_null card_id end +:+ text)) ;;;
    dret tt).

(** A name that begins with "midiC" and two numbers is ALSA's, one that begins
    with "midi" otherwise is OSS's. *)
Definition sound_device (sysfs_path device device_file : string) (parent : HalDevice) : am unit :=
  match sscanf [Lit "controlC"; Dec] device with
  | [cardnum] => alsa_control device_file parent cardnum
  | _ =>
      match sscanf [Lit "pcmC"; Dec; Lit "D"; Dec; Char] device with
      | [cardnum; devicenum; type] => alsa_pcm sysfs_path device_file parent cardnum devicenum type
      | _ =>
          match sscanf [Lit "hwC"; Dec; Lit "D"; Dec] device, sscanf [Lit "midiC"; Dec; Lit "D"; Dec] device with
          | [cardnum; devicenum], _ | _, [cardnum; devicenum] =>
              alsa_hw_or_midi device device_file parent cardnum devicenum
          | _, _ =>
              match oss_kind device with
              | Some (type, cardnum) => oss_device device_file parent type cardnum
              | None => anull
              end
          end
      end
  end.

(** A device with neither a file nor a parent is made without more properties. *)
Definition sound_add (sysfs_path device_file : string) (parent_dev : option HalDevice) : am unit :=
  let device := hal_util_get_last_element sysfs_path in
  new_device ;&
  on_new (set_str "linux.sysfs_path" sysfs_path) ;&
  match parent_dev with
  | None => if device_file =s? "" then aret tt else sound_global device device_file
  | Some parent => if device_file =s? "" then sound_card device parent else sound_device sysfs_path device device_file parent
  end.

(** The number of the card is read as a string, and so is NULL, which prints as 0. *)
Definition sound_compute_udi := udi_from compute (fun d => Some (
  let of_system (system : string) :=
    parent_of d +:+ "_" +:+ system +:+ "_" +:+ or_null (get_str d (system +:+ ".type")) in
  if hal_device_has_property d "sound.card" then
    parent_of d +:+ "_sound_card_" +:+
    match get_str d "sound.card" with None => "0" | Some _ => pretty (uninit "sound.card") end
  else if hal_device_has_property d "alsa.card" then of_system "alsa" +:+ "_" +:+ pretty (get_int d "alsa.device")
  else if hal_device_has_property d "oss.card" then of_system "oss" +:+ "_" +:+ pretty (get_int d "oss.device")
  else if hal_device_has_property d "alsa.type" then of_system "alsa"
  else if hal_device_has_property d "oss.type" then of_system "oss"
  else parent_of d +:+ "_sound_unknown")).
End Sound.
