(* ===== verification/LinuxDevice.v ===== *)
(** * From a hotplug event to a device ([hald/linux/device.c], last part)

    The table of handlers, and how an event goes through it: a handler builds the
    device, which waits in the temporary list while callouts and a prober run,
    gets its UDI, its properties from the rules, and moves to the global list.
    An event ends when that is done or given up; what it waits for meanwhile is
    a [continuation], known by a number.

    The state joins the daemon, the queue of events and the variables of the
    handlers. *)

From Stdlib Require Import ZArith Lia Ascii SpecFloat.
From stdpp Require Import base list gmap strings option pretty fin_maps.
From S2P Require Import Prelude CStd Property Device DeviceStore FdiRules FdiInterp Locks AccessCheck Bus Partutil Util Dbus DbusManager Power Ids Hotplug Runner LinuxSysfs LinuxBuses LinuxInput LinuxCards LinuxPower LinuxClasses LinuxUsb LinuxSound.

(** ** Handlers *)

(** What a refresh does: its changes, in an atomic update or not, and whether the
    docking station is to be polled. *)
Record refresh_result := mk_refresh {
  rr_atomic : bool;
  rr_op : dev saved_battery_info;
  rr_poll_undock : bool;
}.

(** [h_add] is given the path, the file and the parent of the device, among the
    devices of the daemon and at some time; [h_compute_udi] the function for
    UDIs. *)
Record DevHandler := mk_handler {
  h_subsystem : string;
  h_add : env -> Z -> string -> string -> option HalDevice -> am unit;
  h_get_prober : option (HalDevice -> option string);
  h_post_probing : option (HalDevice -> bool);
  h_compute_udi : (string -> option string) -> HalDevice -> lx_fault + (bool * HalDevice);
  h_refresh : option (env -> Z -> HalDevice -> saved_battery_info -> lx_fault + refresh_result);
}.

Section Handlers.
Context {P : Platform} {G : GText} {SF : Sysfs}.
Context (property_order : HalDevice -> list string).

Definition find_in (e : env) (u : string) : option HalDevice := env_find e u ≫= fun id => e_heap e !! id.
Definition find_in_gdl (e : env) (u : string) : option HalDevice :=
  find_device (fun d => udi d =s? u) (e_heap e) (gdl e) ≫= fun id => e_heap e !! id.

(** A handler without prober and refresh. *)
Definition plain (subsystem : string) (add : string -> string -> option HalDevice -> am unit)
    (compute_udi : (string -> option string) -> HalDevice -> lx_fault + (bool * HalDevice)) : DevHandler :=
  mk_handler subsystem (fun _ _ => add) None None compute_udi None.
Definition refreshes (f : HalDevice -> dev bool) : env -> Z -> HalDevice -> saved_battery_info -> lx_fault + refresh_result :=
  fun _ _ d saved => inr (mk_refresh false (f d ;;; dret saved) false).

Definition dev_handler_backlight := plain "backlight" (fun p _ _ => backlight_add p) backlight_compute_udi.
Definition dev_handler_bluetooth := plain "bluetooth" (fun p _ parent => bluetooth_add p parent) bluetooth_compute_udi.
Definition dev_handler_ccw := plain "ccw" (fun p _ parent => ccw_add p parent) ccw_compute_udi.
Definition dev_handler_ccwgroup := plain "ccwgroup" (fun p _ parent => ccwgroup_add p parent) ccwgroup_compute_udi.
Definition dev_handler_drm := plain "drm" drm_add drm_compute_udi.
Definition dev_handler_dvb := plain "dvb" dvb_add dvb_compute_udi.
Definition dev_handler_firewire :=
  mk_handler "firewire" (fun _ _ => firewire_add) (Some firewire_get_prober) (Some firewire_post_probing)
             firewire_compute_udi None.
Definition dev_handler_ide := plain "ide" (fun p _ parent => ide_add p parent) ide_compute_udi.
Definition dev_handler_ieee1394 := plain "ieee1394" (fun p _ parent => ieee1394_add p parent) ieee1394_compute_udi.
Definition dev_handler_input :=
  mk_handler "input" (fun _ _ => input_add) (Some input_get_prober) (Some input_post_probing) input_compute_udi None.
Definition dev_handler_iucv := plain "iucv" (fun p _ parent => iucv_add p parent) iucv_compute_udi.
Definition dev_handler_leds := plain "leds" (fun p _ parent => leds_add p parent) leds_compute_udi.
Definition dev_handler_memstick := plain "memstick" (fun p _ parent => memstick_add p parent) (fun _ => memstick_compute_udi).
Definition dev_handler_memstick_host :=
  plain "memstick_host" (fun p _ parent => memstick_host_add p parent) (fun _ => memstick_host_compute_udi).
Definition dev_handler_mmc := plain "mmc" (fun p _ parent => mmc_add p parent) mmc_compute_udi.
Definition dev_handler_mmc_host := plain "mmc_host" (fun p _ parent => mmc_host_add p parent) mmc_host_compute_udi.
Definition dev_handler_net :=
  mk_handler "net" (fun e _ p _ parent => net_add (find_in e) p parent) (Some net_get_prober) (Some net_post_probing)
             net_compute_udi (Some (refreshes net_refresh)).
Definition dev_handler_of_platform := plain "of_platform" (fun p _ parent => of_platform_add p parent) of_platform_compute_udi.
Definition dev_handler_pci := plain "pci" (fun p _ parent => pci_add p parent) pci_compute_udi.
Definition dev_handler_pcmcia := plain "pcmcia" (fun p _ parent => pcmcia_add p parent) pcmcia_compute_udi.
Definition dev_handler_platform :=
  mk_handler "platform" (fun _ _ p _ parent => platform_add p parent) None None platform_compute_udi
    (Some (fun _ _ d saved => match platform_refresh d with
                              | inl f => inl f
                              | inr (m, poll) => inr (mk_refresh false (m ;;; dret saved) poll)
                              end)).
Definition dev_handler_pnp :=
  mk_handler "pnp" (fun e _ p _ parent => pnp_add (find_in e) p parent) None None pnp_compute_udi None.
Definition dev_handler_ppdev := plain "ppdev" (fun p _ parent => ppdev_add p parent) ppdev_compute_udi.
Definition dev_handler_ps3_system_bus :=
  plain "ps3_system_bus" (fun p _ parent => ps3_system_bus_add p parent) ps3_system_bus_compute_udi.
Definition dev_handler_pseudo := plain "pseudo" (fun p _ parent => pseudo_add p parent) pseudo_compute_udi.
Definition dev_handler_power_supply :=
  mk_handler "power_supply" (fun e cur_time p _ _ => power_supply_add e cur_time p) None None power_supply_compute_udi
    (Some (fun e cur_time d saved => inr (match power_supply_refresh e cur_time d saved with
                                          | Some m => mk_refresh true m false
                                          | None => mk_refresh false (dret saved) false
                                          end))).
Definition dev_handler_rfkill :=
  mk_handler "rfkill" (fun _ _ p _ parent => rfkill_add p parent) None None rfkill_compute_udi (Some (refreshes rfkill_refresh)).
Definition dev_handler_scsi := plain "scsi" (fun p _ parent => scsi_add p parent) scsi_compute_udi.
Definition dev_handler_scsi_generic := plain "scsi_generic" scsi_generic_add scsi_generic_compute_udi.
Definition dev_handler_scsi_host := plain "scsi_host" (fun p _ parent => scsi_host_add p parent) scsi_host_compute_udi.
Definition dev_handler_sdio := plain "sdio" (fun p _ parent => sdio_add p parent) sdio_compute_udi.
Definition dev_handler_serial :=
  mk_handler "tty" (fun e _ => serial_add (find_in_gdl e)) (Some serial_get_prober) None serial_compute_udi None.
Definition dev_handler_serio := plain "serio" (fun p _ parent => serio_add p parent) serio_compute_udi.
Definition dev_handler_sound := plain "sound" sound_add sound_compute_udi.
Definition dev_handler_tape := plain "tape" (fun p _ parent => tape_add p parent) tape_compute_udi.
Definition dev_handler_tape390 := plain "tape390" (fun p _ parent => tape_add p parent) tape_compute_udi.
Definition dev_handler_usb := plain "usb" (fun p _ parent => usb_add property_order p parent) usb_compute_udi.
Definition dev_handler_usbclass :=
  mk_handler "usb" (fun _ _ => usbclass_add) (Some usbclass_get_prober) None usbclass_compute_udi None.
Definition dev_handler_usbraw := plain "usb_device" usbraw_add usbraw_compute_udi.
Definition dev_handler_video4linux :=
  mk_handler "video4linux" (fun _ _ => video4linux_add) (Some video4linux_get_prober) None video4linux_compute_udi None.
Definition dev_handler_vio := plain "vio" (fun p _ parent => vio_add p parent) vio_compute_udi.
Definition dev_handler_virtio := plain "virtio" (fun p _ parent => virtio_add p parent) virtio_compute_udi.
Definition dev_handler_vmbus := plain "vmbus" (fun p _ parent => vmbus_add p parent) vmbus_compute_udi.
Definition dev_handler_xen := plain "xen" (fun p _ parent => xen_add p parent) xen_compute_udi.

(** What the build is configured for. *)
Record build := mk_build {
  USE_S390 : bool; USE_FIREWIRE : bool; USE_OPENFIRMWARE : bool; USE_PCI : bool;
  USE_PCMCIA : bool; USE_ISAPC : bool; USE_ARCH_PS3 : bool; USE_VIRT : bool;
}.
Definition only_if {A} (b : bool) (l : list A) : list A := if b then l else [].

Definition dev_handlers (b : build) : list DevHandler :=
  [dev_handler_backlight; dev_handler_bluetooth] ++
  only_if (USE_S390 b) [dev_handler_ccw; dev_handler_ccwgroup] ++
  [dev_handler_drm; dev_handler_dvb] ++
  only_if (USE_FIREWIRE b) [dev_handler_firewire] ++
  [dev_handler_ide] ++
  only_if (USE_FIREWIRE b) [dev_handler_ieee1394] ++
  [dev_handler_input; dev_handler_iucv; dev_handler_leds; dev_handler_mmc; dev_handler_memstick;
   dev_handler_memstick_host; dev_handler_mmc_host; dev_handler_net] ++
  only_if (USE_OPENFIRMWARE b) [dev_handler_of_platform] ++
  only_if (USE_PCI b) [dev_handler_pci] ++
  only_if (USE_PCMCIA b) [dev_handler_pcmcia] ++
  [dev_handler_platform] ++
  only_if (USE_ISAPC b) [dev_handler_pnp] ++
  [dev_handler_power_supply; dev_handler_ppdev] ++
  only_if (USE_ARCH_PS3 b) [dev_handler_ps3_system_bus] ++
  [dev_handler_pseudo; dev_handler_rfkill; dev_handler_scsi; dev_handler_scsi_generic; dev_handler_scsi_host;
   dev_handler_sdio; dev_handler_serial; dev_handler_serio; dev_handler_sound; dev_handler_tape] ++
  only_if (USE_S390 b) [dev_handler_tape390] ++
  [dev_handler_usbclass; dev_handler_usb; dev_handler_usbraw; dev_handler_video4linux] ++
  only_if (USE_VIRT b) [dev_handler_vio; dev_handler_virtio; dev_handler_vmbus; dev_handler_xen].
End Handlers.

(** ** The state *)
Inductive continuation :=
  | AfterPreprobe (id : nat) (handler : DevHandler) (token : nat)
  | AfterProbe (id : nat) (handler : DevHandler) (token : nat)
  | AfterAdd (id : nat) (token : nat)
  | AfterRemove (id : nat) (token : nat)
  | AfterRemoveChild (id : nat)
  (** of disks and volumes, see [Blockdev] *)
  | AfterBlockPreprobe (volume : bool) (id : nat) (token : nat)
  | AfterBlockProbe (id : nat) (token : nat)
  | AfterUnmount (id : nat) (token : nat)
  | AfterMediaCheck (id : nat)
  (** of ACPI objects, see [Acpi] *)
  | AfterPowerRemove (id : nat) (token : nat).

Record linux := mk_linux {
  lx_hald : hald;
  lx_globals : globals;
  lx_queue : hotplug;
  lx_pending : gmap nat continuation;
  lx_next : nat;
}.

Inductive lx_action :=
  | Daemon (a : Dbus.action)
  | RunCallouts (waits : nat) (u hald_action : string) (programs : list string)
  | RunProber (waits : nat) (u prober : string)
  | RunProbeInput (u : string)
  | RunUnmount (waits : nat) (u : string)
  | RunCleanup (u mount_point : string)
  | StartMdPoll (path : string)
  | StartBatteryPoll
  | StartAcpiPoll
  | StartSlowBatteryPoll
  | StartApmPoll
  | StartPmuPoll
  | StartUndockPoll (id : nat).

Inductive lx_crash := HandlerFault (f : lx_fault) | DaemonCrash (c : crash).

Definition xm (A : Type) : Type := linux -> lx_crash + (A * linux * list lx_action).
Definition xret {A} (x : A) : xm A := fun s => inr (x, s, []).
Definition xbind {A B} (m : xm A) (k : A -> xm B) : xm B := fun s =>
  match m s with
  | inl c => inl c
  | inr (x, s1, t1) =>
      match k x s1 with
      | inl c => inl c
      | inr (y, s2, t2) => inr (y, s2, t1 ++ t2)
      end
  end.
Notation "'let@' x := m 'in' k" := (xbind m (fun x => k))
  (at level 10, x name, m at level 100, k at level 200) : hal_scope.
Notation "m ;@ k" := (xbind m (fun _ => k)) (at level 199, right associativity) : hal_scope.

Definition set_hald (h : hald) (s : linux) : linux :=
  mk_linux h (lx_globals s) (lx_queue s) (lx_pending s) (lx_next s).
Definition xh {A} (m : hm A) : xm A := fun s =>
  match m (lx_hald s) with
  | inl c => inl (DaemonCrash c)
  | inr (x, h, t) => inr (x, set_hald h s, Daemon <$> t)
  end.
Definition xget {A} (f : linux -> A) : xm A := fun s => inr (f s, s, []).
Definition xact (l : list lx_action) : xm unit := fun s => inr (tt, s, l).
Definition xfault {A} (f : lx_fault) : xm A := fun _ => inl (HandlerFault f).
Definition xglobals (g : globals) : xm unit := fun s =>
  inr (tt, mk_linux (lx_hald s) g (lx_queue s) (lx_pending s) (lx_next s), []).
Definition xqueue (f : hotplug -> hotplug) : xm unit := fun s =>
  inr (tt, mk_linux (lx_hald s) (lx_globals s) (f (lx_queue s)) (lx_pending s) (lx_next s), []).
Definition wait_for (k : continuation) : xm nat := fun s =>
  inr (lx_next s, mk_linux (lx_hald s) (lx_globals s) (lx_queue s) (<[lx_next s := k]> (lx_pending s)) (S (lx_next s)), []).

(** The device that a number names. *)
Definition the_device (id : nat) : xm HalDevice :=
  let@ d := xget (fun s => e_heap (h_env (lx_hald s)) !! id) in
  match d with Some d => xret d | None => fun _ => inl (DaemonCrash NoDevice) end.

(** The answer that [n] waits for has come. *)
Definition taking_up (n : nat) (m : xm unit) : xm unit := fun s =>
  m (mk_linux (lx_hald s) (lx_globals s) (lx_queue s) (delete n (lx_pending s)) (lx_next s)).

Definition end_event (token : nat) : xm unit := xqueue (hotplug_event_end token).

Section Pipeline.
Context {P : Platform} {G : GText} {SF : Sysfs}.
Context (property_order : HalDevice -> list string) (handlers : list DevHandler).
Context (connected initialising : bool).
Context (hald_runner_start hald_runner_start_singleton : string -> bool).
Context (stack : list ascii) (rules : cache) (depth udi_fuel : nat).
(** Whether the runner can be asked for a program, and the time. *)
Context (runner_connected : bool) (cur_time : Z).

#[local] Notation dev_op := (dev_op connected initialising).
#[local] Notation gdl_add := (gdl_add connected initialising property_order hald_runner_start hald_runner_start_singleton).
#[local] Notation gdl_remove := (gdl_remove connected initialising property_order).
#[local] Notation merge_rules := (merge_rules connected initialising stack rules depth).

(** Callouts of a device: the programs are run, or the function is called. *)
Definition with_callouts_of (id : nat) (key hald_action : string) (k : continuation) (callback : xm unit) : xm unit :=
  let@ d := the_device id in
  match hal_device_property_dup_strlist_as_strv d key with
  | None => callback
  | Some programs => let@ n := wait_for k in xact [RunCallouts n (udi d) hald_action programs]
  end.

Definition dev_callouts_add_done (id token : nat) : xm unit :=
  xh (tdl_remove id ;^ gdl_add id) ;@ end_event token.

Definition dev_callouts_remove_done (id token : nat) : xm unit :=
  xh (gdl_remove id ;^ free_device id) ;@ end_event token.

Definition dev_callouts_remove_child_done (id : nat) : xm unit := xh (gdl_remove id ;^ free_device id).

Definition computed_udi (e : env) : string -> option string :=
  hald_compute_udi udi_fuel (fun u => bool_decide (is_Some (env_find e u))) 256.

Definition add_dev_after_probing (id : nat) (handler : DevHandler) (token : nat) : xm unit :=
  let@ d := the_device id in
  let@ e := xget (fun s => h_env (lx_hald s)) in
  match h_compute_udi handler (computed_udi e) d with
  | inl f => xfault f
  | inr (false, _) => xh (tdl_remove id ;^ free_device id) ;@ end_event token
  | inr (true, d) =>
      xh (put_device id d ;^
          merge_rules id DEVICE_INFO_TYPE_INFORMATION ;^
          merge_rules id DEVICE_INFO_TYPE_POLICY) ;@
      with_callouts_of id "info.callouts.add" "add" (AfterAdd id token) (dev_callouts_add_done id token)
  end.

Definition add_dev_probing_helper_done (d : option nat) (exit_type return_code : Z) (handler : DevHandler) (token : nat)
  : xm unit :=
  match d with
  | None => end_event token
  | Some id =>
      if negb (exit_type =? HALD_RUN_SUCCESS) || negb (return_code =? 0) then
        xh (tdl_remove id ;^ free_device id) ;@ end_event token
      else
        let@ d := the_device id in
        if match h_post_probing handler with Some post_probing => post_probing d | None => true end
        then add_dev_after_probing id handler token
        else end_event token
  end.

Definition ignore_device : dev bool :=
  hal_device_property_remove "info.category" ;;;
  hal_device_property_remove "info.capabilities" ;;;
  set_str "info.udi" "/org/freedesktop/Hal/devices/ignored-device" ;;;
  set_str "info.product" "Ignored Device".

Definition dev_callouts_preprobing_done (id : nat) (handler : DevHandler) (token : nat) : xm unit :=
  let@ d := the_device id in
  if hal_device_property_get_bool d "info.ignore" then
    xh (dev_op id ignore_device ;^ tdl_remove id ;^ gdl_add id) ;@ end_event token
  else
    match (match h_get_prober handler with Some get_prober => get_prober d | None => None end) with
    | Some prober =>
        if runner_connected then
          let@ n := wait_for (AfterProbe id handler token) in xact [RunProber n (udi d) prober]
        else add_dev_probing_helper_done (Some id) HALD_RUN_FAILED 0 handler token
    | None => add_dev_after_probing id handler token
    end.

(** ** SCSI hosts, for which the kernel sends no events *)

(** The path of the nearest directory that is a host, at most [n] steps up, and
    its number; [None]: the path ends before. *)
Fixpoint find_host (n : nat) (path : string) : option (string * Z) :=
  match n with
  | O => Some (path, -1)
  | S n =>
      let '(ok, path) := hal_util_path_ascend path in
      if negb ok then None
      else match sscanf [Lit "host"; Dec] (hal_util_get_last_element path) with
           | [num] => Some (path, num)
           | _ => find_host n path
           end
  end.

Definition at_sysfs_path (e : env) (path : string) : option nat :=
  find_device (has_string "linux.sysfs_path" path) (e_heap e) (gdl e).

(** A number that no event has. *)
Definition fresh_event (st : hotplug) : nat :=
  fresh (list_to_set (ev_id <$> hotplug_event_queue st ++ hotplug_events_in_progress st ++ begun st) : gset nat).

Definition host_event (id : nat) (action : HotplugActionType) (path : string) : HotplugEvent :=
  mk_event id action HOTPLUG_EVENT_SYSFS_DEVICE false "scsi_host" path "" 0 false "" "" 0 no_udev.

Definition missing_scsi_host (path : string) (e : HotplugEvent) (action : HotplugActionType) : xm bool :=
  match scan_scsi (hal_util_get_last_element path) with
  | [host_num; _; _; _] =>
      if reposted e then xret false
      else match find_host 100 (snprintf HAL_PATH_MAX path) with
           | None => xret false
           | Some (host, num) =>
               if negb (host_num =? num) then xret false
               else
                 let@ present := xget (fun s => bool_decide (is_Some (at_sysfs_path (h_env (lx_hald s)) host))) in
                 let@ id := xget (fun s => fresh_event (lx_queue s)) in
                 match action, present with
                 | HOTPLUG_ACTION_ADD, false =>
                     xqueue (fun st => hotplug_event_reposted (ev_id e)
                               (hotplug_event_enqueue_at_front (host_event id HOTPLUG_ACTION_ADD host)
                                  (hotplug_event_enqueue_at_front e st))) ;@ xret true
                 | HOTPLUG_ACTION_REMOVE, true =>
                     xqueue (hotplug_event_enqueue (host_event id HOTPLUG_ACTION_REMOVE host)) ;@ xret true
                 | HOTPLUG_ACTION_ADD, true | HOTPLUG_ACTION_REMOVE, false => xret false
                 | _, _ => xret true
                 end
           end
  | _ => xret false
  end.

(** ** Adding *)
Definition no_device : HalDevice := mk_device "" 0 0 ∅.

Fixpoint do_others (parent : option nat) (l : list (other_device * dev unit)) : xm unit :=
  match l with
  | [] => xret tt
  | (o, m) :: rest =>
      let@ computer := xget (fun s => env_find (h_env (lx_hald s)) COMPUTER) in
      (match (match o with TheParent => parent | TheComputer => computer end) with
       | Some id => xh (dev_op id m)
       | None => xret tt
       end) ;@ do_others parent rest
  end.

(** The handler builds a device, if the event is for it. *)
Definition run_add (handler : DevHandler) (path device_file : string) (parent : option nat) : xm (option nat) :=
  let@ e := xget (fun s => h_env (lx_hald s)) in
  let@ g := xget lx_globals in
  let parent_dev := parent ≫= fun id => e_heap e !! id in
  match h_add handler e cur_time path device_file parent_dev (mk_building no_device (temp_device_counter e) g [] 0) with
  | inl f => xfault f
  | inr (built, b) =>
      xglobals (b_globals b) ;@
      xact (replicate (b_timers b) StartBatteryPoll) ;@
      do_others parent (b_others b) ;@
      let@ e := xget (fun s => h_env (lx_hald s)) in
      match built with
      | None =>
          xh (hmod (set_env (mk_env (e_heap e) (gdl e) (tdl e) (callouts e) (b_counter b) (e_log e)))) ;@ xret None
      | Some _ =>
          let id := fresh_id e in
          xh (hmod (set_env (mk_env (<[id := b_dev b]> (e_heap e)) (gdl e) (tdl e) (callouts e) (b_counter b) (e_log e)))) ;@
          xret (Some id)
      end
  end.

(** What every new device gets. *)
Definition common_properties (subsystem device_file : string) : dev unit :=
  set_int "linux.hotplug_type" 2 ;;;
  set_str "linux.subsystem" subsystem ;;;
  (let* has := dget (fun d => hal_device_has_property d "info.subsystem") in
   if has then dret true else set_str "info.subsystem" subsystem) ;;;
  when (negb (device_file =s? "")) (set_str "linux.device_file" device_file ;;; dret tt).

Definition start_adding (id : nat) (handler : DevHandler) (subsystem device_file : string) (token : nat) : xm unit :=
  xh (dev_op id (common_properties subsystem device_file) ;^
      tdl_add id ;^
      merge_rules id DEVICE_INFO_TYPE_PREPROBE) ;@
  with_callouts_of id "info.callouts.preprobe" "preprobe" (AfterPreprobe id handler token)
    (dev_callouts_preprobing_done id handler token).

Fixpoint try_handlers (l : list DevHandler) (e : HotplugEvent) (parent : option nat) : xm unit :=
  match l with
  | [] => end_event (ev_id e)
  | handler :: rest =>
      if h_subsystem handler =s? subsystem e then
        let@ reposted := (if subsystem e =s? "scsi" then missing_scsi_host (sysfs_path e) e HOTPLUG_ACTION_ADD else xret false) in
        if reposted : bool then xret tt
        else
          let@ d := run_add handler (sysfs_path e) (ev_device_file e) parent in
          match d with
          | None => try_handlers rest e parent
          | Some id => start_adding id handler (subsystem e) (ev_device_file e) (ev_id e)
          end
      else try_handlers rest e parent
  end.

(** [parent]: the device, and its path. *)
Definition hotplug_event_begin_add_dev (e : HotplugEvent) (parent : option (nat * string)) : xm unit :=
  match parent with
  | None => try_handlers handlers e None
  | Some (id, path) =>
      xh (dev_op id (hal_util_set_driver "info.linux.driver" (Some path))) ;@
      let@ d := the_device id in
      if hal_device_property_get_bool d "info.ignore" then end_event (ev_id e)
      else try_handlers handlers e (Some id)
  end.

(** ** Removing *)
Fixpoint remove_children (l : list nat) : xm unit :=
  match l with
  | [] => xret tt
  | child :: rest =>
      let@ d := the_device child in
      (match get_str d "linux.sysfs_path" with
       | None => with_callouts_of child "info.callouts.remove" "remove" (AfterRemoveChild child)
                   (dev_callouts_remove_child_done child)
       | Some _ => xret tt
       end) ;@ remove_children rest
  end.

Definition hotplug_event_begin_remove_dev (e : HotplugEvent) : xm unit :=
  let@ found := xget (fun s => at_sysfs_path (h_env (lx_hald s)) (sysfs_path e)) in
  match found with
  | None => end_event (ev_id e)
  | Some id =>
      if existsb (fun handler => h_subsystem handler =s? subsystem e) handlers then
        (if subsystem e =s? "scsi" then missing_scsi_host (sysfs_path e) e HOTPLUG_ACTION_REMOVE else xret false) ;@
        let@ d := the_device id in
        let@ children := xget (fun s => let env := h_env (lx_hald s) in
                                        collect (has_string "info.parent" (udi d)) (e_heap env) (gdl env) []) in
        remove_children children ;@
        with_callouts_of id "info.callouts.remove" "remove" (AfterRemove id (ev_id e)) (dev_callouts_remove_done id (ev_id e))
      else end_event (ev_id e)
  end.

(** ** Refreshing *)
Definition run_refresh (id : nat) (r : refresh_result) : xm unit :=
  let update :=
    let@ saved := xh (dev_op id (rr_op r)) in
    let@ g := xget lx_globals in xglobals (set_saved saved g) in
  (if rr_atomic r then xh atomic_update_begin ;@ update ;@ xh (atomic_update_end connected)
   else update) ;@
  xact (if rr_poll_undock r then [StartUndockPoll id] else []).

Definition hotplug_event_refresh_dev (e : HotplugEvent) (id : nat) : xm unit :=
  (match List.find (fun handler => h_subsystem handler =s? subsystem e) handlers with
   | Some handler =>
       match h_refresh handler with
       | Some refresh =>
           let@ d := the_device id in
           let@ env := xget (fun s => h_env (lx_hald s)) in
           let@ g := xget lx_globals in
           match refresh env cur_time d (saved_batteries g) with
           | inl f => xfault f
           | inr r => run_refresh id r
           end
       | None => xret tt
       end
   | None => xret tt
   end) ;@ end_event (ev_id e).

(** A battery, in an atomic update of its own. *)
Fixpoint poll_each (l : list nat) : xm unit :=
  match l with
  | [] => xret tt
  | id :: rest =>
      let@ g := xget lx_globals in
      let@ env := xget (fun s => h_env (lx_hald s)) in
      xglobals (set_grep (hal_util_grep_discard_existing_data (grep_buffers g)) g) ;@
      run_refresh id (mk_refresh true (refresh_battery_fast env cur_time (saved_batteries g)) false) ;@
      poll_each rest
  end.

(** TRUE: the poll goes on. *)
Definition power_supply_battery_poll : xm bool :=
  let@ l := xget (fun s => polled_batteries (h_env (lx_hald s))) in
  poll_each l ;@
  let battery_polled := negb (bool_decide (l = [])) in
  let@ g := xget lx_globals in xglobals (set_polling battery_polled g) ;@ xret battery_polled.

Definition undock_poll (id : nat) : xm bool :=
  let@ d := the_device id in xh (dev_op id (platform_refresh_undock d)).

Definition dev_rescan_device (id : nat) : xm bool :=
  let@ d := the_device id in
  if hal_device_property_get_bool d "button.has_state" then xact [RunProbeInput (udi d)] ;@ xret true
  else xret false.

(** ** What began is finished *)
Definition finish_callouts (n : nat) : xm unit :=
  let@ k := xget (fun s => lx_pending s !! n) in
  match k with
  | Some (AfterPreprobe id handler token) => taking_up n (dev_callouts_preprobing_done id handler token)
  | Some (AfterAdd id token) => taking_up n (dev_callouts_add_done id token)
  | Some (AfterRemove id token) => taking_up n (dev_callouts_remove_done id token)
  | Some (AfterRemoveChild id) => taking_up n (dev_callouts_remove_child_done id)
  | _ => xret tt
  end.

Definition finish_prober (n : nat) (exit_type return_code : Z) : xm unit :=
  let@ k := xget (fun s => lx_pending s !! n) in
  match k with
  | Some (AfterProbe id handler token) =>
      taking_up n (add_dev_probing_helper_done (Some id) exit_type return_code handler token)
  | _ => xret tt
  end.

(** ** The event begins ([hotplug_event_begin_sysfs], for devices that are no disks) *)
Definition begin_dev (e : HotplugEvent) (c : handler_call) : xm unit :=
  match c with
  | AddDev =>
      let@ env := xget (fun s => h_env (lx_hald s)) in
      hotplug_event_begin_add_dev e (hal_util_find_known_parent (at_sysfs_path env) (sysfs_path e))
  | RemoveDev => hotplug_event_begin_remove_dev e
  | RefreshDev _ | MoveDev _ =>
      let@ env := xget (fun s => h_env (lx_hald s)) in
      match (match at_sysfs_path env (sysfs_path e) with
             | Some id => Some id
             | None => at_sysfs_path env (sysfs_path_old e)
             end) with
      | None => end_event (ev_id e)
      | Some id =>
          (match c with
           | MoveDev _ => xh (dev_op id (set_str "linux.sysfs_path" (sysfs_path e))) ;@ xret tt
           | _ => xret tt
           end) ;@
          hotplug_event_refresh_dev e id
      end
  | _ => end_event (ev_id e)
  end.
End Pipeline.

(** ** Events made by the daemon *)
Definition HAL_NAME_MAX : nat := 256.

(** [g_strlcpy] from NULL copies nothing. *)
Definition strlcpy (size : nat) (s : option string) : string := snprintf size (default "" s).

Definition dev_generate_add_hotplug_event (id : nat) (d : HalDevice) : HotplugEvent :=
  mk_event id HOTPLUG_ACTION_ADD HOTPLUG_EVENT_SYSFS false
    (strlcpy HAL_NAME_MAX (get_str d "info.subsystem")) (strlcpy HAL_PATH_MAX (get_str d "linux.sysfs_path")) "" 0 false
    (strlcpy HAL_PATH_MAX (get_str d "linux.device_file")) "" 0 no_udev.

Definition dev_generate_remove_hotplug_event (id : nat) (d : HalDevice) : HotplugEvent :=
  mk_event id HOTPLUG_ACTION_REMOVE HOTPLUG_EVENT_SYSFS false
    (strlcpy HAL_NAME_MAX (get_str d "linux.subsystem")) (strlcpy HAL_PATH_MAX (get_str d "linux.sysfs_path")) "" 0 false
    "" "" 0 no_udev.

(** What udev said of a disk is found in its properties. *)
Definition blockdev_generate_add_hotplug_event (id : nat) (d : HalDevice) : HotplugEvent :=
  mk_event id HOTPLUG_ACTION_ADD HOTPLUG_EVENT_SYSFS false
    "block" (strlcpy HAL_PATH_MAX (get_str d "linux.sysfs_path")) "" 0 false
    (strlcpy HAL_NAME_MAX (get_str d "block.device")) "" 0
    (mk_udev (strlcpy HAL_NAME_MAX (get_str d "storage.vendor")) (strlcpy HAL_NAME_MAX (get_str d "storage.model"))
             (strlcpy HAL_NAME_MAX (get_str d "storage.firmware_revision")) (strlcpy HAL_NAME_MAX (get_str d "storage.serial"))
             "" "" "" "" "").

Definition blockdev_generate_remove_hotplug_event (id : nat) (d : HalDevice) : HotplugEvent :=
  mk_event id HOTPLUG_ACTION_REMOVE HOTPLUG_EVENT_SYSFS false
    "block" (strlcpy HAL_PATH_MAX (get_str d "linux.sysfs_path")) "" 0 false "" "" 0 no_udev.

Definition power_event (kind : string) (type : HotplugEventType) (action : HotplugActionType) (id : nat) (d : HalDevice)
  : HotplugEvent :=
  mk_event id action type false "" "" "" 0 false ""
    (strlcpy HAL_PATH_MAX (get_str d ("linux." +:+ kind +:+ "_path"))) (get_int d ("linux." +:+ kind +:+ "_type")) no_udev.

Definition acpi_generate_add_hotplug_event := power_event "acpi" HOTPLUG_EVENT_ACPI HOTPLUG_ACTION_ADD.
Definition acpi_generate_remove_hotplug_event := power_event "acpi" HOTPLUG_EVENT_ACPI HOTPLUG_ACTION_REMOVE.
Definition apm_generate_add_hotplug_event := power_event "apm" HOTPLUG_EVENT_APM HOTPLUG_ACTION_ADD.
Definition apm_generate_remove_hotplug_event := power_event "apm" HOTPLUG_EVENT_APM HOTPLUG_ACTION_REMOVE.
Definition pmu_generate_add_hotplug_event := power_event "pmu" HOTPLUG_EVENT_PMU HOTPLUG_ACTION_ADD.
Definition pmu_generate_remove_hotplug_event := power_event "pmu" HOTPLUG_EVENT_PMU HOTPLUG_ACTION_REMOVE.

(** ** Reprobing ([hotplug.c]) *)

(** The event of a device, by the kind that is noted in it. *)
Definition generate_remove (id : nat) (d : HalDevice) : option HotplugEvent :=
  let t := get_int d "linux.hotplug_type" in
  if t =? 2 then Some (dev_generate_remove_hotplug_event id d)
  else if t =? 3 then Some (blockdev_generate_remove_hotplug_event id d)
  else if t =? 4 then Some (acpi_generate_remove_hotplug_event id d)
  else if t =? 5 then Some (apm_generate_remove_hotplug_event id d)
  else if t =? 6 then Some (pmu_generate_remove_hotplug_event id d)
  else None.
Definition generate_add (id : nat) (d : HalDevice) : option HotplugEvent :=
  let t := get_int d "linux.hotplug_type" in
  if t =? 2 then Some (dev_generate_add_hotplug_event id d)
  else if t =? 3 then Some (blockdev_generate_add_hotplug_event id d)
  else if t =? 4 then Some (acpi_generate_add_hotplug_event id d)
  else if t =? 5 then Some (apm_generate_add_hotplug_event id d)
  else if t =? 6 then Some (pmu_generate_add_hotplug_event id d)
  else None.

Definition enqueue_made (made : nat -> HalDevice -> option HotplugEvent) (d : HalDevice) (st : hotplug) : hotplug :=
  match made (fresh_event st) d with Some e => hotplug_event_enqueue e st | None => st end.

Definition children_of (e : env) (d : HalDevice) : list HalDevice :=
  omap (fun id => e_heap e !! id) (collect (has_string "info.parent" (udi d)) (e_heap e) (gdl e) []).

(** Devices, the deepest first or last; [None]: out of fuel, for parents that go
    round in a circle. *)
Fixpoint hotplug_reprobe_generate_remove_events (fuel : nat) (e : env) (d : HalDevice) (st : hotplug) : option hotplug :=
  match fuel with
  | O => None
  | S fuel =>
      st ← foldl (fun st child => st ← st; hotplug_reprobe_generate_remove_events fuel e child st) (Some st) (children_of e d);
      Some (enqueue_made generate_remove d st)
  end.
Fixpoint hotplug_reprobe_generate_add_events (fuel : nat) (e : env) (d : HalDevice) (st : hotplug) : option hotplug :=
  match fuel with
  | O => None
  | S fuel =>
      foldl (fun st child => st ← st; hotplug_reprobe_generate_add_events fuel e child st)
            (Some (enqueue_made generate_add d st)) (children_of e d)
  end.

(** The queue is processed afterwards. *)
Definition hotplug_reprobe_tree (fuel : nat) (e : env) (d : HalDevice) (st : hotplug) : option hotplug :=
  st ← hotplug_reprobe_generate_remove_events fuel e d st;
  hotplug_reprobe_generate_add_events fuel e d st.
