(* ===== verification/Blockdev.v ===== *)
(** * Disks and volumes ([hald/linux/blockdev.c])

    A disk is built from the event, from sysfs and from the devices above it, up
    to the one that tells the bus; a volume from its disk.  Both are probed, and go
    the way of other devices.  Here too: the mount state of volumes, software RAID,
    and media that come and go.

    What is read apart from sysfs is the class [BlockFiles]: the mounts, the numbers
    of device nodes, directories, and the answers of udev. *)

From Stdlib Require Import ZArith Lia Ascii SpecFloat.
From stdpp Require Import base list gmap strings option pretty fin_maps.
From S2P Require Import Prelude CStd Property Device DeviceStore FdiRules FdiInterp Locks AccessCheck Bus Partutil Util Dbus DbusManager DbusDispatch Power Hotplug Runner LinuxSysfs LinuxBuses LinuxClasses LinuxDevice.

Record mntent := mk_mntent { mnt_fsname : string; mnt_dir : string; mnt_type : string; mnt_opts : string }.

Class BlockFiles := {
  (** /proc/mounts; [None]: it cannot be opened *)
  proc_mounts : option (list mntent);
  (** [st_rdev] of a file, as two numbers, when [stat] succeeds *)
  st_rdev : string -> option (Z * Z);
  (** [st_dev] of the root directory *)
  root_dev : option (Z * Z);
  is_symlink : string -> bool;
  (** the names in a directory *)
  readdir : string -> option (list string);
  (** the lines of /proc/mdstat *)
  mdstat : option (list string);
  (** what udevadm answers for a path, by the number of the attempt *)
  udevadm : string -> nat -> option string;
}.

(** ** Text *)

(** The loop of [strdup_valid_utf8]: bytes that are not valid are overwritten with
    [mark], and counted. *)
Fixpoint valid_utf8_loop {P : Platform} (mark : ascii) (fuel : nat) (s : string) (fixes : Z) : string * Z :=
  match g_utf8_validate s, fuel with
  | Some i, S fuel => valid_utf8_loop mark fuel (str_take i s +:+ String mark (str_drop (S i) s)) (fixes + 1)
  | _, _ => (s, fixes)
  end.

(** [g_utf8_strlen]: the bytes that do not continue a character. *)
Fixpoint g_utf8_strlen (s : string) : Z :=
  match s with
  | EmptyString => 0
  | String c s => (if (0x80 <=? char_code c) && (char_code c <? 0xc0) then 0 else 1) + g_utf8_strlen s
  end.

Definition strdup_valid_utf8 {P : Platform} (s : string) : string :=
  let '(t, fixes) := valid_utf8_loop "_" (String.length s) s 0 in
  if (0 <? fixes) && (g_utf8_strlen t / fixes <? 5) then "" else t.

(** [hal_util_strdup_valid_utf8] ([util_helper.c]): NULL when nothing of the string
    was valid, and for the empty string. *)
Definition hal_util_strdup_valid_utf8 {P : Platform} (s : string) : option string :=
  let '(t, count) := valid_utf8_loop "?" (String.length s) s 0 in
  if Z.of_nat (String.length t) =? count then None else Some t.

(** [canonicalize_filename]: [out] is what is written so far, backwards. *)
Fixpoint drop_element (out : string) : string :=
  match out with
  | String c (String _ _ as rest) => if bool_decide (c = slash) then out else drop_element rest
  | _ => out
  end.
Definition step_back (out : string) : string :=
  match out with
  | String _ (String _ _ as rest) => drop_element rest
  | _ => out
  end.

Fixpoint canonical_loop (p out : string) (last_was_slash : bool) : string :=
  match p with
  | EmptyString => out
  | String c p' =>
      if bool_decide (c = slash) then canonical_loop p' (if last_was_slash then out else String slash out) true
      else if last_was_slash && bool_decide (c = "."%char) then
        match p' with
        | EmptyString => out
        | String c1 p1 =>
            if bool_decide (c1 = slash) then canonical_loop p1 out true
            else if bool_decide (c1 = "."%char) then
              match p1 with
              | EmptyString => step_back out
              | String c2 p2 =>
                  if bool_decide (c2 = slash) then canonical_loop p2 (step_back out) true
                  else canonical_loop p' (String c out) false
              end
            else canonical_loop p' (String c out) false
        end
      else canonical_loop p' (String c out) false
  end.
Definition canonicalize_filename (filename : string) : string :=
  match canonical_loop filename "" false with
  | String c (String _ _ as rest) as out => String.rev (if bool_decide (c = slash) then rest else out)
  | out => String.rev out
  end.

Section Blockdev.
Context {P : Platform} {G : GText} {SF : Sysfs} {BF : BlockFiles}.

(** The rounds for links that point to links. *)
Context (link_fuel : nat).

(** The directory part of a path ([g_path_get_dirname]). *)
Fixpoint strip_slashes (s : string) : string :=
  match s with
  | String c s' => match strip_slashes s' with
                   | EmptyString => if bool_decide (c = slash) then "" else String c ""
                   | t => String c t
                   end
  | EmptyString => ""
  end.
Definition g_path_get_dirname (f : string) : string :=
  match strrchr f slash with
  | None => "."
  | Some i => match strip_slashes (str_take i f) with EmptyString => "/" | d => d end
  end.

(** [link] is what the buffer holds, which is cleared only once: a target that is
    shorter than the one before it keeps the end of that.  [inl]: out of fuel;
    [None]: NULL. *)
Fixpoint resolve_links (fuel : nat) (link f : string) : lx_fault + option string :=
  if is_symlink f then
    match fuel with
    | O => inl NoFuel
    | S fuel =>
        match readlink f with
        | None => inr None
        | Some target =>
            let written := str_take (HAL_PATH_MAX - 1) target in
            let link := written +:+ str_drop (String.length written) link in
            resolve_links fuel link (g_path_get_dirname f +:+ "/" +:+ link)
        end
    end
  else inr (Some f).
Definition resolve_symlink (file : string) : lx_fault + option string :=
  match resolve_links link_fuel "" file with
  | inl f => inl f
  | inr f => inr (canonicalize_filename <$> f)
  end.

(** ** The UDI *)
Section Udi.
Context (compute : string -> option string).

Definition g_strdelimit_slash (s : string) : string := string_map (fun c => if bool_decide (c = slash) then "_"%char else c) s.
Definition not_empty (s : option string) : option string :=
  s ← s; if decide (s = "") then None else Some s.

Definition volume_udi_text (d : HalDevice) : string :=
  match not_empty (get_str d "volume.uuid"), not_empty (g_strdelimit_slash <$> get_str d "volume.label") with
  | Some uuid, _ => DEVICES +:+ "volume_uuid_" +:+ uuid
  | None, Some volumelabel => DEVICES +:+ "volume_label_" +:+ volumelabel
  | None, None =>
      if hal_device_property_get_bool d "volume.is_disc" && hal_device_property_get_bool d "volume.disc.is_blank"
      then DEVICES +:+ "volume_empty_" +:+ or_null (get_str d "volume.disc.type")
      else DEVICES +:+ "volume_part" +:+ pretty (get_int d "volume.partition.number") +:+ "_size_" +:+
           pretty (s64 (hal_device_property_get_uint64 d "volume.size"))
  end.

Definition storage_udi_text (d : HalDevice) : string :=
  match get_str d "storage.serial", not_empty (get_str d "storage.model"), get_str d "storage.bus", get_str d "storage.drive_type" with
  | Some serial, _, _, _ => DEVICES +:+ "storage_serial_" +:+ serial
  | None, Some model, _, _ => DEVICES +:+ "storage_model_" +:+ model
  | None, None, Some bus, Some type => or_null (get_str d "storage.originating_device") +:+ "_storage_" +:+ bus +:+ "_" +:+ type
  | None, None, _, _ => or_null (get_str d "storage.originating_device") +:+ "_storage"
  end.

Definition blockdev_compute_udi : HalDevice -> lx_fault + (bool * HalDevice) :=
  udi_from compute (fun d => Some (
    if hal_device_property_get_bool d "block.is_volume" then volume_udi_text d else storage_udi_text d)).
End Udi.

(** ** Software RAID *)

(** The state of a component: its volume and the disk of that. *)
Definition raid_component (e : env) (sysfs_path : string) (n : nat) : lx_fault + option (HalDevice * HalDevice) :=
  match resolve_symlink (sysfs_path +:+ "/md/rd" +:+ pretty n +:+ "/block") with
  | inl f => inl f
  | inr target => inr (
      target ← target;
      volume ← (at_sysfs_path e target ≫= fun id => e_heap e !! id);
      u ← get_str volume "block.storage_device";
      stordev ← find_in_gdl e u;
      Some (volume, stordev))
  end.

(** What the first component tells about the array. *)
Definition first_component (volume stordev : HalDevice) : dev unit :=
  set_bool "storage.hotpluggable" (hal_device_property_get_bool stordev "storage.hotpluggable") ;;;
  match get_str volume "volume.uuid" with
  | Some uuid => set_str "storage.serial" uuid ;;; dret tt
  | None => dret tt
  end.

(** The components from [n] on, [k] of them: what is done, and their number, or
    [None] after an error. *)
Fixpoint raid_components (k : nat) (e : env) (sysfs_path : string) (n : nat) : lx_fault + (dev unit * option nat) :=
  match k with
  | O => inr (dret tt, Some n)
  | S k =>
      if negb (is_symlink (sysfs_path +:+ "/md/rd" +:+ pretty n)) then inr (dret tt, Some n)
      else
        match raid_component e sysfs_path n with
        | inl f => inl f
        | inr None => inr (dret tt, None)
        | inr (Some (volume, stordev)) =>
            match raid_components k e sysfs_path (S n) with
            | inl f => inl f
            | inr (m, count) =>
                inr (hal_device_property_strlist_add "storage.linux_raid.components" (udi volume) ;;;
                     (if decide (n = 0%nat) then first_component volume stordev else dret tt) ;;; m, count)
            end
        end
  end.

(** The progress of a synchronisation. *)
Definition sync_progress (text : string) : dev bool :=
  match sscanf [LongDec; Space; Lit "/"; Space; LongDec] text with
  | [pos; total] =>
      hal_device_property_set_double "storage.linux_raid.sync.progress" (dbl_div (dbl_of_int pos) (dbl_of_int total))
  | _ => dret false
  end.

Definition raid_syncs (sysfs_path sync_action : string) : dev unit :=
  set_bool "storage.linux_raid.is_syncing" true ;;;
  set_str "storage.linux_raid.sync.action" sync_action ;;;
  (match read_int sysfs_path "md/sync_speed" 10 with
   | Some speed => set_u64 "storage.linux_raid.sync.speed" (u64 speed)
   | None => dret false
   end) ;;;
  (match read_string sysfs_path "md/sync_completed" with
   | Some text => sync_progress text
   | None => dret false
   end) ;;; dret tt.

Definition raid_idle : dev unit :=
  set_bool "storage.linux_raid.is_syncing" false ;;;
  hal_device_property_remove "storage.linux_raid.sync.action" ;;;
  hal_device_property_remove "storage.linux_raid.sync.speed" ;;;
  hal_device_property_remove "storage.linux_raid.sync.progress" ;;; dret tt.

(** The state of the synchronisation: what is done, and whether a timer is
    started; [None] after an error. *)
Definition sync_state (sysfs_path level : string) : option (dev unit * bool) :=
  if level =s? "linear" then Some (set_bool "storage.linux_raid.is_syncing" false ;;; dret tt, false)
  else
    sync_action ← read_string sysfs_path "md/sync_action";
    Some (if sync_action =s? "idle" then (raid_idle, false) else (raid_syncs sysfs_path sync_action, true)).

Record raid_result := mk_raid { raid_op : dev unit; raid_timer : option string; raid_ok : bool }.

Definition refresh_md_state (e : env) (d : HalDevice) : lx_fault + raid_result :=
  match get_str d "storage.linux_raid.sysfs_path", get_str d "storage.linux_raid.level" with
  | None, _ => inr (mk_raid (dret tt) None false)
  | Some _, None => inl NullPointer
  | Some sysfs_path, Some level =>
      match sync_state sysfs_path level with
      | None => inr (mk_raid (dret tt) None false)
      | Some (sync, again) =>
          let timer := if again : bool then Some sysfs_path else None in
          match read_int sysfs_path "md/raid_disks" 0 with
          | None => inr (mk_raid sync timer false)
          | Some num_components =>
              match raid_components (Z.to_nat num_components) e sysfs_path 0 with
              | inl f => inl f
              | inr (components, count) =>
                  inr (mk_raid
                    (sync ;;;
                     set_int "storage.linux_raid.num_components" num_components ;;;
                     components ;;;
                     match count with
                     | Some n => set_int "storage.linux_raid.num_components_active" (Z.of_nat n) ;;; dret tt
                     | None => dret tt
                     end) timer (bool_decide (is_Some count)))
              end
          end
      end
  end.

(** ** Building a disk or a volume *)
Definition afail {A} (f : lx_fault) : am A := fun _ => inl f.
(** A string that is compared, or NULL. *)
Definition need {A} (x : option A) : am A := match x with Some x => aret x | None => afail NullPointer end.

Section Add.
Context (e : env) (ev : HotplugEvent) (is_partition : bool).

(** A volume that is the whole disk, a RAID array, and the path in sysfs. *)
Record block_kind := mk_kind { is_fakevolume : bool; is_md_device : bool; sysfs_path_real : string }.

Definition kind_of_event : option block_kind :=
  let last := hal_util_get_last_element (sysfs_path ev) in
  if last =s? "fakevolume" then path ← hal_util_get_parent_path (sysfs_path ev); Some (mk_kind true false path)
  else Some (mk_kind false (match sscanf [Lit "md"; Dec] last with [_] => true | _ => false end) (sysfs_path ev)).

(** *** The parent *)

(** The disk under an encrypted volume that a mapped device is made of. *)
Definition luks_parent (volume : HalDevice) : option HalDevice :=
  u ← get_str volume "block.storage_device";
  fstype ← get_str volume "volume.fstype";
  if fstype =s? "crypto_LUKS" then find_in_gdl e u else None.

Fixpoint find_slave (path : string) (names : list string) : am (option HalDevice) :=
  match names with
  | [] => aret None
  | name :: rest =>
      match resolve_symlink (path +:+ "/" +:+ name) with
      | inl f => afail f
      | inr target =>
          match (target ≫= fun t => at_sysfs_path e t ≫= fun id => e_heap e !! id) with
          | Some volume =>
              match luks_parent volume with
              | Some parent =>
                  on_new (set_str "volume.crypto_luks.clear.backing_volume" (udi volume)) ;& aret (Some parent)
              | None => find_slave path rest
              end
          | None => find_slave path rest
          end
      end
  end.

Inductive parent_kind := Plain | Cciss | DeviceMapper.

Definition find_parent (k : block_kind) (parent : option HalDevice) : am (option HalDevice * parent_kind) :=
  match parent with
  | Some p => aret (Some p, Plain)
  | None =>
      if is_partition || is_fakevolume k || reposted ev then aret (None, Plain)
      else
        let path := snprintf HAL_PATH_MAX (sysfs_path ev +:+ "/slaves") in
        if strstr (ev_device_file ev) "/dev/cciss/" then
          if stat_ok path then aret (find_in e COMPUTER, Cciss) else aret (None, Plain)
        else
          match readdir path with
          | None => aret (None, Plain)
          | Some names =>
              let& p := find_slave path names in
              aret (p, match p with Some _ => DeviceMapper | None => Plain end)
          end
  end.

(** *** Floppy drives *)
Definition is_platform_floppy (parent : HalDevice) : am bool :=
  if bool_decide (get_str parent "info.subsystem" = Some "platform") then
    let& id := need (get_str parent "platform.id") in
    aret (match sscanf [Lit "floppy."; Dec] id with [_] => true | _ => false end)
  else if hal_device_has_property parent "info.subsystem" && negb (bool_decide (is_Some (get_str parent "info.subsystem")))
  then afail NullPointer
  else aret false.

Definition storage_capabilities : dev unit :=
  set_str "info.category" "storage" ;;; add_cap "storage" ;;; add_cap "block".

Definition floppy_drive (parent : HalDevice) : dev unit :=
  set_str "storage.bus" "platform" ;;;
  set_bool "storage.no_partitions_hint" true ;;;
  set_bool "storage.media_check_enabled" false ;;;
  set_bool "storage.automount_enabled_hint" true ;;;
  set_str "storage.model" "" ;;;
  set_str "storage.vendor" "PC Floppy Drive" ;;;
  set_str "info.vendor" "" ;;;
  set_str "info.product" "PC Floppy Drive" ;;;
  set_str "storage.drive_type" "floppy" ;;;
  set_str "storage.originating_device" (udi parent) ;;;
  set_bool "storage.removable" true ;;;
  set_bool "storage.removable.media_available" false ;;;
  set_bool "storage.hotpluggable" false ;;;
  set_bool "storage.requires_eject" false ;;;
  set_u64 "storage.size" 0 ;;;
  storage_capabilities.

(** *** The bus of a disk: up the chain of parents *)
Definition raid_model (level : string) : string :=
  if level =s? "linear" then "Software RAID (Linear)"
  else if level =s? "raid0" then "Software RAID-0 (Stripe)"
  else if level =s? "raid1" then "Software RAID-1 (Mirror)"
  else if level =s? "raid5" then "Software RAID-5"
  else "Software RAID (" +:+ level +:+ ")".

(** The state of an array, into the device that is built. *)
Definition refresh_md_new : am bool :=
  let& d := on_new (dget (fun d => d)) in
  match refresh_md_state e d with
  | inl f => afail f
  | inr r => on_new (raid_op r) ;& (if raid_timer r then start_poll else aret tt) ;& aret (raid_ok r)
  end.

(** [true]: the array can be unplugged. *)
Definition raid_array (path : string) : am bool :=
  on_new (set_str "storage.bus" "linux_raid") ;&
  match read_string path "md/level" with
  | None => anull
  | Some level =>
      on_new (
        set_str "storage.linux_raid.level" level ;;;
        set_str "storage.linux_raid.sysfs_path" path ;;;
        set_str "storage.vendor" "Linux" ;;;
        set_str "storage.model" (raid_model level) ;;;
        str_file "storage.firmware_version" path "md/metadata_version" ;;;
        add_cap "storage.linux_raid") ;&
      let& ok := refresh_md_new in
      guard_null ok ;&
      on_new (dget (fun d => hal_device_property_get_bool d "storage.hotpluggable"))
  end.

(** What a subsystem on the way says: the bus, whether the disk can be unplugged,
    and whether the search ends there. *)
Definition bus_of (bus : string) : option (string * bool * bool) :=
  if (bus =s? "usb") || (bus =s? "ieee1394") || (bus =s? "pcmcia") || (bus =s? "mmc") || (bus =s? "memstick")
  then Some (bus, true, true)
  else if bus =s? "ccw" then Some (bus, true, false)
  else if (bus =s? "ide") || (bus =s? "vio") || (bus =s? "pci") then Some (bus, false, false)
  else None.

(** The physical device with its UDI, and whether it can be unplugged. *)
Definition found : Type := option (string * HalDevice) * bool.

Fixpoint walk_up (fuel : nat) (k : block_kind) (pk : parent_kind) (udi_it : option string) (so_far : found) : am found :=
  match udi_it with
  | None => aret so_far
  | Some u =>
      match fuel with
      | O => afail NoFuel
      | S fuel =>
          match find_in e u with
          | None => anull
          | Some d_it =>
              if u =s? COMPUTER then
                if is_md_device k then
                  let& hot := raid_array (sysfs_path_real k) in aret (Some (u, d_it), hot)
                else
                  (match pk with Cciss => on_new (set_str "storage.bus" "cciss") | _ => aret true end) ;&
                  aret (Some (u, d_it), so_far.2)
              else
                let bus := get_str d_it "info.subsystem" in
                let scsi := bool_decide (bus = Some "scsi") in
                (if scsi then
                   on_new (set_str "storage.bus" "scsi" ;;; hal_device_copy_property d_it "scsi.lun" "storage.lun")
                 else aret true) ;&
                match bus ≫= bus_of with
                | Some (name, hot, ends) =>
                    on_new (set_str "storage.bus" name) ;&
                    let here := (Some (u, d_it), so_far.2 || hot) in
                    if ends : bool then aret here else walk_up fuel k pk (get_str d_it "info.parent") here
                | None =>
                    walk_up fuel k pk (get_str d_it "info.parent") (if scsi then (Some (u, d_it), so_far.2) else so_far)
                end
          end
      end
  end.

(** *** Disks *)
Definition storage_defaults : dev unit :=
  set_str "storage.bus" "unknown" ;;;
  set_bool "storage.no_partitions_hint" true ;;;
  set_bool "storage.media_check_enabled" true ;;;
  set_bool "storage.automount_enabled_hint" true ;;;
  set_str "storage.drive_type" "disk" ;;;
  set_str "storage.model" (u_model (ev_udev ev)) ;;;
  set_str "storage.vendor" (u_vendor (ev_udev ev)) ;;;
  when (negb (u_serial (ev_udev ev) =s? "")) (set_str "storage.serial" (u_serial (ev_udev ev)) ;;; dret tt) ;;;
  when (negb (u_revision (ev_udev ev) =s? "")) (set_str "storage.firmware_version" (u_revision (ev_udev ev)) ;;; dret tt).

(** Whether the medium can be removed; the size of one that cannot. *)
Definition storage_media (k : block_kind) : dev unit :=
  let is_removable := match read_int (sysfs_path_real k) "removable" 10 with Some z => negb (z =? 0) | None => false end in
  set_bool "storage.removable.media_available" false ;;;
  set_bool "storage.removable" is_removable ;;;
  (if is_removable then set_u64 "storage.size" 0
   else match hal_util_get_uint64_from_file fopen (sysfs_path_real k) "size" 0 with
        | Some num_blocks => set_u64 "storage.size" (u64 (num_blocks * 512))
        | None => dret true
        end) ;;;
  when is_removable (
    set_bool "storage.removable.support_async_notification"
      (match read_int (sysfs_path ev) "capability" 16 with Some z => negb (Z.land z 4 =? 0) | None => false end) ;;; dret tt) ;;;
  set_bool "storage.media_check_enabled" is_removable ;;; dret tt.

(** The directory with what the kernel says of an IDE drive. *)
Definition ide_directory (k : block_kind) : string :=
  let buf := snprintf 256 ("/proc/ide/" +:+ hal_util_get_last_element (sysfs_path_real k)) in
  if stat_ok buf then buf else snprintf 256 (sysfs_path_real k +:+ "/device").

Definition ide_drive (k : block_kind) : am unit :=
  let buf := ide_directory k in
  on_new (set_bool "storage.media_check_enabled" false) ;&
  (match read_string buf "media" with
   | None => aret tt
   | Some media =>
       guard_null ((media =s? "disk") || (media =s? "cdrom") || (media =s? "floppy")) ;&
       on_new (set_str "storage.drive_type" media ;;;
               when (media =s? "cdrom") (set_bool "storage.media_check_enabled" true ;;; dret tt))
   end) ;&
  on_new (match read_string buf "model" with
          | Some model => set_str "storage.model" model ;;; set_str "info.product" model ;;; dret tt
          | None => dret tt
          end).

Definition copy_own (from to : string) : dev bool :=
  let* d := dget (fun d => d) in hal_device_copy_property d from to.

Definition scsi_drive (parent physdev : HalDevice) : am unit :=
  let& type := need (get_str parent "scsi.type") in
  guard_null (negb (type =s? "unknown")) ;&
  on_new (
    hal_device_copy_property parent "scsi.type" "storage.drive_type" ;;;
    hal_device_copy_property parent "scsi.vendor" "storage.vendor" ;;;
    hal_device_copy_property parent "scsi.model" "storage.model" ;;;
    copy_own "storage.vendor" "info.vendor" ;;;
    copy_own "storage.model" "info.product" ;;;
    when ((get_int physdev "usb.interface.class" =? 8) && (get_int physdev "usb.interface.subclass" =? 4))
      (set_str "storage.drive_type" "floppy" ;;; dret tt)).

Definition vio_drive (k : block_kind) : dev unit :=
  match read_string (snprintf 256 (sysfs_path_real k +:+ "/device")) "name" with
  | None => dret tt
  | Some prop =>
      let named product type := set_str "info.product" product ;;; set_str "storage.drive_type" type ;;; dret tt in
      if prop =s? "viocd" then named "Vio Virtual CD" "cdrom"
      else if prop =s? "viodasd" then named "Vio Virtual Disk" "disk"
      else if prop =s? "viotape" then named "Vio Virtual Tape" "tape"
      else dret tt
  end.

Definition xen_drive (k : block_kind) : dev unit :=
  match read_string (snprintf 256 (sysfs_path_real k +:+ "/device")) "media" with
  | None => dret tt
  | Some media =>
      if media =s? "cdrom" then
        set_str "info.product" "Xen Virtual CD" ;;; set_str "storage.drive_type" media ;;;
        set_bool "storage.media_check_enabled" false ;;; dret tt
      else if media =s? "floppy" then
        set_str "info.product" "Xen Virtual Floppy" ;;; set_str "storage.drive_type" media ;;;
        set_bool "storage.media_check_enabled" false ;;; dret tt
      else set_str "info.product" "Xen Virtual Disk" ;;; set_str "storage.drive_type" "disk" ;;; dret tt
  end.

Definition bus_properties (k : block_kind) (parent physdev : HalDevice) (parent_bus : string) : am unit :=
  if parent_bus =s? "ide" then ide_drive k
  else if parent_bus =s? "scsi" then scsi_drive parent physdev
  else if parent_bus =s? "mmc" then on_new (set_str "storage.drive_type" "sd_mmc" ;;; dret tt)
  else if parent_bus =s? "memstick" then on_new (set_str "storage.drive_type" "memstick" ;;; dret tt)
  else if parent_bus =s? "vio" then on_new (vio_drive k)
  else if parent_bus =s? "xen" then on_new (xen_drive k)
  else aret tt.

(** The hints of a drive, by its type. *)
Definition drive_hints (is_hotpluggable : bool) (drive_type : string) : dev unit :=
  let cdrom := drive_type =s? "cdrom" in
  when cdrom (add_cap "storage.cdrom") ;;;
  set_bool "storage.hotpluggable" is_hotpluggable ;;;
  set_bool "storage.requires_eject" cdrom ;;;
  set_bool "storage.no_partitions_hint" (cdrom || (drive_type =s? "floppy")) ;;; dret tt.

Definition storage_device (walk_fuel : nat) (k : block_kind) (pk : parent_kind) (parent : HalDevice) : am unit :=
  on_new storage_defaults ;&
  let& physical := walk_up walk_fuel k pk (Some (udi parent)) (None, false) in
  match physical with
  | (None, _) => anull
  | (Some (physdev_udi, physdev), is_hotpluggable) =>
      on_new (set_str "storage.originating_device" physdev_udi ;;; storage_media k) ;&
      match get_str parent "info.subsystem" with
      | None => anull
      | Some parent_bus =>
          bus_properties k parent physdev parent_bus ;&
          on_new storage_capabilities ;&
          let& drive_type := on_new (dget (fun d => get_str d "storage.drive_type")) in
          let& drive_type := need drive_type in
          on_new (drive_hints is_hotpluggable drive_type)
      end
  end.

(** *** Volumes *)
Definition volume_defaults (parent : HalDevice) : dev unit :=
  let u := ev_udev ev in
  set_str "block.storage_device" (udi parent) ;;;
  set_str "volume.fstype" "" ;;; set_str "volume.fsusage" "" ;;; set_str "volume.fsversion" "" ;;;
  set_str "volume.uuid" "" ;;; set_str "volume.label" "" ;;; set_str "volume.mount_point" "" ;;;
  set_str "volume.fsusage" (u_fsusage u) ;;;
  set_str "volume.fsversion" (u_fsversion u) ;;;
  set_str "volume.uuid" (u_fsuuid u) ;;;
  set_str "volume.fstype" (u_fstype u) ;;;
  set_str "info.product" (if u_fstype u =s? "" then "Volume" else snprintf 64 ("Volume (" +:+ u_fstype u +:+ ")")) ;;;
  let volume_label := strdup_valid_utf8 (u_fslabel u) in
  set_str "volume.label" volume_label ;;;
  when (negb (volume_label =s? "")) (set_str "info.product" volume_label ;;; dret tt) ;;;
  set_bool "volume.is_mounted" false ;;;
  set_bool "volume.is_mounted_read_only" false ;;; dret tt.

Definition volume_capabilities (is_disc : bool) : dev unit :=
  set_str "info.category" "volume" ;;;
  when is_disc (add_cap "volume.disc") ;;;
  add_cap "volume" ;;; add_cap "block".

(** The digits at the end of the path. *)
Definition partition_number : option Z :=
  let s := sysfs_path ev in
  if match String.rev s with String c _ => in_base 10 c | EmptyString => false end then Some (trailing_number s) else None.

Definition partition_place : dev unit :=
  (match hal_util_get_uint64_from_file fopen (sysfs_path ev) "start" 0 with
   | Some start_block => set_u64 "volume.partition.start" (u64 (start_block * 512))
   | None => dret true
   end) ;;;
  (match hal_util_get_uint64_from_file fopen (sysfs_path ev) "../size" 0 with
   | Some parent_size => set_u64 "volume.partition.media_size" (u64 (parent_size * 512))
   | None => dret true
   end) ;;; dret tt.

Definition volume_device (k : block_kind) (is_device_mapper : bool) (parent : HalDevice) : am unit :=
  let is_physical_partition := negb (is_fakevolume k || is_device_mapper) in
  on_new (volume_defaults parent ;;; set_bool "volume.linux.is_device_mapper" is_device_mapper) ;&
  let& drive_type := need (get_str parent "storage.drive_type") in
  on_new (
    set_bool "volume.is_disc" (drive_type =s? "cdrom") ;;;
    set_bool "volume.is_partition" is_physical_partition ;;;
    volume_capabilities (drive_type =s? "cdrom")) ;&
  (if is_physical_partition then
     match partition_number with
     | Some n => on_new (set_int "volume.partition.number" n ;;; dret tt)
     | None => anull
     end
   else aret tt) ;&
  let& ok := on_new (set_int "volume.block_size" 512 ;;;
                     hal_util_set_uint64_from_file fopen "volume.num_blocks" (sysfs_path_real k) "size" 0) in
  guard_null ok ;&
  on_new (
    (let* num_blocks := dget (fun d => hal_device_property_get_uint64 d "volume.num_blocks") in
     set_u64 "volume.size" (u64 (512 * num_blocks))) ;;;
    when is_physical_partition partition_place).

(** *** Both *)

(** [true]: it is a volume.  The parent that the event gives is that of another
    device for a RAID array. *)
Definition build_blockdev (walk_fuel : nat) (k : block_kind) (parent : option HalDevice) : am bool :=
  let parent := if is_md_device k then find_in e COMPUTER else parent in
  new_device ;&
  let& above := find_parent k parent in
  let '(parent, pk) := above in
  let is_device_mapper := match pk with DeviceMapper => true | _ => false end in
  match parent with
  | None => anull
  | Some parent =>
      guard_null (is_fakevolume k || negb (hal_device_property_get_bool parent "storage.no_partitions_hint")) ;&
      on_new (
        set_str "linux.sysfs_path" (sysfs_path ev) ;;;
        set_str "info.parent" (udi parent) ;;;
        set_int "linux.hotplug_type" 3 ;;;
        set_str "block.device" (ev_device_file ev)) ;&
      match sscanf [Dec; Lit ":"; Dec] (default "" (read_string (sysfs_path_real k) "dev")) with
      | [major; minor] =>
          let is_volume := is_partition || is_device_mapper || is_fakevolume k in
          on_new (set_int "block.major" major ;;; set_int "block.minor" minor ;;; set_bool "block.is_volume" is_volume) ;&
          let& floppy := is_platform_floppy parent in
          if floppy : bool then on_new (floppy_drive parent) ;& aret false
          else if is_volume then volume_device k is_device_mapper parent ;& aret true
          else storage_device walk_fuel k pk parent ;& aret false
      | _ => anull
      end
  end.
End Add.

(** ** The way of a disk or volume through the daemon *)
Context (property_order : HalDevice -> list string).
Context (connected initialising : bool).
Context (hald_runner_start hald_runner_start_singleton : string -> bool).
Context (stack : list ascii) (rules : cache) (depth udi_fuel walk_fuel : nat).
Context (runner_connected : bool).

#[local] Notation dev_op := (dev_op connected initialising).
#[local] Notation gdl_add := (gdl_add connected initialising property_order hald_runner_start hald_runner_start_singleton).
#[local] Notation gdl_remove := (gdl_remove connected initialising property_order).
#[local] Notation merge_rules := (merge_rules connected initialising stack rules depth).

(** The continuations of the callouts are those of other devices, whose functions
    do the same. *)
Definition blockdev_callouts_add_done (id token : nat) : xm unit :=
  xh (tdl_remove id ;^ gdl_add id) ;@ end_event token.
Definition blockdev_callouts_remove_done (id token : nat) : xm unit :=
  xh (gdl_remove id ;^ free_device id) ;@ end_event token.

(** *** Mounts *)

(** The options of an entry, which commas separate. *)
Fixpoint comma_separated (s cur : string) : list string :=
  match s with
  | EmptyString => [cur]
  | String c s => if bool_decide (c = ","%char) then cur :: comma_separated s "" else comma_separated s (cur +:+ String c "")
  end.
(** [hasmntopt (mnt, "ro")] *)
Definition is_read_only (m : mntent) : bool :=
  existsb (fun o => (o =s? "ro") || has_prefix o "ro=") (comma_separated (mnt_opts m) "").

(** The device of an entry: its numbers, (0, 0) when it is known by name only, or
    [None] when the entry is skipped. *)
Definition mount_device (m : mntent) : option (Z * Z) :=
  if (mnt_type m =s? "nfs") || negb (has_prefix (mnt_fsname m) "/") then None
  else match st_rdev (mnt_fsname m) with
       | Some (major, minor) => if major =? 0 then None else Some (major, minor)
       | None => Some (if mnt_dir m =s? "/" then default (0, 0) root_dev else (0, 0))
       end.

Definition mounted_from (m : mntent) (devt : Z * Z) (d : HalDevice) : bool :=
  if devt.1 =? 0 then bool_decide (get_str d "block.device" = Some (mnt_fsname m))
  else
    let majornum := u32 (get_int d "block.major") in
    let minornum := u32 (get_int d "block.minor") in
    negb (majornum =? 0) && (majornum =? devt.1) && (minornum =? devt.2).

Definition set_mounted (m : mntent) : dev unit :=
  set_bool "volume.is_mounted" true ;;;
  set_bool "volume.is_mounted_read_only" (is_read_only m) ;;;
  set_str "volume.mount_point" (mnt_dir m) ;;; dret tt.
Definition set_unmounted : dev unit :=
  set_bool "volume.is_mounted" false ;;;
  set_bool "volume.is_mounted_read_only" false ;;;
  set_str "volume.mount_point" "" ;;; dret tt.

Definition atomically (id : nat) (m : dev unit) : xm unit :=
  xh atomic_update_begin ;@ xh (dev_op id m) ;@ xh (atomic_update_end connected).

(** The first volume that an entry is about. *)
Definition first_mounted (heap : gmap nat HalDevice) (m : mntent) (volumes : list nat) : option nat :=
  devt ← mount_device m;
  List.find (fun id => match heap !! id with Some d => mounted_from m devt d | None => false end) volumes.

Fixpoint delete_link (id : nat) (l : list nat) : list nat :=
  match l with [] => [] | x :: rest => if decide (x = id) then rest else x :: delete_link id rest end.

(** The volumes that no entry is about. *)
Fixpoint mounts_loop (l : list mntent) (volumes : list nat) : xm (list nat) :=
  match l with
  | [] => xret volumes
  | m :: rest =>
      let@ heap := xget (fun s => e_heap (h_env (lx_hald s))) in
      match first_mounted heap m volumes with
      | Some id => atomically id (set_mounted m) ;@ mounts_loop rest (delete_link id volumes)
      | None => mounts_loop rest volumes
      end
  end.

Fixpoint unmounted_loop (volumes : list nat) : xm unit :=
  match volumes with
  | [] => xret tt
  | id :: rest =>
      let@ d := the_device id in
      let@ busy := xget (fun s => device_is_executing_method (lx_hald s) (udi d) "org.freedesktop.Hal.Device.Volume" "Unmount") in
      (if busy : bool then xret tt
       else
         let mount_point := default "" (get_str d "volume.mount_point") in
         atomically id set_unmounted ;@
         if negb (mount_point =s? "") && hal_util_is_mounted_by_hald fopen mount_point
         then xact [RunCleanup (udi d) mount_point] else xret tt) ;@
      unmounted_loop rest
  end.

(** [None]: all volumes. *)
Definition blockdev_refresh_mount_state (d : option nat) : xm unit :=
  match proc_mounts with
  | None => xret tt
  | Some mounts =>
      let@ volumes := xget (fun s => let env := h_env (lx_hald s) in
        match d with Some id => [id] | None => collect (has_string "info.category" "volume") (e_heap env) (gdl env) [] end) in
      let@ others := mounts_loop mounts volumes in
      unmounted_loop others
  end.

(** *** Events that are made *)
Definition fakevolume_path (sysfs_path : option string) : string :=
  snprintf HAL_PATH_MAX (or_null sysfs_path +:+ "/fakevolume").

Definition generate_fakevolume_hotplug_event_add_for_storage_device (d : HalDevice) : xm unit :=
  xqueue (fun st => hotplug_event_enqueue
    (mk_event (fresh_event st) HOTPLUG_ACTION_ADD HOTPLUG_EVENT_SYSFS_BLOCK false "block"
       (fakevolume_path (get_str d "linux.sysfs_path")) "" 0 false (strlcpy HAL_PATH_MAX (get_str d "block.device")) "" 0 no_udev) st).

Definition fakevolume_of (path : option string) : xm (option HalDevice) :=
  xget (fun s => let env := h_env (lx_hald s) in at_sysfs_path env (fakevolume_path path) ≫= fun id => e_heap env !! id).

(** *** Probing *)
Definition discard_device (id token : nat) : xm unit := xh (tdl_remove id ;^ free_device id) ;@ end_event token.

Definition add_blockdev_probing_helper_done (d : option nat) (exit_type return_code : Z) (token : nat) : xm unit :=
  match d with
  | None => end_event token
  | Some id =>
      let@ d := the_device id in
      let is_volume := hal_device_property_get_bool d "block.is_volume" in
      if negb (exit_type =? HALD_RUN_SUCCESS) || negb ((return_code =? 0) || (negb is_volume && (return_code =? 2)))
      then discard_device id token
      else
        let@ e := xget (fun s => h_env (lx_hald s)) in
        match blockdev_compute_udi (computed_udi udi_fuel e) d with
        | inl f => xfault f
        | inr (false, _) => discard_device id token
        | inr (true, d') =>
            xh (put_device id d') ;@
            (if is_volume then blockdev_refresh_mount_state (Some id)
             else xh (dev_op id (copy_own "info.udi" "block.storage_device")) ;@ xret tt) ;@
            xh (merge_rules id DEVICE_INFO_TYPE_INFORMATION ;^ merge_rules id DEVICE_INFO_TYPE_POLICY) ;@
            let@ d'' := the_device id in
            with_callouts_of id "info.callouts.add" "add" (AfterAdd id token) (blockdev_callouts_add_done id token) ;@
            if negb is_volume && (return_code =? 2)
            then generate_fakevolume_hotplug_event_add_for_storage_device d'' else xret tt
        end
  end.

Definition run_block_prober (id : nat) (prober : string) (token : nat) : xm unit :=
  let@ d := the_device id in
  if runner_connected then let@ n := wait_for (AfterBlockProbe id token) in xact [RunProber n (udi d) prober]
  else add_blockdev_probing_helper_done (Some id) HALD_RUN_FAILED 0 token.

Definition ignored_block (id token : nat) : xm unit :=
  xh (dev_op id ignore_device ;^ tdl_remove id ;^ gdl_add id) ;@ end_event token.

Definition blockdev_callouts_preprobing_storage_done (id token : nat) : xm unit :=
  let@ d := the_device id in
  if hal_device_property_get_bool d "info.ignore" then ignored_block id token
  else if negb (hal_device_property_get_bool d "storage.media_check_enabled") &&
          hal_device_property_get_bool d "storage.no_partitions_hint" then
    match get_str d "storage.bus", get_str d "storage.drive_type" with
    | None, _ => xfault NullPointer
    | Some bus, type =>
        if bus =s? "platform" then
          match type with
          | None => xfault NullPointer
          | Some type =>
              if type =s? "floppy" then run_block_prober id "hald-probe-pc-floppy" token
              else add_blockdev_probing_helper_done (Some id) HALD_RUN_SUCCESS 0 token
          end
        else add_blockdev_probing_helper_done (Some id) HALD_RUN_SUCCESS 0 token
    end
  else run_block_prober id "hald-probe-storage" token.

Definition blockdev_callouts_preprobing_volume_done (id token : nat) : xm unit :=
  let@ d := the_device id in
  if hal_device_property_get_bool d "info.ignore" then ignored_block id token
  else run_block_prober id "hald-probe-volume" token.

(** *** Adding *)
Definition start_block (volume : bool) (id token : nat) : xm unit :=
  xh (tdl_add id ;^ merge_rules id DEVICE_INFO_TYPE_PREPROBE) ;@
  with_callouts_of id "info.callouts.preprobe" "preprobe" (AfterBlockPreprobe volume id token)
    (if volume then blockdev_callouts_preprobing_volume_done id token
     else blockdev_callouts_preprobing_storage_done id token).

(** The new device, and whether it is a volume; the timers are for a RAID array. *)
Definition run_block_add (ev : HotplugEvent) (is_partition : bool) (k : block_kind) (parent : option HalDevice)
  : xm (option (nat * bool)) :=
  let@ e := xget (fun s => h_env (lx_hald s)) in
  let@ g := xget lx_globals in
  match build_blockdev e ev is_partition walk_fuel k parent (mk_building no_device (temp_device_counter e) g [] 0) with
  | inl f => xfault f
  | inr (built, b) =>
      xact (replicate (b_timers b) (StartMdPoll (sysfs_path_real k))) ;@
      match built with
      | None =>
          xh (hmod (set_env (mk_env (e_heap e) (gdl e) (tdl e) (callouts e) (b_counter b) (e_log e)))) ;@ xret None
      | Some volume =>
          let id := fresh_id e in
          xh (hmod (set_env (mk_env (<[id := b_dev b]> (e_heap e)) (gdl e) (tdl e) (callouts e) (b_counter b) (e_log e)))) ;@
          xret (Some (id, volume))
      end
  end.

Definition hotplug_event_begin_add_blockdev (ev : HotplugEvent) (is_partition : bool) (parent : option nat) : xm unit :=
  let@ e := xget (fun s => h_env (lx_hald s)) in
  let parent := parent ≫= fun id => e_heap e !! id in
  if match parent with Some p => hal_device_property_get_bool p "info.ignore" | None => false end then end_event (ev_id ev)
  else
    match kind_of_event ev with
    | None => xfault NullPointer
    | Some k =>
        if at_sysfs_path e (sysfs_path ev) then end_event (ev_id ev)
        else
          let@ built := run_block_add ev is_partition k parent in
          match built with
          | None => end_event (ev_id ev)
          | Some (id, volume) => start_block volume id (ev_id ev)
          end
    end.

(** *** Removing *)
Definition force_unmount_cb (id token : nat) : xm unit :=
  with_callouts_of id "info.callouts.remove" "remove" (AfterRemove id token) (blockdev_callouts_remove_done id token).

(** FALSE when the volume was not mounted by the daemon. *)
Definition force_unmount (id token : nat) : xm bool :=
  let@ d := the_device id in
  let mount_point := default "" (get_str d "volume.mount_point") in
  if negb (mount_point =s? "") && hal_util_is_mounted_by_hald fopen mount_point then
    (if runner_connected then let@ n := wait_for (AfterUnmount id token) in xact [RunUnmount n (udi d)]
     else force_unmount_cb id token) ;@ xret true
  else xret false.

Definition hotplug_event_begin_remove_blockdev (ev : HotplugEvent) : xm unit :=
  let@ id := xget (fun s => at_sysfs_path (h_env (lx_hald s)) (sysfs_path ev)) in
  match id with
  | None => end_event (ev_id ev)
  | Some id =>
      let@ fakevolume := fakevolume_of (Some (sysfs_path ev)) in
      match fakevolume with
      | Some d =>
          xqueue (fun st =>
            let fake := blockdev_generate_remove_hotplug_event (fresh_event st) d in
            hotplug_event_reposted (ev_id ev) (hotplug_event_enqueue_at_front fake (hotplug_event_enqueue_at_front ev st)))
      | None =>
          let@ d := the_device id in
          let remove := force_unmount_cb id (ev_id ev) in
          if hal_device_property_get_bool d "volume.is_mounted" then
            let@ unmounts := force_unmount id (ev_id ev) in
            if unmounts : bool then xret tt else remove
          else remove
      end
  end.

(** *** Media *)
Definition block_rescan_storage_done (d : option nat) (exit_type return_code : Z) : xm unit :=
  match d with
  | None => xret tt
  | Some id =>
      let@ d := the_device id in
      let@ fakevolume := fakevolume_of (get_str d "linux.sysfs_path") in
      match fakevolume with
      | None => if return_code =? 2 then generate_fakevolume_hotplug_event_add_for_storage_device d else xret tt
      | Some fake =>
          if return_code =? 2 then xret tt
          else xqueue (fun st => hotplug_event_enqueue (blockdev_generate_remove_hotplug_event (fresh_event st) fake) st)
      end
  end.

Definition blockdev_rescan_device (id : nat) : xm bool :=
  let@ d := the_device id in
  if hal_device_property_get_bool d "block.is_volume" then xret false
  else
    (if runner_connected then
       let@ n := wait_for (AfterMediaCheck id) in xact [RunProber n (udi d) "hald-probe-storage --only-check-for-media"]
     else block_rescan_storage_done (Some id) HALD_RUN_FAILED 0) ;@ xret true.

Definition hotplug_event_refresh_blockdev (ev : HotplugEvent) (id : nat) : xm unit :=
  let@ d := the_device id in
  (if hal_device_property_get_bool d "storage.removable.support_async_notification"
   then blockdev_rescan_device id else xret true) ;@
  end_event (ev_id ev).

(** *** Software RAID over time *)

(** The device of an array, in the global list or else in the temporary one. *)
Definition raid_device (e : env) (path : string) : option nat :=
  match find_device (has_string "storage.linux_raid.sysfs_path" path) (e_heap e) (gdl e) with
  | Some id => Some id
  | None => find_device (has_string "storage.linux_raid.sysfs_path" path) (e_heap e) (tdl e)
  end.

Definition refresh_md_device (id : nat) : xm unit :=
  let@ d := the_device id in
  let@ e := xget (fun s => h_env (lx_hald s)) in
  match refresh_md_state e d with
  | inl f => xfault f
  | inr r => xh (dev_op id (raid_op r)) ;@ xact (match raid_timer r with Some path => [StartMdPoll path] | None => [] end)
  end.

(** FALSE: the timer runs once. *)
Definition md_check_sync_timeout (path : string) : xm bool :=
  let@ id := xget (fun s => raid_device (h_env (lx_hald s)) path) in
  (match id with Some id => refresh_md_device id | None => xret tt end) ;@ xret false.

(** The arrays that /proc/mdstat lists, the last line first. *)
Definition read_md_devs (lines : list string) : list string :=
  reverse (omap (fun line => match sscanf [Lit "md"; Dec; Space; Lit ":"] line with
                             | [num] => Some ("/sys/block/md" +:+ pretty num)
                             | _ => None
                             end) lines).

(** udev is asked up to eight times. *)
Fixpoint ask_udev (left_tries attempt : nat) (path : string) : option string :=
  match udevadm path attempt with
  | Some device_file => Some device_file
  | None => match left_tries with O => None | S n => ask_udev n (S attempt) path end
  end.
Definition udev_get_device_file (path : string) : option string := ask_udev 7 0 path.

Definition md_event (action : HotplugActionType) (path device_file : string) (st : hotplug) : hotplug :=
  hotplug_event_enqueue
    (mk_event (fresh_event st) action HOTPLUG_EVENT_SYSFS_BLOCK false "block" (snprintf HAL_PATH_MAX path) "" 0 false
       (snprintf HAL_PATH_MAX device_file) "" 0 no_udev) st.

Definition listed_in (l : list string) (path : string) : bool := existsb (fun p => p =s? path) l.

(** New arrays are put in front of the list, those that are gone are taken out of
    it; an array without a device file is left as it is. *)
Fixpoint md_added (read md_devs : list string) : xm (list string) :=
  match read with
  | [] => xret md_devs
  | path :: rest =>
      if listed_in md_devs path then md_added rest md_devs
      else
        match udev_get_device_file path with
        | None => md_added rest md_devs
        | Some device_file => xqueue (md_event HOTPLUG_ACTION_ADD path device_file) ;@ md_added rest (path :: md_devs)
        end
  end.

Fixpoint md_removed (md_devs read : list string) : xm (list string) :=
  match md_devs with
  | [] => xret []
  | path :: rest =>
      if listed_in read path then let@ rest := md_removed rest read in xret (path :: rest)
      else
        match udev_get_device_file path with
        | None => let@ rest := md_removed rest read in xret (path :: rest)
        | Some device_file => xqueue (md_event HOTPLUG_ACTION_REMOVE path device_file) ;@ md_removed rest read
        end
  end.

Fixpoint refresh_arrays (md_devs : list string) : xm unit :=
  match md_devs with
  | [] => xret tt
  | path :: rest =>
      let@ id := xget (fun s => raid_device (h_env (lx_hald s)) path) in
      (match id with Some id => refresh_md_device id | None => xret tt end) ;@ refresh_arrays rest
  end.

(** The list of arrays afterwards.  [process_queue]: [hotplug_event_process_queue]. *)
Definition blockdev_process_mdstat (process_queue : xm unit) (md_devs : list string) : xm (list string) :=
  match mdstat with
  | None => xret md_devs
  | Some lines =>
      let read := read_md_devs lines in
      let@ md_devs := md_added read md_devs in
      let@ md_devs := md_removed md_devs read in
      refresh_arrays md_devs ;@ process_queue ;@ xret md_devs
  end.

(** *** Events and answers of disks *)
Definition begin_block (e : HotplugEvent) (c : handler_call) : xm unit :=
  match c with
  | AddBlockdev is_partition =>
      let@ env := xget (fun s => h_env (lx_hald s)) in
      hotplug_event_begin_add_blockdev e is_partition
        (fst <$> hal_util_find_known_parent (at_sysfs_path env) (sysfs_path e))
  | RemoveBlockdev => hotplug_event_begin_remove_blockdev e
  | RefreshBlockdev _ =>
      let@ env := xget (fun s => h_env (lx_hald s)) in
      match at_sysfs_path env (sysfs_path e) with
      | Some id => hotplug_event_refresh_blockdev e id
      | None => end_event (ev_id e)
      end
  | _ => end_event (ev_id e)
  end.

Definition finish_block (n : nat) (exit_type return_code : Z) : xm unit :=
  let@ k := xget (fun s => lx_pending s !! n) in
  match k with
  | Some (AfterBlockPreprobe true id token) => taking_up n (blockdev_callouts_preprobing_volume_done id token)
  | Some (AfterBlockPreprobe false id token) => taking_up n (blockdev_callouts_preprobing_storage_done id token)
  | Some (AfterBlockProbe id token) => taking_up n (add_blockdev_probing_helper_done (Some id) exit_type return_code token)
  | Some (AfterUnmount id token) => taking_up n (force_unmount_cb id token)
  | Some (AfterMediaCheck id) => taking_up n (block_rescan_storage_done (Some id) exit_type return_code)
  | _ => xret tt
  end.
End Blockdev.
