(* ===== verification/Acpi.v ===== *)
(** * Power management objects of ACPI ([hald/linux/acpi.c])

    Batteries, processors, fans, buttons, adapters and laptop panels that the
    kernel shows under /proc/acpi.  An event builds the device from the files of
    the object; the device then goes the way of others, without a prober.  Other
    devices are refreshed on the way: the adapter refreshes all batteries, a
    battery the adapters.

    The functions work on devices in the heap, so that they serve a new device
    and one that is known alike.  Directories are read through [BlockFiles]. *)

From Stdlib Require Import ZArith Lia Ascii SpecFloat.
From stdpp Require Import base list gmap strings option pretty fin_maps.
From S2P Require Import Prelude CStd Property Device DeviceStore FdiRules FdiInterp AccessCheck Bus Partutil Util Dbus DbusManager Power Hotplug LinuxSysfs LinuxBuses LinuxPower LinuxSound LinuxDevice Blockdev.

(** The names that [g_dir_read_name] gives. *)
Definition g_dir_names {BF : BlockFiles} (path : string) : option (list string) :=
  List.filter (fun f => negb ((f =s? ".") || (f =s? ".."))) <$> readdir path.

(** ** What the three kinds of power management share *)
Section PowerObjects.
Context {P : Platform} {G : GText} {SF : Sysfs}.
Context (property_order : HalDevice -> list string).
Context (connected initialising : bool).
Context (hald_runner_start hald_runner_start_singleton : string -> bool).
Context (stack : list ascii) (rules : cache) (depth udi_fuel : nat) (cur_time : Z).

#[local] Notation dev_op := (dev_op connected initialising).
#[local] Notation gdl_add := (gdl_add connected initialising property_order hald_runner_start hald_runner_start_singleton).
#[local] Notation gdl_remove := (gdl_remove connected initialising property_order).
#[local] Notation merge_rules := (merge_rules connected initialising stack rules depth).

Definition on_dev {A} (id : nat) (m : dev A) : xm A := xh (dev_op id m).

(** A search in a file, with the buffers of the daemon. *)
Definition xgrep {A} (f : grep_state -> option (A * grep_state)) : xm A :=
  let@ g := xget lx_globals in
  match f (grep_buffers g) with
  | None => xfault Overrun
  | Some (x, st) => xglobals (set_grep st g) ;@ xret x
  end.
Definition grep_onto (id : nat) (f : grep_state -> option (dev bool * grep_state)) : xm bool :=
  let@ m := xgrep f in on_dev id m.

Definition set_string_elem (id : nat) (key path file linestart : string) (elem : Z) (reuse : bool) : xm bool :=
  grep_onto id (hal_util_set_string_elem_from_file fopen key path (Some file) linestart elem reuse).
Definition set_int_elem (id : nat) (key path file linestart : string) (elem base : Z) (reuse : bool) : xm bool :=
  grep_onto id (hal_util_set_int_elem_from_file fopen key path (Some file) linestart elem base reuse).
Definition set_bool_elem (id : nat) (key path file linestart : string) (elem : Z) (expected : string) (reuse : bool) : xm bool :=
  grep_onto id (hal_util_set_bool_elem_from_file fopen key path (Some file) linestart elem expected reuse).

Definition discard_grep : xm unit :=
  let@ g := xget lx_globals in xglobals (set_grep (hal_util_grep_discard_existing_data (grep_buffers g)) g).
Definition in_update (m : xm unit) : xm unit := xh atomic_update_begin ;@ m ;@ xh (atomic_update_end connected).

Fixpoint for_each (f : nat -> xm unit) (l : list nat) : xm unit :=
  match l with [] => xret tt | id :: rest => f id ;@ for_each f rest end.
(** The devices of the global list with a string. *)
Definition gdl_with (key value : string) : xm (list nat) :=
  xget (fun s => let e := h_env (lx_hald s) in collect (has_string key value) (e_heap e) (gdl e) []).
Definition the_computer : xm (option nat) := xget (fun s => env_find (h_env (lx_hald s)) COMPUTER).

Definition pm_abstract_props (id : nat) : xm unit :=
  let@ e := xget (fun s => h_env (lx_hald s)) in on_dev id (device_pm_abstract_props e).
Definition pm_calculate_time (id : nat) : xm unit :=
  let@ g := xget lx_globals in
  let@ saved := on_dev id (device_pm_calculate_time cur_time (saved_batteries g)) in
  let@ g := xget lx_globals in xglobals (set_saved saved g).

(** *** Events that are made *)
Definition enqueue_object (kind : HotplugEventType) (action : HotplugActionType) (path : string) (type : Z) : xm unit :=
  xqueue (fun st => hotplug_event_enqueue
    (mk_event (fresh_event st) action kind false "" "" "" 0 false "" (snprintf HAL_PATH_MAX path) type no_udev) st).

(** *** Handlers *)
Record power_handler := mk_power_handler {
  ph_type : Z;
  ph_add : string -> option HalDevice -> xm (option nat);
  ph_compute_udi : (string -> option string) -> HalDevice -> lx_fault + (bool * HalDevice);
  ph_refresh : nat -> bool -> xm bool;
}.

(** [hal_device_new] *)
Definition new_object : xm nat :=
  let@ e := xget (fun s => h_env (lx_hald s)) in
  let '(d, c) := hal_device_new (temp_device_counter e) in
  let id := fresh_id e in
  xh (hmod (set_env (mk_env (<[id := d]> (e_heap e)) (gdl e) (tdl e) (callouts e) c (e_log e)))) ;@ xret id.

(** The end of the functions [add] of the three files. *)
Definition generic_add (kind : string) (type : Z) (refresh : nat -> xm bool) (path : string) (parent : option HalDevice)
  : xm (option nat) :=
  let@ id := new_object in
  on_dev id (set_str ("linux." +:+ kind +:+ "_path") path ;;;
             set_int ("linux." +:+ kind +:+ "_type") type ;;;
             set_str "info.parent" (match parent with Some p => udi p | None => COMPUTER end)) ;@
  let@ ok := refresh id in
  if ok : bool then xret (Some id) else xh (free_device id) ;@ xret None.

(** The first handler of a type: a device is added, with [commit] at the end. *)
Definition begin_add_object (handlers : list power_handler) (hotplug_type : Z) (commit : nat -> xm unit)
    (path : string) (type : Z) (parent : option HalDevice) (token : nat) : xm unit :=
  match List.find (fun h => ph_type h =? type) handlers with
  | None => end_event token
  | Some h =>
      let@ d := ph_add h path parent in
      match d with
      | None => end_event token
      | Some id =>
          on_dev id (set_int "linux.hotplug_type" hotplug_type) ;@
          xh (tdl_add id) ;@
          let@ d := the_device id in
          let@ e := xget (fun s => h_env (lx_hald s)) in
          match ph_compute_udi h (computed_udi udi_fuel e) d with
          | inl f => xfault f
          | inr (false, _) => xh (tdl_remove id) ;@ end_event token
          | inr (true, d) =>
              xh (put_device id d ;^
                  merge_rules id DEVICE_INFO_TYPE_INFORMATION ;^
                  merge_rules id DEVICE_INFO_TYPE_POLICY) ;@
              commit id
          end
      end
  end.

(** The device with a path is taken away by a handler of the type. *)
Definition begin_remove_object (handlers : list power_handler) (kind : string) (remove : nat -> xm unit)
    (path : string) (type : Z) (token : nat) : xm unit :=
  let@ d := xget (fun s => let e := h_env (lx_hald s) in
                           find_device (has_string ("linux." +:+ kind +:+ "_path") path) (e_heap e) (gdl e)) in
  match d with
  | None => end_event token
  | Some id => if existsb (fun h => ph_type h =? type) handlers then remove id else end_event token
  end.

Definition rescan_object (handlers : list power_handler) (kind : string) (otherwise : bool) (id : nat) : xm bool :=
  let@ d := the_device id in
  match List.find (fun h => ph_type h =? get_int d ("linux." +:+ kind +:+ "_type")) handlers with
  | Some h => ph_refresh h id true
  | None => xret otherwise
  end.
End PowerObjects.

(** ** ACPI *)
Definition ACPI_TYPE_BATTERY : Z := 0.
Definition ACPI_TYPE_PROCESSOR : Z := 1.
Definition ACPI_TYPE_FAN : Z := 2.
Definition ACPI_TYPE_AC_ADAPTER : Z := 3.
Definition ACPI_TYPE_TOSHIBA_DISPLAY : Z := 4.
Definition ACPI_TYPE_ASUS_DISPLAY : Z := 5.
Definition ACPI_TYPE_IBM_DISPLAY : Z := 6.
Definition ACPI_TYPE_PANASONIC_DISPLAY : Z := 7.
Definition ACPI_TYPE_SONY_DISPLAY : Z := 8.
Definition ACPI_TYPE_OMNIBOOK_DISPLAY : Z := 9.
Definition ACPI_TYPE_SONYPI_DISPLAY : Z := 10.
Definition ACPI_TYPE_BUTTON : Z := 11.

(** [get_processor_model_name]: from the line of the processor on; a processor
    without a model name sends the loop behind the end of the lines. *)
Fixpoint model_name_from (lines : list string) : option string :=
  match lines with
  | [] => None
  | line :: rest =>
      if strstr line ("model name" +:+ String "009" ":")
      then (fun p : string * string => g_strstrip (str_drop 1 p.2)) <$> split_at_first line ":"
      else model_name_from rest
  end.
Fixpoint processor_model (proc_num : Z) (lines : list string) : lx_fault + option string :=
  match lines with
  | [] => inr None
  | line :: rest =>
      if strstr line ("processor" +:+ String "009" ":") then
        match split_at_first line ":" with
        | Some (_, cursor) =>
            if atoi (str_drop 1 cursor) =? proc_num then
              match model_name_from lines with Some name => inr (Some name) | None => inl Overrun end
            else processor_model proc_num rest
        | None => processor_model proc_num rest
        end
      else processor_model proc_num rest
  end.
Definition get_processor_model_name {P : Platform} {SF : Sysfs} (proc_num : Z) : lx_fault + option string :=
  match fopen "/proc/cpuinfo" with
  | None => inr None
  | Some contents => processor_model proc_num (g_strsplit contents (String "010" "") 0)
  end.

Section Acpi.
Context {P : Platform} {G : GText} {SF : Sysfs} {BF : BlockFiles}.
Context (property_order : HalDevice -> list string).
Context (connected initialising : bool).
Context (hald_runner_start hald_runner_start_singleton : string -> bool).
Context (stack : list ascii) (rules : cache) (depth udi_fuel : nat) (cur_time : Z).

#[local] Notation gdl_add := (gdl_add connected initialising property_order hald_runner_start hald_runner_start_singleton).
#[local] Notation gdl_remove := (gdl_remove connected initialising property_order).
#[local] Notation on_dev := (on_dev connected initialising).
#[local] Notation set_string_elem := (set_string_elem connected initialising).
#[local] Notation set_int_elem := (set_int_elem connected initialising).
#[local] Notation set_bool_elem := (set_bool_elem connected initialising).
#[local] Notation in_update := (in_update connected).
#[local] Notation pm_abstract_props := (pm_abstract_props connected initialising).
#[local] Notation pm_calculate_time := (pm_calculate_time connected initialising cur_time).

(** The path of the object, if the device has one. *)
Definition with_path {A} (id : nat) (none : A) (k : string -> xm A) : xm A :=
  let@ d := the_device id in
  match get_str d "linux.acpi_path" with Some path => k path | None => xret none end.

(** *** Refreshing *)
Definition ac_adapter_refresh_poll (id : nat) : xm unit :=
  with_path id tt (fun path =>
    set_bool_elem id "ac_adapter.present" path "state" "state" 0 "on-line" false ;@ xret tt).

(** A number from the file, or zero. *)
Definition int_elem_or_zero (id : nat) (key path linestart : string) : xm unit :=
  let@ ok := set_int_elem id key path "state" linestart 0 10 true in
  if ok : bool then xret tt else on_dev id (set_int key 0) ;@ xret tt.

Definition battery_refresh_poll (id : nat) : xm unit :=
  with_path id tt (fun path =>
    set_bool_elem id "battery.rechargeable.is_charging" path "state" "charging state" 0 "charging" true ;@
    set_bool_elem id "battery.rechargeable.is_discharging" path "state" "charging state" 0 "discharging" true ;@
    set_string_elem id "battery.charge_level.capacity_state" path "state" "capacity state" 0 true ;@
    int_elem_or_zero id "battery.reporting.current" path "remaining capacity" ;@
    int_elem_or_zero id "battery.reporting.rate" path "present rate" ;@
    set_int_elem id "battery.voltage.current" path "state" "present voltage" 0 10 true ;@
    pm_abstract_props id ;@
    on_dev id device_pm_calculate_percentage ;@
    pm_calculate_time id).

(** The devices of a kind, each in an atomic update of its own. *)
Definition poll_devices (key value : string) (applies : HalDevice -> bool) (refresh : nat -> xm unit) : xm unit :=
  let@ devices := gdl_with key value in
  for_each (fun id =>
    let@ d := the_device id in
    if hal_device_has_property d "linux.acpi_type" && applies d then discard_grep ;@ in_update (refresh id) else xret tt) devices.

Definition is_present (d : HalDevice) : bool := hal_device_property_get_bool d "battery.present".

(** The polls go on (TRUE). *)
Definition battery_poll_infrequently : xm bool :=
  poll_devices "battery.type" "primary" is_present (fun id =>
    with_path id tt (fun path =>
      set_int_elem id "battery.reporting.last_full" path "info" "last full capacity" 0 10 true ;@ xret tt)) ;@
  xret true.
Definition acpi_poll_battery : xm bool :=
  poll_devices "battery.type" "primary" is_present battery_refresh_poll ;@ xret true.
Definition acpi_poll_acadap : xm bool :=
  poll_devices "info.category" "ac_adapter" (fun _ => true) ac_adapter_refresh_poll ;@ xret true.
Definition acpi_poll : xm bool := acpi_poll_acadap ;@ acpi_poll_battery ;@ xret true.

Definition acpi_ac_adapter_refresh (id : nat) (force_full_refresh : bool) : xm bool :=
  with_path id false (fun path =>
    in_update (
      let@ d := the_device id in
      (if hal_device_has_capability d "ac_adapter" then xret tt
       else on_dev id (set_str "info.product" "AC Adapter" ;;; set_str "info.category" "ac_adapter" ;;; add_cap "ac_adapter")) ;@
      ac_adapter_refresh_poll id) ;@
    battery_poll_infrequently ;@
    acpi_poll_battery ;@
    xret true).

(** What does not change, with the capacities in mWh. *)
Definition scaled_capacities (d : HalDevice) : dev unit :=
  let unit_is u := bool_decide (get_str d "battery.reporting.unit" = Some u) in
  let voltage_design := get_int d "battery.voltage.design" in
  let voltage := if voltage_design <=? 0 then 1000 else voltage_design in
  let level reported charged :=
    set_int ("battery.charge_level." +:+ charged)
      (let x := get_int d ("battery.reporting." +:+ reported) in if unit_is "mAh" then to_mWh voltage x else x) in
  level "design" "design" ;;; level "warning" "warning" ;;; level "low" "low" ;;;
  level "granularity_1" "granularity_1" ;;; level "granularity_2" "granularity_2" ;;;
  set_str "battery.charge_level.unit" (if unit_is "mAh" || unit_is "mWh" then "mWh" else "unknown") ;;; dret tt.

Definition info_string (id : nat) (path key linestart : string) (elem : Z) : xm bool :=
  set_string_elem id key path "info" linestart elem true.
Definition info_int (id : nat) (path key linestart : string) : xm bool :=
  set_int_elem id key path "info" linestart 0 10 true.

Definition battery_refresh_add (id : nat) (path : string) : xm bool :=
  info_string id path "battery.vendor" "OEM info" 0 ;@
  info_string id path "battery.model" "model number" G_MAXUINT ;@
  info_string id path "battery.serial" "serial number" 0 ;@
  info_string id path "battery.vendor" "OEM info" 0 ;@
  let@ technology := xgrep (hal_util_grep_string_elem_from_file fopen path (Some "info") "battery type" 0 true) in
  (match technology with
   | Some technology =>
       on_dev id (set_str "battery.reporting.technology" technology ;;;
                  set_str "battery.technology" (util_get_battery_technology (Some technology)) ;;; dret tt)
   | None => xret tt
   end) ;@
  info_string id path "battery.reporting.unit" "design capacity" 1 ;@
  info_int id path "battery.reporting.last_full" "last full capacity" ;@
  info_int id path "battery.reporting.design" "design capacity" ;@
  info_int id path "battery.reporting.warning" "design capacity warning" ;@
  info_int id path "battery.reporting.low" "design capacity low" ;@
  info_int id path "battery.reporting.granularity_1" "capacity granularity 1" ;@
  info_int id path "battery.reporting.granularity_2" "capacity granularity 2" ;@
  info_string id path "battery.voltage.unit" "design voltage" 1 ;@
  info_int id path "battery.voltage.design" "design voltage" ;@
  let@ d := the_device id in
  on_dev id (scaled_capacities d) ;@
  let@ alarm := set_int_elem id "battery.alarm.design" path "alarm" "alarm" 0 10 true in
  (if alarm : bool then set_string_elem id "battery.alarm.unit" path "alarm" "alarm" 1 true else xret true) ;@
  on_dev id (set_bool "battery.is_rechargeable" true) ;@
  pm_abstract_props id ;@
  xret true.

Definition acpi_battery_refresh (id : nat) (force_full_refresh : bool) : xm bool :=
  with_path id false (fun path =>
    on_dev id (set_str "info.product" "Battery Bay" ;;;
               set_str "battery.type" "primary" ;;;
               set_str "info.category" "battery" ;;;
               add_cap "battery") ;@
    discard_grep ;@
    set_bool_elem id "battery.present" path "state" "present" 0 "yes" true ;@
    let@ d := the_device id in
    (if is_present d then
       in_update (
         (if force_full_refresh || negb (hal_device_has_property d "battery.vendor")
          then battery_refresh_add id path else xret true) ;@
         battery_refresh_poll id) ;@
       acpi_poll_acadap ;@ xret tt
     else in_update (on_dev id device_pm_remove_optional_props)) ;@
    xret true).

Definition processor_refresh (id : nat) (force_full_refresh : bool) : xm bool :=
  with_path id false (fun path =>
    let@ proc_num := xgrep (hal_util_grep_int_elem_from_file fopen path (Some "info") "processor id" 0 10 false) in
    match get_processor_model_name proc_num with
    | inl f => xfault f
    | inr model_name =>
        on_dev id (set_str "info.product" (default "Unknown Processor" model_name) ;;;
                   set_str "info.category" "processor" ;;;
                   add_cap "processor") ;@
        set_int_elem id "processor.number" path "info" "processor id" 0 10 false ;@
        set_bool_elem id "processor.can_throttle" path "info" "throttling control" 0 "yes" false ;@
        xret true
    end).

Definition fan_refresh (id : nat) (force_full_refresh : bool) : xm bool :=
  with_path id false (fun path =>
    on_dev id (set_str "info.product" "Fan" ;;; set_str "info.category" "fan" ;;; add_cap "fan") ;@
    set_bool_elem id "fan.enabled" path "state" "status" 0 "on" false ;@
    xret true).

(** The method, the name and the steps of a panel; the number of steps of an
    Omnibook is in a file. *)
Definition panel_kind (acpi_type : Z) : xm (string * string * Z) :=
  if acpi_type =? ACPI_TYPE_TOSHIBA_DISPLAY then xret ("toshiba", "Toshiba LCD Panel", 8)
  else if acpi_type =? ACPI_TYPE_ASUS_DISPLAY then xret ("asus", "ASUS LCD Panel", 16)
  else if acpi_type =? ACPI_TYPE_IBM_DISPLAY then xret ("ibm", "IBM LCD Panel", 8)
  else if acpi_type =? ACPI_TYPE_PANASONIC_DISPLAY then xret ("panasonic", "Panasonic LCD Panel", 16)
  else if acpi_type =? ACPI_TYPE_SONY_DISPLAY then xret ("sony", "Sony LCD Panel", 8)
  else if acpi_type =? ACPI_TYPE_OMNIBOOK_DISPLAY then
    let@ proc_lcd := xgrep (hal_util_grep_file fopen "/proc/omnibook" (Some "lcd") "LCD brightness:" false) in
    match proc_lcd with
    | None => xfault NullPointer
    | Some proc_lcd =>
        xret ("omnibook", "Omnibook LCD Panel",
          match sscanf [Dec; Space; Lit "(max"; Space; Lit "value:"; Space; Dec] (g_strstrip proc_lcd) with
          | [_; max] => s32 (max + 1)
          | _ => 11
          end)
    end
  else if acpi_type =? ACPI_TYPE_SONYPI_DISPLAY then xret ("sonypi", "Sony LCD Panel", 256)
  else xret ("unknown", "Unknown LCD Panel", 0).

Definition has_backlight : xm bool :=
  xget (fun s => bool_decide (is_Some (find_in_gdl (h_env (lx_hald s)) "/org/freedesktop/Hal/devices/computer_backlight"))).

Definition acpi_laptop_panel_refresh (id : nat) (force_full_refresh : bool) : xm bool :=
  let@ backlight := has_backlight in
  if backlight : bool then xret false
  else with_path id false (fun path =>
    let@ d := the_device id in
    on_dev id (set_str "info.category" "laptop_panel") ;@
    let@ kind := panel_kind (get_int d "linux.acpi_type") in
    let '(type, desc, br_levels) := kind in
    on_dev id (set_str "info.product" desc ;;;
               set_str "laptop_panel.access_method" type ;;;
               set_int "laptop_panel.num_levels" br_levels ;;;
               add_cap "laptop_panel") ;@
    xret true).

(** The directory that a button is in; [None]: a path without a slash. *)
Definition button_type_of (path : string) : option string := hal_util_get_last_element <$> hal_util_get_parent_path path.

Definition button_name (button_type : string) : dev unit :=
  let named name := set_str "info.product" name ;;; dret tt in
  if button_type =s? "power" then named "Power Button"
  else if button_type =s? "lid" then named "Lid Switch"
  else if button_type =s? "sleep" then named "Sleep Button"
  else dret tt.

Definition button_refresh (id : nat) (force_full_refresh : bool) : xm bool :=
  with_path id false (fun path =>
    match button_type_of path with
    | None => xfault Overrun
    | Some button_type =>
        on_dev id (set_str "button.type" button_type ;;;
                   button_name button_type ;;;
                   set_str "info.category" "button" ;;;
                   add_cap "button") ;@
        let@ has_state := set_bool_elem id "button.state.value" path "state" "state" 0 "closed" false in
        on_dev id (set_bool "button.has_state" has_state) ;@
        xret true
    end).

(** *** What is there when the daemon starts *)
Definition acpi_synthesize_item (fullpath : string) (acpi_type : Z) : xm unit :=
  enqueue_object HOTPLUG_EVENT_ACPI HOTPLUG_ACTION_ADD fullpath acpi_type.

(** Whether an object shows that the machine is a laptop. *)
Definition shows_laptop (g : globals) (path : string) (acpi_type : Z) : bool :=
  if acpi_type =? ACPI_TYPE_BATTERY then true
  else if acpi_type =? ACPI_TYPE_BUTTON then path =s? "/proc/acpi/button/lid"
  else have_sysfs_lid_button g.

Definition mark_laptop : xm unit :=
  let@ computer := the_computer in
  match computer with
  | Some id => on_dev id (set_str "system.formfactor" "laptop") ;@ xret tt
  | None => xret tt
  end.

Fixpoint synthesize_each (path : string) (acpi_type : Z) (synthesize : bool) (names : list string) : xm unit :=
  match names with
  | [] => xret tt
  | f :: rest =>
      let@ g := xget lx_globals in
      (if shows_laptop g path acpi_type then mark_laptop else xret tt) ;@
      (if synthesize then acpi_synthesize_item (snprintf HAL_PATH_MAX (path +:+ "/" +:+ f)) acpi_type else xret tt) ;@
      synthesize_each path acpi_type synthesize rest
  end.
Definition acpi_synthesize (path : string) (acpi_type : Z) (synthesize : bool) : xm unit :=
  match g_dir_names path with
  | None => xret tt
  | Some names => synthesize_each path acpi_type synthesize names
  end.

Definition acpi_synthesize_display (vendor display : string) (method : Z) : xm unit :=
  let path := snprintf HAL_PATH_MAX ("/proc/" +:+ vendor +:+ "/" +:+ display) in
  if stat_ok path then acpi_synthesize_item path method else xret tt.

Definition sonypi_irq_list : list string := ["11"; "10"; "9"; "6"; "5"].
Definition sonypi_path (irq : string) : string := "/proc/irq/" +:+ irq +:+ "/sonypi".
Definition acpi_synthesize_sonypi_display : xm unit :=
  if stat_ok "/proc/acpi/sony/brightness" then xret tt
  else match List.find is_dir (sonypi_path <$> sonypi_irq_list) with
       | None => xret tt
       | Some path => acpi_synthesize_item path ACPI_TYPE_SONYPI_DISPLAY
       end.

Definition acpi_version (computer : nat) : xm unit :=
  let key := "power_management.acpi.linux.version" in
  if stat_ok "/proc/acpi/info" then set_string_elem computer key "/proc/acpi" "info" "version" 0 false ;@ xret tt
  else
    let@ ok := on_dev computer (str_file key "/sys/module/acpi/parameters" "acpica_version") in
    if ok : bool then xret tt else set_string_elem computer key "/sys/firmware/acpi" "info" "version" 0 false ;@ xret tt.

Definition acpi_synthesize_hotplug_events : xm bool :=
  if negb (is_dir "/proc/acpi/") then xret false
  else
    let@ computer := the_computer in
    match computer with
    | None => xret true
    | Some id =>
        on_dev id (set_str "power_management.type" "acpi") ;@
        acpi_version id ;@
        acpi_synthesize "/proc/acpi/battery" ACPI_TYPE_BATTERY true ;@
        acpi_synthesize "/proc/acpi/processor" ACPI_TYPE_PROCESSOR true ;@
        acpi_synthesize "/proc/acpi/fan" ACPI_TYPE_FAN true ;@
        acpi_synthesize "/proc/acpi/ac_adapter" ACPI_TYPE_AC_ADAPTER true ;@
        acpi_synthesize "/proc/acpi/button/lid" ACPI_TYPE_BUTTON true ;@
        acpi_synthesize "/proc/acpi/button/power" ACPI_TYPE_BUTTON true ;@
        acpi_synthesize "/proc/acpi/button/sleep" ACPI_TYPE_BUTTON true ;@
        acpi_synthesize_display "acpi/toshiba" "lcd" ACPI_TYPE_TOSHIBA_DISPLAY ;@
        acpi_synthesize_display "acpi/asus" "brn" ACPI_TYPE_ASUS_DISPLAY ;@
        acpi_synthesize_display "acpi/pcc" "brightness" ACPI_TYPE_PANASONIC_DISPLAY ;@
        acpi_synthesize_display "acpi/ibm" "brightness" ACPI_TYPE_IBM_DISPLAY ;@
        acpi_synthesize_display "acpi/sony" "brightness" ACPI_TYPE_SONY_DISPLAY ;@
        acpi_synthesize_display "omnibook" "lcd" ACPI_TYPE_OMNIBOOK_DISPLAY ;@
        acpi_synthesize_sonypi_display ;@
        xact [StartAcpiPoll; StartSlowBatteryPoll] ;@
        xret true
    end.

Definition acpi_check_is_laptop (acpi_type : string) : xm unit :=
  if acpi_type =s? "BATTERY" then acpi_synthesize "/proc/acpi/battery" ACPI_TYPE_BATTERY false
  else if acpi_type =s? "LID" then acpi_synthesize "/proc/acpi/button/lid" ACPI_TYPE_BUTTON false
  else xret tt.

(** *** Handlers *)
Definition acpi_generic_add (type : Z) (refresh : nat -> bool -> xm bool) (acpi_path : string) (parent : option HalDevice)
  : xm (option nat) :=
  let@ g := xget lx_globals in
  if ((type =? ACPI_TYPE_BATTERY) || (type =? ACPI_TYPE_AC_ADAPTER)) && have_sysfs_power_supply g then xret None
  else generic_add connected initialising "acpi" type (fun id => refresh id false) acpi_path parent.

Definition acpi_button_add (type : Z) (refresh : nat -> bool -> xm bool) (acpi_path : string) (parent : option HalDevice)
  : xm (option nat) :=
  match button_type_of acpi_path with
  | None => xfault Overrun
  | Some button_type =>
      let@ g := xget lx_globals in
      if ((button_type =s? "lid") && have_sysfs_lid_button g) ||
         ((button_type =s? "power") && have_sysfs_power_button g) ||
         ((button_type =s? "sleep") && have_sysfs_sleep_button g) then xret None
      else acpi_generic_add type refresh acpi_path parent
  end.

Definition acpi_generic_compute_udi (compute : string -> option string) : HalDevice -> lx_fault + (bool * HalDevice) :=
  udi_from compute (fun d => (fun name => DEVICES +:+ "acpi_" +:+ name) <$> last_element (get_str d "linux.acpi_path")).

Definition acpi_handler (type : Z) (refresh : nat -> bool -> xm bool) : power_handler :=
  mk_power_handler type (acpi_generic_add type refresh) acpi_generic_compute_udi refresh.
Definition acpidev_handler_battery := acpi_handler ACPI_TYPE_BATTERY acpi_battery_refresh.
Definition acpidev_handler_processor := acpi_handler ACPI_TYPE_PROCESSOR processor_refresh.
Definition acpidev_handler_fan := acpi_handler ACPI_TYPE_FAN fan_refresh.
Definition acpidev_handler_laptop_panel_toshiba := acpi_handler ACPI_TYPE_TOSHIBA_DISPLAY acpi_laptop_panel_refresh.
Definition acpidev_handler_laptop_panel_asus := acpi_handler ACPI_TYPE_ASUS_DISPLAY acpi_laptop_panel_refresh.
Definition acpidev_handler_laptop_panel_panasonic := acpi_handler ACPI_TYPE_PANASONIC_DISPLAY acpi_laptop_panel_refresh.
Definition acpidev_handler_laptop_panel_ibm := acpi_handler ACPI_TYPE_IBM_DISPLAY acpi_laptop_panel_refresh.
Definition acpidev_handler_laptop_panel_sony := acpi_handler ACPI_TYPE_SONY_DISPLAY acpi_laptop_panel_refresh.
Definition acpidev_handler_laptop_panel_omnibook := acpi_handler ACPI_TYPE_OMNIBOOK_DISPLAY acpi_laptop_panel_refresh.
Definition acpidev_handler_laptop_panel_sonypi := acpi_handler ACPI_TYPE_SONYPI_DISPLAY acpi_laptop_panel_refresh.
Definition acpidev_handler_button : power_handler :=
  mk_power_handler ACPI_TYPE_BUTTON (acpi_button_add ACPI_TYPE_BUTTON button_refresh) acpi_generic_compute_udi button_refresh.
Definition acpidev_handler_ac_adapter := acpi_handler ACPI_TYPE_AC_ADAPTER acpi_ac_adapter_refresh.
Definition acpi_handlers : list power_handler :=
  [acpidev_handler_battery; acpidev_handler_processor; acpidev_handler_fan; acpidev_handler_button; acpidev_handler_ac_adapter;
   acpidev_handler_laptop_panel_toshiba; acpidev_handler_laptop_panel_ibm; acpidev_handler_laptop_panel_panasonic;
   acpidev_handler_laptop_panel_asus; acpidev_handler_laptop_panel_sony; acpidev_handler_laptop_panel_omnibook;
   acpidev_handler_laptop_panel_sonypi].

(** *** Events *)
Definition acpi_callouts_add_done (id token : nat) : xm unit := xh (tdl_remove id ;^ gdl_add id) ;@ end_event token.
(** The device leaves the list; its memory is not released. *)
Definition acpi_callouts_remove_done (id token : nat) : xm unit := xh (gdl_remove id) ;@ end_event token.

Definition hotplug_event_begin_add_acpi (acpi_path : string) (acpi_type : Z) (parent : option HalDevice) (token : nat) : xm unit :=
  begin_add_object connected initialising stack rules depth udi_fuel acpi_handlers 4
    (fun id => with_callouts_of id "info.callouts.add" "add" (AfterAdd id token) (acpi_callouts_add_done id token))
    acpi_path acpi_type parent token.
Definition hotplug_event_begin_remove_acpi (acpi_path : string) (acpi_type : Z) (token : nat) : xm unit :=
  begin_remove_object acpi_handlers "acpi"
    (fun id => with_callouts_of id "info.callouts.remove" "remove" (AfterPowerRemove id token) (acpi_callouts_remove_done id token))
    acpi_path acpi_type token.
Definition acpi_rescan_device (id : nat) : xm bool := rescan_object acpi_handlers "acpi" true id.
End Acpi.
