(* ===== verification/ApmPmu.v ===== *)
(** * Power management objects of APM and PMU ([hald/linux/apm.c], [hald/linux/pmu.c])

    The battery and the adapter of /proc/apm; the batteries, the adapter, the lid
    and the panel of an Apple machine under /proc/pmu.  Devices are added without
    callouts.

    [read_from_apm] may store only a part of the values, and its result is not
    looked at: the rest is what the stack held ([uninit]). *)

From Stdlib Require Import ZArith Lia Ascii SpecFloat.
From stdpp Require Import base list gmap strings option pretty fin_maps.
From S2P Require Import Prelude CStd Property Device DeviceStore FdiRules FdiInterp AccessCheck Bus Partutil Util Dbus DbusManager Power Hotplug LinuxSysfs LinuxBuses LinuxPower LinuxDevice Blockdev Acpi.

(** ** The values of /proc/apm *)
Record APMInfo := mk_apm {
  driver_version : string;
  version_major : Z; version_minor : Z; apm_flags : Z; ac_line_status : Z; battery_status : Z; battery_flags : Z;
  battery_percentage : Z; battery_time : Z;
}.

(** A word, as [%s] reads it. *)
Definition scan_word (s : string) : option (string * string) :=
  match span isspace (skip_space s) with
  | (EmptyString, _) => None
  | (w, rest) => Some (w, rest)
  end.

Definition apm_format : list directive :=
  [Dec; Lit "."; Dec; Hex; Hex; Hex; Hex; Dec; Lit "%"; Dec].

(** [stale]: the first byte of a buffer that is not written. *)
Definition read_from_apm {P : Platform} {SF : Sysfs} (stale : string) (apm_file : string) : APMInfo :=
  let '(word, values) :=
    match hal_util_get_string_from_file fopen "" apm_file ≫= scan_word with
    | Some (w, rest) => (w, sscanf apm_format rest)
    | None => (stale, [])
    end in
  let value i name := default (uninit name) (values !! i) in
  mk_apm word (value 0%nat "version_major") (value 1%nat "version_minor") (value 2%nat "flags") (value 3%nat "ac_line_status")
    (value 4%nat "battery_status") (value 5%nat "battery_flags") (value 6%nat "battery_percentage") (value 7%nat "battery_time").

Definition BATTERY_CHARGING : Z := 3.
Definition APM_TYPE_BATTERY : Z := 0.
Definition APM_TYPE_AC_ADAPTER : Z := 1.
Definition PMU_TYPE_BATTERY : Z := 0.
Definition PMU_TYPE_AC_ADAPTER : Z := 1.
Definition PMU_TYPE_LID_BUTTON : Z := 2.
Definition PMU_TYPE_LAPTOP_PANEL : Z := 3.

Definition set_round (n : Z) (g : globals) : globals :=
  mk_globals (have_sysfs_lid_button g) (have_sysfs_power_button g) (have_sysfs_sleep_button g)
             (have_sysfs_power_supply g) (battery_poll_running g) (saved_batteries g) (grep_buffers g) n.

Section ApmPmu.
Context {P : Platform} {G : GText} {SF : Sysfs} {BF : BlockFiles}.
Context (stale : string).
Context (property_order : HalDevice -> list string).
Context (connected initialising : bool).
Context (hald_runner_start hald_runner_start_singleton : string -> bool).
Context (stack : list ascii) (rules : cache) (depth udi_fuel : nat) (cur_time : Z).

#[local] Notation gdl_add := (gdl_add connected initialising property_order hald_runner_start hald_runner_start_singleton).
#[local] Notation gdl_remove := (gdl_remove connected initialising property_order).
#[local] Notation on_dev := (on_dev connected initialising).
#[local] Notation set_int_elem := (set_int_elem connected initialising).
#[local] Notation set_bool_elem := (set_bool_elem connected initialising).
#[local] Notation in_update := (in_update connected).
#[local] Notation generic_add := (generic_add connected initialising).
#[local] Notation begin_add_object := (begin_add_object connected initialising stack rules depth udi_fuel).

(** A device moves to the global list at once, and is removed at once. *)
Definition commit_object (token id : nat) : xm unit := xh (tdl_remove id ;^ gdl_add id) ;@ end_event token.
Definition remove_object (token id : nat) : xm unit := xh (gdl_remove id) ;@ end_event token.

(** ** APM *)
Definition laptop_by_battery : xm unit :=
  let@ computer := the_computer in
  match computer with
  | None => xret tt
  | Some id =>
      let@ d := the_device id in
      if negb (hal_device_has_property d "system.formfactor") then on_dev id (set_str "system.formfactor" "laptop") ;@ xret tt
      else match get_str d "system.formfactor" with
           | None => xfault NullPointer
           | Some formfactor => if formfactor =s? "laptop" then xret tt
                                else on_dev id (set_str "system.formfactor" "laptop") ;@ xret tt
           end
  end.

Definition no_apm_battery : dev unit :=
  remove_each ["battery.is_rechargeable"; "battery.rechargeable.is_charging"; "battery.rechargeable.is_discharging";
               "battery.charge_level.unit"; "battery.charge_level.current"; "battery.charge_level.last_full";
               "battery.charge_level.design"; "battery.charge_level.percentage"; "battery.remaining_time"] ;;;
  set_bool "battery.present" false ;;; dret tt.

(** The time is set when the battery begins to discharge, and then in every
    sixteenth round. *)
Definition set_remaining_time (id : nat) (remaining_time : Z) (is_charging is_discharging : bool) : xm unit :=
  let@ d := the_device id in
  let@ g := xget lx_globals in
  let set := on_dev id (set_int "battery.remaining_time" remaining_time) ;@ xglobals (set_round 0 g) in
  if 0 <? remaining_time then
    if negb is_charging && is_discharging && negb (hal_device_has_property d "battery.remaining_time") then set
    else if interval_poll_round g =? 15 then set
    else xglobals (set_round (s32 (interval_poll_round g + 1)) g)
  else on_dev id (hal_device_property_remove "battery.remaining_time") ;@ xret tt.

Definition apm_battery_state (id : nat) (i : APMInfo) : xm unit :=
  let is_charging := battery_status i =? BATTERY_CHARGING in
  let is_discharging := negb is_charging && (ac_line_status i =? 0) in
  let remaining_time := if is_charging then 0 else s32 (battery_time i * 60) in
  on_dev id (set_bool "battery.is_rechargeable" true ;;;
             set_bool "battery.present" true ;;;
             set_int "battery.charge_level.current" (battery_percentage i) ;;;
             set_str "battery.charge_level.unit" "percent" ;;;
             set_int "battery.charge_level.design" 100 ;;;
             set_int "battery.charge_level.last_full" 100) ;@
  set_remaining_time id remaining_time is_charging is_discharging ;@
  on_dev id (set_bool "battery.rechargeable.is_charging" is_charging ;;;
             set_bool "battery.rechargeable.is_discharging" is_discharging ;;;
             if (0 <=? battery_percentage i) && (battery_percentage i <=? 100)
             then set_int "battery.charge_level.percentage" (battery_percentage i)
             else hal_device_property_remove "battery.charge_level.percentage") ;@
  xret tt.

(** Whether the values tell of a battery; [0xff] is read as an [int]. *)
Definition has_apm_battery (i : APMInfo) : bool :=
  negb ((battery_percentage i <? 0) || has_prefix (driver_version i) "B" || (battery_status i =? 0xff)).

Definition apm_battery_refresh (id : nat) (full : bool) : xm bool :=
  let@ d := the_device id in
  match get_str d "linux.apm_path" with
  | None => xret false
  | Some path =>
      on_dev id (set_str "info.product" "Battery Bay" ;;;
                 set_str "battery.type" "primary" ;;;
                 set_str "battery.technology" "unknown" ;;;
                 set_str "info.category" "battery" ;;;
                 add_cap "battery") ;@
      let i := read_from_apm stale path in
      (if has_apm_battery i then laptop_by_battery ;@ in_update (apm_battery_state id i)
       else in_update (on_dev id no_apm_battery)) ;@
      xret true
  end.

Definition apm_ac_adapter_refresh (id : nat) (full : bool) : xm bool :=
  let@ d := the_device id in
  match get_str d "linux.apm_path" with
  | None => xret false
  | Some path =>
      on_dev id (set_str "info.product" "AC Adapter" ;;; set_str "info.category" "ac_adapter" ;;; add_cap "ac_adapter") ;@
      on_dev id (set_bool "ac_adapter.present" (negb (ac_line_status (read_from_apm stale path) =? 0))) ;@
      xret true
  end.

Definition apm_generic_add (type : Z) (refresh : nat -> bool -> xm bool) : string -> option HalDevice -> xm (option nat) :=
  generic_add "apm" type (fun id => refresh id false).

Definition apm_generic_compute_udi (type : Z) (compute : string -> option string) : HalDevice -> lx_fault + (bool * HalDevice) :=
  udi_from compute (fun d => Some (DEVICES +:+
    (if type =? APM_TYPE_BATTERY then "apm_battery"
     else if type =? APM_TYPE_AC_ADAPTER then "apm_ac_adapter"
     else "apm_" +:+ pretty (get_int d "info.category")))).

Definition apm_handler (type : Z) (refresh : nat -> bool -> xm bool) : power_handler :=
  mk_power_handler type (apm_generic_add type refresh) (apm_generic_compute_udi type) refresh.
Definition apmdev_handler_battery := apm_handler APM_TYPE_BATTERY apm_battery_refresh.
Definition apmdev_handler_ac_adapter := apm_handler APM_TYPE_AC_ADAPTER apm_ac_adapter_refresh.
Definition apm_handlers : list power_handler := [apmdev_handler_battery; apmdev_handler_ac_adapter].

Definition hotplug_event_begin_add_apm (apm_path : string) (apm_type : Z) (parent : option HalDevice) (token : nat) : xm unit :=
  begin_add_object apm_handlers 5 (commit_object token) apm_path apm_type parent token.
Definition hotplug_event_begin_remove_apm (apm_path : string) (apm_type : Z) (token : nat) : xm unit :=
  begin_remove_object apm_handlers "apm" (remove_object token) apm_path apm_type token.
Definition apm_rescan_device (id : nat) : xm bool := rescan_object apm_handlers "apm" false id.

Definition apm_poll : xm bool :=
  let@ devices := gdl_with "linux.apm_path" "/proc/apm" in
  for_each (fun id => apm_rescan_device id ;@ xret tt) devices ;@ xret true.

Definition apm_synthesize_hotplug_events : xm bool :=
  if negb (stat_ok "/proc/apm") then xret false
  else
    let@ computer := the_computer in
    match computer with
    | None => xret true
    | Some id =>
        on_dev id (set_str "power_management.type" "apm") ;@
        enqueue_object HOTPLUG_EVENT_APM HOTPLUG_ACTION_ADD "/proc/apm" APM_TYPE_BATTERY ;@
        enqueue_object HOTPLUG_EVENT_APM HOTPLUG_ACTION_ADD "/proc/apm" APM_TYPE_AC_ADAPTER ;@
        xact [StartApmPoll] ;@
        xret true
    end.

(** ** PMU *)
Definition pmu_battery_present (id : nat) (path : string) (flags : Z) : xm unit :=
  on_dev id (set_bool "battery.is_rechargeable" true ;;;
             set_bool "battery.rechargeable.is_charging" (negb (Z.land flags 2 =? 0))) ;@
  set_bool_elem id "battery.rechargeable.is_discharging" "/proc/pmu/info" "" "AC Power" 0 "0" false ;@
  set_int_elem id "battery.charge_level.current" path "" "charge" 0 10 false ;@
  set_int_elem id "battery.charge_level.last_full" path "" "max_charge" 0 10 false ;@
  set_int_elem id "battery.charge_level.design" path "" "max_charge" 0 10 false ;@
  let@ current := xgrep (hal_util_grep_int_elem_from_file fopen path (Some "") "current" 0 10 false) in
  on_dev id (set_int "battery.charge_level.rate" (if 0 <? current then current else s32 (- current))) ;@
  pm_calculate_time connected initialising cur_time id ;@
  on_dev id device_pm_calculate_percentage.

Definition pmu_battery_refresh (id : nat) (full : bool) : xm bool :=
  let@ d := the_device id in
  match get_str d "linux.pmu_path" with
  | None => xret false
  | Some path =>
      on_dev id (set_str "info.product" "Battery Bay" ;;;
                 set_str "battery.type" "primary" ;;;
                 set_str "battery.technology" "unknown" ;;;
                 set_str "info.category" "battery" ;;;
                 add_cap "battery") ;@
      let@ flags := xgrep (hal_util_grep_int_elem_from_file fopen path (Some "") "flags" 0 16 false) in
      let present := negb (Z.land flags 1 =? 0) in
      on_dev id (set_bool "battery.present" present) ;@
      in_update (if present then pmu_battery_present id path flags else on_dev id device_pm_remove_optional_props) ;@
      xret true
  end.

Definition pmu_ac_adapter_refresh (id : nat) (full : bool) : xm bool :=
  let@ d := the_device id in
  match get_str d "linux.pmu_path" with
  | None => xret false
  | Some path =>
      on_dev id (set_str "info.product" "AC Adapter" ;;; set_str "info.category" "ac_adapter" ;;; add_cap "ac_adapter") ;@
      set_bool_elem id "ac_adapter.present" path "" "AC Power" 0 "1" false ;@
      xret true
  end.

Definition lid_button_refresh (id : nat) (full : bool) : xm bool :=
  on_dev id (set_str "info.product" "Lid Switch" ;;;
             add_cap "button" ;;;
             set_str "info.category" "button" ;;;
             set_str "button.type" "lid" ;;;
             set_bool "button.has_state" true ;;;
             set_bool "button.state.value" false) ;@
  xret true.

Definition pmu_laptop_panel_refresh (id : nat) (full : bool) : xm bool :=
  let@ backlight := has_backlight in
  if backlight : bool then xret false
  else
    on_dev id (set_str "info.category" "laptop_panel" ;;;
               set_str "info.product" "Apple Laptop Panel" ;;;
               set_str "laptop_panel.access_method" "pmu" ;;;
               set_int "laptop_panel.num_levels" 15 ;;;
               add_cap "laptop_panel") ;@
    xret true.

(** TRUE: the poll goes on. *)
Definition poll_pmu_devices (key value : string) (refresh : nat -> bool -> xm bool) : xm unit :=
  let@ devices := gdl_with key value in
  for_each (fun id =>
    let@ d := the_device id in
    if hal_device_has_property d "linux.pmu_type"
    then discard_grep ;@ in_update (refresh id false ;@ xret tt) else xret tt) devices.
Definition pmu_poll : xm bool :=
  poll_pmu_devices "battery.type" "primary" pmu_battery_refresh ;@
  poll_pmu_devices "info.category" "ac_adapter" pmu_ac_adapter_refresh ;@
  xret true.

Definition pmu_synthesize_item (fullpath : string) (pmu_type : Z) : xm unit :=
  enqueue_object HOTPLUG_EVENT_PMU HOTPLUG_ACTION_ADD fullpath pmu_type.

(** The batteries among the names; whether there was one. *)
Fixpoint synthesize_bays (names : list string) : xm bool :=
  match names with
  | [] => xret false
  | f :: rest =>
      match sscanf [Lit "battery_"; Dec] f with
      | [_] => pmu_synthesize_item (snprintf HAL_PATH_MAX ("/proc/pmu/" +:+ f)) PMU_TYPE_BATTERY ;@
               synthesize_bays rest ;@ xret true
      | _ => synthesize_bays rest
      end
  end.

Definition pmu_synthesize_hotplug_events : xm bool :=
  if negb (stat_ok "/proc/pmu/info") then xret false
  else
    let@ computer := the_computer in
    match computer with
    | None => xret true
    | Some id =>
        on_dev id (set_str "power_management.type" "pmu") ;@
        pmu_synthesize_item "/proc/pmu/info" PMU_TYPE_AC_ADAPTER ;@
        let@ has_battery_bays := synthesize_bays (default [] (g_dir_names "/proc/pmu")) in
        (if has_battery_bays : bool then
           pmu_synthesize_item "/proc/pmu/info" PMU_TYPE_LID_BUTTON ;@
           pmu_synthesize_item "/proc/pmu/info" PMU_TYPE_LAPTOP_PANEL
         else xret tt) ;@
        let@ g := xget lx_globals in
        xact (if have_sysfs_power_supply g then [] else [StartPmuPoll]) ;@
        xret true
    end.

Definition pmu_generic_add (type : Z) (refresh : nat -> bool -> xm bool) (pmu_path : string) (parent : option HalDevice)
  : xm (option nat) :=
  let@ g := xget lx_globals in
  if ((type =? PMU_TYPE_BATTERY) || (type =? PMU_TYPE_AC_ADAPTER)) && have_sysfs_power_supply g then xret None
  else generic_add "pmu" type (fun id => refresh id false) pmu_path parent.

Definition pmu_generic_compute_udi (compute : string -> option string) : HalDevice -> lx_fault + (bool * HalDevice) :=
  udi_from compute (fun d =>
    (fun name => DEVICES +:+ "pmu_" +:+ name +:+ "_" +:+ pretty (get_int d "linux.pmu_type")) <$> last_element (get_str d "linux.pmu_path")).
Definition pmu_lid_compute_udi (compute : string -> option string) := udi_from compute (fun _ => Some (DEVICES +:+ "pmu_lid")).
Definition pmu_laptop_panel_compute_udi (compute : string -> option string) := udi_from compute (fun _ => Some (DEVICES +:+ "pmu_lcd")).

Definition pmu_handler (type : Z) (refresh : nat -> bool -> xm bool)
    (compute_udi : (string -> option string) -> HalDevice -> lx_fault + (bool * HalDevice)) : power_handler :=
  mk_power_handler type (pmu_generic_add type refresh) compute_udi refresh.
Definition pmudev_handler_battery := pmu_handler PMU_TYPE_BATTERY pmu_battery_refresh pmu_generic_compute_udi.
Definition pmudev_handler_ac_adapter := pmu_handler PMU_TYPE_AC_ADAPTER pmu_ac_adapter_refresh pmu_generic_compute_udi.
Definition pmudev_handler_lid_button := pmu_handler PMU_TYPE_LID_BUTTON lid_button_refresh pmu_lid_compute_udi.
Definition pmudev_handler_laptop_panel := pmu_handler PMU_TYPE_LAPTOP_PANEL pmu_laptop_panel_refresh pmu_laptop_panel_compute_udi.
Definition pmu_handlers : list power_handler :=
  [pmudev_handler_battery; pmudev_handler_ac_adapter; pmudev_handler_lid_button; pmudev_handler_laptop_panel].

Definition hotplug_event_begin_add_pmu (pmu_path : string) (pmu_type : Z) (parent : option HalDevice) (token : nat) : xm unit :=
  begin_add_object pmu_handlers 6 (commit_object token) pmu_path pmu_type parent token.
Definition hotplug_event_begin_remove_pmu (pmu_path : string) (pmu_type : Z) (token : nat) : xm unit :=
  begin_remove_object pmu_handlers "pmu" (remove_object token) pmu_path pmu_type token.
Definition pmu_rescan_device (id : nat) : xm bool := rescan_object pmu_handlers "pmu" false id.
End ApmPmu.
