(* ===== verification/LinuxQueue.v ===== *)
(** * Events meet their handlers ([hald/linux/hotplug.c])

    [Hotplug] has the queue with the handlers as a parameter; here the handlers
    are those of devices, disks and power management, which change the daemon as
    well as the queue.  An event is taken out of the queue when none before it
    stands in its way, and the handler for its kind begins it.

    Fuel: the rounds over the queue; a handler may put an event back. *)

From Stdlib Require Import ZArith Lia Ascii SpecFloat.
From stdpp Require Import base list gmap strings option pretty fin_maps.
From S2P Require Import Prelude CStd Property Device DeviceStore FdiRules FdiInterp AccessCheck Bus Partutil Util Dbus DbusManager Power Hotplug LinuxSysfs LinuxBuses LinuxPower LinuxDevice Blockdev Acpi ApmPmu.

Section LinuxQueue.
Context {P : Platform} {G : GText} {SF : Sysfs} {BF : BlockFiles}.
Context (stale : string).
Context (property_order : HalDevice -> list string) (handlers : list DevHandler).
Context (connected initialising : bool).
Context (hald_runner_start hald_runner_start_singleton : string -> bool).
Context (stack : list ascii) (rules : cache) (depth udi_fuel link_fuel walk_fuel queue_fuel : nat).
Context (runner_connected : bool) (cur_time : Z).

#[local] Notation begin_dev := (begin_dev property_order handlers connected initialising hald_runner_start
  hald_runner_start_singleton stack rules depth udi_fuel runner_connected cur_time).
#[local] Notation begin_block := (begin_block link_fuel property_order connected initialising hald_runner_start
  hald_runner_start_singleton stack rules depth udi_fuel walk_fuel runner_connected).

(** The device at a path, links and the file [range] of a disk, at a moment. *)
Definition linux_view (s : linux) : sysfs_view :=
  let e := h_env (lx_hald s) in
  mk_view (fun path => at_sysfs_path e path ≫= fun id => e_heap e !! id) readlink
          (fun path => bool_decide (is_Some (hal_util_get_int_from_file fopen path "range" 0))).

(** The call that [hotplug_event_begin] makes. *)
Definition begin_call (e : HotplugEvent) (c : handler_call) : xm unit :=
  match c with
  | AddDev | RemoveDev | RefreshDev _ | MoveDev _ => begin_dev e c
  | AddBlockdev _ | RemoveBlockdev | RefreshBlockdev _ => begin_block e c
  | AddAcpi => hotplug_event_begin_add_acpi property_order connected initialising hald_runner_start hald_runner_start_singleton
                 stack rules depth udi_fuel cur_time (ev_power_path e) (ev_power_type e) None (ev_id e)
  | RemoveAcpi => hotplug_event_begin_remove_acpi property_order connected initialising cur_time
                    (ev_power_path e) (ev_power_type e) (ev_id e)
  | AddApm => hotplug_event_begin_add_apm stale property_order connected initialising hald_runner_start hald_runner_start_singleton
                stack rules depth udi_fuel (ev_power_path e) (ev_power_type e) None (ev_id e)
  | RemoveApm => hotplug_event_begin_remove_apm stale property_order connected initialising
                   (ev_power_path e) (ev_power_type e) (ev_id e)
  | AddPmu => hotplug_event_begin_add_pmu property_order connected initialising hald_runner_start hald_runner_start_singleton
                stack rules depth udi_fuel cur_time (ev_power_path e) (ev_power_type e) None (ev_id e)
  | RemovePmu => hotplug_event_begin_remove_pmu property_order connected initialising cur_time
                   (ev_power_path e) (ev_power_type e) (ev_id e)
  | EndEvent => end_event (ev_id e)
  | NoCall => xret tt
  end.

(** The event [e0] at position [i], with its kind settled ([e]), leaves the queue. *)
Definition take_event (i : nat) (e0 e : HotplugEvent) (st : hotplug) : hotplug :=
  mk_hotplug (has_queue st) (delete i (hotplug_event_queue st)) (hotplug_event_queue_restart st)
             (hotplug_events_in_progress st ++ [e]) (processing st) (drained st) (e0 :: begun st).

Definition begin_event (i : nat) (e0 : HotplugEvent) : xm unit :=
  let@ begins := xget (fun s => hotplug_event_begin (linux_view s) e0) in
  let '(e, c) := begins in
  xqueue (take_event i e0 e) ;@ begin_call e c.

Definition may_begin (e : HotplugEvent) (st : hotplug) : bool :=
  negb (compare_events e (hotplug_event_queue st)) && negb (compare_events e (hotplug_events_in_progress st)).

Fixpoint process_events (fuel : nat) (i : nat) : xm unit :=
  match fuel with
  | O => xfault NoFuel
  | S fuel =>
      let@ st := xget lx_queue in
      match hotplug_event_queue st !! i with
      | None => xret tt
      | Some e =>
          if may_begin e st then
            begin_event i e ;@
            let@ st := xget lx_queue in
            if bool_decide (i = 0%nat) || hotplug_event_queue_restart st
            then xqueue (set_restart false) ;@ process_events fuel 0
            else process_events fuel i
          else process_events fuel (S i)
      end
  end.

Definition process_queue : xm unit :=
  let@ st := xget lx_queue in
  if negb (has_queue st) || processing st then xret tt
  else
    xqueue (set_processing true) ;@
    process_events queue_fuel 0 ;@
    xqueue (fun st => queue_now_empty (set_processing false st)).

(** ** Rescanning a device *)
Definition hotplug_rescan_device (id : nat) : xm bool :=
  let@ d := the_device id in
  let type := get_int d "linux.hotplug_type" in
  if type =? 2 then dev_rescan_device id
  else if type =? 3 then blockdev_rescan_device runner_connected id
  else if type =? 4 then acpi_rescan_device connected initialising cur_time id
  else if type =? 5 then apm_rescan_device stale connected initialising id
  else if type =? 6 then pmu_rescan_device connected initialising cur_time id
  else xret false.

(** ** Reprobing a tree: the events, then the queue *)
Definition reprobe_tree (id : nat) : xm bool :=
  let@ d := the_device id in
  let@ e := xget (fun s => h_env (lx_hald s)) in
  let@ st := xget lx_queue in
  match hotplug_reprobe_tree walk_fuel e d st with
  | None => xfault NoFuel
  | Some st => xqueue (fun _ => st) ;@ process_queue ;@ xret false
  end.

(** ** Answers for an ACPI object that is removed *)
Definition finish_power (n : nat) : xm unit :=
  let@ k := xget (fun s => lx_pending s !! n) in
  match k with
  | Some (AfterPowerRemove id token) => taking_up n (acpi_callouts_remove_done property_order connected initialising id token)
  | _ => xret tt
  end.
End LinuxQueue.
