(* ===== verification/Udev.v ===== *)
(** * Messages of udev and events at the start ([hald/linux/osspec.c], [hald/linux/coldplug.c])

    udev sends a datagram per event: a header and fields, each ended by a zero
    byte.  At the start the daemon makes the events itself: it scans sysfs, looks
    up what udev has stored about each device, and enqueues the devices in an order
    that puts parents first and mapped devices last.

    Datagrams and the output of udevadm are inputs.  A datagram that fills the
    buffer is read beyond its end, when no zero byte stops that. *)

From Stdlib Require Import ZArith Lia Ascii SpecFloat.
From stdpp Require Import base list gmap strings option pretty fin_maps.
From S2P Require Import Prelude CStd Property Device DeviceStore FdiRules FdiInterp AccessCheck Bus Partutil Util Dbus DbusManager Power Hotplug LinuxSysfs LinuxBuses LinuxDevice Blockdev.

(** ** Messages *)
Definition is_nul (c : ascii) : bool := bool_decide (c = NUL).

Definition strtoull10 (s : string) : Z := match scan_number 10 s with Some (z, _) => clamp_ulong z | None => 0 end.

(** The size of the buffer. *)
Definition UDEV_BUFFER : nat := Z.to_nat 4096.

(** What is behind a name, when the field has that name. *)
Definition field (key name : string) : option string :=
  if has_prefix key name then Some (str_drop (String.length name) key) else None.

(** A string that udev stored, into an array of the event. *)
Definition udev_string {P : Platform} (s : string) : option string := snprintf HAL_NAME_MAX <$> hal_util_strdup_valid_utf8 s.

(** The message so far: the action, and the event. *)
Record udev_message := mk_message {
  msg_action : option string;
  msg_path : string;
  msg_path_old : string;
  msg_subsystem : string;
  msg_device_file : string;
  msg_seqnum : Z;
  msg_udev : udev_info;
}.
Definition no_message : udev_message := mk_message None "" "" "" "" 0 no_udev.

Definition set_msg_udev (u : udev_info) (m : udev_message) : udev_message :=
  mk_message (msg_action m) (msg_path m) (msg_path_old m) (msg_subsystem m) (msg_device_file m) (msg_seqnum m) u.

(** The arrays that udev fills, by the names of the fields. *)
Definition udev_fields : list (string * (string -> udev_info -> udev_info)) :=
  [("ID_VENDOR=", fun s u => mk_udev s (u_model u) (u_revision u) (u_serial u) (u_fsusage u) (u_fstype u) (u_fsversion u) (u_fslabel u) (u_fsuuid u));
   ("ID_MODEL=", fun s u => mk_udev (u_vendor u) s (u_revision u) (u_serial u) (u_fsusage u) (u_fstype u) (u_fsversion u) (u_fslabel u) (u_fsuuid u));
   ("ID_REVISION=", fun s u => mk_udev (u_vendor u) (u_model u) s (u_serial u) (u_fsusage u) (u_fstype u) (u_fsversion u) (u_fslabel u) (u_fsuuid u));
   ("ID_SERIAL=", fun s u => mk_udev (u_vendor u) (u_model u) (u_revision u) s (u_fsusage u) (u_fstype u) (u_fsversion u) (u_fslabel u) (u_fsuuid u));
   ("ID_FS_USAGE=", fun s u => mk_udev (u_vendor u) (u_model u) (u_revision u) (u_serial u) s (u_fstype u) (u_fsversion u) (u_fslabel u) (u_fsuuid u));
   ("ID_FS_TYPE=", fun s u => mk_udev (u_vendor u) (u_model u) (u_revision u) (u_serial u) (u_fsusage u) s (u_fsversion u) (u_fslabel u) (u_fsuuid u));
   ("ID_FS_VERSION=", fun s u => mk_udev (u_vendor u) (u_model u) (u_revision u) (u_serial u) (u_fsusage u) (u_fstype u) s (u_fslabel u) (u_fsuuid u));
   ("ID_FS_UUID=", fun s u => mk_udev (u_vendor u) (u_model u) (u_revision u) (u_serial u) (u_fsusage u) (u_fstype u) (u_fsversion u) (u_fslabel u) s);
   ("ID_FS_LABEL=", fun s u => mk_udev (u_vendor u) (u_model u) (u_revision u) (u_serial u) (u_fsusage u) (u_fstype u) (u_fsversion u) s (u_fsuuid u))].

Fixpoint store_udev {P : Platform} (fields : list (string * (string -> udev_info -> udev_info))) (key : string) (u : udev_info) : udev_info :=
  match fields with
  | [] => u
  | (name, store) :: rest =>
      match field key name with
      | Some value => match udev_string value with Some s => store s u | None => u end
      | None => store_udev rest key u
      end
  end.

(** One field; [None]: the message is about a RAID array, and is dropped. *)
Definition store_field {P : Platform} (key : string) (m : udev_message) : option udev_message :=
  match field key "ACTION=", field key "DEVPATH=", field key "DEVPATH_OLD=", field key "SUBSYSTEM=", field key "DEVNAME=",
        field key "SEQNUM=", field key "IFINDEX=" with
  | Some v, _, _, _, _, _, _ =>
      Some (mk_message (Some v) (msg_path m) (msg_path_old m) (msg_subsystem m) (msg_device_file m) (msg_seqnum m) (msg_udev m))
  | None, Some v, _, _, _, _, _ =>
      if has_prefix v "/block/md" then None
      else Some (mk_message (msg_action m) (snprintf HAL_PATH_MAX ("/sys" +:+ v)) (msg_path_old m) (msg_subsystem m)
                            (msg_device_file m) (msg_seqnum m) (msg_udev m))
  | None, None, Some v, _, _, _, _ =>
      if has_prefix v "/block/md" then None
      else Some (mk_message (msg_action m) (msg_path m) (snprintf HAL_PATH_MAX ("/sys" +:+ v)) (msg_subsystem m)
                            (msg_device_file m) (msg_seqnum m) (msg_udev m))
  | None, None, None, Some v, _, _, _ =>
      Some (mk_message (msg_action m) (msg_path m) (msg_path_old m) (snprintf HAL_NAME_MAX v) (msg_device_file m) (msg_seqnum m) (msg_udev m))
  | None, None, None, None, Some v, _, _ =>
      Some (mk_message (msg_action m) (msg_path m) (msg_path_old m) (msg_subsystem m) (snprintf HAL_PATH_MAX v) (msg_seqnum m) (msg_udev m))
  | None, None, None, None, None, Some v, _ =>
      Some (mk_message (msg_action m) (msg_path m) (msg_path_old m) (msg_subsystem m) (msg_device_file m) (strtoull10 v) (msg_udev m))
  | None, None, None, None, None, None, Some _ => Some m
  | None, None, None, None, None, None, None => Some (set_msg_udev (store_udev udev_fields key (msg_udev m)) m)
  end.
(** The fields up to an empty one; [full]: no zero byte follows the last byte of
    the message, and the length of a field that reaches it is that of what lies
    behind the buffer. *)
Fixpoint read_fields {P : Platform} (fuel : nat) (full : bool) (s : string) (m : udev_message) : lx_fault + option udev_message :=
  match fuel, span is_nul s with
  | O, _ | _, (EmptyString, _) => inr (Some m)
  | S fuel, (key, EmptyString) => if full then inl Overrun else inr (store_field key m)
  | S fuel, (key, String _ rest) =>
      match store_field key m with None => inr None | Some m => read_fields fuel full rest m end
  end.

Definition action_of (s : string) : option HotplugActionType :=
  if s =s? "add" then Some HOTPLUG_ACTION_ADD
  else if s =s? "change" then Some HOTPLUG_ACTION_CHANGE
  else if s =s? "move" then Some HOTPLUG_ACTION_MOVE
  else if s =s? "remove" then Some HOTPLUG_ACTION_REMOVE
  else None.

Definition is_mapped (device_file : string) : bool := strstr device_file "/dm-".

(** The event, or [None] when the message is not for the daemon. *)
Definition message_event (m : udev_message) (id : nat) : option HotplugEvent :=
  action ← msg_action m;
  if (msg_path m =s? "") || (msg_subsystem m =s? "") || has_prefix (msg_device_file m) "/dev/mapper/temporary-cryptsetup-" ||
     (msg_subsystem m =s? "drivers") || (msg_subsystem m =s? "module") then None
  else
    action ← action_of action;
    Some (mk_event id action HOTPLUG_EVENT_SYSFS false (msg_subsystem m) (msg_path m) (msg_path_old m) (msg_seqnum m)
            (is_mapped (msg_device_file m)) (msg_device_file m) "" 0 (msg_udev m)).

(** What is received: the user that sent it, if that is known, and the bytes. *)
Record datagram := mk_datagram { dg_uid : option Z; dg_bytes : string }.

(** [inl]: memory behind the buffer is read. *)
Definition read_message {P : Platform} (bytes : string) : lx_fault + option udev_message :=
  let buf := str_take UDEV_BUFFER bytes in
  let full := (UDEV_BUFFER <=? String.length buf)%nat in
  let '(first, rest) := span is_nul buf in
  if strstr first "@/" then
    read_fields (String.length buf) full buf no_message
  else if full && (rest =s? "") then inl Overrun
  else inr None.

(** [None]: nothing was received.  TRUE: the watch stays. *)
Definition hald_udev_data {P : Platform} (process_queue : xm unit) (received : option datagram) : xm bool :=
  match received with
  | None => xret true
  | Some d =>
      if negb (bool_decide (dg_uid d = Some 0)) then xret true
      else
        match read_message (dg_bytes d) with
        | inl f => xfault f
        | inr None => xret true
        | inr (Some m) =>
            let@ id := xget (fun s => fresh_event (lx_queue s)) in
            match message_event m id with
            | Some e => xqueue (hotplug_event_enqueue e) ;@ process_queue ;@ xret true
            | None => xret true
            end
        end
  end.

(** ** The database of udev ([coldplug.c]) *)
Class ColdFiles := {
  (** the output of "udevadm info -r" and "udevadm info -e", when that succeeds *)
  udevadm_root : option string;
  udevadm_export : option string;
  (** [stat] succeeds and [st_mode & S_IWUSR] *)
  is_writable : string -> bool;
  lstat_ok : string -> bool;
  (** [stat] succeeds for a node of a device *)
  is_node : string -> bool;
}.

(** [i_values]: the strings, by the names of the fields in messages. *)
Record UdevInfo := mk_UdevInfo { i_sysfs_path : string; i_device_file : option string; i_values : gmap string string }.

(** The lines that are ended by a newline. *)
Fixpoint ended_lines (s cur : string) : list string :=
  match s with
  | EmptyString => []
  | String c s => if bool_decide (c = "010"%char) then String.rev cur :: ended_lines s "" else ended_lines s (String c cur)
  end.

(** A line about a device. *)
Definition export_line (line : string) (i : UdevInfo) : UdevInfo :=
  match field line "N: " with
  | Some v => mk_UdevInfo (i_sysfs_path i) (Some v) (i_values i)
  | None =>
      match List.find (fun name => has_prefix line ("E: " +:+ name)) (udev_fields.*1) with
      | Some name => mk_UdevInfo (i_sysfs_path i) (i_device_file i)
                       (<[name := str_drop (String.length ("E: " +:+ name)) line]> (i_values i))
      | None => i
      end
  end.

(** An empty line ends a device; one that is not ended so is lost. *)
Fixpoint read_export (lines : list string) (info : option UdevInfo) (m : gmap string UdevInfo) : gmap string UdevInfo :=
  match lines with
  | [] => m
  | line :: rest =>
      if line =s? "" then
        read_export rest None (match info with Some i => <["/sys" +:+ i_sysfs_path i := i]> m | None => m end)
      else match field line "P: " with
           | Some path => read_export rest (Some (mk_UdevInfo path None ∅)) m
           | None => read_export rest (export_line line <$> info) m
           end
  end.

Section Coldplug.
Context {P : Platform} {SF : Sysfs} {BF : BlockFiles} {CF : ColdFiles}.
(** [hotplug_event_process_queue] *)
Context (process_queue : xm unit).

(** The directory of nodes, and the devices; [None]: FALSE. *)
Definition hal_util_init_sysfs_to_udev_map : option (string * gmap string UdevInfo) :=
  root ← udevadm_root;
  export ← udevadm_export;
  Some ((span line_end (snprintf HAL_PATH_MAX root)).1, read_export (ended_lines export "") None ∅).

Section Events.
Context (dev_root : string) (sysfs_to_udev_map : gmap string UdevInfo).

Definition info_values (i : UdevInfo) : udev_info :=
  foldl (fun u f => match i_values i !! (f.1 : string) ≫= udev_string with Some s => f.2 s u | None => u end) no_udev udev_fields.

(** The path, the node and what udev knows of an event. *)
Definition udev_info_to_hotplug_event (i : UdevInfo) : string * string * udev_info :=
  (snprintf HAL_PATH_MAX ("/sys" +:+ i_sysfs_path i),
   match i_device_file i with Some f => snprintf HAL_PATH_MAX (dev_root +:+ "/" +:+ f) | None => "" end,
   info_values i).

(** The node that the kernel's name of a device leads to. *)
Definition kernel_node (sysfs_path : string) : string :=
  if stat_ok (snprintf HAL_PATH_MAX (sysfs_path +:+ "/dev")) then
    match strrchr sysfs_path slash with
    | None => ""
    | Some pos =>
        let path := snprintf HAL_PATH_MAX (dev_root +:+ str_drop pos sysfs_path) in
        if is_node path then path else ""
    end
  else "".

(** [type] is never stored in the list of devices, and is zero. *)
Definition coldplug_get_hotplug_event (sysfs_path subsystem : string) (seqnum : Z) (id : nat) : HotplugEvent :=
  let '(path, node, u) :=
    match sysfs_to_udev_map !! sysfs_path with
    | Some i => udev_info_to_hotplug_event i
    | None => (snprintf HAL_PATH_MAX sysfs_path, kernel_node sysfs_path, no_udev)
    end in
  mk_event id HOTPLUG_ACTION_ADD HOTPLUG_EVENT_SYSFS false (snprintf HAL_NAME_MAX subsystem) path "" seqnum (is_mapped node) node
    "" 0 u.
End Events.

(** ** Devices in sysfs *)
Record sysfs_device := mk_sysfs_device { s_path : string; s_subsystem : string }.

(** [inl]: a link that leads nowhere leaves a path NULL, which the comparison reads;
    [None]: no device. *)
Definition device_list_insert (path subsystem : string) : lx_fault + option sysfs_device :=
  if negb (is_writable (snprintf HAL_PATH_MAX (path +:+ "/uevent"))) || negb (lstat_ok path) then inr None
  else if is_symlink path then
    match readlink path with
    | None => inr None
    | Some target =>
        let '(_, directory) := hal_util_path_ascend (snprintf HAL_PATH_MAX path) in
        match hal_util_get_normalized_path directory target with
        | Some (Some path) => inr (Some (mk_sysfs_device path subsystem))
        | Some None => inl NullPointer
        | None => inl Overrun
        end
    end
  else inr (Some (mk_sysfs_device path subsystem)).

(** The names in a directory that are looked at. *)
Definition entries (directory : string) : list string :=
  List.filter (fun name => negb (has_prefix name ".")) (default [] (readdir directory)).

(** The devices of a list of paths. *)
Fixpoint insert_all (l : list (string * string)) : lx_fault + list sysfs_device :=
  match l with
  | [] => inr []
  | (path, subsystem) :: rest =>
      match device_list_insert path subsystem, insert_all rest with
      | inl f, _ | _, inl f => inl f
      | inr d, inr ds => inr (match d with Some d => d :: ds | None => ds end)
      end
  end.

Definition under (directory name : string) : string := snprintf HAL_PATH_MAX (directory +:+ "/" +:+ name).

Definition bus_devices (base bus_name : string) : list (string * string) :=
  let dirname := snprintf HAL_PATH_MAX (base +:+ "/" +:+ bus_name +:+ "/devices") in
  (fun name => (under dirname name, bus_name)) <$> entries dirname.
Definition scan_single_bus (bus_name : string) : lx_fault + list sysfs_device := insert_all (bus_devices "/sys/bus" bus_name).
Definition scan_subsystem (subsys : string) : lx_fault + list sysfs_device :=
  let base := snprintf HAL_PATH_MAX ("/sys/" +:+ subsys) in
  insert_all (mjoin (bus_devices base <$> entries base)).

Definition class_devices (class : string) : list (string * string) :=
  let dirname := snprintf HAL_PATH_MAX ("/sys/class/" +:+ class) in
  (fun name => (under dirname name, class)) <$> List.filter (fun name => negb (name =s? "device")) (entries dirname).
Definition scan_class : lx_fault + list sysfs_device := insert_all (mjoin (class_devices <$> entries "/sys/class")).

(** A disk, and its partitions when it is a device. *)
Definition scan_disk (name : string) : lx_fault + list sysfs_device :=
  let dirname := snprintf HAL_PATH_MAX ("/sys/block/" +:+ name) in
  match device_list_insert dirname "block" with
  | inl f => inl f
  | inr None => inr []
  | inr (Some d) =>
      match insert_all ((fun part => (under dirname part, "block")) <$> List.filter (fun part => negb (part =s? "device")) (entries dirname)) with
      | inl f => inl f
      | inr ds => inr (d :: ds)
      end
  end.
Fixpoint scan_disks (names : list string) : lx_fault + list sysfs_device :=
  match names with
  | [] => inr []
  | name :: rest =>
      match scan_disk name, scan_disks rest with
      | inl f, _ | _, inl f => inl f
      | inr ds, inr more => inr (ds ++ more)
      end
  end.
Definition scan_block : lx_fault + list sysfs_device :=
  scan_disks (List.filter (fun name => negb (has_prefix name "md")) (entries "/sys/block")).

(** ** The order *)
Definition is_dm_path (path : string) : bool := strstr path "/dm-".
Definition device_order (dev1 dev2 : sysfs_device) : Z :=
  if is_dm_path (s_path dev2) then -1
  else if is_dm_path (s_path dev1) then 1
  else strcmp (s_path dev1) (s_path dev2).

Context (g_slist_sort : (sysfs_device -> sysfs_device -> Z) -> list sysfs_device -> list sysfs_device).

(** The events for devices, with numbers from [seqnum] on; an event has an address
    when it is allocated. *)
Fixpoint announced (root : string) (m : gmap string UdevInfo) (devices : list sysfs_device) (seqnum : Z) : list (nat -> HotplugEvent) :=
  match devices with
  | [] => []
  | d :: rest => coldplug_get_hotplug_event root m (s_path d) (s_subsystem d) seqnum :: announced root m rest (u64 (seqnum + 1))
  end.
Fixpoint enqueue_each (l : list (nat -> HotplugEvent)) : xm unit :=
  match l with
  | [] => xret tt
  | e :: rest => xqueue (fun st => hotplug_event_enqueue (e (fresh_event st)) st) ;@ process_queue ;@ enqueue_each rest
  end.
(** The number for the event after the last one. *)
Definition process_coldplug_events (root : string) (m : gmap string UdevInfo) (devices : list sysfs_device) (seqnum : Z) : xm Z :=
  enqueue_each (announced root m devices seqnum) ;@ xret (u64 (seqnum + Z.of_nat (length devices))).

Definition pass (root : string) (m : gmap string UdevInfo) (scanned : lx_fault + list sysfs_device) (seqnum : Z) : xm Z :=
  match scanned with
  | inl f => xfault f
  | inr devices => process_coldplug_events root m (g_slist_sort device_order devices) seqnum
  end.

Definition both (a b : lx_fault + list sysfs_device) : lx_fault + list sysfs_device :=
  match a, b with inl f, _ | _, inl f => inl f | inr x, inr y => inr (x ++ y) end.

(** Whether udev answered, and the arrays of disks that are known then. *)
Definition coldplug_synthesize_events (link_fuel : nat) (connected initialising : bool) : xm (bool * list string) :=
  match hal_util_init_sysfs_to_udev_map with
  | None => xret (false, [])
  | Some (root, m) =>
      if stat_ok "/sys/subsystem" then pass root m (scan_subsystem "subsystem") 0 ;@ xret (true, [])
      else
        let@ seqnum := pass root m (scan_subsystem "bus") 0 in
        let@ seqnum := pass root m (both scan_class (both (scan_single_bus "mmc") (scan_single_bus "bluetooth"))) seqnum in
        (if stat_ok "/sys/class/block" then xret seqnum else pass root m scan_block seqnum) ;@
        let@ md_devs := blockdev_process_mdstat link_fuel connected initialising process_queue [] in
        xret (true, md_devs)
  end.
End Coldplug.
