(* ===== verification/Osspec.v ===== *)
(** * The machine itself ([hald/linux/osspec.c])

    The daemon starts with the device of the machine.  It is filled from the
    kernel, from the tables of the firmware or by helpers, and stays in the
    temporary list while all other devices are announced; then it moves to the
    global list.

    A function that waits for a helper or for callouts ends with what it waits for
    ([awaited]); the answer goes to the function that is named there.  The values
    that only root may read are taken before privileges are dropped
    ([preparsed]).  Options of the build are in [os_build]; OpenFirmware and the
    tables of the firmware are built together, since each uses functions of the
    other. *)

From Stdlib Require Import ZArith Lia Ascii SpecFloat.
From stdpp Require Import base list gmap strings option pretty fin_maps.
From S2P Require Import Prelude CStd Property Device DeviceStore FdiRules FdiInterp AccessCheck Bus Partutil Util Dbus DbusManager Power Hotplug Runner LinuxSysfs LinuxBuses LinuxPower LinuxDevice Blockdev Acpi ApmPmu LinuxQueue Udev.

Class OsFiles := {
  (** [sysname], [release] and [machine], when [uname] succeeds *)
  uname : option (string * string * string);
  (** [g_file_test (path, G_FILE_TEST_IS_EXECUTABLE)] *)
  is_executable : string -> bool;
}.

Record os_build := mk_os_build { use_dmi : bool; use_pci : bool; on_arm : bool }.

Inductive awaited :=
  | PmIsSupported (id : nat)
  | Smbios (id : nat)
  | ComputerCallouts (id : nat) (programs : list string)
  | Started (id : nat).

(** ** The tables of the firmware *)
Definition DMI_SYSFS_PATH : string := "/sys/class/dmi/id".

Record preparsed := mk_preparsed { p_serial : option string; p_uuid : option string; p_board : option string; p_parsed : bool }.
Definition not_parsed : preparsed := mk_preparsed None None None false.

(** Called with FALSE, and with TRUE. *)
Definition preparse_dmi {P : Platform} {SF : Sysfs} : preparsed :=
  if stat_ok DMI_SYSFS_PATH then
    let value file := hal_util_get_string_from_file fopen DMI_SYSFS_PATH file in
    mk_preparsed (value "product_serial") (value "product_uuid") (value "board_serial") true
  else not_parsed.
Definition set_preparsed_dmi {P : Platform} {SF : Sysfs} (p : preparsed) : dev unit :=
  if stat_ok DMI_SYSFS_PATH && p_parsed p then
    hal_device_property_set_string "system.hardware.serial" (p_serial p) ;;;
    hal_device_property_set_string "system.hardware.uuid" (p_uuid p) ;;;
    hal_device_property_set_string "system.board.serial" (p_board p) ;;; dret tt
  else dret tt.

(** A missing comma joins the last two strings: the table has an odd number of
    strings before the NULL. *)
Definition chassis_map : list string :=
  ["Other"; "unknown"; "Unknown"; "unknown"; "Desktop"; "desktop"; "Low Profile Desktop"; "desktop"; "Pizza Box"; "server";
   "Mini Tower"; "desktop"; "Tower"; "desktop"; "Portable"; "laptop"; "Laptop"; "laptop"; "Notebook"; "laptop";
   "Hand Held"; "handheld"; "Docking Station"; "laptop"; "All In One"; "unknown"; "Sub Notebook"; "laptop";
   "Space-saving"; "desktop"; "Lunch Box"; "unknown"; "Main Server Chassis"; "server"; "Expansion Chassis"; "unknown";
   "Sub Chassis"; "unknown"; "Bus Expansion Chassis"; "unknown"; "Peripheral Chassis"; "unknown"; "RAID Chassis"; "unknown";
   "Rack Mount Chassis"; "unknown"; "Sealed-case PC"; "unknown"; "Multi-system"; "unknown"; "CompactPCI"; "unknonw";
   "AdvancedTCA"; "unknown"; "Blade"; "server"; "Blade Enclosureunknown"].

(** The element at an index: [inr None] is the NULL, [inl] is behind the table. *)
Definition chassis_at (i : nat) : lx_fault + option string :=
  match chassis_map !! i with
  | Some s => inr (Some s)
  | None => if bool_decide (i = length chassis_map) then inr None else inl Overrun
  end.
(** The form factor for a name, in steps of two from [i]; [inr None]: the NULL was
    reached. *)
Fixpoint chassis_search (fuel : nat) (i : nat) (name : string) : lx_fault + option (option string) :=
  match fuel with
  | O => inl NoFuel
  | S fuel =>
      match chassis_at i with
      | inl f => inl f
      | inr None => inr None
      | inr (Some s) =>
          if s =s? name then match chassis_at (S i) with inl f => inl f | inr v => inr (Some v) end
          else chassis_search fuel (S (S i)) name
      end
  end.

(** ** OpenFirmware *)
(** The strings of a file, each ended by a zero byte or by the end. *)
Fixpoint nul_strings (fuel : nat) (s : string) : list string :=
  match fuel with
  | O => []
  | S fuel => if s =s? "" then [] else cut_nul s :: nul_strings fuel (str_drop 1 (span is_nul s).2)
  end.
Definition append_each {P : Platform} (property : string) (l : list string) : dev unit :=
  foldr (fun s m => hal_device_property_strlist_append property s false ;;; m) (dret tt) l.
Definition get_openfirmware_entry {P : Platform} {SF : Sysfs} (property entry : string) (multivalue : bool) : dev unit :=
  match fopen entry with
  | None => dret tt
  | Some contents =>
      if multivalue then append_each property (nul_strings (String.length contents) contents)
      else hal_device_property_set_string property (Some (cut_nul contents)) ;;; dret tt
  end.

Definition model_formfactor : list (string * string) :=
  [("RackMac", "server"); ("AAPL,3400", "laptop"); ("AAPL,3500", "laptop"); ("PowerBook", "laptop"); ("AAPL", "desktop");
   ("iMac", "desktop"); ("PowerMac", "desktop"); ("Pegasos", "desktop")].
Definition detect_openfirmware_formfactor {P : Platform} : dev unit :=
  let* model := dget (fun d => get_str d "openfirmware.model") in
  match model with
  | None => dret tt
  | Some model =>
      match List.find (fun m : string * string => strstr model m.1) model_formfactor with
      | Some m => set_str "system.formfactor" m.2 ;;; dret tt
      | None => dret tt
      end
  end.
Definition decode_dmi_from_openfirmware {P : Platform} {SF : Sysfs} : dev bool :=
  if negb (is_dir "/proc/device-tree/") then dret false
  else
    get_openfirmware_entry "openfirmware.model" "/proc/device-tree/model" false ;;;
    get_openfirmware_entry "openfirmware.compatible" "/proc/device-tree/compatible" true ;;;
    detect_openfirmware_formfactor ;;;
    dret true.

(** ** What the kernel can do *)
Definition set_suspend_hibernate_keys {P : Platform} {SF : Sysfs} : dev unit :=
  let* pmtype := dget (fun d => get_str d "power_management.type") in
  let '(can_suspend, can_hibernate) :=
    match hal_util_get_string_from_file fopen "/sys/power/" "state" with
    | None => (false, false)
    | Some poweroptions =>
        (strstr poweroptions "mem" || bool_decide (pmtype = Some "pmu"),
         strstr poweroptions "disk" || stat_ok "/proc/software_suspend" || stat_ok "/proc/suspend2" ||
         stat_ok "/sys/power/suspend2/version")
    end in
  set_bool "power_management.can_suspend" can_suspend ;;;
  set_bool "power_management.can_suspend_hybrid" false ;;;
  set_bool "power_management.can_hibernate" can_hibernate ;;; dret tt.

(** The vendor and the product of a graphics card. *)
Definition videocard {P : Platform} {SF : Sysfs} (name : string) : option (Z * Z) :=
  let path := "/sys/bus/pci/devices/" +:+ name in
  let value file := hal_util_get_int_from_file fopen path file 0 in
  class ← value "class";
  if Z.land class 0xffff00 =? 0x030000 then
    vendor ← value "vendor"; device ← value "device"; Some (vendor, device)
  else None.
Definition get_primary_videocard {P : Platform} {SF : Sysfs} {BF : BlockFiles} (build : os_build) : dev unit :=
  if negb (use_pci build) then dret tt
  else
    match omap videocard (default [] (g_dir_names "/sys/bus/pci/devices")) with
    | [] => dret tt
    | (vendor, device) :: _ =>
        set_int "system.hardware.primary_video.vendor" vendor ;;;
        set_int "system.hardware.primary_video.product" device ;;; dret tt
    end.

(** ** OMAP boards *)
Definition is_field_separator (c : ascii) : bool := isspace c || bool_decide (c = ":"%char).
Fixpoint skip_separators (s : string) : string :=
  match s with String c r => if is_field_separator c then skip_separators r else s | EmptyString => s end.

(** [inl]: the fault; the flag: whether the line is for the function. *)
Definition setstr {P : Platform} (buf str prop : string) : dev bool :=
  match field buf str with
  | Some value => set_str prop (skip_separators value) ;;; dret true
  | None => dret false
  end.
(** A value without a separator is read beyond its end. *)
Definition setstrsplit {P : Platform} (buf str prop_a prop_b : string) : lx_fault + dev unit :=
  match field buf str with
  | None => inr (dret tt)
  | Some value =>
      match span is_field_separator (skip_separators value) with
      | (_, EmptyString) => inl Overrun
      | (value_a, String _ value_b) => inr (set_str prop_a value_a ;;; set_str prop_b value_b ;;; dret tt)
      end
  end.
Definition parse_omap_hwinfo {P : Platform} (buf : string) : lx_fault + dev unit :=
  inr (setstr buf "product" "system.hardware.product" ;;;
       setstr buf "hw-build" "system.hardware.version" ;;;
       let* nolo := setstr buf "nolo" "system.firmware.version" in
       if nolo then set_str "system.firmware.name" "NOLO" ;;; dret tt else dret tt).
Definition parse_omap_cpuinfo {P : Platform} (buf : string) : lx_fault + dev unit :=
  match setstrsplit buf "Hardware" "system.hardware.vendor" "system.firmware.product" with
  | inl f => inl f
  | inr m => inr (m ;;; setstr buf "Revision" "system.hardware.uuid" ;;; setstr buf "Serial" "system.hardware.serial" ;;; dret tt)
  end.

(** The lines that [fgets] gives. *)
Fixpoint fgets_lines (fuel n : nat) (content : string) : list string :=
  match fuel, content with
  | O, _ | _, EmptyString => []
  | S fuel, _ =>
      let '(line, rest) := span (fun c => bool_decide (c = "010"%char)) (str_take (n - 1) content) in
      let raw := line +:+ str_take 1 rest in
      cut_nul raw :: fgets_lines fuel n (str_drop (String.length raw) content)
  end.
Fixpoint parse_lines {P : Platform} (parse : string -> lx_fault + dev unit) (lines : list string) : lx_fault + dev unit :=
  match lines with
  | [] => inr (dret tt)
  | line :: rest =>
      match (if (String.length line <? 3)%nat then inr (dret tt) else parse (strip_trailing line)), parse_lines parse rest with
      | inl f, _ | _, inl f => inl f
      | inr m, inr more => inr (m ;;; more)
      end
  end.
(** [None]: the file cannot be opened. *)
Definition parse_omap_file {P : Platform} {SF : Sysfs} (filename : string) (parse : string -> lx_fault + dev unit)
  : lx_fault + option (dev unit) :=
  match fopen filename with
  | None => inr None
  | Some content =>
      match parse_lines parse (fgets_lines (String.length content) 512 content) with inl f => inl f | inr m => inr (Some m) end
  end.
Definition probe_omap {P : Platform} {SF : Sysfs} (build : os_build) : lx_fault + dev unit :=
  if negb (on_arm build) then inr (dret tt)
  else match parse_omap_file "/proc/component_version" parse_omap_hwinfo with
       | inl f => inl f
       | inr None => inr (dret tt)
       | inr (Some m) =>
           match parse_omap_file "/proc/cpuinfo" parse_omap_cpuinfo with
           | inl f => inl f
           | inr None => inr m
           | inr (Some m') => inr (m ;;; m')
           end
       end.

(** ** The way of the machine through the start *)
Section Osspec.
Context {P : Platform} {G : GText} {SF : Sysfs} {BF : BlockFiles} {CF : ColdFiles} {OF : OsFiles}.
Context (stale : string) (build : os_build).
Context (g_slist_sort : (sysfs_device -> sysfs_device -> Z) -> list sysfs_device -> list sysfs_device).
Context (property_order : HalDevice -> list string) (handlers : list DevHandler).
Context (connected initialising : bool).
Context (hald_runner_start hald_runner_start_singleton : string -> bool).
Context (stack : list ascii) (rules : cache) (depth udi_fuel link_fuel walk_fuel queue_fuel : nat).
Context (runner_connected : bool) (cur_time : Z) (dmi : preparsed).

#[local] Notation gdl_add := (gdl_add connected initialising property_order hald_runner_start hald_runner_start_singleton).
#[local] Notation merge_rules := (merge_rules connected initialising stack rules depth).
#[local] Notation on_dev := (on_dev connected initialising).
#[local] Notation process_queue := (process_queue stale property_order handlers connected initialising hald_runner_start
  hald_runner_start_singleton stack rules depth udi_fuel link_fuel walk_fuel queue_fuel runner_connected cur_time).

Definition computer_callouts_add_done (id : nat) : xm unit := xh (tdl_remove id ;^ gdl_add id).

(** Whether the start is over ([osspec_probe_done]). *)
Definition hotplug_queue_now_empty (done_synthesizing : bool) : bool := initialising && done_synthesizing.

Definition looks_like_laptop (id : nat) : xm unit :=
  let@ d := the_device id in
  let check := acpi_check_is_laptop connected initialising "BATTERY" ;@ acpi_check_is_laptop connected initialising "LID" in
  if negb (hal_device_has_property d "system.formfactor") then check
  else match get_str d "system.formfactor" with
       | None => xfault NullPointer
       | Some formfactor => if formfactor =s? "laptop" then xret tt else check
       end.

(** The events of power management: the first kind that is there. *)
Definition synthesize_power_events : xm unit :=
  let@ acpi := acpi_synthesize_hotplug_events connected initialising in
  if acpi : bool then xret tt
  else
    let@ pmu := pmu_synthesize_hotplug_events connected initialising in
    if pmu : bool then xret tt
    else apm_synthesize_hotplug_events connected initialising ;@ xret tt.

Definition computer_probing_helper_done (id : nat) : xm awaited :=
  looks_like_laptop id ;@
  let@ d := the_device id in
  (if hal_device_has_property d "system.formfactor" then xret tt
   else on_dev id (set_str "system.formfactor" "unknown") ;@ xret tt) ;@
  coldplug_synthesize_events process_queue g_slist_sort link_fuel connected initialising ;@
  synthesize_power_events ;@
  xh (merge_rules id DEVICE_INFO_TYPE_INFORMATION ;^ merge_rules id DEVICE_INFO_TYPE_POLICY) ;@
  let@ d := the_device id in
  match hal_device_property_dup_strlist_as_strv d "info.callouts.add" with
  | None => computer_callouts_add_done id ;@ xret (Started id)
  | Some programs => xret (ComputerCallouts id programs)
  end.

Definition computer_dmi_map (id : nat) (dmidecode : bool) : xm unit :=
  if negb (use_dmi build) then xret tt
  else if dmidecode then
    let@ d := the_device id in
    match get_str d "system.chassis.type" with
    | None => xret tt
    | Some chassis_type =>
        match chassis_search (S (length chassis_map)) 0 chassis_type with
        | inl f => xfault f
        | inr None => xret tt
        | inr (Some formfactor) => on_dev id (hal_device_property_set_string "system.formfactor" formfactor) ;@ xret tt
        end
    end
  else
    match hal_util_get_int_from_file fopen DMI_SYSFS_PATH "chassis_type" 10 with
    | Some chassis_type =>
        let at_ := Z.to_nat ((chassis_type - 1) * 2) in
        if (0 <? chassis_type) && (chassis_type <? 28) then
          match chassis_map !! at_, chassis_map !! S at_ with
          | Some type, Some formfactor =>
              on_dev id (set_str "system.chassis.type" type ;;; set_str "system.formfactor" formfactor) ;@ xret tt
          | _, _ => xret tt
          end
        else xret tt
    | None => on_dev id (set_str "system.chassis.type" "Unknown" ;;; set_str "system.formfactor" "unknown") ;@ xret tt
    end.

(** The name of the product, from what the helper found. *)
Definition name_product (d : HalDevice) : dev unit :=
  match get_str d "system.hardware.vendor", get_str d "system.hardware.product", get_str d "system.hardware.version" with
  | Some _, Some product, Some version =>
      set_str "system.product" (if version =s? "Not Specified" then product else snprintf 128 (product +:+ " " +:+ version)) ;;; dret tt
  | _, _, _ => dret tt
  end.

Definition computer_probing_pcbios_helper_done (id : nat) (exit_type : Z) : xm awaited :=
  (if exit_type =? HALD_RUN_FAILED then xret tt
   else
     let@ d := the_device id in
     on_dev id (name_product d) ;@
     let@ d := the_device id in
     if hal_device_has_property d "system.formfactor" then xret tt else computer_dmi_map id true) ;@
  computer_probing_helper_done id.

Definition dmi_strings : list (string * string) :=
  [("system.firmware.vendor", "bios_vendor"); ("system.firmware.version", "bios_version"); ("system.firmware.release_date", "bios_date");
   ("system.hardware.vendor", "sys_vendor"); ("system.hardware.product", "product_name"); ("system.hardware.version", "product_version");
   ("system.chassis.manufacturer", "chassis_vendor"); ("system.board.product", "board_name"); ("system.board.version", "board_version");
   ("system.board.vendor", "board_vendor")].
Definition decode_dmi_from_sysfs (id : nat) : xm bool :=
  if negb (stat_ok DMI_SYSFS_PATH) then xret false
  else
    on_dev id (set_preparsed_dmi dmi ;;;
               foldr (fun f m => str_file f.1 DMI_SYSFS_PATH f.2 ;;; m) (dret tt) dmi_strings) ;@
    computer_dmi_map id false ;@ xret true.

Definition has_dmidecode : bool :=
  existsb is_executable ["/usr/sbin/dmidecode"; "/bin/dmidecode"; "/sbin/dmidecode"; "/usr/local/sbin/dmidecode"].

Definition decode_dmi (id : nat) : xm awaited :=
  if negb (use_dmi build) then computer_probing_helper_done id
  else
    let@ from_sysfs := decode_dmi_from_sysfs id in
    let@ got := (if from_sysfs : bool then xret true else on_dev id decode_dmi_from_openfirmware) in
    if got : bool then computer_probing_helper_done id
    else if has_dmidecode then
      if runner_connected then xret (Smbios id) else computer_probing_pcbios_helper_done id HALD_RUN_FAILED
    else computer_probing_helper_done id.

Definition computer_probing_pm_is_supported_helper_done (id : nat) : xm awaited := decode_dmi id.

Definition kernel_keys : dev unit :=
  match uname with
  | None => dret tt
  | Some (sysname, release, machine) =>
      set_str "system.kernel.name" sysname ;;;
      set_str "system.kernel.version" release ;;;
      (match sscanf [Dec; Lit "."; Dec; Lit "."; Dec] release with
       | [major; minor; micro] =>
           set_int "system.kernel.version.major" major ;;;
           set_int "system.kernel.version.minor" minor ;;;
           set_int "system.kernel.version.micro" micro ;;; dret tt
       | _ => dret tt
       end) ;;;
      set_str "system.kernel.machine" machine ;;; dret tt
  end.

Definition osspec_probe : xm awaited :=
  let@ id := new_object in
  on_dev id (set_str "info.subsystem" "unknown" ;;;
             set_str "info.product" "Computer" ;;;
             hal_device_set_udi COMPUTER ;;;
             kernel_keys) ;@
  xh (tdl_add id) ;@
  on_dev id (set_suspend_hibernate_keys ;;; get_primary_videocard build) ;@
  (match probe_omap build with inl f => xfault f | inr m => on_dev id m end) ;@
  if is_executable "/usr/bin/pm-is-supported" then
    if runner_connected then xret (PmIsSupported id) else computer_probing_pm_is_supported_helper_done id
  else decode_dmi id.

(** ** Watches and requests *)
Definition G_IO_PRI : Z := 2.
Definition G_IO_ERR : Z := 8.

(** TRUE: the watch stays. *)
Definition mount_tree_changed_event (cond : Z) : xm bool :=
  (if Z.land cond (Z.lnot G_IO_ERR) =? 0
   then blockdev_refresh_mount_state connected initialising None else xret tt) ;@ xret true.
(** With the arrays of disks that are known. *)
Definition mdstat_changed_event (cond : Z) (md_devs : list string) : xm (bool * list string) :=
  if Z.land cond (Z.lnot G_IO_PRI) =? 0 then
    let@ md_devs := blockdev_process_mdstat link_fuel connected initialising process_queue md_devs in xret (true, md_devs)
  else xret (true, md_devs).
Definition osspec_refresh_mount_state_for_block_device (id : nat) : xm unit :=
  blockdev_refresh_mount_state connected initialising (Some id).
Definition osspec_device_rescan (id : nat) : xm bool :=
  hotplug_rescan_device stale connected initialising runner_connected cur_time id.
Definition osspec_device_reprobe (id : nat) : xm bool :=
  reprobe_tree stale property_order handlers connected initialising hald_runner_start hald_runner_start_singleton
    stack rules depth udi_fuel link_fuel walk_fuel queue_fuel runner_connected cur_time id.
End Osspec.
