(* ===== verification/OsspecTheory.v ===== *)
(** * The start of the machine

    How many answers the start takes, what the table of chassis types gives, and
    where the start may stop. *)

From Stdlib Require Import ZArith Lia Ascii SpecFloat.
From stdpp Require Import base list gmap strings option pretty fin_maps.
From S2P Require Import Prelude CStd Property Device DeviceStore FdiRules FdiInterp AccessCheck Bus Partutil Util Dbus DbusManager DbusTheory Power Hotplug Runner LinuxSysfs LinuxBuses LinuxPower LinuxDevice Blockdev Acpi ApmPmu LinuxQueue Udev Osspec.

(** ** Chassis types *)

(** For a type that the kernel gives as a number, the search for its name finds the same form factor. *)
Lemma chassis_numbers_and_names_agree n type formfactor : 0 < n < 28 ->
  chassis_map !! Z.to_nat ((n - 1) * 2) = Some type -> chassis_map !! S (Z.to_nat ((n - 1) * 2)) = Some formfactor ->
  chassis_search (S (length chassis_map)) 0 type = inr (Some (Some formfactor)).
Proof.
  intros Hn. set (check := fun k => match chassis_map !! (k * 2)%nat, chassis_map !! S (k * 2) with
    | Some t, Some f => match chassis_search (S (length chassis_map)) 0 t with inr (Some (Some g)) => g =s? f | _ => false end
    | _, _ => false end).
  assert (All : forallb check (seq 0 27) = true) by by vm_compute.
  rewrite forallb_forall in All. specialize (All (Z.to_nat (n - 1)) ltac:(apply in_seq; lia)).
  replace (Z.to_nat ((n - 1) * 2)) with (Z.to_nat (n - 1) * 2)%nat by lia. intros E1 E2.
  unfold check in All. rewrite E1, E2 in All.
  destruct (chassis_search _ _ _) as [|[[g|]|]]; try done. by apply bool_decide_eq_true in All as ->.
Qed.

(** The names in the table. *)
Definition chassis_names : list string := omap (fun k => chassis_map !! (k * 2)%nat) (seq 0 29).
(** A name that is not there sends the search behind the end of the table. *)
Lemma unknown_chassis_overruns name : name ∉ chassis_names -> chassis_search (S (length chassis_map)) 0 name = inl Overrun.
Proof.
  intros H. let l := eval vm_compute in chassis_names in change chassis_names with l in H. rewrite !not_elem_of_cons in H. destruct_and! H.
  change (S (length chassis_map)) with 58%nat.
  do 29 (cbn [chassis_search]; unfold chassis_at at 1; cbn [chassis_map lookup list_lookup]; rewrite bool_decide_eq_false_2 by congruence).
  done.
Qed.

(** ** Answers *)
Lemma xbind_result {A B} (m : xm A) (k : A -> xm B) s y s' t :
  xbind m k s = inr (y, s', t) -> exists x s1 t2, k x s1 = inr (y, s', t2).
Proof.
  unfold xbind. destruct (m s) as [|[[x s1] t1]]; [done|]. destruct (k x s1) as [|[[z s2] t2]] eqn:E; [done|].
  intros H. injection H as -> -> _. eauto.
Qed.
Lemma either {A} (b : bool) (m1 m2 : xm A) s r : (if b then m1 else m2) s = r -> m1 s = r \/ m2 s = r.
Proof. destruct b; auto. Qed.
Ltac last_step H := apply xbind_result in H as (? & ? & ? & H); cbn beta in H.
Ltac returned H := injection H as <- _ _; cbn; split; [first [done | lia] | first [done | lia]].

Section Answers.
Context {P : Platform} {G : GText} {SF : Sysfs} {BF : BlockFiles} {CF : ColdFiles} {OF : OsFiles}.
Context (stale : string) (build : os_build).
Context (g_slist_sort : (sysfs_device -> sysfs_device -> Z) -> list sysfs_device -> list sysfs_device).
Context (property_order : HalDevice -> list string) (handlers : list DevHandler).
Context (connected initialising : bool).
Context (hald_runner_start hald_runner_start_singleton : string -> bool).
Context (stack : list ascii) (rules : cache) (depth udi_fuel link_fuel walk_fuel queue_fuel : nat).
Context (runner_connected : bool) (cur_time : Z) (dmi : preparsed).

#[local] Notation helper_done := (computer_probing_helper_done stale g_slist_sort property_order handlers connected initialising
  hald_runner_start hald_runner_start_singleton stack rules depth udi_fuel link_fuel walk_fuel queue_fuel runner_connected cur_time).
#[local] Notation pcbios_done := (computer_probing_pcbios_helper_done stale build g_slist_sort property_order handlers connected initialising
  hald_runner_start hald_runner_start_singleton stack rules depth udi_fuel link_fuel walk_fuel queue_fuel runner_connected cur_time).
#[local] Notation decode_dmi := (decode_dmi stale build g_slist_sort property_order handlers connected initialising
  hald_runner_start hald_runner_start_singleton stack rules depth udi_fuel link_fuel walk_fuel queue_fuel runner_connected cur_time dmi).

(** The answer of a helper, or the end of the callouts. *)
Definition answer (w : awaited) (exit_type : Z) : xm awaited :=
  match w with
  | PmIsSupported id => decode_dmi id
  | Smbios id => pcbios_done id exit_type
  | ComputerCallouts id _ =>
      computer_callouts_add_done property_order connected initialising hald_runner_start hald_runner_start_singleton id ;@ xret (Started id)
  | Started id => xret (Started id)
  end.
Definition answers_left (w : awaited) : nat :=
  match w with PmIsSupported _ => 3 | Smbios _ => 2 | ComputerCallouts _ _ => 1 | Started _ => 0 end.
Definition awaits (w : awaited) : nat := match w with PmIsSupported id | Smbios id | ComputerCallouts id _ | Started id => id end.

Lemma after_helper id s w s' t : helper_done id s = inr (w, s', t) -> (answers_left w <= 1)%nat /\ awaits w = id.
Proof.
  unfold computer_probing_helper_done. intros H. repeat last_step H.
  case_match; [returned H|]. last_step H. returned H.
Qed.
Lemma after_pcbios id x s w s' t : pcbios_done id x s = inr (w, s', t) -> (answers_left w <= 1)%nat /\ awaits w = id.
Proof. unfold computer_probing_pcbios_helper_done. intros H. last_step H. by apply after_helper in H. Qed.
Lemma after_pm id s w s' t : decode_dmi id s = inr (w, s', t) -> (answers_left w <= 2)%nat /\ awaits w = id.
Proof.
  unfold Osspec.decode_dmi. destruct (negb _); [intros H%after_helper; split; [lia | apply H]|]. intros H. last_step H.
  apply xbind_result in H as (got & s2 & t2 & H). destruct got; [apply after_helper in H; split; [lia | apply H]|].
  destruct has_dmidecode; [|apply after_helper in H; split; [lia | apply H]].
  apply either in H as [H|H]; [returned H | apply after_pcbios in H; split; [lia | apply H]].
Qed.

(** Every answer brings the start nearer to its end, about the same device; it takes at most three. *)
Lemma answers_end_the_start w x s w' s' t :
  answer w x s = inr (w', s', t) -> awaits w' = awaits w /\ (answers_left w' <= pred (answers_left w))%nat.
Proof.
  destruct w as [id|id|id l|id]; cbn [answer answers_left awaits pred]; intros H.
  - apply after_pm in H. tauto.
  - apply after_pcbios in H. tauto.
  - last_step H. returned H.
  - returned H.
Qed.
End Answers.

(** ** A start without helpers

    A machine with a battery and no other devices, whose firmware is described in
    sysfs: no helper is run, and nothing processes the event of the battery.  The
    queue was never empty after all events were made, so that the start does not
    end ([hotplug_queue_now_empty]). *)
Module Quiet.
Import AsciiPlatform Example.

#[export] Instance quiet_text : GText := {|
  g_strcanon s valid sub := string_map (fun c => if strchr valid c then c else sub) s;
  g_strsplit_set s seps := [s];
  g_strchug := skip_space;
|}.
#[export] Instance quiet_files : Sysfs := {|
  fopen path := if path =s? "/sys/class/dmi/id/chassis_type" then Some "10" else None;
  readlink _ := None;
  stat_ok path := path =s? DMI_SYSFS_PATH;
  is_dir path := path =s? "/proc/acpi/";
  strtod _ := (S754_zero false, false);
  has_wireless_extensions _ := false;
  uninit _ := 0;
  pci_ids_text := "";
  usb_ids_text := "";
  ids_line_buffer := "";
|}.
#[export] Instance quiet_blocks : BlockFiles := {|
  proc_mounts := Some [];
  st_rdev _ := None;
  root_dev := None;
  is_symlink _ := false;
  readdir path := if path =s? "/proc/acpi/battery" then Some ["."; ".."; "BAT0"] else None;
  mdstat := None;
  udevadm _ _ := None;
|}.
#[export] Instance quiet_udev : ColdFiles := {|
  udevadm_root := Some "/dev";
  udevadm_export := Some "";
  is_writable _ := false;
  lstat_ok _ := false;
  is_node _ := false;
|}.
#[export] Instance quiet_machine : OsFiles := {|
  uname := Some ("Linux", "2.6.32", "i686");
  is_executable _ := false;
|}.
Definition switched_on : linux :=
  mk_linux (mk_hald (mk_daemon (mk_env ∅ [] [] [] 0 []) []) (mk_bus 0 0 []) ∅ [] ∅ ∅)
    (mk_globals false false false false false ∅ (mk_grep false (mk_grep_buffer "" "") (mk_grep_buffer "" "")) 0)
    (mk_hotplug false [] false [] false 0 []) ∅ 0.

Example start_without_helpers_does_not_end :
  match osspec_probe "" (mk_os_build true true false) (fun _ l => l) order [] false true (fun _ => true) (fun _ => true)
          [] no_rules 1 10 5 5 20 true 0 preparse_dmi switched_on with
  | inl _ => False
  | inr (w, s, _) =>
      w = Started 0 /\ (ev_power_path <$> hotplug_event_queue (lx_queue s)) = ["/proc/acpi/battery/BAT0"] /\
      hotplug_events_in_progress (lx_queue s) = [] /\ drained (lx_queue s) = 0%nat /\ lx_pending s = ∅ /\
      gdl (h_env (lx_hald s)) = [0%nat] /\
      (e_heap (h_env (lx_hald s)) !! 0%nat ≫= fun d => get_str d "system.formfactor") = Some "laptop"
  end.
Proof. vm_compute. done. Qed.
End Quiet.
