(* ===== verification/UdevMessages.v ===== *)
(** * Messages of udev arrive as they were sent

    An event of the kernel, as udev sends it: the fields may come in any order, and
    those without a value are left out. *)

From Stdlib Require Import ZArith Lia Ascii SpecFloat.
From stdpp Require Import base list gmap strings option pretty fin_maps.
From S2P Require Import Prelude CStd Property Device DeviceStore FdiRules FdiInterp AccessCheck Bus Util UtilClaims Dbus Hotplug LinuxSysfs LinuxDevice Blockdev Udev.

(** ** Numbers *)
Lemma digit_of_pretty x : digit_val (pretty_N_char (x mod 10)) = Some (Z.of_N (x mod 10)).
Proof.
  pose proof (N.mod_lt x 10 ltac:(lia)). generalize dependent (x mod 10)%N. intros d Hd.
  by destruct d as [|[[[[]|[]|]|[[]|[]|]|]|[[[]|[]|]|[[]|[]|]|]|]]; try lia.
Qed.
Lemma digits_pretty_go x s : digits 10 0 (pretty_N_go x s) = digits 10 (Z.of_N x) s.
Proof.
  revert s. induction (N.lt_wf_0 x) as [x _ IH]. intros s. destruct (decide (x = 0)%N) as [->|Hx]; [by rewrite pretty_N_go_0|].
  rewrite pretty_N_go_step, IH by (try apply N.div_lt; lia). cbn [digits]. rewrite digit_of_pretty.
  pose proof (N.mod_lt x 10 ltac:(lia)). assert ((Z.of_N (x mod 10) <? 10) = true) as -> by (apply Z.ltb_lt; lia). f_equal.
  pose proof (N.div_mod x 10 ltac:(lia)). lia.
Qed.
Lemma digits_pretty (n : Z) : 0 <= n -> digits 10 0 (pretty n) = n.
Proof.
  intros Hn. destruct n as [|p|p]; [done | | lia]. change (pretty (Z.pos p)) with (pretty (N.pos p)).
  unfold pretty, pretty_N. case_decide as Hp; [done|]. by rewrite digits_pretty_go.
Qed.
Lemma strtoull10_pretty (n : Z) : 0 <= n < 2 ^ 64 -> strtoull10 (pretty n) = n.
Proof.
  intros Hn. unfold strtoull10, scan_number.
  assert (Hd : all_chars (fun c => in_base 10 c && negb (isspace c) && negb (bool_decide (c = "-"%char) || bool_decide (c = "+"%char)))
                 (pretty n) = true).
  { apply pretty_chars; [|lia]. intros d. unfold pretty_N_char. by repeat case_match. }
  rewrite skip_space_none by (revert Hd; apply all_chars_impl; intros c; rewrite !andb_true_iff; tauto).
  assert (sign_split (pretty n) = (false, pretty n)) as ->.
  { destruct (pretty n) as [|c r]; [done|]. cbn [all_chars] in Hd. apply andb_true_iff in Hd as [Hc _].
    by destruct c as [[] [] [] [] [] [] [] []]. }
  cbn [negb]. change (10 =? 16) with false. unfold scan_digits.
  rewrite span_none by (revert Hd; apply all_chars_impl; intros c; rewrite !andb_true_iff, negb_involutive; tauto).
  pose proof (digits_pretty n ltac:(lia)) as V. destruct (pretty n) as [|c r] eqn:E.
  - cbn in V. subst n. done.
  - cbn [mbind option_bind]. rewrite V. unfold clamp_ulong.
    assert ((2 ^ 64 <=? Z.abs n) = false) as -> by (apply Z.leb_gt; lia). by apply Z.mod_small.
Qed.

(** ** Fields *)
Inductive info_key := Vendor | Model | Revision | Serial | FsUsage | FsType | FsVersion | FsUuid | FsLabel.
#[global] Instance info_key_eq_dec : EqDecision info_key.
Proof. solve_decision. Defined.
Definition info_keys : list info_key := [Vendor; Model; Revision; Serial; FsUsage; FsType; FsVersion; FsUuid; FsLabel].
Definition info_name (k : info_key) : string :=
  match k with
  | Vendor => "ID_VENDOR=" | Model => "ID_MODEL=" | Revision => "ID_REVISION=" | Serial => "ID_SERIAL="
  | FsUsage => "ID_FS_USAGE=" | FsType => "ID_FS_TYPE=" | FsVersion => "ID_FS_VERSION=" | FsUuid => "ID_FS_UUID="
  | FsLabel => "ID_FS_LABEL="
  end.
Definition info_of (k : info_key) (u : udev_info) : string :=
  match k with
  | Vendor => u_vendor u | Model => u_model u | Revision => u_revision u | Serial => u_serial u
  | FsUsage => u_fsusage u | FsType => u_fstype u | FsVersion => u_fsversion u | FsUuid => u_fsuuid u | FsLabel => u_fslabel u
  end.
Definition set_info (k : info_key) (s : string) (u : udev_info) : udev_info :=
  let new j := if decide (j = k) then s else info_of j u in
  mk_udev (new Vendor) (new Model) (new Revision) (new Serial) (new FsUsage) (new FsType) (new FsVersion) (new FsLabel) (new FsUuid).

Inductive ufield :=
  | UAction (a : string) | UPath (p : string) | UPathOld (p : string) | USubsystem (s : string) | UNode (f : string)
  | USeqnum (n : Z) | UIfindex (n : Z) | UInfo (k : info_key) (s : string).

(** The key and the value, as they are sent. *)
Definition encode (f : ufield) : string :=
  match f with
  | UAction a => "ACTION=" +:+ a
  | UPath p => "DEVPATH=" +:+ p
  | UPathOld p => "DEVPATH_OLD=" +:+ p
  | USubsystem s => "SUBSYSTEM=" +:+ s
  | UNode s => "DEVNAME=" +:+ s
  | USeqnum n => "SEQNUM=" +:+ pretty n
  | UIfindex n => "IFINDEX=" +:+ pretty n
  | UInfo k s => info_name k +:+ s
  end.

Definition no_nul (s : string) : Prop := all_chars (fun c => negb (is_nul c)) s = true.

Section Fields.
Context {P : Platform}.

(** A value that can be sent: texts end at a zero byte. *)
Definition sendable (f : ufield) : Prop :=
  match f with
  | UAction s | UPath s | UPathOld s | USubsystem s | UNode s | UInfo _ s => no_nul s
  | USeqnum n => 0 <= n < 2 ^ 64
  | UIfindex n => 0 <= n
  end.

(** A value that arrives as it is: it fits the array of the event, and is
    valid UTF-8 where the daemon looks at that. *)
Definition fits (f : ufield) : Prop :=
  match f with
  | UPath p | UPathOld p => (String.length p + 4 < HAL_PATH_MAX)%nat
  | USubsystem s => (String.length s < HAL_NAME_MAX)%nat
  | UNode s => (String.length s < HAL_PATH_MAX)%nat
  | UInfo _ s => s <> "" /\ g_utf8_validate s = None /\ (String.length s < HAL_NAME_MAX)%nat
  | UAction _ | USeqnum _ | UIfindex _ => True
  end.

(** What udev knows of the device, cut and made valid UTF-8. *)
Definition received (s : string) : string := default "" (udev_string s).
Definition clean_info (k : info_key) (s : string) (u : udev_info) : udev_info :=
  set_info k (default (info_of k u) (udev_string s)) u.

(** The daemon leaves events of md devices to /proc/mdstat. *)
Definition is_md (f : ufield) : bool :=
  match f with UPath p | UPathOld p => has_prefix p "/block/md" | _ => false end.

(** What the event holds then. *)
Definition apply_field (f : ufield) (m : udev_message) : udev_message :=
  let '(mk_message a p o s d n u) := m in
  match f with
  | UAction a => mk_message (Some a) p o s d n u
  | UPath p => mk_message a (snprintf HAL_PATH_MAX ("/sys" +:+ p)) o s d n u
  | UPathOld o => mk_message a p (snprintf HAL_PATH_MAX ("/sys" +:+ o)) s d n u
  | USubsystem s => mk_message a p o (snprintf HAL_NAME_MAX s) d n u
  | UNode d => mk_message a p o s (snprintf HAL_PATH_MAX d) n u
  | USeqnum n => mk_message a p o s d n u
  | UIfindex _ => m
  | UInfo k v => mk_message a p o s d n (clean_info k v u)
  end.

Lemma udev_string_fits s : s <> "" -> g_utf8_validate s = None -> (String.length s < HAL_NAME_MAX)%nat -> udev_string s = Some s.
Proof.
  intros Hs Hv Hl. unfold udev_string, hal_util_strdup_valid_utf8.
  assert (valid_utf8_loop "?" (String.length s) s 0 = (s, 0)) as ->.
  { destruct (String.length s); cbn [valid_utf8_loop]; by rewrite Hv. }
  destruct s as [|c r]; [done|]. assert ((Z.of_nat (String.length (String c r)) =? 0) = false) as -> by (apply Z.eqb_neq; cbn [String.length]; lia).
  cbn [fmap option_fmap option_map]. by rewrite snprintf_fits.
Qed.

Lemma field_same name v : field (name +:+ v) name = Some v.
Proof. unfold field. rewrite (proj2 (has_prefix_spec (name +:+ v) name)) by eauto. by rewrite str_drop_app. Qed.

(** Names of fields are compared character by character. *)
Ltac read_names :=
  repeat first [rewrite field_same
               | match goal with |- context [field ?key ?name] =>
                   let H := fresh in assert (H : field key name = None) by reflexivity; rewrite H; clear H
                 end].

Lemma set_info_same k u : set_info k (info_of k u) u = u.
Proof. by destruct u, k. Qed.
Lemma store_udev_info k s u : store_udev udev_fields (info_name k +:+ s) u = clean_info k s u.
Proof.
  unfold clean_info. pose proof (set_info_same k u) as E.
  destruct k; unfold udev_fields, info_name; cbn [store_udev]; read_names; (destruct (udev_string s); cbn [default]; [reflexivity | by rewrite E]).
Qed.

Lemma store_encoded f m : sendable f -> store_field (encode f) m = if is_md f then None else Some (apply_field f m).
Proof.
  destruct m as [a p o s d n u]. intros Hf. unfold store_field. destruct f; cbn [encode apply_field sendable is_md] in *.
  - by read_names.
  - by read_names.
  - by read_names.
  - by read_names.
  - by read_names.
  - read_names. by rewrite strtoull10_pretty.
  - by read_names.
  - unfold set_msg_udev. cbn [msg_action msg_path msg_path_old msg_subsystem msg_device_file msg_seqnum msg_udev].
    rewrite <- (store_udev_info k s0 u). destruct k; cbn [info_name]; by read_names.
Qed.
End Fields.

(** ** Messages *)
Fixpoint message (keys : list string) : string :=
  match keys with [] => "" | key :: rest => key +:+ String NUL (message rest) end.

Lemma span_key key rest : no_nul key -> span is_nul (key +:+ String NUL rest) = (key, String NUL rest).
Proof.
  unfold no_nul. induction key as [|c key IH]; [done|]. change (String c key +:+ String NUL rest) with (String c (key +:+ String NUL rest)).
  cbn [all_chars span]. intros [Hc%negb_true_iff H]%andb_true_iff. by rewrite Hc, IH.
Qed.

Definition apply_fields {P : Platform} (l : list ufield) (m : udev_message) : udev_message := foldl (fun m f => apply_field f m) m l.

Lemma no_nul_app a b : no_nul a -> no_nul b -> no_nul (a +:+ b).
Proof. unfold no_nul. intros Ha Hb. by rewrite all_chars_app, Ha, Hb. Qed.
Lemma no_nul_pretty n : 0 <= n -> no_nul (pretty n).
Proof. apply pretty_chars. intros d. unfold pretty_N_char. by repeat case_match. Qed.

(** The name of a field. *)
Definition kind (f : ufield) : string :=
  match f with
  | UAction _ => "ACTION=" | UPath _ => "DEVPATH=" | UPathOld _ => "DEVPATH_OLD=" | USubsystem _ => "SUBSYSTEM="
  | UNode _ => "DEVNAME=" | USeqnum _ => "SEQNUM=" | UIfindex _ => "IFINDEX=" | UInfo k _ => info_name k
  end.

Lemma set_info_swap j k s t u : j <> k -> set_info j s (set_info k t u) = set_info k t (set_info j s u).
Proof. intros H. destruct u, j, k; try done. Qed.
Lemma info_of_other j k s u : j <> k -> info_of j (set_info k s u) = info_of j u.
Proof. intros H. by destruct u, j, k. Qed.
Lemma apply_swap {P : Platform} f g m : kind f <> kind g -> apply_field f (apply_field g m) = apply_field g (apply_field f m).
Proof.
  destruct m as [a p o s d n u]. destruct f as [| | | | | | |j v], g as [| | | | | | |k w]; try done. cbn [kind apply_field]. intros H.
  assert (j <> k) by congruence. unfold clean_info. by rewrite !info_of_other, set_info_swap by done.
Qed.
Lemma apply_permuted {P : Platform} l l' m : l ≡ₚ l' -> NoDup (kind <$> l) -> apply_fields l m = apply_fields l' m.
Proof.
  intros H. revert m. induction H as [|f l l' H IH|f g l|l l' l'' H1 IH1 H2 IH2]; intros m ND; [done| | |].
  - cbn in *. apply NoDup_cons in ND as [_ ND]. by apply IH.
  - cbn in *. apply NoDup_cons in ND as [Hg _]. rewrite apply_swap; [done|]. intros E. apply Hg. rewrite E. left.
  - rewrite IH1 by done. apply IH2. by rewrite <- H1.
Qed.

Section Messages.
Context {P : Platform}.

Lemma encoded f : sendable f -> no_nul (encode f) /\ encode f <> "".
Proof.
  intros Hf. split; [|by destruct f as [| | | | | | |[] s]].
  destruct f as [| | | | | | |k s]; cbn [sendable encode] in *; apply no_nul_app; try done;
    try (apply no_nul_pretty; lia). by destruct k.
Qed.

Lemma read_fields_message l fuel full m :
  Forall sendable l -> (String.length (message (encode <$> l)) <= fuel)%nat ->
  read_fields fuel full (message (encode <$> l)) m =
    inr (if existsb is_md l then None else Some (apply_fields l m)).
Proof.
  revert fuel m. induction l as [|f l IH]; intros fuel m Hl Hf; [by destruct fuel|].
  apply Forall_cons in Hl as [Hf1 Hl]. cbn [fmap list_fmap message existsb] in *. destruct (encoded f Hf1) as [N E].
  rewrite string_length_app in Hf. cbn [String.length] in Hf. destruct fuel as [|fuel]; [lia|].
  cbn [read_fields]. rewrite span_key by done. rewrite store_encoded by done.
  destruct (encode f) as [|c r]; [done|]. destruct (is_md f); [done|]. apply IH; [done | lia].
Qed.
End Messages.

(** ** Events as they are sent *)
Record uevent := mk_uevent {
  ue_action : HotplugActionType;
  ue_path : string; ue_path_old : string; ue_subsystem : string; ue_node : string;
  ue_seqnum : Z; ue_ifindex : option Z;
  ue_info : udev_info;
}.
Definition action_name (a : HotplugActionType) : string :=
  match a with
  | HOTPLUG_ACTION_ADD => "add" | HOTPLUG_ACTION_REMOVE => "remove" | HOTPLUG_ACTION_CHANGE => "change" | HOTPLUG_ACTION_MOVE => "move"
  | HOTPLUG_ACTION_ONLINE => "online" | HOTPLUG_ACTION_OFFLINE => "offline"
  end.
Definition optional (f : string -> ufield) (v : string) : list ufield := if v =s? "" then [] else [f v].
Definition fields_of (e : uevent) : list ufield :=
  [UAction (action_name (ue_action e)); UPath (ue_path e)] ++ optional UPathOld (ue_path_old e) ++
  [USubsystem (ue_subsystem e)] ++ optional UNode (ue_node e) ++ [USeqnum (ue_seqnum e)] ++
  option_list (UIfindex <$> ue_ifindex e) ++ mjoin ((fun k => optional (UInfo k) (info_of k (ue_info e))) <$> info_keys).
Definition header (e : uevent) : string := action_name (ue_action e) +:+ "@" +:+ ue_path e.

(** The event as it was sent. *)
Definition exact_event (e : uevent) (id : nat) : HotplugEvent :=
  mk_event id (ue_action e) HOTPLUG_EVENT_SYSFS false (ue_subsystem e) ("/sys" +:+ ue_path e)
    (if ue_path_old e =s? "" then "" else "/sys" +:+ ue_path_old e) (ue_seqnum e) (is_mapped (ue_node e)) (ue_node e) "" 0 (ue_info e).

Section Received.
Context {P : Platform}.

(** The event of the daemon: texts are cut to the size of their arrays, and
    made valid UTF-8. *)
Definition received_info (u : udev_info) : udev_info :=
  mk_udev (received (u_vendor u)) (received (u_model u)) (received (u_revision u)) (received (u_serial u)) (received (u_fsusage u))
    (received (u_fstype u)) (received (u_fsversion u)) (received (u_fslabel u)) (received (u_fsuuid u)).
Definition received_node (e : uevent) : string := snprintf HAL_PATH_MAX (ue_node e).
Definition event_of (e : uevent) (id : nat) : HotplugEvent :=
  mk_event id (ue_action e) HOTPLUG_EVENT_SYSFS false (snprintf HAL_NAME_MAX (ue_subsystem e))
    (snprintf HAL_PATH_MAX ("/sys" +:+ ue_path e))
    (if ue_path_old e =s? "" then "" else snprintf HAL_PATH_MAX ("/sys" +:+ ue_path_old e)) (ue_seqnum e)
    (is_mapped (received_node e)) (received_node e) "" 0 (received_info (ue_info e)).

Lemma udev_string_empty : udev_string "" = None.
Proof. unfold udev_string, hal_util_strdup_valid_utf8. simpl. by destruct (g_utf8_validate ""). Qed.
Lemma optional_info k v m l : apply_fields (optional (UInfo k) v ++ l) m = apply_fields l (apply_field (UInfo k v) m).
Proof.
  unfold optional. case_bool_decide as E; [|done]. subst v. destruct m as [a p o s d n u]. cbn [apply_field app].
  unfold clean_info. rewrite udev_string_empty. cbn [default]. by rewrite set_info_same.
Qed.

Lemma apply_fields_of e :
  apply_fields (fields_of e) no_message =
  mk_message (Some (action_name (ue_action e))) (snprintf HAL_PATH_MAX ("/sys" +:+ ue_path e))
    (if ue_path_old e =s? "" then "" else snprintf HAL_PATH_MAX ("/sys" +:+ ue_path_old e))
    (snprintf HAL_NAME_MAX (ue_subsystem e)) (received_node e) (ue_seqnum e) (received_info (ue_info e)).
Proof.
  destruct e as [a p o s d n i u]. unfold fields_of, received_node.
  cbn [ue_action ue_path ue_path_old ue_subsystem ue_node ue_seqnum ue_ifindex ue_info].
  assert (forall l, apply_fields ([UAction (action_name a); UPath p] ++ optional UPathOld o ++ [USubsystem s] ++ optional UNode d ++
      [USeqnum n] ++ option_list (UIfindex <$> i) ++ l) no_message =
    apply_fields l (mk_message (Some (action_name a)) (snprintf HAL_PATH_MAX ("/sys" +:+ p))
      (if o =s? "" then "" else snprintf HAL_PATH_MAX ("/sys" +:+ o)) (snprintf HAL_NAME_MAX s) (snprintf HAL_PATH_MAX d) n no_udev)) as ->.
  { intros l. unfold optional. repeat case_bool_decide; subst; by destruct i. }
  unfold info_keys. cbn [fmap list_fmap mjoin list_join]. rewrite !optional_info. by destruct u.
Qed.

Lemma received_fits k s : (if s =s? "" then True else fits (UInfo k s)) -> received s = s.
Proof. unfold received. case_bool_decide; [subst; by rewrite udev_string_empty|]. intros (H1 & H2 & H3). by rewrite udev_string_fits. Qed.

(** Values that fit arrive as they are. *)
Lemma event_of_exact e id : Forall fits (fields_of e) -> event_of e id = exact_event e id.
Proof.
  destruct e as [a p o s d n i u]. unfold fields_of, event_of, exact_event, received_node.
  cbn [ue_action ue_path ue_path_old ue_subsystem ue_node ue_seqnum ue_ifindex ue_info].
  rewrite !Forall_app. intros (Hp & Ho & Hs & Hd & _ & _ & Hu).
  assert (Hopt : forall f v, Forall fits (optional f v) -> if v =s? "" then True else fits (f v)).
  { intros f v. unfold optional. destruct (v =s? ""); [done|]. by rewrite Forall_singleton. }
  apply Hopt in Ho, Hd. apply Forall_inv_tail, Forall_inv in Hp. apply Forall_inv in Hs. cbn [fits] in *.
  assert (E : forall k, received (info_of k u) = info_of k u).
  { intros k. apply (received_fits k), (Hopt (UInfo k)). revert Hu. unfold info_keys. cbn [fmap list_fmap mjoin list_join].
    rewrite !Forall_app. intros Hu. destruct k; apply Hu. }
  rewrite (snprintf_fits HAL_NAME_MAX s) by done. rewrite (snprintf_fits HAL_PATH_MAX ("/sys" +:+ p)) by (rewrite string_length_app; cbn; lia).
  assert (snprintf HAL_PATH_MAX d = d) as ->.
  { destruct (decide (d = "")) as [->|Hne]; [reflexivity|]. apply snprintf_fits. by rewrite bool_decide_eq_false_2 in Hd. }
  assert ((if o =s? "" then "" else snprintf HAL_PATH_MAX ("/sys" +:+ o)) = (if o =s? "" then "" else "/sys" +:+ o)) as ->.
  { destruct (decide (o = "")) as [->|Hne]; [reflexivity|]. rewrite !bool_decide_eq_false_2 in Ho |- * by done.
    apply snprintf_fits. rewrite string_length_app. cbn. lia. }
  f_equal. unfold received_info. pose proof (E Vendor). pose proof (E Model). pose proof (E Revision). pose proof (E Serial).
  pose proof (E FsUsage). pose proof (E FsType). pose proof (E FsVersion). pose proof (E FsLabel). pose proof (E FsUuid).
  destruct u. cbn in *. congruence.
Qed.
End Received.

Section Sent.
Context {P : Platform}.

(** What can be sent: fields without zero bytes, and a path that begins with a slash. *)
Definition well_formed (e : uevent) : Prop := Forall sendable (fields_of e) /\ has_prefix (ue_path e) "/" = true.

(** What the daemon looks at: an action it knows, a device that is neither a
    driver nor a module, nor of md, nor a temporary one of cryptsetup. *)
Definition handled (e : uevent) : bool :=
  bool_decide (is_Some (action_of (action_name (ue_action e)))) &&
  negb (snprintf HAL_NAME_MAX (ue_subsystem e) =s? "") && negb (snprintf HAL_NAME_MAX (ue_subsystem e) =s? "drivers") &&
  negb (snprintf HAL_NAME_MAX (ue_subsystem e) =s? "module") &&
  negb (has_prefix (received_node e) "/dev/mapper/temporary-cryptsetup-") &&
  negb (has_prefix (ue_path e) "/block/md") && negb (has_prefix (ue_path_old e) "/block/md").

Lemma action_of_name a b : action_of (action_name a) = Some b -> b = a.
Proof. destruct a; vm_compute; congruence. Qed.
Lemma md_fields e : existsb is_md (fields_of e) = has_prefix (ue_path e) "/block/md" || has_prefix (ue_path_old e) "/block/md".
Proof.
  assert (H : forall l, existsb is_md (mjoin ((fun k => optional (UInfo k) (info_of k (ue_info e))) <$> l)) = false).
  { induction l as [|k l IH]; [done|]. csimpl. rewrite existsb_app, IH. unfold optional. by case_bool_decide. }
  unfold fields_of. rewrite !existsb_app, H. unfold optional. cbn [existsb is_md].
  assert (existsb is_md (option_list (UIfindex <$> ue_ifindex e)) = false) as -> by by destruct (ue_ifindex e).
  repeat case_bool_decide; cbn [existsb is_md]; rewrite ?orb_false_r; try done;
    (replace (ue_path_old e) with ""; by rewrite orb_false_r).
Qed.

Lemma optional_kind f v : kind <$> optional f v `sublist_of` [kind (f v)].
Proof. unfold optional. case_bool_decide; [apply sublist_nil_l | done]. Qed.
Lemma kinds_differ e : NoDup (kind <$> fields_of e).
Proof.
  destruct e as [a p o s d n i u]. unfold fields_of. cbn [ue_action ue_path ue_path_old ue_subsystem ue_node ue_seqnum ue_ifindex ue_info].
  apply (sublist_NoDup _ (["ACTION="; "DEVPATH="] ++ ["DEVPATH_OLD="] ++ ["SUBSYSTEM="] ++ ["DEVNAME="] ++ ["SEQNUM="] ++ ["IFINDEX="] ++
    mjoin ((fun k => [info_name k]) <$> info_keys))).
  { apply (bool_decide_unpack _). by vm_compute. }
  rewrite !fmap_app. repeat apply sublist_app; try apply optional_kind; try done.
  - destruct i; [done | apply sublist_nil_l].
  - unfold info_keys. cbn [fmap list_fmap mjoin list_join]. rewrite !fmap_app.
    repeat apply sublist_app; first [exact (optional_kind (UInfo _) _) | done].
Qed.

Lemma message_is_read e fields :
  well_formed e -> fields ≡ₚ fields_of e -> (String.length (message (header e :: (encode <$> fields))) < UDEV_BUFFER)%nat ->
  read_message (message (header e :: (encode <$> fields))) =
    inr (if existsb is_md (fields_of e) then None else Some (apply_fields (fields_of e) no_message)).
Proof.
  intros (Hf & Hp) Hperm Hl. unfold read_message.
  rewrite str_take_all by lia. assert ((UDEV_BUFFER <=? String.length (message (header e :: (encode <$> fields))))%nat = false) as ->.
  { apply Nat.leb_gt. lia. }
  assert (Hn : no_nul (header e)).
  { unfold header. apply no_nul_app; [by destruct (ue_action e)|]. apply no_nul_app; [done|].
    pose proof (Forall_inv (Forall_inv_tail Hf)) as H. apply H. }
  cbn [message] in Hl |- *. rewrite span_key by done.
  assert (strstr (header e) "@/" = true) as ->.
  { unfold header. apply has_prefix_spec in Hp as [r ->]. by destruct (ue_action e); try done; destruct r. }
  rewrite string_length_app in Hl |- *. cbn [String.length] in Hl |- *.
  assert (exists c r, header e = String c r) as (c & r & E) by (unfold header; destruct (ue_action e); cbn; eauto).
  rewrite E in *. cbn [String.length] in Hl |- *. rewrite Nat.add_succ_l. cbn [read_fields]. rewrite <- E in *. rewrite span_key by done.
  assert (store_field (header e) no_message = Some no_message) as ->.
  { unfold header. destruct (ue_action e); reflexivity. }
  rewrite E. rewrite <- (apply_permuted fields) by (done || by rewrite Hperm; apply kinds_differ).
  rewrite read_fields_message by (by rewrite Hperm || lia).
  assert (existsb is_md fields = existsb is_md (fields_of e)) as ->; [|done].
  apply eq_iff_eq_true. rewrite !existsb_exists. setoid_rewrite <- list_elem_of_In. by setoid_rewrite Hperm.
Qed.

(** C19 What udev sends is what the daemon enqueues.  Take a message of root about an event (texts without zero bytes, a
    path that begins with a slash, one of the six actions of the kernel), with its fields in any order, that is shorter than the
    buffer of 4096 bytes.  When the daemon handles such events, exactly that event is put at the end of the queue, with
    its action, paths, number, device file and what udev knows of the device, and the processing of the queue is started.
    The texts are cut to the sizes of their arrays, and what udev knows is made valid UTF-8 (left out, if nothing of it is); when all fit and are valid the event is
    exactly the one that was sent.  Nothing changes when the daemon does not handle it: the action is online or offline,
    the subsystem is missing, "drivers" or "module", the device file is a temporary one of cryptsetup, or the new or the old path begins
    with /block/md.  A message of any other user changes nothing either. *)
Theorem udev_messages_become_events (process_queue : xm unit) e fields (s : linux) :
  well_formed e -> fields ≡ₚ fields_of e -> (String.length (message (header e :: (encode <$> fields))) < UDEV_BUFFER)%nat ->
  let id := fresh_event (lx_queue s) in
  hald_udev_data process_queue (Some (mk_datagram (Some 0) (message (header e :: (encode <$> fields))))) s =
    (if handled e then (xqueue (hotplug_event_enqueue (event_of e id)) ;@ process_queue ;@ xret true) s else inr (true, s, [])) /\
  (Forall fits (fields_of e) -> event_of e id = exact_event e id) /\
  forall uid bytes, uid <> Some 0 -> hald_udev_data process_queue (Some (mk_datagram uid bytes)) s = inr (true, s, []).
Proof.
  intros Hwf Hperm Hl id. split; [|split; [apply event_of_exact | by intros [uid|] bytes Hu; unfold hald_udev_data; rewrite bool_decide_eq_false_2]].
  unfold hald_udev_data. cbn [dg_uid dg_bytes]. rewrite bool_decide_eq_true_2 by done. cbn [negb].
  rewrite message_is_read, md_fields, apply_fields_of by done. unfold handled.
  destruct (has_prefix (ue_path e) "/block/md"); cbn [orb negb]; [by rewrite !andb_false_r|].
  destruct (has_prefix (ue_path_old e) "/block/md"); cbn [negb]; [by rewrite !andb_false_r|]. rewrite !andb_true_r.
  unfold xbind at 1, xget at 1. unfold message_event. cbn [mbind option_bind msg_action msg_path msg_subsystem msg_device_file].
  assert ((snprintf HAL_PATH_MAX ("/sys" +:+ ue_path e) =s? "") = false) as -> by reflexivity. cbn [orb].
  destruct (snprintf HAL_NAME_MAX (ue_subsystem e) =s? ""); [by rewrite !andb_false_r|].
  destruct (has_prefix (received_node e) _); [by rewrite !andb_false_r|].
  destruct (snprintf HAL_NAME_MAX (ue_subsystem e) =s? "drivers"); [by rewrite !andb_false_r|].
  destruct (snprintf HAL_NAME_MAX (ue_subsystem e) =s? "module"); [by rewrite !andb_false_r|]. cbn [orb negb]. rewrite !andb_true_r.
  destruct (action_of (action_name (ue_action e))) as [a|] eqn:Ea; cbn [mbind option_bind]; [|by rewrite (bool_decide_eq_false_2 (is_Some None)) by (by intros [])].
  rewrite (bool_decide_eq_true_2 (is_Some (Some a))) by eauto. apply action_of_name in Ea as ->.
  change (mk_event _ _ _ _ _ _ _ _ _ _ _ _ _) with (event_of e (fresh_event (lx_queue s))).
  destruct (xbind _ _ s) as [|[[]]]; done.
Qed.
End Sent.

(** ** A disk that is plugged in *)
Module Sent.
Import AsciiPlatform.

Definition stick : uevent :=
  mk_uevent HOTPLUG_ACTION_ADD "/devices/hub/sda" "" "block" "/dev/sda" 1042 None (mk_udev "Kingston" "" "" "" "filesystem" "vfat" "" "PHOTOS" "").
Definition mixed : list ufield := reverse (fields_of stick).
Definition idle : linux :=
  mk_linux (mk_hald (mk_daemon (mk_env ∅ [] [] [] 0 []) []) (mk_bus 0 0 []) ∅ [] ∅ ∅)
    (mk_globals false false false false false ∅ (mk_grep false (mk_grep_buffer "" "") (mk_grep_buffer "" "")) 0)
    (mk_hotplug true [] false [] false 0 []) ∅ 0.

Lemma udev_messages_become_events_witness :
  take 3 (encode <$> mixed) = ["ID_FS_LABEL=PHOTOS"; "ID_FS_TYPE=vfat"; "ID_FS_USAGE=filesystem"] /\
  hald_udev_data (xret tt) (Some (mk_datagram (Some 0) (message (header stick :: (encode <$> mixed))))) idle =
    (xqueue (hotplug_event_enqueue (exact_event stick 0)) ;@ xret tt ;@ xret true) idle /\
  hald_udev_data (xret tt) (Some (mk_datagram (Some 1000) (message (header stick :: (encode <$> mixed))))) idle = inr (true, idle, []).
Proof.
  split; [by vm_compute|].
  destruct (udev_messages_become_events (xret tt) stick mixed idle) as (H1 & H2 & H3).
  - split; [|done]. repeat constructor; by vm_compute.
  - unfold mixed. apply reverse_Permutation.
  - apply (bool_decide_unpack _). by vm_compute.
  - split; [|by apply H3]. change 0%nat with (fresh_event (lx_queue idle)). rewrite <- H2; [exact H1|].
    repeat constructor; by vm_compute.
Defined.
End Sent.
