(* ===== verification/UdevClaims.v ===== *)
(** * Claims on the events that udev and the start of the daemon make *)

From Stdlib Require Import ZArith Lia Ascii SpecFloat Sorted.
From stdpp Require Import base list gmap strings option pretty fin_maps sorting.
From S2P Require Import Prelude CStd Property Device DeviceStore FdiRules FdiInterp AccessCheck Bus Util Dbus Hotplug LinuxSysfs LinuxDevice Blockdev Udev.

(** ** Comparing paths *)
Lemma compare_trans a b c : String.compare a b <> Gt -> String.compare b c <> Gt -> String.compare a c <> Gt.
Proof.
  revert b c. induction a as [|x a IH]; intros [|y b] [|z c]; cbn [String.compare]; try done.
  unfold Ascii.compare. destruct (N.compare_spec (N_of_ascii x) (N_of_ascii y)) as [Exy|Lxy|]; [| |done];
    (destruct (N.compare_spec (N_of_ascii y) (N_of_ascii z)) as [Eyz|Lyz|]; [| |done]); intros H1 H2;
    destruct (N.compare_spec (N_of_ascii x) (N_of_ascii z)); try lia; try done. by apply IH with b.
Qed.
Lemma strcmp_le a b : strcmp a b <= 0 <-> String.compare a b <> Gt.
Proof. unfold strcmp. by destruct (String.compare a b). Qed.
Lemma strcmp_total a b : strcmp a b <= 0 \/ strcmp b a <= 0.
Proof. rewrite !strcmp_le, (String.compare_antisym b a). destruct (String.compare a b); auto. Qed.
Lemma strcmp_trans a b c : strcmp a b <= 0 -> strcmp b c <= 0 -> strcmp a c <= 0.
Proof. rewrite !strcmp_le. apply compare_trans. Qed.
Lemma strcmp_longer p c r : 0 < strcmp (p +:+ String c r) p.
Proof.
  unfold strcmp. assert (String.compare (p +:+ String c r) p = Gt) as ->; [|lia].
  induction p as [|x p IH]; [done|]. change (String x p +:+ String c r) with (String x (p +:+ String c r)). cbn [String.compare].
  unfold Ascii.compare. by rewrite N.compare_refl.
Qed.

(** ** The order of the events at the start *)

(** What GLib promises of [g_slist_sort] for a comparison that is consistent. *)
Definition total_preorder {A} (cmp : A -> A -> Z) : Prop :=
  (forall x y, cmp x y <= 0 \/ cmp y x <= 0) /\ (forall x y z, cmp x y <= 0 -> cmp y z <= 0 -> cmp x z <= 0).
Class SortLaws {A} (sort : (A -> A -> Z) -> list A -> list A) : Prop := {
  sort_permutes cmp l : sort cmp l ≡ₚ l;
  sort_sorts cmp l : total_preorder cmp -> StronglySorted (fun x y => cmp x y <= 0) (sort cmp l);
}.

Lemma device_order_preorder : total_preorder device_order.
Proof.
  unfold device_order. split.
  - intros x y. destruct (is_dm_path (s_path y)), (is_dm_path (s_path x)); try lia. apply strcmp_total.
  - intros x y z. destruct (is_dm_path (s_path z)); [lia|].
    destruct (is_dm_path (s_path y)); [destruct (is_dm_path (s_path x)); lia|].
    destruct (is_dm_path (s_path x)); [lia|]. apply strcmp_trans.
Qed.

(** The keys of the map are the paths of its devices. *)
Definition paths_agree (m : gmap string UdevInfo) : Prop := forall k i, m !! k = Some i -> k = "/sys" +:+ i_sysfs_path i.
Lemma read_export_agrees lines info m : paths_agree m -> paths_agree (read_export lines info m).
Proof.
  revert info m. induction lines as [|line lines IH]; intros info m H; [done|]. cbn [read_export].
  destruct (line =s? ""); [|destruct (field line "P: "); by apply IH]. apply IH. destruct info as [i|]; [|done].
  intros k j Hk. apply lookup_insert_Some in Hk as [[<- <-]|[_ Hk]]; [done | by apply H].
Qed.

Lemma sorted_lookup {A} (R : A -> A -> Prop) l i j x y :
  StronglySorted R l -> (i < j)%nat -> l !! i = Some x -> l !! j = Some y -> R x y.
Proof.
  intros H. revert i j. induction H as [|a l Hl IH Ha]; intros i j Hij Hi Hj; [done|].
  destruct j as [|j]; [lia|]. destruct i as [|i]; cbn [lookup list_lookup] in *; [|by apply (IH i j); [lia|..]].
  injection Hi as <-. by apply (Forall_lookup_1 _ _ _ _ Ha Hj).
Qed.

(** A directory that a path is under. *)
Definition under_directory (p q : string) : Prop := exists r, q = p +:+ String slash r.

Lemma compare_from_under n p r : (String.length p < n)%nat -> compare_from n p (p +:+ String slash r) = true.
Proof.
  revert n. induction p as [|c p IH]; intros [|n] Hn; cbn [String.length] in Hn; try lia; [done|].
  change (String c p +:+ String slash r) with (String c (p +:+ String slash r)). cbn [compare_from].
  rewrite bool_decide_eq_true_2 by done. apply IH. lia.
Qed.

(** ** Sequences of commands *)
Lemma xbind_assoc {A B C} (m : xm A) (f : A -> xm B) (g : B -> xm C) s :
  xbind (xbind m f) g s = xbind m (fun x => xbind (f x) g) s.
Proof.
  unfold xbind. destruct (m s) as [|[[x s1] t1]]; [done|]. destruct (f x s1) as [|[[y s2] t2]]; [done|].
  destruct (g y s2) as [|[[z s3] t3]]; [done|]. by rewrite app_assoc.
Qed.
Lemma xbind_ext {A B} (m : xm A) (f g : A -> xm B) s : (forall x s, f x s = g x s) -> xbind m f s = xbind m g s.
Proof. intros H. unfold xbind. destruct (m s) as [|[[x s1] t1]]; [done|]. by rewrite H. Qed.
Lemma xbind_ret {A B} (x : A) (f : A -> xm B) s : xbind (xret x) f s = f x s.
Proof. unfold xbind, xret. by destruct (f x s) as [|[[y s2] t2]]. Qed.

Section Coldplug.
Context {P : Platform} {SF : Sysfs} {BF : BlockFiles} {CF : ColdFiles}.
Context (process_queue : xm unit).
Context (sort : (sysfs_device -> sysfs_device -> Z) -> list sysfs_device -> list sysfs_device) {SL : SortLaws sort}.
Context (root : string) (m : gmap string UdevInfo).

Lemma announced_lookup devices seqnum i f :
  0 <= seqnum -> seqnum + Z.of_nat (length devices) <= 2 ^ 64 -> announced root m devices seqnum !! i = Some f ->
  exists d, devices !! i = Some d /\ f = coldplug_get_hotplug_event root m (s_path d) (s_subsystem d) (seqnum + Z.of_nat i).
Proof.
  revert seqnum i. induction devices as [|d devices IH]; intros n i H0 H1 Hi; [done|]. cbn [announced length] in *.
  destruct i as [|i]; cbn [lookup list_lookup] in *.
  - injection Hi as <-. exists d. by rewrite Z.add_0_r.
  - assert (devices <> []) as Hne by (by intros ->).
    assert (1 <= Z.of_nat (length devices)) by (destruct devices; [done | cbn [length]; lia]).
    assert (u64 (n + 1) = n + 1) as E by (apply Z.mod_small; lia). rewrite E in Hi.
    destruct (IH (n + 1) i ltac:(lia) ltac:(lia) Hi) as (d' & Hd & ->). exists d'. split; [done|]. f_equal. lia.
Qed.

Lemma announced_paths devices seqnum :
  (fun f => sysfs_path (f 0%nat)) <$> announced root m devices seqnum =
  (fun d => sysfs_path (coldplug_get_hotplug_event root m (s_path d) (s_subsystem d) 0 0)) <$> devices.
Proof.
  revert seqnum. induction devices as [|d devices IH]; intros n; [done|]. cbn [announced fmap list_fmap]. f_equal; [|apply IH].
  unfold coldplug_get_hotplug_event. destruct (m !! s_path d); [|done]. by destruct (udev_info_to_hotplug_event root u) as [[a b] c].
Qed.

Lemma event_path path subsystem n id :
  paths_agree m -> (String.length path < HAL_PATH_MAX)%nat ->
  sysfs_path (coldplug_get_hotplug_event root m path subsystem n id) = path.
Proof.
  intros Hm Hl. unfold coldplug_get_hotplug_event. destruct (m !! path) as [i|] eqn:E; cbn; [rewrite <- (Hm _ _ E)|];
    apply str_take_all; unfold HAL_PATH_MAX in *; lia.
Qed.

(** The number and the order of two events. *)
Lemma event_facts path subsystem n id :
  let e := coldplug_get_hotplug_event root m path subsystem n id in
  seqnum e = n /\ type e = HOTPLUG_EVENT_SYSFS /\ sysfs_path_old e = "".
Proof.
  cbv zeta. unfold coldplug_get_hotplug_event. destruct (m !! path) as [i|]; [|done].
  by destruct (udev_info_to_hotplug_event root i) as [[a b] c].
Qed.

Lemma child_waits parent child :
  type child = HOTPLUG_EVENT_SYSFS -> sysfs_path_old child = "" -> seqnum parent < seqnum child ->
  (String.length (sysfs_path parent) < HAL_PATH_MAX)%nat -> under_directory (sysfs_path parent) (sysfs_path child) ->
  compare_events child [parent] = true.
Proof.
  intros T O N L [r U]. unfold compare_events, is_sysfs. rewrite T. cbn [compare_loop].
  assert ((seqnum child <=? seqnum parent) = false) as -> by (apply Z.leb_gt; lia).
  unfold waits_for, compare_event, compare_sysfspath. rewrite O, U, compare_from_under by done. done.
Qed.

(** The passes over /sys. *)
Definition cold_scans : list (lx_fault + list sysfs_device) :=
  if stat_ok "/sys/subsystem" then [scan_subsystem "subsystem"]
  else [scan_subsystem "bus"; both scan_class (both (scan_single_bus "mmc") (scan_single_bus "bluetooth"))] ++
       (if stat_ok "/sys/class/block" then [] else [scan_block]).

Lemma enqueue_each_app a b (k : xm (bool * list string)) s :
  (enqueue_each process_queue (a ++ b) ;@ k) s = (enqueue_each process_queue a ;@ enqueue_each process_queue b ;@ k) s.
Proof.
  revert s. induction a as [|e a IH]; intros s; cbn [enqueue_each app]; [by rewrite xbind_ret|].
  rewrite !xbind_assoc. apply xbind_ext. intros _ s1. rewrite !xbind_assoc. apply xbind_ext. intros _ s2. apply IH.
Qed.

Lemma announced_app a b n : u64 n = n ->
  announced root m (a ++ b) n = announced root m a n ++ announced root m b (u64 (n + Z.of_nat (length a))).
Proof.
  revert n. induction a as [|d a IH]; intros n Hn; cbn [announced app length]; [by rewrite Z.add_0_r, Hn|]. f_equal.
  rewrite IH by apply Zmod_mod. do 2 f_equal. unfold wrap_u. rewrite Zplus_mod_idemp_l. f_equal. lia.
Qed.

(** A pass, and what follows. *)
Lemma pass_run devices n (k : Z -> xm (bool * list string)) s :
  xbind (process_coldplug_events process_queue root m (sort device_order devices) n) k s =
  (enqueue_each process_queue (announced root m (sort device_order devices) n) ;@ k (u64 (n + Z.of_nat (length devices)))) s.
Proof.
  unfold process_coldplug_events. rewrite xbind_assoc. apply xbind_ext. intros _ s1. rewrite xbind_ret.
  by rewrite (Permutation_length (sort_permutes device_order devices)).
Qed.

(** All passes together announce one list, and the arrays of disks follow. *)
Lemma coldplug_run link_fuel connected initialising found s :
  hal_util_init_sysfs_to_udev_map = Some (root, m) -> cold_scans = inr <$> found ->
  coldplug_synthesize_events process_queue sort link_fuel connected initialising s =
  (enqueue_each process_queue (announced root m (mjoin (sort device_order <$> found)) 0) ;@
   if stat_ok "/sys/subsystem" then xret (true, [])
   else let@ md_devs := blockdev_process_mdstat link_fuel connected initialising process_queue [] in xret (true, md_devs)) s.
Proof.
  intros Hi Hc. unfold coldplug_synthesize_events. rewrite Hi. unfold cold_scans in Hc.
  assert (L : forall l, Z.of_nat (length (sort device_order l)) = Z.of_nat (length l))
    by (intros; by rewrite (Permutation_length (sort_permutes device_order l))).
  destruct (stat_ok "/sys/subsystem").
  - destruct found as [|d [|]]; try done. cbn [fmap list_fmap] in Hc. injection Hc as ->. cbn [pass]. rewrite pass_run. csimpl. by rewrite app_nil_r.
  - destruct found as [|d1 [|d2 rest]]; try done. cbn [app fmap list_fmap] in Hc. injection Hc as -> -> Hc. cbn [pass]. rewrite pass_run.
    csimpl. rewrite announced_app by done. rewrite enqueue_each_app, L. apply xbind_ext. intros _ s1. rewrite pass_run.
    rewrite announced_app by apply Zmod_mod. rewrite enqueue_each_app, L. apply xbind_ext. intros _ s2.
    destruct (stat_ok "/sys/class/block").
    + destruct rest; [|done]. csimpl. rewrite !xbind_ret. done.
    + destruct rest as [|d3 [|]]; try done. cbn [fmap list_fmap] in Hc. injection Hc as ->. cbn [pass]. rewrite pass_run. csimpl. by rewrite app_nil_r.
Qed.

(** Where a pass is in the list of all devices. *)
Lemma pass_lookup before devices after i :
  (i < length devices)%nat ->
  mjoin (sort device_order <$> before ++ devices :: after) !! (length (mjoin before) + i)%nat = sort device_order devices !! i.
Proof.
  intros Hi. rewrite fmap_app, fmap_cons.
  assert (E : length (mjoin (sort device_order <$> before)) = length (mjoin before)).
  { induction before as [|b before IH]; [done|]. csimpl. rewrite !length_app, IH. by rewrite (Permutation_length (sort_permutes device_order b)). }
  rewrite join_app, lookup_app_r by lia. rewrite E. replace (_ + i - _)%nat with i by lia. csimpl.
  apply lookup_app_l. by rewrite (Permutation_length (sort_permutes device_order devices)).
Qed.

Lemma paths_of_map : hal_util_init_sysfs_to_udev_map = Some (root, m) -> paths_agree m.
Proof.
  intros Hinit. unfold hal_util_init_sysfs_to_udev_map in Hinit. destruct udevadm_root; [|done]. destruct udevadm_export; [|done].
  cbn in Hinit. injection Hinit as _ <-. by apply read_export_agrees.
Qed.

(** Two devices of one pass. *)
Lemma order_in_a_pass devices i j d d' :
  sort device_order devices !! i = Some d -> sort device_order devices !! j = Some d' ->
  (is_dm_path (s_path d) = false -> is_dm_path (s_path d') = false -> under_directory (s_path d') (s_path d) -> (j < i)%nat) /\
  (is_dm_path (s_path d) = true -> is_dm_path (s_path d') = false -> (j < i)%nat).
Proof.
  intros Hd Hd'. pose proof (sort_sorts device_order devices device_order_preorder) as Sorted.
  assert (Later : 0 < device_order d d' -> i <> j -> (j < i)%nat).
  { intros Hab Hne. destruct (decide (j < i)%nat) as [|Hn]; [done|]. exfalso.
    pose proof (sorted_lookup _ _ i j d d' Sorted ltac:(lia) Hd Hd'). cbn in *. lia. }
  split.
  - intros D D' U. apply Later.
    + unfold device_order. rewrite D', D. destruct U as [r ->]. apply strcmp_longer.
    + intros ->. rewrite Hd in Hd'. injection Hd' as ->. destruct U as [r U]. apply (f_equal String.length) in U.
      rewrite string_length_app in U. cbn in U. lia.
  - intros D D'. apply Later; [unfold device_order; rewrite D', D; lia | intros ->; congruence].
Qed.

(** C20 The events at the start come in an order that the queue can follow.  The start makes up to three passes over /sys (all of
    /sys/subsystem; or the buses, then the classes with the buses mmc and bluetooth, then the disks unless they are a class).  When
    udev answers, no scan faults, and the paths fit their array, the start does nothing but enqueue one event after the other, each
    time processing the queue, and then (without /sys/subsystem) look at the arrays of disks: every device that a pass found is announced once for that
    pass, with the numbers 0, 1, 2 and so on over all passes.  Within a pass, a device is announced before every device below
    it, which then waits for it in the queue, and mapped devices are announced after all others.  (Between passes this is not
    so: a device of the buses mmc and bluetooth is announced in the first pass, before its parent, which is a class device, and again in the second.) *)
Theorem coldplug_announces_parents_first link_fuel connected initialising found s :
  hal_util_init_sysfs_to_udev_map = Some (root, m) -> cold_scans = inr <$> found ->
  Forall (fun d => String.length (s_path d) < HAL_PATH_MAX)%nat (mjoin found) -> Z.of_nat (length (mjoin found)) <= 2 ^ 64 ->
  let l := announced root m (mjoin (sort device_order <$> found)) 0 in
  coldplug_synthesize_events process_queue sort link_fuel connected initialising s =
    (enqueue_each process_queue l ;@
     if stat_ok "/sys/subsystem" then xret (true, [])
     else let@ md_devs := blockdev_process_mdstat link_fuel connected initialising process_queue [] in xret (true, md_devs)) s /\
  (fun f => sysfs_path (f 0%nat)) <$> l ≡ₚ s_path <$> mjoin found /\
  (forall i f x, l !! i = Some f -> seqnum (f x) = Z.of_nat i) /\
  forall before devices after, found = before ++ devices :: after ->
  let at_ i := l !! (length (mjoin before) + i)%nat in
  forall i j f g, (i < length devices)%nat -> (j < length devices)%nat -> at_ i = Some f -> at_ j = Some g -> forall x y,
    (is_dm_path (sysfs_path (f x)) = false -> is_dm_path (sysfs_path (g y)) = false ->
     under_directory (sysfs_path (g y)) (sysfs_path (f x)) -> (j < i)%nat /\ compare_events (f x) [g y] = true) /\
    (is_dm_path (sysfs_path (f x)) = true -> is_dm_path (sysfs_path (g y)) = false -> (j < i)%nat).
Proof.
  intros Hinit Hscan Hlen H1 l. pose proof (paths_of_map Hinit) as Hm.
  set (all := mjoin (sort device_order <$> found)) in l.
  assert (Perm : all ≡ₚ mjoin found).
  { subst all. clear -SL. induction found as [|d found IH]; [done|]. csimpl. by rewrite IH, sort_permutes. }
  assert (Hlen' : Forall (fun d => String.length (s_path d) < HAL_PATH_MAX)%nat all) by (by rewrite Perm).
  assert (H1' : 0 + Z.of_nat (length all) <= 2 ^ 64) by (by rewrite Perm).
  split_and!.
  - by apply coldplug_run.
  - unfold l. rewrite announced_paths. transitivity (s_path <$> all); [|by apply fmap_Permutation].
    apply reflexive_eq, list_fmap_ext. intros i d Hd. apply event_path; [done|]. exact (Forall_lookup_1 _ _ _ _ Hlen' Hd).
  - intros i f x Hi. destruct (announced_lookup _ 0 i f ltac:(lia) H1' Hi) as (d & Hd & ->).
    by destruct (event_facts (s_path d) (s_subsystem d) (0 + Z.of_nat i) x) as (-> & _).
  - intros before devices after Hf at_ i j f g Hi Hj Hfi Hgj x y.
    destruct (announced_lookup _ 0 _ f ltac:(lia) H1' Hfi) as (d & Hd & ->). destruct (announced_lookup _ 0 _ g ltac:(lia) H1' Hgj) as (d' & Hd' & ->).
    pose proof (Forall_lookup_1 _ _ _ _ Hlen' Hd) as Ld. pose proof (Forall_lookup_1 _ _ _ _ Hlen' Hd') as Ld'.
    subst all. rewrite Hf, pass_lookup in Hd, Hd' by done. destruct (order_in_a_pass devices i j d d' Hd Hd') as [O1 O2].
    set (n := 0 + Z.of_nat (length (mjoin before) + i)). set (n' := 0 + Z.of_nat (length (mjoin before) + j)).
    destruct (event_facts (s_path d) (s_subsystem d) n x) as (N & T & O).
    destruct (event_facts (s_path d') (s_subsystem d') n' y) as (N' & _ & _). rewrite !event_path by done. split; [|exact O2].
    intros D D' U. pose proof (O1 D D' U). split; [done|].
    apply child_waits; [done | done | rewrite N, N'; lia | by rewrite event_path | by rewrite !event_path].
Qed.
End Coldplug.

(** ** A scan that finds three devices *)
Module Scan.
Import AsciiPlatform.

#[local] Instance before_dec (cmp : sysfs_device -> sysfs_device -> Z) x y : Decision ((fun a b => cmp a b <= 0) x y) := Z_le_dec (cmp x y) 0.
Definition merge (cmp : sysfs_device -> sysfs_device -> Z) : list sysfs_device -> list sysfs_device :=
  merge_sort (fun x y => cmp x y <= 0).
#[export] Instance merge_laws : SortLaws merge.
Proof.
  split; [intros; apply merge_sort_Permutation|]. intros cmp l [Total Trans].
  apply StronglySorted_merge_sort; [exact Trans | exact Total].
Qed.

#[export] Instance no_files : Sysfs := {|
  fopen _ := None;
  readlink path :=
    if path =s? "/sys/bus/usb/devices/1-1" then Some "../../../devices/hub/usb1/1-1"
    else if path =s? "/sys/bus/usb/devices/usb1" then Some "../../../devices/hub/usb1"
    else if path =s? "/sys/bus/mmc/devices/card" then Some "../../../devices/mmc0/card"
    else if path =s? "/sys/class/mmc_host/mmc0" then Some "../../devices/mmc0" else None;
  stat_ok _ := false;
  is_dir _ := false;
  strtod _ := (S754_zero false, false);
  has_wireless_extensions _ := false;
  uninit _ := 0;
  pci_ids_text := "";
  usb_ids_text := "";
  ids_line_buffer := "";
|}.
Definition newline : string := String "010" "".
#[export] Instance stored : ColdFiles := {|
  udevadm_root := Some ("/dev" +:+ newline);
  udevadm_export := Some ("P: /block/dm-0" +:+ newline +:+ "N: dm-0" +:+ newline +:+ "E: ID_FS_LABEL=root" +:+ newline +:+ newline);
  is_writable _ := true;
  lstat_ok _ := true;
  is_node _ := true;
|}.
#[export] Instance devices : BlockFiles := {|
  proc_mounts := None;
  st_rdev _ := None;
  root_dev := None;
  is_symlink path := negb (has_prefix path "/sys/block");
  readdir path :=
    if path =s? "/sys/bus" then Some ["usb"; "mmc"]
    else if path =s? "/sys/bus/usb/devices" then Some ["."; "1-1"; "usb1"]
    else if path =s? "/sys/bus/mmc/devices" then Some ["card"]
    else if path =s? "/sys/class" then Some ["mmc_host"]
    else if path =s? "/sys/class/mmc_host" then Some ["mmc0"]
    else if path =s? "/sys/block" then Some ["dm-0"; "md0"] else None;
  mdstat := None;
  udevadm _ _ := None;
|}.
Definition found : list (list sysfs_device) :=
  [[mk_sysfs_device "/sys/devices/hub/usb1/1-1" "usb"; mk_sysfs_device "/sys/devices/hub/usb1" "usb";
    mk_sysfs_device "/sys/devices/mmc0/card" "mmc"];
   [mk_sysfs_device "/sys/devices/mmc0" "mmc_host"; mk_sysfs_device "/sys/devices/mmc0/card" "mmc"];
   [mk_sysfs_device "/sys/block/dm-0" "block"]].
Definition idle : linux :=
  mk_linux (mk_hald (mk_daemon (mk_env ∅ [] [] [] 0 []) []) (mk_bus 0 0 []) ∅ [] ∅ ∅)
    (mk_globals false false false false false ∅ (mk_grep false (mk_grep_buffer "" "") (mk_grep_buffer "" "")) 0)
    (mk_hotplug true [] false [] false 0 []) ∅ 0.
Definition known : gmap string UdevInfo :=
  {[ "/sys/block/dm-0" := mk_UdevInfo "/block/dm-0" (Some "dm-0") {[ "ID_FS_LABEL=" := "root" ]} ]}.

(** The card is announced twice, the first time before its host. *)
Lemma coldplug_announces_parents_first_witness :
  let l := announced "/dev" known (mjoin (merge device_order <$> found)) 0 in
  (fun f => (sysfs_path (f 0%nat), seqnum (f 0%nat), ev_device_file (f 0%nat))) <$> l =
    [("/sys/devices/hub/usb1", 0, ""); ("/sys/devices/hub/usb1/1-1", 1, ""); ("/sys/devices/mmc0/card", 2, "");
     ("/sys/devices/mmc0", 3, ""); ("/sys/devices/mmc0/card", 4, ""); ("/sys/block/dm-0", 5, "/dev/dm-0")] /\
  coldplug_synthesize_events (xret tt) merge 10 true false idle =
    (enqueue_each (xret tt) l ;@ let@ md_devs := blockdev_process_mdstat 10 true false (xret tt) [] in xret (true, md_devs)) idle.
Proof.
  intros l. split; [by vm_compute|].
  refine (proj1 (coldplug_announces_parents_first (xret tt) merge "/dev" known 10 true false found idle _ _ _ _)).
  - by vm_compute.
  - by vm_compute.
  - repeat constructor; vm_compute; lia.
  - by vm_compute.
Defined.
End Scan.
