(* ===== verification/LinuxPlace.v ===== *)
(** * Where the devices of the handlers are

    Every handler of [LinuxDevice.dev_handlers] that builds a device stores the
    path it was asked about and the UDI of the parent; the lookups of later events
    ([hal_util_find_known_parent], the removal, the search for children) depend on
    both.  A handler is followed by a frame: [off k m] for a computation that
    leaves the property [k], [puts k v m] for one that makes it the string [v]. *)

From Stdlib Require Import ZArith Lia Ascii SpecFloat.
From stdpp Require Import base list gmap strings option pretty fin_maps.
From S2P Require Import Prelude CStd Property Device DeviceStore DeviceTheory FdiRules FdiInterp Locks AccessCheck Bus Partutil Util Dbus DbusManager DbusTheory Power Ids Hotplug LinuxSysfs LinuxBuses LinuxInput LinuxCards LinuxPower LinuxClasses LinuxUsb LinuxSound LinuxDevice.

Section Frame.
Context {P : Platform}.

Definition off {A} (k : string) (m : dev A) : Prop := forall d, props (dev_of (m d)) !! k = props d !! k.

(** The property becomes the string, if it was not there. *)
Definition puts {A} (k v : string) (m : dev A) : Prop := forall d,
  props d !! k = None -> props (dev_of (m d)) !! k = Some (PString (utf8_sanitize v)).

Lemma off_ret {A} k (x : A) : off k (dret x). Proof. done. Qed.
Lemma off_get {A} k (f : HalDevice -> A) : off k (dget f). Proof. done. Qed.
Lemma off_emit k s : off k (g_signal_emit s). Proof. done. Qed.
Lemma off_bind {A B} k (m : dev A) (f : A -> dev B) : off k m -> (forall x, off k (f x)) -> off k (dbind m f).
Proof. intros Hm Hf d. by rewrite dev_of_bind, Hf, Hm. Qed.
Lemma off_writes {A} k key (m : dev A) : writes key m -> k <> key -> off k m.
Proof. intros H N d. by apply (write_frame _ _ _ _ (H d)). Qed.
Lemma off_keeps {A} k key (m : dev A) : keeps key m -> k <> key -> off k m.
Proof. intros H. by apply off_writes, keeps_writes. Qed.
Lemma off_each k keys : k ∉ keys -> off k (remove_each keys).
Proof.
  induction keys as [|key keys IH]; intros H; cbn [remove_each]; [apply off_ret|].
  apply not_elem_of_cons in H as [N H]. apply off_bind; [by apply (off_writes k key), N; auto with hal | auto].
Qed.
Lemma off_foreach k order f : (forall key, off k (f key)) -> off k (hal_device_property_foreach order f).
Proof. intros H. induction order as [|key rest IH]; [apply off_ret|]. by apply off_bind. Qed.
Lemma off_all k (keys : list string) (f : string -> dev bool) :
  Forall (fun key => off k (f key)) keys -> off k (foldr (fun key m => f key ;;; m) (dret tt) keys).
Proof. induction 1; [apply off_ret|]. by apply off_bind. Qed.

Lemma off_append k key l : k <> key -> off k (append_all key l).
Proof.
  intros N. induction l as [|v l IH]; cbn [append_all]; [apply off_ret|].
  apply off_bind; [apply (off_keeps k key); [auto with hal | done] | auto].
Qed.

Lemma puts_here k v : puts k v (hal_device_property_set_string k (Some v)).
Proof.
  intros d H. unfold hal_device_property_set_string, property_set, hal_device_property_find. dev_cbn. rewrite H. cbn.
  by rewrite lookup_insert_eq.
Qed.
Lemma puts_left {A B} k v (m : dev A) (f : A -> dev B) : puts k v m -> (forall x, off k (f x)) -> puts k v (dbind m f).
Proof. intros Hm Hf d H. by rewrite dev_of_bind, Hf, Hm. Qed.
Lemma puts_right {A B} k v (m : dev A) (f : A -> dev B) : off k m -> (forall x, puts k v (f x)) -> puts k v (dbind m f).
Proof. intros Hm Hf d H. rewrite dev_of_bind. apply Hf. by rewrite Hm. Qed.
End Frame.

(** ** Handlers *)
Definition a_off {A} (k : string) (Q : A -> Prop) (m : am A) : Prop := forall b,
  match m b with
  | inl _ => True
  | inr (x, b') => props (b_dev b') !! k = props (b_dev b) !! k /\ (forall y, x = Some y -> Q y)
  end.
Definition a_puts {A} {P : Platform} (k v : string) (m : am A) : Prop := forall b, props (b_dev b) !! k = None ->
  match m b with
  | inr (Some _, b') => props (b_dev b') !! k = Some (PString (utf8_sanitize v))
  | _ => True
  end.
#[local] Notation any := (fun _ => True).

Section AFrame.
Context {P : Platform}.

Lemma a_off_ret {A} k (x : A) : a_off k any (aret x). Proof. by intros b. Qed.
Lemma a_off_null {A} k : a_off k any (@anull A). Proof. by intros b. Qed.
Lemma a_off_fault {A} k Q : a_off k Q (@afault A). Proof. by intros b. Qed.
Lemma a_off_read {A} k Q : a_off k Q (@anull_read A). Proof. by intros b. Qed.
Lemma a_off_globals k f : a_off k any (set_globals f). Proof. by intros b. Qed.
Lemma a_off_get k : a_off k any get_globals. Proof. by intros b. Qed.
Lemma a_off_poll k : a_off k any start_poll. Proof. by intros b. Qed.
Lemma a_off_other k o m : a_off k any (on_other o m). Proof. by intros b. Qed.
Lemma a_off_guard k b : a_off k any (guard_null b). Proof. by destruct b. Qed.
Lemma a_off_new {A} k (m : dev A) : off k m -> a_off k any (on_new m).
Proof. intros H b. split; [apply H | done]. Qed.
Lemma a_off_with {A B} k Q R (m : am A) (f : A -> am B) :
  a_off k Q m -> (forall x, Q x -> a_off k R (f x)) -> a_off k R (abind m f).
Proof.
  intros Hm Hf b. unfold abind. specialize (Hm b). destruct (m b) as [?|[[x|] b1]]; [done| |].
  - destruct Hm as [E HQ]. specialize (Hf x (HQ x eq_refl) b1). destruct (f x b1) as [?|[y b2]]; [done|].
    destruct Hf. split; [congruence | done].
  - by destruct Hm.
Qed.
Lemma a_off_bind {A B} k (m : am A) (f : A -> am B) : a_off k any m -> (forall x, a_off k any (f x)) -> a_off k any (abind m f).
Proof. intros Hm Hf. by apply (a_off_with k any). Qed.
Lemma a_off_grep {A} k (Q : A -> Prop) f :
  (forall st x st', f st = Some (x, st') -> Q x) -> a_off k Q (agrep f).
Proof.
  intros H b. unfold agrep, abind, get_globals. destruct (f (grep_buffers (b_globals b))) as [[x st]|] eqn:E; [|done].
  cbn. split; [done|]. intros y [= <-]. by apply (H _ _ _ E).
Qed.
Lemma a_off_grep_any {A} k (f : grep_state -> option (A * grep_state)) : a_off k any (agrep f).
Proof. by apply a_off_grep. Qed.

Lemma a_puts_null {A} k v : a_puts k v (@anull A). Proof. by intros b. Qed.
Lemma a_puts_new {A} k v (m : dev A) : puts k v m -> a_puts k v (on_new m).
Proof. intros H b. apply H. Qed.
Lemma a_puts_left {A B} k v (m : am A) (f : A -> am B) :
  a_puts k v m -> (forall x, a_off k any (f x)) -> a_puts k v (abind m f).
Proof.
  intros Hm Hf b H. unfold abind. specialize (Hm b H). destruct (m b) as [?|[[x|] b1]]; [done| |done].
  specialize (Hf x b1). destruct (f x b1) as [?|[[y|] b2]]; [done| |done]. destruct Hf. congruence.
Qed.
Lemma a_puts_right {A B} k v (m : am A) (f : A -> am B) :
  a_off k any m -> (forall x, a_puts k v (f x)) -> a_puts k v (abind m f).
Proof.
  intros Hm Hf b H. unfold abind. specialize (Hm b). destruct (m b) as [?|[[x|] b1]]; [done| |done].
  destruct Hm as [E _]. apply Hf. congruence.
Qed.

(** What a handler that builds a device leaves in it. *)
Definition stores {A} (k v : string) (m : am A) : Prop := forall b,
  match m b with
  | inr (Some _, b') => props (b_dev b') !! k = Some (PString (utf8_sanitize v))
  | _ => True
  end.
Lemma stores_null {A} k v : stores k v (@anull A). Proof. by intros b. Qed.
Lemma stores_new {A} k v (m : am A) : a_puts k v m -> stores k v (abind new_device (fun _ => m)).
Proof.
  intros H b. unfold abind, new_device. cbn. specialize (H (mk_building (hal_device_new (b_counter b)).1 (b_counter b + 1)
    (b_globals b) (b_others b) (b_timers b)) eq_refl). cbn in H. by destruct (m _) as [?|[[x|] b']].
Qed.
Lemma stores_after {A B} k v (m : am A) (f : A -> am B) : (forall x, stores k v (f x)) -> stores k v (abind m f).
Proof. intros Hf b. unfold abind. destruct (m b) as [?|[[x|] b1]]; [done| |done]. apply Hf. Qed.

(** A handler that never stores the property. *)
Definition lacks {A} (k : string) (m : am A) : Prop := forall b,
  match m b with inr (Some _, b') => props (b_dev b') !! k = None | _ => True end.
Lemma lacks_null {A} k : lacks k (@anull A). Proof. by intros b. Qed.
Lemma lacks_after {A B} k (m : am A) (f : A -> am B) : (forall x, lacks k (f x)) -> lacks k (abind m f).
Proof. intros Hf b. unfold abind. destruct (m b) as [?|[[x|] b1]]; [done| |done]. apply Hf. Qed.
Lemma lacks_new {A} k (m : am A) : a_off k any m -> lacks k (abind new_device (fun _ => m)).
Proof.
  intros H b. unfold abind, new_device. cbn. specialize (H (mk_building (hal_device_new (b_counter b)).1 (b_counter b + 1)
    (b_globals b) (b_others b) (b_timers b))). cbn in H. destruct (m _) as [?|[[x|] b']]; [done| |done]. by destruct H.
Qed.
End AFrame.

(** ** Automation *)
Create HintDb frame.
Ltac head_of t := lazymatch t with ?f _ => head_of f | ?f => f end.
Ltac unfold_head t := let h := head_of t in progress unfold h.

(** A key that is not the one of the goal. *)
Ltac other_key := first [discriminate | (cbn; discriminate)].
Ltac kept lemma := eapply off_keeps; [apply lemma | other_key].
Ltac off_prim :=
  lazymatch goal with
  | |- off _ (dret _) => apply off_ret
  | |- off _ (dget _) => apply off_get
  | |- off _ (g_signal_emit _) => apply off_emit
  | |- off _ (hal_device_property_set_string _ _) => kept set_string_keeps
  | |- off _ (hal_device_property_set_int _ _) => kept set_int_keeps
  | |- off _ (hal_device_property_set_uint64 _ _) => kept set_uint64_keeps
  | |- off _ (hal_device_property_set_bool _ _) => kept set_bool_keeps
  | |- off _ (hal_device_property_set_double _ _) => kept set_double_keeps
  | |- off _ (hal_device_property_set_strlist _ _) => kept set_strlist_keeps
  | |- off _ (hal_device_property_strlist_add _ _) => kept add_keeps
  | |- off _ (hal_device_property_strlist_clear _ _) => kept clear_keeps
  | |- off _ (hal_device_copy_property _ _ _) => kept copy_keeps
  | |- off _ (hal_device_property_remove _) => eapply off_writes; [apply remove_writes | other_key]
  | |- off _ (append_all _ _) => apply off_append; other_key
  | |- off _ (set_name _ _ _) => solve [auto with frame]
  | |- off _ (set_if _ _) => solve [auto with frame]
  | |- off _ (set_chpids _ _) => solve [auto with frame]
  | |- off _ (set_media_type _ _ _ _) => solve [auto with frame]
  | |- off _ (hal_device_merge_with_rewrite _ _ _ _) => solve [auto with frame]
  | |- off _ device_pm_remove_optional_props => solve [auto with frame]
  end.
Ltac off_tac :=
  cbv zeta;
  lazymatch goal with
  | |- off _ (dbind _ _) => apply off_bind; [off_tac | intros; off_tac]
  | |- off _ (match ?x with _ => _ end) => destruct x; off_tac
  | |- off _ ?m => first [off_prim | unfold_head m; off_tac]
  end.
Ltac puts_tac :=
  cbv zeta;
  lazymatch goal with
  | |- puts _ _ (dbind _ _) =>
      first [ apply puts_right; [off_prim | intros; puts_tac]
            | apply puts_left; [puts_tac | intros; off_tac] | apply puts_right; [off_tac | intros; puts_tac] ]
  | |- puts _ _ (match ?x with _ => _ end) => destruct x; puts_tac
  | |- puts ?k _ (hal_device_property_set_string ?k _) => apply puts_here
  | |- puts _ _ (hal_device_property_set_string _ _) => fail
  | |- puts _ _ ?m => unfold_head m; puts_tac
  end.
Ltac a_off_prim :=
  first [ solve [auto with frame] | apply a_off_ret | apply a_off_null | apply a_off_fault | apply a_off_read | apply a_off_globals | apply a_off_get
        | apply a_off_poll | apply a_off_other | apply a_off_guard | apply a_off_grep_any ].
Ltac a_off_tac :=
  cbv zeta;
  lazymatch goal with
  | |- a_off _ _ (abind _ _) => apply a_off_bind; [a_off_tac | intros; a_off_tac]
  | |- a_off _ _ (on_new _) => apply a_off_new; off_tac
  | |- a_off _ _ (match ?x with _ => _ end) => first [solve [auto with frame] | destruct x; a_off_tac]
  | |- a_off _ _ ?m => first [a_off_prim | unfold_head m; a_off_tac]
  end.
Ltac a_puts_tac :=
  cbv zeta;
  lazymatch goal with
  | |- a_puts _ _ anull => apply a_puts_null
  | |- a_puts _ _ (abind _ _) =>
      first [ apply a_puts_left; [a_puts_tac | intros; a_off_tac] | apply a_puts_right; [a_off_tac | intros; a_puts_tac] ]
  | |- a_puts _ _ (on_new _) => apply a_puts_new; puts_tac
  | |- a_puts _ _ (match ?x with _ => _ end) => destruct x; a_puts_tac
  | |- a_puts _ _ ?m => unfold_head m; a_puts_tac
  end.
Ltac stores_tac :=
  cbv zeta;
  lazymatch goal with
  | |- stores _ _ anull => apply stores_null
  | |- stores _ _ (abind new_device _) => apply stores_new; a_puts_tac
  | |- stores _ _ (abind _ _) => apply stores_after; intros; stores_tac
  | |- stores _ _ (match ?x with _ => _ end) => destruct x; stores_tac
  | |- stores _ _ ?m => unfold_head m; stores_tac
  end.

Ltac lacks_tac :=
  cbv zeta;
  lazymatch goal with
  | |- lacks _ anull => apply lacks_null
  | |- lacks _ (abind new_device _) => apply lacks_new; a_off_tac
  | |- lacks _ (abind _ _) => apply lacks_after; intros; lacks_tac
  | |- lacks _ (match ?x with _ => _ end) => destruct x; lacks_tac
  | |- lacks _ ?m => unfold_head m; lacks_tac
  end.

Section Handlers.
Context {P : Platform} {G : GText} {SF : Sysfs}.
Context (property_order : HalDevice -> list string).

(** The two keys: both are of the name spaces of the daemon, not of a bus. *)
Definition place_key (k : string) : Prop := k = "linux.sysfs_path" \/ k = "info.parent".

Lemma off_chpids k ids i : place_key k -> off k (set_chpids ids i).
Proof.
  intros Hk. revert i. induction ids as [|z ids IH]; intros i; cbn [set_chpids]; [off_tac|].
  destruct (z =? 0); [off_tac|]. apply off_bind; [|auto].
  eapply off_keeps; [eauto with hal|]. destruct Hk as [-> | ->]; discriminate.
Qed.
Lemma off_rewrite k order p : place_key k -> off k (hal_device_merge_with_rewrite order p "usb." "usb_device.").
Proof.
  intros Hk. apply off_foreach. intros key. unfold merge_device_rewrite_cb. destruct Hk as [-> | ->]; off_tac.
Qed.
Lemma off_name k keys name m : place_key k -> k ∉ keys -> off k m -> off k (set_name keys name m).
Proof.
  intros Hk N Hm. unfold set_name. destruct name as [name|]; [|done]. apply off_all.
  apply Forall_forall. intros key Hkey. eapply off_keeps; [eauto with hal|]. by intros ->.
Qed.
Lemma off_if k keys v : k ∉ keys -> off k (set_if keys v).
Proof.
  intros N. unfold set_if. destruct v as [v|]; [|off_tac]. apply off_all.
  apply Forall_forall. intros key Hkey. eapply off_keeps; [eauto with hal|]. by intros ->.
Qed.
Lemma off_optional k : place_key k -> off k device_pm_remove_optional_props.
Proof. intros Hk. apply off_each. destruct Hk as [-> | ->]; by apply (bool_decide_unpack _). Qed.
Lemma off_media k p name parent z : place_key k -> off k (set_media_type p name parent z).
Proof.
  intros Hk. unfold set_media_type, ether_kind.
  destruct (bool_decide _); [|destruct (_ || _); [|destruct (is_dir _)]]; destruct Hk as [-> | ->]; off_tac.
Qed.
Lemma off_sysfs_path : place_key "linux.sysfs_path". Proof. by left. Qed.
Lemma off_parent : place_key "info.parent". Proof. by right. Qed.
#[local] Hint Resolve off_sysfs_path off_parent off_chpids off_rewrite off_media off_optional : frame.
#[local] Hint Extern 5 (off _ (set_name _ _ _)) =>
  apply off_name; [auto with frame | by apply (bool_decide_unpack _) | off_tac] : frame.
#[local] Hint Extern 5 (off _ (set_if _ _)) => apply off_if; by apply (bool_decide_unpack _) : frame.

Lemma off_tape k p m : place_key k -> ccw_add_tape_properties p = Some m -> off k m.
Proof.
  intros Hk. unfold ccw_add_tape_properties. destruct (is_online p); [destruct (hal_util_get_int_from_file _ _ _ _) as [z|]|].
  - destruct (z <? 0); [done|]. destruct (_ !! Z.to_nat z) as [text|]; [|done]. intros [= <-]. destruct Hk as [-> | ->]; off_tac.
  - intros [= <-]. destruct Hk as [-> | ->]; off_tac.
  - intros [= <-]. destruct Hk as [-> | ->]; off_tac.
Qed.
Lemma a_off_tape k p : place_key k ->
  a_off k any (match ccw_add_tape_properties p with Some m => on_new m | None => afault end).
Proof.
  intros Hk. destruct (ccw_add_tape_properties p) as [m|] eqn:E; [|apply a_off_fault]. by apply a_off_new, (off_tape k p).
Qed.

(** The setters that a search in a file gives. *)
Lemma a_off_int_elem k key dir file start el base reuse :
  k <> key -> a_off k (off k) (agrep (hal_util_set_int_elem_from_file fopen key dir file start el base reuse)).
Proof.
  intros N. apply a_off_grep. intros st m st'. unfold hal_util_set_int_elem_from_file.
  destruct (hal_util_grep_string_elem_from_file _ _ _ _ _ _ _) as [[[v|] ?]|]; [|intros [= <- <-]; off_tac|done].
  cbn. intros [= <- <-]. destruct (long_digits _ _); [|off_tac]. eapply off_keeps; [eauto with hal | done].
Qed.
Lemma a_off_string_elem k key dir file start el reuse :
  k <> key -> a_off k (off k) (agrep (hal_util_set_string_elem_from_file fopen key dir file start el reuse)).
Proof.
  intros N. apply a_off_grep. intros st m st'. unfold hal_util_set_string_elem_from_file.
  destruct (hal_util_grep_string_elem_from_file _ _ _ _ _ _ _) as [[[v|] ?]|]; [|intros [= <- <-]; off_tac|done].
  cbn. intros [= <- <-]. eapply off_keeps; [eauto with hal | done].
Qed.
Lemma a_off_serial k p : place_key k -> a_off k any (pnp_set_serial_info p).
Proof.
  intros Hk. unfold pnp_set_serial_info. eapply a_off_with; [apply a_off_int_elem; by destruct Hk as [-> | ->]|].
  intros m Hm. apply a_off_bind; [by apply a_off_new|]. intros _.
  eapply a_off_with; [apply a_off_string_elem; by destruct Hk as [-> | ->]|].
  intros m' Hm'. apply a_off_bind; [by apply a_off_new|]. intros ok. destruct Hk as [-> | ->]; a_off_tac.
Qed.
#[local] Hint Resolve a_off_tape a_off_serial : frame.

(** What holds for the handlers of every build. *)
Definition everything : build := mk_build true true true true true true true true.
Lemma each_handler (Q : DevHandler -> Prop) b :
  Forall Q (dev_handlers property_order everything) -> Forall Q (dev_handlers property_order b).
Proof.
  unfold dev_handlers. rewrite !Forall_app. unfold only_if. cbn [everything USE_S390 USE_FIREWIRE USE_OPENFIRMWARE USE_PCI USE_PCMCIA
    USE_ISAPC USE_ARCH_PS3 USE_VIRT].
  intros H. decompose [and] H. repeat split; try done; match goal with |- Forall _ (if ?c then _ else _) => by destruct c end.
Qed.

Ltac open_handler :=
  lazymatch goal with |- context [h_add ?h] => let n := head_of h in unfold n, plain; cbn [h_add] end.

Lemma handlers_store_path b e t path file parent :
  Forall (fun h => stores "linux.sysfs_path" path (h_add h e t path file parent)) (dev_handlers property_order b).
Proof.
  apply each_handler. unfold dev_handlers. cbn [everything only_if app USE_S390 USE_FIREWIRE USE_OPENFIRMWARE USE_PCI USE_PCMCIA
    USE_ISAPC USE_ARCH_PS3 USE_VIRT].
  repeat apply Forall_cons_2; [..|apply Forall_nil_2]; open_handler.
  all: stores_tac.
Qed.

(** The parent that a device gets: the machine for backlights and power supplies, and for a device without a known parent;
    none for a device of USB without a known parent, nor for one of sound that has no file either. *)
Definition expected_parent (h : DevHandler) (file : string) (parent : option HalDevice) : option string :=
  let named s := h_subsystem h =s? s in
  if named "backlight" || named "power_supply" then Some COMPUTER
  else match parent with
       | Some p => Some (udi p)
       | None => if named "usb" || (named "sound" && (file =s? "")) then None else Some COMPUTER
       end.
Definition stores_parent (v : option string) (m : am unit) : Prop :=
  match v with Some u => stores "info.parent" u m | None => lacks "info.parent" m end.

Lemma net_stores_parent e path :
  stores "info.parent" COMPUTER (net_add (find_in e) path None).
Proof.
  unfold net_add. destruct (find_in e COMPUTER) as [p|] eqn:E; [|apply stores_new; a_puts_tac].
  assert (udi p = COMPUTER) as Hp; [|rewrite Hp; apply stores_new; a_puts_tac].
  unfold find_in in E. destruct (env_find e COMPUTER) as [id|] eqn:F; [|done]. cbn in E. unfold env_find in F.
  destruct (find_device _ _ (gdl e)) as [i|] eqn:Ei; [injection F as ->|];
    [apply find_device_some in Ei as (d & Hd & Hu & _) | apply find_device_some in F as (d & Hd & Hu & _)];
    bool_hyps; by simplify_eq.
Qed.

Ltac eval_tests :=
  repeat match goal with |- context [?a =s? ?b] =>
    let r := eval vm_compute in (a =s? b) in
    lazymatch r with true => change (a =s? b) with true | false => change (a =s? b) with false end end.

Lemma handlers_store_parent b e t path file parent :
  Forall (fun h => stores_parent (expected_parent h file parent) (h_add h e t path file parent)) (dev_handlers property_order b).
Proof.
  apply each_handler. unfold dev_handlers. cbn [everything only_if app USE_S390 USE_FIREWIRE USE_OPENFIRMWARE USE_PCI USE_PCMCIA
    USE_ISAPC USE_ARCH_PS3 USE_VIRT].
  destruct parent as [parent|]; [|destruct (file =s? "") eqn:Hf];
  (repeat apply Forall_cons_2; [..|apply Forall_nil_2]; open_handler; unfold expected_parent; cbn [h_subsystem];
   rewrite ?Hf; eval_tests; cbn [orb andb stores_parent]).
  all: try first [solve [stores_tac] | solve [lacks_tac]].
  - apply net_stores_parent.
  - apply net_stores_parent.
  - unfold sound_add. rewrite Hf. stores_tac.
Qed.

(** C18 A handler that builds a device, whichever of the table and whatever the files of the kernel hold, stores in it the path of
    the event and the UDI of its parent, as strings of valid UTF-8.  The parent is the machine for a backlight and a power supply, and
    for a device whose parent is not known, but that a USB device, or a sound device without a file, then has none. *)
Theorem devices_know_their_place b h e t path file parent s u s' :
  h ∈ dev_handlers property_order b -> h_add h e t path file parent s = inr (Some u, s') ->
  hal_device_property_get_string (b_dev s') "linux.sysfs_path" = Some (utf8_sanitize path) /\
  hal_device_property_get_string (b_dev s') "info.parent" = utf8_sanitize <$> expected_parent h file parent.
Proof.
  intros Hh E.
  pose proof (proj1 (Forall_forall _ _) (handlers_store_path b e t path file parent) h Hh s) as H1.
  pose proof (proj1 (Forall_forall _ _) (handlers_store_parent b e t path file parent) h Hh) as H2.
  unfold hal_device_property_get_string, hal_device_property_find. rewrite E in H1. rewrite H1. split; [done|].
  cbn beta in H2. destruct (expected_parent h file parent) as [v|]; specialize (H2 s); rewrite E in H2; by rewrite H2.
Qed.
End Handlers.

(** ** Instances *)
Module Instances.
Import AsciiPlatform Example.

#[local] Instance text : GText := {|
  g_strcanon s valid sub := string_map (fun c => if strchr valid c then c else sub) s;
  g_strsplit_set s seps := [s];
  g_strchug := skip_space;
|}.
#[local] Instance no_files : Sysfs := {|
  fopen _ := None;
  readlink _ := None;
  stat_ok _ := false;
  is_dir _ := false;
  strtod _ := (S754_zero false, false);
  has_wireless_extensions _ := false;
  uninit _ := 0;
  pci_ids_text := "";
  usb_ids_text := "";
  ids_line_buffer := "";
|}.
Definition before : building :=
  mk_building no_device 0 (mk_globals false false false false false ∅ (mk_grep false (mk_grep_buffer "" "") (mk_grep_buffer "" "")) 0)
    [] 0.

Lemma devices_know_their_place_witness :
  match h_add dev_handler_video4linux (h_env start) 0 "/sys/hub/camera" "/dev/video0" (Some volume) before with
  | inr (Some _, s) =>
      hal_device_property_get_string (b_dev s) "linux.sysfs_path" = Some "/sys/hub/camera" /\
      hal_device_property_get_string (b_dev s) "info.parent" = Some VOLUME
  | _ => False
  end.
Proof.
  destruct (h_add dev_handler_video4linux _ _ _ _ _ before) as [f|[[u|] s]] eqn:E; [by vm_compute in E| |by vm_compute in E].
  assert (dev_handler_video4linux ∈ dev_handlers order everything) as H by (unfold dev_handlers; cbn; repeat first [apply list_elem_of_here | apply list_elem_of_further]).
  destruct (devices_know_their_place order everything _ (h_env start) 0 "/sys/hub/camera" "/dev/video0" (Some volume) before u s H E)
    as [-> ->]. by vm_compute.
Defined.
End Instances.
