(* ===== verification/LinuxTheory.v ===== *)
(** * What handlers do with an event

    A handler ends its event, or leaves something pending that will: the counts
    of both are kept equal by every computation of the pipeline.  [accounts] says
    how often a computation ends the event of a token or waits for it, [aside]
    that it leaves queue and pending answers alone, [once] that it ends the event
    or waits for it exactly once. *)

From Stdlib Require Import ZArith Lia Ascii SpecFloat.
From stdpp Require Import base list gmap strings option pretty fin_maps.
From S2P Require Import Prelude CStd Property Device DeviceStore FdiRules FdiInterp AccessCheck Bus Partutil Util Dbus DbusManager DbusTheory Power Hotplug Runner LinuxSysfs LinuxBuses LinuxPower LinuxClasses LinuxDevice Blockdev Acpi ApmPmu LinuxQueue.

(** ** Counting *)
Definition in_progress (t : nat) (st : hotplug) : nat :=
  length (List.filter (fun e => bool_decide (ev_id e = t)) (hotplug_events_in_progress st)).

(** Whether a call ends the event. *)
Definition ends (c : queue_call) : nat := match c with CallEnd | CallReposted => 1 | _ => 0 end.
Definition ends_of (l : list queue_call) : nat := foldr (fun c n => ends c + n)%nat 0%nat l.

Definition token_of (k : continuation) : option nat :=
  match k with
  | AfterPreprobe _ _ t | AfterProbe _ _ t | AfterAdd _ t | AfterRemove _ t | AfterBlockPreprobe _ _ t | AfterBlockProbe _ t
  | AfterUnmount _ t | AfterPowerRemove _ t => Some t
  | AfterRemoveChild _ | AfterMediaCheck _ => None
  end.
Definition waits_on (t : nat) (k : continuation) : nat := if decide (token_of k = Some t) then 1 else 0.
Definition waiting_in (t : nat) (m : gmap nat continuation) : nat := map_fold (fun _ k n => waits_on t k + n)%nat 0%nat m.
Definition waiting (t : nat) (s : linux) : nat := waiting_in t (lx_pending s).

Lemma lx_waiting_new t m n k : m !! n = None -> waiting_in t (<[n := k]> m) = (waits_on t k + waiting_in t m)%nat.
Proof. intros H. unfold waiting_in. rewrite map_fold_insert_L; [done| |done]. intros. lia. Qed.

Lemma lx_waiting_delete t m n k : m !! n = Some k -> waiting_in t m = (waits_on t k + waiting_in t (delete n m))%nat.
Proof. intros H. unfold waiting_in. rewrite (map_fold_delete_L _ _ n k m); [done| |done]. intros. lia. Qed.

Lemma remove_counts id t l :
  length (List.filter (fun e => bool_decide (ev_id e = t)) (list_remove_event id l)) =
  (length (List.filter (fun e => bool_decide (ev_id e = t)) l) - if decide (id = t) then 1 else 0)%nat.
Proof.
  induction l as [|e l IH]; cbn [list_remove_event List.filter]; [by case_decide|].
  destruct (decide (ev_id e = id)) as [->|Hne].
  - rewrite (bool_decide_eq_true_2 (id = id)) by done. case_decide; subst.
    + rewrite bool_decide_eq_true_2 by done. cbn [length]. lia.
    + rewrite bool_decide_eq_false_2 by done. lia.
  - rewrite (bool_decide_eq_false_2 (ev_id e = id)) by done. cbn [List.filter].
    destruct (decide (ev_id e = t)) as [Ht|Hn].
    + rewrite bool_decide_eq_true_2 by done. cbn [length]. rewrite IH. case_decide; [congruence | lia].
    + by rewrite bool_decide_eq_false_2.
Qed.

Lemma run_call_counts id t st c :
  in_progress t (run_call id st c) = (in_progress t st - if decide (id = t) then ends c else 0)%nat.
Proof.
  unfold in_progress. destruct c; cbn [run_call hotplug_event_end hotplug_event_reposted hotplug_event_enqueue
    hotplug_event_enqueue_at_front hotplug_events_in_progress ends]; rewrite ?remove_counts; case_decide; lia.
Qed.

Lemma run_calls_count id t st l :
  in_progress t (foldl (run_call id) st l) = (in_progress t st - if decide (id = t) then ends_of l else 0)%nat.
Proof.
  revert st. induction l as [|c l IH]; intros st; cbn [foldl ends_of foldr]; [case_decide; lia|].
  rewrite IH, run_call_counts. fold (ends_of l). case_decide; lia.
Qed.

(** ** What a computation does for an event *)
Definition fresh_keys (s : linux) : Prop := forall n, (lx_next s <= n)%nat -> lx_pending s !! n = None.

(** Events that have a handler: those of power management are added or removed. *)
Definition served (e : HotplugEvent) : Prop :=
  match type e with
  | HOTPLUG_EVENT_ACPI | HOTPLUG_EVENT_APM | HOTPLUG_EVENT_PMU =>
      action e = HOTPLUG_ACTION_ADD \/ action e = HOTPLUG_ACTION_REMOVE
  | _ => True
  end.
Definition call_served (c : queue_call) : Prop :=
  match c with CallEnqueue e | CallEnqueueAtFront e => served e | CallEnd | CallReposted => True end.

(** [n] tells how often the event of [t] was ended or is waited for. *)
Definition accounts {A} (t : nat) (n : A -> nat) (m : xm A) : Prop := forall s, fresh_keys s ->
  match m s with
  | inl _ => True
  | inr (x, s', _) =>
      fresh_keys s' /\
      (exists calls, lx_queue s' = foldl (run_call t) (lx_queue s) calls /\
                     (ends_of calls + waiting t s' = n x + waiting t s)%nat /\ Forall call_served calls) /\
      (forall u, u <> t -> waiting u s' = waiting u s)
  end.

Lemma accounts_bind {A B} t n1 n (m : xm A) (k : A -> xm B) :
  accounts t n1 m -> (forall x, accounts t (fun y => n y - n1 x)%nat (k x)) ->
  (forall x y, n1 x <= n y)%nat -> accounts t n (xbind m k).
Proof.
  intros Hm Hk Hle s F. unfold xbind. specialize (Hm s F). destruct (m s) as [?|[[x s1] t1]]; [done|].
  destruct Hm as (F1 & (c1 & Q1 & E1 & S1) & O1). specialize (Hk x s1 F1). destruct (k x s1) as [?|[[y s2] t2]]; [done|].
  destruct Hk as (F2 & (c2 & Q2 & E2 & S2) & O2). split; [done|]. split.
  - exists (c1 ++ c2). rewrite foldl_app, <- Q1. split; [done|]. split; [|by apply Forall_app].
    assert (ends_of (c1 ++ c2) = ends_of c1 + ends_of c2)%nat as ->.
    { unfold ends_of. rewrite foldr_app. clear. induction c1; cbn in *; lia. }
    specialize (Hle x y). lia.
  - intros u Hu. by rewrite O2, O1.
Qed.

(** A computation that leaves the queue and what is waited for. *)
Definition aside {A} (m : xm A) : Prop := forall s,
  match m s with
  | inl _ => True
  | inr (_, s', _) => lx_queue s' = lx_queue s /\ lx_pending s' = lx_pending s /\ lx_next s' = lx_next s
  end.

Lemma aside_accounts {A} t (m : xm A) : aside m -> accounts t (fun _ => 0%nat) m.
Proof.
  intros H s F. specialize (H s). destruct (m s) as [?|[[x s'] t']]; [done|]. destruct H as (Q & W & N).
  unfold fresh_keys, waiting in *. rewrite Q, W, N. split; [done|]. split; [by exists []|done].
Qed.
Lemma aside_bind {A B} (m : xm A) (k : A -> xm B) : aside m -> (forall x, aside (k x)) -> aside (xbind m k).
Proof.
  intros Hm Hk s. unfold xbind. specialize (Hm s). destruct (m s) as [?|[[x s1] t1]]; [done|].
  specialize (Hk x s1). destruct (k x s1) as [?|[[y s2] t2]]; [done|]. naive_solver congruence.
Qed.
Lemma aside_ret {A} (x : A) : aside (xret x). Proof. by intros s. Qed.
Lemma aside_get {A} (f : linux -> A) : aside (xget f). Proof. by intros s. Qed.
Lemma aside_act l : aside (xact l). Proof. by intros s. Qed.
Lemma aside_fault {A} f : aside (@xfault A f). Proof. by intros s. Qed.
Lemma aside_globals g : aside (xglobals g). Proof. by intros s. Qed.
Lemma aside_h {A} (m : hm A) : aside (xh m).
Proof. intros s. unfold xh. by destruct (m (lx_hald s)) as [?|[[x h] t]]. Qed.
Lemma aside_device id : aside (the_device id).
Proof. apply aside_bind; [apply aside_get|]. intros [d|]; [apply aside_ret | by intros s]. Qed.

Lemma accounts_after {A B} t n (m : xm A) (k : A -> xm B) :
  aside m -> (forall x, accounts t n (k x)) -> accounts t n (xbind m k).
Proof.
  intros Hm Hk. apply (accounts_bind t (fun _ => 0%nat)); [by apply aside_accounts| |intros; lia].
  intros x s F. specialize (Hk x s F). destruct (k x s) as [?|[[y s2] t2]]; [done|]. by rewrite Nat.sub_0_r.
Qed.

(** Calls on the queue. *)
Lemma accounts_calls t f n (calls : hotplug -> list queue_call) :
  (forall st, f st = foldl (run_call t) st (calls st) /\ ends_of (calls st) = n /\ Forall call_served (calls st)) ->
  accounts t (fun _ => n) (xqueue f).
Proof.
  intros H s F. split; [done|]. split; [|done]. destruct (H (lx_queue s)) as (E & N & S). exists (calls (lx_queue s)).
  cbn [lx_queue]. split; [done|]. split; [|done]. unfold waiting. cbn [lx_pending]. lia.
Qed.

Lemma accounts_wait t k :
  (forall u, u <> t -> token_of k <> Some u) -> accounts t (fun _ => waits_on t k) (wait_for k).
Proof.
  intros Hk s F. cbn. pose proof (F (lx_next s) ltac:(lia)) as Hn. split; [|split].
  - intros n H. cbn in *. rewrite lookup_insert_ne by lia. apply F. lia.
  - exists []. split; [done|]. split; [|done]. unfold waiting. cbn. rewrite lx_waiting_new by done. lia.
  - intros u Hu. unfold waiting. cbn. rewrite lx_waiting_new by done. unfold waits_on. rewrite decide_False; [done|]. by apply Hk.
Qed.

Create HintDb linux.

Section Ends.
Context {P : Platform} {G : GText} {SF : Sysfs} {BF : BlockFiles}.
Context (stale : string) (property_order : HalDevice -> list string) (handlers : list DevHandler).
Context (connected initialising : bool).
Context (hald_runner_start hald_runner_start_singleton : string -> bool).
Context (stack : list ascii) (rules : cache) (depth udi_fuel link_fuel walk_fuel : nat) (runner_connected : bool) (cur_time : Z).

#[local] Notation add_done := (dev_callouts_add_done property_order connected initialising hald_runner_start hald_runner_start_singleton).
#[local] Notation after_probing := (add_dev_after_probing property_order connected initialising hald_runner_start
  hald_runner_start_singleton stack rules depth udi_fuel).
#[local] Notation probing_done := (add_dev_probing_helper_done property_order connected initialising hald_runner_start
  hald_runner_start_singleton stack rules depth udi_fuel).
#[local] Notation preprobing_done := (dev_callouts_preprobing_done property_order connected initialising hald_runner_start
  hald_runner_start_singleton stack rules depth udi_fuel runner_connected).
#[local] Notation begin_dev := (begin_dev property_order handlers connected initialising hald_runner_start
  hald_runner_start_singleton stack rules depth udi_fuel runner_connected cur_time).
#[local] Notation finish_callouts := (finish_callouts property_order connected initialising hald_runner_start
  hald_runner_start_singleton stack rules depth udi_fuel runner_connected).
#[local] Notation finish_prober := (finish_prober property_order connected initialising hald_runner_start
  hald_runner_start_singleton stack rules depth udi_fuel).

#[local] Notation block_probed := (add_blockdev_probing_helper_done property_order connected initialising hald_runner_start
  hald_runner_start_singleton stack rules depth udi_fuel).
#[local] Notation run_block_prober := (run_block_prober property_order connected initialising hald_runner_start
  hald_runner_start_singleton stack rules depth udi_fuel runner_connected).
#[local] Notation storage_preprobed := (blockdev_callouts_preprobing_storage_done property_order connected initialising
  hald_runner_start hald_runner_start_singleton stack rules depth udi_fuel runner_connected).
#[local] Notation volume_preprobed := (blockdev_callouts_preprobing_volume_done property_order connected initialising
  hald_runner_start hald_runner_start_singleton stack rules depth udi_fuel runner_connected).
#[local] Notation begin_block := (begin_block link_fuel property_order connected initialising hald_runner_start
  hald_runner_start_singleton stack rules depth udi_fuel walk_fuel runner_connected).
#[local] Notation finish_block := (finish_block property_order connected initialising hald_runner_start
  hald_runner_start_singleton stack rules depth udi_fuel runner_connected).
#[local] Notation unmount_cb := (force_unmount_cb property_order connected initialising).
#[local] Notation add_blockdev := (hotplug_event_begin_add_blockdev link_fuel property_order connected initialising hald_runner_start
  hald_runner_start_singleton stack rules depth udi_fuel walk_fuel runner_connected).
#[local] Notation remove_blockdev := (hotplug_event_begin_remove_blockdev property_order connected initialising runner_connected).

Definition once {A} (t : nat) (m : xm A) : Prop := accounts t (fun _ => 1%nat) m.

Lemma once_end t : once t (end_event t).
Proof. apply (accounts_calls _ _ _ (fun _ => [CallEnd])). intros st. repeat split. by repeat constructor. Qed.

Lemma once_wait t k : token_of k = Some t -> once t (wait_for k).
Proof.
  intros Hk. pose proof (accounts_wait t k) as H. unfold waits_on in H. rewrite decide_True in H by done. apply H. congruence.
Qed.

(** Work that leaves the queue, then the rest. *)
Lemma once_after {A B} t (m : xm A) (k : A -> xm B) : aside m -> (forall x, once t (k x)) -> once t (xbind m k).
Proof. apply accounts_after. Qed.
Lemma once_then {A} t (m : xm A) (k : A -> xm unit) : once t m -> (forall x, aside (k x)) -> once t (xbind m k).
Proof.
  intros Hm Hk. apply (accounts_bind t (fun _ => 1%nat)); [done| |done]. intros x. by apply aside_accounts, Hk.
Qed.

#[local] Hint Resolve aside_ret aside_get aside_act aside_fault aside_globals aside_h aside_device once_end : linux.

Lemma once_callouts t id key hald_action k callback :
  token_of k = Some t -> once t callback -> once t (with_callouts_of id key hald_action k callback).
Proof.
  intros Hk Hc. apply once_after; [auto with linux|]. intros d. destruct (hal_device_property_dup_strlist_as_strv d key); [|done].
  apply once_then; [by apply once_wait | auto with linux].
Qed.

Lemma once_add_done id t : once t (add_done id t).
Proof. apply once_after; auto with linux. Qed.
Lemma once_remove_done id t : once t (dev_callouts_remove_done property_order connected initialising id t).
Proof. apply once_after; auto with linux. Qed.

Lemma once_after_probing id h t : once t (after_probing id h t).
Proof.
  apply once_after; [auto with linux|]. intros d. apply once_after; [auto with linux|]. intros e.
  destruct (h_compute_udi h (computed_udi udi_fuel e) d) as [f|[[] d']]; [by intros s | |].
  - apply once_after; [auto with linux|]. intros _. apply once_callouts; [done | apply once_add_done].
  - apply once_after; auto with linux.
Qed.

Lemma once_probing_done d et rc h t : once t (probing_done d et rc h t).
Proof.
  destruct d as [id|]; cbn [add_dev_probing_helper_done]; [|apply once_end]. destruct (negb _ || negb _).
  - apply once_after; auto with linux.
  - apply once_after; [auto with linux|]. intros d. destruct (match h_post_probing h with Some _ => _ | None => _ end);
      [apply once_after_probing | apply once_end].
Qed.

Lemma once_preprobing_done id h t : once t (preprobing_done id h t).
Proof.
  apply once_after; [auto with linux|]. intros d. destruct (hal_device_property_get_bool d "info.ignore").
  - apply once_after; auto with linux.
  - destruct (match h_get_prober h with Some _ => _ | None => _ end) as [prober|]; [|apply once_after_probing].
    destruct runner_connected; [|apply once_probing_done].
    apply once_then; [by apply once_wait | auto with linux].
Qed.

(** A host that is missing is asked for, and the event waits behind it. *)
Lemma missing_host_added p e : served e ->
  accounts (ev_id e) (fun b : bool => if b then 1 else 0)%nat (missing_scsi_host p e HOTPLUG_ACTION_ADD).
Proof.
  intros Hs. unfold missing_scsi_host.
  destruct (scan_scsi _) as [|? [|? [|? [|? []]]]]; try by apply (aside_accounts _ (xret false)), aside_ret.
  destruct (reposted e); [by apply (aside_accounts _ (xret false)), aside_ret|].
  destruct (find_host _ _) as [[host num]|]; [|by apply (aside_accounts _ (xret false)), aside_ret].
  destruct (negb _); [by apply (aside_accounts _ (xret false)), aside_ret|].
  apply accounts_after; [auto with linux|]. intros present. apply accounts_after; [auto with linux|]. intros id.
  destruct present; [by apply (aside_accounts _ (xret false)), aside_ret|].
  intros s F. cbn. split; [done|]. split; [|done].
  exists [CallEnqueueAtFront e; CallEnqueueAtFront (host_event id HOTPLUG_ACTION_ADD host); CallReposted]. split; [done|].
  split; [unfold waiting; cbn [ends_of foldr ends lx_pending]; lia | by repeat constructor].
Qed.

Lemma missing_host_removed p e : accounts (ev_id e) (fun _ => 0)%nat (missing_scsi_host p e HOTPLUG_ACTION_REMOVE).
Proof.
  unfold missing_scsi_host. destruct (scan_scsi _) as [|? [|? [|? [|? []]]]]; try by apply aside_accounts, aside_ret.
  destruct (reposted e); [by apply aside_accounts, aside_ret|].
  destruct (find_host _ _) as [[host num]|]; [|by apply aside_accounts, aside_ret].
  destruct (negb _); [by apply aside_accounts, aside_ret|].
  apply accounts_after; [auto with linux|]. intros present. apply accounts_after; [auto with linux|]. intros id.
  destruct present; [|by apply aside_accounts, aside_ret].
  intros s F. cbn. split; [done|]. split; [|done]. exists [CallEnqueue (host_event id HOTPLUG_ACTION_REMOVE host)]. split; [done|].
  split; [unfold waiting; cbn [ends_of foldr ends lx_pending]; lia | by repeat constructor].
Qed.

Lemma aside_do_others p l : aside (do_others connected initialising p l).
Proof.
  induction l as [|[o m] l IH]; cbn [do_others]; [auto with linux|]. apply aside_bind; [auto with linux|]. intros c.
  apply aside_bind; [|done]. destruct (match o with TheParent => p | TheComputer => c end); auto with linux.
Qed.

Lemma aside_run_add h p f parent : aside (run_add connected initialising cur_time h p f parent).
Proof.
  unfold run_add. apply aside_bind; [auto with linux|]. intros e. apply aside_bind; [auto with linux|]. intros g.
  destruct (h_add h _ _ _ _ _ _) as [x|[built b]]; [auto with linux|].
  repeat (apply aside_bind; [auto using aside_do_others with linux|]; intros ?).
  destruct built; (apply aside_bind; auto with linux).
Qed.

Lemma once_try_handlers l e parent : served e ->
  once (ev_id e) (try_handlers property_order connected initialising hald_runner_start hald_runner_start_singleton
                    stack rules depth udi_fuel runner_connected cur_time l e parent).
Proof.
  intros Hs. induction l as [|h l IH]; cbn [try_handlers]; [apply once_end|]. destruct (_ =s? _); [|done].
  apply (accounts_bind _ (fun b : bool => if b then 1 else 0)%nat); [| |intros [] ?; lia].
  - destruct (_ =s? _); [by apply missing_host_added | by apply (aside_accounts _ (xret false)), aside_ret].
  - intros []; [by apply aside_accounts, aside_ret|]. apply accounts_after; [apply aside_run_add|].
    intros [id|]; [|done]. apply once_after; [auto with linux|]. intros _.
    apply once_callouts; [done | apply once_preprobing_done].
Qed.

Definition nothing {A} (t : nat) (m : xm A) : Prop := accounts t (fun _ => 0%nat) m.

Lemma nothing_bind {A B} t (m : xm A) (k : A -> xm B) : nothing t m -> (forall x, nothing t (k x)) -> nothing t (xbind m k).
Proof. intros Hm Hk. by apply (accounts_bind t (fun _ => 0%nat)). Qed.
Lemma once_next {A B} t (m : xm A) (k : A -> xm B) : nothing t m -> (forall x, once t (k x)) -> once t (xbind m k).
Proof. intros Hm Hk. apply (accounts_bind t (fun _ => 0%nat)); [done | done | intros; lia]. Qed.

Lemma nothing_remove_children t l : nothing t (remove_children property_order connected initialising l).
Proof.
  induction l as [|child l IH]; cbn [remove_children]; [by apply aside_accounts, aside_ret|].
  apply nothing_bind; [by apply aside_accounts, aside_device|]. intros d. apply nothing_bind; [|done].
  destruct (hal_device_property_get_string d "linux.sysfs_path"); [by apply aside_accounts, aside_ret|].
  apply nothing_bind; [by apply aside_accounts, aside_device|]. intros d'.
  destruct (hal_device_property_dup_strlist_as_strv d' _); [|by apply aside_accounts, aside_h].
  apply nothing_bind; [|intros n; by apply aside_accounts, aside_act].
  pose proof (accounts_wait t (AfterRemoveChild child)) as H. by apply H.
Qed.

Lemma aside_refresh id r : aside (run_refresh connected initialising id r).
Proof.
  unfold run_refresh. cbv zeta.
  assert (U : aside (let@ saved := xh (dev_op connected initialising id (rr_op r)) in
                     let@ g := xget lx_globals in xglobals (set_saved saved g))%hal).
  { apply aside_bind; [auto with linux|]. intros saved. apply aside_bind; auto with linux. }
  apply aside_bind; [|auto with linux]. destruct (rr_atomic r); [|done].
  apply aside_bind; [auto with linux|]. intros _. apply aside_bind; [done | auto with linux].
Qed.

Lemma once_refresh_dev e id : once (ev_id e) (hotplug_event_refresh_dev handlers connected initialising cur_time e id).
Proof.
  apply once_after; [|intros _; apply once_end]. destruct (List.find _ _) as [h|]; [|auto with linux].
  destruct (h_refresh h) as [refresh|]; [|auto with linux].
  repeat (apply aside_bind; [auto with linux|]; intros ?). destruct (refresh _ _ _ _); [auto with linux | apply aside_refresh].
Qed.

Lemma once_remove_dev e : once (ev_id e) (hotplug_event_begin_remove_dev property_order handlers connected initialising e).
Proof.
  apply once_after; [auto with linux|]. intros [id|]; [|apply once_end]. destruct (existsb _ _); [|apply once_end].
  apply once_next; [destruct (_ =s? _); [apply missing_host_removed | by apply aside_accounts, aside_ret]|]. intros _.
  apply once_after; [auto with linux|]. intros d. apply once_after; [auto with linux|]. intros children.
  apply once_next; [apply nothing_remove_children|]. intros _. apply once_callouts; [done | apply once_remove_done].
Qed.

Lemma once_begin e c : served e -> once (ev_id e) (begin_dev e c).
Proof.
  intros Hs. destruct c; cbn [LinuxDevice.begin_dev]; try apply once_end.
  - apply once_after; [auto with linux|]. intros env. unfold hotplug_event_begin_add_dev.
    destruct (hal_util_find_known_parent _ _) as [[id path]|]; [|by apply once_try_handlers].
    apply once_after; [auto with linux|]. intros _. apply once_after; [auto with linux|]. intros d.
    destruct (hal_device_property_get_bool d "info.ignore"); [apply once_end | by apply once_try_handlers].
  - apply once_remove_dev.
  - apply once_after; [auto with linux|]. intros env. destruct (match at_sysfs_path _ _ with Some _ => _ | None => _ end); [|apply once_end].
    apply once_after; [auto with linux|]. intros _. apply once_refresh_dev.
  - apply once_after; [auto with linux|]. intros env. destruct (match at_sysfs_path _ _ with Some _ => _ | None => _ end); [|apply once_end].
    apply once_after; [apply aside_bind; auto with linux|]. intros _. apply once_refresh_dev.
Qed.

(** ** Disks and volumes *)
Lemma once_so_far {A B} t (m : xm A) (k : A -> xm B) : once t m -> (forall x, nothing t (k x)) -> once t (xbind m k).
Proof. intros Hm Hk. by apply (accounts_bind t (fun _ => 1%nat)). Qed.

Lemma nothing_enqueue t e : (forall st, served (e st)) -> nothing t (xqueue (fun st => hotplug_event_enqueue (e st) st)).
Proof.
  intros Hs. apply (accounts_calls _ _ _ (fun st => [CallEnqueue (e st)])). intros st.
  repeat split. repeat constructor. apply Hs.
Qed.

Lemma aside_atomically id m : aside (atomically connected initialising id m).
Proof. unfold atomically. repeat (apply aside_bind; [auto with linux | intros ?]). auto with linux. Qed.
Lemma aside_mounts l volumes : aside (mounts_loop connected initialising l volumes).
Proof.
  revert volumes. induction l as [|m l IH]; intros volumes; cbn [mounts_loop]; [auto with linux|].
  apply aside_bind; [auto with linux|]. intros heap. destruct (first_mounted _ _ _); [|done].
  apply aside_bind; [apply aside_atomically | done].
Qed.
Lemma aside_unmounted volumes : aside (unmounted_loop connected initialising volumes).
Proof.
  induction volumes as [|id l IH]; cbn [unmounted_loop]; [auto with linux|].
  apply aside_bind; [auto with linux|]. intros d. apply aside_bind; [auto with linux|]. intros busy.
  apply aside_bind; [|done]. destruct busy; [auto with linux|].
  apply aside_bind; [apply aside_atomically|]. intros _. destruct (_ && _); auto with linux.
Qed.
Lemma aside_mount_state d : aside (blockdev_refresh_mount_state connected initialising d).
Proof.
  unfold blockdev_refresh_mount_state. destruct proc_mounts; [|auto with linux].
  apply aside_bind; [auto with linux|]. intros volumes. apply aside_bind; [apply aside_mounts | apply aside_unmounted].
Qed.

Lemma once_discard id t : once t (discard_device id t).
Proof. apply once_after; auto with linux. Qed.
Lemma once_block_probed d et rc t : once t (block_probed d et rc t).
Proof.
  destruct d as [id|]; cbn [add_blockdev_probing_helper_done]; [|apply once_end]. apply once_after; [auto with linux|]. intros d.
  destruct (negb _ || negb _); [apply once_discard|]. apply once_after; [auto with linux|]. intros e.
  destruct (blockdev_compute_udi _ _) as [f|[[] d']]; [by intros s | | apply once_discard].
  apply once_after; [auto with linux|]. intros _. apply once_after.
  { destruct (hal_device_property_get_bool d "block.is_volume"); [apply aside_mount_state | apply aside_bind; auto with linux]. }
  intros _. apply once_after; [auto with linux|]. intros _. apply once_after; [auto with linux|]. intros d''.
  apply once_so_far; [apply once_callouts; [done | apply once_after; auto with linux]|].
  intros _. destruct (_ && _); [by apply nothing_enqueue | by apply aside_accounts, aside_ret].
Qed.
Lemma once_block_prober id prober t : once t (run_block_prober id prober t).
Proof.
  apply once_after; [auto with linux|]. intros d. destruct runner_connected; [|apply once_block_probed].
  apply once_then; [by apply once_wait | auto with linux].
Qed.
Lemma once_ignored id t : once t (ignored_block property_order connected initialising hald_runner_start hald_runner_start_singleton id t).
Proof. apply once_after; auto with linux. Qed.
Lemma once_storage_preprobed id t : once t (storage_preprobed id t).
Proof.
  apply once_after; [auto with linux|]. intros d. destruct (hal_device_property_get_bool d "info.ignore"); [apply once_ignored|].
  destruct (_ && _); [|apply once_block_prober]. destruct (get_str d "storage.bus") as [bus|]; [|by intros s].
  destruct (bus =s? _); [|apply once_block_probed]. destruct (get_str d "storage.drive_type") as [type|]; [|by intros s].
  destruct (type =s? _); [apply once_block_prober | apply once_block_probed].
Qed.
Lemma once_volume_preprobed id t : once t (volume_preprobed id t).
Proof.
  apply once_after; [auto with linux|]. intros d. destruct (hal_device_property_get_bool d "info.ignore");
    [apply once_ignored | apply once_block_prober].
Qed.
Lemma aside_block_add ev p k parent : aside (run_block_add link_fuel walk_fuel ev p k parent).
Proof.
  unfold run_block_add. apply aside_bind; [auto with linux|]. intros e. apply aside_bind; [auto with linux|]. intros g.
  destruct (build_blockdev _ _ _ _ _ _ _ _) as [f|[[volume|] b]]; [auto with linux| |];
    (repeat (apply aside_bind; [auto with linux|]; intros ?)); auto with linux.
Qed.
Lemma once_add_blockdev ev p parent : once (ev_id ev) (add_blockdev ev p parent).
Proof.
  apply once_after; [auto with linux|]. intros e. cbv zeta. generalize (parent ≫= fun id => e_heap e !! id). intros above.
  destruct (match above with Some _ => _ | None => _ end); [apply once_end|].
  destruct (kind_of_event ev) as [k|]; [|by intros s]. destruct (at_sysfs_path _ _); [apply once_end|].
  apply once_after; [apply aside_block_add|]. intros [[id volume]|]; [|apply once_end].
  apply once_after; [auto with linux|]. intros _. apply once_callouts; [done|].
  destruct volume; [apply once_volume_preprobed | apply once_storage_preprobed].
Qed.

Lemma once_unmount_cb id t : once t (unmount_cb id t).
Proof. apply once_callouts; [done|]. apply once_after; auto with linux. Qed.
Lemma once_answered t (m : xm unit) : once t m -> accounts t (fun b : bool => if b then 1 else 0)%nat (m ;@ xret true)%hal.
Proof.
  intros H s F. specialize (H s F). unfold xbind, xret. destruct (m s) as [?|[[x s'] tr]]; [done|]. exact H.
Qed.
Lemma unmount_accounts id t :
  accounts t (fun b : bool => if b then 1 else 0)%nat (force_unmount property_order connected initialising runner_connected id t).
Proof.
  apply accounts_after; [auto with linux|]. intros d. cbv zeta. destruct (_ && _); [|by apply (aside_accounts _ (xret false)), aside_ret].
  apply once_answered. destruct runner_connected; [|apply once_unmount_cb]. apply once_then; [by apply once_wait | auto with linux].
Qed.

(** The volume of a disk goes first, and the event of the disk waits behind it. *)
Lemma once_fakevolume_first e (fake : hotplug -> HotplugEvent) : served e -> (forall st, served (fake st)) ->
  once (ev_id e) (xqueue (fun st => hotplug_event_reposted (ev_id e)
                            (hotplug_event_enqueue_at_front (fake st) (hotplug_event_enqueue_at_front e st)))).
Proof.
  intros He Hf. set (calls st := [CallEnqueueAtFront e; CallEnqueueAtFront (fake st); CallReposted]).
  apply (accounts_calls _ _ _ calls). intros st. repeat split. repeat constructor; [done | apply Hf].
Qed.
Lemma once_remove_blockdev e : served e -> once (ev_id e) (remove_blockdev e).
Proof.
  intros Hs.
  apply once_after; [auto with linux|]. intros [id|]; [|apply once_end]. apply once_after; [apply aside_get|].
  intros [fake|]; [by apply (once_fakevolume_first e)|]. apply once_after; [auto with linux|]. intros d.
  destruct (hal_device_property_get_bool d "volume.is_mounted"); [|apply once_unmount_cb].
  apply (accounts_bind _ (fun b : bool => if b then 1 else 0)%nat); [apply unmount_accounts| |intros [] ?; lia].
  intros []; [by apply aside_accounts, aside_ret | apply once_unmount_cb].
Qed.

Lemma nothing_media_checked t d et rc : nothing t (block_rescan_storage_done d et rc).
Proof.
  destruct d as [id|]; cbn [block_rescan_storage_done]; [|by apply aside_accounts, aside_ret].
  apply nothing_bind; [by apply aside_accounts, aside_device|]. intros d. apply nothing_bind; [by apply aside_accounts, aside_get|].
  intros [fake|]; (destruct (rc =? 2); [|]); try (by apply aside_accounts, aside_ret); by apply nothing_enqueue.
Qed.
Lemma nothing_rescan t id : nothing t (blockdev_rescan_device runner_connected id).
Proof.
  apply nothing_bind; [by apply aside_accounts, aside_device|]. intros d.
  destruct (hal_device_property_get_bool d "block.is_volume"); [by apply aside_accounts, aside_ret|].
  apply nothing_bind; [|intros _; by apply aside_accounts, aside_ret]. destruct runner_connected; [|apply nothing_media_checked].
  apply nothing_bind; [|intros n; by apply aside_accounts, aside_act]. by apply (accounts_wait t (AfterMediaCheck id)).
Qed.
Lemma once_refresh_blockdev e id : once (ev_id e) (hotplug_event_refresh_blockdev runner_connected e id).
Proof.
  apply once_after; [auto with linux|]. intros d. apply once_next; [|intros _; apply once_end].
  destruct (hal_device_property_get_bool d _); [apply nothing_rescan | by apply aside_accounts, aside_ret].
Qed.

Lemma once_begin_block e c : served e -> once (ev_id e) (begin_block e c).
Proof.
  intros Hs. destruct c; cbn [Blockdev.begin_block]; try apply once_end.
  - apply once_after; [auto with linux|]. intros env. apply once_add_blockdev.
  - by apply once_remove_blockdev.
  - apply once_after; [auto with linux|]. intros env. destruct (at_sysfs_path _ _); [apply once_refresh_blockdev | apply once_end].
Qed.


(** ** Power management *)
Ltac aside_steps := repeat first
  [ progress cbv zeta | solve [auto with linux]
  | match goal with |- aside (match ?x with _ => _ end) => destruct x end
  | apply aside_bind; [|intros ?] ].

Lemma aside_on_dev {A} id (m : dev A) : aside (on_dev connected initialising id m). Proof. apply aside_h. Qed.
Lemma aside_xgrep {A} f : aside (@xgrep A f). Proof. unfold xgrep. aside_steps. Qed.
Lemma aside_grep_onto id f : aside (grep_onto connected initialising id f).
Proof. apply aside_bind; [apply aside_xgrep | intros m; apply aside_on_dev]. Qed.
Lemma aside_computer : aside the_computer. Proof. apply aside_get. Qed.
Lemma aside_gdl_with key value : aside (gdl_with key value). Proof. apply aside_get. Qed.
Lemma aside_backlight : aside has_backlight. Proof. apply aside_get. Qed.
Lemma aside_discard : aside discard_grep. Proof. unfold discard_grep. aside_steps. Qed.
Lemma aside_abstract id : aside (pm_abstract_props connected initialising id). Proof. unfold pm_abstract_props, on_dev. aside_steps. Qed.
Lemma aside_time id : aside (pm_calculate_time connected initialising cur_time id).
Proof. unfold pm_calculate_time, on_dev. aside_steps. Qed.
Lemma aside_update m : aside m -> aside (in_update connected m).
Proof. intros H. unfold in_update. apply aside_bind; [auto with linux|]. intros _. apply aside_bind; auto with linux. Qed.
Lemma aside_for_each f l : (forall id, aside (f id)) -> aside (for_each f l).
Proof. intros H. induction l as [|id l IH]; cbn [for_each]; [auto with linux|]. by apply aside_bind. Qed.
Lemma aside_with_path {A} id (x : A) k : (forall path, aside (k path)) -> aside (with_path id x k).
Proof. intros H. apply aside_bind; [auto with linux|]. intros d. destruct (get_str d "linux.acpi_path"); [done | auto with linux]. Qed.
Lemma aside_new_object : aside new_object.
Proof. apply aside_bind; [auto with linux|]. intros e. destruct (hal_device_new _). aside_steps. Qed.
#[local] Hint Resolve aside_on_dev aside_xgrep aside_grep_onto aside_computer aside_gdl_with aside_backlight aside_discard aside_abstract
  aside_time aside_update aside_for_each aside_with_path aside_new_object : linux.

Lemma aside_adapter_poll id : aside (ac_adapter_refresh_poll connected initialising id).
Proof. apply aside_with_path. intros path. unfold set_bool_elem. aside_steps. Qed.
Lemma aside_battery_poll id : aside (battery_refresh_poll connected initialising cur_time id).
Proof.
  apply aside_with_path. intros path. unfold int_elem_or_zero, set_bool_elem, set_string_elem, set_int_elem. aside_steps.
Qed.
Lemma aside_poll key value applies refresh : (forall id, aside (refresh id)) -> aside (poll_devices connected key value applies refresh).
Proof.
  intros H. apply aside_bind; [auto with linux|]. intros l. apply aside_for_each. intros id.
  apply aside_bind; [auto with linux|]. intros d. destruct (_ && _); [|auto with linux]. apply aside_bind; [auto with linux|]. auto with linux.
Qed.
Lemma aside_slow_poll : aside (battery_poll_infrequently connected initialising).
Proof.
  apply aside_bind; [|auto with linux]. apply aside_poll. intros id. apply aside_with_path. intros path. unfold set_int_elem. aside_steps.
Qed.
Lemma aside_poll_battery : aside (acpi_poll_battery connected initialising cur_time).
Proof. apply aside_bind; [|auto with linux]. apply aside_poll, aside_battery_poll. Qed.
Lemma aside_poll_adapter : aside (acpi_poll_acadap connected initialising).
Proof. apply aside_bind; [|auto with linux]. apply aside_poll, aside_adapter_poll. Qed.
#[local] Hint Resolve aside_adapter_poll aside_battery_poll aside_slow_poll aside_poll_battery aside_poll_adapter : linux.

Lemma aside_battery_add id path : aside (battery_refresh_add connected initialising id path).
Proof. unfold battery_refresh_add, info_string, info_int, set_string_elem, set_int_elem. aside_steps. Qed.
#[local] Hint Resolve aside_battery_add : linux.

Definition leaves_alone (h : power_handler) : Prop := forall id full, aside (ph_refresh h id full).

Lemma aside_panel id full : aside (acpi_laptop_panel_refresh connected initialising id full).
Proof. unfold acpi_laptop_panel_refresh, panel_kind. aside_steps. Qed.

Lemma acpi_refreshes_aside : Forall leaves_alone (acpi_handlers connected initialising cur_time).
Proof.
  repeat (apply Forall_cons; split); [| | | | | | | | | | | | by apply Forall_nil]; intros id full; try apply aside_panel; cbn [ph_refresh];
    apply aside_with_path; intros path; unfold set_bool_elem, set_int_elem, set_string_elem.
  all: aside_steps.
Qed.

Lemma apm_refreshes_aside : Forall leaves_alone (apm_handlers stale connected initialising).
Proof.
  assert (Laptop : aside (laptop_by_battery connected initialising)) by (unfold laptop_by_battery; aside_steps).
  repeat (apply Forall_cons; split); [| | by apply Forall_nil]; intros id full; cbn [ph_refresh].
  - unfold apm_battery_refresh, apm_battery_state, set_remaining_time. aside_steps.
  - unfold apm_ac_adapter_refresh. aside_steps.
Qed.

Lemma pmu_refreshes_aside : Forall leaves_alone (pmu_handlers connected initialising cur_time).
Proof.
  repeat (apply Forall_cons; split); [| | | | by apply Forall_nil]; intros id full; cbn [ph_refresh];
    [unfold pmu_battery_refresh | unfold pmu_ac_adapter_refresh | unfold lid_button_refresh | unfold pmu_laptop_panel_refresh];
    unfold pmu_battery_present, set_bool_elem, set_int_elem; aside_steps.
Qed.

Lemma aside_generic_add kind type refresh path parent :
  (forall id, aside (refresh id)) -> aside (generic_add connected initialising kind type refresh path parent).
Proof. intros H. unfold generic_add. aside_steps. Qed.
#[local] Hint Resolve aside_generic_add : linux.

Definition adds_aside (h : power_handler) : Prop := forall path parent, aside (ph_add h path parent).

Lemma aside_acpi_add type refresh path parent :
  (forall id full, aside (refresh id full)) -> aside (acpi_generic_add connected initialising type refresh path parent).
Proof.
  intros R. apply aside_bind; [auto with linux|]. intros g. destruct (_ && _); [auto with linux|].
  apply aside_generic_add. intros id. apply R.
Qed.
Lemma aside_button_add type refresh path parent :
  (forall id full, aside (refresh id full)) -> aside (acpi_button_add connected initialising type refresh path parent).
Proof.
  intros R. unfold acpi_button_add. destruct (button_type_of path); [|auto with linux].
  apply aside_bind; [auto with linux|]. intros g. destruct (_ || _); [auto with linux | by apply aside_acpi_add].
Qed.
Lemma aside_pmu_add type refresh path parent :
  (forall id full, aside (refresh id full)) -> aside (pmu_generic_add connected initialising type refresh path parent).
Proof.
  intros R. apply aside_bind; [auto with linux|]. intros g. destruct (_ && _); [auto with linux|].
  apply aside_generic_add. intros id. apply R.
Qed.

Lemma acpi_adds_aside : Forall adds_aside (acpi_handlers connected initialising cur_time).
Proof.
  pose proof acpi_refreshes_aside as H. unfold acpi_handlers in *.
  repeat (apply Forall_cons; split; [apply Forall_cons in H as [R _]; intros path parent | apply Forall_cons in H as [_ H]]);
    [..|by apply Forall_nil]; first [apply aside_acpi_add; exact R | apply aside_button_add; exact R].
Qed.
Lemma apm_adds_aside : Forall adds_aside (apm_handlers stale connected initialising).
Proof.
  pose proof apm_refreshes_aside as H. unfold apm_handlers in *.
  repeat (apply Forall_cons; split; [apply Forall_cons in H as [R _]; intros path parent | apply Forall_cons in H as [_ H]]);
    [..|by apply Forall_nil]; apply aside_generic_add; intros id; exact (R id false).
Qed.
Lemma pmu_adds_aside : Forall adds_aside (pmu_handlers connected initialising cur_time).
Proof.
  pose proof pmu_refreshes_aside as H. unfold pmu_handlers in *.
  repeat (apply Forall_cons; split; [apply Forall_cons in H as [R _]; intros path parent | apply Forall_cons in H as [_ H]]);
    [..|by apply Forall_nil]; apply aside_pmu_add; exact R.
Qed.

(** Adding and removing end the event or wait, as [commit] and [remove] do. *)
Lemma once_add_object hs type commit path ptype parent t :
  Forall adds_aside hs -> (forall id, once t (commit id)) ->
  once t (begin_add_object connected initialising stack rules depth udi_fuel hs type commit path ptype parent t).
Proof.
  intros Ha Hc. unfold begin_add_object. destruct (List.find _ _) as [h|] eqn:E; [|apply once_end].
  apply find_some in E as [Hin _]. rewrite Forall_forall in Ha. apply once_after; [apply Ha; by apply list_elem_of_In|].
  intros [id|]; [|apply once_end]. repeat (apply once_after; [auto with linux|]; intros ?).
  destruct (ph_compute_udi _ _ _) as [f|[[] d']]; [by intros s | |]; (apply once_after; [auto with linux|]); intros _; [apply Hc | apply once_end].
Qed.
Lemma once_remove_object hs kind remove path ptype t :
  (forall id, once t (remove id)) -> once t (begin_remove_object hs kind remove path ptype t).
Proof.
  intros Hr. apply once_after; [auto with linux|]. intros [id|]; [|apply once_end]. destruct (existsb _ _); [apply Hr | apply once_end].
Qed.

(** ** The call for an event *)
#[local] Notation begin_call := (begin_call stale property_order handlers connected initialising hald_runner_start
  hald_runner_start_singleton stack rules depth udi_fuel link_fuel walk_fuel runner_connected cur_time).

Lemma once_power_removed id t : once t (acpi_callouts_remove_done property_order connected initialising id t).
Proof. apply once_after; auto with linux. Qed.

Lemma once_begin_call e c : served e -> c <> NoCall -> once (ev_id e) (begin_call e c).
Proof.
  intros Hs Hc. destruct c; cbn [LinuxQueue.begin_call]; try by apply once_begin.
  all: try by apply once_begin_block.
  - apply once_add_object; [apply acpi_adds_aside|]. intros id. apply once_callouts; [done|]. apply once_after; auto with linux.
  - apply once_remove_object. intros id. apply once_callouts; [done | apply once_power_removed].
  - apply once_add_object; [apply apm_adds_aside|]. intros id. apply once_after; auto with linux.
  - apply once_remove_object. intros id. apply once_after; auto with linux.
  - apply once_add_object; [apply pmu_adds_aside|]. intros id. apply once_after; auto with linux.
  - apply once_remove_object. intros id. apply once_after; auto with linux.
  - apply once_end.
  - done.
Qed.

(** The event that begins is the one that was taken, and it has a handler. *)
Lemma classified v d e : is_sysfs e = true -> is_sysfs (classify v d e) = true /\ ev_id (classify v d e) = ev_id e.
Proof.
  intros He. set (Q x := is_sysfs x = true /\ ev_id x = ev_id e). change (Q (classify v d e)). assert (Q e) by done.
  assert (K1 : forall x, Q x -> Q (if_sysfs HOTPLUG_EVENT_SYSFS_BLOCK x)) by (intros x [? ?]; unfold if_sysfs; by case_bool_decide).
  assert (K2 : forall x, Q x -> Q (if_sysfs HOTPLUG_EVENT_SYSFS_DEVICE x)) by (intros x [? ?]; unfold if_sysfs; by case_bool_decide).
  clearbody Q. unfold classify. cbv zeta.
  repeat first [assumption | apply K1 | apply K2 | match goal with |- Q (match ?b with _ => _ end) => destruct b end].
Qed.
Lemma sysfs_served e : is_sysfs e = true -> served e.
Proof. unfold is_sysfs, served. by destruct (type e). Qed.
Lemma begins_served v e0 e c : served e0 -> hotplug_event_begin v e0 = (e, c) -> served e /\ ev_id e = ev_id e0 /\ c <> NoCall.
Proof.
  intros Hs E. unfold hotplug_event_begin in E. destruct (is_sysfs e0) eqn:I.
  - assert (hotplug_event_begin_sysfs v e0 = (e, c)) as H by (unfold is_sysfs in I; by destruct (type e0)).
    unfold hotplug_event_begin_sysfs in H. cbv zeta in H. destruct (classified v (known_device v e0) e0 I) as [S N].
    set (x := classify v (known_device v e0) e0) in *. injection H as <- <-. split; [by apply sysfs_served|]. split; [done|].
    by destruct (type x), (action x), (known_device v e0).
  - unfold is_sysfs in I. unfold served in *. destruct (type e0) eqn:T; try done; injection E as <- <-; rewrite T; split; try done;
      (split; [done|]); unfold hotplug_event_begin_acpi, hotplug_event_begin_apm, hotplug_event_begin_pmu; try done; by destruct Hs as [-> | ->].
Qed.
End Ends.
