(* ===== verification/LinuxClaims.v ===== *)
(** * Hotplug events of devices end once *)

From Stdlib Require Import ZArith Lia Ascii SpecFloat.
From stdpp Require Import base list gmap strings option pretty fin_maps.
From S2P Require Import Prelude CStd Property Device DeviceStore FdiRules FdiInterp AccessCheck Bus Partutil Util Dbus DbusManager DbusTheory Power Hotplug Runner LinuxSysfs LinuxBuses LinuxPower LinuxClasses LinuxDevice Blockdev Acpi ApmPmu LinuxQueue LinuxTheory.

Section Ends.
Context {P : Platform} {G : GText} {SF : Sysfs} {BF : BlockFiles}.
Context (stale : string) (property_order : HalDevice -> list string) (handlers : list DevHandler).
Context (connected initialising : bool).
Context (hald_runner_start hald_runner_start_singleton : string -> bool).
Context (stack : list ascii) (rules : cache) (depth udi_fuel link_fuel walk_fuel : nat) (queue_fuel : nat) (runner_connected : bool) (cur_time : Z).

#[local] Notation add_done := (dev_callouts_add_done property_order connected initialising hald_runner_start hald_runner_start_singleton).
#[local] Notation after_probing := (add_dev_after_probing property_order connected initialising hald_runner_start
  hald_runner_start_singleton stack rules depth udi_fuel).
#[local] Notation probing_done := (add_dev_probing_helper_done property_order connected initialising hald_runner_start
  hald_runner_start_singleton stack rules depth udi_fuel).
#[local] Notation preprobing_done := (dev_callouts_preprobing_done property_order connected initialising hald_runner_start
  hald_runner_start_singleton stack rules depth udi_fuel runner_connected).
#[local] Notation begin_dev := (begin_dev property_order handlers connected initialising hald_runner_start
  hald_runner_start_singleton stack rules depth udi_fuel runner_connected cur_time).
#[local] Notation finish_callouts := (finish_callouts property_order connected initialising hald_runner_start
  hald_runner_start_singleton stack rules depth udi_fuel runner_connected).
#[local] Notation finish_prober := (finish_prober property_order connected initialising hald_runner_start
  hald_runner_start_singleton stack rules depth udi_fuel).

#[local] Notation block_probed := (add_blockdev_probing_helper_done property_order connected initialising hald_runner_start
  hald_runner_start_singleton stack rules depth udi_fuel).
#[local] Notation run_block_prober := (run_block_prober property_order connected initialising hald_runner_start
  hald_runner_start_singleton stack rules depth udi_fuel runner_connected).
#[local] Notation storage_preprobed := (blockdev_callouts_preprobing_storage_done property_order connected initialising
  hald_runner_start hald_runner_start_singleton stack rules depth udi_fuel runner_connected).
#[local] Notation volume_preprobed := (blockdev_callouts_preprobing_volume_done property_order connected initialising
  hald_runner_start hald_runner_start_singleton stack rules depth udi_fuel runner_connected).
#[local] Notation begin_block := (begin_block link_fuel property_order connected initialising hald_runner_start
  hald_runner_start_singleton stack rules depth udi_fuel walk_fuel runner_connected).
#[local] Notation finish_block := (finish_block property_order connected initialising hald_runner_start
  hald_runner_start_singleton stack rules depth udi_fuel runner_connected).
#[local] Notation unmount_cb := (force_unmount_cb property_order connected initialising).
#[local] Notation add_blockdev := (hotplug_event_begin_add_blockdev link_fuel property_order connected initialising hald_runner_start
  hald_runner_start_singleton stack rules depth udi_fuel walk_fuel runner_connected).
#[local] Notation remove_blockdev := (hotplug_event_begin_remove_blockdev property_order connected initialising runner_connected).

#[local] Notation begin_call := (begin_call stale property_order handlers connected initialising hald_runner_start
  hald_runner_start_singleton stack rules depth udi_fuel link_fuel walk_fuel runner_connected cur_time).
#[local] Notation begin_event := (begin_event stale property_order handlers connected initialising hald_runner_start
  hald_runner_start_singleton stack rules depth udi_fuel link_fuel walk_fuel runner_connected cur_time).
#[local] Notation process_events := (process_events stale property_order handlers connected initialising hald_runner_start
  hald_runner_start_singleton stack rules depth udi_fuel link_fuel walk_fuel runner_connected cur_time).
#[local] Notation process_queue := (process_queue stale property_order handlers connected initialising hald_runner_start
  hald_runner_start_singleton stack rules depth udi_fuel link_fuel walk_fuel queue_fuel runner_connected cur_time).
#[local] Notation finish_power := (finish_power property_order connected initialising).
#[local] Notation power_removed := (acpi_callouts_remove_done property_order connected initialising).

#[local] Hint Resolve aside_ret aside_get aside_act aside_fault aside_globals aside_h aside_device once_end : linux.

(** ** Runs *)

(** An event arrives; the queue is processed; the mounts change; callouts end; a prober ends; callouts, the prober or the helper
    that unmounts end for a disk or a volume; callouts of an ACPI object end. *)
Inductive lx_input :=
  | Arrives (e : HotplugEvent)
  | Processes
  | MountsChange
  | CalloutsEnd (n : nat)
  | ProberEnds (n : nat) (exit_type return_code : Z)
  | BlockEnds (n : nat) (exit_type return_code : Z)
  | PowerEnds (n : nat).

Definition lx_step (i : lx_input) : xm unit :=
  match i with
  | Arrives e => xqueue (hotplug_event_enqueue e)
  | Processes => process_queue
  | MountsChange => blockdev_refresh_mount_state connected initialising None
  | CalloutsEnd n => finish_callouts n
  | ProberEnds n et rc => finish_prober n et rc
  | BlockEnds n et rc => finish_block n et rc
  | PowerEnds n => finish_power n
  end.
Fixpoint lx_run (l : list lx_input) : xm unit :=
  match l with [] => xret tt | i :: rest => lx_step i ;@ lx_run rest end.

Definition input_served (i : lx_input) : Prop := match i with Arrives e => served e | _ => True end.

(** An event is in progress as often as something is pending for it, and what is queued has a handler. *)
Definition queue_served (st : hotplug) : Prop := Forall served (hotplug_event_queue st).
Definition balanced (s : linux) : Prop :=
  fresh_keys s /\ (forall t, in_progress t (lx_queue s) = waiting t s) /\ queue_served (lx_queue s).

Lemma run_call_served t st c : queue_served st -> call_served c -> queue_served (run_call t st c).
Proof.
  unfold queue_served. intros H Hc. destruct c as [| |e|e]; cbn in *; [done | | |by constructor].
  - apply Forall_fmap. eapply Forall_impl; [exact H|]. intros e He. cbn. unfold mark_reposted, served in *. by case_bool_decide.
  - apply Forall_app. by repeat constructor.
Qed.
Lemma run_calls_served t st l : queue_served st -> Forall call_served l -> queue_served (foldl (run_call t) st l).
Proof.
  revert st. induction l as [|c l IH]; intros st H Hl; [done|]. apply Forall_cons in Hl as [Hc Hl]. cbn [foldl].
  apply IH; [by apply run_call_served | done].
Qed.

Lemma once_balances t (m : xm unit) s :
  once t m -> fresh_keys s -> in_progress t (lx_queue s) = S (waiting t s) ->
  (forall u, u <> t -> in_progress u (lx_queue s) = waiting u s) -> queue_served (lx_queue s) ->
  match m s with inl _ => True | inr (_, s', _) => balanced s' end.
Proof.
  intros Hm F Ht Hu Hq. specialize (Hm s F). destruct (m s) as [?|[[x s'] tr]]; [done|].
  destruct Hm as (F' & (calls & Q & E & C) & O). split; [done|]. rewrite Q. split; [|by apply run_calls_served].
  intros u. rewrite run_calls_count. case_decide as D.
  - subst u. lia.
  - rewrite O, Hu by done. lia.
Qed.

(** What keeps the balance. *)
Definition keeps {A} (m : xm A) : Prop := forall s, balanced s -> match m s with inl _ => True | inr (_, s', _) => balanced s' end.

Lemma nothing_keeps {A} t (m : xm A) : nothing t m -> keeps m.
Proof.
  intros Hm s (F & B & Hq). specialize (Hm s F). destruct (m s) as [?|[[x s'] tr]]; [done|].
  destruct Hm as (F' & (calls & Q & E & C) & O). split; [done|]. rewrite Q. split; [|by apply run_calls_served].
  intros u. rewrite run_calls_count, B. case_decide as D.
  - subst u. lia.
  - rewrite O by done. lia.
Qed.
Lemma aside_keeps {A} (m : xm A) : aside m -> keeps m.
Proof. intros H. apply (nothing_keeps 0). by apply aside_accounts. Qed.
Lemma keeps_bind {A B} (m : xm A) (k : A -> xm B) : keeps m -> (forall x, keeps (k x)) -> keeps (xbind m k).
Proof.
  intros Hm Hk s B0. specialize (Hm s B0). unfold xbind. destruct (m s) as [?|[[x s1] t1]]; [done|].
  specialize (Hk x s1 Hm). by destruct (k x s1) as [?|[[y s2] t2]].
Qed.
Lemma keeps_get {A B} (f : linux -> A) (k : A -> xm B) :
  (forall s, balanced s -> match k (f s) s with inl _ => True | inr (_, s', _) => balanced s' end) -> keeps (xbind (xget f) k).
Proof. intros H s B0. specialize (H s B0). unfold xbind, xget. by destruct (k (f s) s) as [?|[[x s'] tr]]. Qed.
(** A change of the queue that moves no event. *)
Lemma keeps_queue f : (forall st, hotplug_event_queue (f st) = hotplug_event_queue st /\
                                  hotplug_events_in_progress (f st) = hotplug_events_in_progress st) -> keeps (xqueue f).
Proof.
  intros H s (F & B & Hq). destruct (H (lx_queue s)) as [Q I]. split; [done|]. unfold in_progress, queue_served in *. cbn.
  by rewrite Q, I.
Qed.

Lemma begin_keeps i e s :
  hotplug_event_queue (lx_queue s) !! i = Some e -> balanced s ->
  match begin_event i e s with inl _ => True | inr (_, s', _) => balanced s' end.
Proof.
  intros Hi (F & B & Hq). unfold LinuxQueue.begin_event, xbind at 1, xget.
  destruct (hotplug_event_begin (linux_view s) e) as [e' c] eqn:E.
  destruct (begins_served _ _ _ _ (Forall_lookup_1 _ _ _ _ Hq Hi) E) as (Hs & Hid & Hc). unfold xbind, xqueue.
  set (s1 := mk_linux _ _ _ _ _).
  assert (C : forall t, in_progress t (lx_queue s1) = (waiting t s + if decide (ev_id e' = t) then 1 else 0)%nat).
  { intros t. rewrite <- B. unfold in_progress. cbn [s1 lx_queue take_event hotplug_events_in_progress].
    rewrite List.filter_app, length_app. cbn [List.filter]. case_decide;
      [rewrite bool_decide_eq_true_2 by done | rewrite bool_decide_eq_false_2 by done]; done. }
  pose proof (once_balances (ev_id e') (begin_call e' c) s1 (once_begin_call _ _ _ _ _ _ _ _ _ _ _ _ _ _ _ e' c Hs Hc) F) as H.
  rewrite C, decide_True in H by done. specialize (H ltac:(unfold waiting; cbn [s1 lx_pending]; lia)).
  assert (Hq1 : queue_served (lx_queue s1)) by (by apply Forall_delete).
  destruct (begin_call e' c s1) as [?|[[x s'] tr]]; [done|]. apply H; [|done].
  intros u Hu. rewrite C, decide_False by done. unfold waiting. cbn [s1 lx_pending]. lia.
Qed.

Lemma process_keeps fuel i : keeps (process_events fuel i).
Proof.
  revert i. induction fuel as [|fuel IH]; intros i; cbn [LinuxQueue.process_events]; [by intros s|].
  apply keeps_get. intros s B. destruct (hotplug_event_queue (lx_queue s) !! i) as [e|] eqn:Hi; [|done].
  destruct (may_begin e (lx_queue s)); [|by apply IH].
  pose proof (begin_keeps i e s Hi B) as H. unfold xbind at 1. destruct (begin_event i e s) as [?|[[x s1] t1]]; [done|].
  set (k := xbind (xget lx_queue) _). assert (K : keeps k).
  { apply keeps_get. intros s2 B2. destruct (_ || _); [|by apply IH]. revert s2 B2.
    apply (keeps_bind (xqueue (set_restart false)) (fun _ => process_events fuel 0)); [by apply keeps_queue | intros _; apply IH]. }
  specialize (K s1 H). by destruct (k s1) as [?|[[y s2] t2]].
Qed.

Lemma queue_keeps : keeps process_queue.
Proof.
  apply keeps_get. intros s B. destruct (_ || _); [done|]. revert s B.
  apply (keeps_bind (xqueue (set_processing true))); [by apply keeps_queue|]. intros _.
  apply keeps_bind; [apply process_keeps|]. intros _. apply keeps_queue. intros st. unfold queue_now_empty.
  cbn [set_processing hotplug_event_queue hotplug_events_in_progress].
  destruct (hotplug_event_queue st) eqn:Q, (hotplug_events_in_progress st) eqn:I; cbn; by rewrite ?Q, ?I.
Qed.

(** What was pending is taken up. *)
Lemma finish_balances n k (m : xm unit) s :
  balanced s -> lx_pending s !! n = Some k ->
  (forall t, token_of k = Some t -> once t m) -> (token_of k = None -> nothing 0 m) ->
  match taking_up n m s with
  | inl _ => True
  | inr (_, s', _) => balanced s'
  end.
Proof.
  intros (F & B & Hq) Hk H1 H0. unfold taking_up. set (s1 := mk_linux _ _ _ _ _).
  assert (F1 : fresh_keys s1). { intros i Hi. cbn. apply lookup_delete_None. right. by apply F. }
  assert (W : forall u, waiting u s = (waits_on u k + waiting u s1)%nat) by (intros u; by apply lx_waiting_delete).
  unfold waits_on in W. destruct (token_of k) as [t|] eqn:Et.
  - apply (once_balances t); [by apply H1 | done | | | done].
    + change (lx_queue s1) with (lx_queue s). rewrite B, W, decide_True by done. done.
    + intros u Hu. change (lx_queue s1) with (lx_queue s). rewrite B, W, decide_False by congruence. done.
  - apply (nothing_keeps 0); [by apply H0|]. split; [done|]. split; [|done]. intros u. change (lx_queue s1) with (lx_queue s).
    rewrite B, W, decide_False by done. done.
Qed.

(** The answer for a pending continuation, or nothing. *)
Ltac answered := apply keeps_get; intros s B; destruct (lx_pending s !! _) as [k|] eqn:E; [|done].
Lemma finish_keeps i : match i with Arrives _ | Processes | MountsChange => False | _ => True end -> keeps (lx_step i).
Proof.
  destruct i as [| | | n | n et rc | n et rc | n]; try done; intros _; cbn [lx_step]; answered.
  - destruct k; try done; apply (finish_balances n _ _ s B E); cbn [token_of]; try done; try intros ? [= <-].
    + apply once_preprobing_done.
    + apply once_add_done.
    + apply once_remove_done.
    + intros _. apply aside_accounts, aside_h.
  - destruct k; try done. apply (finish_balances n _ _ s B E); cbn [token_of]; [|done].
    intros ? [= <-]. apply once_probing_done.
  - destruct k as [ | | | | | [] | | | |]; try done; apply (finish_balances n _ _ s B E); cbn [token_of]; try done; try intros ? [= <-].
    + apply once_volume_preprobed.
    + apply once_storage_preprobed.
    + apply once_block_probed.
    + apply once_unmount_cb.
    + intros _. apply nothing_media_checked.
  - destruct k; try done. apply (finish_balances n _ _ s B E); cbn [token_of]; [|done]. intros ? [= <-]. apply once_power_removed.
Qed.

Lemma step_balances i s : input_served i -> balanced s -> match lx_step i s with inl _ => True | inr (_, s', _) => balanced s' end.
Proof.
  intros Hi B. destruct i as [e | | | n | n et rc | n et rc | n]; try (by apply finish_keeps); cbn [lx_step].
  - by apply (nothing_keeps 0 (xqueue (fun st => hotplug_event_enqueue e st))); [apply (nothing_enqueue 0 (fun _ => e))|].
  - by apply queue_keeps.
  - by apply aside_keeps; [apply aside_mount_state|].
Qed.

Lemma run_balances l s : Forall input_served l -> balanced s -> match lx_run l s with inl _ => True | inr (_, s', _) => balanced s' end.
Proof.
  revert s. induction l as [|i l IH]; intros s Hl B; [done|]. apply Forall_cons in Hl as [Hi Hl]. cbn [lx_run]. unfold xbind.
  pose proof (step_balances i s Hi B) as H. destruct (lx_step i s) as [?|[[x s1] t1]]; [done|].
  specialize (IH s1 Hl H). by destruct (lx_run l s1) as [?|[[y s2] t2]].
Qed.
(** ** What is left to do *)

(** How many more answers a continuation can lead to, itself included. *)
Definition stage (k : continuation) : nat :=
  match k with
  | AfterPreprobe _ _ _ | AfterBlockPreprobe _ _ _ => 3
  | AfterProbe _ _ _ | AfterBlockProbe _ _ | AfterUnmount _ _ => 2
  | _ => 1
  end.
Definition remaining_in (m : gmap nat continuation) : nat := map_fold (fun _ k n => stage k + n)%nat 0%nat m.
Definition remaining (s : linux) : nat := remaining_in (lx_pending s).

Lemma remaining_new m n k : m !! n = None -> remaining_in (<[n := k]> m) = (stage k + remaining_in m)%nat.
Proof. intros H. unfold remaining_in. rewrite map_fold_insert_L; [done| |done]. intros. lia. Qed.
Lemma remaining_delete m n k : m !! n = Some k -> remaining_in m = (stage k + remaining_in (delete n m))%nat.
Proof. intros H. unfold remaining_in. rewrite (map_fold_delete_L _ _ n k m); [done| |done]. intros. lia. Qed.

(** A computation after which at most [n] answers more are waited for. *)
Definition grows {A} (n : nat) (m : xm A) : Prop := forall s, fresh_keys s ->
  match m s with inl _ => True | inr (_, s', _) => fresh_keys s' /\ (remaining s' <= n + remaining s)%nat end.

Lemma grows_aside {A} n (m : xm A) : aside m -> grows n m.
Proof.
  intros H s F. specialize (H s). destruct (m s) as [?|[[x s'] t']]; [done|]. destruct H as (Q & W & N).
  unfold fresh_keys, remaining in *. rewrite W, N. split; [done | lia].
Qed.
Lemma grows_bind {A B} n1 n2 (m : xm A) (k : A -> xm B) : grows n1 m -> (forall x, grows n2 (k x)) -> grows (n1 + n2) (xbind m k).
Proof.
  intros Hm Hk s F. unfold xbind. specialize (Hm s F). destruct (m s) as [?|[[x s1] t1]]; [done|].
  destruct Hm as (F1 & R1). specialize (Hk x s1 F1). destruct (k x s1) as [?|[[y s2] t2]]; [done|].
  destruct Hk as (F2 & R2). split; [done | lia].
Qed.
Lemma grows_after {A B} n (m : xm A) (k : A -> xm B) : aside m -> (forall x, grows n (k x)) -> grows n (xbind m k).
Proof. intros Hm Hk. apply (grows_bind 0 n); [by apply grows_aside | done]. Qed.
Lemma grows_more {A} n n' (m : xm A) : (n <= n')%nat -> grows n m -> grows n' m.
Proof. intros H Hm s F. specialize (Hm s F). destruct (m s) as [?|[[x s'] t']]; [done|]. destruct Hm. split; [done | lia]. Qed.
Lemma grows_end n t : grows n (end_event t).
Proof. intros s F. split; [done|]. unfold remaining. cbn. lia. Qed.
Lemma grows_wait k : grows (stage k) (wait_for k).
Proof.
  intros s F. cbn. pose proof (F (lx_next s) ltac:(lia)) as Hn. split.
  - intros n H. cbn in *. rewrite lookup_insert_ne by lia. apply F. lia.
  - unfold remaining. cbn. by rewrite remaining_new.
Qed.

#[local] Hint Resolve grows_end grows_aside : linux.

Lemma grows_callouts n id key hald_action k callback :
  (stage k <= n)%nat -> grows n callback -> grows n (with_callouts_of id key hald_action k callback).
Proof.
  intros Hk Hc. apply grows_after; [auto with linux|]. intros d. destruct (hal_device_property_dup_strlist_as_strv d key); [|done].
  apply (grows_more (stage k + 0)); [lia|]. apply grows_bind; [apply grows_wait | auto with linux].
Qed.

Lemma grows_add_done n id t : grows n (add_done id t).
Proof. apply grows_after; auto with linux. Qed.
Lemma grows_remove_done n id t : grows n (dev_callouts_remove_done property_order connected initialising id t).
Proof. apply grows_after; auto with linux. Qed.

Lemma grows_after_probing id h t : grows 1 (after_probing id h t).
Proof.
  apply grows_after; [auto with linux|]. intros d. apply grows_after; [auto with linux|]. intros e.
  destruct (h_compute_udi h (computed_udi udi_fuel e) d) as [f|[[] d']]; [by intros s | |].
  - apply grows_after; [auto with linux|]. intros _. apply grows_callouts; [done | apply grows_add_done].
  - apply grows_after; auto with linux.
Qed.
Lemma grows_probing_done d et rc h t : grows 1 (probing_done d et rc h t).
Proof.
  destruct d as [id|]; cbn [add_dev_probing_helper_done]; [|apply grows_end]. destruct (negb _ || negb _).
  - apply grows_after; auto with linux.
  - apply grows_after; [auto with linux|]. intros d. destruct (match h_post_probing h with Some _ => _ | None => _ end);
      [apply grows_after_probing | apply grows_end].
Qed.
Lemma grows_preprobing_done id h t : grows 2 (preprobing_done id h t).
Proof.
  apply grows_after; [auto with linux|]. intros d. destruct (hal_device_property_get_bool d "info.ignore").
  - apply grows_after; auto with linux.
  - destruct (match h_get_prober h with Some _ => _ | None => _ end) as [prober|];
      [|apply (grows_more 1); [lia | apply grows_after_probing]].
    destruct runner_connected; [|apply (grows_more 1); [lia | apply grows_probing_done]].
    apply (grows_bind 2 0); [apply (grows_wait (AfterProbe id h t)) | auto with linux].
Qed.

Lemma grows_discard n id t : grows n (discard_device id t).
Proof. apply grows_after; auto with linux. Qed.
Lemma grows_enqueue n e : grows n (xqueue (fun st => hotplug_event_enqueue (e st) st)).
Proof. intros s F. split; [done|]. unfold remaining. cbn. lia. Qed.
Lemma grows_block_probed d et rc t : grows 1 (block_probed d et rc t).
Proof.
  destruct d as [id|]; cbn [add_blockdev_probing_helper_done]; [|apply grows_end]. apply grows_after; [auto with linux|]. intros d.
  destruct (negb _ || negb _); [apply grows_discard|]. apply grows_after; [auto with linux|]. intros e.
  destruct (blockdev_compute_udi _ _) as [f|[[] d']]; [by intros s | | apply grows_discard].
  apply grows_after; [auto with linux|]. intros _. apply grows_after.
  { destruct (hal_device_property_get_bool d "block.is_volume"); [apply aside_mount_state | apply aside_bind; auto with linux]. }
  intros _. apply grows_after; [auto with linux|]. intros _. apply grows_after; [auto with linux|]. intros d''.
  apply (grows_bind 1 0); [apply grows_callouts; [done | apply grows_after; auto with linux]|].
  intros _. destruct (_ && _); [apply grows_enqueue | auto with linux].
Qed.
Lemma grows_block_prober id prober t : grows 2 (run_block_prober id prober t).
Proof.
  apply grows_after; [auto with linux|]. intros d. destruct runner_connected; [|apply (grows_more 1); [lia | apply grows_block_probed]].
  apply (grows_bind 2 0); [apply (grows_wait (AfterBlockProbe id t)) | auto with linux].
Qed.
Lemma grows_ignored n id t :
  grows n (ignored_block property_order connected initialising hald_runner_start hald_runner_start_singleton id t).
Proof. apply grows_after; auto with linux. Qed.
Lemma grows_storage_preprobed id t : grows 2 (storage_preprobed id t).
Proof.
  apply grows_after; [auto with linux|]. intros d. destruct (hal_device_property_get_bool d "info.ignore"); [apply grows_ignored|].
  assert (forall et rc, grows 2 (block_probed (Some id) et rc t)) by (intros; apply (grows_more 1); [lia | apply grows_block_probed]).
  destruct (_ && _); [|apply grows_block_prober]. destruct (get_str d "storage.bus") as [bus|]; [|by intros s].
  destruct (bus =s? _); [|done]. destruct (get_str d "storage.drive_type") as [type|]; [|by intros s].
  destruct (type =s? _); [apply grows_block_prober | done].
Qed.
Lemma grows_volume_preprobed id t : grows 2 (volume_preprobed id t).
Proof.
  apply grows_after; [auto with linux|]. intros d. destruct (hal_device_property_get_bool d "info.ignore");
    [apply grows_ignored | apply grows_block_prober].
Qed.
Lemma grows_power_removed n id t : grows n (power_removed id t).
Proof. apply grows_after; auto with linux. Qed.
Lemma grows_unmount_cb id t : grows 1 (unmount_cb id t).
Proof. apply grows_callouts; [done|]. apply grows_after; auto with linux. Qed.
Lemma grows_media_checked n d et rc : grows n (block_rescan_storage_done d et rc).
Proof.
  destruct d as [id|]; cbn [block_rescan_storage_done]; [|auto with linux].
  apply grows_after; [auto with linux|]. intros d. apply grows_after; [apply aside_get|].
  intros [fake|]; destruct (rc =? 2); auto with linux; apply grows_enqueue.
Qed.

(** The answer that something pending waits for. *)
Definition answer_of (i : lx_input) (k : continuation) : bool :=
  match i, k with
  | CalloutsEnd _, (AfterPreprobe _ _ _ | AfterAdd _ _ | AfterRemove _ _ | AfterRemoveChild _) => true
  | ProberEnds _ _ _, AfterProbe _ _ _ => true
  | BlockEnds _ _ _, (AfterBlockPreprobe _ _ _ | AfterBlockProbe _ _ | AfterUnmount _ _ | AfterMediaCheck _) => true
  | PowerEnds _, AfterPowerRemove _ _ => true
  | _, _ => false
  end.
Definition takes_up (i : lx_input) (s : linux) : Prop :=
  match i with
  | Arrives _ | Processes | MountsChange => False
  | CalloutsEnd n | ProberEnds n _ _ | BlockEnds n _ _ | PowerEnds n => exists k, lx_pending s !! n = Some k /\ answer_of i k
  end.
Inductive drains : list lx_input -> linux -> linux -> Prop :=
  | drains_nothing s : drains [] s s
  | drains_step i l s s1 s2 x tr :
      takes_up i s -> lx_step i s = inr (x, s1, tr) -> drains l s1 s2 -> drains (i :: l) s s2.

Lemma answer_goes_on n k (m : xm unit) r s :
  fresh_keys s -> lx_pending s !! n = Some k -> grows r m -> (r < stage k)%nat ->
  match taking_up n m s with
  | inl _ => True
  | inr (_, s', _) => (remaining s' < remaining s)%nat
  end.
Proof.
  intros F Hk Hm Hr. unfold taking_up. set (s1 := mk_linux _ _ _ _ _).
  assert (F1 : fresh_keys s1). { intros i Hi. cbn. apply lookup_delete_None. right. by apply F. }
  specialize (Hm s1 F1). destruct (m s1) as [?|[[x s'] tr]]; [done|]. destruct Hm as [_ Hm].
  assert (remaining s = stage k + remaining s1)%nat as -> by (by apply remaining_delete). lia.
Qed.

Lemma answer_drains n k (m : xm unit) r s x s' tr :
  fresh_keys s -> lx_pending s !! n = Some k -> grows r m -> (r < stage k)%nat ->
  taking_up n m s = inr (x, s', tr) -> (remaining s' < remaining s)%nat.
Proof. intros F Hk Hm Hr E. pose proof (answer_goes_on n k m r s F Hk Hm Hr) as H. by rewrite E in H. Qed.

Lemma get_pending n (k : option continuation -> xm unit) s x s' tr :
  xbind (xget (fun s => lx_pending s !! n)) k s = inr (x, s', tr) -> exists tr', k (lx_pending s !! n) s = inr (x, s', tr').
Proof.
  unfold xbind, xget. destruct (k _ s) as [?|[[y s1] t1]]; [done|]. intros [= <- <- <-]. by exists t1.
Qed.

Lemma step_drains i s x s' tr :
  fresh_keys s -> takes_up i s -> lx_step i s = inr (x, s', tr) -> (remaining s' < remaining s)%nat.
Proof.
  intros F T E. destruct i as [| | |n|n et rc|n et rc|n]; cbn [takes_up] in T; [done | done | done | | | |]; destruct T as (k & Hk & Hp);
    apply get_pending in E as [tr' E]; rewrite Hk in E; pose proof (fun m r H Hr => answer_drains n k m r s x s' tr' F Hk H Hr) as D.
  - destruct k; try done; [refine (D _ 2%nat _ _ E) | refine (D _ 0%nat _ _ E)..]; try (cbn; lia);
      [apply grows_preprobing_done | apply grows_add_done | apply grows_remove_done | apply grows_aside, aside_h].
  - destruct k; try done. refine (D _ 1%nat _ _ E); [apply grows_probing_done | cbn; lia].
  - destruct k as [ | | | | | [] | | | |]; try done; [refine (D _ 2%nat _ _ E) | refine (D _ 2%nat _ _ E) | refine (D _ 1%nat _ _ E) | refine (D _ 1%nat _ _ E) | refine (D _ 0%nat _ _ E)];
      try (cbn; lia); [apply grows_volume_preprobed | apply grows_storage_preprobed | apply grows_block_probed | apply grows_unmount_cb
                      | apply grows_media_checked].
  - destruct k; try done. refine (D _ 0%nat _ _ E); [apply grows_power_removed | cbn; lia].
Qed.

Lemma drains_bounded l s s' : balanced s -> drains l s s' -> (length l + remaining s' <= remaining s)%nat.
Proof.
  intros B D. induction D as [s | i l s s1 s2 x tr T E D IH]; [cbn; lia|].
  pose proof (step_drains i s x s1 tr (proj1 B) T E). assert (input_served i) as Hi by (by destruct i). pose proof (step_balances i s Hi B) as B1. rewrite E in B1.
  specialize (IH B1). cbn [length]. lia.
Qed.

Lemma none_in_progress st : (forall t, in_progress t st = 0%nat) -> hotplug_events_in_progress st = [].
Proof.
  intros H. destruct (hotplug_events_in_progress st) as [|e l] eqn:E; [done|]. specialize (H (ev_id e)).
  unfold in_progress in H. rewrite E in H. cbn [List.filter] in H. by rewrite bool_decide_eq_true_2 in H.
Qed.

End Ends.

(** ** Instances *)
Module Instances.
Import AsciiPlatform Example.

#[export] Instance text : GText := {|
  g_strcanon s valid sub := string_map (fun c => if strchr valid c then c else sub) s;
  g_strsplit_set s seps := [s];
  g_strchug := skip_space;
|}.

(** A kernel with two files, of a disk. *)
#[export] Instance disk_files : Sysfs := {|
  fopen path := if path =s? "/sys/devices/hub/sda/dev" then Some "8:0"
                else if path =s? "/sys/devices/hub/sda/range" then Some "16" else None;
  readlink _ := None;
  stat_ok _ := false;
  is_dir _ := false;
  strtod _ := (S754_zero false, false);
  has_wireless_extensions _ := false;
  uninit _ := 0;
  pci_ids_text := "";
  usb_ids_text := "";
  ids_line_buffer := "";
|}.

#[export] Instance no_mounts : BlockFiles := {|
  proc_mounts := Some [];
  st_rdev _ := None;
  root_dev := None;
  is_symlink _ := false;
  readdir _ := None;
  mdstat := None;
  udevadm _ _ := None;
|}.

Definition hub : HalDevice := mk_device "/org/freedesktop/Hal/devices/hub" 0 0
  {[ "linux.sysfs_path" := PString "/sys/devices/hub"; "info.subsystem" := PString "usb"; "info.udi" := PString "/org/freedesktop/Hal/devices/hub" ]}.
Definition with_hub : hald :=
  mk_hald (mk_daemon (mk_env {[ 0%nat := computer; 1%nat := hub ]} [1; 0]%nat [] [] 0 []) []) (mk_bus 0 0 []) ∅ [] ∅ ∅.
Definition plugged : linux :=
  mk_linux with_hub (mk_globals false false false false false ∅ (mk_grep false (mk_grep_buffer "" "") (mk_grep_buffer "" "")) 0)
    (mk_hotplug true [] false [] false 0 []) ∅ 0.
Definition camera : HotplugEvent :=
  mk_event 7 HOTPLUG_ACTION_ADD HOTPLUG_EVENT_SYSFS_DEVICE false "video4linux" "/sys/devices/hub/camera" "" 0 false
    "/dev/video0" "" 0 no_udev.
Definition disk : HotplugEvent :=
  mk_event 8 HOTPLUG_ACTION_ADD HOTPLUG_EVENT_SYSFS_BLOCK false "block" "/sys/devices/hub/sda" "" 0 false "/dev/sda" "" 0 no_udev.
#[local] Notation run_all := (lx_run "" order (dev_handlers order (mk_build false false false true true true false true)) true false
  (fun _ => true) (fun _ => true) [] no_rules 1 10 5 5 20 true 0).
Definition counts (t : nat) (r : lx_crash + (unit * linux * list lx_action)) : option (nat * nat * nat * list string) :=
  match r with
  | inl _ => None
  | inr (_, s, _) => Some (in_progress t (lx_queue s), waiting t s, remaining s,
      omap (fun id => udi <$> e_heap (h_env (lx_hald s)) !! id) (gdl (h_env (lx_hald s))))
  end.

End Instances.
