(* ===== verification/StorageTools.v ===== *)
(** * The programs that mount and unmount ([tools/hal-storage-*.c])

    The daemon runs these programs as root, for methods of volumes and drives.
    They ask the daemon about the device and the caller, check what the caller
    wants, run mount, umount or eject, and keep the list of what was mounted in
    /media/.hal-mtab.  A new list is written to /media/.hal-mtab~ and renamed.

    A program is a computation over the daemon and the files under /media ([tm]);
    it may exit with an error, which leaves the files as they are then.  Questions
    to the daemon go through [libhal]; [send] is the connection.

    Only Linux is modelled.  The number that is appended to the name of a directory
    has fuel: more names than there are directories. *)

From Stdlib Require Import ZArith Lia Ascii SpecFloat.
From stdpp Require Import base list gmap strings option pretty fin_maps.
From S2P Require Import Prelude CStd Property Device DeviceStore FdiRules FdiInterp AccessCheck Bus Partutil Util Dbus DbusManager Libhal LibhalCalls Storage Hotplug LinuxSysfs LinuxDevice Blockdev.

Class ToolWorld := {
  have_polkit : bool;
  have_umount_hal : bool;
  eject_program : string;
  (** /etc/fstab; [None]: it cannot be opened *)
  fstab : option (list mntent);
  (** whether files under /media can be read, created and renamed *)
  mtab_readable : bool;
  new_mtab_writable : bool;
  rename_ok : bool;
  mkdir_ok : string -> bool;
  rmdir_ok : string -> bool;
  (** the status and the error output of a program; [None]: it cannot be run *)
  run : list string -> option (Z * string);
  (** whether the [n]-th attempt to open a device finds it busy *)
  open_busy : string -> nat -> bool;
  lock_ok : bool;
  (** whether the bus answers *)
  system_bus_ok : bool;
}.

Record media := mk_media { hal_mtab : option string; hal_mtab_new : option string; directories : gset string }.
Record tool := mk_tool { tl_hald : hald; tl_media : media }.

Inductive tool_action := Served (a : Dbus.action) | Spawned (args : list string) | CheckForMedia (udi : string).
(** An error that is printed, the complaint that only hald may start the program,
    and faults of the program and of the daemon. *)
Inductive tool_end := Exit (name detail : string) | Usage | Died (f : lx_fault) | DaemonDied (c : crash).

Definition tm (A : Type) : Type := tool -> (tool_end * tool * list tool_action) + (A * tool * list tool_action).
Definition tret {A} (x : A) : tm A := fun t => inr (x, t, []).
Definition tbind {A B} (m : tm A) (k : A -> tm B) : tm B := fun t =>
  match m t with
  | inl e => inl e
  | inr (x, t1, l1) =>
      match k x t1 with
      | inl (e, t2, l2) => inl (e, t2, l1 ++ l2)
      | inr (y, t2, l2) => inr (y, t2, l1 ++ l2)
      end
  end.
Notation "'let~' x := m 'in' k" := (tbind m (fun x => k)) (at level 10, x name, m at level 100, k at level 200) : hal_scope.
Notation "m ;/ k" := (tbind m (fun _ => k)) (at level 199, right associativity) : hal_scope.

Definition tend {A} (e : tool_end) : tm A := fun t => inl (e, t, []).
Definition tfault {A} (f : lx_fault) : tm A := tend (Died f).
Definition tlift {A} (x : lx_fault + A) : tm A := match x with inl f => tfault f | inr x => tret x end.
Definition tact (l : list tool_action) : tm unit := fun t => inr (tt, t, l).
Definition tmedia {A} (f : media -> A * media) : tm A := fun t =>
  let '(x, m) := f (tl_media t) in inr (x, mk_tool (tl_hald t) m, []).
(** A question to the daemon. *)
Definition ask_hald {A} (m : hm A) : tm A := fun t =>
  match m (tl_hald t) with
  | inl c => inl (DaemonDied c, t, [])
  | inr (x, h, l) => inr (x, mk_tool h (tl_media t), Served <$> l)
  end.

(** ** Errors *)
Definition DEVICE_ERROR : string := "org.freedesktop.Hal.Device.".
Definition volume_error {A} (name detail : string) : tm A := tend (Exit (DEVICE_ERROR +:+ "Volume." +:+ name) detail).
Definition unknown_error {A} (detail : string) : tm A := volume_error "UnknownFailure" detail.
Definition device_busy {A} (detail : string) : tm A := volume_error "Busy" detail.
Definition not_mounted {A} (detail : string) : tm A := volume_error "NotMounted" detail.
Definition not_mounted_by_hal {A} (detail : string) : tm A := volume_error "NotMountedByHal" detail.
Definition permission_denied_volume_ignore {A} (device : string) : tm A :=
  volume_error "PermissionDenied" ("Device has " +:+ device +:+ " volume.ignore set to TRUE. Refusing to mount.").
Definition permission_denied_etc_fstab {A} (device : string) : tm A :=
  volume_error "PermissionDenied" ("Device " +:+ device +:+ " is listed in /etc/fstab. Refusing to mount.").
Definition already_mounted {A} (device : string) : tm A := volume_error "AlreadyMounted" ("Device " +:+ device +:+ " is already mounted.").
Definition not_allowed (given : string) (uid : option string) : string :=
  "The option '" +:+ given +:+ "' is not allowed for uid=" +:+ or_null uid.
Definition invalid_mount_option {A} (given : string) (uid : option string) : tm A :=
  volume_error "InvalidMountOption" (not_allowed given uid).
Definition invalid_unmount_option {A} (given : string) (uid : option string) : tm A :=
  volume_error "InvalidUnmountOption" (not_allowed given uid).
Definition invalid_closetray_option {A} (given : string) (uid : option string) : tm A :=
  tend (Exit (DEVICE_ERROR +:+ "Storage.InvalidCloseTrayOption") (not_allowed given uid)).
Definition invalid_eject_option {A} (given : string) (uid : option string) : tm A :=
  volume_error "InvalidEjectOption" (not_allowed given uid).
Definition unknown_filesystem {A} (filesystem : string) : tm A :=
  volume_error "UnknownFilesystemType" ("Unknown file system '" +:+ filesystem +:+ "'").
Definition invalid_mount_point {A} (mount_point : string) : tm A :=
  volume_error "InvalidMountpoint" ("The mount point '" +:+ mount_point +:+ "' is invalid").
Definition mount_point_not_available {A} (mount_point : string) : tm A :=
  volume_error "MountPointNotAvailable" ("The mount point '" +:+ mount_point +:+ "' is already occupied").
Definition cannot_remount {A} (device : string) : tm A := volume_error "CannotRemount" (device +:+ " not mounted already").
Definition permission_denied {A} (what action result : string) : tm A :=
  tend (Exit (DEVICE_ERROR +:+ "PermissionDeniedByPolicy") (action +:+ " " +:+ result +:+ " <-- (" +:+ what +:+ ", result)")).
Definition permission_denied_action {A} (action result : string) : tm A := permission_denied "action" action result.
Definition permission_denied_privilege {A} (privilege result : string) : tm A := permission_denied "privilege" privilege result.

Definition unknown_eject_error {A} (devtype detail : string) : tm A :=
  tend (Exit (DEVICE_ERROR +:+ devtype +:+ ".UnknownFailure") detail).
Definition unknown_closetray_error {A} : string -> tm A := unknown_eject_error "Storage".
Definition ensure (b : bool) (otherwise : tm unit) : tm unit := if b then tret tt else otherwise.

(** ** Input *)

(** A line, and the rest. *)
Definition fgets_rest (n : nat) (content : string) : option (string * string) :=
  match content with
  | EmptyString => None
  | _ =>
      let '(line, rest) := span (fun c => bool_decide (c = "010"%char)) (str_take (n - 1) content) in
      let raw := line +:+ str_take 1 rest in
      Some (cut_nul raw, str_drop (String.length raw) content)
  end.
(** The last character goes, which should be the newline; at the end of the input
    the result of [fgets] is NULL, and read. *)
Definition read_line (n : nat) (input : string) : lx_fault + (string * string) :=
  match fgets_rest n input with
  | None => inl NullPointer
  | Some (line, rest) => inr (str_take (String.length line - 1) line, rest)
  end.

Fixpoint drop_empty (l : list string) : list string :=
  match l with "" :: rest => drop_empty rest | _ => l end.
Definition TAB : string := String "009" "".
Definition NEWLINE : string := String "010" "".

Section Tools.
Context {P : Platform} {SF : Sysfs} {BF : BlockFiles} {W : ToolWorld}.
Context (send : LibHalContext -> DBusMessage -> hm dbus_reply) (hal_ctx : option LibHalContext) (link_fuel : nat).

(** The options between tabs, without empty ones at the end. *)
Definition split_options (options : string) : list string := reverse (drop_empty (reverse (g_strsplit options TAB 0))).

Definition is_valid_utf8 (s : string) : bool := bool_decide (g_utf8_validate s = None).

(** ** Paths *)
Fixpoint tool_links (fuel : nat) (f : string) : lx_fault + option string :=
  if is_symlink f then
    match fuel with
    | O => inl NoFuel
    | S fuel => match readlink f with None => inr None | Some link => tool_links fuel (g_path_get_dirname f +:+ "/" +:+ link) end
    end
  else inr (Some f).
(** A link that cannot be read gives NULL, which the callers compare. *)
Definition tool_resolve_symlink (file : string) : lx_fault + string :=
  match tool_links link_fuel file with
  | inl f => inl f
  | inr None => inl NullPointer
  | inr (Some f) => inr (canonicalize_filename f)
  end.

(** ** What is mounted, and what /etc/fstab lists *)
Definition volume_findby (property value : string) : tm (option LibHalVolume) := ask_hald (volume_from send property hal_ctx (Some value)).

(** Whether an entry for a label is to be skipped: another device is mounted there. *)
Definition skip_fstab_entry (device mount_point : string) : tm bool :=
  let~ mounted_vol := volume_findby "volume.mount_point" mount_point in
  tret (match mounted_vol ≫= libhal_volume_get_device_file with Some f => negb (f =s? device) | None => false end).

Fixpoint check_fstab (device : string) (label uuid : option string) (entries : list mntent) : tm unit :=
  match entries with
  | [] => tret tt
  | e :: rest =>
      let entry := mnt_fsname e in
      (if bool_decide (is_Some label) && has_prefix entry "LABEL=" then
         if bool_decide (label = Some (str_drop 6 entry)) then
           let~ skip := skip_fstab_entry device (mnt_dir e) in
           if skip : bool then tret tt else permission_denied_etc_fstab device
         else tret tt
       else if bool_decide (is_Some uuid) && has_prefix entry "UUID=" then
         if bool_decide (uuid = Some (str_drop 5 entry)) then permission_denied_etc_fstab device else tret tt
       else
         let~ resolved := tlift (tool_resolve_symlink entry) in
         if device =s? resolved then permission_denied_etc_fstab device else tret tt) ;/
      check_fstab device label uuid rest
  end.
Definition bailout_if_in_fstab (device : string) (label uuid : option string) : tm unit :=
  match fstab with
  | None => unknown_error "Cannot open /etc/fstab"
  | Some entries => check_fstab device label uuid entries
  end.

(** Whether the device is mounted, and the last mount point that was read: the
    entry behind the one of the device is still read. *)
Fixpoint mounted_loop (device : string) (entries : list mntent) (ret : bool) (mount_point : option string)
  : lx_fault + (bool * option string) :=
  match entries with
  | [] => inr (ret, mount_point)
  | e :: rest =>
      let mount_point := Some (mnt_dir e) in
      if ret then inr (ret, mount_point)
      else match tool_resolve_symlink (mnt_fsname e) with
           | inl f => inl f
           | inr resolved => mounted_loop device rest (device =s? resolved) mount_point
           end
  end.
Definition device_is_mounted (device : string) : tm (bool * option string) :=
  match proc_mounts with
  | None => unknown_error "Cannot open /etc/mtab or equivalent"
  | Some entries => tlift (mounted_loop device entries false None)
  end.

Definition bailout_if_drive_is_locked (drive : option LibHalDrive) (invoked_by_syscon_name : option string) : tm unit :=
  match drive, invoked_by_syscon_name with
  | Some drive, Some name =>
      let~ r := ask_hald (libhal_device_is_caller_locked_out send hal_ctx (Some (libhal_drive_get_udi drive))
                       (Some "org.freedesktop.Hal.Device.Storage") (Some name)) in
      if r.1 : bool then tend (Exit (DEVICE_ERROR +:+ "InterfaceLocked") "The enclosing drive for the volume is locked") else tret tt
  | _, _ => tret tt
  end.

(** [IsCallerPrivileged] must answer "yes". *)
Definition check_privilege (denied : string -> string -> tm unit) (udi action : string) (caller : string) : tm unit :=
  let~ r := ask_hald (libhal_device_is_caller_privileged send hal_ctx (Some udi) (Some action) (Some caller)) in
  match r.1 : option string with
  | None => unknown_error "IsCallerPrivileged() failed"
  | Some result => if result =s? "yes" then tret tt else denied action result
  end.

(** ** Files under /media *)
Definition rmdir (path : string) : tm bool := tmedia (fun m =>
  if bool_decide (path ∈ directories m) && rmdir_ok path
  then (true, mk_media (hal_mtab m) (hal_mtab_new m) (directories m ∖ {[ path ]})) else (false, m)).
Definition mkdir (path : string) : tm bool := tmedia (fun m =>
  if bool_decide (path ∉ directories m) && mkdir_ok path
  then (true, mk_media (hal_mtab m) (hal_mtab_new m) ({[ path ]} ∪ directories m)) else (false, m)).
Definition get_mtab : tm (option string) := tmedia (fun m => (hal_mtab m, m)).
Definition unlink_new : tm unit := tmedia (fun m => (tt, mk_media (hal_mtab m) None (directories m))).
Definition write_new (content : string) : tm unit :=
  if new_mtab_writable then tmedia (fun m => (tt, mk_media (hal_mtab m) (Some content) (directories m)))
  else unknown_error "Cannot create /media/.hal-mtab~".
Definition rename_new : tm unit :=
  let~ ok := tmedia (fun m =>
    match hal_mtab_new m with
    | Some _ => if rename_ok then (true, mk_media (hal_mtab_new m) None (directories m)) else (false, m)
    | None => (false, m)
    end) in
  if ok : bool then tret tt
  else unlink_new ;/ unknown_error "Cannot rename /media/.hal-mtab~ to /media/.hal-mtab".
Definition path_exists (path : string) : tm bool := tmedia (fun m => (bool_decide (path ∈ directories m), m)).

(** The lines of the list. *)
Definition read_mtab : tm (list string) :=
  let~ content := get_mtab in
  match content with
  | Some content =>
      if mtab_readable then tret (g_strsplit (cut_nul content) NEWLINE 0) else unknown_error "Cannot open /media/.hal-mtab"
  | None => unknown_error "Cannot open /media/.hal-mtab"
  end.
Definition join_lines (lines : list string) : string := String.concat NEWLINE lines.

Definition spawn (args : list string) (k : option (Z * string) -> tm unit) : tm unit := tact [Spawned args] ;/ k (run args).

(** ** Mounting *)

(** Only other systems name file systems differently. *)
Definition map_fstype (fstype : string) : string := fstype.

Record request := mk_request { rq_mount_point : string; rq_fstype : string; rq_options : list string }.

Definition read_request (input : string) : tm request :=
  let~ point := tlift (read_line 256 input) in
  let~ fstype := tlift (read_line 256 point.2) in
  let~ options := tlift (read_line 1024 fstype.2) in
  ensure (is_valid_utf8 point.1) (unknown_error "Error validating mount_point as UTF-8") ;/
  ensure (is_valid_utf8 fstype.1) (unknown_error "Error validating mount_fstype as UTF-8") ;/
  ensure (is_valid_utf8 options.1) (unknown_error "Error validating mount_options as UTF-8") ;/
  ensure (negb (strchr point.1 "010" || strchr point.1 slash))
    (unknown_error "mount_point cannot contain the following characters: newline, G_DIR_SEPARATOR (usually /)") ;/
  tret (mk_request point.1 fstype.1 (split_options options.1)).

(** *** Where *)
Definition remount_dir (volume : option LibHalVolume) (device : string) : tm string :=
  let~ dir :=
    match volume with
    | Some v => ensure (libhal_volume_is_mounted v) (cannot_remount device) ;/ tret (libhal_volume_get_mount_point v)
    | None => let~ r := device_is_mounted device in ensure r.1 (cannot_remount device) ;/ tret r.2
    end in
  match dir : option string with
  | Some dir => tret dir
  | None => unknown_error "Cannot get mount_dir for remount even though volume is mounted!"
  end.
Definition check_not_mounted (volume : option LibHalVolume) (device : string) : tm unit :=
  match volume with
  | Some v => ensure (negb (libhal_volume_is_mounted v)) (already_mounted device)
  | None => let~ r := device_is_mounted device in ensure (negb r.1) (already_mounted device)
  end.

(** The label in a buffer of 256 bytes, or "disk", with '-' for '/'. *)
Definition computed_name (label : option string) : string :=
  string_map (fun c => if decide (c = slash) then "-"%char else c)
    (match label with Some l => str_take 255 l | None => "disk" end).
Definition media_dir (name : string) (i : nat) : string :=
  "/media/" +:+ name +:+ (if decide (i = 0%nat) then "" else "-" +:+ pretty i).
Fixpoint free_dir (explicit : bool) (name : string) (fuel i : nat) : tm string :=
  let~ taken := path_exists (media_dir name i) in
  if negb taken then tret (media_dir name i)
  else if explicit then mount_point_not_available (media_dir name i)
  else match fuel with O => tfault NoFuel | S fuel => free_dir explicit name fuel (S i) end.
Definition new_mount_dir (volume : option LibHalVolume) (device : string) (label : option string) (mount_point : string)
  : tm string :=
  check_not_mounted volume device ;/
  let explicit := negb (mount_point =s? "") in
  let name := if explicit then mount_point else computed_name label in
  ensure (negb (strchr name slash)) (invalid_mount_point name) ;/
  let~ fuel := tmedia (fun m => (size (directories m), m)) in
  free_dir explicit name fuel 0.

(** *** What *)
Definition strlist_answer (udi key error : string) : tm (option (list string)) :=
  let~ r := ask_hald (libhal_device_get_property_strlist send hal_ctx (Some udi) (Some key)) in
  match r.2, r.1 with
  | Some _, _ => unknown_error error
  | None, None => tret None
  | None, Some b => match strv b with Some l => tret (Some l) | None => tfault Overrun end
  end.

(** Whether the type that was asked for is listed as an alternative; one that is
    not is used all the same. *)
Definition is_alternative (udi : string) (volume : option LibHalVolume) (given : string) : tm bool :=
  match volume ≫= libhal_volume_get_fstype with
  | Some fstype =>
      if fstype =s? given then tret false
      else
        let~ alternative := strlist_answer udi "volume.fstype.alternative" "Cannot get volume.fstype.alternative" in
        tret (match alternative with Some l => bool_decide (given ∈ l) | None => false end)
  | None => tret false
  end.
Definition choose_fstype (udi : string) (volume : option LibHalVolume) (given : string) : tm (string * bool) :=
  if negb (given =s? "") then
    let~ found := (if map_fstype given =s? given then is_alternative udi volume given else tret false) in
    tret (map_fstype given, found)
  else
    tret (match volume ≫= libhal_volume_get_fstype with
          | Some fstype => if fstype =s? "" then "auto" else map_fstype fstype
          | None => "auto"
          end, false).

(** *** Options

    [char key[128]] *)
Definition valid_options_key (found_alternative : bool) (fstype : string) : lx_fault + string :=
  let key := "volume.mount." +:+ fstype +:+ ".valid_options" in
  if negb found_alternative then inr "volume.mount.valid_options"
  else if (String.length key <? 128)%nat then inr key else inl Overrun.

Inductive verdict := Granted (changes_uid : bool) | Refused | Malformed.
(** An empty entry is read before its start. *)
Fixpoint judge_option (given : string) (allowed : list string) : lx_fault + verdict :=
  match allowed with
  | [] => inr Refused
  | allow :: rest =>
      if given =s? allow then inr (Granted false)
      else if allow =s? "" then inl Overrun
      else if has_suffix allow "=" && has_prefix given allow && (String.length allow <? String.length given)%nat then
        if allow =s? "uid=" then
          match scan_number 10 (str_drop 4 given) with
          | Some (_, "") => inr (Granted true)
          | _ => inr Malformed
          end
        else inr (Granted false)
      else judge_option given rest
  end.
Fixpoint check_options (uid : option string) (allowed : option (list string)) (given : list string) (changes_uid : bool) : tm bool :=
  match given with
  | [] => tret changes_uid
  | g :: rest =>
      match allowed with
      | None => tfault NullPointer
      | Some l =>
          let~ v := tlift (judge_option g l) in
          match v with
          | Granted b => check_options uid allowed rest (changes_uid || b)
          | Malformed => unknown_error "option uid is malformed"
          | Refused => invalid_mount_option g uid
          end
      end
  end.
Definition mount_option_string (options : list string) : string :=
  "nosuid,nodev" +:+ (if have_umount_hal then ",uhelper=hal" else "") +:+
  foldr (fun o rest => "," +:+ o +:+ rest) "" options.

(** *** Who

    Changing the owner of files is not allowed where the file system has owners;
    the type of a volume without one is compared as NULL. *)
Definition ownerless_fstypes : list string := ["vfat"; "ntfs"; "ntfs-3g"; "iso9660"; "hfs"; "udf"].
Definition mount_action (volume : option LibHalVolume) (drive : LibHalDrive) (changes_uid : bool) : lx_fault + option string :=
  let pol_is_fixed := negb (libhal_drive_is_hotpluggable drive || libhal_drive_uses_removable_media drive) in
  let action := if pol_is_fixed then "org.freedesktop.hal.storage.mount-fixed"
                else "org.freedesktop.hal.storage.mount-removable" in
  match volume with
  | None => inr (Some action)
  | Some v =>
      match libhal_volume_get_fstype v with
      | None => inl NullPointer
      | Some fstype =>
          inr (if negb (bool_decide (fstype ∈ ownerless_fstypes)) && changes_uid then None else Some action)
      end
  end.
Definition authorize_mount (udi : string) (volume : option LibHalVolume) (drive : LibHalDrive) (changes_uid : bool)
    (caller : option string) : tm unit :=
  let~ action := tlift (mount_action volume drive changes_uid) in
  match action with
  | None => unknown_error "TODO: have to rethink extra options"
  | Some action =>
      if have_polkit then
        match caller with Some c => check_privilege permission_denied_action udi action c | None => tret tt end
      else tret tt
  end.

(** *** The list, and the program *)
Definition mtab_entry (device : string) (uid : option string) (fstype options dir : string) : string :=
  device +:+ TAB +:+ or_null uid +:+ TAB +:+ "0" +:+ TAB +:+ fstype +:+ TAB +:+ options +:+ TAB +:+ dir.
Definition record_mount (entry : string) : tm unit :=
  let~ old := get_mtab in
  let~ old := (match old : option string with
               | None => tret ""
               | Some c => if mtab_readable then tret (cut_nul c) else unknown_error "Cannot open /media/.hal-mtab"
               end) in
  write_new (old +:+ entry +:+ NEWLINE).

Definition mount_command (fstype options device dir : string) : list string :=
  ["/bin/mount"; "-t"; fstype; "-o"; options; device; dir].
Definition run_mount (volume : option LibHalVolume) (given_fstype : string) (is_remount : bool) (dir : string) (args : list string)
  : tm unit :=
  spawn args (fun r =>
    match r with
    | None => rmdir dir ;/ unlink_new ;/ unknown_error "Cannot spawn /bin/mount"
    | Some (status, serr) =>
        if status =? 0 then tret tt
        else
          (if is_remount then tret tt else rmdir dir ;/ unlink_new) ;/
          if has_prefix serr "mount: unknown filesystem type" then
            unknown_filesystem (if negb (given_fstype =s? "") then given_fstype
                                else match volume with Some v => or_null (libhal_volume_get_fstype v) | None => "" end)
          else unknown_error (string_map (fun c => if decide (c = "010"%char) then " "%char else c) serr)
    end).

Definition is_remount (options : list string) : bool := bool_decide ("remount" ∈ options).

(** Checks before anything is read from the caller. *)
Definition mount_allowed (udi : string) (volume : option LibHalVolume) (drive : LibHalDrive) (device : string) (caller : option string)
  : tm unit :=
  (if volume is Some _ then
     let~ r := ask_hald (libhal_device_get_property_bool send hal_ctx (Some udi) (Some "volume.ignore")) in
     ensure (negb (r.1 || bool_decide (is_Some r.2))) (permission_denied_volume_ignore device)
   else tret tt) ;/
  bailout_if_in_fstab device (volume ≫= libhal_volume_get_label) (volume ≫= libhal_volume_get_uuid) ;/
  bailout_if_drive_is_locked (Some drive) caller.

(** The directory is made, the list written, and mount run. *)
Definition perform_mount (volume : option LibHalVolume) (rq : request) (device : string) (uid : option string)
    (fstype dir : string) : tm unit :=
  let remount := is_remount (rq_options rq) in
  let options := mount_option_string (rq_options rq) in
  (if remount then tret tt
   else
     let~ made := mkdir dir in
     ensure made (unknown_error "Cannot create mount directory") ;/
     record_mount (mtab_entry device uid fstype options dir)) ;/
  run_mount volume (rq_fstype rq) remount dir (mount_command fstype options device dir) ;/
  if remount then tret tt else rename_new.

Definition handle_mount (udi : string) (volume : option LibHalVolume) (drive : LibHalDrive) (device : string)
    (uid caller : option string) (input : string) : tm unit :=
  mount_allowed udi volume drive device caller ;/
  let~ rq := read_request input in
  let~ dir := (if is_remount (rq_options rq) then remount_dir volume device
               else new_mount_dir volume device (volume ≫= libhal_volume_get_label) (rq_mount_point rq)) in
  let~ fs := choose_fstype udi volume (rq_fstype rq) in
  let~ key := tlift (valid_options_key fs.2 fs.1) in
  let~ allowed := strlist_answer udi key "Cannot get volume.mount.valid_options" in
  let~ changes_uid := check_options uid allowed (rq_options rq) false in
  authorize_mount udi volume drive changes_uid caller ;/
  perform_mount volume rq device uid fs.1 dir.

(** ** Unmounting *)

(** The first entry that is selected by its device and mount point: its user, its
    mount point, and the other lines. *)
Fixpoint take_entry (selects : string -> string -> bool) (lines : list string) : option (string * string * list string) :=
  match lines with
  | [] => None
  | line :: rest =>
      let next := '(u, m, l) ← take_entry selects rest; Some (u, m, line :: l) in
      if has_prefix line "#" then next
      else match g_strsplit line TAB 6 with
           | [d; u; _; _; _; m] => if selects d m then Some (u, m, rest) else next
           | _ => next
           end
  end.
Definition is_entry (line : string) : bool :=
  negb (has_prefix line "#") && (length (g_strsplit line TAB 6) =? 6)%nat.
(** A device file that is NULL is compared with the first entry. *)
Definition find_entry (device : option string) (lines : list string) : lx_fault + option (string * string * list string) :=
  match device with
  | Some f => inr (take_entry (fun d _ => d =s? f) lines)
  | None => if existsb is_entry lines then inl NullPointer else inr None
  end.

Definition unmount_allowed (udi : string) (volume : option LibHalVolume) (drive : LibHalDrive) (device caller : option string) : tm unit :=
  (match volume with
   | Some v =>
       let~ r := ask_hald (libhal_device_get_property_bool send hal_ctx (Some udi) (Some "volume.ignore")) in
       ensure (negb r.1) (permission_denied_volume_ignore (or_null device)) ;/
       ensure (bool_decide (r.2 = None)) (unknown_error "Error while get volume.ignore") ;/
       ensure (libhal_volume_is_mounted v) (not_mounted "According to HAL, the volume is not mounted")
   | None => tret tt
   end) ;/
  bailout_if_drive_is_locked (Some drive) caller.

(** Others than the one who mounted need a privilege; root does not. *)
Definition UNMOUNT_OTHERS : string := "org.freedesktop.hal.storage.unmount-others".
Definition authorize_unmount (udi uid owner : string) (caller : option string) : tm unit :=
  if negb (uid =s? "0") && negb (owner =s? uid) then
    if have_polkit then
      match caller with
      | Some c => check_privilege permission_denied_privilege udi UNMOUNT_OTHERS c
      | None => tret tt
      end
    else permission_denied_privilege UNMOUNT_OTHERS "no"
  else tret tt.

Definition umount_command (option_lazy option_force : bool) (device : string) : list string :=
  ["/bin/umount"] ++ (if option_lazy then ["-l"] else []) ++ (if option_force then ["-f"] else []) ++ [device].
Definition run_umount (args : list string) : tm unit :=
  spawn args (fun r =>
    match r with
    | None => unlink_new ;/ unknown_error "Cannot spawn /bin/umount"
    | Some (status, serr) =>
        if status =? 0 then tret tt
        else unlink_new ;/ if strstr serr "device is busy" then device_busy serr else unknown_error serr
    end).
(** The directory goes, and the new list becomes the list. *)
Definition remove_mount_point (mount_point : string) : tm unit :=
  let~ removed := rmdir mount_point in
  ensure removed (unlink_new ;/ unknown_error "Cannot remove directory") ;/
  rename_new.

Definition handle_unmount (udi : string) (volume : option LibHalVolume) (drive : LibHalDrive) (device uid caller : option string)
    (option_lazy option_force : bool) : tm unit :=
  unmount_allowed udi volume drive device caller ;/
  let~ lines := read_mtab in
  let~ entry := tlift (find_entry device lines) in
  match entry, device with
  | Some (owner, mount_point, others), Some device =>
      match uid with
      | None => tfault NullPointer
      | Some uid =>
          authorize_unmount udi uid owner caller ;/
          write_new (join_lines others) ;/
          run_umount (umount_command option_lazy option_force device) ;/
          remove_mount_point mount_point
      end
  | _, _ => not_mounted_by_hal "Device to unmount is not in /media/.hal-mtab so it is not mounted by HAL"
  end.

(** ** Ejecting, and closing the tray

    The device is opened up to six times; a file that is NULL is not busy, and
    ends the arguments. *)
Definition check_not_busy (device : option string) : tm unit :=
  ensure (negb (match device with Some f => forallb (open_busy f) (seq 0 6) | None => false end))
    (device_busy "Some application is using the device").
Definition eject_command (closetray : bool) (device : option string) : list string :=
  [eject_program] ++ (if closetray then ["-t"] else []) ++ option_list device.
Definition run_eject (args : list string) : tm unit :=
  spawn args (fun r =>
    match r with
    | None => unknown_error ("Cannot spawn " +:+ eject_program)
    | Some (status, serr) => ensure (status =? 0) (unknown_error serr)
    end).
Definition handle_eject (udi : string) (drive : LibHalDrive) (device caller : option string) (closetray : bool) : tm unit :=
  check_not_busy device ;/
  (if have_polkit then
     match caller with
     | Some c => check_privilege permission_denied_privilege udi "org.freedesktop.hal.storage.eject" c
     | None => tret tt
     end
   else tret tt) ;/
  bailout_if_drive_is_locked (Some drive) caller ;/
  run_eject (eject_command closetray device) ;/
  tact (if libhal_drive_is_media_detection_automatic drive then [] else [CheckForMedia udi]).

(** ** The programs

    The daemon passes the device and the caller in the environment, and the
    arguments of the method on the standard input. *)
Context (getenv : string -> option string) (stdin : string).

Definition need_env (name : string) : tm string := match getenv name with Some v => tret v | None => tend Usage end.
Definition lock_hal_mtab (failed : tm unit) : tm unit := ensure lock_ok failed.
Definition take_lock : tm unit := lock_hal_mtab (unknown_error "Cannot obtain lock on /media/.hal-mtab").
Definition INVOKED_BY_UID : option string := getenv "HAL_METHOD_INVOKED_BY_UID".
Definition INVOKED_BY_CONNECTION : option string := getenv "HAL_METHOD_INVOKED_BY_SYSTEMBUS_CONNECTION_NAME".
(** The device and its UDI, and connections to the daemon and to the bus. *)
Definition start_tool : tm (string * string) :=
  let~ device := need_env "HAL_PROP_BLOCK_DEVICE" in
  let~ udi := need_env "HAL_PROP_INFO_UDI" in
  ensure (bool_decide (is_Some hal_ctx)) (tend Usage) ;/
  ensure system_bus_ok (tend Usage) ;/
  tret (device, udi).

(** A volume and its drive, or a drive alone. *)
Definition volume_and_drive (udi : string) : tm (option LibHalVolume * LibHalDrive) :=
  let~ volume := ask_hald (libhal_volume_from_udi send hal_ctx (Some udi)) in
  match volume with
  | None =>
      let~ drive := ask_hald (libhal_drive_from_udi send hal_ctx (Some udi)) in
      match drive with None => tend Usage | Some drive => tret (None, drive) end
  | Some v =>
      match libhal_volume_get_storage_device_udi v with
      | None => unknown_error "Cannot get drive_udi from volume"
      | Some drive_udi =>
          let~ drive := ask_hald (libhal_drive_from_udi send hal_ctx (Some drive_udi)) in
          match drive with None => unknown_error "Cannot get drive from hal" | Some drive => tret (Some v, drive) end
      end
  end.

Definition mount_main : tm unit :=
  take_lock ;/
  let~ on := start_tool in
  let~ vd := volume_and_drive on.2 in
  handle_mount on.2 vd.1 vd.2 on.1 INVOKED_BY_UID INVOKED_BY_CONNECTION stdin.

Definition read_options (failed : string -> tm unit) (name : string) : tm (list string) :=
  let~ options := tlift (read_line 1024 stdin) in
  ensure (is_valid_utf8 options.1) (failed ("Error validating " +:+ name +:+ " as UTF-8")) ;/
  tret (split_options options.1).

Fixpoint unmount_flags (given : list string) (use_lazy use_force : bool) : tm (bool * bool) :=
  match given with
  | [] => tret (use_lazy, use_force)
  | g :: rest =>
      if g =s? "lazy" then unmount_flags rest true use_force
      else if g =s? "force" then unmount_flags rest use_lazy true
      else invalid_unmount_option g INVOKED_BY_UID
  end.
Definition unmount_main : tm unit :=
  take_lock ;/
  let~ on := start_tool in
  let~ given := read_options unknown_error "unmount_options" in
  let~ flags := unmount_flags given false false in
  let~ vd := volume_and_drive on.2 in
  handle_unmount on.2 vd.1 vd.2 (Some on.1) INVOKED_BY_UID INVOKED_BY_CONNECTION flags.1 flags.2.

(** Each mounted volume is unmounted, with the UDI the program was started for. *)
Fixpoint unmount_volumes (devtype udi : string) (drive : LibHalDrive) (volume_udis : list string) : tm unit :=
  match volume_udis with
  | [] => tret tt
  | volume_udi :: rest =>
      let~ volume := ask_hald (libhal_volume_from_udi send hal_ctx (Some volume_udi)) in
      match volume with
      | None => unknown_eject_error devtype "Cannot get volume object"
      | Some v =>
          (if libhal_volume_is_mounted v then
             lock_hal_mtab (unknown_eject_error devtype "Cannot obtain lock on /media/.hal-mtab") ;/
             handle_unmount udi (Some v) drive (libhal_volume_get_device_file v) INVOKED_BY_UID INVOKED_BY_CONNECTION false false
           else tret tt) ;/
          unmount_volumes devtype udi drive rest
      end
  end.
Definition drive_volumes (devtype : string) (drive : LibHalDrive) : tm (list string) :=
  let~ r := ask_hald (libhal_drive_find_all_volumes send hal_ctx drive) in
  match r with
  | None => tfault Overrun
  | Some (None, _) => unknown_eject_error devtype "Cannot get all enclosed volumes"
  | Some (Some b, n) => match array_read b n with Some udis => tret udis | None => tfault Overrun end
  end.
Definition no_options (given : list string) (invalid : string -> option string -> tm unit) : tm unit :=
  match given with [] => tret tt | g :: _ => invalid g INVOKED_BY_UID end.

Definition eject_main : tm unit :=
  let~ on := start_tool in
  let~ given := read_options (unknown_eject_error "Volume") "eject_options" in
  no_options given invalid_eject_option ;/
  let~ volume := ask_hald (libhal_volume_from_udi send hal_ctx (Some on.2)) in
  let devtype := if volume is Some _ then "Volume" else "Storage" in
  match (match volume with Some v => libhal_volume_get_storage_device_udi v | None => Some on.2 end) with
  | None => unknown_eject_error devtype "Cannot get drive udi"
  | Some drive_udi =>
      let~ drive := ask_hald (libhal_drive_from_udi send hal_ctx (Some drive_udi)) in
      match drive with
      | None => unknown_eject_error devtype "Cannot get drive from udi"
      | Some drive =>
          let~ udis := drive_volumes devtype drive in
          unmount_volumes devtype on.2 drive udis ;/
          handle_eject (libhal_drive_get_udi drive) drive (libhal_drive_get_device_file drive) INVOKED_BY_CONNECTION false
      end
  end.

Definition closetray_main : tm unit :=
  let~ on := start_tool in
  let~ given := read_options unknown_closetray_error "closetray_options" in
  no_options given invalid_closetray_option ;/
  let~ drive := ask_hald (libhal_drive_from_udi send hal_ctx (Some on.2)) in
  match drive with
  | None => unknown_closetray_error "Cannot get drive"
  | Some drive => handle_eject (libhal_drive_get_udi drive) drive (libhal_drive_get_device_file drive) INVOKED_BY_CONNECTION true
  end.

(** ** Cleaning up

    After a device was removed while it was mounted, and when the daemon starts. *)
Definition do_cleanup (mount_point : string) : tm unit :=
  let~ lines := read_mtab in
  match take_entry (fun _ m => m =s? mount_point) lines with
  | None => unknown_error "mount point is not /media/.hal-mtab"
  | Some (_, _, others) => write_new (join_lines others) ;/ remove_mount_point mount_point
  end.
Definition cleanup_mountpoint_main : tm unit :=
  take_lock ;/
  let~ mount_point := need_env "HALD_CLEANUP" in
  do_cleanup mount_point.

(** Every directory that can be removed goes, and with it its entry. *)
Fixpoint remove_stale (lines : list string) : tm (list string) :=
  match lines with
  | [] => tret []
  | line :: rest =>
      let keep := let~ others := remove_stale rest in tret (line :: others) in
      if has_prefix line "#" then keep
      else match g_strsplit line TAB 6 with
           | [_; _; _; _; _; mount_point] =>
               let~ removed := rmdir mount_point in
               if removed : bool then remove_stale rest else keep
           | _ => keep
           end
  end.
Definition write_lines (lines : list string) : string :=
  foldr (fun line rest => if line =s? "" then rest else line +:+ NEWLINE +:+ rest) "" lines.
Definition do_cleanup_all : tm unit :=
  let~ lines := read_mtab in
  let~ others := remove_stale lines in
  write_new (write_lines others) ;/
  rename_new.
Definition cleanup_all_mountpoints_main : tm unit := need_env "HAL_PROP_INFO_UDI" ;/ do_cleanup_all.
End Tools.
