(* ===== verification/StorageToolsTheory.v ===== *)
(** * Reasoning about the mount programs

    Steps that only ask and check ([checks]); what an option that passed the
    check looks like; the lines of /media/.hal-mtab.  [SplitLaws] is what GLib
    documents of [g_strsplit]. *)

From Stdlib Require Import ZArith Lia Ascii SpecFloat.
From stdpp Require Import base list gmap strings option pretty fin_maps.
From S2P Require Import Prelude CStd Property Device DeviceStore FdiRules FdiInterp AccessCheck Bus Partutil Util Dbus DbusManager Libhal LibhalCalls Storage Hotplug LinuxSysfs LinuxDevice Blockdev UtilClaims StorageTools.

(** "Splits a string into a maximum of max_tokens pieces, using the given
    delimiter. If max_tokens is reached, the remainder of string is appended to the
    last token. As a special case, the result of splitting the empty string is an
    empty vector." *)
Definition split_rest {P : Platform} (s d : string) (n : Z) : list string :=
  if s =s? "" then [""] else g_strsplit s d n.
Class SplitLaws (P : Platform) : Prop := {
  split_empty d n : g_strsplit "" d n = [];
  split_single s d : s <> "" -> g_strsplit s d 1 = [s];
  split_none s c n : s <> "" -> strchr s c = false -> g_strsplit s (String c "") n = [s];
  split_first a c s n :
    strchr a c = false -> 1 < n -> g_strsplit (a +:+ String c s) (String c "") n = a :: split_rest s (String c "") (n - 1);
  split_all a c s :
    strchr a c = false -> g_strsplit (a +:+ String c s) (String c "") 0 = a :: split_rest s (String c "") 0;
}.

Module AsciiSplit.
Import AsciiPlatform.
Lemma split_single_piece d cur s : split d 1 cur s = [cur +:+ s].
Proof.
  revert cur. induction s as [|c s IH]; intros cur; cbn [split]; [by rewrite string_app_nil_r|].
  rewrite IH, <- string_app_assoc. done.
Qed.
Lemma split_no_delimiter d fuel cur s : strchr s d = false -> split d fuel cur s = [cur +:+ s].
Proof.
  revert cur. induction s as [|c s IH]; intros cur; cbn [split strchr]; [by rewrite string_app_nil_r|].
  intros [E H]%orb_false_iff. rewrite E. destruct fuel as [|[|]]; rewrite IH, <- string_app_assoc; done.
Qed.
Lemma split_delimiter d f cur a s :
  strchr a d = false -> split d (S (S f)) cur (a +:+ String d s) = (cur +:+ a) :: split d (S f) "" s.
Proof.
  revert cur. induction a as [|c a IH]; intros cur.
  - intros _. change ("" +:+ String d s) with (String d s). cbn [split]. rewrite bool_decide_true by done.
    by rewrite string_app_nil_r.
  - change (String c a +:+ String d s) with (String c (a +:+ String d s)). cbn [split strchr].
    intros [E H]%orb_false_iff. rewrite E, IH, <- string_app_assoc by done. done.
Qed.
Lemma split_fuel d f g cur s :
  (String.length s < f)%nat -> (String.length s < g)%nat -> split d f cur s = split d g cur s.
Proof.
  revert f g cur. induction s as [|c s IH]; intros f g cur Hf Hg; [done|]. cbn [String.length] in *.
  destruct f as [|[|f]], g as [|[|g]]; try lia. cbn [split].
  destruct (bool_decide _); [rewrite (IH (S f) (S g)) by lia; done | apply IH; lia].
Qed.
Lemma strsplit_is s c n : s <> "" ->
  strsplit s (String c "") n = split c (if n <=? 0 then S (String.length s) else Z.to_nat n) "" s.
Proof. by destruct s. Qed.

#[export] Instance split_laws : SplitLaws platform.
Proof.
  split; cbn [g_strsplit platform].
  - done.
  - intros [|x s] [|c d] H; [done..|]. exact (split_single_piece _ _ _).
  - intros s c n H Hc. rewrite strsplit_is by done. by rewrite split_no_delimiter.
  - intros a c s n Ha Hn. rewrite strsplit_is by by destruct a.
    replace (n <=? 0) with false by lia.
    replace (Z.to_nat n) with (S (S (Z.to_nat (n - 2)))) by lia. rewrite split_delimiter by done. f_equal.
    unfold split_rest. destruct s as [|x s]; [by cbn [split]|].
    cbn [g_strsplit platform]. change (String x s =s? "") with false. cbv iota.
    rewrite strsplit_is by done. replace (n - 1 <=? 0) with false by lia.
    by replace (Z.to_nat (n - 1)) with (S (Z.to_nat (n - 2))) by lia.
  - intros a c s Ha. rewrite strsplit_is by by destruct a. cbn [Z.leb Z.compare].
    rewrite string_length_app. cbn [String.length].
    replace (S (String.length a + S (String.length s))) with (S (S (String.length a + String.length s))) by lia.
    rewrite split_delimiter by done. f_equal.
    unfold split_rest. destruct s as [|x s]; [by cbn [split]|].
    cbn [g_strsplit platform]. change (String x s =s? "") with false. cbv iota.
    rewrite strsplit_is by done. cbn [Z.leb Z.compare String.length]. apply split_fuel; cbn [String.length]; lia.
Qed.
End AsciiSplit.

(** ** Runs *)
Definition trace_of {A} (r : (tool_end * tool * list tool_action) + (A * tool * list tool_action)) : list tool_action :=
  match r with inl (_, _, l) => l | inr (_, _, l) => l end.
Definition end_of {A} (r : (tool_end * tool * list tool_action) + (A * tool * list tool_action)) : tool :=
  match r with inl (_, t, _) => t | inr (_, t, _) => t end.
Definition spawned (l : list tool_action) : list (list string) :=
  omap (fun a => match a with Spawned args => Some args | _ => None end) l.
Arguments spawned : simpl never.

Lemma spawned_app l1 l2 : spawned (l1 ++ l2) = spawned l1 ++ spawned l2.
Proof. apply omap_app. Qed.
Lemma spawned_served l : spawned (Served <$> l) = [].
Proof. by induction l. Qed.

Lemma tbind_inr {A B} (m : tm A) (k : A -> tm B) t y t2 l :
  tbind m k t = inr (y, t2, l) <->
  exists x t1 l1 l2, m t = inr (x, t1, l1) /\ k x t1 = inr (y, t2, l2) /\ l = l1 ++ l2.
Proof.
  unfold tbind. split.
  - destruct (m t) as [|[[x t1] l1]]; [done|].
    destruct (k x t1) as [[[e u] l2]|[[z u] l2]] eqn:Ek; [done|]. intros [= -> -> <-]. eauto 10.
  - intros (x & t1 & l1 & l2 & -> & -> & ->). done.
Qed.

Lemma tbind_inl {A B} (m : tm A) (k : A -> tm B) t e u l :
  tbind m k t = inl (e, u, l) ->
  m t = inl (e, u, l) \/ exists x t1 l1 l2, m t = inr (x, t1, l1) /\ k x t1 = inl (e, u, l2) /\ l = l1 ++ l2.
Proof.
  unfold tbind. destruct (m t) as [[[e' u'] l']|[[x t1] l1]]; [intros [= -> -> ->]; by left|]. right.
  destruct (k x t1) as [[[e' v] l2]|[[z v] l2]] eqn:Ek; [|done]. exists x, t1, l1, l2. by simplify_eq.
Qed.

(** A step that starts no program and leaves the files alone. *)
Definition checks {A} (m : tm A) : Prop :=
  forall t, spawned (trace_of (m t)) = [] /\ tl_media (end_of (m t)) = tl_media t.
Create HintDb tools.

Lemma checks_bind {A B} (m : tm A) (k : A -> tm B) : checks m -> (forall x, checks (k x)) -> checks (tbind m k).
Proof.
  intros Hm Hk t. unfold tbind. destruct (Hm t) as [Hs Ht].
  destruct (m t) as [[[e u] l]|[[x u] l]]; [done|]. cbn in Hs, Ht.
  destruct (Hk x u) as [Ks Kt]. rewrite <- Ht, <- Kt.
  destruct (k x u) as [[[e v] l2]|[[y v] l2]]; cbn in *; rewrite spawned_app, Hs, Ks; done.
Qed.
Lemma checks_ret {A} (x : A) : checks (tret x).
Proof. done. Qed.
Lemma checks_end {A} e : checks (A := A) (tend e).
Proof. done. Qed.
Lemma checks_ask {A} (m : hm A) : checks (ask_hald m).
Proof. intros t. unfold ask_hald. destruct (m (tl_hald t)) as [|[[x h] l]]; [done|]. cbn. by rewrite spawned_served. Qed.
Lemma checks_look {A} (f : media -> A) : checks (tmedia (fun m => (f m, m))).
Proof. by intros [h m]. Qed.
#[export] Hint Resolve checks_ret checks_end checks_ask checks_look : tools.

Lemma checks_media {A} (m : tm A) t x t' l : checks m -> m t = inr (x, t', l) -> tl_media t' = tl_media t.
Proof. intros H E. destruct (H t) as [_ M]. by rewrite E in M. Qed.

Ltac checks_step :=
  match goal with
  | |- checks (tbind _ _) => apply checks_bind; [|intros ?]
  | |- checks (match ?x with _ => _ end) => destruct x
  | |- checks (if ?x then _ else _) => destruct x
  end.
Ltac solve_checks := repeat checks_step; eauto with tools.

(** What a run of a sequence starts with, when the first step only checks. *)
Lemma spawned_checked {A B} (m : tm A) (k : A -> tm B) t :
  checks m ->
  spawned (trace_of (tbind m k t)) = [] \/
  exists x t1 l1, m t = inr (x, t1, l1) /\ tl_media t1 = tl_media t /\
    spawned (trace_of (tbind m k t)) = spawned (trace_of (k x t1)) /\
    tl_media (end_of (tbind m k t)) = tl_media (end_of (k x t1)).
Proof.
  intros Hm. destruct (Hm t) as [Hs Ht]. unfold tbind.
  destruct (m t) as [[[e u] l]|[[x u] l]]; [by left|]. cbn in Hs, Ht. right. exists x, u, l.
  destruct (k x u) as [[[e v] l2]|[[y v] l2]]; cbn; rewrite spawned_app, Hs; done.
Qed.

(** A run that failed after it had started a program did not fail in such a step. *)
Lemma failed_later {A B} (m : tm A) (k : A -> tm B) t e u l :
  tbind m k t = inl (e, u, l) -> spawned l <> [] -> checks m ->
  exists x t1 l1 l2, m t = inr (x, t1, l1) /\ tl_media t1 = tl_media t /\ k x t1 = inl (e, u, l2) /\ spawned l2 <> [].
Proof.
  intros [E | (x & t1 & l1 & l2 & E & Ek & ->)]%tbind_inl Hs Hm; destruct (Hm t) as [Hl Ht]; rewrite E in Hl, Ht; cbn in Hl, Ht.
  - done.
  - exists x, t1, l1, l2. split_and!; [done..|]. by rewrite spawned_app, Hl in Hs.
Qed.

Section Checks.
Context {P : Platform} {SF : Sysfs} {BF : BlockFiles} {W : ToolWorld}.
Context (send : LibHalContext -> DBusMessage -> hm dbus_reply) (hal_ctx : option LibHalContext) (link_fuel : nat).

Lemma checks_lift {A} (x : lx_fault + A) : checks (tlift x).
Proof. by destruct x. Qed.
Lemma checks_ensure b m : checks m -> checks (ensure b m).
Proof. by destruct b. Qed.
#[local] Hint Resolve checks_lift checks_ensure : tools.
Lemma checks_error {A} name detail : checks (A := A) (volume_error name detail).
Proof. done. Qed.
#[local] Hint Resolve checks_error : tools.

Lemma checks_fstab device label uuid entries : checks (check_fstab send hal_ctx link_fuel device label uuid entries).
Proof.
  induction entries as [|e entries IH]; cbn [check_fstab]; [done|].
  apply checks_bind; [|done]. unfold skip_fstab_entry, volume_findby, permission_denied_etc_fstab. solve_checks.
Qed.
Lemma checks_locked drive caller : checks (bailout_if_drive_is_locked send hal_ctx drive caller).
Proof. unfold bailout_if_drive_is_locked. solve_checks. Qed.
#[local] Hint Resolve checks_fstab checks_locked : tools.
Lemma checks_mount_allowed udi volume drive device caller :
  checks (mount_allowed send hal_ctx link_fuel udi volume drive device caller).
Proof. unfold mount_allowed, bailout_if_in_fstab, unknown_error, permission_denied_volume_ignore. solve_checks. Qed.
Lemma checks_request input : checks (read_request input).
Proof. unfold read_request, unknown_error. solve_checks. Qed.
Lemma checks_free_dir explicit name fuel i : checks (free_dir explicit name fuel i).
Proof.
  revert i. induction fuel as [|fuel IH]; intros i; cbn [free_dir]; unfold path_exists, mount_point_not_available; solve_checks.
Qed.
#[local] Hint Resolve checks_free_dir : tools.
Lemma checks_is_mounted device : checks (device_is_mounted link_fuel device).
Proof. unfold device_is_mounted, unknown_error. solve_checks. Qed.
#[local] Hint Resolve checks_is_mounted : tools.
Lemma checks_remount_dir volume device : checks (remount_dir link_fuel volume device).
Proof. unfold remount_dir, cannot_remount, unknown_error. solve_checks. Qed.
Lemma checks_new_mount_dir volume device label point : checks (new_mount_dir link_fuel volume device label point).
Proof. unfold new_mount_dir, check_not_mounted, already_mounted, invalid_mount_point. solve_checks. Qed.
Lemma checks_strlist udi key error : checks (strlist_answer send hal_ctx udi key error).
Proof. unfold strlist_answer, unknown_error. solve_checks. Qed.
#[local] Hint Resolve checks_strlist : tools.
Lemma checks_choose_fstype udi volume given : checks (choose_fstype send hal_ctx udi volume given).
Proof. unfold choose_fstype, is_alternative. solve_checks. Qed.
Lemma checks_options uid allowed given b : checks (check_options uid allowed given b).
Proof.
  revert b. induction given as [|g given IH]; intros b; cbn [check_options]; [done|].
  unfold unknown_error, invalid_mount_option. solve_checks.
Qed.
Lemma checks_privilege denied udi action caller :
  (forall a r, checks (denied a r)) -> checks (check_privilege send hal_ctx denied udi action caller).
Proof. intros H. unfold check_privilege, unknown_error. solve_checks. Qed.
Lemma checks_authorize udi volume drive b caller : checks (authorize_mount send hal_ctx udi volume drive b caller).
Proof. unfold authorize_mount, unknown_error. repeat checks_step; try (apply checks_privilege; intros); eauto with tools. Qed.
Lemma checks_unmount_allowed udi volume drive device caller :
  checks (unmount_allowed send hal_ctx udi volume drive device caller).
Proof. unfold unmount_allowed, unknown_error, permission_denied_volume_ignore, not_mounted. solve_checks. Qed.
Lemma checks_authorize_unmount udi uid owner caller : checks (authorize_unmount send hal_ctx udi uid owner caller).
Proof. unfold authorize_unmount. repeat checks_step; try (apply checks_privilege; intros); eauto with tools. Qed.
Lemma checks_volume_and_drive udi : checks (volume_and_drive send hal_ctx udi).
Proof. unfold volume_and_drive, unknown_error. solve_checks. Qed.
Lemma checks_start getenv : checks (start_tool hal_ctx getenv).
Proof. unfold start_tool, need_env. solve_checks. Qed.
End Checks.
#[export] Hint Resolve checks_lift checks_ensure checks_error checks_mount_allowed checks_request checks_remount_dir
  checks_new_mount_dir checks_strlist checks_choose_fstype checks_options checks_authorize checks_unmount_allowed
  checks_authorize_unmount checks_volume_and_drive checks_start checks_is_mounted checks_free_dir : tools.

(** ** What a step that ended well has found out *)
Definition answered {A} (m : hm A) (x : A) : Prop := exists h h' l, m h = inr (x, h', l).
Lemma ask_inr {A} (m : hm A) t x t' l : ask_hald m t = inr (x, t', l) -> answered m x.
Proof. unfold ask_hald. destruct (m (tl_hald t)) as [|[[y h] la]] eqn:E; [done|]. intros [= <- <- <-]. by exists (tl_hald t), h, la. Qed.
Lemma ensure_inr b m t x t' l : (forall u, exists e, m u = inl e) -> ensure b m t = inr (x, t', l) -> b = true /\ t' = t.
Proof. intros Hm. destruct b; cbn; [by intros [= _ <- _]|]. destruct (Hm t) as [e ->]. done. Qed.
Lemma tlift_inr {A} (x : lx_fault + A) t y t' l : tlift x t = inr (y, t', l) -> x = inr y.
Proof. destruct x; cbn; [done|]. by intros [= -> _ _]. Qed.
Lemma error_ends {A} name detail u : exists e, volume_error (A := A) name detail u = inl e.
Proof. by eexists. Qed.
#[export] Hint Resolve error_ends : tools.

Ltac inv_bind H :=
  let x := fresh "x" in let t := fresh "t" in let l := fresh "l" in let l' := fresh "l'" in let E := fresh "E" in
  apply tbind_inr in H; destruct H as (x & t & l & l' & E & H & ->).

(** An entry of the list of valid options is meant literally, or ends in '=' and
    stands for every value; the value of [uid=] is a number. *)
Definition permits (allow given : string) : Prop :=
  given = allow \/
  exists value, has_suffix allow "=" = true /\ value <> "" /\ given = allow +:+ value /\
    (allow = "uid=" -> exists z, scan_number 10 value = Some (z, "")).

Lemma judge_granted given allowed b : judge_option given allowed = inr (Granted b) -> exists a, a ∈ allowed /\ permits a given.
Proof.
  induction allowed as [|a allowed IH]; cbn [judge_option]; [done|].
  case_bool_decide as Ea.
  { intros _. subst. exists a. split; [left|by left]. }
  destruct (bool_decide (a = "")); [done|].
  destruct (has_suffix a "=" && has_prefix given a && (String.length a <? String.length given)%nat) eqn:Em.
  - apply andb_true_iff in Em as [[Hs Hp]%andb_true_iff Hl]. apply has_prefix_spec in Hp as [v ->].
    rewrite string_length_app in Hl. intros H. exists a. split; [left|]. right. exists v. split_and!; [done| |done|].
    + intros ->. apply Nat.ltb_lt in Hl. cbn in Hl. lia.
    + intros ->. rewrite bool_decide_true in H by done.
      change 4%nat with (String.length "uid=") in H. rewrite str_drop_app in H.
      destruct (scan_number 10 v) as [[z [|]]|]; [by exists z|done..].
  - intros H. destruct (IH H) as (x & Hx & ?). exists x. split; [by right|done].
Qed.
Lemma options_permitted uid allowed given b t b' t' l :
  check_options uid allowed given b t = inr (b', t', l) ->
  forall o, o ∈ given -> exists a, a ∈ default [] allowed /\ permits a o.
Proof.
  revert b t l. induction given as [|g given IH]; intros b t l; cbn [check_options].
  - intros _ o Ho. by apply elem_of_nil in Ho.
  - destruct allowed as [allowed|]; [|done]. intros H. inv_bind H. apply tlift_inr in E.
    destruct x as [c| |]; [|done..]. intros o [-> | Ho]%elem_of_cons; [by apply judge_granted in E | eapply IH; eauto].
Qed.

Lemma strlist_found {P : Platform} send hal_ctx udi key error t r t' l :
  strlist_answer send hal_ctx udi key error t = inr (r, t', l) ->
  exists b, answered (libhal_device_get_property_strlist send hal_ctx (Some udi) (Some key)) (b, None) /\ b ≫= strv = r.
Proof.
  unfold strlist_answer. intros H. inv_bind H. apply ask_inr in E. destruct x as [b [e|]]; cbn in *; [done|].
  exists b. split; [done|]. destruct b as [b|]; [|by injection H as <-]. cbn.
  destruct (strv b); [by injection H as <- | done].
Qed.

Lemma free_dir_found explicit name fuel i t dir t' l :
  free_dir explicit name fuel i t = inr (dir, t', l) -> exists j, dir = media_dir name j /\ dir ∉ directories (tl_media t).
Proof.
  revert i t l. induction fuel as [|fuel IH]; intros i t l; cbn [free_dir]; intros H; inv_bind H;
    unfold path_exists, tmedia in E; injection E as <- <- <-; case_bool_decide as Hd; cbn [negb] in H.
  - destruct explicit; done.
  - injection H as <- <- <-. eauto.
  - destruct explicit; [done|]. by apply IH in H.
  - injection H as <- <- <-. eauto.
Qed.

Section Facts.
Context {P : Platform} {SF : Sysfs} {BF : BlockFiles} {W : ToolWorld}.
Context (send : LibHalContext -> DBusMessage -> hm dbus_reply) (hal_ctx : option LibHalContext) (link_fuel : nat).

(** An entry that names the device by its file, or the volume by its UUID. *)
Definition lists_device (device : string) (uuid : option string) (e : mntent) : Prop :=
  (has_prefix (mnt_fsname e) "LABEL=" = false /\ has_prefix (mnt_fsname e) "UUID=" = false /\
     tool_resolve_symlink link_fuel (mnt_fsname e) = inr device) \/
  exists u, uuid = Some u /\ mnt_fsname e = "UUID=" +:+ u.

Lemma fstab_unlisted device label uuid entries t t' l :
  check_fstab send hal_ctx link_fuel device label uuid entries t = inr (tt, t', l) ->
  forall e, e ∈ entries -> ~ lists_device device uuid e.
Proof.
  revert t l. induction entries as [|e entries IH]; intros t l; cbn [check_fstab].
  { intros _ e He. by apply elem_of_nil in He. }
  intros H. inv_bind H. intros e' [-> | He']%elem_of_cons; [|by eapply IH].
  intros [(Hl & Hu & Hr) | (u & -> & Hf)].
  - rewrite Hl, Hu, !andb_false_r in E. cbv iota in E. inv_bind E. apply tlift_inr in E0.
    rewrite Hr in E0. injection E0 as <-. by rewrite bool_decide_true in E.
  - assert (has_prefix (mnt_fsname e) "LABEL=" = false) as Hl by by rewrite Hf.
    rewrite Hl, Hf, andb_false_r in E. cbv iota in E.
    rewrite bool_decide_true in E by by exists u.
    assert (has_prefix ("UUID=" +:+ u) "UUID=" = true) as Hp by (apply has_prefix_spec; by exists u).
    rewrite Hp in E. change 5%nat with (String.length "UUID=") in E. rewrite str_drop_app in E.
    by rewrite bool_decide_true in E.
Qed.

Definition not_locked_out (drive : LibHalDrive) (caller : string) : Prop :=
  exists e, answered (libhal_device_is_caller_locked_out send hal_ctx (Some (libhal_drive_get_udi drive))
    (Some "org.freedesktop.Hal.Device.Storage") (Some caller)) (false, e).
Lemma unlocked drive caller t t' l :
  bailout_if_drive_is_locked send hal_ctx (Some drive) (Some caller) t = inr (tt, t', l) -> not_locked_out drive caller.
Proof.
  unfold bailout_if_drive_is_locked. intros H. inv_bind H. apply ask_inr in E. destruct x as [[|] e]; [done|]. by exists e.
Qed.

Definition not_ignored (udi : string) : Prop :=
  answered (libhal_device_get_property_bool send hal_ctx (Some udi) (Some "volume.ignore")) (false, None).
Lemma mount_allowed_facts udi volume drive device caller t t' l :
  mount_allowed send hal_ctx link_fuel udi volume drive device caller t = inr (tt, t', l) ->
  (is_Some volume -> not_ignored udi) /\
  (exists entries, fstab = Some entries /\
     forall e, e ∈ entries -> ~ lists_device device (volume ≫= libhal_volume_get_uuid) e) /\
  (forall c, caller = Some c -> not_locked_out drive c).
Proof.
  unfold mount_allowed. intros H. inv_bind H. inv_bind H. destruct x, x0. split_and!.
  - intros [v ->]. inv_bind E. apply ask_inr in E1. apply ensure_inr in E as [Eb _]; [|intros; apply error_ends].
    destruct x as [[|] [e|]]; done.
  - unfold bailout_if_in_fstab in E0. destruct fstab as [entries|]; [|done]. exists entries. split; [done|].
    by eapply fstab_unlisted.
  - intros c ->. by eapply unlocked.
Qed.

Definition mount_actions : list string :=
  ["org.freedesktop.hal.storage.mount-fixed"; "org.freedesktop.hal.storage.mount-removable"].
Definition privileged (udi action caller : string) : Prop :=
  exists e, answered (libhal_device_is_caller_privileged send hal_ctx (Some udi) (Some action) (Some caller)) (Some "yes", e).
Lemma privilege_found denied udi action caller t t' l :
  (forall a r u, exists e, denied a r u = inl e) ->
  check_privilege send hal_ctx denied udi action caller t = inr (tt, t', l) -> privileged udi action caller.
Proof.
  intros Hd. unfold check_privilege. intros H. inv_bind H. apply ask_inr in E. destruct x as [[r|] e]; [|done]. cbn in H.
  case_bool_decide; [subst; by exists e|]. destruct (Hd action r t0) as [x Hx]. congruence.
Qed.
Lemma authorize_facts udi volume drive b caller t t' l :
  authorize_mount send hal_ctx udi volume drive b caller t = inr (tt, t', l) ->
  forall c, have_polkit = true -> caller = Some c -> exists action, action ∈ mount_actions /\ privileged udi action c.
Proof.
  unfold authorize_mount. intros H c Hp ->. inv_bind H. apply tlift_inr in E.
  destruct x as [action|]; [|done]. rewrite Hp in H. apply privilege_found in H; [|by intros; eexists].
  exists action. split; [|done]. clear H. unfold mount_action in E. unfold mount_actions.
  repeat case_match; simplify_eq; set_solver.
Qed.

Lemma new_dir_facts volume device label point t dir t' l :
  new_mount_dir link_fuel volume device label point t = inr (dir, t', l) ->
  exists name i, name = (if negb (point =s? "") then point else computed_name label) /\
    strchr name slash = false /\ dir = media_dir name i /\ dir ∉ directories (tl_media t).
Proof.
  unfold new_mount_dir. intros H. inv_bind H. inv_bind H. inv_bind H.
  assert (checks (check_not_mounted link_fuel volume device)) as Hc
    by (unfold check_not_mounted, already_mounted; solve_checks).
  pose proof (checks_media _ _ _ _ _ Hc E) as Hm.
  apply ensure_inr in E0 as [En ->]; [|intros; apply error_ends].
  unfold tmedia in E1. injection E1 as <- <- <-.
  destruct (free_dir_found _ _ _ _ _ _ _ _ H) as (j & -> & Hd). cbn in Hd. rewrite Hm in Hd.
  eexists _, j. split_and!; [done| |done..]. by apply negb_true_iff in En.
Qed.
End Facts.

(** ** Programs that are started *)
Definition starts_nothing {A} (m : tm A) : Prop := forall t, spawned (trace_of (m t)) = [].
Lemma nothing_then {A B} (m : tm A) (k : A -> tm B) : starts_nothing m -> (forall x, starts_nothing (k x)) -> starts_nothing (tbind m k).
Proof.
  intros Hm Hk t. specialize (Hm t). unfold tbind. destruct (m t) as [[[e u] l]|[[x u] l]]; [done|]. specialize (Hk x u).
  destruct (k x u) as [[[e v] l2]|[[y v] l2]]; cbn in *; rewrite spawned_app, Hm, Hk; done.
Qed.
Lemma nothing_media {A} (f : media -> A * media) : starts_nothing (tmedia f).
Proof. intros t. unfold tmedia. by destruct (f (tl_media t)). Qed.
Lemma nothing_checks {A} (m : tm A) : checks m -> starts_nothing m.
Proof. intros H t. apply H. Qed.
Lemma nothing_ensure b m : starts_nothing m -> starts_nothing (ensure b m).
Proof. by destruct b. Qed.
#[export] Hint Resolve nothing_media nothing_checks nothing_ensure : tools.
Ltac nothing_step :=
  match goal with
  | |- starts_nothing (tbind _ _) => apply nothing_then; [|intros ?]
  | |- starts_nothing (match ?x with _ => _ end) => destruct x
  | |- starts_nothing (if ?x then _ else _) => destruct x
  end.
Ltac solve_nothing := repeat nothing_step; eauto with tools.

Section Started.
Context {P : Platform} {SF : Sysfs} {BF : BlockFiles} {W : ToolWorld}.

Lemma nothing_rename : starts_nothing rename_new.
Proof. unfold rename_new, unlink_new, unknown_error. solve_nothing. Qed.
Lemma nothing_write content : starts_nothing (write_new content).
Proof. unfold write_new, unknown_error. solve_nothing. Qed.
#[local] Hint Resolve nothing_rename nothing_write : tools.
Lemma nothing_record entry : starts_nothing (record_mount entry).
Proof. unfold record_mount, get_mtab, unknown_error. solve_nothing. Qed.
#[local] Hint Resolve nothing_record : tools.

Lemma spawned_last {A B} (m : tm A) (k : A -> tm B) t :
  (forall x, starts_nothing (k x)) -> spawned (trace_of (tbind m k t)) = spawned (trace_of (m t)).
Proof.
  intros Hk. unfold tbind. destruct (m t) as [[[e u] l]|[[x u] l]]; [done|]. specialize (Hk x u).
  destruct (k x u) as [[[e v] l2]|[[y v] l2]]; cbn in *; rewrite spawned_app, Hk, app_nil_r; done.
Qed.
Lemma spawned_after {A B} (m : tm A) (k : A -> tm B) t :
  starts_nothing m ->
  spawned (trace_of (tbind m k t)) = [] \/
  exists x t1, spawned (trace_of (tbind m k t)) = spawned (trace_of (k x t1)).
Proof.
  intros Hm. specialize (Hm t). unfold tbind. destruct (m t) as [[[e u] l]|[[x u] l]]; [by left|]. right. exists x, u.
  destruct (k x u) as [[[e v] l2]|[[y v] l2]]; cbn in *; rewrite spawned_app, Hm; done.
Qed.
Lemma spawned_spawn args k t : (forall r, starts_nothing (k r)) -> spawned (trace_of (spawn args k t)) = [args].
Proof. intros Hk. unfold spawn. rewrite spawned_last; [done|]. intros _. apply Hk. Qed.
Lemma spawned_run_mount volume given remount dir args t :
  spawned (trace_of (run_mount volume given remount dir args t)) = [args].
Proof.
  apply spawned_spawn. intros r. unfold rmdir, unlink_new, unknown_error, unknown_filesystem. solve_nothing.
Qed.

Lemma spawned_perform volume rq device uid fstype dir t :
  spawned (trace_of (perform_mount volume rq device uid fstype dir t)) = [] \/
  spawned (trace_of (perform_mount volume rq device uid fstype dir t)) =
    [mount_command fstype (mount_option_string (rq_options rq)) device dir].
Proof.
  unfold perform_mount.
  match goal with |- spawned (trace_of (tbind ?m ?k ?t)) = [] \/ _ =>
    destruct (spawned_after m k t) as [H | (x & t1 & H)]; [|by left|right; rewrite H] end.
  - unfold mkdir, unknown_error. solve_nothing.
  - rewrite spawned_last by (intros; solve_nothing). apply spawned_run_mount.
Qed.
End Started.

(** ** The directories that are tried do not run out *)
#[global] Instance media_dir_inj name : Inj (=) (=) (media_dir name).
Proof.
  intros i j. unfold media_dir. intros H%(inj (String.append "/media/"))%(inj (String.append name)).
  repeat case_decide; simplify_eq/=; [done|]. by apply (inj pretty).
Qed.
Lemma media_dir_taken name fuel i t e u l :
  free_dir false name fuel i t = inl (e, u, l) ->
  e = Died NoFuel /\ forall k, (i <= k <= i + fuel)%nat -> media_dir name k ∈ directories (tl_media t).
Proof.
  revert i t l. induction fuel as [|fuel IH]; intros i t l; cbn [free_dir]; unfold tbind, path_exists, tmedia;
    case_bool_decide as Hd; cbn; try done.
  - intros [= <- <- <-]. split; [done|]. intros k Hk. by replace k with i by lia.
  - destruct (free_dir false name fuel (S i) _) as [[[e' u'] l']|[[? ?] ?]] eqn:E; [|done]. intros [= <- <- <-].
    destruct (IH _ _ _ E) as [-> Hall]. split; [done|]. intros k Hk.
    destruct (decide (k = i)) as [-> | Hne]; [done|]. apply (Hall k). lia.
Qed.
Lemma free_dir_ends name t : exists r, free_dir false name (size (directories (tl_media t))) 0 t = inr r.
Proof.
  destruct (free_dir false name (size (directories (tl_media t))) 0 t) as [[[e u] l]|r] eqn:E; [|by exists r].
  exfalso. apply media_dir_taken in E as [_ Hall]. set (n := size (directories (tl_media t))) in *.
  assert (list_to_set (media_dir name <$> seq 0 (S n)) ⊆@{gset string} directories (tl_media t)) as Hsub.
  { intros x. rewrite elem_of_list_to_set, list_elem_of_fmap. intros (k & -> & Hk%elem_of_seq). apply Hall. lia. }
  apply subseteq_size in Hsub. rewrite size_list_to_set in Hsub by (apply NoDup_fmap_2; [apply _|apply NoDup_seq]).
  rewrite length_fmap, length_seq in Hsub. unfold n in Hsub. lia.
Qed.

(** ** The lines of /media/.hal-mtab *)
Definition line_char (c : ascii) : bool := negb (bool_decide (c = "000"%char) || bool_decide (c = "010"%char)).
Definition field_char (c : ascii) : bool := line_char c && negb (bool_decide (c = "009"%char)).
Definition is_line (s : string) : Prop := all_chars line_char s = true.
Definition is_field (s : string) : Prop := all_chars field_char s = true.

Lemma strchr_absent (f : ascii -> bool) c s : f c = false -> all_chars f s = true -> strchr s c = false.
Proof.
  intros Hc. induction s as [|x s IH]; cbn; [done|]. intros [Hx Hs]%andb_true_iff. rewrite IH by done.
  rewrite bool_decide_false; [done|]. intros ->. congruence.
Qed.
Lemma field_is_line s : is_field s -> is_line s.
Proof. apply all_chars_impl. intros c [H _]%andb_true_iff. done. Qed.
Lemma cut_nul_id s : strchr s "000" = false -> cut_nul s = s.
Proof.
  induction s as [|c s IH]; cbn; [done|]. intros [Hc Hs]%orb_false_iff. rewrite decide_False by (by apply bool_decide_eq_false in Hc).
  by rewrite IH.
Qed.

Definition mtab_text (lines : list string) : string := foldr (fun line rest => line +:+ NEWLINE +:+ rest) "" lines.
Lemma mtab_text_app a b : mtab_text (a ++ b) = mtab_text a +:+ mtab_text b.
Proof. induction a as [|x a IH]; [done|]. cbn [mtab_text foldr app]. fold (mtab_text (a ++ b)). by rewrite IH, !string_app_assoc. Qed.
Lemma mtab_text_chars lines : Forall is_line lines -> all_chars (fun c => negb (bool_decide (c = "000"%char))) (mtab_text lines) = true.
Proof.
  induction 1 as [|x lines Hx _ IH]; [done|]. cbn [mtab_text foldr]. rewrite !all_chars_app. fold (mtab_text lines). rewrite IH.
  cbn. rewrite andb_true_r. eapply all_chars_impl, Hx. unfold line_char. intros c. by destruct (bool_decide (c = "000"%char)).
Qed.
Lemma cut_mtab lines : Forall is_line lines -> cut_nul (mtab_text lines) = mtab_text lines.
Proof. intros H%mtab_text_chars. apply cut_nul_id. by eapply strchr_absent in H. Qed.

Lemma join_mtab lines : join_lines (lines ++ [""]) = mtab_text lines.
Proof.
  unfold join_lines. induction lines as [|x lines IH]; [done|]. cbn [mtab_text foldr app]. fold (mtab_text lines). rewrite <- IH.
  by destruct lines.
Qed.

Section Lines.
Context {P : Platform} {SL : SplitLaws P}.

Lemma split_mtab lines : Forall is_line lines -> lines <> [] -> g_strsplit (mtab_text lines) NEWLINE 0 = lines ++ [""].
Proof.
  induction 1 as [|x lines Hx Hl IH]; [done|]. intros _. cbn [mtab_text foldr]. fold (mtab_text lines).
  change (NEWLINE +:+ mtab_text lines) with (String "010" (mtab_text lines)). unfold NEWLINE.
  rewrite split_all by by eapply strchr_absent in Hx. cbn. f_equal. unfold split_rest.
  destruct lines as [|y lines]; [done|]. rewrite bool_decide_false; [by apply IH|].
  cbn. destruct y; done.
Qed.

Lemma take_entry_skip selects a b :
  take_entry selects a = None -> take_entry selects (a ++ b) = '(u, m, l) ← take_entry selects b; Some (u, m, a ++ l).
Proof.
  induction a as [|x a IH]; cbn [take_entry app]; [by destruct (take_entry selects b) as [[[u m] l]|]|].
  assert (forall r : option (string * string * list string), ('(u, m, l) ← r; Some (u, m, x :: l)) = None -> r = None) as Hn
    by (by intros [[[u m] l]|]).
  assert (take_entry selects a = None -> ('(u, m, l) ← take_entry selects (a ++ b); Some (u, m, x :: l)) =
    '(u, m, l) ← take_entry selects b; Some (u, m, x :: a ++ l)) as Hs.
  { intros H%IH. rewrite H. by destruct (take_entry selects b) as [[[u m] l]|]. }
  repeat case_match; intros Hnone; try done; by apply Hs, Hn.
Qed.

Lemma split_field a s n : is_field a -> s <> "" -> 1 < n -> g_strsplit (a +:+ TAB +:+ s) TAB n = a :: g_strsplit s TAB (n - 1).
Proof.
  intros Ha Hs Hn. change (TAB +:+ s) with (String "009" s). unfold TAB. rewrite split_first; [|by eapply strchr_absent in Ha|done].
  f_equal. unfold split_rest. by rewrite bool_decide_false.
Qed.
Lemma split_entry device uid fstype options dir :
  is_field device -> is_field uid -> is_field fstype -> is_field options -> dir <> "" ->
  g_strsplit (mtab_entry device (Some uid) fstype options dir) TAB 6 = [device; uid; "0"; fstype; options; dir].
Proof.
  intros Hd Hu Hf Ho Hn. unfold mtab_entry. change (or_null (Some uid)) with uid.
  assert (forall a s, a +:+ TAB +:+ s <> "") as Hne by (by intros [|]).
  rewrite !split_field; try done; try lia; try apply Hne. by rewrite split_single.
Qed.
Lemma entry_is_line device uid fstype options dir :
  is_field device -> is_field uid -> is_field fstype -> is_field options -> is_line dir ->
  is_line (mtab_entry device (Some uid) fstype options dir).
Proof.
  intros Hd%field_is_line Hu%field_is_line Hf%field_is_line Ho%field_is_line Hn. unfold is_line, mtab_entry in *.
  change (or_null (Some uid)) with uid. rewrite !all_chars_app, Hd, Hu, Hf, Ho, Hn. done.
Qed.
End Lines.
