(* ===== verification/StorageToolsClaims.v ===== *)
(** * What the mount programs guarantee

    Which mount is run, for whom and with which options; and that mounting and
    unmounting leave /media as it was. *)

From Stdlib Require Import ZArith Lia Ascii SpecFloat.
From stdpp Require Import base list gmap strings option pretty fin_maps.
From S2P Require Import Prelude CStd Property Device DeviceStore FdiRules FdiInterp AccessCheck Bus Partutil Util Dbus DbusManager Libhal LibhalCalls Storage Hotplug LinuxSysfs LinuxDevice Blockdev UtilClaims DbusTheory ChangeSetClaims StorageTools StorageToolsTheory.

Definition yields {A} (m : tm A) (x : A) : Prop := exists t t' l, m t = inr (x, t', l).

(** One step that only checks: the run ends there, or goes on. *)
Ltac pass E M :=
  match goal with |- spawned (trace_of (tbind ?m ?k ?t)) = [] \/ _ =>
    let x := fresh "x" in let t1 := fresh "t" in let l1 := fresh "l" in let H := fresh "H" in let S := fresh "S" in
    destruct (spawned_checked m k t) as [H | (x & t1 & l1 & E & M & S & _)]; [|by left|rewrite S; clear S] end.

(** A run that failed after a program was started: it did not fail in a step that only checks. *)
Ltac later H E M :=
  let x := fresh "x" in let t1 := fresh "t" in let l1 := fresh "l" in let l2 := fresh "l" in let S := fresh "S" in
  apply failed_later in H as (x & t1 & l1 & l2 & E & M & H & S); [|done|solve_checks].

Section Safety.
Context {P : Platform} {SF : Sysfs} {BF : BlockFiles} {W : ToolWorld}.
Context (send : LibHalContext -> DBusMessage -> hm dbus_reply) (hal_ctx : option LibHalContext) (link_fuel : nat).
Context (getenv : string -> option string) (stdin : string).

(** The options are among those that the daemon says are valid for the device. *)
Definition options_are_valid (udi fstype : string) (options : list string) : Prop :=
  exists found key b,
    valid_options_key found fstype = inr key /\
    answered (libhal_device_get_property_strlist send hal_ctx (Some udi) (Some key)) (b, None) /\
    forall o, o ∈ options -> exists a, a ∈ default [] (b ≫= strv) /\ permits a o.
(** The directory is a new one, right under /media. *)
Definition new_media_dir (m : media) (dir : string) : Prop :=
  exists name i, strchr name slash = false /\ dir = media_dir name i /\ dir ∉ directories m.
Definition caller_may_mount (udi : string) (drive : LibHalDrive) (caller : string) : Prop :=
  not_locked_out send hal_ctx drive caller /\
  (have_polkit = true -> exists action, action ∈ mount_actions /\ privileged send hal_ctx udi action caller).

Lemma start_facts t device udi t' l :
  start_tool hal_ctx getenv t = inr ((device, udi), t', l) ->
  getenv "HAL_PROP_BLOCK_DEVICE" = Some device /\ getenv "HAL_PROP_INFO_UDI" = Some udi.
Proof.
  unfold start_tool, need_env. intros H. do 4 inv_bind H. injection H as <- <- <- _.
  destruct (getenv "HAL_PROP_BLOCK_DEVICE") eqn:Ed; [|done]. destruct (getenv "HAL_PROP_INFO_UDI") eqn:Eu; [|done].
  injection E as <- _ _. by injection E0 as <- _ _.
Qed.

Lemma handle_mount_spawns udi volume drive device uid caller t :
  let r := handle_mount send hal_ctx link_fuel udi volume drive device uid caller stdin t in
  spawned (trace_of r) = [] \/
  exists rq fstype dir,
    yields (read_request stdin) rq /\
    spawned (trace_of r) = [mount_command fstype (mount_option_string (rq_options rq)) device dir] /\
    options_are_valid udi fstype (rq_options rq) /\
    (is_remount (rq_options rq) = false -> new_media_dir (tl_media t) dir) /\
    (is_Some volume -> not_ignored send hal_ctx udi) /\
    (exists entries, fstab = Some entries /\
       forall e, e ∈ entries -> ~ lists_device link_fuel device (volume ≫= libhal_volume_get_uuid) e) /\
    (forall c, caller = Some c -> caller_may_mount udi drive c).
Proof.
  cbv zeta. unfold handle_mount.
  pass E1 M1; [solve_checks|]. pass E2 M2; [solve_checks|]. rename x0 into rq. pass E3 M3; [solve_checks|]. rename x0 into dir.
  pass E4 M4; [solve_checks|]. pass E5 M5; [solve_checks|]. pass E6 M6; [solve_checks|]. pass E7 M7; [solve_checks|].
  pass E8 M8; [solve_checks|].
  match goal with |- spawned (trace_of (perform_mount ?v ?rq ?d ?u ?f ?dir ?t)) = [] \/ _ =>
    destruct (spawned_perform v rq d u f dir t) as [H | H]; [by left | right; rewrite H] end.
  destruct x, x4. destruct (mount_allowed_facts _ _ _ _ _ _ _ _ _ _ _ E1) as (Hi & Hf & Hl).
  exists rq, x0.1, dir. split_and!; [by eexists _, _, _ | done | | | done..|].
  - destruct (strlist_found _ _ _ _ _ _ _ _ _ E6) as (b & Hb & <-). apply tlift_inr in E5.
    exists x0.2, x1, b. split_and!; [done..|]. by eapply options_permitted.
  - intros Hr. rewrite Hr in E3. unfold new_media_dir. rewrite <- M1, <- M2.
    destruct (new_dir_facts _ _ _ _ _ _ _ _ _ E3) as (name & i & _ & Hd). by exists name, i.
  - intros c ->. split; [by apply Hl|]. intros Hp. by eapply authorize_facts.
Qed.

(** C21 The mount program, which runs as root for a method call, starts at most one
    program.  That is mount, for the device that the daemon passed, with "nosuid,nodev" before
    options that the caller gave; each of them is one that the daemon lists as valid
    for the device, literally or behind an entry that ends in '=' (and a user
    identifier is a number).  Unless the device is remounted, the directory is one that
    did not exist, directly under /media.  The volume is not marked to be ignored; no
    entry of /etc/fstab names the device's file or the volume's UUID; and a caller that is
    known is not locked out of the drive, and has the privilege to mount when there
    are policies. *)
Theorem mount_runs_what_is_allowed t :
  let r := mount_main send hal_ctx link_fuel getenv stdin t in
  spawned (trace_of r) = [] \/
  exists device udi volume drive rq fstype dir,
    getenv "HAL_PROP_BLOCK_DEVICE" = Some device /\ getenv "HAL_PROP_INFO_UDI" = Some udi /\
    yields (volume_and_drive send hal_ctx udi) (volume, drive) /\
    yields (read_request stdin) rq /\
    spawned (trace_of r) = [mount_command fstype (mount_option_string (rq_options rq)) device dir] /\
    options_are_valid udi fstype (rq_options rq) /\
    (is_remount (rq_options rq) = false -> new_media_dir (tl_media t) dir) /\
    (is_Some volume -> not_ignored send hal_ctx udi) /\
    (exists entries, fstab = Some entries /\
       forall e, e ∈ entries -> ~ lists_device link_fuel device (volume ≫= libhal_volume_get_uuid) e) /\
    (forall c, INVOKED_BY_CONNECTION getenv = Some c -> caller_may_mount udi drive c).
Proof.
  cbv zeta. unfold mount_main.
  pass E1 M1; [unfold take_lock, lock_hal_mtab, unknown_error; solve_checks|].
  pass E2 M2; [solve_checks|]. pass E3 M3; [solve_checks|]. destruct x0 as [device udi], x1 as [volume drive]. cbn [fst snd] in *.
  edestruct handle_mount_spawns as [H | (rq & fstype & dir & Hrq & Hs & Ho & Hd & Hi & Hf & Hc)]; [left; exact H|].
  right. exists device, udi, volume, drive, rq, fstype, dir.
  destruct (start_facts _ _ _ _ _ E2) as [Hg Hu]. rewrite M3, M2, M1 in Hd.
  split_and!; try done. by eexists _, _, _.
Qed.
End Safety.

(** ** Mounting and unmounting *)
Section RoundTrip.
Context {P : Platform} {SL : SplitLaws P} {G : GText} {SF : Sysfs} {BF : BlockFiles} {W : ToolWorld}.
Context (send : LibHalContext -> DBusMessage -> hm dbus_reply) (hal_ctx : option LibHalContext) (link_fuel : nat).

Lemma run_mount_ok volume given remount dir args t x t' l : run_mount volume given remount dir args t = inr (x, t', l) -> t' = t.
Proof.
  unfold run_mount, spawn. intros H. inv_bind H. unfold tact in E. injection E as <- <- <-.
  destruct (run args) as [[status serr]|].
  - destruct (status =? 0); [by injection H as _ <- _|]. inv_bind H. by destruct (has_prefix serr _).
  - inv_bind H. by inv_bind H.
Qed.
Lemma record_ok entry t x t' l :
  record_mount entry t = inr (x, t', l) ->
  new_mtab_writable = true /\
  t' = mk_tool (tl_hald t) (mk_media (hal_mtab (tl_media t))
    (Some (cut_nul (default "" (hal_mtab (tl_media t))) +:+ entry +:+ NEWLINE)) (directories (tl_media t))).
Proof.
  unfold record_mount, get_mtab, write_new. intros H. inv_bind H. unfold tmedia in E. injection E as <- <- <-. inv_bind H.
  destruct new_mtab_writable; [|done]. split; [done|].
  destruct (hal_mtab (tl_media t)) as [c|] eqn:Em; [destruct mtab_readable; [|done]|];
    injection E as <- <- <-; cbn in H; rewrite Em in H; by injection H as _ <- _.
Qed.
Lemma rename_ok_inv t x t' l :
  rename_new t = inr (x, t', l) ->
  rename_ok = true /\ exists new, hal_mtab_new (tl_media t) = Some new /\
    t' = mk_tool (tl_hald t) (mk_media (Some new) None (directories (tl_media t))).
Proof.
  unfold rename_new, tmedia, tbind. destruct (hal_mtab_new (tl_media t)) as [new|]; [|done].
  destruct rename_ok; [|done]. cbn. intros [= _ <- _]. eauto.
Qed.

Lemma perform_media volume rq device uid fstype dir t x t' l :
  is_remount (rq_options rq) = false -> perform_mount volume rq device uid fstype dir t = inr (x, t', l) ->
  (dir ∉ directories (tl_media t)) /\ new_mtab_writable = true /\ rename_ok = true /\
  tl_media t' = mk_media (Some (cut_nul (default "" (hal_mtab (tl_media t))) +:+
      mtab_entry device uid fstype (mount_option_string (rq_options rq)) dir +:+ NEWLINE))
    None ({[ dir ]} ∪ directories (tl_media t)).
Proof.
  intros Hr. unfold perform_mount. rewrite Hr. intros H. inv_bind H. inv_bind H. apply run_mount_ok in E0 as ->.
  inv_bind E. inv_bind E. unfold mkdir, tmedia in E0. apply ensure_inr in E1 as [-> ->]; [|intros; apply error_ends].
  apply record_ok in E as [Hw ->]. apply rename_ok_inv in H as [Hrn (new & Hnew & ->)].
  destruct (bool_decide_reflect (dir ∉ directories (tl_media t))) as [Hd|Hd]; [|done]. cbn [andb] in E0.
  destruct (mkdir_ok dir); [|done]. injection E0 as <- _. cbn in Hnew. injection Hnew as <-. done.
Qed.

(** Requests that do not ask for a remount, and fields that fit on a line. *)
Definition plain_request (input : string) : Prop :=
  forall rq, yields (read_request input) rq ->
    is_remount (rq_options rq) = false /\ is_line (rq_mount_point rq) /\ is_field (rq_fstype rq) /\ Forall is_field (rq_options rq).
Definition plain_volume (volume : option LibHalVolume) : Prop :=
  (forall s, volume ≫= libhal_volume_get_label = Some s -> is_line s) /\
  (forall s, volume ≫= libhal_volume_get_fstype = Some s -> is_field s).

Lemma chosen_fstype_field udi volume given t r t' l :
  is_field given -> plain_volume volume -> choose_fstype send hal_ctx udi volume given t = inr (r, t', l) -> is_field r.1.
Proof.
  intros Hg [_ Hv]. unfold choose_fstype. destruct (negb _); intros H.
  - inv_bind H. by injection H as <- _ _.
  - injection H as <- _ _. cbn. destruct (volume ≫= libhal_volume_get_fstype) as [s|]; [|done].
    case_bool_decide; [done | by apply Hv].
Qed.
Lemma options_field options : Forall is_field options -> is_field (mount_option_string options).
Proof.
  intros H. unfold is_field, mount_option_string. rewrite !all_chars_app.
  assert (all_chars field_char (foldr (fun o rest => "," +:+ o +:+ rest) "" options) = true) as ->.
  { induction H as [|o options Ho _ IH]; [done|]. cbn [foldr]. by rewrite !all_chars_app, Ho, IH. }
  by destruct have_umount_hal.
Qed.
Lemma computed_name_line label : (forall s, label = Some s -> is_line s) -> is_line (computed_name label).
Proof.
  intros H. unfold is_line, computed_name.
  assert (all_chars line_char (match label with Some l => str_take 255 l | None => "disk" end) = true) as Hl.
  { destruct label as [s|]; [|done]. specialize (H s eq_refl). unfold is_line in H.
    rewrite <- (str_take_drop 255 s), all_chars_app in H. by apply andb_true_iff in H as [H _]. }
  revert Hl. generalize (match label with Some l => str_take 255 l | None => "disk" end). clear H.
  induction s as [|c s IH]; [done|]. cbn [string_map all_chars]. intros [Hc Hs]%andb_true_iff. rewrite IH by done.
  case_decide; [done | by rewrite Hc].
Qed.
Lemma pretty_line (i : nat) : is_line (pretty i).
Proof.
  replace (pretty i) with (pretty (Z.of_nat i)) by by destruct i.
  apply pretty_chars; [|lia]. intros d. unfold pretty_N_char. by repeat case_match.
Qed.
Lemma media_dir_line name i : is_line name -> is_line (media_dir name i).
Proof.
  intros H. unfold is_line, media_dir. rewrite !all_chars_app. rewrite H. case_decide; [done|].
  rewrite all_chars_app. by rewrite (pretty_line i).
Qed.

(** A mount that fails takes back what it has done. *)
Lemma run_mount_failed volume given dir args t e u l :
  run_mount volume given false dir args t = inl (e, u, l) -> dir ∈ directories (tl_media t) -> rmdir_ok dir = true ->
  tl_media u = mk_media (hal_mtab (tl_media t)) None (directories (tl_media t) ∖ {[ dir ]}).
Proof.
  intros H Hin Hrm. destruct t as [h m]. cbn in Hin |- *.
  assert (rmdir dir (mk_tool h m) = inr (true, mk_tool h (mk_media (hal_mtab m) (hal_mtab_new m) (directories m ∖ {[ dir ]})), [])) as Hr
    by (unfold rmdir, tmedia; cbn; by rewrite (bool_decide_true _ Hin), Hrm).
  unfold run_mount, spawn in H. apply tbind_inl in H as [H|(x & t1 & l1 & l2 & E & H & _)]; [done|].
  unfold tact in E. injection E as _ <- _. destruct (run args) as [[status serr]|].
  - destruct (status =? 0); [done|]. apply tbind_inl in H as [H|(x' & t1 & l3 & l4 & E & H & _)]; unfold tbind in *.
    + by rewrite Hr in H.
    + rewrite Hr in E. injection E as _ <- _. destruct (has_prefix serr _); by injection H as _ <- _.
  - unfold tbind in H. rewrite Hr in H. by injection H as _ <- _.
Qed.
Lemma perform_failed volume rq device uid fstype dir t e u l :
  perform_mount volume rq device uid fstype dir t = inl (e, u, l) -> spawned l <> [] ->
  is_remount (rq_options rq) = false -> rename_ok = true -> rmdir_ok dir = true ->
  tl_media u = mk_media (hal_mtab (tl_media t)) None (directories (tl_media t)).
Proof.
  intros H Hs Hr Hrn Hrm. unfold perform_mount in H. rewrite Hr in H.
  assert (starts_nothing (let~ made := mkdir dir in ensure made (unknown_error "Cannot create mount directory") ;/
     record_mount (mtab_entry device uid fstype (mount_option_string (rq_options rq)) dir))) as Hn.
  { unfold mkdir, unknown_error. pose proof nothing_record. solve_nothing. }
  apply tbind_inl in H as [H|(x & t1 & l1 & l2 & E & H & ->)]; [specialize (Hn t); by rewrite H in Hn|]. clear Hn Hs.
  inv_bind E. inv_bind E. unfold mkdir, tmedia in E0. apply ensure_inr in E1 as [-> ->]; [|intros; apply error_ends].
  apply record_ok in E as [_ ->].
  destruct (bool_decide_reflect (dir ∉ directories (tl_media t))) as [Hd|Hd]; [|done]. cbn [andb] in E0.
  destruct (mkdir_ok dir); [|done]. injection E0 as <- _.
  apply tbind_inl in H as [H|(y & t2 & l3 & l4 & E & H & ->)].
  - apply run_mount_failed in H as ->; [|cbn; set_solver|done]. cbn.
    by replace (({[dir]} ∪ directories (tl_media t)) ∖ {[dir]}) with (directories (tl_media t)) by set_solver.
  - apply run_mount_ok in E as ->. unfold rename_new, tmedia, tbind in H. cbn in H. by rewrite Hrn in H.
Qed.

(** What a mount leaves under /media. *)
Lemma handle_mount_media udi volume drive device uid caller input t t1 l1 :
  handle_mount send hal_ctx link_fuel udi volume drive device uid caller input t = inr (tt, t1, l1) ->
  plain_request input -> plain_volume volume ->
  exists fstype options dir, is_field fstype /\ is_field options /\ is_line dir /\ dir <> "" /\
    (dir ∉ directories (tl_media t)) /\ new_mtab_writable = true /\ rename_ok = true /\
    tl_media t1 = mk_media (Some (cut_nul (default "" (hal_mtab (tl_media t))) +:+
      mtab_entry device uid fstype options dir +:+ NEWLINE)) None ({[ dir ]} ∪ directories (tl_media t)).
Proof.
  unfold handle_mount. intros H Hrq Hv. inv_bind H. inv_bind H. rename x0 into rq.
  destruct (Hrq rq) as (Hr & Hp & Hf & Ho); [by eexists _, _, _|]. rewrite Hr in H.
  do 6 inv_bind H. apply (perform_media _ _ _ _ _ _ _ _ _ _ Hr) in H as (Hd & Hw & Hn & Hm).
  destruct (new_dir_facts _ _ _ _ _ _ _ _ _ E1) as (name & i & Hname & _ & Hdir & _).
  apply checks_media in E, E0, E1, E3, E4, E5, E6; eauto with tools.
  apply chosen_fstype_field in E2 as Hfs; [|done..]. apply checks_media in E2; [|eauto with tools].
  match type of Hd with _ ∉ directories (tl_media ?u) => assert (tl_media u = tl_media t) as Hmt by congruence end.
  rewrite Hmt in Hd, Hm.
  exists x1.1, (mount_option_string (rq_options rq)), x0. split_and!; try done.
  - by apply options_field.
  - rewrite Hdir. apply media_dir_line. rewrite Hname. destruct (negb _); [done|]. apply computed_name_line. apply Hv.
  - rewrite Hdir. by destruct name.
Qed.

(** The new line is the last one. *)
Lemma mtab_with_entry lines entry :
  Forall is_line lines -> is_line entry ->
  g_strsplit (cut_nul (cut_nul (mtab_text lines) +:+ entry +:+ NEWLINE)) NEWLINE 0 = lines ++ [entry; ""].
Proof.
  intros Hl He. rewrite (cut_mtab _ Hl).
  replace (mtab_text lines +:+ entry +:+ NEWLINE) with (mtab_text (lines ++ [entry])) by by rewrite mtab_text_app.
  assert (Forall is_line (lines ++ [entry])) as Hle by (apply Forall_app; by rewrite Forall_singleton).
  rewrite cut_mtab, split_mtab by (try done; by destruct lines). by rewrite <- app_assoc.
Qed.
Lemma entry_no_comment device uid fstype options dir :
  has_prefix device "#" = false -> has_prefix (mtab_entry device uid fstype options dir) "#" = false.
Proof. destruct device as [|c s]; [done|]. unfold has_prefix, mtab_entry. cbn. by repeat case_match; destruct s. Qed.
Lemma entry_taken selects lines device uid fstype options dir :
  is_field device -> is_field uid -> is_field fstype -> is_field options -> dir <> "" -> has_prefix device "#" = false ->
  selects device dir = true -> take_entry selects lines = None ->
  take_entry selects (lines ++ [mtab_entry device (Some uid) fstype options dir; ""]) = Some (uid, dir, lines ++ [""]).
Proof.
  intros Hd Hu Hf Ho Hne Hc Hs Hn. rewrite take_entry_skip by done. cbn [take_entry].
  by rewrite entry_no_comment, split_entry, Hs by done.
Qed.
Lemma mtab_loop_app a b m : mtab_loop (a ++ b) m = mtab_loop a m || mtab_loop b m.
Proof.
  induction a as [|x a IH]; [done|]. cbn [mtab_loop app]. destruct (has_prefix x "#"); [done|].
  repeat case_match; done.
Qed.
Lemma entry_seen lines device uid fstype options dir :
  is_field device -> is_field uid -> is_field fstype -> is_field options -> dir <> "" -> has_prefix device "#" = false ->
  mtab_loop (lines ++ [mtab_entry device (Some uid) fstype options dir; ""]) dir = true.
Proof.
  intros Hd Hu Hf Ho Hne Hc. rewrite mtab_loop_app. apply orb_true_iff. right. cbn [mtab_loop].
  rewrite entry_no_comment by done. change (String "009" "") with TAB. rewrite split_entry by done. by rewrite bool_decide_true.
Qed.

Lemma remove_mount_point_run dir t new :
  dir ∈ directories (tl_media t) -> hal_mtab_new (tl_media t) = Some new -> rmdir_ok dir = true -> rename_ok = true ->
  remove_mount_point dir t =
    inr (tt, mk_tool (tl_hald t) (mk_media (Some new) None (directories (tl_media t) ∖ {[ dir ]})), []).
Proof.
  intros Hin Hnew Hrm Hn. unfold remove_mount_point, rmdir, rename_new, tmedia, tbind.
  rewrite (bool_decide_true _ Hin), Hrm. cbn. by rewrite Hnew, Hn.
Qed.
(** Removing an entry that is found, when the programs and the files do their part. *)
Lemma handle_unmount_run udi volume drive device uid caller option_lazy option_force t t' l content dir others out :
  unmount_allowed send hal_ctx udi volume drive (Some device) caller t = inr (tt, t', l) ->
  hal_mtab (tl_media t) = Some content -> mtab_readable = true -> new_mtab_writable = true -> rename_ok = true ->
  take_entry (fun d _ => d =s? device) (g_strsplit (cut_nul content) NEWLINE 0) = Some (uid, dir, others) ->
  run (umount_command option_lazy option_force device) = Some (0, out) ->
  dir ∈ directories (tl_media t) -> rmdir_ok dir = true ->
  handle_unmount send hal_ctx udi volume drive (Some device) (Some uid) caller option_lazy option_force t =
    inr (tt, mk_tool (tl_hald t') (mk_media (Some (join_lines others)) None (directories (tl_media t) ∖ {[ dir ]})),
         l ++ [Spawned (umount_command option_lazy option_force device)]).
Proof.
  intros Ha Hc Hr Hw Hn Ht Hrun Hin Hrm.
  pose proof (checks_media _ _ _ _ _ (checks_unmount_allowed send hal_ctx udi volume drive (Some device) caller) Ha) as Hm.
  rewrite <- Hm in *. destruct t' as [h [mt new dirs]]. cbn in Hc, Hin. subst mt.
  unfold handle_unmount. generalize dependent (umount_command option_lazy option_force device). intros args Hrun.
  apply tbind_inr. eexists _, _, _, _. split; [exact Ha|]. split; [|reflexivity].
  unfold tbind at 1. unfold read_mtab, get_mtab, tbind at 1, tmedia. cbn. rewrite Hr. cbn. rewrite Ht. cbn.
  unfold authorize_unmount. rewrite (bool_decide_true (uid = uid)) by done. rewrite andb_false_r.
  unfold write_new. rewrite Hw. unfold run_umount, spawn. cbn. rewrite Hrun. cbn.
  by rewrite (remove_mount_point_run _ _ (join_lines others)).
Qed.

(** C23 A mount that fails leaves no trace.  When the mount program has run mount, and ends with an
    error, for a request that is not a remount, then (where directories can be removed, and the
    list can be renamed) the list and the directories under /media are what they
    were, and no half-written list is left. *)
Theorem failed_mount_leaves_no_trace udi volume drive device uid caller input t e u l :
  handle_mount send hal_ctx link_fuel udi volume drive device uid caller input t = inl (e, u, l) ->
  spawned l <> [] -> (forall rq, yields (read_request input) rq -> is_remount (rq_options rq) = false) ->
  rename_ok = true -> (forall dir, rmdir_ok dir = true) ->
  tl_media u = mk_media (hal_mtab (tl_media t)) None (directories (tl_media t)).
Proof.
  intros H Hs Hrq Hrn Hrm. unfold handle_mount in H.
  later H E1 M1. later H E2 M2.
  match type of E2 with _ = inr (?rq, _, _) =>
    assert (is_remount (rq_options rq) = false) as Hr by (apply Hrq; by eexists _, _, _) end.
  later H E3 M3. later H E4 M4. later H E5 M5. later H E6 M6. later H E7 M7. later H E8 M8.
  apply perform_failed in H; [|done..|by apply Hrm]. congruence.
Qed.

(** C22 Mounting and unmounting leave /media as it was.  The request is not a remount, and its fields, the label and
    the file system type of the volume, the device and the user fit on a line of /media/.hal-mtab (no zero byte and no
    newline; no tab, where a tab separates); the device does not begin with #.  The list is readable, consists
    of complete lines and has no earlier entry of the device.  When the mount program ends well, exactly one new
    directory exists, and the daemon finds it in the list of what HAL has mounted.  From the files as they are then, for
    whatever the daemon holds meanwhile, the unmount program of the same user, if nothing forbids it and umount and the
    removal of the directory succeed, ends well, whatever the options and without a
    privilege: that directory is gone, the list has the same text as before (empty, if
    there was none), so that the entries of other devices stay, and no
    half-written list is left. *)
Theorem mount_then_unmount_restores udi volume drive device uid caller input t t1 l1 lines :
  handle_mount send hal_ctx link_fuel udi volume drive device (Some uid) caller input t = inr (tt, t1, l1) ->
  plain_request input -> plain_volume volume -> is_field device -> has_prefix device "#" = false -> is_field uid ->
  default "" (hal_mtab (tl_media t)) = mtab_text lines -> Forall is_line lines ->
  take_entry (fun d _ => d =s? device) lines = None -> mtab_readable = true ->
  exists dir,
    (dir ∉ directories (tl_media t)) /\ directories (tl_media t1) = {[ dir ]} ∪ directories (tl_media t) /\
    hal_util_is_mounted_by_hald (fun _ => hal_mtab (tl_media t1)) dir = true /\
    forall udi' volume' drive' caller' option_lazy option_force t2 t3 l3 out,
      tl_media t2 = tl_media t1 ->
      unmount_allowed send hal_ctx udi' volume' drive' (Some device) caller' t2 = inr (tt, t3, l3) ->
      run (umount_command option_lazy option_force device) = Some (0, out) -> rmdir_ok dir = true ->
      handle_unmount send hal_ctx udi' volume' drive' (Some device) (Some uid) caller' option_lazy option_force t2 =
        inr (tt, mk_tool (tl_hald t3) (mk_media (Some (mtab_text lines)) None (directories (tl_media t))),
             l3 ++ [Spawned (umount_command option_lazy option_force device)]).
Proof.
  intros H Hrq Hv Hd Hc Hu Hold Hl Hn Hr.
  destruct (handle_mount_media _ _ _ _ _ _ _ _ _ _ H Hrq Hv) as (fs & opts & dir & Hf & Ho & Hdl & Hne & Hdir & Hw & Hrn & Hm).
  rewrite Hold in Hm. set (entry := mtab_entry device (Some uid) fs opts dir) in *.
  assert (is_line entry) as Hel by by apply entry_is_line.
  exists dir. rewrite Hm. split_and!; [done | done | |].
  - unfold hal_util_is_mounted_by_hald. cbn. change (String "010" "") with NEWLINE.
    rewrite mtab_with_entry by done. by apply entry_seen.
  - intros udi' volume' drive' caller' lazy force t2 t3 l3 out Hm2 Ha Hrun Hrm.
    erewrite (handle_unmount_run _ _ _ _ _ _ _ _ _ _ _ _ dir (lines ++ [""])); try done.
    + rewrite join_mtab, Hm2. cbn. replace (({[dir]} ∪ directories (tl_media t)) ∖ {[dir]}) with (directories (tl_media t)) by set_solver. done.
    + by rewrite Hm2.
    + rewrite mtab_with_entry by done. apply entry_taken; try done. by rewrite bool_decide_true.
    + rewrite Hm2. cbn. set_solver.
Qed.
End RoundTrip.

(** ** Instances

    A daemon that knows a stick with one volume; a user mounts the volume, and
    unmounts it. *)
Module Instances.
Import AsciiPlatform Example ChangeSetClaims.Instances AsciiSplit.

#[export] Instance stick_files : Sysfs := {|
  fopen _ := None;
  readlink _ := None;
  stat_ok _ := false;
  is_dir _ := false;
  strtod _ := (S754_zero false, false);
  has_wireless_extensions _ := false;
  uninit _ := 0;
  pci_ids_text := "";
  usb_ids_text := "";
  ids_line_buffer := "";
|}.
#[export] Instance stick_mounts : BlockFiles := {|
  proc_mounts := Some [];
  st_rdev _ := None;
  root_dev := None;
  is_symlink _ := false;
  readdir _ := None;
  mdstat := None;
  udevadm _ _ := None;
|}.
#[export] Instance stick_text : GText := {|
  g_strcanon s valid sub := string_map (fun c => if strchr valid c then c else sub) s;
  g_strsplit_set s seps := [s];
  g_strchug := skip_space;
|}.
(** Everything works; /media has a directory of another stick. *)
#[export] Instance stick_world : ToolWorld := {|
  have_polkit := false;
  have_umount_hal := false;
  eject_program := "/usr/bin/eject";
  fstab := Some [mk_mntent "LABEL=/" "/" "ext3" "defaults"; mk_mntent "/dev/sda2" "/home" "ext3" "defaults"];
  mtab_readable := true;
  new_mtab_writable := true;
  rename_ok := true;
  mkdir_ok _ := true;
  rmdir_ok _ := true;
  run _ := Some (0, "");
  open_busy _ _ := false;
  lock_ok := true;
  system_bus_ok := true;
|}.

Definition STICK : string := "/org/freedesktop/Hal/devices/storage_stick".
Definition PART : string := "/org/freedesktop/Hal/devices/volume_part".
Definition stick : HalDevice := mk_device STICK 0 0
  (list_to_map [("info.capabilities", PStrlist ["block"; "storage"]); ("block.device", PString "/dev/sdb");
                ("storage.hotpluggable", PBoolean true)]).
Definition part : HalDevice := mk_device PART 0 0
  (list_to_map [("info.capabilities", PStrlist ["block"; "volume"]); ("block.device", PString "/dev/sdb1");
                ("block.storage_device", PString STICK); ("volume.ignore", PBoolean false); ("volume.is_mounted", PBoolean false);
                ("volume.fstype", PString "vfat"); ("volume.label", PString "a/b");
                ("volume.mount.valid_options", PStrlist ["ro"; "umask="; "uid="])]).
Definition plugged_in : hald :=
  mk_hald (mk_daemon (mk_env {[ 0%nat := computer; 1%nat := stick; 2%nat := part ]} [2; 1; 0]%nat [] [] 0 []) [])
    (mk_bus 0 0 []) ∅ [] ∅ ∅.
Definition old_lines : list string := ["# HAL"; mtab_entry "/dev/sdc1" (Some "500") "vfat" "nosuid,nodev" "/media/a-b"].
Definition before : tool := mk_tool plugged_in (mk_media (Some (mtab_text old_lines)) None {[ "/media/a-b" ]}).
Definition environment (name : string) : option string :=
  if name =s? "HAL_PROP_BLOCK_DEVICE" then Some "/dev/sdb1"
  else if name =s? "HAL_PROP_INFO_UDI" then Some PART
  else if name =s? "HAL_METHOD_INVOKED_BY_UID" then Some "1000"
  else if name =s? "HAL_METHOD_INVOKED_BY_SYSTEMBUS_CONNECTION_NAME" then Some ":1.7"
  else None.
(** The connection that helpers have to the daemon. *)
Definition daemon_connection : LibHalContext := mk_ctx (Some 3%nat) true false false true (fun _ => true) None.
Definition typed (options : string) : string := NEWLINE +:+ NEWLINE +:+ options +:+ NEWLINE.
Definition mounting (options : string) := mount_main example_send (Some daemon_connection) 0 environment (typed options) before.
Definition ends_well {A} (r : (tool_end * tool * list tool_action) + (A * tool * list tool_action)) : bool :=
  match r with inl _ => false | inr _ => true end.
Lemma ended (r : (tool_end * tool * list tool_action) + (unit * tool * list tool_action)) :
  ends_well r = true -> r = inr (tt, end_of r, trace_of r).
Proof. by destruct r as [|[[[] t] l]]. Qed.

(** The label names the directory, without its slash, and behind the number of a free one. *)
Example a_mount : ends_well (mounting ("ro" +:+ TAB +:+ "uid=1000")) = true /\
  spawned (trace_of (mounting ("ro" +:+ TAB +:+ "uid=1000"))) =
    [["/bin/mount"; "-t"; "vfat"; "-o"; "nosuid,nodev,ro,uid=1000"; "/dev/sdb1"; "/media/a-b-1"]].
Proof. by split; vm_compute. Qed.
Example an_option_is_refused : match mounting "suid" with inl (e, _, _) => Some e | inr _ => None end =
  Some (Exit "org.freedesktop.Hal.Device.Volume.InvalidMountOption" "The option 'suid' is not allowed for uid=1000").
Proof. by vm_compute. Qed.
(** The value of an option may hold another option, which comes behind "nosuid". *)
Example a_comma_passes : spawned (trace_of (mounting "umask=0,suid")) =
  [["/bin/mount"; "-t"; "vfat"; "-o"; "nosuid,nodev,umask=0,suid"; "/dev/sdb1"; "/media/a-b-1"]].
Proof. by vm_compute. Qed.

(** The structures that the programs build from what the daemon answers. *)
Definition found (h : hald) : option LibHalVolume * LibHalDrive :=
  match volume_and_drive example_send (Some daemon_connection) PART (mk_tool h (mk_media None None ∅)) with
  | inr (vd, _, _) => vd
  | inl _ => (None, drive_of daemon_connection "" no_members)
  end.
Definition mount_run :=
  handle_mount example_send (Some daemon_connection) 0 PART (found plugged_in).1 (found plugged_in).2 "/dev/sdb1" (Some "1000")
    (Some ":1.7") (typed "ro") before.
(** The daemon has seen the mount meanwhile. *)
Definition mounted_part : HalDevice := mk_device PART 0 0 (<["volume.is_mounted" := PBoolean true]> (props part)).
Definition mounted_hald : hald :=
  mk_hald (mk_daemon (mk_env {[ 0%nat := computer; 1%nat := stick; 2%nat := mounted_part ]} [2; 1; 0]%nat [] [] 0 []) [])
    (mk_bus 0 0 []) ∅ [] ∅ ∅.
Definition meanwhile : tool := mk_tool mounted_hald (tl_media (end_of mount_run)).

(** Where mount does not know the file system. *)
Definition broken_world : ToolWorld := {|
  have_polkit := false;
  have_umount_hal := false;
  eject_program := "/usr/bin/eject";
  fstab := Some [];
  mtab_readable := true;
  new_mtab_writable := true;
  rename_ok := true;
  mkdir_ok _ := true;
  rmdir_ok _ := true;
  run _ := Some (32 * 256, "mount: unknown filesystem type 'vfat'");
  open_busy _ _ := false;
  lock_ok := true;
  system_bus_ok := true;
|}.
Definition failing_run :=
  handle_mount (W := broken_world) example_send (Some daemon_connection) 0 PART (found plugged_in).1 (found plugged_in).2
    "/dev/sdb1" (Some "1000") (Some ":1.7") (typed "ro") before.
Definition error_of {A} (r : (tool_end * tool * list tool_action) + (A * tool * list tool_action)) : tool_end :=
  match r with inl (e, _, _) => e | inr _ => Usage end.
Lemma failed {A} (r : (tool_end * tool * list tool_action) + (A * tool * list tool_action)) :
  ends_well r = false -> r = inl (error_of r, end_of r, trace_of r).
Proof. by destruct r as [[[e t] l]|]. Qed.

Lemma failed_mount_leaves_no_trace_witness :
  error_of failing_run = Exit "org.freedesktop.Hal.Device.Volume.UnknownFilesystemType" "Unknown file system 'vfat'" /\
  spawned (trace_of failing_run) <> [] /\ tl_media (end_of failing_run) = tl_media before.
Proof.
  split; [by vm_compute|]. split; [by vm_compute|].
  apply (failed_mount_leaves_no_trace (W := broken_world) example_send (Some daemon_connection) 0 PART (found plugged_in).1
    (found plugged_in).2 "/dev/sdb1" (Some "1000") (Some ":1.7") (typed "ro") before (error_of failing_run) (end_of failing_run)
    (trace_of failing_run)).
  - apply failed. by vm_compute.
  - by vm_compute.
  - intros rq (t & t' & l & H). vm_compute in H. by injection H as <- _ _.
  - done.
  - done.
Defined.

Lemma mount_then_unmount_restores_witness :
  exists dir h l,
    hal_util_is_mounted_by_hald (fun _ => hal_mtab (tl_media (end_of mount_run))) dir = true /\
    handle_unmount example_send (Some daemon_connection) PART (found mounted_hald).1 (found mounted_hald).2 (Some "/dev/sdb1")
      (Some "1000") (Some ":1.7") true false meanwhile = inr (tt, mk_tool h (tl_media before), l).
Proof.
  destruct (mount_then_unmount_restores example_send (Some daemon_connection) 0 PART (found plugged_in).1 (found plugged_in).2
    "/dev/sdb1" "1000" (Some ":1.7") (typed "ro") before (end_of mount_run) (trace_of mount_run) old_lines)
    as (dir & _ & _ & Hseen & Hun).
  - apply ended. by vm_compute.
  - intros rq (t & t' & l & H). vm_compute in H. injection H as <- _ _. split_and!; [by vm_compute..|]. repeat constructor.
  - split; intros s H; vm_compute in H; injection H as <-; by vm_compute.
  - by vm_compute.
  - by vm_compute.
  - by vm_compute.
  - by vm_compute.
  - repeat constructor; by vm_compute.
  - by vm_compute.
  - by vm_compute.
  - eexists dir, _, _. split; [exact Hseen|]. eapply Hun; [done| |done|done]. apply ended. by vm_compute.
Defined.
End Instances.
